(* ===== verification/_CoqProject ===== *)
-Q . S2P
Prelude.v
Utf.v
Text.v
F32.v
Definitions.v
TypeIdEnums.v
TypeId.v
GameData.v
GameDataSpec.v
SkillData.v
SkillDataSpec.v
Serde.v
SerdeFacts.v
Schema.v
SerdeSpec.v
ProtoGeneral.v
ProtoLogin.v
ProtoMovement.v
ProtoChat.v
ProtoCombat.v
ProtoInventory.v
ProtoCharacter.v
ProtoWorld.v
ProtoSpawn.v
Packets.v
Entities.v
Position.v
PositionSpec.v
Security.v
SecurityFacts.v
SecuritySpec.v
Frame.v
FrameFacts.v
Stream.v
StreamSpec.v
Network.v
NetworkSpec.v
Changes.v
Skills.v
Inventory.v
InventoryFacts.v
InventorySpec.v
InventoryRows.v
Population.v
PopulationSpec.v
Progress.v
ProgressSpec.v
AgentStates.v
AgentStatesSpec.v
Equipment.v
EquipmentSpec.v
Characters.v
Movement.v
Visibility.v
VisibilitySpec.v
Combat.v
CombatSpec.v
Accounts.v
Gateway.v
Admission.v
AdmissionSpec.v
Sync.v
SyncSpec.v
CharSelect.v
CharSelectSpec.v
Join.v
Persist.v
PersistSpec.v
JoinSpec.v
Spawning.v
SpawningSpec.v
Show.v
Chat.v
ChatSpec.v
Decryptor.v
DecryptorSpec.v
Navmesh.v
NavmeshSpec.v
Schedule.v
ScheduleSpec.v
