(* ===== verification/Prelude.v ===== *)
(** * Skrillax: a verification development of the server

    Skrillax is a server for the game Silkroad Online, written in Rust. A
    gateway lets clients log in and hands them over to an agent server, which
    runs the game. The development models the program from the bytes of a
    connection to the rules of the game and the rows of the database.

    ** The program and its model

    A connection is a stream of bytes. [silkroad-network] cuts it into frames
    ([frame.rs], [codec.rs]), some of them encrypted with the session key that
    a handshake agrees on ([silkroad-security], [security_setup.rs]). A frame
    holds the opcode and the body of a packet, or a part of a massive packet
    ([stream.rs]). [silkroad-protocol] declares the packets; the macros of
    [silkroad-serde-derive] generate from a declaration how its values are
    written, read and measured. The gateway checks the credentials of a user,
    asks an agent for a place over HTTP ([silkroad-rpc]) and passes the token
    it gets to the client. The agent admits who hands in the token through a
    queue of reservations ([population]), lets the user choose a character
    ([login]), and then runs systems over the components of the user's entity:
    inventory, skills, experience, health, states. Changes of a component are
    recorded, merged ([changes.rs]) and applied to the database
    ([persistence]).

    Files, in the order of their dependencies, and the code they model:

    - Prelude: outcomes (value, error, panic), machine integers, little-endian
      bytes, lists, automation.
    - Utf, Text, F32: the encodings of strings, the text functions the code
      uses (lines, splitting, parsing of numbers), and single precision, from
      the standard library of Rust, with bounds on its rounding.
    - Definitions, TypeIdEnums, TypeId: [silkroad-definitions], with the
      classification of objects and its four numbers.
    - GameData, GameDataSpec, SkillData, SkillDataSpec: [silkroad-data], the
      rows of the tables of the game and their loading.
    - Serde, SerdeFacts, Schema, SerdeSpec: [silkroad-serde] and
      [silkroad-serde-derive]. A type deriving the traits is a value of [ty];
      [write], [read] and [byte_size] are the generated implementations.
    - ProtoGeneral ... ProtoSpawn, Packets: [silkroad-protocol], a file for a
      module or for some that belong together, with the constructor functions,
      and the two tables of packets.
    - Entities: entities and their lookup ([world/lookup.rs]).
    - Position, PositionSpec: locations, headings, regions, speeds and the height
      of a map ([game-base/src/pos.rs], [comp/pos.rs], [heightmap.rs]).
    - Security, SecurityFacts, SecuritySpec: [security.rs] and [passcode.rs].
    - Frame, FrameFacts: [frame.rs] and [codec.rs].
    - Stream, StreamSpec: the reader, the writer and the handshake driver.
    - Network, NetworkSpec: the tasks and channels of a connection, the server
      that accepts them, and their identifiers (the rest of [stream.rs],
      [server.rs], [sid.rs]), as operations in any order.
    - Changes: [changes.rs]; the interface [Change] of mergeable changes and
      [KeyedChange] of changes with one key each.
    - Skills: the skill book, an instance of [KeyedChange].
    - Inventory, InventoryFacts, InventorySpec: [game-base/src/inventory.rs].
    - InventoryRows: the stored rows of the items, the statements of a change
      and the loading, in [agent/src/comp/inventory.rs] and the loop of
      [agent/src/persistence/mod.rs] that executes them.
    - Population, PopulationSpec: [agent/src/population] as a step relation.
    - Progress, ProgressSpec: experience, levels, skill points, gold, health,
      damage, stat points, masteries and skills under [agent/src/comp] and
      [agent/src/game].
    - AgentStates, AgentStatesSpec: [agent/src/agent], the state transitions of
      an entity.
    - Equipment, EquipmentSpec: [agent/src/game/inventory.rs], inventory
      requests and what may be worn.
    - Characters: the tables of the characters and their queries
      ([db/character.rs], [login/character_loader.rs]), the character of a row,
      and the health and mana of a level.
    - Movement: [agent/states/movement.rs] and the strolling of monsters.
    - Visibility, VisibilitySpec: [game/visibility.rs].
    - Combat, CombatSpec: minds, attacks, actions, damage, death, targets and
      picking up ([game/mind.rs], [game/damage.rs], [agent/states/action.rs]).
    - Accounts: users, servers, news and their queries ([gateway/src/login.rs],
      [agent/src/db]), and the calls of [silkroad-rpc]; [AgentRpc] is the
      interface under which the gateway makes them.
    - Gateway: [silkroad-gateway]: the patcher, the news, the list of servers,
      the requests of a client, its start and its commands.
    - Admission, AdmissionSpec: [agent/src/login/web.rs] and the
      authentication of sessions; the agents as an instance of [AgentRpc]; how
      an agent starts and registers ([agent/src/main.rs], [db/server.rs]).
    - Sync, SyncSpec: [agent/src/sync], the collectors and the distribution.
    - CharSelect, CharSelectSpec: [agent/src/login], the requests on the list
      of characters, as a step relation of all sessions and their tasks.
    - Join, JoinSpec: [agent/src/input], [agent/src/net], joining with a
      character, what a client is sent when it has loaded, and logging out.
    - Persist, PersistSpec: [agent/src/persistence], the changes of every
      component, the tasks that store them, and a tick of a session.
    - Spawning, SpawningSpec: [world/spawning.rs], [comp/spawner.rs],
      [game/unique.rs]: spawners, monsters, uniques and drops.
    - Show, Chat, ChatSpec: [agent/src/chat] and [agent/src/mall]: messages,
      commands, the window of game masters, teleports, and tokens of the mall,
      with the printing of floats and regions.
    - Decryptor, DecryptorSpec: [silkroad-packet-decryptor].
    - Navmesh, NavmeshSpec: the files of [silkroad-navmesh].
    - Schedule, ScheduleSpec: [agent/src/main.rs], the plugins of all modules of
      the agent with the systems they add and the order of these, and the
      loaded data ([world/data.rs]).

    A struct is a record and an enum an inductive type with the names of the
    source; integers are [Z] with their wrap-around written out (the release
    profile does not check overflow); a [HashMap] is a [gmap]; a mutating method
    returns the new value, next to its result where it can fail after a change.
    A system of the game is the function it computes for one entity.

    ** What the theorems show

    - Wire format: a value of a type that is read as it is written decodes from
      its encoding whatever follows ([decode_encode]; not so a list that ends by
      a mark or has no size, [other_lists_not_decoded]), the decoder is
      prefix-deterministic
      ([decode_prefix]), yields well-typed values ([decode_legal]) and never
      panics on client packets ([deserialize_total]); sizes are exact where
      lists are framed by one byte ([byte_size_exact], [server_packet_serialized]).
    - Security: the order of the handshake ([established_after_handshake]), its
      completeness for honest clients ([honest_client_accepted]), its decision
      on every key ([start_challenge_decides]), and decryption
      ([encrypt_decrypt]).
    - Streams: frames survive ([frame_round_trip]) and do not depend on how
      bytes arrive ([decoding_ignores_chunking]); end to end, a client with an
      accepted challenge opens the connection and all it sends is delivered
      ([connection_delivers]), other first answers are refused
      ([handshake_refuses]), and nothing malformed stops the reader
      ([malformed_packets_skipped]).
    - Connections between tasks: whatever the order of the reading task, the
      writing task and the calls of the game, and wherever either half of the
      socket fails, the game gets what has been read in order and is told of the
      end only after all of it ([client_reaches_game]); what the game sent before it let a stream go is
      written ([goodbye_is_written]), and streams that the game is handed have
      completed their handshake and have identifiers of their own
      ([streams_are_distinct]).
    - The tick of the agent: every system without a timer runs once in a tick,
      the pipelines from input to update run in order, those of systems with a
      timer when these are due, and other pairs of systems in either order
      ([tick_is_ordered], for any engine with the laws of [Engine]).
    - From credentials to a session: who plays has given the password of the
      account ([players_are_identified]), and a user who gives it gets there if
      the agent is online and has a place left ([login_leads_to_play]), through
      the gateway, the call to the agent and the token; an agent that starts is found by the gateway with the token
      and the addresses this takes ([started_agent_is_found]); counters,
      capacity and tokens in every reachable state ([population_invariant]), the
      decision of a reservation ([reserve_spot_decides]), and single use of
      tokens ([token_admits_once]).
    - Character selection: requests concern the user of the session only
      ([others_unchanged]), the result of a task that a session waits for is
      answered by the packet of its request ([waiting_is_answered]), although a
      request that comes with the result of the last one can be lost
      ([request_lost_reachable]), and the effect of creating, deleting and
      restoring on the list ([created_character_loads], [deletion_until_end]).
    - Joining, leaving and persistence: a request to join with a character of
      the list is answered with the packets of the character and a player, others
      by an error ([join_answered]); a character that logs out is loaded as it
      was if none of the changes recorded last are merged
      ([logout_is_restored]; [optimize_moves_unsound] says why); the stored rows follow the inventory and load as
      it was ([database_follows_inventory], [stored_inventory_loads]); merged
      changes have the effect of the recorded ones ([optimize_keyed],
      [skills_persisted]).
    - Rules of the game: quantities of items and recorded changes
      ([move_item_quantity], [add_item_quantity]), worn items fit
      ([worn_items_fit]), experience is conserved and its loop ends
      ([receive_experience_settles]), points are paid for, a target dies once,
      an entity has one state ([one_state_kept]).
    - Game data: rows are read as they were written, parameters of skills
      included but for two numbers of a panic ([skill_row_round_trip],
      [level_row_round_trip]), the loop over
      them ends ([params_loop_ends]), a file loads exactly when its rows parse
      ([load_lines_decides]), and what is read is in range ([rows_typed]).
    - Navigation mesh: the regions of the map are the enabled ones
      ([enabled_regions_exact]), and heights are looked up inside of the grid
      wherever an entity is ([heights_never_panic]).
    - Around a player: a client shows what is in the radius
      ([client_shows_surroundings], [visibility_update_decides]), updates reach
      the clients they concern ([updates_distributed]), and what is sent is
      legal ([visibility_messages_legal], [sync_messages_legal]), so that the
      theorems on the wire format apply; messages reach whom they are for
      ([chat_delivers]) and the command that sets a level reaches it
      ([level_command_reaches]).
    - Monsters and fights: a spawner counts its living monsters
      ([spawners_count]); a mind requests to act only on what is alive and in
      reach ([mind_acts_in_reach]), an attack lands once ([attack_lands]), the
      damage of a tick is accounted for entity by entity ([fight_accounted]),
      who fought is rewarded once ([fighters_rewarded]), and when an action
      stops the server ([action_panics]).
    - Captures: the search finds an exponent of the session and the capture is
      rewritten to its plain frames ([capture_decrypted]).
    - Where the code does something else than it means to, a theorem states what
      it does, for instance [dead_entity_walks] and [massive_frames_payload].

    ** Fuel and bounds

    [decode_loop], [next_loop] and [read_loop] take a frame of at least six
    bytes per round, so that the length of the buffer is enough fuel
    ([decode_loop_fuel], [next_eq], [start_loop_eq] remove it). [pow_loop] has a
    round per bit of a 32-bit exponent. [level_loop] takes its fuel as an
    argument; [receive_experience_settles] gives the number of rounds after
    which it has ended. [draw_token] counts the retries of the code. The
    iterator over the regions takes at most 65536 steps
    ([enabled_regions_exact]), the search of the decryptor as many as the
    modulus ([break_security_finds]), and the printing of a float at most 90
    digits, more than any of them has.

    ** Parameters

    Blowfish is a class of block ciphers with its laws ([BlockCipherLaws]);
    the witnesses use a cipher that satisfies them. The linear algebra of the
    vector library is a class too ([Cgmath]), without laws, with a plane as
    instance; the timers of the engine are the class [Timers], with the laws
    [TimerLaws], and what systems it runs in a tick the class [Engine], with
    those of its documentation; bcrypt is the class [Bcrypt], and the reader of packet headers
    [Pktparse]. [powi], [powf], the calendar of a timestamp, [LOWER] of the
    database, the text of IPv6 addresses, Windows-1252, the archive of the game
    data and the formats of its meshes, the files of captures, random draws and
    clock readings are arguments, and so are the iteration orders of hash maps
    and sets.

    ** Not modelled

    Sockets, of which a connection has what its peer sends and what it was
    written, and the choices of the task runtime and of the engine: their
    orders are arguments or any order that the code allows. Parsing of the
    command lines and of the files of the configuration, and the formatting of
    log messages. The transport of the calls between the servers, of which the
    theorems state what it delivers. *)
From stdpp Require Import base list option numbers.
From Stdlib Require Import ZArith Lia.

(** ** Scope and basic notations *)

Declare Scope skr_scope.
Delimit Scope skr_scope with skr.
#[global] Open Scope Z_scope.

(** ** Outcomes

    A Rust computation returns a value, returns an error of its error type,
    or panics (index out of range, [unwrap] on nothing, division by zero). *)

Inductive outcome (E A : Type) : Type :=
| Ok (a : A)
| Err (e : E)
| Panic.
Arguments Ok {E A} _.
Arguments Err {E A} _.
Arguments Panic {E A}.

#[export] Instance outcome_ret {E} : MRet (outcome E) := fun A a => Ok a.
#[export] Instance outcome_bind {E} : MBind (outcome E) := fun A B f m =>
  match m with
  | Ok a => f a
  | Err e => Err e
  | Panic => Panic
  end.
#[export] Instance outcome_fmap {E} : FMap (outcome E) := fun A B f m =>
  match m with
  | Ok a => Ok (f a)
  | Err e => Err e
  | Panic => Panic
  end.

(** [result.map_err(f)]: the conversion the [?] operator applies to errors. *)
Definition map_err {E F A : Type} (f : E -> F) (m : outcome E A) : outcome F A :=
  match m with
  | Ok a => Ok a
  | Err e => Err (f e)
  | Panic => Panic
  end.

(** [option.ok_or(e)]. *)
Definition ok_or {E A : Type} (o : option A) (e : E) : outcome E A :=
  match o with Some a => Ok a | None => Err e end.

Definition is_ok {E A : Type} (m : outcome E A) : bool :=
  match m with Ok _ => true | _ => false end.

Lemma bind_ok {E A B} (m : outcome E A) (f : A -> outcome E B) b :
  m ≫= f = Ok b -> exists a, m = Ok a /\ f a = Ok b.
Proof. destruct m; simpl; intros H; [eauto | discriminate | discriminate]. Qed.

Lemma ok_bind {E A B} (a : A) (f : A -> outcome E B) : Ok a ≫= f = f a.
Proof. reflexivity. Qed.

Lemma map_err_ok {E F A} (f : E -> F) (m : outcome E A) a :
  map_err f m = Ok a <-> m = Ok a.
Proof. destruct m; simpl; split; congruence. Qed.

(** ** Machine integers

    The release profile of the workspace leaves [overflow-checks] off, so the
    arithmetic operators of Rust wrap; a cast [as] truncates. A value of a
    [w]-bit unsigned type is a [Z] in [0, 2^w). *)

Definition wrap (w : Z) (z : Z) : Z := z mod 2 ^ w.
Abbreviation u8 := (wrap 8).
Abbreviation u16 := (wrap 16).
Abbreviation u32 := (wrap 32).
Abbreviation u64 := (wrap 64).

(** Two's complement reading of the low [w] bits, for [as i16], [as i32], ... *)
Definition swrap (w : Z) (z : Z) : Z := (z + 2 ^ (w - 1)) mod 2 ^ w - 2 ^ (w - 1).
Abbreviation i16 := (swrap 16).
Abbreviation i32 := (swrap 32).
Abbreviation i64 := (swrap 64).

Definition fits (w : Z) (z : Z) : bool := (0 <=? z) && (z <? 2 ^ w).
Definition sfits (w : Z) (z : Z) : bool := (- 2 ^ (w - 1) <=? z) && (z <? 2 ^ (w - 1)).

Abbreviation is_u8 := (fun z => fits 8 z = true).

(** [saturating_add] and [saturating_sub] of an unsigned type. *)
Definition sat_add (w a b : Z) : Z := Z.min (a + b) (2 ^ w - 1).
Definition sat_sub (a b : Z) : Z := Z.max (a - b) 0.

Lemma fits_spec w z : fits w z = true <-> 0 <= z < 2 ^ w.
Proof. unfold fits. rewrite andb_true_iff, Z.leb_le, Z.ltb_lt. tauto. Qed.

Lemma sfits_spec w z : sfits w z = true <-> - 2 ^ (w - 1) <= z < 2 ^ (w - 1).
Proof. unfold sfits. rewrite andb_true_iff, Z.leb_le, Z.ltb_lt. tauto. Qed.

Lemma wrap_small w z : fits w z = true -> wrap w z = z.
Proof. rewrite fits_spec. intros H. apply Z.mod_small, H. Qed.

Lemma wrap_range w z : 0 <= w -> 0 <= wrap w z < 2 ^ w.
Proof. intros Hw. apply Z.mod_pos_bound. apply Z.pow_pos_nonneg; lia. Qed.

Lemma wrap_fits w z : 0 <= w -> fits w (wrap w z) = true.
Proof. intros Hw. apply fits_spec, wrap_range, Hw. Qed.

Lemma wrap_wrap w z : 0 <= w -> wrap w (wrap w z) = wrap w z.
Proof. intros Hw. apply wrap_small, wrap_fits, Hw. Qed.

Lemma swrap_small w z : 0 < w -> sfits w z = true -> swrap w z = z.
Proof.
  intros Hw. rewrite sfits_spec. unfold swrap. intros H.
  replace (2 ^ w) with (2 * 2 ^ (w - 1)).
  - rewrite Z.mod_small; lia.
  - rewrite <- Z.pow_succ_r by lia. f_equal. lia.
Qed.

Lemma swrap_wrap w z : 0 < w -> swrap w (wrap w z) = swrap w z.
Proof.
  intros Hw. unfold swrap, wrap. f_equal.
  rewrite Zplus_mod_idemp_l. reflexivity.
Qed.

Lemma wrap_swrap w z : 0 < w -> fits w z = true -> wrap w (swrap w z) = z.
Proof.
  intros Hw Hz. rewrite <- (wrap_small w z Hz) at 2. unfold wrap, swrap.
  rewrite Zminus_mod_idemp_l. f_equal. lia.
Qed.

Lemma u32_i32 z : fits 32 z = true -> u32 (i32 z) = z.
Proof. apply wrap_swrap. lia. Qed.

(** Bit operations on numbers whose bits do not overlap. *)
Lemma land_disjoint k a b : 0 <= k -> 0 <= b < 2 ^ k -> Z.land (a * 2 ^ k) b = 0.
Proof.
  intros Hk Hb. apply Z.bits_inj'. intros n Hn. rewrite Z.land_spec, Z.bits_0.
  destruct (Z.lt_ge_cases n k).
  - rewrite Z.mul_pow2_bits_low by lia. reflexivity.
  - rewrite <- (Z.mod_small b (2 ^ k)) by assumption.
    rewrite Z.mod_pow2_bits_high by lia. apply andb_false_r.
Qed.

Lemma lor_disjoint k a b : 0 <= k -> 0 <= b < 2 ^ k -> Z.lor (a * 2 ^ k) b = a * 2 ^ k + b.
Proof.
  intros Hk Hb. pose proof (Z.add_lor_land (a * 2 ^ k) b) as E.
  rewrite (land_disjoint k a b Hk Hb) in E. lia.
Qed.

Lemma land_pow2 k z : 0 <= k -> Z.land z (2 ^ k) = Z.b2z (Z.testbit z k) * 2 ^ k.
Proof.
  intros Hk. apply Z.bits_inj'. intros n Hn.
  rewrite Z.land_spec, Z.pow2_bits_eqb by lia.
  destruct (Z.eqb_spec k n) as [<-|Hne].
  - rewrite Z.mul_pow2_bits, Z.sub_diag, andb_true_r by lia.
    destruct (Z.testbit z k); reflexivity.
  - rewrite andb_false_r. destruct (Z.lt_ge_cases n k).
    + symmetry. apply Z.mul_pow2_bits_low. lia.
    + rewrite Z.mul_pow2_bits by lia. destruct (Z.testbit z k); simpl.
      * symmetry. apply (Z.pow2_bits_false 0). lia.
      * symmetry. apply Z.bits_0.
Qed.

(** ** Little-endian bytes

    [to_le_bytes] and [from_le_bytes]; a byte is a [Z] in [0, 256). *)

Fixpoint le_bytes (n : nat) (z : Z) : list Z :=
  match n with
  | O => []
  | S n => z mod 256 :: le_bytes n (z / 256)
  end.

Fixpoint le_num (bs : list Z) : Z :=
  match bs with
  | [] => 0
  | b :: bs => b + 256 * le_num bs
  end.

Definition bytes_ok (bs : list Z) : bool := forallb (fits 8) bs.

Lemma le_bytes_length n z : length (le_bytes n z) = n.
Proof. revert z; induction n; intros; simpl; auto. Qed.

Lemma bytes_ok_app a b : bytes_ok (a ++ b) = bytes_ok a && bytes_ok b.
Proof. apply forallb_app. Qed.

Lemma byte_mod_fits z : fits 8 (z mod 256) = true.
Proof. apply (wrap_fits 8 z). lia. Qed.

Lemma le_bytes_ok n z : bytes_ok (le_bytes n z) = true.
Proof.
  revert z; induction n; intros z; [reflexivity|].
  cbn [le_bytes bytes_ok forallb]. rewrite byte_mod_fits. apply IHn.
Qed.

Lemma le_num_bytes n z : le_num (le_bytes n z) = wrap (8 * Z.of_nat n) z.
Proof.
  revert z; induction n; intros z.
  - unfold wrap. simpl. rewrite Z.mod_1_r. reflexivity.
  - cbn [le_bytes le_num]. rewrite IHn. unfold wrap.
    replace (8 * Z.of_nat (S n)) with (8 + 8 * Z.of_nat n) by lia.
    rewrite Z.pow_add_r by lia. change (2 ^ 8) with 256.
    rewrite (Z.mul_comm 256 (2 ^ _)), (Z.mul_comm (2 ^ _) 256).
    rewrite Z.rem_mul_r; [reflexivity | lia |].
    apply Z.pow_pos_nonneg; lia.
Qed.

Lemma le_num_bytes_fits n z :
  fits (8 * Z.of_nat n) z = true -> le_num (le_bytes n z) = z.
Proof. intros H. rewrite le_num_bytes. apply wrap_small, H. Qed.

Lemma le_num_range bs :
  bytes_ok bs = true -> 0 <= le_num bs < 2 ^ (8 * Z.of_nat (length bs)).
Proof.
  induction bs as [|b bs IH]; [simpl; lia|].
  cbn [bytes_ok forallb le_num length]. rewrite andb_true_iff, fits_spec.
  intros [Hb Hbs]. specialize (IH Hbs).
  replace (8 * Z.of_nat (S (length bs))) with (8 + 8 * Z.of_nat (length bs)) by lia.
  rewrite Z.pow_add_r by lia. change (2 ^ 8) with 256 in *. lia.
Qed.

Lemma le_bytes_num bs : bytes_ok bs = true -> le_bytes (length bs) (le_num bs) = bs.
Proof.
  induction bs as [|b bs IH]; [reflexivity|].
  cbn [bytes_ok forallb le_num length le_bytes]. rewrite andb_true_iff, fits_spec.
  intros [Hb Hbs]. change (2 ^ 8) with 256 in Hb.
  replace ((b + 256 * le_num bs) mod 256) with b.
  - replace ((b + 256 * le_num bs) / 256) with (le_num bs); [rewrite IH by assumption; reflexivity|].
    rewrite Z.mul_comm, Z.div_add by lia. rewrite Z.div_small; lia.
  - rewrite Z.mul_comm, Z.mod_add by lia. rewrite Z.mod_small; lia.
Qed.

(** ** List helpers *)

(** Split off exactly [n] bytes, as [read_exact] does; [None] at end of input. *)
Definition take_exact {A} (n : nat) (bs : list A) : option (list A * list A) :=
  if (n <=? length bs)%nat then Some (firstn n bs, skipn n bs) else None.

Lemma take_exact_app {A} (a b : list A) : take_exact (length a) (a ++ b) = Some (a, b).
Proof.
  unfold take_exact. rewrite length_app.
  replace (length a <=? length a + length b)%nat with true
    by (symmetry; apply Nat.leb_le; lia).
  rewrite take_app_length, drop_app_length. reflexivity.
Qed.

Lemma take_exact_app' {A} n (a b : list A) :
  length a = n -> take_exact n (a ++ b) = Some (a, b).
Proof. intros <-. apply take_exact_app. Qed.

Lemma take_exact_some {A} n (bs a b : list A) :
  take_exact n bs = Some (a, b) -> bs = a ++ b /\ length a = n.
Proof.
  unfold take_exact. destruct (Nat.leb_spec n (length bs)); [|discriminate].
  intros [= <- <-]. split; [symmetry; apply take_drop|].
  rewrite firstn_length_le; lia.
Qed.

Definition sumZ (l : list Z) : Z := foldr Z.add 0 l.

Lemma sumZ_app a b : sumZ (a ++ b) = sumZ a + sumZ b.
Proof. induction a; simpl; [reflexivity|]. unfold sumZ in *. simpl. lia. Qed.

(** ** Automation *)

Create HintDb skr discriminated.
#[export] Hint Resolve wrap_fits byte_mod_fits le_bytes_ok : skr.
#[export] Hint Extern 1 (fits ?w (wrap ?w _) = true) => (apply wrap_fits; lia) : skr.
Create Rewrite HintDb skr_rw.
#[export] Hint Rewrite @length_app le_bytes_length @length_map @length_cons @length_nil : skr_rw.

(** Case analysis on the scrutinee of a match in the goal or a hypothesis. *)
Ltac case_match_goal :=
  match goal with
  | |- context [match ?x with _ => _ end] => let E := fresh "E" in destruct x eqn:E
  end.
Ltac case_match_hyp H :=
  match type of H with
  | context [match ?x with _ => _ end] => let E := fresh "E" in destruct x eqn:E
  end.

(** [lia] with division and remainder by constants. *)
Ltac zlia := Z.to_euclidean_division_equations; lia.

(** Split boolean conjunctions in hypotheses and turn comparisons into [Z] facts. *)
Ltac split_andb :=
  repeat match goal with
  | H : _ && _ = true |- _ => apply andb_true_iff in H; destruct H
  | H : (_ <=? _) = true |- _ => apply Z.leb_le in H
  | H : (_ <? _) = true |- _ => apply Z.ltb_lt in H
  | H : (_ =? _) = true |- _ => apply Z.eqb_eq in H
  | H : (_ <=? _) = false |- _ => apply Z.leb_gt in H
  | H : (_ <? _) = false |- _ => apply Z.ltb_ge in H
  | H : (_ =? _) = false |- _ => apply Z.eqb_neq in H
  end.

Lemma NoDup_map_filter {A B} (f : A -> B) (p : A -> bool) l :
  NoDup (map f l) -> NoDup (map f (List.filter p l)).
Proof.
  induction l as [|x l IH]; [easy|]. cbn. inversion_clear 1 as [|? ? Hx Hl]. destruct (p x); cbn; [|auto].
  constructor; [|auto]. rewrite list_elem_of_In, in_map_iff in *. intros (y & E & Hy).
  apply Hx. apply filter_In in Hy. exists y. tauto.
Qed.

Lemma filter_filter {A} (f g : A -> bool) l : List.filter f (List.filter g l) = List.filter (fun x => f x && g x) l.
Proof.
  induction l as [|x l IH]; [reflexivity|]. cbn [List.filter]. destruct (g x); cbn [List.filter]; destruct (f x); cbn; congruence.
Qed.

Lemma filter_same {A} (f g : A -> bool) l : (forall x, x ∈ l -> f x = g x) -> List.filter f l = List.filter g l.
Proof.
  induction l as [|x l IH]; intros H; [reflexivity|]. cbn. rewrite (H x (list_elem_of_here _ _)).
  rewrite IH; [reflexivity|]. intros y Hy. apply H. right. exact Hy.
Qed.
