(* ===== verification/Utf.v ===== *)
(** Unicode text as Rust's [String] holds it: a list of scalar values, with
    the UTF-8 encoding of [String::as_bytes] / [String::from_utf8] and the
    UTF-16 encoding of [str::encode_utf16] / [String::from_utf16]. *)
From stdpp Require Import base list option strings.
From Stdlib Require Import ZArith Lia.
From S2P Require Import Prelude.

(** A Unicode scalar value ([char]): no surrogate, at most U+10FFFF. *)
Definition is_char (c : Z) : bool :=
  ((0 <=? c) && (c <? 0xD800)) || ((0xE000 <=? c) && (c <? 0x110000)).

Definition is_string (s : list Z) : bool := forallb is_char s.

(** One-byte characters; for these a UTF-8 length is the number of characters. *)
Definition is_ascii (s : list Z) : bool := forallb (fun c => (0 <=? c) && (c <? 0x80)) s.

(** A string literal; the literals of the source are ASCII. *)
Definition chars (s : string) : list Z :=
  map (fun c => Z.of_nat (Ascii.nat_of_ascii c)) (String.list_ascii_of_string s).

(** ** UTF-8 *)

Definition utf8_char (c : Z) : list Z :=
  if c <? 0x80 then [c]
  else if c <? 0x800 then [0xC0 + c / 64; 0x80 + c mod 64]
  else if c <? 0x10000 then [0xE0 + c / 4096; 0x80 + (c / 64) mod 64; 0x80 + c mod 64]
  else [0xF0 + c / 262144; 0x80 + (c / 4096) mod 64; 0x80 + (c / 64) mod 64; 0x80 + c mod 64].

(** [String::as_bytes]; [String::len] is the length of this list. *)
Definition as_bytes (s : list Z) : list Z := concat (map utf8_char s).

Definition str_len (s : list Z) : Z := Z.of_nat (length (as_bytes s)).

Definition is_cont (b : Z) : bool := (0x80 <=? b) && (b <? 0xC0).

(** [String::from_utf8]: [None] on an ill-formed sequence. *)
Fixpoint from_utf8 (bs : list Z) : option (list Z) :=
  match bs with
  | [] => Some []
  | b0 :: r0 =>
    if (0 <=? b0) && (b0 <? 0x80) then cons b0 <$> from_utf8 r0
    else match r0 with
    | [] => None
    | b1 :: r1 =>
      if (0xC2 <=? b0) && (b0 <? 0xE0) && is_cont b1 then
        cons ((b0 - 0xC0) * 64 + (b1 - 0x80)) <$> from_utf8 r1
      else match r1 with
      | [] => None
      | b2 :: r2 =>
        let c := (b0 - 0xE0) * 4096 + (b1 - 0x80) * 64 + (b2 - 0x80) in
        if (0xE0 <=? b0) && (b0 <? 0xF0) && is_cont b1 && is_cont b2
             && (0x800 <=? c) && is_char c then cons c <$> from_utf8 r2
        else match r2 with
        | [] => None
        | b3 :: r3 =>
          let c := (b0 - 0xF0) * 262144 + (b1 - 0x80) * 4096 + (b2 - 0x80) * 64 + (b3 - 0x80) in
          if (0xF0 <=? b0) && (b0 <? 0xF8) && is_cont b1 && is_cont b2 && is_cont b3
               && (0x10000 <=? c) && is_char c then cons c <$> from_utf8 r3
          else None
        end
      end
    end
  end.

(** ** UTF-16 *)

Definition utf16_char (c : Z) : list Z :=
  if c <? 0x10000 then [c]
  else [0xD800 + (c - 0x10000) / 1024; 0xDC00 + (c - 0x10000) mod 1024].

(** [str::encode_utf16]. *)
Definition encode_utf16 (s : list Z) : list Z := concat (map utf16_char s).

(** [String::from_utf16]: [None] on an unpaired surrogate. *)
Fixpoint from_utf16 (us : list Z) : option (list Z) :=
  match us with
  | [] => Some []
  | u0 :: r0 =>
    if is_char u0 && (u0 <? 0x10000) then cons u0 <$> from_utf16 r0
    else match r0 with
    | [] => None
    | u1 :: r1 =>
      if (0xD800 <=? u0) && (u0 <? 0xDC00) && (0xDC00 <=? u1) && (u1 <? 0xE000) then
        cons (0x10000 + (u0 - 0xD800) * 1024 + (u1 - 0xDC00)) <$> from_utf16 r1
      else None
    end
  end.

(** ** Lemmas *)

(** Decide a condition of the decoders by linear arithmetic. *)
Ltac utf_cond :=
  repeat match goal with
  | |- context [if ?b then _ else _] =>
    first [ replace b with true by (symmetry; unfold is_cont, is_char; zlia)
          | replace b with false by (symmetry; unfold is_cont, is_char; zlia) ];
    cbv iota
  end.

Lemma from_utf8_char c r :
  is_char c = true -> from_utf8 (utf8_char c ++ r) = cons c <$> from_utf8 r.
Proof.
  unfold is_char. intros Hc. unfold utf8_char.
  repeat case_match; cbn [app from_utf8]; cbv zeta; utf_cond; repeat f_equal; zlia.
Qed.

Lemma is_string_cons c s : is_string (c :: s) = is_char c && is_string s.
Proof. reflexivity. Qed.

Lemma as_bytes_cons c s : as_bytes (c :: s) = utf8_char c ++ as_bytes s.
Proof. reflexivity. Qed.

Lemma encode_utf16_cons c s : encode_utf16 (c :: s) = utf16_char c ++ encode_utf16 s.
Proof. reflexivity. Qed.

Lemma from_utf8_as_bytes s : is_string s = true -> from_utf8 (as_bytes s) = Some s.
Proof.
  induction s as [|c s IH]; [reflexivity|].
  rewrite is_string_cons, andb_true_iff, as_bytes_cons. intros [Hc Hs].
  rewrite from_utf8_char, IH by assumption. reflexivity.
Qed.

Lemma utf8_char_ok c : is_char c = true -> bytes_ok (utf8_char c) = true.
Proof.
  unfold is_char. intros Hc. unfold utf8_char, bytes_ok, fits.
  change (2 ^ 8) with 256. repeat case_match; cbn [forallb]; zlia.
Qed.

Lemma as_bytes_ok s : is_string s = true -> bytes_ok (as_bytes s) = true.
Proof.
  induction s as [|c s IH]; [reflexivity|].
  rewrite is_string_cons, andb_true_iff, as_bytes_cons. intros [Hc Hs].
  rewrite bytes_ok_app, utf8_char_ok, IH by assumption. reflexivity.
Qed.

Lemma as_bytes_ascii s : is_ascii s = true -> length (as_bytes s) = length s.
Proof.
  induction s as [|c s IH]; [reflexivity|].
  unfold is_ascii in *. cbn [forallb]. rewrite andb_true_iff, as_bytes_cons. intros [Hc Hs].
  rewrite length_app, IH by assumption.
  unfold utf8_char. replace (c <? 0x80) with true by lia. reflexivity.
Qed.

Lemma from_utf16_char c r :
  is_char c = true -> from_utf16 (utf16_char c ++ r) = cons c <$> from_utf16 r.
Proof.
  unfold is_char. intros Hc. unfold utf16_char.
  repeat case_match; cbn [app from_utf16]; cbv zeta; utf_cond; repeat f_equal; zlia.
Qed.

Lemma from_utf16_encode s : is_string s = true -> from_utf16 (encode_utf16 s) = Some s.
Proof.
  induction s as [|c s IH]; [reflexivity|].
  rewrite is_string_cons, andb_true_iff, encode_utf16_cons. intros [Hc Hs].
  rewrite from_utf16_char, IH by assumption. reflexivity.
Qed.

Lemma encode_utf16_fits s :
  is_string s = true -> forallb (fits 16) (encode_utf16 s) = true.
Proof.
  induction s as [|c s IH]; [reflexivity|].
  rewrite is_string_cons, andb_true_iff, encode_utf16_cons. intros [Hc Hs].
  rewrite forallb_app, (IH Hs), andb_true_r. unfold is_char in Hc.
  unfold utf16_char, fits. change (2 ^ 16) with 65536.
  case_match; cbn [forallb]; zlia.
Qed.

Lemma encode_utf16_ascii s : is_ascii s = true -> length (encode_utf16 s) = length s.
Proof.
  induction s as [|c s IH]; [reflexivity|].
  unfold is_ascii in *. cbn [forallb]. rewrite andb_true_iff, encode_utf16_cons. intros [Hc Hs].
  rewrite length_app, IH by assumption.
  unfold utf16_char. replace (c <? 0x10000) with true by lia. reflexivity.
Qed.

(** A decoded text is well formed, and encodes back to the bytes it came from. *)
Lemma from_utf8_sound_aux n bs s :
  (length bs <= n)%nat -> bytes_ok bs = true ->
  from_utf8 bs = Some s -> is_string s = true /\ as_bytes s = bs.
Proof.
  revert bs s; induction n as [|n IH]; intros bs s Hn Hok.
  { destruct bs; [|simpl in Hn; lia]. intros [= <-]. auto. }
  destruct bs as [|b0 r0]; [intros [= <-]; auto|].
  assert (Hstep : forall c r s', (length r <= n)%nat -> bytes_ok r = true ->
            is_char c = true -> cons c <$> from_utf8 r = Some s' ->
            is_string s' = true /\ as_bytes s' = utf8_char c ++ r).
  { intros c r s' Hr Hokr Hc H. destruct (from_utf8 r) as [t|] eqn:E; [|discriminate].
    injection H as <-. destruct (IH r t Hr Hokr E) as [Ht <-].
    rewrite is_string_cons, as_bytes_cons, Hc, Ht. auto. }
  cbn [bytes_ok forallb length] in Hok, Hn. cbn [from_utf8].
  destruct ((0 <=? b0) && (b0 <? 128)) eqn:E0.
  { intros H. apply Hstep in H as [H1 ->]; [|lia|split_andb; assumption|unfold is_char; lia].
    split; [assumption|]. unfold utf8_char. utf_cond. reflexivity. }
  destruct r0 as [|b1 r1]; [discriminate|].
  destruct (_ && is_cont b1) eqn:E1.
  { intros H. unfold is_cont in E1. cbn in Hn, Hok.
    apply Hstep in H as [H1 ->]; [|lia|split_andb; assumption|unfold is_char; lia].
    split; [assumption|]. unfold utf8_char. utf_cond. cbn [app]. repeat f_equal; zlia. }
  destruct r1 as [|b2 r2]; [discriminate|]. cbv zeta.
  destruct (_ && is_char ((b0 - 224) * 4096 + (b1 - 128) * 64 + (b2 - 128))) eqn:E2.
  { intros H. apply andb_true_iff in E2 as [E2 Hc]. unfold is_cont in E2. cbn in Hn, Hok.
    apply Hstep in H as [H1 ->]; [|lia|split_andb; assumption|assumption].
    split; [assumption|]. unfold utf8_char. utf_cond. cbn [app]. repeat f_equal; zlia. }
  destruct r2 as [|b3 r3]; [discriminate|]. cbv zeta.
  destruct (_ && is_char ((b0 - 240) * 262144 + (b1 - 128) * 4096 + (b2 - 128) * 64 + (b3 - 128)))
    eqn:E3; [|discriminate].
  intros H. apply andb_true_iff in E3 as [E3 Hc]. unfold is_cont in E3. cbn in Hn, Hok.
  apply Hstep in H as [H1 ->]; [|lia|split_andb; assumption|assumption].
  split; [assumption|]. unfold is_char in Hc. unfold utf8_char. utf_cond. cbn [app]. repeat f_equal; zlia.
Qed.

Lemma from_utf8_sound bs s :
  bytes_ok bs = true -> from_utf8 bs = Some s -> is_string s = true /\ as_bytes s = bs.
Proof. apply (from_utf8_sound_aux (length bs)). reflexivity. Qed.

Lemma from_utf16_char_valid us s : from_utf16 us = Some s -> is_string s = true.
Proof.
  remember (length us) as n eqn:Hn. assert (Hle : (length us <= n)%nat) by lia. clear Hn.
  revert us s Hle; induction n as [|n IH]; intros us s Hle.
  { destruct us; [|simpl in Hle; lia]. intros [= <-]. reflexivity. }
  destruct us as [|u0 r0]; [intros [= <-]; reflexivity|]. cbn in Hle. cbn [from_utf16].
  destruct (is_char u0 && (u0 <? 65536)) eqn:E0.
  { destruct (from_utf16 r0) as [t|] eqn:E; [|discriminate]. intros [= <-].
    apply IH in E; [|lia]. apply andb_true_iff in E0 as [E0 _]. rewrite is_string_cons, E0, E. reflexivity. }
  destruct r0 as [|u1 r1]; [discriminate|]. cbn in Hle.
  destruct (_ && (u1 <? 57344)) eqn:E1; [|discriminate].
  destruct (from_utf16 r1) as [t|] eqn:E; [|discriminate]. intros [= <-].
  apply IH in E; [|lia]. rewrite is_string_cons, E. unfold is_char. lia.
Qed.
