(* ===== verification/Text.v ===== *)
(** The parts of the standard library of Rust that read text: splitting,
    lines, and integers in decimal.

    A string is a list of scalar values, as in Utf.v. *)
From stdpp Require Import base list option strings.
From Stdlib Require Import ZArith Lia.
From S2P Require Import Prelude Utf.

(** ** Splitting *)

(** [str::split] at a character: one piece more than there are separators. *)
Fixpoint split (sep : Z) (s : list Z) : list (list Z) :=
  match s with
  | [] => [[]]
  | c :: s =>
      if c =? sep then [] :: split sep s
      else match split sep s with
           | piece :: pieces => (c :: piece) :: pieces
           | [] => [[c]]
           end
  end.

(** The pieces put together again. *)
Fixpoint join (sep : Z) (pieces : list (list Z)) : list Z :=
  match pieces with
  | [] => []
  | [piece] => piece
  | piece :: pieces => piece ++ sep :: join sep pieces
  end.

Definition tab : Z := 9.
Definition newline : Z := 10.
Definition carriage_return : Z := 13.

(** [split("\r\n")] *)
Fixpoint split_crlf (s : list Z) : list (list Z) :=
  match s with
  | [] => [[]]
  | c :: s =>
      let rest := match s with
                  | d :: s' => if (c =? carriage_return) && (d =? newline) then Some (split_crlf s') else None
                  | [] => None
                  end in
      match rest with
      | Some pieces => [] :: pieces
      | None =>
          match split_crlf s with
          | piece :: pieces => (c :: piece) :: pieces
          | [] => [[c]]
          end
      end
  end.

(** [strip_suffix('\r')], or the string. *)
Definition strip_cr (s : list Z) : list Z :=
  match rev s with
  | c :: r => if c =? carriage_return then rev r else s
  | [] => s
  end.

(** [str::lines]: pieces end with a newline, before which a carriage return is
    dropped; what follows the last newline is a line unless it is empty. *)
Fixpoint lines_of_pieces (pieces : list (list Z)) : list (list Z) :=
  match pieces with
  | [] => []
  | [last] => match last with [] => [] | _ => [last] end
  | piece :: pieces => strip_cr piece :: lines_of_pieces pieces
  end.
Definition lines (s : list Z) : list (list Z) := lines_of_pieces (split newline s).

Lemma split_not_nil sep s : split sep s <> [].
Proof. destruct s as [|c s]; cbn; [discriminate|]. destruct (c =? sep); [discriminate|]. destruct (split sep s); discriminate. Qed.

Lemma split_app sep piece s :
  sep ∉ piece -> split sep (piece ++ sep :: s) = piece :: split sep s.
Proof.
  induction piece as [|c piece IH]; intros Hn; cbn.
  - rewrite Z.eqb_refl. reflexivity.
  - apply not_elem_of_cons in Hn as [Hc Hn]. rewrite (proj2 (Z.eqb_neq c sep)) by congruence.
    rewrite IH by exact Hn. reflexivity.
Qed.

Lemma split_one sep piece : sep ∉ piece -> split sep piece = [piece].
Proof.
  induction piece as [|c piece IH]; intros Hn; cbn; [reflexivity|].
  apply not_elem_of_cons in Hn as [Hc Hn]. rewrite (proj2 (Z.eqb_neq c sep)) by congruence.
  rewrite IH by exact Hn. reflexivity.
Qed.

(** Pieces without the separator are found again. *)
Lemma split_join sep pieces :
  pieces <> [] -> Forall (fun p => sep ∉ p) pieces -> split sep (join sep pieces) = pieces.
Proof.
  intros Hne Hp. induction Hp as [|p pieces Hp Hps IH]; [congruence|].
  destruct pieces as [|q pieces]; cbn [join].
  - apply split_one, Hp.
  - rewrite split_app by exact Hp. f_equal. apply IH. discriminate.
Qed.

(** ** Integers *)

Inductive IntErrorKind := EmptyInt | InvalidDigit | PosOverflow | NegOverflow.

(** An integer type by its bounds. *)
Record int_type := { int_min : Z; int_max : Z }.
Definition U (w : Z) : int_type := {| int_min := 0; int_max := 2 ^ w - 1 |}.
Definition I (w : Z) : int_type := {| int_min := - 2 ^ (w - 1); int_max := 2 ^ (w - 1) - 1 |}.

Definition in_type (t : int_type) (z : Z) : bool := (t.(int_min) <=? z) && (z <=? t.(int_max)).
Definition is_signed (t : int_type) : bool := t.(int_min) <? 0.

Definition digit_of (c : Z) : option Z := if (48 <=? c) && (c <=? 57) then Some (c - 48) else None.

(** The loop of [from_str_radix]: [checked_mul], then [checked_add] or
    [checked_sub]. *)
Fixpoint int_loop (t : int_type) (neg : bool) (acc : Z) (s : list Z) : outcome IntErrorKind Z :=
  match s with
  | [] => Ok acc
  | c :: s =>
      match digit_of c with
      | None => Err InvalidDigit
      | Some d =>
          let overflow := if neg then NegOverflow else PosOverflow in
          let mul := acc * 10 in
          if negb (in_type t mul) then Err overflow
          else
            let result := if neg then mul - d else mul + d in
            if negb (in_type t result) then Err overflow else int_loop t neg result s
      end
  end.

Definition plus_sign : Z := 43.
Definition minus_sign : Z := 45.

(** [from_str] of an integer type. *)
Definition parse_int (t : int_type) (s : list Z) : outcome IntErrorKind Z :=
  match s with
  | [] => Err EmptyInt
  | c :: digits =>
      if (c =? plus_sign) || (c =? minus_sign) then
        match digits with
        | [] => Err InvalidDigit
        | _ =>
            if c =? plus_sign then int_loop t false 0 digits
            else if is_signed t then int_loop t true 0 digits
            else Err InvalidDigit
        end
      else int_loop t false 0 s
  end.

(** [to_string]: at most one digit per bit. *)
Fixpoint digits_of (fuel : nat) (z : Z) (acc : list Z) : list Z :=
  match fuel with
  | O => acc
  | S fuel =>
      let acc := 48 + z mod 10 :: acc in
      if z <? 10 then acc else digits_of fuel (z / 10) acc
  end.
Definition decimal_digits (z : Z) : list Z := digits_of (S (Z.to_nat (Z.log2 z))) z [].
Definition decimal (z : Z) : list Z :=
  if z <? 0 then minus_sign :: decimal_digits (- z) else decimal_digits z.

(** *** Reading what was printed *)

Lemma digit_of_print d : 0 <= d < 10 -> digit_of (48 + d) = Some d.
Proof.
  intros Hd. unfold digit_of.
  rewrite (proj2 (Z.leb_le _ _)), (proj2 (Z.leb_le _ _)) by lia. cbn. f_equal. lia.
Qed.

(** The sign of the digits that are read. *)
Definition sgn (neg : bool) : Z := if neg then -1 else 1.

Lemma digits_of_app fuel : forall z tail, digits_of fuel z tail = digits_of fuel z [] ++ tail.
Proof.
  induction fuel as [|fuel IH]; intros z tail; [reflexivity|]. cbn [digits_of].
  destruct (z <? 10); [reflexivity|]. rewrite IH, (IH _ [_]), <- app_assoc. reflexivity.
Qed.

Lemma int_loop_app t neg a : forall acc b,
  int_loop t neg acc (a ++ b) = (v ← int_loop t neg acc a; int_loop t neg v b).
Proof.
  induction a as [|c a IH]; intros acc b; cbn; [reflexivity|].
  destruct (digit_of c); [|reflexivity]. destruct (negb _); [reflexivity|].
  destruct (negb _); [reflexivity|]. apply IH.
Qed.

Lemma int_loop_one t neg acc d :
  0 <= d < 10 -> in_type t (acc * 10) = true ->
  in_type t (acc * 10 + sgn neg * d) = true ->
  int_loop t neg acc [48 + d] = Ok (acc * 10 + sgn neg * d).
Proof.
  intros Hd H1 H2. cbn [int_loop]. rewrite digit_of_print by exact Hd. cbv zeta. rewrite H1. cbn [negb].
  replace (if neg then acc * 10 - d else acc * 10 + d) with (acc * 10 + sgn neg * d).
  - rewrite H2. reflexivity.
  - destruct neg; unfold sgn; lia.
Qed.

Lemma int_loop_digits t neg fuel : forall z,
  int_min t <= 0 <= int_max t -> 0 <= z < 2 ^ Z.of_nat fuel -> (0 < fuel)%nat ->
  in_type t (sgn neg * z) = true -> int_loop t neg 0 (digits_of fuel z []) = Ok (sgn neg * z).
Proof.
  induction fuel as [|fuel IH]; intros z Ht Hz Hf Hin; [lia|]. cbn [digits_of].
  assert (Hd : 0 <= z mod 10 < 10) by (apply Z.mod_pos_bound; lia).
  destruct (Z.ltb_spec z 10).
  - rewrite Z.mod_small by lia. rewrite int_loop_one; [f_equal; lia|lia| |rewrite Z.add_0_l; exact Hin].
    unfold in_type. lia.
  - rewrite Nat2Z.inj_succ, Z.pow_succ_r in Hz by lia.
    assert (Hq : 0 < z / 10 < 2 ^ Z.of_nat fuel).
    { split; [apply Z.div_str_pos; lia|]. apply Z.div_lt_upper_bound; lia. }
    assert (Hfuel : (0 < fuel)%nat) by (destruct fuel; [change (2 ^ Z.of_nat 0) with 1 in Hq; lia|lia]).
    pose proof (Z.div_mod z 10 ltac:(lia)) as Hdm.
    assert (Hq' : in_type t (sgn neg * (z / 10)) = true /\ in_type t (sgn neg * (z / 10) * 10) = true).
    { unfold in_type in *. destruct neg; unfold sgn in *; lia. }
    rewrite digits_of_app, int_loop_app, IH by (tauto || lia). cbn [mbind outcome_bind].
    rewrite int_loop_one; [f_equal; lia|exact Hd|tauto|].
    replace (sgn neg * (z / 10) * 10 + sgn neg * (z mod 10)) with (sgn neg * z) by lia. exact Hin.
Qed.

Lemma digits_of_not_nil fuel z : (0 < fuel)%nat -> forall tail, digits_of fuel z tail <> [].
Proof.
  revert z; induction fuel as [|fuel IH]; intros z Hf tail; [lia|]. cbn.
  destruct (z <? 10); [discriminate|]. destruct fuel; [discriminate|]. apply IH. lia.
Qed.

Lemma digits_of_are_digits fuel z tail c :
  c ∈ digits_of fuel z tail -> 48 <= c <= 57 \/ c ∈ tail.
Proof.
  revert z tail; induction fuel as [|fuel IH]; intros z tail; cbn; [auto|].
  assert (Hd : 0 <= z mod 10 < 10) by (apply Z.mod_pos_bound; lia).
  intros Hc. destruct (z <? 10).
  - apply elem_of_cons in Hc as [->|Hc]; [lia|auto].
  - apply IH in Hc as [Hc|Hc]; [auto|]. apply elem_of_cons in Hc as [->|Hc]; [lia|auto].
Qed.

Lemma log2_fuel z : 0 <= z -> 0 <= z < 2 ^ Z.of_nat (S (Z.to_nat (Z.log2 z))).
Proof.
  intros Hz. split; [lia|]. rewrite Nat2Z.inj_succ, Z2Nat.id by apply Z.log2_nonneg.
  destruct (Z.eq_dec z 0) as [->|]; [reflexivity|]. apply Z.log2_spec. lia.
Qed.

(** What is printed is read again, by every type that has the value. *)
Lemma parse_decimal t z :
  int_min t <= 0 <= int_max t -> in_type t z = true -> parse_int t (decimal z) = Ok z.
Proof.
  intros Ht Hz. unfold decimal.
  assert (P : forall n, 0 <= n -> exists c s, decimal_digits n = c :: s /\ 48 <= c <= 57).
  { intros n Hn. unfold decimal_digits. destruct (digits_of _ n []) as [|c s] eqn:E.
    - exfalso. eapply digits_of_not_nil; [|exact E]. lia.
    - exists c, s. split; [reflexivity|].
      assert (Hc : c ∈ c :: s) by left. rewrite <- E in Hc.
      apply digits_of_are_digits in Hc as [Hc|Hc]; [exact Hc|inversion Hc]. }
  destruct (Z.ltb_spec z 0) as [Hneg|Hpos].
  - destruct (P (- z) ltac:(lia)) as (c & s & E & _). unfold parse_int. rewrite E.
    cbn [Z.eqb plus_sign minus_sign Pos.eqb orb]. unfold is_signed.
    rewrite (proj2 (Z.ltb_lt _ _)) by (unfold in_type in Hz; lia).
    rewrite <- E. unfold decimal_digits. rewrite int_loop_digits; [f_equal; cbn; lia| assumption | apply log2_fuel; lia | lia |].
    replace (sgn true * - z) with z by (cbn; lia). exact Hz.
  - destruct (P z Hpos) as (c & s & E & Hc). unfold parse_int. rewrite E.
    rewrite (proj2 (Z.eqb_neq c plus_sign)), (proj2 (Z.eqb_neq c minus_sign)) by (unfold plus_sign, minus_sign; lia).
    cbn [orb]. rewrite <- E. unfold decimal_digits.
    rewrite int_loop_digits; [f_equal; cbn; lia| assumption | apply log2_fuel; lia | lia |].
    replace (sgn false * z) with z by (cbn; lia). exact Hz.
Qed.

(** A printed number has digits, and perhaps the sign. *)
Lemma decimal_no c z : c <> minus_sign -> ~ (48 <= c <= 57) -> c ∉ decimal z.
Proof.
  unfold decimal, decimal_digits. intros Hs Hd H.
  assert (D : forall n f, c ∉ digits_of f n []).
  { intros n f Hn. apply digits_of_are_digits in Hn as [?|Hn]; [lia|inversion Hn]. }
  destruct (z <? 0); [apply elem_of_cons in H as [?|H]; [contradiction|]|]; eapply D, H.
Qed.

Lemma decimal_no_tab z : tab ∉ decimal z.
Proof. apply decimal_no; unfold tab, minus_sign; lia. Qed.

(** An integer that is read lies in its type. *)
Lemma int_loop_in t neg s : forall acc z,
  in_type t acc = true -> int_loop t neg acc s = Ok z -> in_type t z = true.
Proof.
  induction s as [|c s IH]; intros acc z Ha; cbn; [congruence|].
  destruct (digit_of c); [|discriminate]. destruct (negb (in_type t (acc * 10))); [discriminate|].
  destruct (in_type t (if neg then _ else _)) eqn:E; [|discriminate]. apply IH, E.
Qed.

Lemma parse_int_in t s z :
  int_min t <= 0 <= int_max t -> parse_int t s = Ok z -> in_type t z = true.
Proof.
  intros Ht. assert (H0 : in_type t 0 = true) by (unfold in_type; lia).
  destruct s as [|c s]; [discriminate|]. unfold parse_int.
  destruct (_ || _); [|apply int_loop_in, H0]. destruct s as [|d s]; [discriminate|].
  destruct (c =? plus_sign); [apply int_loop_in, H0|].
  destruct (is_signed t); [apply int_loop_in, H0 | discriminate].
Qed.
