(* ===== verification/F32.v ===== *)
(** Single-precision numbers: the arithmetic of [f32] (round to nearest, ties to
    even), comparisons, casts, and [from_str]; bounds on what rounding adds, which
    results are exact, and the remainder by the side of a region and its quotient
    by a tile.

    The payload of a NaN is not kept; the modelled code never looks at it. *)
From stdpp Require Import base list option strings.
From Stdlib Require Import ZArith Lia.
From Stdlib Require Import SpecFloat.
From S2P Require Import Prelude Utf Text.

Definition f32 : Type := spec_float.
Definition f32_prec : Z := 24.
Definition f32_emax : Z := 128.

Definition fadd (a b : f32) : f32 := SFadd f32_prec f32_emax a b.
Definition fsub (a b : f32) : f32 := SFsub f32_prec f32_emax a b.
Definition fmul (a b : f32) : f32 := SFmul f32_prec f32_emax a b.
Definition fdiv (a b : f32) : f32 := SFdiv f32_prec f32_emax a b.
Definition fneg (a : f32) : f32 := SFopp a.

(** Comparisons are false on a NaN. *)
Definition fltb (a b : f32) : bool := SFltb a b.
Definition fleb (a b : f32) : bool := SFleb a b.
Definition feqb (a b : f32) : bool := SFeqb a b.

(** [as f32] of an integer. *)
Definition f32_of_Z (z : Z) : f32 := binary_normalize f32_prec f32_emax z 0 false.

(** A decimal fraction [m * 10^e], rounded. *)
Definition f32_of_decimal (negative : bool) (m e : Z) : f32 :=
  match m with
  | Zpos p =>
      match 10 ^ Z.abs e with
      | Zpos scale =>
          if 0 <=? e then binary_round f32_prec f32_emax negative (p * scale) 0
          else
            let '(q, exponent, loc) := SFdiv_core_binary f32_prec f32_emax (Zpos p) 0 (Zpos scale) 0 in
            binary_round_aux f32_prec f32_emax negative q exponent loc
      | _ => S754_nan
      end
  | _ => S754_zero negative
  end.

(** The integer towards zero; [None] for infinities and NaN. *)
Definition ftrunc (a : f32) : option Z :=
  match a with
  | S754_zero _ => Some 0
  | S754_finite s m e =>
      let magnitude := if 0 <=? e then Zpos m * 2 ^ e else Zpos m / 2 ^ (- e) in
      Some (if s then - magnitude else magnitude)
  | _ => None
  end.

(** [as] an integer type: saturating, and 0 for NaN. *)
Definition f32_as (t : int_type) (a : f32) : Z :=
  match a with
  | S754_nan => 0
  | S754_infinity s => if s then t.(int_min) else t.(int_max)
  | _ => Z.max t.(int_min) (Z.min t.(int_max) (default 0 (ftrunc a)))
  end.

Lemma f32_as_in t a : int_min t <= 0 <= int_max t -> in_type t (f32_as t a) = true.
Proof. intros Ht. unfold f32_as, in_type. destruct a as [s|s| |s m e]; try destruct s; lia. Qed.

(** [%]: the remainder of the division towards zero, with the sign of [a]; it
    is exact. *)
Definition frem (a b : f32) : f32 :=
  match a, b with
  | S754_nan, _ | _, S754_nan | S754_infinity _, _ | _, S754_zero _ => S754_nan
  | S754_zero _, _ | _, S754_infinity _ => a
  | S754_finite s ma ea, S754_finite _ mb eb =>
      let e := Z.min ea eb in
      let r := (Zpos ma * 2 ^ (ea - e)) mod (Zpos mb * 2 ^ (eb - e)) in
      match r with
      | Zpos p => binary_normalize f32_prec f32_emax (if s then Zneg p else Zpos p) e s
      | _ => S754_zero s
      end
  end.

(** [to_bits]: sign, exponent and mantissa of 1, 8 and 23 bits. *)
Definition f32_bits (a : f32) : Z :=
  let sign (s : bool) := if s then 2 ^ 31 else 0 in
  u32 match a with
      | S754_nan => 0x7FC00000
      | S754_infinity s => sign s + 0x7F800000
      | S754_zero s => sign s
      | S754_finite s m e =>
          sign s + if Zpos m <? 2 ^ 23 then Zpos m else (e + 150) * 2 ^ 23 + (Zpos m - 2 ^ 23)
      end.

(** ** [f32::from_str] *)

Inductive FloatErrorKind := EmptyFloat | InvalidFloat.

Definition lowercase (c : Z) : Z := if (65 <=? c) && (c <=? 90) then c + 32 else c.

(** The digits at the front, as values. *)
Fixpoint span_digits (s : list Z) : list Z * list Z :=
  match s with
  | [] => ([], [])
  | c :: r =>
      match digit_of c with
      | Some d => let '(ds, r) := span_digits r in (d :: ds, r)
      | None => ([], s)
      end
  end.

Definition decimal_value (ds : list Z) : Z := fold_left (fun acc d => acc * 10 + d) ds 0.

Definition span_sign (s : list Z) : bool * list Z :=
  match s with
  | c :: r => if c =? minus_sign then (true, r) else if c =? plus_sign then (false, r) else (false, s)
  | [] => (false, s)
  end.

(** Mantissa and decimal exponent of a number; [None] if something is left over. *)
Definition parse_number (s : list Z) : option (Z * Z) :=
  let '(int_part, r) := span_digits s in
  let '(fraction, r) := match r with
                        | c :: r' => if c =? 46 then span_digits r' else ([], r)
                        | [] => ([], r)
                        end in
  if (length int_part + length fraction =? 0)%nat then None
  else
    let mantissa := decimal_value (int_part ++ fraction) in
    let scale := - Z.of_nat (length fraction) in
    match r with
    | [] => Some (mantissa, scale)
    | c :: r =>
        if lowercase c =? 101 then
          let '(negative, r) := span_sign r in
          let '(ds, r) := span_digits r in
          match ds, r with
          | _ :: _, [] =>
              Some (mantissa, scale + (if negative then - decimal_value ds else decimal_value ds))
          | _, _ => None
          end
        else None
    end.

Definition parse_f32 (s : list Z) : outcome FloatErrorKind f32 :=
  match s with
  | [] => Err EmptyFloat
  | _ =>
      let '(negative, r) := span_sign s in
      match parse_number r with
      | Some (m, e) => Ok (f32_of_decimal negative m e)
      | None =>
          let word := map lowercase r in
          if bool_decide (word = chars "nan") then Ok S754_nan
          else if bool_decide (word = chars "inf") || bool_decide (word = chars "infinity") then
            Ok (S754_infinity negative)
          else Err InvalidFloat
      end
  end.

(** ** Examples: halves are exact, a tenth is rounded, and the ends of the range *)

Example parse_f32_half : parse_f32 (chars "-1.50") = Ok (fdiv (f32_of_Z (-3)) (f32_of_Z 2)).
Proof. vm_compute. reflexivity. Qed.
Example parse_f32_tenth : parse_f32 (chars "0.1") = Ok (S754_finite false 13421773 (-27)).
Proof. vm_compute. reflexivity. Qed.
Example parse_f32_overflow : parse_f32 (chars "3.5e38") = Ok (S754_infinity false).
Proof. vm_compute. reflexivity. Qed.
Example parse_f32_subnormal : parse_f32 (chars "1e-45") = Ok (S754_finite false 1 (-149)).
Proof. vm_compute. reflexivity. Qed.
Example parse_f32_malformed :
  parse_f32 (chars "1e") = Err InvalidFloat /\ parse_f32 (chars ".") = Err InvalidFloat /\
  parse_f32 [] = Err EmptyFloat /\ parse_f32 (chars "+Inf") = Ok (S754_infinity false).
Proof. vm_compute. auto. Qed.

Example frem_sign : frem (fdiv (f32_of_Z (-7)) (f32_of_Z 2)) (f32_of_Z 2) = fdiv (f32_of_Z (-3)) (f32_of_Z 2).
Proof. vm_compute. reflexivity. Qed.
Example frem_large : frem (f32_of_Z 269670) (f32_of_Z 1920) = f32_of_Z 870.
Proof. vm_compute. reflexivity. Qed.
Example f32_bits_of : map f32_bits [f32_of_Z 1; f32_of_Z (-2); fdiv (f32_of_Z 1) (f32_of_Z 10); S754_finite false 1 (-149)]
  = [0x3F800000; 0xC0000000; 0x3DCCCCCD; 1].
Proof. vm_compute. reflexivity. Qed.

(** ** Digits *)

Lemma digits_log2 p : Zpos (digits2_pos p) = Z.log2 (Zpos p) + 1.
Proof.
  induction p as [p IH|p IH|]; cbn [digits2_pos]; [| |reflexivity]; rewrite Pos2Z.inj_succ, IH.
  - change (Zpos p~1) with (2 * Zpos p + 1). rewrite Z.log2_succ_double by lia. lia.
  - change (Zpos p~0) with (2 * Zpos p). rewrite Z.log2_double by lia. lia.
Qed.

Lemma Zdigits2_log2 q : 0 < q -> Zdigits2 q = Z.log2 q + 1.
Proof. destruct q; [lia| |lia]. intros _. apply digits_log2. Qed.

Lemma digits_small q k : 0 <= q < 2 ^ k -> 0 <= k -> Zdigits2 q <= k.
Proof.
  intros Hq Hk. destruct (Z.eq_dec q 0) as [->|]; [exact Hk|]. rewrite Zdigits2_log2 by lia.
  enough (Z.log2 q < k) by lia. apply Z.log2_lt_pow2; lia.
Qed.

Lemma digits_large q k : 0 <= k -> 2 ^ k <= q < 2 ^ (k + 1) -> Zdigits2 q = k + 1.
Proof. intros Hk Hq. pose proof (Z.pow_pos_nonneg 2 k). rewrite Zdigits2_log2 by lia. f_equal. apply Z.log2_unique; lia. Qed.

Lemma iter_double p d : Zpos (Pos.iter xO p d) = Zpos p * 2 ^ Zpos d.
Proof.
  induction d as [|d IH] using Pos.peano_ind; [change (2 ^ 1) with 2; cbn; lia|].
  rewrite Pos.iter_succ, Pos2Z.inj_succ, Z.pow_succ_r by lia. change (Zpos (Pos.iter xO p d)~0) with (2 * Zpos (Pos.iter xO p d)).
  rewrite IH. lia.
Qed.

(** ** Rounding *)

#[local] Abbreviation round_aux := (binary_round_aux f32_prec f32_emax).

Lemma fexp_f32 e : fexp f32_prec f32_emax e = Z.max (e - 24) (-149).
Proof. reflexivity. Qed.

Lemma shr_none mrs e n : n <= 0 -> shr mrs e n = (mrs, e).
Proof. destruct n; [reflexivity|lia|reflexivity]. Qed.

(** No bits are lost of at most 24 digits. *)
Lemma shr_fexp_none q e l : 0 <= q < 2 ^ 24 -> -149 <= e -> shr_fexp f32_prec f32_emax q e l = (shr_record_of_loc q l, e).
Proof.
  intros Hq He. unfold shr_fexp. apply shr_none. rewrite fexp_f32. pose proof (digits_small q 24 ltac:(lia) ltac:(lia)). lia.
Qed.

(** One is lost of 25. *)
Lemma shr_fexp_one q e l : 2 ^ 24 <= q < 2 ^ 25 -> -149 <= e ->
  shr_fexp f32_prec f32_emax q e l = (shr_1 (shr_record_of_loc q l), e + 1).
Proof.
  intros Hq He. unfold shr_fexp. rewrite fexp_f32, (digits_large q 24) by (change (24 + 1) with 25; lia).
  replace (Z.max (24 + 1 + e - 24) (-149) - e) with 1 by lia. reflexivity.
Qed.

Lemma record_of_loc l q : shr_m (shr_record_of_loc q l) = q /\ loc_of_shr_record (shr_record_of_loc q l) = l.
Proof. destruct l as [|[]]; split; reflexivity. Qed.

Lemma shr_1_half q l : 0 <= q ->
  shr_m (shr_1 (shr_record_of_loc q l)) = q / 2 /\ shr_r (shr_1 (shr_record_of_loc q l)) = Z.odd q.
Proof.
  intros Hq. destruct (record_of_loc l q) as [E _]. destruct (shr_record_of_loc q l) as [m r s]. cbn [shr_m] in E. subst m.
  rewrite <- Z.div2_div. destruct q as [|[p|p|]|p]; try lia; split; reflexivity.
Qed.

Lemma nearest_up m l : m <= round_nearest_even m l <= m + 1.
Proof. destruct l as [|[]]; cbn; try destruct (Z.even m); lia. Qed.

(** It is rounded up from the bit that is lost only. *)
Lemma nearest_of_record rec : shr_r rec = false -> round_nearest_even (shr_m rec) (loc_of_shr_record rec) = shr_m rec.
Proof. destruct rec as [m [] []]; [discriminate|discriminate|reflexivity|reflexivity]. Qed.

(** The largest that a quotient of at most 25 digits becomes. *)
Definition rounded_bound (q : Z) : Z := if q <? 2 ^ 24 then q + 1 else 2 * ((q + 1) / 2).

Definition at_most (v : f32) (m e : Z) : Prop :=
  match v with
  | S754_zero _ => True
  | S754_finite _ m' e' => e <= e' /\ Zpos m' * 2 ^ (e' - e) <= m
  | _ => False
  end.

(** The second rounding, of at most 2^24, which is exact. *)
Lemma round_again s r e : 0 <= r <= 2 ^ 24 -> -149 <= e <= 100 ->
  at_most (let '(mrs, e') := shr_fexp f32_prec f32_emax r e loc_Exact in
           match shr_m mrs with
           | Z0 => S754_zero s
           | Zpos m => if Z.leb e' (f32_emax - f32_prec) then S754_finite s m e' else S754_infinity s
           | _ => S754_nan
           end) r e.
Proof.
  intros Hr He. change (f32_emax - f32_prec) with 104. destruct (Z.eq_dec r (2 ^ 24)) as [->|Hne].
  - rewrite shr_fexp_one by lia. cbn. rewrite (proj2 (Z.leb_le _ _)) by lia. cbn. split; [lia|].
    replace (e + 1 - e) with 1 by lia. change (2 ^ 1) with 2. lia.
  - rewrite shr_fexp_none by lia. cbn [shr_m shr_record_of_loc]. destruct r as [|p|p]; [exact Logic.I| |lia].
    rewrite (proj2 (Z.leb_le _ _)) by lia. cbn [at_most]. split; [lia|]. rewrite Z.sub_diag. change (2 ^ 0) with 1. lia.
Qed.

Lemma at_most_weaken v m e m' e' : e' <= e -> m * 2 ^ (e - e') <= m' -> at_most v m e -> at_most v m' e'.
Proof.
  intros He Hm. destruct v as [| | |s p x]; cbn; try tauto. intros [Hx Hp]. split; [lia|].
  replace (x - e') with ((x - e) + (e - e')) by lia. rewrite Z.pow_add_r, Z.mul_assoc by lia.
  pose proof (Z.pow_pos_nonneg 2 (e - e') ltac:(lia) ltac:(lia)). nia.
Qed.

Lemma round_aux_bound s q e l : 0 <= q < 2 ^ 25 -> -149 <= e <= 90 -> at_most (round_aux s q e l) (rounded_bound q) e.
Proof.
  intros Hq He. unfold binary_round_aux, rounded_bound. destruct (Z.ltb_spec q (2 ^ 24)) as [Hlt|Hge].
  - rewrite shr_fexp_none by lia. destruct (record_of_loc l q) as [-> ->]. pose proof (nearest_up q l).
    eapply at_most_weaken; [| |apply round_again; lia]; [lia|]. rewrite Z.sub_diag. change (2 ^ 0) with 1. lia.
  - rewrite shr_fexp_one by lia. destruct (shr_1_half q l) as [Hm Hr]; [lia|].
    set (rec := shr_1 (shr_record_of_loc q l)) in *.
    assert (Hround : q / 2 <= round_nearest_even (shr_m rec) (loc_of_shr_record rec) <= (q + 1) / 2).
    { destruct (shr_r rec) eqn:Er.
      - pose proof (nearest_up (shr_m rec) (loc_of_shr_record rec)). rewrite Hm in *. symmetry in Hr. apply Z.odd_spec in Hr as [k ->]. zlia.
      - rewrite nearest_of_record, Hm by exact Er. zlia. }
    eapply at_most_weaken; [| |apply (round_again s _ (e + 1)); zlia]; [lia|].
    replace (e + 1 - e) with 1 by lia. change (2 ^ 1) with 2. lia.
Qed.

(** ** Exact results *)

(** What is held by a float: at most 24 digits, above the least exponent. *)
Definition f32_valid (x : f32) : Prop :=
  match x with S754_finite _ m e => Zpos m < 2 ^ 24 /\ -149 <= e <= 104 | _ => True end.

Lemma valid_binary_valid x : valid_binary f32_prec f32_emax x = true -> f32_valid x.
Proof.
  destruct x as [| | |s m e]; try (intros _; exact Logic.I). cbn [valid_binary bounded]. unfold bounded, canonical_mantissa.
  rewrite andb_true_iff, Z.eqb_eq, Z.leb_le, fexp_f32. intros [Hc He]. cbn [f32_valid].
  assert (Hd : Zpos (digits2_pos m) <= 24) by lia. rewrite digits_log2 in Hd.
  split; [apply Z.log2_lt_pow2; lia|]. change (f32_emax - f32_prec) with 104 in He. lia.
Qed.

(** A number of at most 24 digits is represented as it is, with as many digits as
    there is room for. *)
Lemma normalize_exact s p e : Zpos p < 2 ^ 24 -> -149 <= e <= 90 ->
  exists m e', binary_round f32_prec f32_emax s p e = S754_finite s m e'
    /\ Zpos m < 2 ^ 24 /\ -149 <= e' <= e /\ e' = Z.max (Z.log2 (Zpos p) + 1 + e - 24) (-149)
    /\ Zpos m = Zpos p * 2 ^ (e - e').
Proof.
  intros Hp He. unfold binary_round. rewrite digits_log2, fexp_f32. set (e' := Z.max _ _).
  assert (Hlog : Z.log2 (Zpos p) < 24) by (apply Z.log2_lt_pow2; lia). pose proof (Z.log2_nonneg (Zpos p)).
  assert (He' : -149 <= e' <= e) by lia.
  assert (Hshl : exists m, shl_align p e e' = (m, e') /\ Zpos m = Zpos p * 2 ^ (e - e')).
  { unfold shl_align. destruct (e' - e) as [|d|d] eqn:Ed; [|lia|].
    - exists p. replace e' with e by lia. rewrite Z.sub_diag. split; [reflexivity|]. change (2 ^ 0) with 1. lia.
    - exists (Pos.iter xO p d). split; [reflexivity|]. rewrite iter_double. f_equal. f_equal. lia. }
  destruct Hshl as (m & -> & Em).
  assert (Hm : Zpos m < 2 ^ 24).
  { apply Z.log2_lt_pow2; [lia|]. rewrite Em, Z.log2_mul_pow2 by lia. lia. }
  exists m, e'. split; [|auto]. unfold binary_round_aux. rewrite shr_fexp_none by lia. cbn [shr_record_of_loc shr_m loc_of_shr_record round_nearest_even].
  rewrite shr_fexp_none by lia. cbn [shr_record_of_loc shr_m]. change (f32_emax - f32_prec) with 104. rewrite (proj2 (Z.leb_le _ _)) by lia. reflexivity.
Qed.

(** ** The remainder by 1920, and its quotient by 20 *)

(** A remainder that is not below zero: no number, zero, or below 1920. *)
Definition below_side (r : f32) : Prop :=
  match r with
  | S754_finite _ m e => Zpos m < 2 ^ 24 /\ -149 <= e <= -13 /\ (e = -13 -> Zpos m < 15728640)
  | S754_infinity _ => False
  | _ => True
  end.

Lemma round_below_side s p e : Zpos p < 2 ^ 24 -> -149 <= e <= -13 -> Zpos p < 15728640 * 2 ^ (-13 - e) ->
  below_side (binary_round f32_prec f32_emax s p e).
Proof.
  intros Hp He Hb. destruct (normalize_exact s p e Hp) as (m & e' & -> & Hm & He' & Ee & Em); [lia|].
  assert (Hlog : Z.log2 (Zpos p) < 11 - e).
  { apply Z.log2_lt_pow2; [lia|]. replace (11 - e) with (24 + (-13 - e)) by lia. rewrite Z.pow_add_r by lia.
    pose proof (Z.pow_pos_nonneg 2 (-13 - e) ltac:(lia) ltac:(lia)). nia. }
  cbn [below_side]. split; [exact Hm|]. split; [lia|]. intros ->. assert (e = -13) as -> by lia. rewrite Em.
  change (2 ^ (-13 - -13)) with 1 in *. lia.
Qed.

Lemma remainder_bound a b ea : 0 < a < 2 ^ 24 -> -149 <= ea <= 104 -> b = 15728640 ->
  let e := Z.min ea (-13) in
  let r := (a * 2 ^ (ea - e)) mod (b * 2 ^ (-13 - e)) in
  0 <= r < 2 ^ 24 /\ r < 15728640 * 2 ^ (-13 - e).
Proof.
  intros Ha He -> e r. pose proof (Z.pow_pos_nonneg 2 (-13 - e) ltac:(lia) ltac:(lia)).
  pose proof (Z.mod_pos_bound (a * 2 ^ (ea - e)) (15728640 * 2 ^ (-13 - e)) ltac:(lia)). fold r in H0.
  split; [|lia]. split; [lia|]. destruct (Z.le_gt_cases ea (-13)).
  - enough (r <= a) by lia. unfold r. replace (ea - e) with 0 by lia. change (2 ^ 0) with 1. rewrite Z.mul_1_r. apply Z.mod_le; lia.
  - replace (-13 - e) with 0 in * by lia. change (2 ^ 0) with 1 in *. lia.
Qed.

Lemma frem_below_side c : f32_valid c -> below_side (frem c (f32_of_Z 1920)).
Proof.
  change (f32_of_Z 1920) with (S754_finite false 15728640 (-13)).
  destruct c as [s|s| |s m e]; try (intros _; exact Logic.I). intros [Hm He]. cbn [frem].
  destruct (remainder_bound (Zpos m) (Zpos 15728640) e ltac:(lia) He eq_refl) as [Hr Hb].
  destruct ((Zpos m * 2 ^ (e - Z.min e (-13))) mod (Zpos 15728640 * 2 ^ (-13 - Z.min e (-13)))) as [|p|p];
    [exact Logic.I| |exact Logic.I]. destruct s; apply round_below_side; lia.
Qed.

(** The integer part of a number below [k] units of [2^-e]. *)
Lemma f32_as_at_most v b e k : at_most v b e -> e < 0 -> 0 < k -> b < k * 2 ^ (- e) -> 0 <= f32_as (U 64) v <= k - 1.
Proof.
  intros Hv He Hk Hb. destruct v as [s|s| |s m x]; cbn [at_most] in Hv; try contradiction.
  { destruct s; cbn; lia. }
  destruct Hv as [Hx Hm]. unfold f32_as. cbn [ftrunc default from_option int_min int_max U].
  set (magnitude := if 0 <=? x then Zpos m * 2 ^ x else Zpos m / 2 ^ (- x)).
  enough (Hmag : 0 <= magnitude <= k - 1) by (unfold Datatypes.id; destruct s; lia).
  pose proof (Z.pow_pos_nonneg 2 (x - e) ltac:(lia) ltac:(lia)). pose proof (Z.pow_pos_nonneg 2 (- e) ltac:(lia) ltac:(lia)).
  unfold magnitude. destruct (Z.leb_spec 0 x).
  - assert (E : Zpos m * 2 ^ x * 2 ^ (- e) < k * 2 ^ (- e)).
    { rewrite <- Z.mul_assoc, <- Z.pow_add_r by lia. replace (x + - e) with (x - e) by lia. lia. }
    pose proof (Z.pow_pos_nonneg 2 x ltac:(lia) ltac:(lia)). nia.
  - pose proof (Z.pow_pos_nonneg 2 (- x) ltac:(lia) ltac:(lia)).
    split; [apply Z.div_pos; lia|]. enough (Zpos m / 2 ^ (- x) < k) by lia. apply Z.div_lt_upper_bound; [lia|].
    assert (E : 2 ^ (- e) = 2 ^ (- x) * 2 ^ (x - e)) by (rewrite <- Z.pow_add_r by lia; f_equal; lia).
    rewrite E in Hb. nia.
Qed.

(** The quotient by 20 of a remainder is rounded to less than 96. *)
Lemma tile_of_remainder m e : below_side (S754_finite false m e) ->
  0 <= f32_as (U 64) (fdiv (S754_finite false m e) (f32_of_Z 20)) <= 95.
Proof.
  intros (Hm & He & Htop). change (f32_of_Z 20) with (S754_finite false 10485760 (-19)).
  unfold fdiv, SFdiv, SFdiv_core_binary. cbn [Zdigits2]. rewrite digits_log2, fexp_f32.
  change (Zpos (digits2_pos 10485760)) with 24.
  assert (Hlog : Z.log2 (Zpos m) < 24) by (apply Z.log2_lt_pow2; lia). pose proof (Z.log2_nonneg (Zpos m)).
  set (e' := Z.min _ _). assert (Ee : e' = Z.max (Z.log2 (Zpos m) + 1 + e - 29) (-149)) by lia.
  assert (Hs : 0 < e - -19 - e') by lia.
  replace (match e - -19 - e' with 0 => Zpos m | Zpos _ => Z.shiftl (Zpos m) (e - -19 - e') | Zneg _ => 0 end)
    with (Zpos m * 2 ^ (e + 19 - e')).
  2: { replace (e + 19 - e') with (e - -19 - e') by lia. destruct (e - -19 - e') as [|d|d] eqn:Ed; [lia| |lia].
       rewrite Z.shiftl_mul_pow2 by lia. reflexivity. }
  assert (Hscaled : Zpos m * 2 ^ (e + 19 - e') < 2 ^ 48).
  { pose proof (Z.log2_spec (Zpos m) ltac:(lia)).
    apply Z.lt_le_trans with (2 ^ Z.succ (Z.log2 (Zpos m)) * 2 ^ (e + 19 - e')).
    - pose proof (Z.pow_pos_nonneg 2 (e + 19 - e') ltac:(lia) ltac:(lia)). nia.
    - rewrite <- Z.pow_add_r by lia. apply Z.pow_le_mono_r; lia. }
  destruct (Z.div_eucl (Zpos m * 2 ^ (e + 19 - e')) 10485760) as [q r] eqn:Eq.
  assert (Edef : q = Zpos m * 2 ^ (e + 19 - e') / 10485760) by (unfold Z.div; rewrite Eq; reflexivity).
  pose proof (Z.pow_pos_nonneg 2 (e + 19 - e') ltac:(lia) ltac:(lia)).
  assert (Hq : 0 <= q <= 26843545).
  { rewrite Edef. split; [apply Z.div_pos; lia|]. enough (Zpos m * 2 ^ (e + 19 - e') / 10485760 < 26843546) by lia.
    apply Z.div_lt_upper_bound; lia. }
  apply (f32_as_at_most _ (rounded_bound q) e' 96); [apply round_aux_bound; lia|lia|lia|].
  assert (Hbound : rounded_bound q <= q + 1) by (unfold rounded_bound; destruct (q <? 2 ^ 24); zlia).
  destruct (Z.le_gt_cases e' (-19)) as [Hsmall|Hlarge].
  - assert (2 ^ 19 <= 2 ^ (- e')) by (apply Z.pow_le_mono_r; lia). lia.
  - assert (e' = -18 /\ e = -13) as [-> ->] by lia. specialize (Htop eq_refl). change (2 ^ (-13 + 19 - -18)) with 16777216 in *.
    change (2 ^ (- -18)) with 262144.
    assert (Hq' : q <= 25165822).
    { rewrite Edef. enough (Zpos m * 16777216 / 10485760 < 25165823) by lia. apply Z.div_lt_upper_bound; lia. }
    unfold rounded_bound. destruct (Z.ltb_spec q (2 ^ 24)); zlia.
Qed.

(** The tile of a coordinate in a region of 96 tiles. *)
Lemma tile_bound c : f32_valid c -> fltb (frem c (f32_of_Z 1920)) (f32_of_Z 0) = false ->
  0 <= f32_as (U 64) (fdiv (frem c (f32_of_Z 1920)) (f32_of_Z 20)) <= 95.
Proof.
  intros Hc. pose proof (frem_below_side c Hc) as Hr. revert Hr. generalize (frem c (f32_of_Z 1920)). intros r Hr Hn.
  destruct r as [s|s| |s m e]; cbn [below_side] in Hr; try contradiction.
  - destruct s; vm_compute; split; discriminate.
  - vm_compute. split; discriminate.
  - destruct s; [discriminate Hn|]. apply tile_of_remainder, Hr.
Qed.
