(* ===== verification/Definitions.v ===== *)
(** [silkroad-definitions]: the primitive enums, the region identifier and the
    entity rarity.

    [PrimEnum] is the interface the [IntoPrimitive]/[TryFromPrimitive] derives
    give a [#[repr(u8)]] enum: the discriminant of each variant, and the search
    for the variant of a discriminant. *)
From stdpp Require Import base list option.
From Stdlib Require Import ZArith Lia.
From S2P Require Import Prelude.

Class PrimEnum (A : Type) := {
  into : A -> Z;
  all_variants : list A;
}.

(** [A::try_from(z).ok()]. *)
Definition try_from {A} `{PrimEnum A} (z : Z) : option A :=
  find (fun a => into a =? z) all_variants.
Arguments try_from {A _} z : simpl never.
Arguments into {A _} a : simpl never.

Class PrimEnumLaws (A : Type) `{PrimEnum A} := {
  try_from_into : forall a : A, try_from (into a) = Some a;
  into_u8 : forall a : A, fits 8 (into a) = true;
}.

Ltac solve_prim_enum := constructor; intros []; reflexivity.

Section PrimEnumFacts.
Context {A : Type} `{PrimEnum A}.

Lemma try_from_some z (a : A) : try_from z = Some a -> into a = z.
Proof.
  unfold try_from. intros Hf. apply find_some in Hf as [_ Hz].
  apply Z.eqb_eq, Hz.
Qed.

Lemma into_inj `{!PrimEnumLaws A} (a b : A) : into a = into b -> a = b.
Proof.
  intros E. apply (f_equal (try_from (A := A))) in E.
  rewrite !try_from_into in E. congruence.
Qed.
End PrimEnumFacts.

(** ** inventory.rs *)

Inductive EquipmentSlot :=
| HeadArmor | ShoulderArmor | WristArmor | ChestArmor | LegArmor | FootArmor
| Weapon | SecondaryWeapon | Earring | Necklace | LeftRing | RightRing | Special.

#[export] Instance EquipmentSlot_prim : PrimEnum EquipmentSlot := {
  into e := match e with
    | HeadArmor => 0 | ShoulderArmor => 1 | WristArmor => 2 | ChestArmor => 3
    | LegArmor => 4 | FootArmor => 5 | Weapon => 6 | SecondaryWeapon => 7
    | Earring => 8 | Necklace => 9 | LeftRing => 10 | RightRing => 11 | Special => 12
    end;
  all_variants := [HeadArmor; ShoulderArmor; WristArmor; ChestArmor; LegArmor; FootArmor;
    Weapon; SecondaryWeapon; Earring; Necklace; LeftRing; RightRing; Special]
}.

#[export] Instance EquipmentSlot_laws : PrimEnumLaws EquipmentSlot.
Proof. solve_prim_enum. Qed.

(** ** rarity.rs *)

Inductive EntityRarityType :=
| Rarity_Normal | Rarity_Champion | Rarity_UnknownCos | Rarity_Unique | Rarity_Giant
| Rarity_Titan | Rarity_Elite | Rarity_Strong | Rarity_Unique2.

#[export] Instance EntityRarityType_prim : PrimEnum EntityRarityType := {
  into e := match e with
    | Rarity_Normal => 0 | Rarity_Champion => 1 | Rarity_UnknownCos => 2
    | Rarity_Unique => 3 | Rarity_Giant => 4 | Rarity_Titan => 5 | Rarity_Elite => 6
    | Rarity_Strong => 7 | Rarity_Unique2 => 8
    end;
  all_variants := [Rarity_Normal; Rarity_Champion; Rarity_UnknownCos; Rarity_Unique;
    Rarity_Giant; Rarity_Titan; Rarity_Elite; Rarity_Strong; Rarity_Unique2]
}.

#[export] Instance EntityRarityType_laws : PrimEnumLaws EntityRarityType.
Proof. solve_prim_enum. Qed.

Record EntityRarity := { party : bool; kind : EntityRarityType }.

(** [impl TryFrom<u8> for EntityRarity]; [!0x10] is the u8 complement 0xEF. *)
Definition rarity_try_from (value : Z) : option EntityRarity :=
  let is_party := negb (Z.land value 0x10 =? 0) in
  let rarity_type_value := Z.land 0xEF value in
  k ← try_from rarity_type_value;
  Some {| party := is_party; kind := k |}.

(** [impl From<EntityRarity> for u8]. *)
Definition rarity_into (r : EntityRarity) : Z :=
  Z.lor (Z.shiftl (Z.b2z r.(party)) 4) (into r.(kind)).

Lemma rarity_try_from_into r : rarity_try_from (rarity_into r) = Some r.
Proof. destruct r as [[] []]; reflexivity. Qed.

Lemma rarity_into_u8 r : fits 8 (rarity_into r) = true.
Proof. destruct r as [[] []]; reflexivity. Qed.

(** ** region.rs *)

Definition Region := Z.

Definition region_from_xy (x y : Z) : Region := Z.lor (u16 (Z.shiftl y 8)) x.
Definition region_y (r : Region) : Z := u8 (Z.shiftr r 8).
Definition region_x (r : Region) : Z := u8 (Z.land r 0xFF).
Definition region_is_dungeon (r : Region) : bool := negb (Z.land r 0x8000 =? 0).

(** The region is the pair of its coordinates: [x] in the low byte, [y] above. *)
Lemma region_from_xy_value x y :
  fits 8 x = true -> fits 8 y = true -> region_from_xy x y = x + 256 * y.
Proof.
  rewrite !fits_spec. change (2 ^ 8) with 256. intros Hx Hy.
  unfold region_from_xy. rewrite Z.shiftl_mul_pow2 by lia.
  rewrite wrap_small by (apply fits_spec; change (2 ^ 8) with 256; change (2 ^ 16) with 65536; lia).
  rewrite lor_disjoint by (change (2 ^ 8) with 256; lia). change (2 ^ 8) with 256. lia.
Qed.

(** [Region::from_xy] is inverted by [x] and [y], the identifier it builds
    fits a [u16], and it denotes a dungeon exactly when [y] has its top bit. *)
Theorem region_xy_roundtrip x y (Hx : fits 8 x = true) (Hy : fits 8 y = true) :
  region_x (region_from_xy x y) = x /\ region_y (region_from_xy x y) = y
  /\ fits 16 (region_from_xy x y) = true
  /\ region_is_dungeon (region_from_xy x y) = (128 <=? y).
Proof.
  rewrite region_from_xy_value by assumption.
  apply fits_spec in Hx, Hy. change (2 ^ 8) with 256 in *.
  unfold region_x, region_y, region_is_dungeon.
  change 0xFF with (Z.ones 8). rewrite Z.land_ones, Z.shiftr_div_pow2 by lia.
  change (2 ^ 8) with 256.
  assert (E1 : (x + 256 * y) mod 256 = x) by zlia.
  assert (E2 : (x + 256 * y) / 256 = y) by zlia.
  rewrite E1, E2, !wrap_small by (apply fits_spec; assumption).
  repeat split; [apply fits_spec; change (2 ^ 16) with 65536; lia|].
  change 0x8000 with (2 ^ 15). rewrite land_pow2, Z.testbit_spec' by lia.
  change (2 ^ 15) with 32768. destruct (Z.leb_spec 128 y).
  - replace (((x + 256 * y) / 32768) mod 2) with 1 by zlia. reflexivity.
  - replace (((x + 256 * y) / 32768) mod 2) with 0 by zlia. reflexivity.
Qed.

Lemma region_xy_roundtrip_witness :
  region_x (region_from_xy 168 97) = 168 /\ region_y (region_from_xy 168 97) = 97
  /\ fits 16 (region_from_xy 168 97) = true
  /\ region_is_dungeon (region_from_xy 168 97) = (128 <=? 97).
Proof. apply region_xy_roundtrip; reflexivity. Defined.
