(* ===== verification/TypeIdEnums.v ===== *)
(** [silkroad-definitions/src/type_id.rs], the primitive enums: each
    [#[repr(u8)]] enum with the discriminants of its declaration. *)
From stdpp Require Import base decidable list.
From Stdlib Require Import ZArith.
From S2P Require Import Prelude Definitions.

Inductive ObjectMonster :=
| ObjectMonster_General
| ObjectMonster_Thief
| ObjectMonster_Hunter
| ObjectMonster_Quest
| ObjectMonster_PandorasBox
| ObjectMonster_Caravan
| ObjectMonster_ThiefCaravan
| ObjectMonster_FlowerStructure.

#[export] Instance ObjectMonster_eqdec : EqDecision ObjectMonster.
Proof. solve_decision. Defined.

#[export] Instance ObjectMonster_prim : PrimEnum ObjectMonster := {
  into e := match e with
    | ObjectMonster_General => 1
    | ObjectMonster_Thief => 2
    | ObjectMonster_Hunter => 3
    | ObjectMonster_Quest => 4
    | ObjectMonster_PandorasBox => 5
    | ObjectMonster_Caravan => 6
    | ObjectMonster_ThiefCaravan => 7
    | ObjectMonster_FlowerStructure => 8
    end;
  all_variants := [ObjectMonster_General;
    ObjectMonster_Thief;
    ObjectMonster_Hunter;
    ObjectMonster_Quest;
    ObjectMonster_PandorasBox;
    ObjectMonster_Caravan;
    ObjectMonster_ThiefCaravan;
    ObjectMonster_FlowerStructure]
}.

#[export] Instance ObjectMonster_prim_laws : PrimEnumLaws ObjectMonster.
Proof. solve_prim_enum. Qed.

Inductive ObjectNpc :=
| ObjectNpc_Standard
| ObjectNpc_GateStructure
| ObjectNpc_DungeonSlave
| ObjectNpc_DungeonStone.

#[export] Instance ObjectNpc_eqdec : EqDecision ObjectNpc.
Proof. solve_decision. Defined.

#[export] Instance ObjectNpc_prim : PrimEnum ObjectNpc := {
  into e := match e with
    | ObjectNpc_Standard => 0
    | ObjectNpc_GateStructure => 1
    | ObjectNpc_DungeonSlave => 2
    | ObjectNpc_DungeonStone => 3
    end;
  all_variants := [ObjectNpc_Standard;
    ObjectNpc_GateStructure;
    ObjectNpc_DungeonSlave;
    ObjectNpc_DungeonStone]
}.

#[export] Instance ObjectNpc_prim_laws : PrimEnumLaws ObjectNpc.
Proof. solve_prim_enum. Qed.

Inductive ObjectPet :=
| ObjectPet_Vehicle
| ObjectPet_TradeVehicle
| ObjectPet_AttackPet
| ObjectPet_AbilityPet
| ObjectPet_GuildSoldier
| ObjectPet_QuestCOS
| ObjectPet_QuestNPCCOS
| ObjectPet_Unknown
| ObjectPet_AttackVehiclePet
| ObjectPet_BatteringRam
| ObjectPet_Catapult.

#[export] Instance ObjectPet_eqdec : EqDecision ObjectPet.
Proof. solve_decision. Defined.

#[export] Instance ObjectPet_prim : PrimEnum ObjectPet := {
  into e := match e with
    | ObjectPet_Vehicle => 1
    | ObjectPet_TradeVehicle => 2
    | ObjectPet_AttackPet => 3
    | ObjectPet_AbilityPet => 4
    | ObjectPet_GuildSoldier => 5
    | ObjectPet_QuestCOS => 6
    | ObjectPet_QuestNPCCOS => 7
    | ObjectPet_Unknown => 8
    | ObjectPet_AttackVehiclePet => 9
    | ObjectPet_BatteringRam => 10
    | ObjectPet_Catapult => 11
    end;
  all_variants := [ObjectPet_Vehicle;
    ObjectPet_TradeVehicle;
    ObjectPet_AttackPet;
    ObjectPet_AbilityPet;
    ObjectPet_GuildSoldier;
    ObjectPet_QuestCOS;
    ObjectPet_QuestNPCCOS;
    ObjectPet_Unknown;
    ObjectPet_AttackVehiclePet;
    ObjectPet_BatteringRam;
    ObjectPet_Catapult]
}.

#[export] Instance ObjectPet_prim_laws : PrimEnumLaws ObjectPet.
Proof. solve_prim_enum. Qed.

Inductive ObjectFortressWar :=
| ObjectFortressWar_Guard
| ObjectFortressWar_Flag
| ObjectFortressWar_Monster
| ObjectFortressWar_OtherGuard.

#[export] Instance ObjectFortressWar_eqdec : EqDecision ObjectFortressWar.
Proof. solve_decision. Defined.

#[export] Instance ObjectFortressWar_prim : PrimEnum ObjectFortressWar := {
  into e := match e with
    | ObjectFortressWar_Guard => 1
    | ObjectFortressWar_Flag => 2
    | ObjectFortressWar_Monster => 3
    | ObjectFortressWar_OtherGuard => 4
    end;
  all_variants := [ObjectFortressWar_Guard;
    ObjectFortressWar_Flag;
    ObjectFortressWar_Monster;
    ObjectFortressWar_OtherGuard]
}.

#[export] Instance ObjectFortressWar_prim_laws : PrimEnumLaws ObjectFortressWar.
Proof. solve_prim_enum. Qed.

Inductive ObjectFortificationStructure :=
| ObjectFortificationStructure_FortStone
| ObjectFortificationStructure_Tower
| ObjectFortificationStructure_Gate
| ObjectFortificationStructure_DefensivePosition
| ObjectFortificationStructure_Headquarters
| ObjectFortificationStructure_Barricade.

#[export] Instance ObjectFortificationStructure_eqdec : EqDecision ObjectFortificationStructure.
Proof. solve_decision. Defined.

#[export] Instance ObjectFortificationStructure_prim : PrimEnum ObjectFortificationStructure := {
  into e := match e with
    | ObjectFortificationStructure_FortStone => 1
    | ObjectFortificationStructure_Tower => 2
    | ObjectFortificationStructure_Gate => 3
    | ObjectFortificationStructure_DefensivePosition => 4
    | ObjectFortificationStructure_Headquarters => 5
    | ObjectFortificationStructure_Barricade => 6
    end;
  all_variants := [ObjectFortificationStructure_FortStone;
    ObjectFortificationStructure_Tower;
    ObjectFortificationStructure_Gate;
    ObjectFortificationStructure_DefensivePosition;
    ObjectFortificationStructure_Headquarters;
    ObjectFortificationStructure_Barricade]
}.

#[export] Instance ObjectFortificationStructure_prim_laws : PrimEnumLaws ObjectFortificationStructure.
Proof. solve_prim_enum. Qed.

Inductive ObjectClothingType :=
| ObjectClothingType_Garment
| ObjectClothingType_Protector
| ObjectClothingType_Armor
| ObjectClothingType_Robe
| ObjectClothingType_LightArmor
| ObjectClothingType_HeavyArmor.

#[export] Instance ObjectClothingType_eqdec : EqDecision ObjectClothingType.
Proof. solve_decision. Defined.

#[export] Instance ObjectClothingType_prim : PrimEnum ObjectClothingType := {
  into e := match e with
    | ObjectClothingType_Garment => 1
    | ObjectClothingType_Protector => 2
    | ObjectClothingType_Armor => 3
    | ObjectClothingType_Robe => 9
    | ObjectClothingType_LightArmor => 10
    | ObjectClothingType_HeavyArmor => 11
    end;
  all_variants := [ObjectClothingType_Garment;
    ObjectClothingType_Protector;
    ObjectClothingType_Armor;
    ObjectClothingType_Robe;
    ObjectClothingType_LightArmor;
    ObjectClothingType_HeavyArmor]
}.

#[export] Instance ObjectClothingType_prim_laws : PrimEnumLaws ObjectClothingType.
Proof. solve_prim_enum. Qed.

Inductive ObjectClothingPart :=
| ObjectClothingPart_Any
| ObjectClothingPart_Head
| ObjectClothingPart_Shoulder
| ObjectClothingPart_Body
| ObjectClothingPart_Leg
| ObjectClothingPart_Arm
| ObjectClothingPart_Foot.

#[export] Instance ObjectClothingPart_eqdec : EqDecision ObjectClothingPart.
Proof. solve_decision. Defined.

#[export] Instance ObjectClothingPart_prim : PrimEnum ObjectClothingPart := {
  into e := match e with
    | ObjectClothingPart_Any => 0
    | ObjectClothingPart_Head => 1
    | ObjectClothingPart_Shoulder => 2
    | ObjectClothingPart_Body => 3
    | ObjectClothingPart_Leg => 4
    | ObjectClothingPart_Arm => 5
    | ObjectClothingPart_Foot => 6
    end;
  all_variants := [ObjectClothingPart_Any;
    ObjectClothingPart_Head;
    ObjectClothingPart_Shoulder;
    ObjectClothingPart_Body;
    ObjectClothingPart_Leg;
    ObjectClothingPart_Arm;
    ObjectClothingPart_Foot]
}.

#[export] Instance ObjectClothingPart_prim_laws : PrimEnumLaws ObjectClothingPart.
Proof. solve_prim_enum. Qed.

Inductive ObjectRace :=
| ObjectRace_Chinese
| ObjectRace_European.

#[export] Instance ObjectRace_eqdec : EqDecision ObjectRace.
Proof. solve_decision. Defined.

#[export] Instance ObjectRace_prim : PrimEnum ObjectRace := {
  into e := match e with
    | ObjectRace_Chinese => 1
    | ObjectRace_European => 2
    end;
  all_variants := [ObjectRace_Chinese;
    ObjectRace_European]
}.

#[export] Instance ObjectRace_prim_laws : PrimEnumLaws ObjectRace.
Proof. solve_prim_enum. Qed.

Inductive ObjectJewelryType :=
| ObjectJewelryType_Earring
| ObjectJewelryType_Necklace
| ObjectJewelryType_Ring.

#[export] Instance ObjectJewelryType_eqdec : EqDecision ObjectJewelryType.
Proof. solve_decision. Defined.

#[export] Instance ObjectJewelryType_prim : PrimEnum ObjectJewelryType := {
  into e := match e with
    | ObjectJewelryType_Earring => 1
    | ObjectJewelryType_Necklace => 2
    | ObjectJewelryType_Ring => 3
    end;
  all_variants := [ObjectJewelryType_Earring;
    ObjectJewelryType_Necklace;
    ObjectJewelryType_Ring]
}.

#[export] Instance ObjectJewelryType_prim_laws : PrimEnumLaws ObjectJewelryType.
Proof. solve_prim_enum. Qed.

Inductive ObjectWeaponType :=
| ObjectWeaponType_None
| ObjectWeaponType_Sword
| ObjectWeaponType_Blade
| ObjectWeaponType_Spear
| ObjectWeaponType_Glavie
| ObjectWeaponType_Bow
| ObjectWeaponType_OneHandSword
| ObjectWeaponType_TwoHandSword
| ObjectWeaponType_Axe
| ObjectWeaponType_WarlockStaff
| ObjectWeaponType_Staff
| ObjectWeaponType_Crossbow
| ObjectWeaponType_Dagger
| ObjectWeaponType_Harp
| ObjectWeaponType_ClericRod
| ObjectWeaponType_FortressHammer.

#[export] Instance ObjectWeaponType_eqdec : EqDecision ObjectWeaponType.
Proof. solve_decision. Defined.

#[export] Instance ObjectWeaponType_prim : PrimEnum ObjectWeaponType := {
  into e := match e with
    | ObjectWeaponType_None => 1
    | ObjectWeaponType_Sword => 2
    | ObjectWeaponType_Blade => 3
    | ObjectWeaponType_Spear => 4
    | ObjectWeaponType_Glavie => 5
    | ObjectWeaponType_Bow => 6
    | ObjectWeaponType_OneHandSword => 7
    | ObjectWeaponType_TwoHandSword => 8
    | ObjectWeaponType_Axe => 9
    | ObjectWeaponType_WarlockStaff => 10
    | ObjectWeaponType_Staff => 11
    | ObjectWeaponType_Crossbow => 12
    | ObjectWeaponType_Dagger => 13
    | ObjectWeaponType_Harp => 14
    | ObjectWeaponType_ClericRod => 15
    | ObjectWeaponType_FortressHammer => 16
    end;
  all_variants := [ObjectWeaponType_None;
    ObjectWeaponType_Sword;
    ObjectWeaponType_Blade;
    ObjectWeaponType_Spear;
    ObjectWeaponType_Glavie;
    ObjectWeaponType_Bow;
    ObjectWeaponType_OneHandSword;
    ObjectWeaponType_TwoHandSword;
    ObjectWeaponType_Axe;
    ObjectWeaponType_WarlockStaff;
    ObjectWeaponType_Staff;
    ObjectWeaponType_Crossbow;
    ObjectWeaponType_Dagger;
    ObjectWeaponType_Harp;
    ObjectWeaponType_ClericRod;
    ObjectWeaponType_FortressHammer]
}.

#[export] Instance ObjectWeaponType_prim_laws : PrimEnumLaws ObjectWeaponType.
Proof. solve_prim_enum. Qed.

Inductive ObjectFlagType :=
| ObjectFlagType_OldTrader
| ObjectFlagType_OldThief
| ObjectFlagType_OldHunter
| ObjectFlagType_PvpSuit
| ObjectFlagType_NewTrader
| ObjectFlagType_NewHunter.

#[export] Instance ObjectFlagType_eqdec : EqDecision ObjectFlagType.
Proof. solve_decision. Defined.

#[export] Instance ObjectFlagType_prim : PrimEnum ObjectFlagType := {
  into e := match e with
    | ObjectFlagType_OldTrader => 1
    | ObjectFlagType_OldThief => 2
    | ObjectFlagType_OldHunter => 3
    | ObjectFlagType_PvpSuit => 5
    | ObjectFlagType_NewTrader => 6
    | ObjectFlagType_NewHunter => 7
    end;
  all_variants := [ObjectFlagType_OldTrader;
    ObjectFlagType_OldThief;
    ObjectFlagType_OldHunter;
    ObjectFlagType_PvpSuit;
    ObjectFlagType_NewTrader;
    ObjectFlagType_NewHunter]
}.

#[export] Instance ObjectFlagType_prim_laws : PrimEnumLaws ObjectFlagType.
Proof. solve_prim_enum. Qed.

Inductive ObjectTradeGoods :=
| ObjectTradeGoods_Goods
| ObjectTradeGoods_SpecialBox.

#[export] Instance ObjectTradeGoods_eqdec : EqDecision ObjectTradeGoods.
Proof. solve_decision. Defined.

#[export] Instance ObjectTradeGoods_prim : PrimEnum ObjectTradeGoods := {
  into e := match e with
    | ObjectTradeGoods_Goods => 1
    | ObjectTradeGoods_SpecialBox => 3
    end;
  all_variants := [ObjectTradeGoods_Goods;
    ObjectTradeGoods_SpecialBox]
}.

#[export] Instance ObjectTradeGoods_prim_laws : PrimEnumLaws ObjectTradeGoods.
Proof. solve_prim_enum. Qed.

Inductive ObjectAvatar :=
| ObjectAvatar_Dress
| ObjectAvatar_Hat
| ObjectAvatar_Attachment
| ObjectAvatar_ETC.

#[export] Instance ObjectAvatar_eqdec : EqDecision ObjectAvatar.
Proof. solve_decision. Defined.

#[export] Instance ObjectAvatar_prim : PrimEnum ObjectAvatar := {
  into e := match e with
    | ObjectAvatar_Dress => 1
    | ObjectAvatar_Hat => 2
    | ObjectAvatar_Attachment => 3
    | ObjectAvatar_ETC => 4
    end;
  all_variants := [ObjectAvatar_Dress;
    ObjectAvatar_Hat;
    ObjectAvatar_Attachment;
    ObjectAvatar_ETC]
}.

#[export] Instance ObjectAvatar_prim_laws : PrimEnumLaws ObjectAvatar.
Proof. solve_prim_enum. Qed.

Inductive ObjectSummonScroll :=
| ObjectSummonScroll_Attack
| ObjectSummonScroll_Ability
| ObjectSummonScroll_AttackAbility
| ObjectSummonScroll_Trade.

#[export] Instance ObjectSummonScroll_eqdec : EqDecision ObjectSummonScroll.
Proof. solve_decision. Defined.

#[export] Instance ObjectSummonScroll_prim : PrimEnum ObjectSummonScroll := {
  into e := match e with
    | ObjectSummonScroll_Attack => 1
    | ObjectSummonScroll_Ability => 2
    | ObjectSummonScroll_AttackAbility => 3
    | ObjectSummonScroll_Trade => 4
    end;
  all_variants := [ObjectSummonScroll_Attack;
    ObjectSummonScroll_Ability;
    ObjectSummonScroll_AttackAbility;
    ObjectSummonScroll_Trade]
}.

#[export] Instance ObjectSummonScroll_prim_laws : PrimEnumLaws ObjectSummonScroll.
Proof. solve_prim_enum. Qed.

Inductive ObjectConsumableRecovery :=
| ObjectConsumableRecovery_HP
| ObjectConsumableRecovery_MP
| ObjectConsumableRecovery_Vigor
| ObjectConsumableRecovery_CosHP
| ObjectConsumableRecovery_CosRevive
| ObjectConsumableRecovery_Berserk
| ObjectConsumableRecovery_HGP
| ObjectConsumableRecovery_Repair
| ObjectConsumableRecovery_PreMall
| ObjectConsumableRecovery_PetHunger
| ObjectConsumableRecovery_Unknown.

#[export] Instance ObjectConsumableRecovery_eqdec : EqDecision ObjectConsumableRecovery.
Proof. solve_decision. Defined.

#[export] Instance ObjectConsumableRecovery_prim : PrimEnum ObjectConsumableRecovery := {
  into e := match e with
    | ObjectConsumableRecovery_HP => 1
    | ObjectConsumableRecovery_MP => 2
    | ObjectConsumableRecovery_Vigor => 3
    | ObjectConsumableRecovery_CosHP => 4
    | ObjectConsumableRecovery_CosRevive => 6
    | ObjectConsumableRecovery_Berserk => 8
    | ObjectConsumableRecovery_HGP => 9
    | ObjectConsumableRecovery_Repair => 10
    | ObjectConsumableRecovery_PreMall => 11
    | ObjectConsumableRecovery_PetHunger => 12
    | ObjectConsumableRecovery_Unknown => 13
    end;
  all_variants := [ObjectConsumableRecovery_HP;
    ObjectConsumableRecovery_MP;
    ObjectConsumableRecovery_Vigor;
    ObjectConsumableRecovery_CosHP;
    ObjectConsumableRecovery_CosRevive;
    ObjectConsumableRecovery_Berserk;
    ObjectConsumableRecovery_HGP;
    ObjectConsumableRecovery_Repair;
    ObjectConsumableRecovery_PreMall;
    ObjectConsumableRecovery_PetHunger;
    ObjectConsumableRecovery_Unknown]
}.

#[export] Instance ObjectConsumableRecovery_prim_laws : PrimEnumLaws ObjectConsumableRecovery.
Proof. solve_prim_enum. Qed.

Inductive ObjectConsumableCure :=
| ObjectConsumableCure_Single
| ObjectConsumableCure_Full
| ObjectConsumableCure_CosFull
| ObjectConsumableCure_Superset
| ObjectConsumableCure_Super.

#[export] Instance ObjectConsumableCure_eqdec : EqDecision ObjectConsumableCure.
Proof. solve_decision. Defined.

#[export] Instance ObjectConsumableCure_prim : PrimEnum ObjectConsumableCure := {
  into e := match e with
    | ObjectConsumableCure_Single => 1
    | ObjectConsumableCure_Full => 6
    | ObjectConsumableCure_CosFull => 7
    | ObjectConsumableCure_Superset => 8
    | ObjectConsumableCure_Super => 9
    end;
  all_variants := [ObjectConsumableCure_Single;
    ObjectConsumableCure_Full;
    ObjectConsumableCure_CosFull;
    ObjectConsumableCure_Superset;
    ObjectConsumableCure_Super]
}.

#[export] Instance ObjectConsumableCure_prim_laws : PrimEnumLaws ObjectConsumableCure.
Proof. solve_prim_enum. Qed.

Inductive ObjectConsumableScroll :=
| ObjectConsumableScroll_Return
| ObjectConsumableScroll_Transport
| ObjectConsumableScroll_Reverse
| ObjectConsumableScroll_MonsterSummon
| ObjectConsumableScroll_GlobalChat
| ObjectConsumableScroll_FortTablet
| ObjectConsumableScroll_GuardSummon
| ObjectConsumableScroll_FortManual
| ObjectConsumableScroll_FortressWarFlag
| ObjectConsumableScroll_Buff
| ObjectConsumableScroll_FortressWarGuardian
| ObjectConsumableScroll_SkillPoint
| ObjectConsumableScroll_ServerChange
| ObjectConsumableScroll_ItemUpgrade
| ObjectConsumableScroll_PremiumQuest
| ObjectConsumableScroll_Coupon
| ObjectConsumableScroll_NasrunUpgrade
| ObjectConsumableScroll_ExpStone
| ObjectConsumableScroll_UnionPartyTicket
| ObjectConsumableScroll_FlowerSummon
| ObjectConsumableScroll_AlchemyUp
| ObjectConsumableScroll_GlobalChat2.

#[export] Instance ObjectConsumableScroll_eqdec : EqDecision ObjectConsumableScroll.
Proof. solve_decision. Defined.

#[export] Instance ObjectConsumableScroll_prim : PrimEnum ObjectConsumableScroll := {
  into e := match e with
    | ObjectConsumableScroll_Return => 1
    | ObjectConsumableScroll_Transport => 2
    | ObjectConsumableScroll_Reverse => 3
    | ObjectConsumableScroll_MonsterSummon => 4
    | ObjectConsumableScroll_GlobalChat => 5
    | ObjectConsumableScroll_FortTablet => 6
    | ObjectConsumableScroll_GuardSummon => 7
    | ObjectConsumableScroll_FortManual => 8
    | ObjectConsumableScroll_FortressWarFlag => 9
    | ObjectConsumableScroll_Buff => 10
    | ObjectConsumableScroll_FortressWarGuardian => 11
    | ObjectConsumableScroll_SkillPoint => 12
    | ObjectConsumableScroll_ServerChange => 13
    | ObjectConsumableScroll_ItemUpgrade => 14
    | ObjectConsumableScroll_PremiumQuest => 15
    | ObjectConsumableScroll_Coupon => 16
    | ObjectConsumableScroll_NasrunUpgrade => 17
    | ObjectConsumableScroll_ExpStone => 18
    | ObjectConsumableScroll_UnionPartyTicket => 19
    | ObjectConsumableScroll_FlowerSummon => 20
    | ObjectConsumableScroll_AlchemyUp => 21
    | ObjectConsumableScroll_GlobalChat2 => 22
    end;
  all_variants := [ObjectConsumableScroll_Return;
    ObjectConsumableScroll_Transport;
    ObjectConsumableScroll_Reverse;
    ObjectConsumableScroll_MonsterSummon;
    ObjectConsumableScroll_GlobalChat;
    ObjectConsumableScroll_FortTablet;
    ObjectConsumableScroll_GuardSummon;
    ObjectConsumableScroll_FortManual;
    ObjectConsumableScroll_FortressWarFlag;
    ObjectConsumableScroll_Buff;
    ObjectConsumableScroll_FortressWarGuardian;
    ObjectConsumableScroll_SkillPoint;
    ObjectConsumableScroll_ServerChange;
    ObjectConsumableScroll_ItemUpgrade;
    ObjectConsumableScroll_PremiumQuest;
    ObjectConsumableScroll_Coupon;
    ObjectConsumableScroll_NasrunUpgrade;
    ObjectConsumableScroll_ExpStone;
    ObjectConsumableScroll_UnionPartyTicket;
    ObjectConsumableScroll_FlowerSummon;
    ObjectConsumableScroll_AlchemyUp;
    ObjectConsumableScroll_GlobalChat2]
}.

#[export] Instance ObjectConsumableScroll_prim_laws : PrimEnumLaws ObjectConsumableScroll.
Proof. solve_prim_enum. Qed.

Inductive ObjectConsumableAmmo :=
| ObjectConsumableAmmo_Arrows
| ObjectConsumableAmmo_Bolts.

#[export] Instance ObjectConsumableAmmo_eqdec : EqDecision ObjectConsumableAmmo.
Proof. solve_decision. Defined.

#[export] Instance ObjectConsumableAmmo_prim : PrimEnum ObjectConsumableAmmo := {
  into e := match e with
    | ObjectConsumableAmmo_Arrows => 1
    | ObjectConsumableAmmo_Bolts => 2
    end;
  all_variants := [ObjectConsumableAmmo_Arrows;
    ObjectConsumableAmmo_Bolts]
}.

#[export] Instance ObjectConsumableAmmo_prim_laws : PrimEnumLaws ObjectConsumableAmmo.
Proof. solve_prim_enum. Qed.

Inductive ObjectConsumableCurrency :=
| ObjectConsumableCurrency_Gold
| ObjectConsumableCurrency_Token.

#[export] Instance ObjectConsumableCurrency_eqdec : EqDecision ObjectConsumableCurrency.
Proof. solve_decision. Defined.

#[export] Instance ObjectConsumableCurrency_prim : PrimEnum ObjectConsumableCurrency := {
  into e := match e with
    | ObjectConsumableCurrency_Gold => 0
    | ObjectConsumableCurrency_Token => 1
    end;
  all_variants := [ObjectConsumableCurrency_Gold;
    ObjectConsumableCurrency_Token]
}.

#[export] Instance ObjectConsumableCurrency_prim_laws : PrimEnumLaws ObjectConsumableCurrency.
Proof. solve_prim_enum. Qed.

Inductive ObjectConsumableThrowable :=
| ObjectConsumableThrowable_Firework
| ObjectConsumableThrowable_Shock.

#[export] Instance ObjectConsumableThrowable_eqdec : EqDecision ObjectConsumableThrowable.
Proof. solve_decision. Defined.

#[export] Instance ObjectConsumableThrowable_prim : PrimEnum ObjectConsumableThrowable := {
  into e := match e with
    | ObjectConsumableThrowable_Firework => 1
    | ObjectConsumableThrowable_Shock => 2
    end;
  all_variants := [ObjectConsumableThrowable_Firework;
    ObjectConsumableThrowable_Shock]
}.

#[export] Instance ObjectConsumableThrowable_prim_laws : PrimEnumLaws ObjectConsumableThrowable.
Proof. solve_prim_enum. Qed.

Inductive ObjectConsumableTrade :=
| ObjectConsumableTrade_General
| ObjectConsumableTrade_Lower
| ObjectConsumableTrade_Higher
| ObjectConsumableTrade_SpecialBox.

#[export] Instance ObjectConsumableTrade_eqdec : EqDecision ObjectConsumableTrade.
Proof. solve_decision. Defined.

#[export] Instance ObjectConsumableTrade_prim : PrimEnum ObjectConsumableTrade := {
  into e := match e with
    | ObjectConsumableTrade_General => 0
    | ObjectConsumableTrade_Lower => 1
    | ObjectConsumableTrade_Higher => 2
    | ObjectConsumableTrade_SpecialBox => 3
    end;
  all_variants := [ObjectConsumableTrade_General;
    ObjectConsumableTrade_Lower;
    ObjectConsumableTrade_Higher;
    ObjectConsumableTrade_SpecialBox]
}.

#[export] Instance ObjectConsumableTrade_prim_laws : PrimEnumLaws ObjectConsumableTrade.
Proof. solve_prim_enum. Qed.

Inductive ObjectConsumableQuest :=
| ObjectConsumableQuest_General
| ObjectConsumableQuest_Job.

#[export] Instance ObjectConsumableQuest_eqdec : EqDecision ObjectConsumableQuest.
Proof. solve_decision. Defined.

#[export] Instance ObjectConsumableQuest_prim : PrimEnum ObjectConsumableQuest := {
  into e := match e with
    | ObjectConsumableQuest_General => 0
    | ObjectConsumableQuest_Job => 1
    end;
  all_variants := [ObjectConsumableQuest_General;
    ObjectConsumableQuest_Job]
}.

#[export] Instance ObjectConsumableQuest_prim_laws : PrimEnumLaws ObjectConsumableQuest.
Proof. solve_prim_enum. Qed.

Inductive ObjectConsumableEvent :=
| ObjectConsumableEvent_GuildSoldier
| ObjectConsumableEvent_GuildCrest
| ObjectConsumableEvent_GuildRecall
| ObjectConsumableEvent_BattleArena
| ObjectConsumableEvent_Talisman
| ObjectConsumableEvent_ChangeTicket
| ObjectConsumableEvent_ForgottenWorld
| ObjectConsumableEvent_ChargeGold
| ObjectConsumableEvent_Survival.

#[export] Instance ObjectConsumableEvent_eqdec : EqDecision ObjectConsumableEvent.
Proof. solve_decision. Defined.

#[export] Instance ObjectConsumableEvent_prim : PrimEnum ObjectConsumableEvent := {
  into e := match e with
    | ObjectConsumableEvent_GuildSoldier => 1
    | ObjectConsumableEvent_GuildCrest => 2
    | ObjectConsumableEvent_GuildRecall => 3
    | ObjectConsumableEvent_BattleArena => 4
    | ObjectConsumableEvent_Talisman => 5
    | ObjectConsumableEvent_ChangeTicket => 6
    | ObjectConsumableEvent_ForgottenWorld => 7
    | ObjectConsumableEvent_ChargeGold => 8
    | ObjectConsumableEvent_Survival => 9
    end;
  all_variants := [ObjectConsumableEvent_GuildSoldier;
    ObjectConsumableEvent_GuildCrest;
    ObjectConsumableEvent_GuildRecall;
    ObjectConsumableEvent_BattleArena;
    ObjectConsumableEvent_Talisman;
    ObjectConsumableEvent_ChangeTicket;
    ObjectConsumableEvent_ForgottenWorld;
    ObjectConsumableEvent_ChargeGold;
    ObjectConsumableEvent_Survival]
}.

#[export] Instance ObjectConsumableEvent_prim_laws : PrimEnumLaws ObjectConsumableEvent.
Proof. solve_prim_enum. Qed.

Inductive ObjectConsumableItemMall :=
| ObjectConsumableItemMall_SkillRestore
| ObjectConsumableItemMall_Buff
| ObjectConsumableItemMall_ExpVIP
| ObjectConsumableItemMall_SPVIP
| ObjectConsumableItemMall_Resurrection
| ObjectConsumableItemMall_Repair
| ObjectConsumableItemMall_GenderChange
| ObjectConsumableItemMall_Transmog
| ObjectConsumableItemMall_Warehouse
| ObjectConsumableItemMall_ReinforceWeapon
| ObjectConsumableItemMall_PetTimeExtension
| ObjectConsumableItemMall_StatPointsReset
| ObjectConsumableItemMall_Premium
| ObjectConsumableItemMall_PetGrowth
| ObjectConsumableItemMall_Nasrun
| ObjectConsumableItemMall_InventoryExtension
| ObjectConsumableItemMall_Indulgence
| ObjectConsumableItemMall_OpenMarket
| ObjectConsumableItemMall_FreeAccess
| ObjectConsumableItemMall_Exp
| ObjectConsumableItemMall_Dungeon
| ObjectConsumableItemMall_ForgottenWorld
| ObjectConsumableItemMall_SafetyDevice
| ObjectConsumableItemMall_FreeTime
| ObjectConsumableItemMall_SurvivalDetection.

#[export] Instance ObjectConsumableItemMall_eqdec : EqDecision ObjectConsumableItemMall.
Proof. solve_decision. Defined.

#[export] Instance ObjectConsumableItemMall_prim : PrimEnum ObjectConsumableItemMall := {
  into e := match e with
    | ObjectConsumableItemMall_SkillRestore => 0
    | ObjectConsumableItemMall_Buff => 1
    | ObjectConsumableItemMall_ExpVIP => 4
    | ObjectConsumableItemMall_SPVIP => 5
    | ObjectConsumableItemMall_Resurrection => 6
    | ObjectConsumableItemMall_Repair => 7
    | ObjectConsumableItemMall_GenderChange => 8
    | ObjectConsumableItemMall_Transmog => 9
    | ObjectConsumableItemMall_Warehouse => 10
    | ObjectConsumableItemMall_ReinforceWeapon => 11
    | ObjectConsumableItemMall_PetTimeExtension => 12
    | ObjectConsumableItemMall_StatPointsReset => 13
    | ObjectConsumableItemMall_Premium => 14
    | ObjectConsumableItemMall_PetGrowth => 15
    | ObjectConsumableItemMall_Nasrun => 16
    | ObjectConsumableItemMall_InventoryExtension => 17
    | ObjectConsumableItemMall_Indulgence => 18
    | ObjectConsumableItemMall_OpenMarket => 19
    | ObjectConsumableItemMall_FreeAccess => 20
    | ObjectConsumableItemMall_Exp => 21
    | ObjectConsumableItemMall_Dungeon => 22
    | ObjectConsumableItemMall_ForgottenWorld => 23
    | ObjectConsumableItemMall_SafetyDevice => 24
    | ObjectConsumableItemMall_FreeTime => 25
    | ObjectConsumableItemMall_SurvivalDetection => 26
    end;
  all_variants := [ObjectConsumableItemMall_SkillRestore;
    ObjectConsumableItemMall_Buff;
    ObjectConsumableItemMall_ExpVIP;
    ObjectConsumableItemMall_SPVIP;
    ObjectConsumableItemMall_Resurrection;
    ObjectConsumableItemMall_Repair;
    ObjectConsumableItemMall_GenderChange;
    ObjectConsumableItemMall_Transmog;
    ObjectConsumableItemMall_Warehouse;
    ObjectConsumableItemMall_ReinforceWeapon;
    ObjectConsumableItemMall_PetTimeExtension;
    ObjectConsumableItemMall_StatPointsReset;
    ObjectConsumableItemMall_Premium;
    ObjectConsumableItemMall_PetGrowth;
    ObjectConsumableItemMall_Nasrun;
    ObjectConsumableItemMall_InventoryExtension;
    ObjectConsumableItemMall_Indulgence;
    ObjectConsumableItemMall_OpenMarket;
    ObjectConsumableItemMall_FreeAccess;
    ObjectConsumableItemMall_Exp;
    ObjectConsumableItemMall_Dungeon;
    ObjectConsumableItemMall_ForgottenWorld;
    ObjectConsumableItemMall_SafetyDevice;
    ObjectConsumableItemMall_FreeTime;
    ObjectConsumableItemMall_SurvivalDetection]
}.

#[export] Instance ObjectConsumableItemMall_prim_laws : PrimEnumLaws ObjectConsumableItemMall.
Proof. solve_prim_enum. Qed.

Inductive ObjectConsumableMagicPop :=
| ObjectConsumableMagicPop_EntryCard
| ObjectConsumableMagicPop_Result
| ObjectConsumableMagicPop_Pre
| ObjectConsumableMagicPop_Pre2.

#[export] Instance ObjectConsumableMagicPop_eqdec : EqDecision ObjectConsumableMagicPop.
Proof. solve_decision. Defined.

#[export] Instance ObjectConsumableMagicPop_prim : PrimEnum ObjectConsumableMagicPop := {
  into e := match e with
    | ObjectConsumableMagicPop_EntryCard => 1
    | ObjectConsumableMagicPop_Result => 2
    | ObjectConsumableMagicPop_Pre => 3
    | ObjectConsumableMagicPop_Pre2 => 4
    end;
  all_variants := [ObjectConsumableMagicPop_EntryCard;
    ObjectConsumableMagicPop_Result;
    ObjectConsumableMagicPop_Pre;
    ObjectConsumableMagicPop_Pre2]
}.

#[export] Instance ObjectConsumableMagicPop_prim_laws : PrimEnumLaws ObjectConsumableMagicPop.
Proof. solve_prim_enum. Qed.

Inductive ObjectConsumablePet :=
| ObjectConsumablePet_General
| ObjectConsumablePet_NameChange
| ObjectConsumablePet_Level
| ObjectConsumablePet_Evolution.

#[export] Instance ObjectConsumablePet_eqdec : EqDecision ObjectConsumablePet.
Proof. solve_decision. Defined.

#[export] Instance ObjectConsumablePet_prim : PrimEnum ObjectConsumablePet := {
  into e := match e with
    | ObjectConsumablePet_General => 1
    | ObjectConsumablePet_NameChange => 3
    | ObjectConsumablePet_Level => 4
    | ObjectConsumablePet_Evolution => 5
    end;
  all_variants := [ObjectConsumablePet_General;
    ObjectConsumablePet_NameChange;
    ObjectConsumablePet_Level;
    ObjectConsumablePet_Evolution]
}.

#[export] Instance ObjectConsumablePet_prim_laws : PrimEnumLaws ObjectConsumablePet.
Proof. solve_prim_enum. Qed.

Inductive ObjectItemTradeArmor :=
| ObjectItemTradeArmor_Head
| ObjectItemTradeArmor_Shoulder
| ObjectItemTradeArmor_Chest
| ObjectItemTradeArmor_Pants
| ObjectItemTradeArmor_Gloves
| ObjectItemTradeArmor_Shoes.

#[export] Instance ObjectItemTradeArmor_eqdec : EqDecision ObjectItemTradeArmor.
Proof. solve_decision. Defined.

#[export] Instance ObjectItemTradeArmor_prim : PrimEnum ObjectItemTradeArmor := {
  into e := match e with
    | ObjectItemTradeArmor_Head => 1
    | ObjectItemTradeArmor_Shoulder => 2
    | ObjectItemTradeArmor_Chest => 3
    | ObjectItemTradeArmor_Pants => 4
    | ObjectItemTradeArmor_Gloves => 5
    | ObjectItemTradeArmor_Shoes => 6
    end;
  all_variants := [ObjectItemTradeArmor_Head;
    ObjectItemTradeArmor_Shoulder;
    ObjectItemTradeArmor_Chest;
    ObjectItemTradeArmor_Pants;
    ObjectItemTradeArmor_Gloves;
    ObjectItemTradeArmor_Shoes]
}.

#[export] Instance ObjectItemTradeArmor_prim_laws : PrimEnumLaws ObjectItemTradeArmor.
Proof. solve_prim_enum. Qed.

Inductive ObjectItemTradeJewelry :=
| ObjectItemTradeJewelry_Earring
| ObjectItemTradeJewelry_Necklace
| ObjectItemTradeJewelry_Ring.

#[export] Instance ObjectItemTradeJewelry_eqdec : EqDecision ObjectItemTradeJewelry.
Proof. solve_decision. Defined.

#[export] Instance ObjectItemTradeJewelry_prim : PrimEnum ObjectItemTradeJewelry := {
  into e := match e with
    | ObjectItemTradeJewelry_Earring => 1
    | ObjectItemTradeJewelry_Necklace => 2
    | ObjectItemTradeJewelry_Ring => 3
    end;
  all_variants := [ObjectItemTradeJewelry_Earring;
    ObjectItemTradeJewelry_Necklace;
    ObjectItemTradeJewelry_Ring]
}.

#[export] Instance ObjectItemTradeJewelry_prim_laws : PrimEnumLaws ObjectItemTradeJewelry.
Proof. solve_prim_enum. Qed.

