(* ===== verification/TypeId.v ===== *)
(** [silkroad-definitions/src/type_id.rs]: the classification of every game
    object, and its conversion to and from the four numbers of a [TypeId]. *)
From stdpp Require Import base option list.
From Stdlib Require Import ZArith Lia.
From S2P Require Import Prelude Definitions TypeIdEnums.

(** ** Data *)

Inductive TypeId := MkTypeId (t0 t1 t2 t3 : Z).

Definition type_id_ok (t : TypeId) : bool :=
  let '(MkTypeId a b c d) := t in fits 8 a && fits 8 b && fits 8 c && fits 8 d.

Inductive ObjectNonPlayer :=
| NonPlayer_Monster (m : ObjectMonster)
| NonPlayer_NPC (n : ObjectNpc)
| NonPlayer_Pet (p : ObjectPet)
| NonPlayer_FortressWar (f : ObjectFortressWar)
| NonPlayer_FortificationStructure (f : ObjectFortificationStructure)
| NonPlayer_HumanDefenseTower
| NonPlayer_TreasureBox
| NonPlayer_Safezone.

Inductive ObjectEntity :=
| Entity_Player
| Entity_NonPlayer (n : ObjectNonPlayer).

Inductive ObjectEquippable :=
| Equip_Clothing (t : ObjectClothingType) (p : ObjectClothingPart)
| Equip_Shield (r : ObjectRace)
| Equip_Jewelry (r : ObjectRace) (j : ObjectJewelryType)
| Equip_Weapon (w : ObjectWeaponType)
| Equip_Flag (f : ObjectFlagType)
| Equip_TradeGoods (g : ObjectTradeGoods)
| Equip_Avatar (a : ObjectAvatar)
| Equip_DevilSpirit.

Inductive ObjectSummon :=
| Summon_Scroll (s : ObjectSummonScroll)
| Summon_Transfer
| Summon_PreMall.

Inductive ObjectConsumable :=
| Consumable_Recovery (r : ObjectConsumableRecovery)
| Consumable_Cure (c : ObjectConsumableCure)
| Consumable_Scroll (s : ObjectConsumableScroll)
| Consumable_Ammo (a : ObjectConsumableAmmo)
| Consumable_Currency (c : ObjectConsumableCurrency)
| Consumable_Throwable (t : ObjectConsumableThrowable)
| Consumable_Campfire
| Consumable_Trade (t : ObjectConsumableTrade)
| Consumable_Quest (q : ObjectConsumableQuest)
| Consumable_AlchemyUpgrade
| Consumable_AlchemyImprovement
| Consumable_Event (e : ObjectConsumableEvent)
| Consumable_ItemMall (m : ObjectConsumableItemMall)
| Consumable_MagicPop (p : ObjectConsumableMagicPop)
| Consumable_MonsterSummon
| Consumable_Pet (p : ObjectConsumablePet).

Inductive ObjectItemTrade :=
| Trade_HunterArmor (a : ObjectItemTradeArmor)
| Trade_HunterWeapon
| Trade_HunterJewelry (j : ObjectItemTradeJewelry)
| Trade_ThiefArmor (a : ObjectItemTradeArmor)
| Trade_ThiefWeapon
| Trade_ThiefJewelry (j : ObjectItemTradeJewelry).

Inductive ObjectItemPet :=
| ItemPet_Claw | ItemPet_Charm | ItemPet_Saddle | ItemPet_Scale
| ItemPet_Amulet | ItemPet_Choker | ItemPet_Tattoo.

Inductive ObjectItem :=
| Item_Equippable (e : ObjectEquippable)
| Item_Summon (s : ObjectSummon)
| Item_Consumable (c : ObjectConsumable)
| Item_Trade (t : ObjectItemTrade)
| Item_Pet (p : ObjectItemPet).

Inductive ObjectArea := Area_None.

Inductive ObjectType :=
| Type_Entity (e : ObjectEntity)
| Type_Item (i : ObjectItem)
| Type_Area (a : ObjectArea).

(** ** [type_value]: from the classification to the numbers *)

Definition non_player_type_value (n : ObjectNonPlayer) : Z * Z :=
  match n with
  | NonPlayer_Monster monster => (1, into monster)
  | NonPlayer_NPC npc => (2, into npc)
  | NonPlayer_Pet pet => (3, into pet)
  | NonPlayer_FortressWar fw => (4, into fw)
  | NonPlayer_FortificationStructure structure => (5, into structure)
  | NonPlayer_HumanDefenseTower => (6, 0)
  | NonPlayer_TreasureBox => (7, 0)
  | NonPlayer_Safezone => (8, 0)
  end.

Definition entity_type_value (e : ObjectEntity) : Z * Z * Z :=
  match e with
  | Entity_Player => (1, 0, 0)
  | Entity_NonPlayer non_player => let '(t2, t3) := non_player_type_value non_player in (2, t2, t3)
  end.

Definition equippable_type_value (e : ObjectEquippable) : Z * Z :=
  match e with
  | Equip_Clothing clothing part => (into clothing, into part)
  | Equip_Shield race => (4, into race)
  | Equip_Jewelry race jewelry =>
      let race := if decide (race = ObjectRace_Chinese) then 5 else 12 in (race, into jewelry)
  | Equip_Weapon weapon => (6, into weapon)
  | Equip_Flag flag => (7, into flag)
  | Equip_TradeGoods goods => (8, into goods)
  | Equip_Avatar avatar => (13, into avatar)
  | Equip_DevilSpirit => (14, 0)
  end.

Definition summon_type_value (s : ObjectSummon) : Z * Z :=
  match s with
  | Summon_Scroll scroll => (1, into scroll)
  | Summon_Transfer => (2, 0)
  | Summon_PreMall => (3, 1)
  end.

Definition consumable_type_value (c : ObjectConsumable) : Z * Z :=
  match c with
  | Consumable_Recovery recovery => (1, into recovery)
  | Consumable_Cure cure => (2, into cure)
  | Consumable_Scroll scroll => (3, into scroll)
  | Consumable_Ammo ammo => (4, into ammo)
  | Consumable_Currency currency => (5, into currency)
  | Consumable_Throwable throwable => (6, into throwable)
  | Consumable_Campfire => (7, 1)
  | Consumable_Trade trade => (8, into trade)
  | Consumable_Quest quest => (9, into quest)
  | Consumable_AlchemyUpgrade => (10, 1)
  | Consumable_AlchemyImprovement => (11, 1)
  | Consumable_Event event => (12, into event)
  | Consumable_ItemMall mall => (13, into mall)
  | Consumable_MagicPop pop => (14, into pop)
  | Consumable_MonsterSummon => (15, 1)
  | Consumable_Pet pet => (16, into pet)
  end.

Definition item_trade_type_value (t : ObjectItemTrade) : Z * Z :=
  match t with
  | Trade_HunterArmor armor => (1, into armor)
  | Trade_HunterWeapon => (2, 1)
  | Trade_HunterJewelry jewelry => (3, into jewelry)
  | Trade_ThiefArmor armor => (4, into armor)
  | Trade_ThiefWeapon => (5, 1)
  | Trade_ThiefJewelry jewelry => (6, into jewelry)
  end.

Definition item_pet_type_value (p : ObjectItemPet) : Z * Z :=
  match p with
  | ItemPet_Claw => (1, 0)
  | ItemPet_Charm => (2, 0)
  | ItemPet_Saddle => (3, 0)
  | ItemPet_Scale => (4, 0)
  | ItemPet_Amulet => (5, 0)
  | ItemPet_Choker => (6, 0)
  | ItemPet_Tattoo => (7, 0)
  end.

Definition item_type_value (i : ObjectItem) : Z * Z * Z :=
  match i with
  | Item_Equippable equipment => let '(t2, t3) := equippable_type_value equipment in (1, t2, t3)
  | Item_Summon summon => let '(t2, t3) := summon_type_value summon in (2, t2, t3)
  | Item_Consumable consumable => let '(t2, t3) := consumable_type_value consumable in (3, t2, t3)
  | Item_Trade trade => let '(t2, t3) := item_trade_type_value trade in (4, t2, t3)
  | Item_Pet pet => let '(t2, t3) := item_pet_type_value pet in (5, t2, t3)
  end.

(** [ObjectType::type_id]. *)
Definition type_id (o : ObjectType) : TypeId :=
  match o with
  | Type_Entity entity => let '(t1, t2, t3) := entity_type_value entity in MkTypeId 1 t1 t2 t3
  | Type_Item item => let '(t1, t2, t3) := item_type_value item in MkTypeId 3 t1 t2 t3
  | Type_Area _ => MkTypeId 4 0 0 0
  end.

(** ** [from_type_value]: from the numbers to the classification *)

Definition non_player_from_type_value (t2 t3 : Z) : option ObjectNonPlayer :=
  match t2 with
  | 1 => NonPlayer_Monster <$> try_from t3
  | 2 => NonPlayer_NPC <$> try_from t3
  | 3 => NonPlayer_Pet <$> try_from t3
  | 4 => NonPlayer_FortressWar <$> try_from t3
  | 5 => NonPlayer_FortificationStructure <$> try_from t3
  | 6 => Some NonPlayer_HumanDefenseTower
  | 7 => Some NonPlayer_TreasureBox
  | 8 => Some NonPlayer_Safezone
  | _ => None
  end.

Definition entity_from_type_value (t1 t2 t3 : Z) : option ObjectEntity :=
  match t1 with
  | 1 => Some Entity_Player
  | 2 => Entity_NonPlayer <$> non_player_from_type_value t2 t3
  | _ => None
  end.

Definition equippable_from_type_value (t2 t3 : Z) : option ObjectEquippable :=
  match t2 with
  | 4 => Equip_Shield <$> try_from t3
  | 5 => Equip_Jewelry ObjectRace_Chinese <$> try_from t3
  | 6 => Equip_Weapon <$> try_from t3
  | 7 => Equip_Flag <$> try_from t3
  | 8 => Equip_TradeGoods <$> try_from t3
  | 12 => Equip_Jewelry ObjectRace_European <$> try_from t3
  | 13 => Equip_Avatar <$> try_from t3
  | 14 => Some Equip_DevilSpirit
  | id =>
      if id <=? 11 then
        clothing ← try_from id;
        part ← try_from t3;
        Some (Equip_Clothing clothing part)
      else None
  end.

Definition summon_from_type_value (t2 t3 : Z) : option ObjectSummon :=
  match t2 with
  | 1 => Summon_Scroll <$> try_from t3
  | 2 => Some Summon_Transfer
  | 3 => Some Summon_PreMall
  | _ => None
  end.

Definition consumable_from_type_value (t2 t3 : Z) : option ObjectConsumable :=
  match t2 with
  | 1 => Consumable_Recovery <$> try_from t3
  | 2 => Consumable_Cure <$> try_from t3
  | 3 => Consumable_Scroll <$> try_from t3
  | 4 => Consumable_Ammo <$> try_from t3
  | 5 => Consumable_Currency <$> try_from t3
  | 6 => Consumable_Throwable <$> try_from t3
  | 7 => Some Consumable_Campfire
  | 8 => Consumable_Trade <$> try_from t3
  | 9 => Consumable_Quest <$> try_from t3
  | 10 => Some Consumable_AlchemyUpgrade
  | 11 => Some Consumable_AlchemyImprovement
  | 12 => Consumable_Event <$> try_from t3
  | 13 => Consumable_ItemMall <$> try_from t3
  | 14 => Consumable_MagicPop <$> try_from t3
  | 15 => Some Consumable_MonsterSummon
  | 16 => Consumable_Pet <$> try_from t3
  | _ => None
  end.

Definition item_trade_from_type_value (t2 t3 : Z) : option ObjectItemTrade :=
  match t2 with
  | 1 => Trade_HunterArmor <$> try_from t3
  | 2 => Some Trade_HunterWeapon
  | 3 => Trade_HunterJewelry <$> try_from t3
  | 4 => Trade_ThiefArmor <$> try_from t3
  | 5 => Some Trade_ThiefWeapon
  | 6 => Trade_ThiefJewelry <$> try_from t3
  | _ => None
  end.

Definition item_pet_from_type_value (t2 _t3 : Z) : option ObjectItemPet :=
  match t2 with
  | 1 => Some ItemPet_Claw
  | 2 => Some ItemPet_Charm
  | 3 => Some ItemPet_Saddle
  | 4 => Some ItemPet_Scale
  | 5 => Some ItemPet_Amulet
  | 6 => Some ItemPet_Choker
  | 7 => Some ItemPet_Tattoo
  | _ => None
  end.

Definition item_from_type_value (t1 t2 t3 : Z) : option ObjectItem :=
  match t1 with
  | 1 => Item_Equippable <$> equippable_from_type_value t2 t3
  | 2 => Item_Summon <$> summon_from_type_value t2 t3
  | 3 => Item_Consumable <$> consumable_from_type_value t2 t3
  | 4 => Item_Trade <$> item_trade_from_type_value t2 t3
  | 5 => Item_Pet <$> item_pet_from_type_value t2 t3
  | _ => None
  end.

(** [ObjectType::from_type_id]. *)
Definition from_type_id (t : TypeId) : option ObjectType :=
  let '(MkTypeId t0 t1 t2 t3) := t in
  match t0 with
  | 1 => Type_Entity <$> entity_from_type_value t1 t2 t3
  | 3 => Type_Item <$> item_from_type_value t1 t2 t3
  | 4 => Some (Type_Area Area_None)
  | _ => None
  end.

(** [ObjectType::as_item]. *)
Definition as_item (o : ObjectType) : option ObjectItem :=
  match o with Type_Item item => Some item | _ => None end.

(** ** Properties *)

(** The classifications whose parser ignores one of the numbers: a [TypeId]
    that differs there is accepted although it is not the one [type_id] builds. *)
Definition ignores_numbers (o : ObjectType) : bool :=
  match o with
  | Type_Entity Entity_Player => true
  | Type_Entity (Entity_NonPlayer
      (NonPlayer_HumanDefenseTower | NonPlayer_TreasureBox | NonPlayer_Safezone)) => true
  | Type_Item (Item_Equippable Equip_DevilSpirit) => true
  | Type_Item (Item_Summon (Summon_Transfer | Summon_PreMall)) => true
  | Type_Item (Item_Consumable (Consumable_Campfire | Consumable_AlchemyUpgrade
      | Consumable_AlchemyImprovement | Consumable_MonsterSummon)) => true
  | Type_Item (Item_Trade (Trade_HunterWeapon | Trade_ThiefWeapon)) => true
  | Type_Item (Item_Pet _) => true
  | Type_Area _ => true
  | _ => false
  end.

(** Follow the matches of a successful parse down to its result. *)
Ltac parse_all H :=
  match type of H with
  | None = Some _ => discriminate H
  | Some _ = Some _ => injection H as <-
  | _ <$> ?m = Some _ => let E := fresh "E" in destruct m eqn:E; cbn in H; parse_all H
  | ?m ≫= _ = Some _ => let E := fresh "E" in destruct m eqn:E; cbn in H; parse_all H
  | (match ?x with _ => _ end) = Some _ => destruct x eqn:?; parse_all H
  end.

Ltac rewrite_discriminants :=
  repeat match goal with
  | E : try_from _ = Some _ |- _ => apply try_from_some in E
  end.

(** A parser is sound when the numbers it read are those its result has, unless
    the result is one that [ignores_numbers]. *)
Ltac parser_sound H :=
  parse_all H; rewrite_discriminants; subst; auto; left; cbn; congruence.

Lemma non_player_sound t2 t3 n :
  non_player_from_type_value t2 t3 = Some n ->
  non_player_type_value n = (t2, t3)
  \/ ignores_numbers (Type_Entity (Entity_NonPlayer n)) = true.
Proof. intros H. unfold non_player_from_type_value in H. parser_sound H. Qed.

Lemma equippable_sound t2 t3 e :
  equippable_from_type_value t2 t3 = Some e ->
  equippable_type_value e = (t2, t3)
  \/ ignores_numbers (Type_Item (Item_Equippable e)) = true.
Proof. intros H. unfold equippable_from_type_value in H. parser_sound H. Qed.

Lemma summon_sound t2 t3 s :
  summon_from_type_value t2 t3 = Some s ->
  summon_type_value s = (t2, t3) \/ ignores_numbers (Type_Item (Item_Summon s)) = true.
Proof. intros H. unfold summon_from_type_value in H. parser_sound H. Qed.

Lemma consumable_sound t2 t3 c :
  consumable_from_type_value t2 t3 = Some c ->
  consumable_type_value c = (t2, t3) \/ ignores_numbers (Type_Item (Item_Consumable c)) = true.
Proof. intros H. unfold consumable_from_type_value in H. parser_sound H. Qed.

Lemma item_trade_sound t2 t3 t :
  item_trade_from_type_value t2 t3 = Some t ->
  item_trade_type_value t = (t2, t3) \/ ignores_numbers (Type_Item (Item_Trade t)) = true.
Proof. intros H. unfold item_trade_from_type_value in H. parser_sound H. Qed.

Lemma item_sound t1 t2 t3 i :
  item_from_type_value t1 t2 t3 = Some i ->
  item_type_value i = (t1, t2, t3) \/ ignores_numbers (Type_Item i) = true.
Proof.
  intros H. unfold item_from_type_value in H.
  parse_all H;
    try (match goal with E : _ = Some _ |- _ =>
      first [ apply equippable_sound in E as [E|E] | apply summon_sound in E as [E|E]
            | apply item_trade_sound in E as [E|E] | apply consumable_sound in E as [E|E] ];
      [left; cbn; rewrite E; reflexivity | right; exact E] end).
  right; reflexivity.
Qed.

(** The parser of the four numbers inverts [type_id] on every classification,
    so no two classifications share a [TypeId], and each number fits a byte. *)
Theorem type_id_roundtrip o :
  from_type_id (type_id o) = Some o /\ type_id_ok (type_id o) = true.
Proof.
  destruct o as [[|[]]|[[]|[]|[]|[]|[]]|[]];
    repeat match goal with
    | x : _ |- _ => destruct x
    end; split; reflexivity.
Qed.

(** Whatever numbers [from_type_id] accepts, they are the numbers [type_id]
    gives back, except for the listed classifications whose parser ignores some. *)
Theorem from_type_id_sound t o :
  from_type_id t = Some o -> type_id o = t \/ ignores_numbers o = true.
Proof.
  destruct t as [t0 t1 t2 t3]. unfold from_type_id. intros H. parse_all H; auto.
  - apply item_sound in E as [E|E]; [left; cbn; rewrite E; reflexivity | auto].
  - unfold entity_from_type_value in E. parse_all E; auto.
    apply non_player_sound in E0 as [E0|E0]; [left; cbn; rewrite E0; reflexivity | auto].
Qed.

Lemma from_type_id_sound_witness :
  from_type_id (MkTypeId 3 3 1 8) = Some (Type_Item (Item_Consumable
    (Consumable_Recovery ObjectConsumableRecovery_Berserk)))
  /\ (type_id (Type_Item (Item_Consumable (Consumable_Recovery ObjectConsumableRecovery_Berserk)))
      = MkTypeId 3 3 1 8
      \/ ignores_numbers (Type_Item (Item_Consumable
           (Consumable_Recovery ObjectConsumableRecovery_Berserk))) = true).
Proof. split; [reflexivity|]. apply (from_type_id_sound (MkTypeId 3 3 1 8)). reflexivity. Defined.

(** The exception is real: a player is recognised whatever the last two numbers are. *)
Example player_ignores_numbers : from_type_id (MkTypeId 1 1 7 9) = Some (Type_Entity Entity_Player).
Proof. reflexivity. Qed.
