(* ===== verification/GameData.v ===== *)
(** silkroad-data but for skills: rows of tab-separated columns, the records
    read from them, files of rows, and the maps of entries.

    Opening a file of the archive and decoding its bytes are parameters. *)
From stdpp Require Import base list option strings gmap.
From Stdlib Require Import ZArith Lia.
From S2P Require Import Prelude Utf Text F32 Definitions TypeIdEnums TypeId.

(** ** lib.rs *)

Inductive ParseError :=
| MissingColumn (column : Z)
| NumberParseError (e : IntErrorKind)
| BooleanParseError
| FloatParseError (e : FloatErrorKind)
| UnknownVariant (number : Z) (name : string).

Inductive FileError := ParseFileError (e : ParseError) | IoError.

(** [elements.get(i).ok_or(ParseError::MissingColumn(reported))?] *)
Definition column (elements : list (list Z)) (i : nat) (reported : Z) : outcome ParseError (list Z) :=
  ok_or (elements !! i) (MissingColumn reported).

Definition to_int (t : int_type) (s : list Z) : outcome ParseError Z :=
  map_err NumberParseError (parse_int t s).
Definition to_f32 (s : list Z) : outcome ParseError f32 := map_err FloatParseError (parse_f32 s).

Definition text (elements : list (list Z)) (i : nat) : outcome ParseError (list Z) :=
  column elements i (Z.of_nat i).
Definition int (t : int_type) (elements : list (list Z)) (i : nat) : outcome ParseError Z :=
  s ← text elements i; to_int t s.
Definition float (elements : list (list Z)) (i : nat) : outcome ParseError f32 :=
  s ← text elements i; to_f32 s.

(** [FromStr] of the enums: a [u8], then its variant. *)
Definition enum_from_str {A} (variant_of : Z -> option A) (name : string) (s : list Z)
    : outcome ParseError A :=
  value ← to_int (U 8) s; ok_or (variant_of value) (UnknownVariant value name).

(** [NonZeroU8::new] and the like. *)
Definition non_zero (z : Z) : option Z := if z =? 0 then None else Some z.

Section Lines.
Context {T : Type} (from_str : list Z -> outcome ParseError T).

Fixpoint load_all (ls : list (list Z)) : outcome ParseError (list T) :=
  match ls with
  | [] => Ok []
  | line :: ls => parsed ← from_str line; rest ← load_all ls; Ok (parsed :: rest)
  end.

(** The order of the loop: the first bad line is the error, whatever follows. *)
Definition load_lines (source : list Z) : outcome ParseError (list T) :=
  load_all (List.filter (fun line => negb (bool_decide (line = []))) (lines source)).
End Lines.

(** ** common.rs *)

Inductive RefOrigin := Chinese | European | General.
#[export] Instance RefOrigin_prim : PrimEnum RefOrigin := {
  into e := match e with Chinese => 0 | European => 1 | General => 3 end;
  all_variants := [Chinese; European; General]
}.

Record RefCommon := {
  common_ref_id : Z;
  common_id : list Z;
  type_id : TypeId;
  country : RefOrigin;
  despawn_time : Z;
}.

Definition origin_from_str : list Z -> outcome ParseError RefOrigin := enum_from_str try_from "RefOrigin".

Definition from_columns (elements : list (list Z)) : outcome ParseError RefCommon :=
  ref_id ← int (U 32) elements 1;
  id ← text elements 2;
  t1 ← int (U 8) elements 9;
  t2 ← int (U 8) elements 10;
  t3 ← int (U 8) elements 11;
  t4 ← int (U 8) elements 12;
  despawn ← int (U 64) elements 13;
  origin ← (s ← text elements 14; origin_from_str s);
  Ok {| common_ref_id := ref_id; common_id := id; type_id := MkTypeId t1 t2 t3 t4;
        country := origin; despawn_time := despawn |}.

(** ** itemdata.rs *)

Inductive RefBiologicalType := Female | Male | Both | Pet1 | Pet2 | Pet3.
#[export] Instance RefBiologicalType_prim : PrimEnum RefBiologicalType := {
  into e := match e with Female => 0 | Male => 1 | Both => 2 | Pet1 => 3 | Pet2 => 4 | Pet3 => 5 end;
  all_variants := [Female; Male; Both; Pet1; Pet2; Pet3]
}.

Inductive RefItemRarity := GeneralRarity | Blue | Seal | SetRarity | Roc | Legend.
#[export] Instance RefItemRarity_prim : PrimEnum RefItemRarity := {
  into e := match e with
    | GeneralRarity => 0 | Blue => 1 | Seal => 2 | SetRarity => 3 | Roc => 6 | Legend => 8
    end;
  all_variants := [GeneralRarity; Blue; Seal; SetRarity; Roc; Legend]
}.

Definition biological_type_from_str : list Z -> outcome ParseError RefBiologicalType :=
  enum_from_str try_from "RefBiologicalType".

Record RefItemData := {
  item_common : RefCommon;
  price : Z;
  max_stack_size : Z;
  range : option Z;
  required_level : option Z;
  biological_type : RefBiologicalType;
  params : list Z;
  physical_attack_power_lower : f32;
  physical_attack_power_upper : f32;
  magical_attack_power_lower : f32;
  magical_attack_power_upper : f32;
  critical : f32;
  physical_reinforce_lower : f32;
  physical_reinforce_upper : f32;
  magical_reinforce_upper : f32;
  magical_reinforce_lower : f32;
  attack_rate : f32;
}.

(** The reinforcement columns hold hundredths. *)
Definition hundredth (f : f32) : f32 := fdiv f (f32_of_Z 100).

Definition item_from_str (s : list Z) : outcome ParseError RefItemData :=
  let elements := split tab s in
  common ← from_columns elements;
  range ← int (U 16) elements 94;
  required_level ← int (U 8) elements 33;
  price ← int (U 64) elements 26;
  p1 ← int (I 64) elements 118;
  p2 ← int (I 64) elements 120;
  p3 ← int (I 64) elements 122;
  p4 ← int (I 64) elements 124;
  bio ← (s ← text elements 58; biological_type_from_str s);
  stack ← int (U 16) elements 57;
  physical_lower ← float elements 95;
  physical_upper ← float elements 97;
  magical_lower ← float elements 100;
  magical_upper ← float elements 102;
  physical_reinforce_lower ← float elements 105;
  physical_reinforce_upper ← float elements 107;
  magical_reinforce_lower ← float elements 109;
  magical_reinforce_upper ← float elements 111;
  attack_rate ← float elements 113;
  critical ← float elements 116;
  Ok {| item_common := common; price := price; max_stack_size := stack;
        range := non_zero range; required_level := non_zero required_level;
        biological_type := bio; params := [p1; p2; p3; p4];
        physical_attack_power_lower := physical_lower;
        physical_attack_power_upper := physical_upper;
        magical_attack_power_lower := magical_lower;
        magical_attack_power_upper := magical_upper;
        critical := critical;
        physical_reinforce_lower := hundredth physical_reinforce_lower;
        physical_reinforce_upper := hundredth physical_reinforce_upper;
        magical_reinforce_upper := hundredth magical_reinforce_upper;
        magical_reinforce_lower := hundredth magical_reinforce_lower;
        attack_rate := attack_rate |}.

(** ** characterdata.rs *)

Record RefCharacterData := {
  character_common : RefCommon;
  rarity : EntityRarity;
  level : Z;
  exp : Z;
  hp : Z;
  walk_speed : Z;
  run_speed : Z;
  berserk_speed : Z;
  base_range : Z;
  pickup_range : option Z;
  aggressive : bool;
  skills : list Z;
}.

(** The loop over the columns of skills; zeros are skipped. *)
Fixpoint skills_of (elements : list (list Z)) (columns : list nat) : outcome ParseError (list Z) :=
  match columns with
  | [] => Ok []
  | i :: columns =>
      skill_id ← int (U 32) elements i;
      rest ← skills_of elements columns;
      Ok (if skill_id =? 0 then rest else skill_id :: rest)
  end.

Definition character_from_str (s : list Z) : outcome ParseError RefCharacterData :=
  let elements := split tab s in
  common ← from_columns elements;
  rarity_kind ← (s ← column elements 15 16; to_int (U 8) s);
  aggressive ← (s ← column elements 93 94; to_int (U 8) s);
  pickup_range ← int (U 16) elements 61;
  skills ← skills_of elements (seq 83 10);
  rarity ← ok_or (rarity_try_from rarity_kind) (UnknownVariant (Z.land 0xEF rarity_kind) "EntityRarityType");
  level ← int (U 8) elements 57;
  exp ← int (U 32) elements 79;
  hp ← int (U 32) elements 59;
  walk ← int (U 32) elements 46;
  run ← int (U 32) elements 47;
  berserk ← int (U 32) elements 48;
  base_range ← int (U 16) elements 50;
  Ok {| character_common := common; rarity := rarity; level := level; exp := exp; hp := hp;
        walk_speed := walk; run_speed := run; berserk_speed := berserk;
        base_range := base_range; pickup_range := non_zero pickup_range;
        aggressive := aggressive =? 1; skills := skills |}.

(** ** gold.rs *)

Record RefGold := { gold_level : Z; min : Z; max : Z }.

Definition gold_from_str (s : list Z) : outcome ParseError RefGold :=
  let elements := split tab s in
  level ← int (U 8) elements 0;
  min ← int (U 32) elements 1;
  max ← int (U 32) elements 2;
  Ok {| gold_level := level; min := min; max := max |}.

(** [into_iter().map(..).collect()] into a hash map: a later row replaces. *)
Definition collect {A} (key : A -> Z) (rows : list A) : gmap Z A :=
  fold_left (fun m a => <[key a := a]> m) rows ∅.

Definition GoldMap : Type := gmap Z RefGold.
Definition load_gold_rows : list RefGold -> GoldMap := collect gold_level.

(** The bounds of the inclusive range. *)
Definition get_for_level (m : gmap Z RefGold) (level : Z) : Z * Z :=
  if level =? 0 then (0, 0)
  else match m !! level with Some g => (g.(min), g.(max)) | None => (0, 0) end.

(** ** level.rs *)

Record RefLevel := {
  level_level : Z;
  level_exp : Z;
  exp_mastery : Z;
  mob_exp : Z;
  job_exp_trader : Z;
  job_exp_thief : Z;
  job_exp_hunter : Z;
  pet_exp : Z;
  pet_stored_sp : Z;
}.

Definition level_from_str (s : list Z) : outcome ParseError RefLevel :=
  let elements := split tab s in
  level ← int (U 8) elements 0;
  exp ← int (U 64) elements 1;
  exp_mastery ← int (U 32) elements 2;
  mob_exp ← (s ← column elements 5 3; to_int (U 64) s);
  trader ← (s ← column elements 6 4; to_int (I 64) s);
  thief ← (s ← column elements 7 5; to_int (I 64) s);
  hunter ← (s ← column elements 8 6; to_int (I 64) s);
  pet_exp ← (s ← column elements 9 7; to_int (U 64) s);
  pet_stored_sp ← (s ← column elements 10 8; to_int (U 32) s);
  Ok {| level_level := level; level_exp := exp; exp_mastery := exp_mastery; mob_exp := mob_exp;
        job_exp_trader := trader; job_exp_thief := thief; job_exp_hunter := hunter;
        pet_exp := pet_exp; pet_stored_sp := pet_stored_sp |}.

Definition load_level_rows : list RefLevel -> gmap Z RefLevel := collect level_level.

(** ** masterydata.rs *)

Record RefMasteryData := {
  mastery_ref_id : Z;
  secondary : option Z;
  mastery_id : list Z;
  weapons : list Z;
}.

Definition mastery_from_str (s : list Z) : outcome ParseError RefMasteryData :=
  let elements := split tab s in
  secondary ← int (I 8) elements 1;
  weapon1 ← int (U 8) elements 8;
  weapon2 ← int (U 8) elements 9;
  weapon3 ← int (U 8) elements 10;
  ref_id ← int (U 16) elements 0;
  id ← text elements 3;
  Ok {| mastery_ref_id := ref_id;
        secondary := if 0 <? secondary then non_zero (u8 secondary) else None;
        mastery_id := id;
        weapons := List.filter (fun a => negb (a =? 0)) [weapon1; weapon2; weapon3] |}.

Definition keep_mastery (m : RefMasteryData) : bool :=
  match m.(secondary) with None => true | Some s => s =? 1 end.
Definition load_mastery_rows : list RefMasteryData -> list RefMasteryData := List.filter keep_mastery.

(** ** npc_pos.rs *)

Record NpcPosition := { npc_id : Z; region : Z; x : f32; y : f32; z : f32 }.

Definition npc_pos_from_str (s : list Z) : outcome ParseError NpcPosition :=
  let elements := split tab s in
  region ← int (I 16) elements 1;
  npc_id ← int (U 32) elements 0;
  x ← float elements 2;
  y ← float elements 3;
  z ← float elements 4;
  Ok {| npc_id := npc_id; region := u16 region; x := x; y := y; z := z |}.

(** ** datamap.rs *)

(** [DataEntry] *)
Class DataEntry (T : Type) := { ref_id : T -> Z; code : T -> list Z }.

#[export] Instance RefItemData_entry : DataEntry RefItemData := {
  ref_id r := r.(item_common).(common_ref_id); code r := r.(item_common).(common_id)
}.
#[export] Instance RefCharacterData_entry : DataEntry RefCharacterData := {
  ref_id r := r.(character_common).(common_ref_id); code r := r.(character_common).(common_id)
}.
#[export] Instance RefMasteryData_entry : DataEntry RefMasteryData := {
  ref_id r := r.(mastery_ref_id); code r := r.(mastery_id)
}.

Definition find_id {T} `{DataEntry T} (items : list T) (id : Z) : option T :=
  List.find (fun item => ref_id item =? id) items.
Definition find_code {T} `{DataEntry T} (items : list T) (c : list Z) : option T :=
  List.find (fun item => bool_decide (code item = c)) items.

Section Files.

(** Opening a file of the archive, and the decoding of Windows-1252. *)
Context (open_file : list Z -> option (list Z)) (decode : list Z -> list Z).

Definition parse_file {T} (from_str : list Z -> outcome ParseError T) (file : list Z)
    : outcome FileError (list T) :=
  map_err ParseFileError (load_lines from_str (decode file)).

Definition list_files (file : list Z) : list (list Z) := split_crlf (decode file).

Definition textdata (name : list Z) : list Z := chars "/server_dep/silkroad/textdata/" ++ name.

Definition load_one {T} (from_str : list Z -> outcome ParseError T) (name : list Z)
    : outcome FileError (list T) :=
  match open_file (textdata name) with
  | Some file => parse_file from_str file
  | None => Err IoError
  end.

(** [collect] into a [Result] stops at the first error. *)
Fixpoint load_each {T} (from_str : list Z -> outcome ParseError T) (names : list (list Z))
    : outcome FileError (list (list T)) :=
  match names with
  | [] => Ok []
  | name :: names =>
      entries ← load_one from_str name; rest ← load_each from_str names; Ok (entries :: rest)
  end.

(** [DataMap::from] *)
Definition data_map_from {T} (from_str : list Z -> outcome ParseError T) (main_file : list Z)
    : outcome FileError (list T) :=
  match open_file main_file with
  | None => Err IoError
  | Some file =>
      all_entries ← load_each from_str
        (List.filter (fun name => negb (bool_decide (name = []))) (list_files file));
      Ok (concat all_entries)
  end.

Definition load_item_map : outcome FileError (list RefItemData) :=
  data_map_from item_from_str (textdata (chars "ItemData.txt")).
Definition load_character_map : outcome FileError (list RefCharacterData) :=
  data_map_from character_from_str (textdata (chars "CharacterData.txt")).

(** The maps of a single file. *)
Definition load_gold_map : outcome FileError GoldMap :=
  match open_file (textdata (chars "levelgold.txt")) with
  | Some file => load_gold_rows <$> parse_file gold_from_str file
  | None => Err IoError
  end.
Definition load_level_map : outcome FileError (gmap Z RefLevel) :=
  match open_file (textdata (chars "LevelData.txt")) with
  | Some file => load_level_rows <$> parse_file level_from_str file
  | None => Err IoError
  end.
Definition load_mastery_map : outcome FileError (list RefMasteryData) :=
  match open_file (textdata (chars "skillmasterydata.txt")) with
  | Some file => load_mastery_rows <$> parse_file mastery_from_str file
  | None => Err IoError
  end.
Definition load_npc_positions : outcome FileError (list NpcPosition) :=
  match open_file (textdata (chars "NpcPos.txt")) with
  | Some file => parse_file npc_pos_from_str file
  | None => Err IoError
  end.

End Files.
