(* ===== verification/GameDataSpec.v ===== *)
(** Correctness of GameData.v: files of rows load in their order or fail with
    the first bad row, rows are read as they were written, and what is read is
    in the range of its field. *)
From stdpp Require Import base list option strings gmap.
From Stdlib Require Import ZArith Lia.
From S2P Require Import Prelude Utf Text F32 Definitions TypeIdEnums TypeId GameData.

(** ** Lines *)

(** A file: every row ends with a carriage return and a newline. *)
Definition file_of (rows : list (list Z)) : list Z :=
  concat (map (fun row => row ++ [carriage_return; newline]) rows).

Lemma strip_cr_row row : strip_cr (row ++ [carriage_return]) = row.
Proof. unfold strip_cr. rewrite rev_app_distr. cbn. apply rev_involutive. Qed.

Lemma file_of_cons row rows : file_of (row :: rows) = (row ++ [carriage_return]) ++ newline :: file_of rows.
Proof. unfold file_of. cbn [map concat]. rewrite <- !app_assoc. reflexivity. Qed.

Lemma lines_file_of rows : Forall (fun row => newline ∉ row) rows -> lines (file_of rows) = rows.
Proof.
  unfold lines. intros H. induction H as [|row rows Hr Hrs IH]; [reflexivity|].
  rewrite file_of_cons, split_app.
  - destruct (split newline (file_of rows)) as [|p ps] eqn:E; [exfalso; eapply split_not_nil, E|].
    cbn [lines_of_pieces]. rewrite strip_cr_row. f_equal. exact IH.
  - intros Hin. apply elem_of_app in Hin as [Hin|Hin]; [exact (Hr Hin)|].
    apply list_elem_of_In in Hin as [Hin|[]]. discriminate Hin.
Qed.

Lemma filter_nonempty rows :
  Forall (fun row : list Z => row <> []) rows ->
  List.filter (fun line => negb (bool_decide (line = []))) rows = rows.
Proof.
  induction 1 as [|row rows Hr _ IH]; [reflexivity|]. cbn. rewrite bool_decide_eq_false_2 by exact Hr.
  cbn. rewrite IH. reflexivity.
Qed.

(** What can be a row of a file. *)
Definition row_ok (row : list Z) : Prop := row <> [] /\ newline ∉ row.

Section Rows.
Context {T : Type} (from_str : list Z -> outcome ParseError T).

Lemma load_all_ok rows entries :
  Forall2 (fun row e => from_str row = Ok e) rows entries -> load_all from_str rows = Ok entries.
Proof. induction 1 as [|row e rows es H _ IH]; [reflexivity|]. cbn. rewrite H. cbn. rewrite IH. reflexivity. Qed.

Lemma load_all_sound rows entries :
  load_all from_str rows = Ok entries -> Forall2 (fun row e => from_str row = Ok e) rows entries.
Proof.
  revert entries; induction rows as [|row rows IH]; intros entries; cbn; [intros [= <-]; constructor|].
  intros H. apply bind_ok in H as (e & He & H). apply bind_ok in H as (es & Hes & [= <-]).
  constructor; [exact He | apply IH, Hes].
Qed.

Lemma load_lines_rows rows :
  Forall row_ok rows -> load_lines from_str (file_of rows) = load_all from_str rows.
Proof.
  intros H. unfold load_lines. rewrite lines_file_of, filter_nonempty; [reflexivity| |];
    (eapply Forall_impl; [exact H | intros r [? ?]; assumption]).
Qed.

(** A file is loaded exactly when every row of it parses, and then holds the
    entries in the order of the rows; otherwise the error is the one of the
    first row that does not parse, whatever follows it. *)
Theorem load_lines_decides (rows : list (list Z)) (Hrows : Forall row_ok rows) :
  match load_lines from_str (file_of rows) with
  | Ok entries => Forall2 (fun row e => from_str row = Ok e) rows entries
  | Err err => exists before row after entries, rows = before ++ row :: after
      /\ Forall2 (fun row e => from_str row = Ok e) before entries /\ from_str row = Err err
  | Panic => exists before row after entries, rows = before ++ row :: after
      /\ Forall2 (fun row e => from_str row = Ok e) before entries /\ from_str row = Panic
  end.
Proof.
  rewrite load_lines_rows by exact Hrows. clear Hrows. induction rows as [|row rows IH]; [constructor|].
  cbn [load_all]. destruct (from_str row) as [e|err|] eqn:E.
  - cbn [mbind outcome_bind].
    destruct (load_all from_str rows) as [es|err|]; [constructor; assumption| |];
      destruct IH as (b & r & a & l & -> & H & Hr); exists (row :: b), r, a, (e :: l); repeat split; auto.
  - exists [], row, rows, []. auto.
  - exists [], row, rows, []. auto.
Qed.

End Rows.

Lemma load_lines_decides_witness :
  let rows := [chars "1" ++ tab :: chars "10" ++ tab :: chars "20"; chars "x"; chars "2"] in
  Forall row_ok rows /\
  match load_lines gold_from_str (file_of rows) with
  | Ok entries => Forall2 (fun row e => gold_from_str row = Ok e) rows entries
  | Err err => exists before row after entries, rows = before ++ row :: after
      /\ Forall2 (fun row e => gold_from_str row = Ok e) before entries /\ gold_from_str row = Err err
  | Panic => exists before row after entries, rows = before ++ row :: after
      /\ Forall2 (fun row e => gold_from_str row = Ok e) before entries /\ gold_from_str row = Panic
  end.
Proof.
  intros rows. assert (H : Forall row_ok rows).
  { repeat (constructor; [split; [discriminate | intros Hn; apply list_elem_of_In in Hn; vm_compute in Hn; repeat destruct Hn as [Hn|Hn]; try discriminate Hn; exact Hn]|]).
    constructor. }
  split; [exact H | exact (load_lines_decides gold_from_str rows H)].
Defined.

(** ** Maps of entries *)

Section Maps.
Context {T : Type} (from_str : list Z -> outcome ParseError T).
Context (open_file : list Z -> option (list Z)) (decode : list Z -> list Z).

Definition name_ok (name : list Z) : Prop :=
  name <> [] /\ (newline ∉ name) /\ (carriage_return ∉ name).

Lemma split_crlf_name name rest :
  carriage_return ∉ name ->
  split_crlf (name ++ carriage_return :: newline :: rest) = name :: split_crlf rest.
Proof.
  induction name as [|c name IH]; intros Hn; [reflexivity|].
  apply not_elem_of_cons in Hn as [Hc Hn]. cbn [app split_crlf].
  rewrite (proj2 (Z.eqb_neq c carriage_return)) by congruence. cbn [andb].
  destruct (name ++ carriage_return :: newline :: rest) eqn:E; [destruct name; discriminate|].
  rewrite <- E in *. rewrite (IH Hn). reflexivity.
Qed.

(** The list of files ends with an empty name, which is skipped. *)
Lemma split_crlf_file_of names :
  Forall name_ok names -> split_crlf (file_of names) = names ++ [[]].
Proof.
  induction 1 as [|name names (_ & _ & Hn) _ IH]; [reflexivity|]. unfold file_of. cbn [map concat].
  rewrite <- app_assoc. cbn [app]. rewrite split_crlf_name by exact Hn.
  unfold file_of in IH. rewrite IH. reflexivity.
Qed.

(** A map of entries holds the rows of all the files that its main file
    names, file after file in that order. *)
Theorem data_map_loads (main_file : list Z) (main : list Z) (files : list (list Z * list (list Z) * list T))
    (Hmain : open_file main_file = Some main)
    (Hnames : decode main = file_of (map (fun f => f.1.1) files))
    (Hok : Forall (fun f => name_ok f.1.1) files)
    (Hfiles : Forall (fun f => exists bytes, open_file (textdata f.1.1) = Some bytes
       /\ decode bytes = file_of f.1.2 /\ Forall row_ok f.1.2
       /\ Forall2 (fun row e => from_str row = Ok e) f.1.2 f.2) files) :
  data_map_from open_file decode from_str main_file = Ok (concat (map snd files)).
Proof.
  unfold data_map_from, list_files. rewrite Hmain, Hnames, split_crlf_file_of.
  2:{ apply Forall_map. exact Hok. }
  rewrite List.filter_app, filter_nonempty.
  2:{ apply Forall_map. eapply Forall_impl; [exact Hok|]. intros f [? _]. assumption. }
  cbn [List.filter app]. rewrite app_nil_r.
  assert (H : load_each open_file decode from_str (map (fun f => f.1.1) files) = Ok (map snd files)).
  { clear Hnames Hmain Hok. induction Hfiles as [|f files (bytes & Ho & Hd & Hr & Hp) _ IH]; [reflexivity|].
    cbn [map load_each]. unfold load_one, parse_file. rewrite Ho, Hd, load_lines_rows, (load_all_ok _ _ _ Hp) by exact Hr.
    cbn [map_err mbind outcome_bind]. rewrite IH. reflexivity. }
  rewrite H. reflexivity.
Qed.

End Maps.

Section Entries.
Context {T : Type} `{DataEntry T}.

Lemma find_id_some (items : list T) id e : find_id items id = Some e -> e ∈ items /\ ref_id e = id.
Proof. intros E. apply List.find_some in E as [Hin Hid]. split; [apply list_elem_of_In, Hin | apply Z.eqb_eq, Hid]. Qed.

(** Looking an entry up gives the first with the id; if no two entries share
    an id, every entry is found under its own. *)
Theorem find_id_decides (items : list T) (id : Z) :
  match find_id items id with
  | Some e => exists before after, items = before ++ e :: after /\ ref_id e = id
      /\ Forall (fun e' => ref_id e' <> id) before
  | None => Forall (fun e => ref_id e <> id) items
  end
  /\ (NoDup (map ref_id items) -> forall e, e ∈ items -> find_id items (ref_id e) = Some e).
Proof.
  split.
  - induction items as [|e items IH]; [constructor|]. unfold find_id in *. cbn [List.find].
    destruct (Z.eqb_spec (ref_id e) id) as [He|Hne].
    + exists [], items. auto.
    + destruct (List.find _ items) as [e'|]; [|constructor; assumption].
      destruct IH as (b & a & -> & Hid & Hb). exists (e :: b), a. auto.
  - induction items as [|e items IH]; intros Hnd e' Hin; [inversion Hin|].
    cbn [map] in Hnd. apply NoDup_cons in Hnd as [Hn Hnd]. unfold find_id in *. cbn [List.find].
    apply elem_of_cons in Hin as [->|Hin]; [rewrite Z.eqb_refl; reflexivity|].
    destruct (Z.eqb_spec (ref_id e) (ref_id e')) as [E|_]; [|apply IH; assumption].
    exfalso. apply Hn. rewrite E. apply list_elem_of_In, in_map, list_elem_of_In, Hin.
Qed.

End Entries.

Lemma find_id_decides_witness :
  let items := [ {| mastery_ref_id := 257; secondary := None; mastery_id := chars "SWORD"; weapons := [2] |};
                 {| mastery_ref_id := 258; secondary := Some 1; mastery_id := chars "SPEAR"; weapons := [] |} ] in
  NoDup (map ref_id items) /\ Forall (fun e => find_id items (ref_id e) = Some e) items.
Proof.
  intros items. assert (Hnd : NoDup (map ref_id items)) by (apply (bool_decide_unpack _); vm_compute; exact Logic.I).
  split; [exact Hnd|]. apply Forall_forall. intros e He. exact (proj2 (find_id_decides items 0) Hnd e He).
Defined.

(** ** Columns *)

Lemma text_some cols i s : text cols i = Ok s -> cols !! i = Some s.
Proof. unfold text, column. destruct (cols !! i); [intros [= ->]; reflexivity | discriminate]. Qed.

Lemma int_U w cols i z :
  0 <= w -> fits w z = true -> cols !! i = Some (decimal z) -> int (U w) cols i = Ok z.
Proof.
  intros Hw Hz Hi. unfold int, text, column, to_int. rewrite Hi. cbn [ok_or mbind outcome_bind].
  apply fits_spec in Hz. rewrite parse_decimal; [reflexivity| |]; unfold U, in_type; cbn; lia.
Qed.

Lemma int_I w cols i z :
  0 < w -> sfits w z = true -> cols !! i = Some (decimal z) -> int (I w) cols i = Ok z.
Proof.
  intros Hw Hz Hi. unfold int, text, column, to_int. rewrite Hi. cbn [ok_or mbind outcome_bind].
  apply sfits_spec in Hz. rewrite parse_decimal; [reflexivity| |]; unfold I, in_type; cbn; lia.
Qed.

Lemma enum_column {A} `{PrimEnumLaws A} name (a : A) :
  enum_from_str try_from name (decimal (into a)) = Ok a.
Proof.
  unfold enum_from_str, to_int. pose proof (into_u8 a) as Ha. apply fits_spec in Ha.
  rewrite parse_decimal by (unfold U, in_type; cbn; lia). cbn [map_err mbind outcome_bind].
  rewrite try_from_into. reflexivity.
Qed.

Lemma read_text cols i s : cols !! i = Some s -> text cols i = Ok s.
Proof. intros H. unfold text, column. rewrite H. reflexivity. Qed.

Lemma read_enum {A} `{PrimEnumLaws A} name cols i (a : A) :
  cols !! i = Some (decimal (into a)) -> (s ← text cols i; enum_from_str try_from name s) = Ok a.
Proof. intros Hi. rewrite (read_text _ _ _ Hi), ok_bind. apply enum_column. Qed.

Lemma to_int_in t s z : int_min t <= 0 <= int_max t -> to_int t s = Ok z -> in_type t z = true.
Proof. intros Ht H. apply map_err_ok in H. exact (parse_int_in t s z Ht H). Qed.

Lemma int_in t cols i z : int_min t <= 0 <= int_max t -> int t cols i = Ok z -> in_type t z = true.
Proof. intros Ht H. apply bind_ok in H as (s & _ & H). exact (to_int_in t s z Ht H). Qed.

Lemma in_type_U w z : in_type (U w) z = true <-> fits w z = true.
Proof. unfold in_type, U, fits. cbn [int_min int_max]. rewrite !andb_true_iff, Z.leb_le, Z.leb_le, Z.ltb_lt. lia. Qed.

Lemma in_type_I w z : in_type (I w) z = true <-> sfits w z = true.
Proof. unfold in_type, I, sfits. cbn [int_min int_max]. rewrite !andb_true_iff, Z.leb_le, Z.leb_le, Z.ltb_lt. lia. Qed.

(** Takes a successful row apart into the columns that were read. *)
Ltac row_parts H :=
  repeat match type of H with
  | _ ≫= _ = Ok _ => let E := fresh "E" in apply bind_ok in H as (? & E & H)
  end;
  injection H as <-.

(** The range of every number that was read. *)
Ltac column_ranges :=
  repeat match goal with
  | E : int ?t _ _ = Ok _ |- _ => apply (int_in t) in E; [|cbn; lia]
  | E : (_ ≫= to_int ?t) = Ok _ |- _ => apply bind_ok in E as (? & _ & E); apply (to_int_in t) in E; [|cbn; lia]
  | E : in_type (U _) _ = true |- _ => apply in_type_U in E
  | E : in_type (I _) _ = true |- _ => apply in_type_I in E
  end.

Definition optional_ok (w : Z) (o : option Z) : bool :=
  match o with Some z => fits w z && negb (z =? 0) | None => true end.

Lemma non_zero_ok w z : fits w z = true -> optional_ok w (non_zero z) = true.
Proof. intros Hz. unfold non_zero. destruct (z =? 0) eqn:E; [reflexivity|]. cbn. rewrite Hz, E. reflexivity. Qed.

Definition common_ok (c : RefCommon) : bool :=
  fits 32 c.(common_ref_id) && type_id_ok c.(type_id) && fits 64 c.(despawn_time).

Lemma from_columns_typed elements c : from_columns elements = Ok c -> common_ok c = true.
Proof.
  unfold from_columns. intros H. row_parts H. column_ranges.
  unfold common_ok, type_id_ok. cbn. rewrite !andb_true_iff. auto 10.
Qed.

Lemma skills_of_typed elements l : forall skills,
  skills_of elements l = Ok skills ->
  Forall (fun s => fits 32 s = true /\ s <> 0) skills /\ (length skills <= length l)%nat.
Proof.
  induction l as [|i l IH]; intros skills; cbn [skills_of]; [intros [= <-]; split; [constructor|cbn; lia]|].
  intros H. row_parts H. column_ranges. destruct (IH _ E0) as [Hf Hl].
  destruct (Z.eqb_spec x 0); cbn [length]; split; auto; lia.
Qed.

(** What is read of the rows of items, characters, levels and amounts of
    gold is in the range of its field: optional numbers are not zero, a
    character has at most ten skills, and none of them is zero. *)
Theorem rows_typed :
  (forall s r, item_from_str s = Ok r ->
     common_ok r.(item_common) = true /\ fits 64 r.(price) = true /\ fits 16 r.(max_stack_size) = true
     /\ optional_ok 16 r.(range) = true /\ optional_ok 8 r.(required_level) = true
     /\ length r.(params) = 4%nat /\ Forall (fun p => sfits 64 p = true) r.(params))
  /\ (forall s r, character_from_str s = Ok r ->
     common_ok r.(character_common) = true /\ fits 8 r.(level) = true /\ fits 32 r.(hp) = true
     /\ fits 32 r.(exp) = true /\ optional_ok 16 r.(pickup_range) = true
     /\ Forall (fun s => fits 32 s = true /\ s <> 0) r.(skills) /\ (length r.(skills) <= 10)%nat)
  /\ (forall s r, level_from_str s = Ok r ->
     fits 8 r.(level_level) = true /\ fits 64 r.(level_exp) = true /\ fits 32 r.(exp_mastery) = true)
  /\ (forall s r, gold_from_str s = Ok r ->
     fits 8 r.(gold_level) = true /\ fits 32 r.(min) = true /\ fits 32 r.(max) = true).
Proof.
  split; [|split; [|split]]; intros s r H.
  - unfold item_from_str in H. row_parts H. apply from_columns_typed in E. column_ranges. cbn.
    repeat split; auto using non_zero_ok.
  - unfold character_from_str in H. row_parts H. apply from_columns_typed in E.
    apply skills_of_typed in E3 as [Hf Hl]. rewrite length_seq in Hl. column_ranges. cbn.
    repeat split; auto using non_zero_ok.
  - unfold level_from_str in H. row_parts H. column_ranges. auto.
  - unfold gold_from_str in H. row_parts H. column_ranges. auto.
Qed.

(** ** Rows of levels *)

Definition level_row (r : RefLevel) (unread1 unread2 : list Z) : list Z :=
  join tab [ decimal r.(level_level); decimal r.(level_exp); decimal r.(exp_mastery); unread1; unread2;
             decimal r.(mob_exp); decimal r.(job_exp_trader); decimal r.(job_exp_thief);
             decimal r.(job_exp_hunter); decimal r.(pet_exp); decimal r.(pet_stored_sp) ].

Definition level_ok (r : RefLevel) : bool :=
  fits 8 r.(level_level) && fits 64 r.(level_exp) && fits 32 r.(exp_mastery) && fits 64 r.(mob_exp)
  && sfits 64 r.(job_exp_trader) && sfits 64 r.(job_exp_thief) && sfits 64 r.(job_exp_hunter)
  && fits 64 r.(pet_exp) && fits 32 r.(pet_stored_sp).

(** A row of the level table is read as the level it was written from. *)
Theorem level_row_round_trip (r : RefLevel) (u1 u2 : list Z)
    (Hr : level_ok r = true) (H1 : tab ∉ u1) (H2 : tab ∉ u2) :
  level_from_str (level_row r u1 u2) = Ok r.
Proof.
  unfold level_ok in Hr. split_andb. unfold level_from_str, level_row.
  rewrite split_join; [|discriminate|repeat (apply Forall_cons; split; [auto using decimal_no_tab|]); constructor].
  rewrite (int_U 8 _ 0 (level_level r)), ok_bind by (auto; lia).
  rewrite (int_U 64 _ 1 (level_exp r)), ok_bind by (auto; lia).
  rewrite (int_U 32 _ 2 (exp_mastery r)), ok_bind by (auto; lia).
  unfold column. cbn [lookup list_lookup ok_or]. rewrite !ok_bind. unfold to_int.
  rewrite !(parse_decimal (U _)), !(parse_decimal (I _)) by
    first [apply in_type_U; assumption | apply in_type_I; assumption | cbn; lia].
  destruct r. reflexivity.
Qed.

Lemma level_row_round_trip_witness :
  let r := {| level_level := 2; level_exp := 400; exp_mastery := 1; mob_exp := 10; job_exp_trader := -1;
              job_exp_thief := 0; job_exp_hunter := 5; pet_exp := 7; pet_stored_sp := 9 |} in
  level_from_str (level_row r (chars "x") []) = Ok r.
Proof.
  intros r. apply level_row_round_trip; [vm_compute; reflexivity| |]; intros Hn;
    apply list_elem_of_In in Hn; [destruct Hn as [Hn|[]]; discriminate Hn | destruct Hn].
Defined.

(** The number of a missing column is reported for the columns that are read by
    their own number, and another one for six columns of a level and two of a
    character. *)
Theorem missing_columns_reported (elements : list (list Z)) :
  (forall t i, elements !! i = None -> int t elements i = Err (MissingColumn (Z.of_nat i)))
  /\ level_from_str (join tab (repeat (chars "1") 5)) = Err (MissingColumn 3)
  /\ level_from_str (join tab (repeat (chars "1") 10)) = Err (MissingColumn 8)
  /\ character_from_str (join tab (repeat (chars "1") 15)) = Err (MissingColumn 16)
  /\ character_from_str (join tab (repeat (chars "1") 93)) = Err (MissingColumn 94).
Proof.
  split; [|vm_compute; auto]. intros t i Hi. unfold int, text, column. rewrite Hi. reflexivity.
Qed.
