(* ===== verification/SkillData.v ===== *)
(** silkroad-data/src/skilldata.rs: the skills of the game and the list of
    parameters in the last columns of their rows.

    A parameter is a four-letter code followed by its numbers; a zero ends the
    list. An index out of range and [unwrap] on nothing are panics. *)
From stdpp Require Import base list option strings.
From Stdlib Require Import ZArith Lia.
From S2P Require Import Prelude Utf Text Definitions TypeIdEnums TypeId GameData.

(** ** Parameters *)

Record MonsterSummon := { summon_ref_id : Z; summon_rarity : Z; summon_min : Z; summon_max : Z }.

(** [PanicDebuff] is the variant [Panic] of the source. *)
Inductive SkillParam :=
| Attack (kind phys min max mag : Z)
| Chain (count unknown : Z)
| GetValue (value : list Z)
| SetValue (var : list Z) (value value_2 : Z)
| Duration (value : Z)
| RequiredItem (value : ObjectEquippable)
| IncreaseDefense (phys mag unknown : Z)
| BlockRatio (unknown percent : Z)
| Knockdown (unknown chance : Z)
| AOE (origin area_type area_size unknown_type val1 val2 : Z)
| DownAttack (value : Z)
| RequiredState (value : Z)
| Stun (duration chance level : Z)
| Knockback (chance distance : Z)
| IncreaseHP (absolute percent : Z)
| IncreaseMP (absolute percent : Z)
| ConsumeItem (kind : ObjectConsumable) (amount : Z)
| IncreaseCrit (amount unknown : Z)
| IncreaseHitRate (attack_rate hit_rate : Z)
| SummonBird (ref_id unknown unknown_2 duration : Z)
| IncreaseRange (value : Z)
| Freeze (unknown chance : Z)
| Frostbite (unknown chance : Z)
| TantUnkn (unknown unknown_2 : Z)
| ConsumeMana (duration amount : Z)
| CreateWall (unknown unknown_2 empty level : Z)
| EffectLightning (unknown unknown_2 unknown_3 : Z)
| IncreaseDamage (phys mag : Z)
| IncreaseSpeed (value : Z)
| Teleport (duration distance : Z)
| IncreaseEvasion (evasion parry : Z)
| Burn (max chance min : Z)
| ReduceNegativeEffects (kind amount empty : Z)
| Real (buff_interference chance level : Z)
| Heal (hp_abs hp_percentage mp_abs mp_percentage : Z)
| Invisible (kind level unknown : Z)
| IncreaseExperience (exp_percentage sp_percentage : Z)
| ItemBuff
| Interval (value : Z)
| Resurrect (max_level experience_restore : Z)
| PSOG (value : Z)
| NBUF
| Debuff
| IncreaseTaunt (taunt_value aggro_percent : Z)
| SummonMonster (value : list MonsterSummon)
| DullDebuff (duration chance level : Z)
| FearDebuff (duration chance level : Z)
| BleedDebuff (duration chance level damage unknown : Z)
| Restrain (duration chance level : Z)
| IncreaseBerserk (value : Z)
| ShortSight (duration chance level distance : Z)
| Poison (unknown chance damage : Z)
| Linked (level : Z) (distance : option Z) (max_links : Z) (damage_share : bool)
| ATCA (unknown unknown_2 : Z)
| MaxLinks
| PetBuff (attribute : list Z) (unknown unknown_2 unknown_3 : Z)
| Impotent (duration chance level unknown : Z)
| Darkness (duration chance level unknown : Z)
| DecreaseMagicalDefense (duration chance level value : Z)
| DecreasePhysicalDefense (duration chance level value : Z)
| AbsorbDamage (level percent : Z)
| Disease (duration chance level unknown : Z)
| Division (duration chance level unknown : Z)
| PanicDebuff (duration chance level min max unknown : Z)
| MWHH (value : Z)
| IncreaseAttackPower (physical magical : Z)
| IncreaseInt (amount unknown : Z)
| IncreaseStr (amount unknown : Z)
| DefaultAttack (value : Z)
| VIPBuff
| Sleep (duration chance level : Z).

(** [split_at(n)] panics on a shorter slice. *)
Definition split_at {E} (n : nat) (data : list Z) : outcome E (list Z * list Z) :=
  match take_exact n data with Some r => Ok r | None => Panic end.
Definition arg (i : nat) (param_data : list Z) : Z := nth i param_data 0.
Arguments arg i%_nat_scope param_data.
Definition unwrap {E A} (o : option A) : outcome E A := match o with Some a => Ok a | None => Panic end.

(** [String::from_utf8(z.to_be_bytes().into_iter().filter(|c| *c != 0).collect()).unwrap()] *)
Definition to_be_bytes (z : Z) : list Z := rev (le_bytes 4 z).
Definition ascii_code {E} (z : Z) : outcome E (list Z) :=
  unwrap (from_utf8 (List.filter (fun c => negb (c =? 0)) (to_be_bytes z))).

(** The arms that read [n] numbers. *)
Definition fixed (n : nat) (f : list Z -> SkillParam) (data : list Z)
    : outcome ParseError (list Z * SkillParam) :=
  '(p, remaining) ← split_at n data; Ok (remaining, f p).

(** The loop of the summoned monsters; [first]: nothing was read yet. *)
Fixpoint parse_summons (first : bool) (remaining : list Z)
    : outcome ParseError (list Z * list MonsterSummon) :=
  match remaining with
  | [] => Panic
  | id :: tail =>
      if negb (id =? 0) || first then
        match tail with
        | rarity :: min :: max :: next =>
            '(remaining, summons) ← parse_summons false next;
            Ok (remaining, {| summon_ref_id := id; summon_rarity := u8 rarity;
                              summon_min := u8 min; summon_max := u8 max |} :: summons)
        | _ => Panic
        end
      else Ok (tail, [])
  end.

Definition param_arm : Type := list Z -> outcome ParseError (list Z * SkillParam).

(** The arms of the match on the code: attacks, values, required items. *)
Definition arms_att : list (string * param_arm) :=
  [ ("att"%string, fixed 5 (fun p => Attack (arg 0 p) (arg 1 p) (arg 2 p) (arg 3 p) (arg 4 p)));
    ("mc"%string, fixed 2 (fun p => Chain (arg 0 p) (arg 1 p)));
    ("getv"%string, fun data =>
      '(p, remaining) ← split_at 1 data; var ← ascii_code (arg 0 p); Ok (remaining, GetValue var));
    ("setv"%string, fun data =>
      '(p, remaining) ← split_at 3 data;
      var ← ascii_code (arg 0 p);
      let result := SetValue var (arg 1 p) (arg 2 p) in
      Ok (match remaining with
          | z :: rest => if z =? 0 then (rest, result) else (remaining, result)
          | [] => (remaining, result)
          end));
    ("dura"%string, fixed 1 (fun p => Duration (arg 0 p)));
    ("reqi"%string, fun data =>
      '(p, remaining) ← split_at 2 data;
      kind ← unwrap (equippable_from_type_value (u8 (arg 0 p)) (u8 (arg 1 p)));
      Ok (remaining, RequiredItem kind));
    ("defp"%string, fixed 3 (fun p => IncreaseDefense (arg 0 p) (arg 1 p) (arg 2 p))) ].

(** The arms of the match on the code: blocking to knocking back. *)
Definition arms_br : list (string * param_arm) :=
  [ ("br"%string, fixed 2 (fun p => BlockRatio (u8 (arg 0 p)) (u8 (arg 1 p))));
    ("ko"%string, fixed 2 (fun p => Knockdown (u8 (arg 0 p)) (u8 (arg 1 p))));
    ("efr"%string, fixed 6 (fun p => AOE (u8 (arg 0 p)) (u8 (arg 1 p)) (u16 (arg 2 p)) (u8 (arg 3 p)) (arg 4 p) (arg 5 p)));
    ("da"%string, fixed 1 (fun p => DownAttack (u16 (arg 0 p))));
    ("reqc"%string, fixed 1 (fun p => RequiredState (u8 (arg 0 p))));
    ("st"%string, fixed 3 (fun p => Stun (arg 0 p) (u8 (arg 1 p)) (u8 (arg 2 p))));
    ("kb"%string, fixed 2 (fun p => Knockback (u8 (arg 0 p)) (u16 (arg 1 p)))) ].

(** The arms of the match on the code: health, mana, consumed items, range. *)
Definition arms_hpi : list (string * param_arm) :=
  [ ("hpi"%string, fixed 2 (fun p => IncreaseHP (arg 0 p) (u8 (arg 1 p))));
    ("mpi"%string, fixed 2 (fun p => IncreaseMP (arg 0 p) (u8 (arg 1 p))));
    ("cnsm"%string, fun data =>
      '(p, remaining) ← split_at 3 data;
      kind ← unwrap (consumable_from_type_value (u8 (arg 0 p)) (u8 (arg 1 p)));
      Ok (remaining, ConsumeItem kind (u8 (arg 2 p))));
    ("cr"%string, fixed 2 (fun p => IncreaseCrit (u8 (arg 0 p)) (u8 (arg 1 p))));
    ("hr"%string, fixed 2 (fun p => IncreaseHitRate (u8 (arg 0 p)) (u8 (arg 1 p))));
    ("summ"%string, fixed 4 (fun p => SummonBird (arg 0 p) (u8 (arg 1 p)) (u16 (arg 2 p)) (u16 (arg 3 p))));
    ("ru"%string, fixed 1 (fun p => IncreaseRange (u16 (arg 0 p)))) ].

(** The arms of the match on the code: cold, walls, lightning, damage. *)
Definition arms_fz : list (string * param_arm) :=
  [ ("fz"%string, fixed 2 (fun p => Freeze (u16 (arg 0 p)) (u8 (arg 1 p))));
    ("fb"%string, fixed 2 (fun p => Frostbite (u16 (arg 0 p)) (u8 (arg 1 p))));
    ("tant"%string, fixed 2 (fun p => TantUnkn (arg 0 p) (arg 1 p)));
    ("onff"%string, fixed 2 (fun p => ConsumeMana (arg 0 p) (arg 1 p)));
    ("pw"%string, fixed 4 (fun p => CreateWall (u8 (arg 0 p)) (arg 1 p) (u8 (arg 2 p)) (u8 (arg 3 p))));
    ("es"%string, fixed 3 (fun p => EffectLightning (u16 (arg 0 p)) (u8 (arg 1 p)) (u8 (arg 2 p))));
    ("dru"%string, fixed 2 (fun p => IncreaseDamage (u8 (arg 0 p)) (u8 (arg 1 p)))) ].

(** The arms of the match on the code: speed to the lasting effects. *)
Definition arms_hste : list (string * param_arm) :=
  [ ("hste"%string, fixed 1 (fun p => IncreaseSpeed (u8 (arg 0 p))));
    ("tele"%string, fixed 2 (fun p => Teleport (arg 0 p) (u16 (arg 1 p))));
    ("er"%string, fixed 2 (fun p => IncreaseEvasion (u8 (arg 0 p)) (u8 (arg 1 p))));
    ("bu"%string, fixed 3 (fun p => Burn (arg 0 p) (u8 (arg 1 p)) (arg 2 p)));
    ("bgra"%string, fixed 3 (fun p => ReduceNegativeEffects (u8 (arg 0 p)) (u8 (arg 1 p)) (u8 (arg 2 p))));
    ("real"%string, fixed 3 (fun p => Real (arg 0 p) (u8 (arg 1 p)) (u8 (arg 2 p)))) ].

(** The arms of the match on the code: healing, hiding, buffs without arguments. *)
Definition arms_heal : list (string * param_arm) :=
  [ ("heal"%string, fixed 4 (fun p => Heal (arg 0 p) (u8 (arg 1 p)) (arg 2 p) (u8 (arg 3 p))));
    ("hide"%string, fixed 3 (fun p => Invisible (u8 (arg 0 p)) (u8 (arg 1 p)) (u8 (arg 2 p))));
    ("expu"%string, fixed 2 (fun p => IncreaseExperience (u16 (arg 0 p)) (u16 (arg 1 p))));
    ("cbuf"%string, fun data => Ok (data, ItemBuff));
    ("nbuf"%string, fun data => Ok (data, NBUF));
    ("bbuf"%string, fun data => Ok (data, Debuff));
    ("lks2"%string, fun data => Ok (data, MaxLinks)) ].

(** The arms of the match on the code: intervals to restraint. *)
Definition arms_puls : list (string * param_arm) :=
  [ ("puls"%string, fixed 1 (fun p => Interval (arg 0 p)));
    ("resu"%string, fixed 2 (fun p => Resurrect (u8 (arg 0 p)) (u8 (arg 1 p))));
    ("psog"%string, fixed 1 (fun p => PSOG (u8 (arg 0 p))));
    ("tnt2"%string, fixed 2 (fun p => IncreaseTaunt (arg 0 p) (u8 (arg 1 p))));
    ("ssou"%string, fun data =>
      '(remaining, summons) ← parse_summons true data; Ok (remaining, SummonMonster summons));
    ("sl"%string, fixed 3 (fun p => DullDebuff (arg 0 p) (u8 (arg 1 p)) (u8 (arg 2 p))));
    ("bl"%string, fixed 5 (fun p => BleedDebuff (arg 0 p) (u8 (arg 1 p)) (u8 (arg 2 p)) (arg 3 p) (u8 (arg 4 p))));
    ("rt"%string, fixed 3 (fun p => Restrain (arg 0 p) (u8 (arg 1 p)) (u8 (arg 2 p))));
    ("hwdu"%string, fixed 1 (fun p => IncreaseBerserk (u8 (arg 0 p))));
    ("my"%string, fixed 4 (fun p => ShortSight (arg 0 p) (u8 (arg 1 p)) (u8 (arg 2 p)) (u16 (arg 3 p))));
    ("ps"%string, fixed 3 (fun p => Poison (u16 (arg 0 p)) (u8 (arg 1 p)) (arg 2 p))) ].

(** The arms of the match on the code: links to fear. *)
Definition arms_lnks : list (string * param_arm) :=
  [ ("lnks"%string, fixed 4 (fun p => Linked (u8 (arg 0 p)) (non_zero (arg 1 p)) (u8 (arg 2 p)) (arg 3 p =? 1)));
    ("atca"%string, fixed 2 (fun p => ATCA (u16 (arg 0 p)) (u8 (arg 1 p))));
    ("pet2"%string, fun data =>
      '(p, remaining) ← split_at 4 data;
      var ← ascii_code (arg 0 p);
      Ok (remaining, PetBuff var (u8 (arg 1 p)) (u8 (arg 2 p)) (u8 (arg 3 p))));
    ("cssr"%string, fixed 4 (fun p => Impotent (arg 0 p) (u8 (arg 1 p)) (u8 (arg 2 p)) (u8 (arg 3 p))));
    ("dn"%string, fixed 4 (fun p => Darkness (arg 0 p) (u8 (arg 1 p)) (u8 (arg 2 p)) (u8 (arg 3 p))));
    ("fe"%string, fixed 3 (fun p => FearDebuff (arg 0 p) (u8 (arg 1 p)) (u8 (arg 2 p))));
    ("csmd"%string, fixed 4 (fun p => DecreaseMagicalDefense (arg 0 p) (u8 (arg 1 p)) (u8 (arg 2 p)) (u16 (arg 3 p)))) ].

(** The arms of the match on the code: defense to the attack power. *)
Definition arms_cspd : list (string * param_arm) :=
  [ ("cspd"%string, fixed 4 (fun p => DecreasePhysicalDefense (arg 0 p) (u8 (arg 1 p)) (u8 (arg 2 p)) (u16 (arg 3 p))));
    ("odar"%string, fixed 2 (fun p => AbsorbDamage (u8 (arg 0 p)) (u8 (arg 1 p))));
    ("ds"%string, fixed 4 (fun p => Disease (arg 0 p) (u8 (arg 1 p)) (u8 (arg 2 p)) (u8 (arg 3 p))));
    ("cshp"%string, fixed 6 (fun p => PanicDebuff (arg 0 p) (u8 (arg 1 p)) (u8 (arg 2 p)) (u8 (arg 3 p)) (u8 (arg 3 p)) (u8 (arg 3 p))));
    ("mwhh"%string, fixed 1 (fun p => MWHH (u16 (arg 0 p))));
    ("apau"%string, fixed 2 (fun p => IncreaseAttackPower (u16 (arg 0 p)) (u16 (arg 1 p)))) ].

(** The arms of the match on the code: division and the rest. *)
Definition arms_csit : list (string * param_arm) :=
  [ ("csit"%string, fixed 4 (fun p => Division (arg 0 p) (u8 (arg 1 p)) (u8 (arg 2 p)) (u8 (arg 3 p))));
    ("inti"%string, fixed 2 (fun p => IncreaseInt (u8 (arg 0 p)) (u8 (arg 1 p))));
    ("stri"%string, fixed 2 (fun p => IncreaseStr (u8 (arg 0 p)) (u8 (arg 1 p))));
    ("ck"%string, fixed 1 (fun p => DefaultAttack (u8 (arg 0 p))));
    ("vbuf"%string, fun data => Ok (data, VIPBuff));
    ("se"%string, fixed 3 (fun p => Sleep (arg 0 p) (u8 (arg 1 p)) (u8 (arg 2 p)))) ].

Definition param_table : list (string * param_arm) :=
  arms_att ++ arms_br ++ arms_hpi ++ arms_fz ++ arms_hste
  ++ arms_heal ++ arms_puls ++ arms_lnks ++ arms_cspd ++ arms_csit.

Definition find_param (kind : list Z) : option param_arm :=
  snd <$> List.find (fun '(name, _) => bool_decide (kind = chars name)) param_table.

(** [Ok None]: nothing more, or an unknown code. *)
Definition parse_param (params : list Z) : outcome ParseError (option (list Z * SkillParam)) :=
  match params with
  | [] => Ok None
  | first :: data =>
      if first =? 0 then Ok None
      else
        kind ← ascii_code first;
        match find_param kind with
        | Some arm => r ← arm data; Ok (Some r)
        | None => Ok None
        end
  end.

(** The [while let] over the remaining columns; [None]: more than [fuel] rounds. *)
Fixpoint params_loop (fuel : nat) (remaining : list Z) : option (outcome ParseError (list SkillParam)) :=
  match fuel with
  | O => None
  | S fuel =>
      match parse_param remaining with
      | Ok (Some (next, param)) =>
          (fun r : outcome ParseError (list SkillParam) => cons param <$> r) <$> params_loop fuel next
      | Ok None => Some (Ok [])
      | Err e => Some (Err e)
      | Panic => Some Panic
      end
  end.

(** As many rounds as columns are enough ([params_loop_ends]). *)
Definition skill_params (columns : list Z) : outcome ParseError (list SkillParam) :=
  default Panic (params_loop (S (length columns)) columns).

(** ** Rows *)

Definition NONE : Z := 0.
Definition SELF : Z := 0x01.
Definition ALLY : Z := 0x02.
Definition PARTY : Z := 0x04.
Definition ENEMY_MONSTER : Z := 0x08.
Definition ENEMY_PLAYER : Z := 0x10.
Definition NETRAL : Z := 0x20.
Definition ANY : Z := 0x40.
Definition DEAD : Z := 0x80.

Inductive SkillType := Passive | Imbue | ActionSkill.
#[export] Instance SkillType_prim : PrimEnum SkillType := {
  into e := match e with Passive => 0 | Imbue => 1 | ActionSkill => 2 end;
  all_variants := [Passive; Imbue; ActionSkill]
}.
Inductive AutoAttack := NoAutoAttack | YesAutoAttack | RangeAutoAttack.
#[export] Instance AutoAttack_prim : PrimEnum AutoAttack := {
  into e := match e with NoAutoAttack => 0 | YesAutoAttack => 1 | RangeAutoAttack => 2 end;
  all_variants := [NoAutoAttack; YesAutoAttack; RangeAutoAttack]
}.
#[export] Instance SkillType_prim_laws : PrimEnumLaws SkillType.
Proof. solve_prim_enum. Qed.
#[export] Instance AutoAttack_prim_laws : PrimEnumLaws AutoAttack.
Proof. solve_prim_enum. Qed.

Definition skill_type_from_str : list Z -> outcome ParseError SkillType := enum_from_str try_from "SkillType".
Definition auto_attack_from_str : list Z -> outcome ParseError AutoAttack := enum_from_str try_from "AutoAttack".

Record LearnedSkill := { learned_group : Z; learned_level : Z }.

Record SkillTimings := {
  preparation_time : Z;
  cast_time : Z;
  duration : Z;
  cooldown : Z;
  next_delay : Z;
}.

Record RefSkillData := {
  skill_ref_id : Z;
  group : Z;
  skill_id : list Z;
  original : option Z;
  skill_level : Z;
  skill_type : SkillType;
  next_in_chain : option Z;
  timings : SkillTimings;
  projectile_speed : Z;
  buff_interference : Z;
  auto_attack : AutoAttack;
  skill_range : Z;
  requires_target : bool;
  target : Z;
  mastery : option Z;
  mastery_level : option Z;
  required_skills : list LearnedSkill;
  sp : Z;
  race : Z;
  weapon_requirements : option ObjectWeaponType * option ObjectWeaponType;
  consumed_hp : Z;
  consumed_mp : Z;
  usage_chance : Z;
  usage_type : Z;
  skill_params_of : list SkillParam;
}.

#[export] Instance RefSkillData_entry : DataEntry RefSkillData := {
  ref_id r := r.(skill_ref_id); code r := r.(skill_id)
}.

(** [if v != 0 { options |= flag }] *)
Definition with_flag (options : Z) (v flag : Z) : Z := if v =? 0 then options else Z.lor options flag.

(** The columns from the 69th; [unwrap] on every one of them. *)
Fixpoint number_columns (cols : list (list Z)) : outcome ParseError (list Z) :=
  match cols with
  | [] => Ok []
  | col :: cols =>
      match parse_int (I 32) col with
      | Ok val => rest ← number_columns cols; Ok (u32 val :: rest)
      | _ => Panic
      end
  end.

(** [elements[n..]] panics if there are fewer. *)
Definition slice_from (n : nat) (elements : list (list Z)) : outcome ParseError (list (list Z)) :=
  if (n <=? length elements)%nat then Ok (skipn n elements) else Panic.

Definition skill_from_str (s : list Z) : outcome ParseError RefSkillData :=
  let elements := split tab s in
  next ← int (U 32) elements 9;
  original ← int (U 32) elements 6;
  required_target ← int (U 8) elements 22;
  target_self ← int (U 8) elements 26;
  target_ally ← int (U 8) elements 27;
  target_party ← int (U 8) elements 28;
  target_enemy_monster ← int (U 8) elements 29;
  target_enemy_player ← int (U 8) elements 30;
  target_neutral ← int (U 8) elements 31;
  target_any ← int (U 8) elements 32;
  target_dead ← int (U 8) elements 33;
  let target_options := NONE in
  let target_options := with_flag target_options target_self SELF in
  let target_options := with_flag target_options target_ally ALLY in
  let target_options := with_flag target_options target_party PARTY in
  let target_options := with_flag target_options target_enemy_monster ENEMY_MONSTER in
  let target_options := with_flag target_options target_enemy_player ENEMY_PLAYER in
  let target_options := with_flag target_options target_neutral NETRAL in
  let target_options := with_flag target_options target_any ANY in
  let target_options := with_flag target_options target_dead DEAD in
  mastery ← int (U 16) elements 34;
  mastery_level ← int (U 8) elements 36;
  group1 ← int (U 32) elements 40;
  level1 ← int (U 8) elements 43;
  group2 ← int (U 32) elements 41;
  level2 ← int (U 8) elements 44;
  group3 ← int (U 32) elements 42;
  level3 ← int (U 8) elements 45;
  let skills := List.filter (fun skill => negb (skill.(learned_group) =? 0))
    [ {| learned_group := group1; learned_level := level1 |};
      {| learned_group := group2; learned_level := level2 |};
      {| learned_group := group3; learned_level := level3 |} ] in
  columns ← slice_from 69 elements;
  number_column ← number_columns columns;
  params ← skill_params number_column;
  first_weapon_requirement ← int (U 8) elements 50;
  second_weapon_requirement ← int (U 8) elements 51;
  buff_inference ← int (I 32) elements 18;
  ref_id ← int (U 32) elements 1;
  group ← int (U 32) elements 2;
  id ← text elements 3;
  level ← int (U 8) elements 7;
  type ← (s ← text elements 8; skill_type_from_str s);
  preparation_time ← int (U 32) elements 11;
  cast_time ← int (U 32) elements 12;
  duration ← int (I 32) elements 13;
  cooldown ← int (U 32) elements 14;
  next_delay ← int (U 32) elements 15;
  projectile_speed ← int (U 32) elements 16;
  auto_attack ← (s ← text elements 19; auto_attack_from_str s);
  range ← int (U 16) elements 21;
  sp ← int (U 32) elements 46;
  race ← int (U 8) elements 47;
  consumed_hp ← int (U 32) elements 52;
  consumed_mp ← int (U 32) elements 53;
  usage_chance ← int (U 8) elements 66;
  usage_type ← int (U 8) elements 67;
  Ok {| skill_ref_id := ref_id; group := group; skill_id := id; original := non_zero original;
        skill_level := level; skill_type := type; next_in_chain := non_zero next;
        timings := {| preparation_time := preparation_time; cast_time := cast_time;
                      duration := duration; cooldown := cooldown; next_delay := next_delay |};
        projectile_speed := projectile_speed; buff_interference := u32 buff_inference;
        auto_attack := auto_attack; skill_range := range;
        requires_target := negb (required_target =? 0); target := target_options;
        mastery := non_zero mastery; mastery_level := non_zero mastery_level;
        required_skills := skills; sp := sp; race := race;
        weapon_requirements := (try_from first_weapon_requirement, try_from second_weapon_requirement);
        consumed_hp := consumed_hp; consumed_mp := consumed_mp;
        usage_chance := usage_chance; usage_type := usage_type; skill_params_of := params |}.

Definition load_skill_map (open_file : list Z -> option (list Z)) (decode : list Z -> list Z)
    : outcome FileError (list RefSkillData) :=
  data_map_from open_file decode skill_from_str (textdata (chars "SkillData.txt")).
