(* ===== verification/SkillDataSpec.v ===== *)
(** Correctness of SkillData.v: a list of parameters and a row are read as they
    were written but for two numbers of a panic, the loop over the parameters ends, and what malformed rows do. *)
From stdpp Require Import base list option strings.
From Stdlib Require Import ZArith Lia.
From S2P Require Import Prelude Utf Text Definitions TypeIdEnums TypeId GameData GameDataSpec SkillData.

(** ** Codes *)

Definition number_of (s : list Z) : Z := le_num (rev (as_bytes s)).

Definition is_code (s : list Z) : bool :=
  is_string s && (length (as_bytes s) <=? 4)%nat && forallb (fun b => negb (b =? 0)) (as_bytes s).

Lemma le_bytes_num_pad n bs :
  bytes_ok bs = true -> (length bs <= n)%nat -> le_bytes n (le_num bs) = bs ++ repeat 0 (n - length bs).
Proof.
  revert bs; induction n as [|n IH]; intros bs Hok Hn.
  - destruct bs; [reflexivity|cbn in Hn; lia].
  - destruct bs as [|b bs].
    + cbn [le_num le_bytes length app]. rewrite Z.mod_0_l, Z.div_0_l by lia.
      specialize (IH [] eq_refl ltac:(cbn; lia)). cbn [le_num length app] in IH. rewrite IH.
      rewrite !Nat.sub_0_r. reflexivity.
    + cbn [bytes_ok forallb] in Hok. apply andb_true_iff in Hok as [Hb Hok]. apply fits_spec in Hb.
      change (2 ^ 8) with 256 in Hb. cbn [le_num le_bytes length app].
      replace ((b + 256 * le_num bs) mod 256) with b by zlia.
      replace ((b + 256 * le_num bs) / 256) with (le_num bs) by zlia.
      rewrite IH by (assumption || cbn in Hn; lia). reflexivity.
Qed.

Lemma filter_app_nonzero a b :
  List.filter (fun c => negb (c =? 0)) (a ++ b)
  = List.filter (fun c => negb (c =? 0)) a ++ List.filter (fun c => negb (c =? 0)) b.
Proof. apply List.filter_app. Qed.

Lemma filter_nonzero bs : forallb (fun b => negb (b =? 0)) bs = true -> List.filter (fun c => negb (c =? 0)) bs = bs.
Proof.
  induction bs as [|b bs IH]; [reflexivity|]. cbn. rewrite andb_true_iff. intros [-> Hb].
  rewrite IH by exact Hb. reflexivity.
Qed.

Lemma filter_zeros n : List.filter (fun c => negb (c =? 0)) (repeat 0 n) = [].
Proof. induction n; [reflexivity|exact IHn]. Qed.

Lemma bytes_ok_rev bs : bytes_ok (rev bs) = bytes_ok bs.
Proof.
  induction bs as [|b bs IH]; [reflexivity|]. cbn [rev]. rewrite bytes_ok_app, IH.
  cbn. rewrite andb_true_r. apply andb_comm.
Qed.

Lemma ascii_code_number_of {E} s : is_code s = true -> ascii_code (E := E) (number_of s) = Ok s.
Proof.
  unfold is_code. intros H. apply andb_true_iff in H as [H Hz]. apply andb_true_iff in H as [Hs Hl].
  apply Nat.leb_le in Hl. unfold ascii_code, to_be_bytes, number_of.
  rewrite le_bytes_num_pad by (rewrite ?bytes_ok_rev, ?length_rev; auto using as_bytes_ok).
  rewrite rev_app_distr, rev_involutive, filter_app_nonzero, List.rev_repeat, filter_zeros.
  rewrite filter_nonzero by exact Hz. cbn [app]. rewrite from_utf8_as_bytes by exact Hs. reflexivity.
Qed.

(** ** Writing parameters *)

Definition pair_columns (p : Z * Z) : list Z := [p.1; p.2].
Definition summon_columns (s : MonsterSummon) : list Z :=
  [s.(summon_ref_id); s.(summon_rarity); s.(summon_min); s.(summon_max)].
Definition summon_ok (s : MonsterSummon) : bool :=
  fits 8 s.(summon_rarity) && fits 8 s.(summon_min) && fits 8 s.(summon_max) && fits 32 s.(summon_ref_id).

(** Only the first monster may have the id 0. *)
Definition summons_ok (l : list MonsterSummon) : bool :=
  match l with
  | [] => false
  | s :: l => summon_ok s && forallb (fun s => summon_ok s && negb (s.(summon_ref_id) =? 0)) l
  end.

(** The columns of a parameter. *)
Definition write_param (p : SkillParam) : list Z :=
  match p with
  | Attack kind phys min max mag =>  number_of (chars "att") :: [kind; phys; min; max; mag]
  | Chain count unknown =>  number_of (chars "mc") :: [count; unknown]
  | GetValue value =>  number_of (chars "getv") :: [number_of value]
  | SetValue var value value_2 =>  number_of (chars "setv") :: [number_of var; value; value_2]
  | Duration value =>  number_of (chars "dura") :: [value]
  | RequiredItem value =>  number_of (chars "reqi") :: pair_columns (equippable_type_value value)
  | IncreaseDefense phys mag unknown =>  number_of (chars "defp") :: [phys; mag; unknown]
  | BlockRatio unknown percent =>  number_of (chars "br") :: [unknown; percent]
  | Knockdown unknown chance =>  number_of (chars "ko") :: [unknown; chance]
  | AOE origin area_type area_size unknown_type val1 val2 =>  number_of (chars "efr") :: [origin; area_type; area_size; unknown_type; val1; val2]
  | DownAttack value =>  number_of (chars "da") :: [value]
  | RequiredState value =>  number_of (chars "reqc") :: [value]
  | Stun duration chance level =>  number_of (chars "st") :: [duration; chance; level]
  | Knockback chance distance =>  number_of (chars "kb") :: [chance; distance]
  | IncreaseHP absolute percent =>  number_of (chars "hpi") :: [absolute; percent]
  | IncreaseMP absolute percent =>  number_of (chars "mpi") :: [absolute; percent]
  | ConsumeItem kind amount =>  number_of (chars "cnsm") :: pair_columns (consumable_type_value kind) ++ [amount]
  | IncreaseCrit amount unknown =>  number_of (chars "cr") :: [amount; unknown]
  | IncreaseHitRate attack_rate hit_rate =>  number_of (chars "hr") :: [attack_rate; hit_rate]
  | SummonBird ref_id unknown unknown_2 duration =>  number_of (chars "summ") :: [ref_id; unknown; unknown_2; duration]
  | IncreaseRange value =>  number_of (chars "ru") :: [value]
  | Freeze unknown chance =>  number_of (chars "fz") :: [unknown; chance]
  | Frostbite unknown chance =>  number_of (chars "fb") :: [unknown; chance]
  | TantUnkn unknown unknown_2 =>  number_of (chars "tant") :: [unknown; unknown_2]
  | ConsumeMana duration amount =>  number_of (chars "onff") :: [duration; amount]
  | CreateWall unknown unknown_2 empty level =>  number_of (chars "pw") :: [unknown; unknown_2; empty; level]
  | EffectLightning unknown unknown_2 unknown_3 =>  number_of (chars "es") :: [unknown; unknown_2; unknown_3]
  | IncreaseDamage phys mag =>  number_of (chars "dru") :: [phys; mag]
  | IncreaseSpeed value =>  number_of (chars "hste") :: [value]
  | Teleport duration distance =>  number_of (chars "tele") :: [duration; distance]
  | IncreaseEvasion evasion parry =>  number_of (chars "er") :: [evasion; parry]
  | Burn max chance min =>  number_of (chars "bu") :: [max; chance; min]
  | ReduceNegativeEffects kind amount empty =>  number_of (chars "bgra") :: [kind; amount; empty]
  | Real buff_interference chance level =>  number_of (chars "real") :: [buff_interference; chance; level]
  | Heal hp_abs hp_percentage mp_abs mp_percentage =>  number_of (chars "heal") :: [hp_abs; hp_percentage; mp_abs; mp_percentage]
  | Invisible kind level unknown =>  number_of (chars "hide") :: [kind; level; unknown]
  | IncreaseExperience exp_percentage sp_percentage =>  number_of (chars "expu") :: [exp_percentage; sp_percentage]
  | ItemBuff =>  number_of (chars "cbuf") :: []
  | Interval value =>  number_of (chars "puls") :: [value]
  | Resurrect max_level experience_restore =>  number_of (chars "resu") :: [max_level; experience_restore]
  | PSOG value =>  number_of (chars "psog") :: [value]
  | NBUF =>  number_of (chars "nbuf") :: []
  | Debuff =>  number_of (chars "bbuf") :: []
  | IncreaseTaunt taunt_value aggro_percent =>  number_of (chars "tnt2") :: [taunt_value; aggro_percent]
  | SummonMonster value =>  number_of (chars "ssou") :: concat (map summon_columns value) ++ [0]
  | DullDebuff duration chance level =>  number_of (chars "sl") :: [duration; chance; level]
  | FearDebuff duration chance level =>  number_of (chars "fe") :: [duration; chance; level]
  | BleedDebuff duration chance level damage unknown =>  number_of (chars "bl") :: [duration; chance; level; damage; unknown]
  | Restrain duration chance level =>  number_of (chars "rt") :: [duration; chance; level]
  | IncreaseBerserk value =>  number_of (chars "hwdu") :: [value]
  | ShortSight duration chance level distance =>  number_of (chars "my") :: [duration; chance; level; distance]
  | Poison unknown chance damage =>  number_of (chars "ps") :: [unknown; chance; damage]
  | Linked level distance max_links damage_share =>  number_of (chars "lnks") :: [level; default 0 distance; max_links; Z.b2z damage_share]
  | ATCA unknown unknown_2 =>  number_of (chars "atca") :: [unknown; unknown_2]
  | MaxLinks =>  number_of (chars "lks2") :: []
  | PetBuff attribute unknown unknown_2 unknown_3 =>  number_of (chars "pet2") :: [number_of attribute; unknown; unknown_2; unknown_3]
  | Impotent duration chance level unknown =>  number_of (chars "cssr") :: [duration; chance; level; unknown]
  | Darkness duration chance level unknown =>  number_of (chars "dn") :: [duration; chance; level; unknown]
  | DecreaseMagicalDefense duration chance level value =>  number_of (chars "csmd") :: [duration; chance; level; value]
  | DecreasePhysicalDefense duration chance level value =>  number_of (chars "cspd") :: [duration; chance; level; value]
  | AbsorbDamage level percent =>  number_of (chars "odar") :: [level; percent]
  | Disease duration chance level unknown =>  number_of (chars "ds") :: [duration; chance; level; unknown]
  | Division duration chance level unknown =>  number_of (chars "csit") :: [duration; chance; level; unknown]
  | PanicDebuff duration chance level min max unknown =>  number_of (chars "cshp") :: [duration; chance; level; min; max; unknown]
  | MWHH value =>  number_of (chars "mwhh") :: [value]
  | IncreaseAttackPower physical magical =>  number_of (chars "apau") :: [physical; magical]
  | IncreaseInt amount unknown =>  number_of (chars "inti") :: [amount; unknown]
  | IncreaseStr amount unknown =>  number_of (chars "stri") :: [amount; unknown]
  | DefaultAttack value =>  number_of (chars "ck") :: [value]
  | VIPBuff =>  number_of (chars "vbuf") :: []
  | Sleep duration chance level =>  number_of (chars "se") :: [duration; chance; level]
  end.

(** A parameter as it is read back: the three last numbers of a panic are all
    read from the column of the first of them. *)
Definition as_read (p : SkillParam) : SkillParam :=
  match p with
  | PanicDebuff duration chance level min _ _ => PanicDebuff duration chance level min min min
  | p => p
  end.

(** The numbers fit their types. *)
Definition param_ok (p : SkillParam) : bool :=
  match p with
  | Attack kind phys min max mag => fits 32 kind && fits 32 phys && fits 32 min && fits 32 max && fits 32 mag
  | Chain count unknown => fits 32 count && fits 32 unknown
  | GetValue value => is_code value
  | SetValue var value value_2 => is_code var && fits 32 value && fits 32 value_2
  | Duration value => fits 32 value
  | RequiredItem value => true
  | IncreaseDefense phys mag unknown => fits 32 phys && fits 32 mag && fits 32 unknown
  | BlockRatio unknown percent => fits 8 unknown && fits 8 percent
  | Knockdown unknown chance => fits 8 unknown && fits 8 chance
  | AOE origin area_type area_size unknown_type val1 val2 => fits 8 origin && fits 8 area_type && fits 16 area_size && fits 8 unknown_type && fits 32 val1 && fits 32 val2
  | DownAttack value => fits 16 value
  | RequiredState value => fits 8 value
  | Stun duration chance level => fits 32 duration && fits 8 chance && fits 8 level
  | Knockback chance distance => fits 8 chance && fits 16 distance
  | IncreaseHP absolute percent => fits 32 absolute && fits 8 percent
  | IncreaseMP absolute percent => fits 32 absolute && fits 8 percent
  | ConsumeItem kind amount => fits 8 amount
  | IncreaseCrit amount unknown => fits 8 amount && fits 8 unknown
  | IncreaseHitRate attack_rate hit_rate => fits 8 attack_rate && fits 8 hit_rate
  | SummonBird ref_id unknown unknown_2 duration => fits 32 ref_id && fits 8 unknown && fits 16 unknown_2 && fits 16 duration
  | IncreaseRange value => fits 16 value
  | Freeze unknown chance => fits 16 unknown && fits 8 chance
  | Frostbite unknown chance => fits 16 unknown && fits 8 chance
  | TantUnkn unknown unknown_2 => fits 32 unknown && fits 32 unknown_2
  | ConsumeMana duration amount => fits 32 duration && fits 32 amount
  | CreateWall unknown unknown_2 empty level => fits 8 unknown && fits 32 unknown_2 && fits 8 empty && fits 8 level
  | EffectLightning unknown unknown_2 unknown_3 => fits 16 unknown && fits 8 unknown_2 && fits 8 unknown_3
  | IncreaseDamage phys mag => fits 8 phys && fits 8 mag
  | IncreaseSpeed value => fits 8 value
  | Teleport duration distance => fits 32 duration && fits 16 distance
  | IncreaseEvasion evasion parry => fits 8 evasion && fits 8 parry
  | Burn max chance min => fits 32 max && fits 8 chance && fits 32 min
  | ReduceNegativeEffects kind amount empty => fits 8 kind && fits 8 amount && fits 8 empty
  | Real buff_interference chance level => fits 32 buff_interference && fits 8 chance && fits 8 level
  | Heal hp_abs hp_percentage mp_abs mp_percentage => fits 32 hp_abs && fits 8 hp_percentage && fits 32 mp_abs && fits 8 mp_percentage
  | Invisible kind level unknown => fits 8 kind && fits 8 level && fits 8 unknown
  | IncreaseExperience exp_percentage sp_percentage => fits 16 exp_percentage && fits 16 sp_percentage
  | ItemBuff => true
  | Interval value => fits 32 value
  | Resurrect max_level experience_restore => fits 8 max_level && fits 8 experience_restore
  | PSOG value => fits 8 value
  | NBUF => true
  | Debuff => true
  | IncreaseTaunt taunt_value aggro_percent => fits 32 taunt_value && fits 8 aggro_percent
  | SummonMonster value => summons_ok value
  | DullDebuff duration chance level => fits 32 duration && fits 8 chance && fits 8 level
  | FearDebuff duration chance level => fits 32 duration && fits 8 chance && fits 8 level
  | BleedDebuff duration chance level damage unknown => fits 32 duration && fits 8 chance && fits 8 level && fits 32 damage && fits 8 unknown
  | Restrain duration chance level => fits 32 duration && fits 8 chance && fits 8 level
  | IncreaseBerserk value => fits 8 value
  | ShortSight duration chance level distance => fits 32 duration && fits 8 chance && fits 8 level && fits 16 distance
  | Poison unknown chance damage => fits 16 unknown && fits 8 chance && fits 32 damage
  | Linked level distance max_links damage_share => fits 8 level && match distance with Some d => fits 32 d && negb (d =? 0) | None => true end && fits 8 max_links
  | ATCA unknown unknown_2 => fits 16 unknown && fits 8 unknown_2
  | MaxLinks => true
  | PetBuff attribute unknown unknown_2 unknown_3 => is_code attribute && fits 8 unknown && fits 8 unknown_2 && fits 8 unknown_3
  | Impotent duration chance level unknown => fits 32 duration && fits 8 chance && fits 8 level && fits 8 unknown
  | Darkness duration chance level unknown => fits 32 duration && fits 8 chance && fits 8 level && fits 8 unknown
  | DecreaseMagicalDefense duration chance level value => fits 32 duration && fits 8 chance && fits 8 level && fits 16 value
  | DecreasePhysicalDefense duration chance level value => fits 32 duration && fits 8 chance && fits 8 level && fits 16 value
  | AbsorbDamage level percent => fits 8 level && fits 8 percent
  | Disease duration chance level unknown => fits 32 duration && fits 8 chance && fits 8 level && fits 8 unknown
  | Division duration chance level unknown => fits 32 duration && fits 8 chance && fits 8 level && fits 8 unknown
  | PanicDebuff duration chance level min max unknown => fits 32 duration && fits 8 chance && fits 8 level && fits 8 min && fits 8 max && fits 8 unknown
  | MWHH value => fits 16 value
  | IncreaseAttackPower physical magical => fits 16 physical && fits 16 magical
  | IncreaseInt amount unknown => fits 8 amount && fits 8 unknown
  | IncreaseStr amount unknown => fits 8 amount && fits 8 unknown
  | DefaultAttack value => fits 8 value
  | VIPBuff => true
  | Sleep duration chance level => fits 32 duration && fits 8 chance && fits 8 level
  end.

(** A zero after the variable of [setv] belongs to it. *)
Definition after (p : SkillParam) (rest : list Z) : list Z :=
  match p, rest with
  | SetValue _ _ _, z :: rest' => if z =? 0 then rest' else rest
  | _, _ => rest
  end.

(** ** Reading what was written *)

Lemma equippable_roundtrip e :
  equippable_from_type_value (u8 (equippable_type_value e).1) (u8 (equippable_type_value e).2) = Some e.
Proof. destruct e; repeat match goal with x : _ |- _ => destruct x end; reflexivity. Qed.

Lemma consumable_roundtrip c :
  consumable_from_type_value (u8 (consumable_type_value c).1) (u8 (consumable_type_value c).2) = Some c.
Proof. destruct c; repeat match goal with x : _ |- _ => destruct x end; reflexivity. Qed.

Lemma u32_small z : fits 8 z = true -> u8 z = z.
Proof. apply wrap_small. Qed.

Lemma parse_summons_rest l rest :
  forallb (fun s => summon_ok s && negb (s.(summon_ref_id) =? 0)) l = true ->
  parse_summons false (concat (map summon_columns l) ++ 0 :: rest) = Ok (rest, l).
Proof.
  induction l as [|[id r mi ma] l IH]; [reflexivity|]. cbn [forallb]. intros H. split_andb.
  unfold summon_ok in H. cbn [summon_ref_id summon_rarity summon_min summon_max] in *. split_andb.
  cbn [map summon_columns concat app parse_summons summon_ref_id summon_rarity summon_min summon_max].
  rewrite H1. cbn [orb]. rewrite IH by assumption. cbn [mbind outcome_bind].
  rewrite !wrap_small by assumption. reflexivity.
Qed.

Lemma parse_summons_written l rest :
  summons_ok l = true -> parse_summons true (concat (map summon_columns l) ++ 0 :: rest) = Ok (rest, l).
Proof.
  destruct l as [|[id r mi ma] l]; [discriminate|]. cbn [summons_ok]. intros H. split_andb.
  unfold summon_ok in H. cbn [summon_ref_id summon_rarity summon_min summon_max] in *. split_andb.
  cbn [map summon_columns concat app parse_summons summon_ref_id summon_rarity summon_min summon_max].
  rewrite orb_true_r, parse_summons_rest by assumption. cbn [mbind outcome_bind].
  rewrite !wrap_small by assumption. reflexivity.
Qed.

(** The code is found in the table. *)
Lemma parse_param_code s data arm :
  is_code s = true -> (number_of s =? 0) = false -> find_param s = Some arm ->
  parse_param (number_of s :: data) = (r ← arm data; Ok (Some r)).
Proof. intros Hs Hz Ha. cbn [parse_param]. rewrite Hz, ascii_code_number_of by exact Hs. cbn [mbind outcome_bind]. rewrite Ha. reflexivity. Qed.

Ltac read_columns :=
  cbv [snd fixed split_at take_exact pair_columns];
  cbn [length Nat.leb firstn skipn app mbind outcome_bind]; cbv [arg nth].

Lemma non_zero_default d :
  match d with Some d => fits 32 d && negb (d =? 0) | None => true end = true -> non_zero (default 0 d) = d.
Proof.
  destruct d as [d|]; [|reflexivity]. intros H. split_andb. unfold non_zero. cbn.
  rewrite (proj1 (negb_true_iff _) H0). reflexivity.
Qed.

(** What follows a parameter is left, and the parameter is read. *)
Lemma parse_param_written p rest :
  param_ok p = true -> parse_param (write_param p ++ rest) = Ok (Some (after p rest, as_read p)).
Proof.
  intros Hp. destruct p; cbn [param_ok] in Hp; cbn [write_param app after as_read];
    (erewrite parse_param_code; [|reflexivity|reflexivity|reflexivity]);
    split_andb; read_columns;
    try (rewrite ?wrap_small by assumption; reflexivity).
  - rewrite ascii_code_number_of by assumption. reflexivity.
  - rewrite ascii_code_number_of by assumption. destruct rest as [|z rest]; [reflexivity|].
    cbn. destruct (z =? 0); reflexivity.
  - rewrite equippable_roundtrip. reflexivity.
  - rewrite consumable_roundtrip, wrap_small by assumption. reflexivity.
  - rewrite <- app_assoc. cbn [app]. rewrite parse_summons_written by assumption. reflexivity.
  - rewrite non_zero_default, !wrap_small by assumption. destruct damage_share; reflexivity.
  - rewrite ascii_code_number_of by assumption. cbn [mbind outcome_bind].
    rewrite !wrap_small by assumption. reflexivity.
Qed.

(** ** Lists of parameters *)

Lemma write_param_head p : exists z data, write_param p = z :: data /\ (z =? 0) = false.
Proof. destruct p; (eexists _, _; split; [reflexivity|reflexivity]). Qed.

Definition arm_consumes (arm : list Z -> outcome ParseError (list Z * SkillParam)) : Prop :=
  forall data rest p, arm data = Ok (rest, p) -> (length rest <= length data)%nat.

Lemma split_at_consumes {E} n data p rest :
  split_at (E := E) n data = Ok (p, rest) -> length data = (n + length rest)%nat.
Proof.
  unfold split_at. destruct (take_exact n data) as [[a b]|] eqn:H; [|discriminate]. intros [= <- <-].
  apply take_exact_some in H as [-> <-]. apply length_app.
Qed.

Lemma fixed_consumes n f : arm_consumes (fixed n f).
Proof.
  intros data rest p H. apply bind_ok in H as ([a b] & Hs & [= <- <-]).
  apply split_at_consumes in Hs. lia.
Qed.

Lemma parse_summons_consumes first data : forall rest l,
  parse_summons first data = Ok (rest, l) -> (length rest <= length data)%nat.
Proof.
  remember (length data) as n eqn:Hn. assert (Hle : (length data <= n)%nat) by lia. rewrite Hn. clear Hn.
  revert first data Hle; induction n as [|n IH]; intros first data Hle rest l;
    destruct data as [|id tail]; try discriminate; [cbn in Hle; lia|]. cbn [parse_summons].
  destruct (_ || _); [|intros [= <- <-]; cbn; lia].
  destruct tail as [|r [|mi [|ma next]]]; try discriminate. cbn in Hle. intros H.
  apply bind_ok in H as ([rest' l'] & H & [= <- <-]).
  apply IH in H; [cbn; lia|lia].
Qed.

Lemma arms_consume : Forall (fun e => arm_consumes e.2) param_table.
Proof.
  cbv [param_table arms_att arms_br arms_hpi arms_fz arms_hste arms_heal arms_puls arms_lnks arms_cspd arms_csit app].
  repeat (apply Forall_cons; split; [cbn [snd]; try apply fixed_consumes|]); [..|constructor];
    intros data rest p H;
    repeat match type of H with
    | _ ≫= _ = Ok _ => apply bind_ok in H as (? & ?H & H)
    | (let '(_, _) := ?x in _) = _ => destruct x
    end;
    repeat match goal with
    | H : split_at _ _ = Ok _ |- _ => apply split_at_consumes in H
    | H : parse_summons _ _ = Ok _ |- _ => apply parse_summons_consumes in H
    end; try (injection H as <- <-; lia).
  destruct l0 as [|z l0]; [injection H as <- <-; cbn in *; lia|].
  destruct (z =? 0); injection H as <- <-; cbn in *; lia.
Qed.

Lemma parse_param_consumes params rest p :
  parse_param params = Ok (Some (rest, p)) -> (length rest < length params)%nat.
Proof.
  destruct params as [|first data]; [discriminate|]. cbn [parse_param].
  destruct (first =? 0); [discriminate|]. intros H. apply bind_ok in H as (kind & _ & H).
  unfold find_param in H. destruct (List.find _ param_table) as [[name arm]|] eqn:E; [|discriminate].
  cbn [fmap option_fmap option_map snd] in H. apply bind_ok in H as ([rest' p'] & H & [= -> ->]).
  apply List.find_some in E as [E _]. pose proof arms_consume as A. rewrite Forall_forall in A.
  specialize (A _ (proj2 (list_elem_of_In _ _) E)). apply A in H. cbn. lia.
Qed.

Lemma params_loop_enough columns : forall fuel,
  (length columns < fuel)%nat ->
  exists r, params_loop fuel columns = Some r /\ forall fuel', (fuel <= fuel')%nat -> params_loop fuel' columns = Some r.
Proof.
  remember (length columns) as n eqn:Hn. assert (Hle : (length columns <= n)%nat) by lia. clear Hn.
  revert columns Hle; induction n as [|n IH]; intros columns Hle fuel Hf; (destruct fuel as [|fuel]; [lia|]).
  - destruct columns; [|cbn in Hle; lia]. cbn. eexists; split; [reflexivity|].
    intros [|fuel'] ?; [lia|reflexivity].
  - cbn [params_loop]. destruct (parse_param columns) as [[[next p]|]|e|] eqn:E;
      try (eexists; split; [reflexivity|]; intros [|fuel'] ?; [lia|]; cbn [params_loop]; rewrite E; reflexivity).
    apply parse_param_consumes in E as Hlt.
    destruct (IH next ltac:(lia) fuel ltac:(lia)) as (r & Hr & Hm). rewrite Hr.
    eexists; split; [reflexivity|]. intros [|fuel'] ?; [lia|]. cbn [params_loop]. rewrite E, Hm by lia. reflexivity.
Qed.

(** The loop over the parameters ends on every list of columns: each round
    takes a column or more, so that one round per column and a last one are
    enough, and more do not change the result. *)
Theorem params_loop_ends (columns : list Z) (fuel : nat) :
  (length columns < fuel)%nat -> params_loop fuel columns = Some (skill_params columns).
Proof.
  intros Hf. unfold skill_params.
  destruct (params_loop_enough columns (S (length columns)) ltac:(lia)) as (r & Hr & Hm).
  rewrite Hr. apply Hm. lia.
Qed.

Lemma params_loop_ends_witness :
  params_loop 9 [number_of (chars "ko"); 0; 20; number_of (chars "dura"); 5000; 0; 7]
  = Some (skill_params [number_of (chars "ko"); 0; 20; number_of (chars "dura"); 5000; 0; 7]).
Proof. apply params_loop_ends. cbn. lia. Defined.

Lemma params_loop_written ps : forall fuel n,
  forallb param_ok ps = true -> (length ps < fuel)%nat ->
  params_loop fuel (concat (map write_param ps) ++ repeat 0 n) = Some (Ok (map as_read ps)).
Proof.
  induction ps as [|p ps IH]; intros fuel n Hps Hf; (destruct fuel as [|fuel]; [cbn in Hf; lia|]).
  - destruct n; reflexivity.
  - cbn [forallb] in Hps. split_andb. cbn [map concat]. rewrite <- app_assoc. cbn [params_loop].
    rewrite parse_param_written by assumption. cbn in Hf.
    assert (Hafter : exists n', after p (concat (map write_param ps) ++ repeat 0 n) = concat (map write_param ps) ++ repeat 0 n').
    { destruct p; try (exists n; reflexivity). cbn [after]. destruct ps as [|q ps].
      - destruct n as [|n]; [exists O|exists n]; reflexivity.
      - cbn [map concat]. destruct (write_param_head q) as (z & data & -> & Hz). cbn [app]. rewrite Hz.
        exists n. reflexivity. }
    destruct Hafter as [n' ->]. rewrite IH by (assumption || lia). reflexivity.
Qed.

Lemma write_params_length ps : (length ps <= length (concat (map write_param ps)))%nat.
Proof.
  induction ps as [|p ps IH]; cbn; [lia|]. rewrite length_app.
  destruct (write_param_head p) as (z & data & -> & _). cbn. lia.
Qed.

Lemma skill_params_written ps n :
  forallb param_ok ps = true -> skill_params (concat (map write_param ps) ++ repeat 0 n) = Ok (map as_read ps).
Proof.
  intros Hps. unfold skill_params. rewrite params_loop_written; [reflexivity|exact Hps|].
  rewrite length_app. pose proof (write_params_length ps). lia.
Qed.

(** ** Rows *)

Definition unread : list Z := chars "0".
Definition flag (target : Z) (bit : Z) : Z := Z.b2z (Z.testbit target bit).
Definition required (r : RefSkillData) (i : nat) : LearnedSkill :=
  nth i r.(required_skills) {| learned_group := 0; learned_level := 0 |}.

(** A number that is no weapon stands for no requirement. *)
Definition weapon_column (w : option ObjectWeaponType) : Z := match w with Some w => into w | None => 255 end.

(** The columns of a row: the ones that are read, any content for the others. *)
Definition skill_columns (r : RefSkillData) : list (list Z) :=
  [
    unread; decimal r.(skill_ref_id); decimal r.(group);
    r.(skill_id); unread; unread;
    decimal (default 0 r.(original)); decimal r.(skill_level); decimal (into r.(skill_type));
    decimal (default 0 r.(next_in_chain)); unread; decimal r.(timings).(preparation_time);
    decimal r.(timings).(cast_time); decimal r.(timings).(duration); decimal r.(timings).(cooldown);
    decimal r.(timings).(next_delay); decimal r.(projectile_speed); unread;
    decimal (i32 r.(buff_interference)); decimal (into r.(auto_attack)); unread;
    decimal r.(skill_range); decimal (Z.b2z r.(requires_target)); unread;
    unread; unread; decimal (flag r.(target) 0);
    decimal (flag r.(target) 1); decimal (flag r.(target) 2); decimal (flag r.(target) 3);
    decimal (flag r.(target) 4); decimal (flag r.(target) 5); decimal (flag r.(target) 6);
    decimal (flag r.(target) 7); decimal (default 0 r.(mastery)); unread;
    decimal (default 0 r.(mastery_level)); unread; unread;
    unread; decimal (required r 0).(learned_group); decimal (required r 1).(learned_group);
    decimal (required r 2).(learned_group); decimal (required r 0).(learned_level); decimal (required r 1).(learned_level);
    decimal (required r 2).(learned_level); decimal r.(sp); decimal r.(race);
    unread; unread; decimal (weapon_column r.(weapon_requirements).1);
    decimal (weapon_column r.(weapon_requirements).2); decimal r.(consumed_hp); decimal r.(consumed_mp);
    unread; unread; unread;
    unread; unread; unread;
    unread; unread; unread;
    unread; unread; unread;
    decimal r.(usage_chance); decimal r.(usage_type); unread ].

Definition skill_row (r : RefSkillData) (zeros : nat) : list Z :=
  join tab (skill_columns r ++ map (fun z => decimal (i32 z))
    (concat (map write_param r.(skill_params_of)) ++ repeat 0 zeros)).

Definition required_ok (s : LearnedSkill) : bool :=
  fits 32 s.(learned_group) && negb (s.(learned_group) =? 0) && fits 8 s.(learned_level).

(** The numbers fit the fields, and the columns of parameters are 32-bit. *)
Definition skill_ok (r : RefSkillData) : bool :=
  fits 32 r.(skill_ref_id) && fits 32 r.(group) && bool_decide (tab ∉ r.(skill_id))
  && optional_ok 32 r.(original) && fits 8 r.(skill_level) && optional_ok 32 r.(next_in_chain)
  && fits 32 r.(timings).(preparation_time) && fits 32 r.(timings).(cast_time)
  && sfits 32 r.(timings).(duration) && fits 32 r.(timings).(cooldown) && fits 32 r.(timings).(next_delay)
  && fits 32 r.(projectile_speed) && fits 32 r.(buff_interference) && fits 16 r.(skill_range)
  && fits 8 r.(target) && optional_ok 16 r.(mastery) && optional_ok 8 r.(mastery_level)
  && (length r.(required_skills) <=? 3)%nat && forallb required_ok r.(required_skills)
  && fits 32 r.(sp) && fits 8 r.(race) && fits 32 r.(consumed_hp) && fits 32 r.(consumed_mp)
  && fits 8 r.(usage_chance) && fits 8 r.(usage_type) && forallb param_ok r.(skill_params_of)
  && forallb (fits 32) (concat (map write_param r.(skill_params_of))).

Lemma optional_fits w o : 0 < w -> optional_ok w o = true -> fits w (default 0 o) = true /\ non_zero (default 0 o) = o.
Proof.
  intros Hw. destruct o as [z|]; cbn [optional_ok default].
  - intros H. apply andb_true_iff in H as [H Hz]. split; [exact H|]. unfold non_zero.
    apply negb_true_iff in Hz. cbn. rewrite Hz. reflexivity.
  - intros _. split; [apply fits_spec; lia|reflexivity].
Qed.

Lemma flag_fits t k : fits 8 (flag t k) = true.
Proof. unfold flag. destruct (Z.testbit t k); reflexivity. Qed.

Lemma b2z_fits b : fits 8 (Z.b2z b) = true.
Proof. destruct b; reflexivity. Qed.

Definition flags_of (t : Z) : Z :=
  with_flag (with_flag (with_flag (with_flag (with_flag (with_flag (with_flag (with_flag NONE
    (flag t 0) SELF) (flag t 1) ALLY) (flag t 2) PARTY) (flag t 3) ENEMY_MONSTER)
    (flag t 4) ENEMY_PLAYER) (flag t 5) NETRAL) (flag t 6) ANY) (flag t 7) DEAD.

Lemma flags_of_target t : fits 8 t = true -> flags_of t = t.
Proof.
  intros Ht. apply fits_spec in Ht.
  assert (H : forallb (fun t => flags_of t =? t) (map Z.of_nat (seq 0 256)) = true) by (vm_compute; reflexivity).
  rewrite forallb_forall in H. apply Z.eqb_eq, H, in_map_iff. exists (Z.to_nat t).
  rewrite in_seq. split; lia.
Qed.

Lemma weapon_fits w : fits 8 (weapon_column w) = true /\ try_from (weapon_column w) = w.
Proof. destruct w as [[]|]; split; reflexivity. Qed.

Lemma required_fits r i :
  forallb required_ok r.(required_skills) = true ->
  fits 32 (learned_group (required r i)) = true /\ fits 8 (learned_level (required r i)) = true.
Proof.
  intros H. unfold required. destruct (nth_in_or_default i (required_skills r) {| learned_group := 0; learned_level := 0 |}) as [Hin|Hin]; [|rewrite Hin].
  - rewrite forallb_forall in H. apply H in Hin. unfold required_ok in Hin. split_andb. auto.
  - split; reflexivity.
Qed.

Lemma required_filter r :
  (length r.(required_skills) <= 3)%nat -> forallb required_ok r.(required_skills) = true ->
  List.filter (fun s => negb (s.(learned_group) =? 0))
    (map (fun i => {| learned_group := learned_group (required r i); learned_level := learned_level (required r i) |}) [0; 1; 2]%nat)
  = r.(required_skills).
Proof.
  intros Hl H. unfold required. destruct (required_skills r) as [|[g1 l1] [|[g2 l2] [|[g3 l3] [|s4 l]]]];
    cbn in Hl; try lia; cbn [forallb] in H; unfold required_ok in H; cbn [learned_group learned_level] in H;
    split_andb; cbn [map nth List.filter learned_group learned_level];
    repeat match goal with H : negb _ = true |- _ => rewrite H; clear H end; reflexivity.
Qed.

Lemma number_columns_written zs :
  forallb (fits 32) zs = true -> number_columns (map (fun z => decimal (i32 z)) zs) = Ok zs.
Proof.
  induction zs as [|z zs IH]; [reflexivity|]. cbn [forallb map number_columns]. intros H. split_andb.
  apply fits_spec in H. assert (Hi : - 2 ^ 31 <= i32 z < 2 ^ 31).
  { unfold swrap. pose proof (Z.mod_pos_bound (z + 2 ^ (32 - 1)) (2 ^ 32) ltac:(lia)). lia. }
  rewrite parse_decimal by (unfold I, in_type; cbn [int_min int_max]; lia).
  rewrite IH by assumption. cbn [mbind outcome_bind]. do 2 f_equal.
  unfold wrap, swrap. rewrite Zminus_mod_idemp_l. rewrite Z.mod_small; lia.
Qed.

Lemma unread_no_tab : tab ∉ unread.
Proof. intros H. apply list_elem_of_In in H as [H|[]]. discriminate H. Qed.

Lemma skill_columns_no_tab r : tab ∉ r.(skill_id) -> Forall (fun p => tab ∉ p) (skill_columns r).
Proof.
  intros Hid. unfold skill_columns.
  repeat (apply Forall_cons; split; [first [apply decimal_no_tab | exact Hid | exact unread_no_tab]|]).
  constructor.
Qed.

(** Reads the next number of the row. *)
Ltac read_int :=
  match goal with
  | |- mbind _ (int ?t ?cols ?i) = _ =>
      let z := lazymatch eval cbn in (cols !! i) with Some (decimal ?z) => z end in
      first
      [ rewrite (int_U _ cols i z);
        [|lia|solve [assumption | apply flag_fits | apply b2z_fits | apply required_fits; assumption | apply weapon_fits]|reflexivity]
      | rewrite (int_I _ cols i z); [|lia|assumption|reflexivity] ];
      rewrite ok_bind; cbv beta
  end.

(** A skill with other parameters, and as it is read back. *)
Definition with_params (ps : list SkillParam) (r : RefSkillData) : RefSkillData :=
  {| skill_ref_id := r.(skill_ref_id); group := r.(group); skill_id := r.(skill_id); original := r.(original);
     skill_level := r.(skill_level); skill_type := r.(skill_type); next_in_chain := r.(next_in_chain);
     timings := r.(timings); projectile_speed := r.(projectile_speed); buff_interference := r.(buff_interference);
     auto_attack := r.(auto_attack); skill_range := r.(skill_range);
     requires_target := r.(requires_target); target := r.(target);
     mastery := r.(mastery); mastery_level := r.(mastery_level);
     required_skills := r.(required_skills); sp := r.(sp); race := r.(race);
     weapon_requirements := r.(weapon_requirements); consumed_hp := r.(consumed_hp); consumed_mp := r.(consumed_mp);
     usage_chance := r.(usage_chance); usage_type := r.(usage_type); skill_params_of := ps |}.
Definition read_back (r : RefSkillData) : RefSkillData := with_params (map as_read r.(skill_params_of)) r.

(** A skill without a panic is read back as it was. *)
Lemma read_back_same r : Forall (fun p => as_read p = p) r.(skill_params_of) -> read_back r = r.
Proof.
  intros H. assert (E : map as_read r.(skill_params_of) = r.(skill_params_of)).
  { induction H as [|p ps Hp Hps IH]; [reflexivity|]. cbn. rewrite Hp, IH. reflexivity. }
  unfold read_back. rewrite E. destruct r. reflexivity.
Qed.

Definition rebuild (r : RefSkillData) : RefSkillData :=
  {| skill_ref_id := r.(skill_ref_id); group := r.(group); skill_id := r.(skill_id); original := r.(original);
     skill_level := r.(skill_level); skill_type := r.(skill_type); next_in_chain := r.(next_in_chain);
     timings := {| preparation_time := r.(timings).(preparation_time); cast_time := r.(timings).(cast_time);
                   duration := r.(timings).(duration); cooldown := r.(timings).(cooldown);
                   next_delay := r.(timings).(next_delay) |};
     projectile_speed := r.(projectile_speed); buff_interference := r.(buff_interference);
     auto_attack := r.(auto_attack); skill_range := r.(skill_range);
     requires_target := r.(requires_target); target := r.(target);
     mastery := r.(mastery); mastery_level := r.(mastery_level);
     required_skills := r.(required_skills); sp := r.(sp); race := r.(race);
     weapon_requirements := (r.(weapon_requirements).1, r.(weapon_requirements).2);
     consumed_hp := r.(consumed_hp); consumed_mp := r.(consumed_mp);
     usage_chance := r.(usage_chance); usage_type := r.(usage_type); skill_params_of := map as_read r.(skill_params_of) |}.

Lemma eta_skill r : rebuild r = read_back r.
Proof. destruct r as [???????[]???????????[]?????]. reflexivity. Qed.

Lemma swrap_fits w z : 0 < w -> sfits w (swrap w z) = true.
Proof.
  intros Hw. apply sfits_spec. unfold swrap.
  pose proof (Z.mod_pos_bound (z + 2 ^ (w - 1)) (2 ^ w) (Z.pow_pos_nonneg 2 w ltac:(lia) ltac:(lia))).
  replace (2 ^ w) with (2 * 2 ^ (w - 1)) in *; [lia|]. rewrite <- Z.pow_succ_r by lia. f_equal. lia.
Qed.

(** C19: A row of the skill table is read as the skill it was written from:
    every number from its column, zeros as nothing, the flags of the targets,
    at most three required skills without their empty places, the weapons, and
    the parameters up to the zeros that fill the row; but of a panic the two
    last of its six numbers are lost, since the fourth is read in their place,
    and this is all that is lost. *)
Theorem skill_row_round_trip (r : RefSkillData) (zeros : nat) :
  skill_ok r = true -> skill_from_str (skill_row r zeros) = Ok (read_back r).
Proof.
  unfold skill_ok. intros H. split_andb.
  repeat match goal with H : optional_ok ?w ?o = true |- _ => apply optional_fits in H as [? ?]; [|lia] end.
  repeat match goal with H : bool_decide _ = true |- _ => apply bool_decide_eq_true in H end.
  repeat match goal with H : (_ <=? _)%nat = true |- _ => apply Nat.leb_le in H end.
  assert (Hbuff : sfits 32 (i32 (buff_interference r)) = true) by (apply swrap_fits; lia).
  unfold skill_from_str, skill_row, skill_type_from_str, auto_attack_from_str.
  set (tail := concat (map write_param (skill_params_of r)) ++ repeat 0 zeros).
  rewrite split_join; [|discriminate|].
  2:{ apply Forall_app. split; [apply skill_columns_no_tab; assumption|].
      apply Forall_map, Forall_forall. intros z _. apply decimal_no_tab. }
  set (cells := map (fun z => decimal (i32 z)) tail). cbv zeta.
  do 19 read_int.
  change (slice_from 69 (skill_columns r ++ cells)) with (Ok (E := ParseError) cells). rewrite ok_bind; cbv beta.
  subst cells. rewrite number_columns_written, ok_bind; cbv beta.
  2:{ subst tail. rewrite forallb_app, andb_true_iff. split; [assumption|].
      apply forallb_forall. intros z Hz. apply repeat_spec in Hz as ->. reflexivity. }
  subst tail. rewrite skill_params_written, ok_bind by assumption; cbv beta.
  set (cells := map _ _).
  do 5 read_int. rewrite (read_text _ 3 (skill_id r)), ok_bind by reflexivity; cbv beta. read_int.
  rewrite (read_enum "SkillType"%string _ _ (skill_type r)), ok_bind by reflexivity; cbv beta. do 6 read_int.
  rewrite (read_enum "AutoAttack"%string _ _ (auto_attack r)), ok_bind by reflexivity; cbv beta.
  do 7 read_int.
  transitivity (Ok (E := ParseError) (rebuild r)); [|rewrite eta_skill; reflexivity].
  unfold rebuild. f_equal. f_equal; try assumption.
  - rewrite u32_i32; auto.
  - destruct (requires_target r); reflexivity.
  - apply flags_of_target. assumption.
  - apply required_filter; assumption.
  - f_equal; apply weapon_fits.
Qed.

(** An attack with a chain, a summons and a knock-down. *)
Definition a_skill : RefSkillData :=
  {| skill_ref_id := 3; group := 2; skill_id := chars "SKILL_CH_SWORD_SMASH_A_02"; original := None;
     skill_level := 2; skill_type := ActionSkill; next_in_chain := Some 4;
     timings := {| preparation_time := 0; cast_time := 700; duration := -1; cooldown := 3000; next_delay := 0 |};
     projectile_speed := 0; buff_interference := 0xFFFFFFF0; auto_attack := YesAutoAttack; skill_range := 6;
     requires_target := true; target := Z.lor ENEMY_MONSTER ENEMY_PLAYER; mastery := Some 257;
     mastery_level := Some 5; required_skills := [{| learned_group := 2; learned_level := 1 |}];
     sp := 4; race := 0; weapon_requirements := (Some ObjectWeaponType_Sword, None);
     consumed_hp := 0; consumed_mp := 12; usage_chance := 100; usage_type := 0;
     skill_params_of := [Attack 5 120 20 30 0; Chain 2 0; SetValue (chars "KO") 1 2; Knockdown 0 20;
       SummonMonster [{| summon_ref_id := 0; summon_rarity := 1; summon_min := 1; summon_max := 2 |}];
       RequiredItem (Equip_Weapon ObjectWeaponType_Sword); SetValue (chars "MS") 7 0] |}.

(** One that panics its target. *)
Definition a_shout : RefSkillData := with_params [PanicDebuff 5000 30 1 10 20 2; Knockdown 0 20] a_skill.

Lemma skill_row_round_trip_witness :
  skill_from_str (skill_row a_skill 12) = Ok (read_back a_skill) /\ read_back a_skill = a_skill
  /\ skill_from_str (skill_row a_shout 12) = Ok (read_back a_shout) /\ read_back a_shout <> a_shout.
Proof.
  split; [apply skill_row_round_trip; vm_compute; reflexivity|]. split; [reflexivity|].
  split; [apply skill_row_round_trip; vm_compute; reflexivity|discriminate].
Defined.

(** ** Malformed rows *)

(** A row that ends between the 46th and the 69th column, and one with a
    parameter that is no number, are panics and not errors; a code that is no
    text is one as well, and so is a parameter without all of its numbers. *)
Theorem malformed_rows_panic :
  skill_from_str (join tab (firstn 60 (skill_columns a_skill))) = Panic
  /\ skill_from_str (join tab (skill_columns a_skill ++ [chars "x"])) = Panic
  /\ skill_params [0xFFFFFFFF; 0] = Panic
  /\ skill_params [number_of (chars "att"); 1; 2] = Panic
  /\ skill_params [number_of (chars "ssou"); 5; 1; 1; 1] = Panic
  /\ skill_from_str (join tab (firstn 46 (skill_columns a_skill))) = Panic
  /\ skill_from_str (join tab (firstn 45 (skill_columns a_skill))) = Err (MissingColumn 45).
Proof. vm_compute. auto 10. Qed.

(** The last three numbers of a panic are all read from its fourth column. *)
Theorem panic_reads_one_column (d c l a b e : Z) (rest : list Z) :
  parse_param (number_of (chars "cshp") :: d :: c :: l :: a :: b :: e :: rest)
  = Ok (Some (rest, PanicDebuff d (u8 c) (u8 l) (u8 a) (u8 a) (u8 a))).
Proof. erewrite parse_param_code; [|reflexivity|reflexivity|reflexivity]. reflexivity. Qed.

(** An archive with one file of skills. *)
Definition an_archive (name : list Z) : option (list Z) :=
  if bool_decide (name = textdata (chars "SkillData.txt")) then Some (file_of [chars "skills_1.txt"])
  else if bool_decide (name = textdata (chars "skills_1.txt")) then Some (file_of [skill_row a_skill 12])
  else None.

Lemma data_map_loads_witness : load_skill_map an_archive id = Ok [a_skill].
Proof.
  apply (data_map_loads skill_from_str an_archive id _ (file_of [chars "skills_1.txt"])
    [(chars "skills_1.txt", [skill_row a_skill 12], [a_skill])]).
  - vm_compute. reflexivity.
  - reflexivity.
  - repeat constructor; try discriminate; apply (bool_decide_unpack _); vm_compute; exact Logic.I.
  - constructor; [|constructor]. exists (file_of [skill_row a_skill 12]).
    split; [vm_compute; reflexivity|]. split; [reflexivity|]. split.
    + constructor; [|constructor]. split; [discriminate|]. apply (bool_decide_unpack _); vm_compute; exact Logic.I.
    + constructor; [vm_compute; reflexivity|constructor].
Defined.
