(* ===== verification/Serde.v ===== *)
(** [silkroad-serde] and [silkroad-serde-derive]: the wire format.

    The derive macros read the declaration of a struct or an enum with its
    [#[silkroad(...)]] attributes and produce [Serialize], [Deserialize] and
    [ByteSize] for it.  Here a declaration is a value of [ty], the values of
    the declared type are terms of [val], and the three macros are the
    functions [write], [read] and [byte_size] over declarations. *)
From stdpp Require Import base list option strings.
From Stdlib Require Import ZArith Lia.
From S2P Require Import Prelude Utf Definitions.

(** ** Declarations *)

(** The types with a hand-written implementation (silkroad-serde/src/lib.rs,
    time.rs, rarity.rs); a float is its IEEE bit pattern. *)
Inductive prim :=
| PU8 | PBool | PU16 | PI16 | PU32 | PI32 | PU64 | PI64 | PF32 | PF64
| PRarity | PSilkroadTime | PDateTime.

(** What the code reads off a [chrono::DateTime]. *)
Record datetime := {
  year : Z; month : Z; day : Z; hour : Z; minute : Z; second : Z;
  timestamp_millis : Z;
}.

Inductive val :=
| VNum (z : Z)
| VBool (b : bool)
| VRarity (r : EntityRarity)
| VTime (t : datetime)
| VStr (s : list Z)
| VBytes (bs : list Z)
| VSeq (vs : list val)
| VOpt (o : option val)
| VStruct (vs : list val)
| VEnum (variant : string) (vs : list val).

(** The identifiers bound by the fields already read, for [when]. *)
Definition scope := list (string * val).

(** [FieldArgs]: the [#[silkroad(...)]] attributes of a field. *)
Record field_args := {
  list_type : option string;
  arg_size : option Z;
  arg_when : option (scope -> bool);
}.

Definition no_args : field_args := {| list_type := None; arg_size := None; arg_when := None |}.

(** A field's type as [get_type_of] classifies it; the macros treat a type
    with its own implementation ([TPrim], [TStruct], [TEnum]) as [Primitive]. *)
Inductive ty :=
| TPrim (p : prim)
| TStruct (name : string) (fs : fields)
| TEnum (name : string) (size : Z) (vs : variants)
| TString
| TArray (n : nat)
| TVec (t : ty)
| TOption (t : ty)
| TTuple (ts : fields)
with fields :=
| NoField
| Field (name : string) (a : field_args) (t : ty) (fs : fields)
with variants :=
| NoVariant
| Variant (name : string) (value : option Z) (fs : fields) (vs : variants).

Scheme ty_mut := Induction for ty Sort Prop
with fields_mut := Induction for fields Sort Prop
with variants_mut := Induction for variants Sort Prop.
Combined Scheme ty_mutind from ty_mut, fields_mut, variants_mut.

Definition size_or_1 (a : field_args) : Z := default 1 a.(arg_size).
Definition list_type_or_default (a : field_args) : string := default "length"%string a.(list_type).

(** An [Option] is preceded by a flag byte unless it has [when] or [size = 0]. *)
Definition has_flag (a : field_args) : bool :=
  match a.(arg_when) with
  | Some _ => false
  | None => negb (size_or_1 a =? 0)
  end.

(** ** serialize.rs: [derive(Serialize)] *)

(** time.rs: [impl Serialize for SilkroadTime], six fields packed in a u32. *)
Definition pack_time (t : datetime) : Z :=
  Z.lor (Z.lor (Z.lor (Z.lor (Z.lor
    (Z.land (u32 (t.(year) - 2000)) 63)
    (Z.shiftl (Z.land (t.(month) - 1) 15) 6))
    (Z.shiftl (Z.land (t.(day) - 1) 31) 10))
    (Z.shiftl (Z.land t.(hour) 31) 15))
    (Z.shiftl (Z.land t.(minute) 63) 20))
    (Z.shiftl (Z.land t.(second) 63) 26).

Definition write_datetime (t : datetime) : list Z :=
  le_bytes 2 t.(year) ++ le_bytes 2 t.(month) ++ le_bytes 2 t.(day)
  ++ le_bytes 2 t.(hour) ++ le_bytes 2 t.(minute) ++ le_bytes 2 t.(second)
  ++ le_bytes 4 t.(timestamp_millis).

Definition write_prim (p : prim) (v : val) : option (list Z) :=
  match p, v with
  | PU8, VNum z => Some (le_bytes 1 z)
  | PBool, VBool b => Some (le_bytes 1 (Z.b2z b))
  | (PU16 | PI16), VNum z => Some (le_bytes 2 z)
  | (PU32 | PI32 | PF32), VNum z => Some (le_bytes 4 z)
  | (PU64 | PI64 | PF64), VNum z => Some (le_bytes 8 z)
  | PRarity, VRarity r => Some (le_bytes 1 (rarity_into r))
  | PSilkroadTime, VTime t => Some (le_bytes 4 (pack_time t))
  | PDateTime, VTime t => Some (write_datetime t)
  | _, _ => None
  end.

(** The length prefix is [self.len() as u16], the UTF-8 length, in both widths. *)
Definition write_string (size : Z) (s : list Z) : list Z :=
  le_bytes 2 (str_len s)
  ++ (if size =? 1 then as_bytes s else concat (map (le_bytes 2) (encode_utf16 s))).

(** The width of the length of a list: [1 => u8, 2 => u16, 3 => u32, 4 => u64]. *)
Definition length_width (size : Z) : nat :=
  match size with 1 => 1 | 2 => 2 | 3 => 4 | _ => 8 end.

(** The elements of a list, already written, in the frame its attributes ask for. *)
Definition write_list (a : field_args) (items : list (list Z)) : list Z :=
  let size := size_or_1 a in
  let marker n := le_bytes (Z.to_nat size) n in
  let lt := list_type_or_default a in
  if String.eqb lt "break" then concat (map (app (marker 1)) items) ++ marker 2
  else if String.eqb lt "has-more" then concat (map (app (marker 1)) items) ++ marker 0
  else if String.eqb lt "length" then
    le_bytes (length_width size) (Z.of_nat (length items)) ++ concat items
  else concat items.

Definition write_discriminant (size : Z) (value : option Z) : option (list Z) :=
  if 0 <? size then le_bytes (Z.to_nat size) <$> value else Some [].

Fixpoint write (a : field_args) (t : ty) (v : val) {struct t} : option (list Z) :=
  match t with
  | TPrim p => write_prim p v
  | TStruct _ fs => match v with VStruct vs => write_fields fs vs | _ => None end
  | TEnum _ size vars =>
      match v with VEnum n vs => write_variants size vars n vs | _ => None end
  | TString => match v with VStr s => Some (write_string (size_or_1 a) s) | _ => None end
  | TArray n =>
      match v with
      | VBytes bs => if (length bs =? n)%nat then Some bs else None
      | _ => None
      end
  | TVec inner =>
      match v with
      | VSeq vs => items ← mapM (write no_args inner) vs; Some (write_list a items)
      | _ => None
      end
  | TOption inner =>
      match v with
      | VOpt (Some x) =>
          bs ← write no_args inner x;
          Some ((if has_flag a then le_bytes 1 1 else []) ++ bs)
      | VOpt None => Some (if has_flag a then le_bytes 1 0 else [])
      | _ => None
      end
  | TTuple ts => match v with VStruct vs => write_fields ts vs | _ => None end
  end
with write_fields (fs : fields) (vs : list val) {struct fs} : option (list Z) :=
  match fs, vs with
  | NoField, [] => Some []
  | Field _ a t fs, v :: vs =>
      b1 ← write a t v; b2 ← write_fields fs vs; Some (b1 ++ b2)
  | _, _ => None
  end
with write_variants (size : Z) (vars : variants) (n : string) (vs : list val) {struct vars}
    : option (list Z) :=
  match vars with
  | NoVariant => None
  | Variant name value fs rest =>
      if String.eqb name n then
        d ← write_discriminant size value; b ← write_fields fs vs; Some (d ++ b)
      else write_variants size rest n vs
  end.

(** ** size.rs: [derive(ByteSize)] *)

Definition prim_size (p : prim) : Z :=
  match p with
  | PU8 | PBool | PRarity => 1
  | PU16 | PI16 => 2
  | PU32 | PI32 | PF32 | PSilkroadTime => 4
  | PU64 | PI64 | PF64 => 8
  | PDateTime => 16
  end.

Fixpoint byte_size (a : field_args) (t : ty) (v : val) {struct t} : Z :=
  match t with
  | TPrim p => prim_size p
  | TStruct _ fs => match v with VStruct vs => size_fields fs vs | _ => 0 end
  | TEnum _ size vars =>
      match v with VEnum n vs => size + size_variants vars n vs | _ => 0 end
  | TString => match v with VStr s => 2 + str_len s * size_or_1 a | _ => 0 end
  | TArray _ => match v with VBytes bs => Z.of_nat (length bs) | _ => 0 end
  | TVec inner =>
      match v with
      | VSeq vs =>
          let lt := list_type_or_default a in
          if String.eqb lt "break" || String.eqb lt "has-more" then
            1 + sumZ (map (fun x => byte_size no_args inner x + 1) vs)
          else 1 + sumZ (map (byte_size no_args inner) vs)
      | _ => 0
      end
  | TOption inner =>
      match v with
      | VOpt o => (if has_flag a then 1 else 0)
                  + match o with Some x => byte_size no_args inner x | None => 0 end
      | _ => 0
      end
  | TTuple ts => match v with VStruct vs => size_fields ts vs | _ => 0 end
  end
with size_fields (fs : fields) (vs : list val) {struct fs} : Z :=
  match fs, vs with
  | Field _ a t fs, v :: vs => byte_size a t v + size_fields fs vs
  | _, _ => 0
  end
with size_variants (vars : variants) (n : string) (vs : list val) {struct vars} : Z :=
  match vars with
  | NoVariant => 0
  | Variant name _ fs rest =>
      if String.eqb name n then size_fields fs vs else size_variants rest n vs
  end.

(** ** deserialize.rs: [derive(Deserialize)] *)

Inductive serialization_error :=
| IoError
| UnknownVariation (value : Z) (enum_name : string)
| StringParsingFailed
| Utf16ParsingFailed.

Definition reader (A : Type) := list Z -> outcome serialization_error (A * list Z).

Definition read_exact (n : nat) : reader (list Z) := fun bs => ok_or (take_exact n bs) IoError.

Definition read_uint (n : nat) : reader Z := fun bs =>
  '(x, r) ← read_exact n bs; Ok (le_num x, r).

Definition read_int (n : nat) : reader Z := fun bs =>
  '(x, r) ← read_uint n bs; Ok (swrap (8 * Z.of_nat n) x, r).

Fixpoint read_n {A} (n : nat) (rd : reader A) : reader (list A) := fun bs =>
  match n with
  | O => Ok ([], bs)
  | S n => '(x, r) ← rd bs; '(xs, r) ← read_n n rd r; Ok (x :: xs, r)
  end.

Definition read_prim (p : prim) : reader val := fun bs =>
  match p with
  | PU8 => '(x, r) ← read_uint 1 bs; Ok (VNum x, r)
  | PBool => '(x, r) ← read_uint 1 bs; Ok (VBool (x =? 1), r)
  | PU16 => '(x, r) ← read_uint 2 bs; Ok (VNum x, r)
  | PI16 => '(x, r) ← read_int 2 bs; Ok (VNum x, r)
  | PU32 | PF32 => '(x, r) ← read_uint 4 bs; Ok (VNum x, r)
  | PI32 => '(x, r) ← read_int 4 bs; Ok (VNum x, r)
  | PU64 | PF64 => '(x, r) ← read_uint 8 bs; Ok (VNum x, r)
  | PI64 => '(x, r) ← read_int 8 bs; Ok (VNum x, r)
  | PRarity =>
      '(x, r) ← read_uint 1 bs;
      match rarity_try_from x with
      | Some rarity => Ok (VRarity rarity, r)
      | None => Err (UnknownVariation x "EntityRarity")
      end
  | PSilkroadTime | PDateTime => Panic
  end.

Definition read_string (size : Z) : reader val := fun bs =>
  '(len, r) ← read_uint 2 bs;
  if size =? 1 then
    '(bytes, r) ← read_exact (Z.to_nat len) r;
    s ← ok_or (from_utf8 bytes) StringParsingFailed; Ok (VStr s, r)
  else
    '(units, r) ← read_n (Z.to_nat len) (read_uint 2) r;
    s ← ok_or (from_utf16 units) Utf16ParsingFailed; Ok (VStr s, r).

Fixpoint read (a : field_args) (env : scope) (t : ty) {struct t} : reader val := fun bs =>
  match t with
  | TPrim p => read_prim p bs
  | TStruct _ fs => '(vs, r) ← read_fields [] fs bs; Ok (VStruct vs, r)
  | TEnum name size vars =>
      '(tag, r) ← read_uint (Z.to_nat size) bs; read_variants name tag vars r
  | TString => read_string (size_or_1 a) bs
  | TArray n => '(x, r) ← read_exact n bs; Ok (VBytes x, r)
  | TVec inner =>
      '(size, r) ← read_uint 1 bs;
      '(vs, r) ← read_n (Z.to_nat size) (read no_args [] inner) r; Ok (VSeq vs, r)
  | TOption inner =>
      match a.(arg_when) with
      | Some condition =>
          if condition env then '(x, r) ← read no_args [] inner bs; Ok (VOpt (Some x), r)
          else Ok (VOpt None, bs)
      | None =>
          '(some, r) ← read_uint 1 bs;
          if some =? 1 then '(x, r) ← read no_args [] inner r; Ok (VOpt (Some x), r)
          else Ok (VOpt None, r)
      end
  | TTuple ts => '(vs, r) ← read_fields [] ts bs; Ok (VStruct vs, r)
  end
with read_fields (env : scope) (fs : fields) {struct fs} : reader (list val) := fun bs =>
  match fs with
  | NoField => Ok ([], bs)
  | Field name a t fs =>
      '(v, r) ← read a env t bs;
      '(vs, r) ← read_fields ((name, v) :: env) fs r; Ok (v :: vs, r)
  end
with read_variants (enum_name : string) (tag : Z) (vars : variants) {struct vars}
    : reader val := fun bs =>
  match vars with
  | NoVariant => Err (UnknownVariation tag enum_name)
  | Variant n value fs rest =>
      if match value with Some x => x =? tag | None => false end then
        '(vs, r) ← read_fields [] fs bs; Ok (VEnum n vs, r)
      else read_variants enum_name tag rest bs
  end.

(** [impl From<T> for Bytes] and [impl TryFrom<Bytes> for T]: bytes left over
    after the value are ignored. *)
Definition to_bytes (t : ty) (v : val) : option (list Z) := write no_args t v.
Definition try_from_bytes (t : ty) (bs : list Z) : outcome serialization_error val :=
  '(v, _) ← read no_args [] t bs; Ok v.
