(* ===== verification/SerdeFacts.v ===== *)
(** Correctness of the wire format of Serde.v: which declarations decode what
    they encode, that decoding is local and detects truncation, and when
    [byte_size] is the number of bytes written. *)
From stdpp Require Import base list option strings.
From Stdlib Require Import ZArith Lia.
From S2P Require Import Prelude Utf Definitions Serde.

(** ** Framed readers

    A framed reader consumes a prefix of its input, decides by that prefix
    alone, and reports an I/O error when the input stops inside of it. *)
Definition framed {A} (rd : reader A) : Prop :=
  forall bs v r, rd bs = Ok (v, r) ->
  exists c, bs = c ++ r
    /\ (forall r', rd (c ++ r') = Ok (v, r'))
    /\ (forall p s, c = p ++ s -> s <> [] -> rd p = Err IoError).

Lemma framed_ret {A} (v : A) : framed (fun bs => Ok (v, bs)).
Proof.
  intros bs v' r [= <- <-]. exists []. repeat split.
  intros p s H Hs. symmetry in H. apply app_eq_nil in H. tauto.
Qed.

Lemma framed_err {A} (m : outcome serialization_error (A * list Z)) :
  is_ok m = false -> framed (fun _ => m).
Proof. intros H bs v r E. rewrite E in H. discriminate. Qed.

Lemma app_eq_app_split {A} (p s c1 c2 : list A) :
  c1 ++ c2 = p ++ s ->
  (exists t, t <> [] /\ c1 = p ++ t /\ s = t ++ c2) \/ (exists p2, p = c1 ++ p2 /\ c2 = p2 ++ s).
Proof.
  intros H. apply app_eq_inv in H as [(k & -> & ->)|(k & -> & ->)].
  - destruct k as [|x k].
    + right. exists []. rewrite !app_nil_r. auto.
    + left. exists (x :: k). auto.
  - right. eauto.
Qed.

Lemma framed_bind {A B} (rd : reader A) (f : A -> reader B) :
  framed rd -> (forall v, framed (f v)) ->
  framed (fun bs => '(v, r) ← rd bs; f v r).
Proof.
  intros Hrd Hf bs v r E. apply bind_ok in E as ([v1 r1] & E1 & E2).
  destruct (Hrd _ _ _ E1) as (c1 & -> & L1 & T1).
  destruct (Hf v1 _ _ _ E2) as (c2 & -> & L2 & T2).
  exists (c1 ++ c2). rewrite app_assoc. split; [done|]. split.
  - intros r'. rewrite <- app_assoc, L1. simpl. apply L2.
  - intros p s Hps Hs. apply app_eq_app_split in Hps as [(t & Ht & -> & ->)|(p2 & -> & ->)].
    + rewrite (T1 p t) by auto. reflexivity.
    + rewrite L1. simpl. apply (T2 p2 s); auto.
Qed.

Lemma framed_map {A B} (rd : reader A) (g : A -> outcome serialization_error B) :
  framed rd -> framed (fun bs => '(v, r) ← rd bs; x ← g v; Ok (x, r)).
Proof.
  intros Hrd. apply (framed_bind rd (fun v r => x ← g v; Ok (x, r))); [done|].
  intros v bs x r E. destruct (g v) eqn:G; try discriminate.
  apply (framed_ret a). done.
Qed.

Lemma framed_read_exact n : framed (read_exact n).
Proof.
  intros bs v r E. unfold read_exact in *.
  destruct (take_exact n bs) as [[a b]|] eqn:T; [|discriminate].
  injection E as -> ->. apply take_exact_some in T as [-> Hn].
  exists v. split; [done|]. split.
  - intros r'. rewrite take_exact_app' by done. reflexivity.
  - intros p s -> Hs. unfold take_exact. rewrite length_app in Hn.
    destruct s; [done|]. simpl in Hn.
    destruct (Nat.leb_spec n (length p)); [lia|reflexivity].
Qed.

Lemma framed_ext {A} (rd rd' : reader A) : (forall bs, rd bs = rd' bs) -> framed rd -> framed rd'.
Proof.
  intros E H bs v r. rewrite <- E. intros Hr. destruct (H _ _ _ Hr) as (c & ? & L & T).
  exists c. split; [done|]. split; intros; rewrite <- E; eauto.
Qed.

Lemma framed_read_uint n : framed (read_uint n).
Proof. apply (framed_map _ (fun x => Ok (le_num x))), framed_read_exact. Qed.

Lemma framed_read_int n : framed (read_int n).
Proof. apply (framed_map _ (fun x => Ok (swrap (8 * Z.of_nat n) x))), framed_read_uint. Qed.

Lemma framed_read_n {A} n (rd : reader A) : framed rd -> framed (read_n n rd).
Proof.
  intros H. induction n as [|n IH]; simpl; [apply framed_ret|].
  apply (framed_bind rd (fun x r => '(xs, r) ← read_n n rd r; Ok (x :: xs, r))); [done|].
  intros x. apply (framed_map _ (fun xs => Ok (x :: xs))), IH.
Qed.

#[export] Hint Resolve framed_ret framed_read_exact framed_read_uint framed_read_int
  framed_read_n : skr.

Lemma framed_read_prim p : framed (read_prim p).
Proof.
  destruct p; unfold read_prim.
  all: try (apply framed_err; reflexivity).
  all: try (eapply (framed_map _ (fun x => Ok (VNum x))); auto with skr; fail).
  - apply (framed_map _ (fun x => Ok (VBool (x =? 1)))). auto with skr.
  - eapply framed_ext; [|apply (framed_map (read_uint 1) (fun x =>
      match rarity_try_from x with
      | Some rarity => Ok (VRarity rarity)
      | None => Err (UnknownVariation x "EntityRarity") end)); auto with skr].
    intros bs. simpl. destruct (read_uint 1 bs) as [[x r]| |]; try done. simpl.
    destruct (rarity_try_from x); done.
Qed.

Lemma framed_read_string size : framed (read_string size).
Proof.
  unfold read_string. apply (framed_bind (read_uint 2) (fun len r =>
    if size =? 1 then _ else _)); [auto with skr|].
  intros len. destruct (size =? 1).
  - eapply framed_ext; [|apply (framed_map (read_exact (Z.to_nat len)) (fun bytes =>
      s ← ok_or (from_utf8 bytes) StringParsingFailed; Ok (VStr s))); auto with skr].
    intros bs. simpl. destruct (read_exact _ bs) as [[x r]| |]; try done. simpl.
    destruct (from_utf8 x); done.
  - eapply framed_ext; [|apply (framed_map (read_n (Z.to_nat len) (read_uint 2)) (fun units =>
      s ← ok_or (from_utf16 units) Utf16ParsingFailed; Ok (VStr s))); auto with skr].
    intros bs. simpl. destruct (read_n _ _ bs) as [[x r]| |]; try done. simpl.
    destruct (from_utf16 x); done.
Qed.

Lemma framed_read_all :
  (forall t a env, framed (read a env t))
  /\ (forall fs env, framed (read_fields env fs))
  /\ (forall vars name tag, framed (read_variants name tag vars)).
Proof.
  apply ty_mutind; intros; simpl.
  - apply framed_read_prim.
  - apply (framed_map _ (fun vs => Ok (VStruct vs))). auto.
  - apply (framed_bind (read_uint _) (fun tag => read_variants name tag vs)); auto with skr.
  - apply framed_read_string.
  - apply (framed_map _ (fun vs => Ok (VBytes vs))). auto with skr.
  - apply (framed_bind (read_uint 1) (fun size r =>
      '(vs, r) ← read_n (Z.to_nat size) (read no_args [] t) r; Ok (VSeq vs, r))); [auto with skr|].
    intros size. apply (framed_map _ (fun vs => Ok (VSeq vs))). auto with skr.
  - destruct (arg_when a) as [c|]; [destruct (c env)|].
    + apply (framed_map _ (fun x => Ok (VOpt (Some x)))). auto.
    + apply framed_ret.
    + apply (framed_bind (read_uint 1) (fun some r => if some =? 1 then
        '(x, r) ← read no_args [] t r; Ok (VOpt (Some x), r) else Ok (VOpt None, r)));
        [auto with skr|].
      intros some. destruct (some =? 1); [|apply framed_ret].
      apply (framed_map _ (fun x => Ok (VOpt (Some x)))). auto.
  - apply (framed_map _ (fun vs => Ok (VStruct vs))). auto.
  - apply framed_ret.
  - apply (framed_bind (read a env t) (fun v r =>
      '(vs, r) ← read_fields ((name, v) :: env) fs r; Ok (v :: vs, r))); [auto|].
    intros v. apply (framed_map _ (fun vs => Ok (v :: vs))). auto.
  - apply framed_err. reflexivity.
  - destruct (match value with Some x => x =? tag | None => false end); [|auto].
    apply (framed_map _ (fun vs => Ok (VEnum name vs))). auto.
Qed.

(** ** Legal values and decodable declarations

    [encodable] is Rust's typing of a value together with the limits of the
    wire: a string has fewer than 2^16 bytes, a counted list has fewer
    elements than its counter can hold, an [Option] with [when] is present
    exactly when its condition holds, and a string of width 2 is ASCII, since
    its length prefix counts UTF-8 bytes. *)
Definition encodable_prim (p : prim) (v : val) : bool :=
  match p, v with
  | PU8, VNum z => fits 8 z
  | PBool, VBool _ => true
  | PU16, VNum z => fits 16 z
  | PI16, VNum z => sfits 16 z
  | (PU32 | PF32), VNum z => fits 32 z
  | PI32, VNum z => sfits 32 z
  | (PU64 | PF64), VNum z => fits 64 z
  | PI64, VNum z => sfits 64 z
  | PRarity, VRarity _ => true
  | (PSilkroadTime | PDateTime), VTime _ => true
  | _, _ => false
  end.

Definition encodable_string (size : Z) (s : list Z) : bool :=
  is_string s && (str_len s <? 2 ^ 16) && ((size =? 1) || is_ascii s).

Fixpoint encodable (a : field_args) (env : scope) (t : ty) (v : val) {struct t} : bool :=
  match t, v with
  | TPrim p, _ => encodable_prim p v
  | TStruct _ fs, VStruct vs => encodable_fields [] fs vs
  | TEnum _ _ vars, VEnum n vs => encodable_variants vars n vs
  | TString, VStr s => encodable_string (size_or_1 a) s
  | TArray n, VBytes bs => (length bs =? n)%nat && bytes_ok bs
  | TVec inner, VSeq vs =>
      forallb (encodable no_args [] inner) vs
      && (negb (String.eqb (list_type_or_default a) "length")
          || (Z.of_nat (length vs) <? 2 ^ (8 * Z.of_nat (length_width (size_or_1 a)))))
  | TOption inner, VOpt o =>
      match o with Some x => encodable no_args [] inner x | None => true end
      && match a.(arg_when) with
         | Some condition => Bool.eqb (condition env) (bool_decide (is_Some o))
         | None => true
         end
  | TTuple ts, VStruct vs => encodable_fields [] ts vs
  | _, _ => false
  end
with encodable_fields (env : scope) (fs : fields) (vs : list val) {struct fs} : bool :=
  match fs, vs with
  | NoField, [] => true
  | Field name a t fs, v :: vs =>
      encodable a env t v && encodable_fields ((name, v) :: env) fs vs
  | _, _ => false
  end
with encodable_variants (vars : variants) (n : string) (vs : list val) {struct vars} : bool :=
  match vars with
  | NoVariant => false
  | Variant name _ fs rest =>
      if String.eqb name n then encodable_fields [] fs vs else encodable_variants rest n vs
  end.

Fixpoint tags (vars : variants) : list (option Z) :=
  match vars with
  | NoVariant => []
  | Variant _ value _ rest => value :: tags rest
  end.

Fixpoint names (vars : variants) : list string :=
  match vars with
  | NoVariant => []
  | Variant name _ _ rest => name :: names rest
  end.

(** The declarations [derive(Deserialize)] supports in the layout
    [derive(Serialize)] writes, with strings of the given widths. *)
Fixpoint decodable (widths : list Z) (a : field_args) (t : ty) {struct t} : bool :=
  match t with
  | TPrim (PSilkroadTime | PDateTime) => false
  | TPrim _ => true
  | TStruct _ fs => decodable_fields widths fs
  | TEnum _ size vars => existsb (Z.eqb size) [1; 2; 4; 8] && decodable_variants widths size vars
  | TString => existsb (Z.eqb (size_or_1 a)) widths
  | TArray _ => true
  | TVec inner =>
      String.eqb (list_type_or_default a) "length" && (size_or_1 a =? 1)
      && decodable widths no_args inner
  | TOption inner =>
      (bool_decide (is_Some a.(arg_when)) || has_flag a) && decodable widths no_args inner
  | TTuple ts => decodable_fields widths ts
  end
with decodable_fields (widths : list Z) (fs : fields) {struct fs} : bool :=
  match fs with
  | NoField => true
  | Field _ a t fs => decodable widths a t && decodable_fields widths fs
  end
with decodable_variants (widths : list Z) (size : Z) (vars : variants) {struct vars} : bool :=
  match vars with
  | NoVariant => true
  | Variant name value fs rest =>
      match value with Some x => fits (8 * size) x | None => false end
      && negb (bool_decide (value ∈ tags rest)) && negb (bool_decide (name ∈ names rest))
      && decodable_fields widths fs && decodable_variants widths size rest
  end.

(** Encoding then decoding, at one declaration and value. *)
Definition round_trips {A} (w : option (list Z)) (rd : reader A) (v : A) : Prop :=
  exists bs, w = Some bs /\ bytes_ok bs = true /\ forall rest, rd (bs ++ rest) = Ok (v, rest).

Lemma read_exact_app n bs rest : length bs = n -> read_exact n (bs ++ rest) = Ok (bs, rest).
Proof. intros H. unfold read_exact. rewrite take_exact_app' by done. reflexivity. Qed.

Lemma read_uint_le n z rest :
  read_uint n (le_bytes n z ++ rest) = Ok (wrap (8 * Z.of_nat n) z, rest).
Proof.
  unfold read_uint. rewrite read_exact_app by apply le_bytes_length. simpl.
  rewrite le_num_bytes. reflexivity.
Qed.

Lemma read_int_le n z rest :
  (0 < n)%nat ->
  read_int n (le_bytes n z ++ rest) = Ok (swrap (8 * Z.of_nat n) z, rest).
Proof.
  intros Hn. unfold read_int. rewrite read_uint_le. simpl. rewrite swrap_wrap by lia. reflexivity.
Qed.

Lemma write_prim_round_trips p v :
  decodable [] no_args (TPrim p) = true -> encodable_prim p v = true ->
  round_trips (write_prim p v) (read_prim p) v.
Proof.
  intros Hd He. destruct p, v; try discriminate; simpl in He.
  all: eexists; split; [reflexivity|]; split; [apply le_bytes_ok|]; intros rest; unfold read_prim.
  all: try (rewrite read_uint_le; simpl; rewrite wrap_small by assumption; reflexivity).
  all: try (rewrite read_int_le by lia; simpl; rewrite swrap_small by (assumption || lia); reflexivity).
  - rewrite read_uint_le. destruct b; reflexivity.
  - rewrite read_uint_le. simpl. rewrite wrap_small by apply rarity_into_u8.
    rewrite rarity_try_from_into. reflexivity.
Qed.

Lemma concat_le_bytes_length n (l : list Z) :
  length (concat (map (le_bytes n) l)) = (n * length l)%nat.
Proof. induction l; simpl; rewrite ?length_app, ?le_bytes_length; lia. Qed.

Lemma concat_bytes_ok (ls : list (list Z)) :
  Forall (fun l => bytes_ok l = true) ls -> bytes_ok (concat ls) = true.
Proof. induction 1; [reflexivity|]. simpl. rewrite bytes_ok_app, andb_true_iff. auto. Qed.

Lemma read_units_le (l : list Z) rest :
  forallb (fits 16) l = true ->
  read_n (length l) (read_uint 2) (concat (map (le_bytes 2) l) ++ rest) = Ok (l, rest).
Proof.
  induction l as [|z l IH]; [reflexivity|]. cbn [forallb].
  rewrite andb_true_iff. intros [Hz Hl]. specialize (IH Hl).
  cbn [length map concat read_n]. rewrite <- app_assoc, read_uint_le. cbn [mbind outcome_bind].
  rewrite IH, wrap_small by assumption. reflexivity.
Qed.

Lemma write_string_round_trips size s :
  existsb (Z.eqb size) [1; 2] = true -> encodable_string size s = true ->
  round_trips (Some (write_string size s)) (read_string size) (VStr s).
Proof.
  unfold encodable_string. intros Hs He. apply andb_true_iff in He as [He Hw].
  apply andb_true_iff in He as [Hstr Hlen]. apply Z.ltb_lt in Hlen.
  assert (Hfit : fits 16 (str_len s) = true) by (apply fits_spec; unfold str_len in *; lia).
  eexists. split; [reflexivity|]. unfold write_string, read_string.
  destruct (Z.eqb_spec size 1) as [->|Hne].
  - split; [rewrite bytes_ok_app, le_bytes_ok; apply as_bytes_ok; assumption|].
    intros rest. rewrite <- app_assoc, read_uint_le. cbn -[read_exact].
    rewrite wrap_small by assumption.
    rewrite read_exact_app by (unfold str_len; lia). simpl.
    rewrite from_utf8_as_bytes by assumption. reflexivity.
  - simpl in Hw. split.
    { rewrite bytes_ok_app, le_bytes_ok. apply concat_bytes_ok, Forall_forall.
      intros x Hx. apply list_elem_of_fmap in Hx as (y & -> & _). apply le_bytes_ok. }
    intros rest. rewrite <- app_assoc, read_uint_le. cbn [mbind outcome_bind].
    rewrite wrap_small by assumption. unfold str_len.
    rewrite Nat2Z.id, as_bytes_ascii, <- encode_utf16_ascii by assumption.
    rewrite read_units_le by (apply encode_utf16_fits; assumption).
    cbn [mbind outcome_bind]. rewrite from_utf16_encode by assumption. reflexivity.
Qed.

Lemma write_items_round_trip (w : val -> option (list Z)) (rd : reader val) vs :
  Forall (fun v => round_trips (w v) rd v) vs ->
  exists items, mapM w vs = Some items /\ length items = length vs
    /\ bytes_ok (concat items) = true
    /\ forall rest, read_n (length vs) rd (concat items ++ rest) = Ok (vs, rest).
Proof.
  induction 1 as [|v vs (bs & Hw & Hb & Hr) Hvs (items & E & L & B & IH)].
  - exists []. repeat split.
  - exists (bs :: items). simpl. rewrite Hw, E. simpl. repeat split.
    + f_equal. assumption.
    + rewrite bytes_ok_app, Hb. assumption.
    + intros rest. rewrite <- app_assoc, Hr. simpl. rewrite IH. reflexivity.
Qed.

Lemma round_trips_bind {A B} (w1 w2 : option (list Z)) (rd1 : reader A) (v1 : A)
    (k : A -> reader B) (v2 : B) :
  round_trips w1 rd1 v1 -> round_trips w2 (k v1) v2 ->
  round_trips (b1 ← w1; b2 ← w2; Some (b1 ++ b2)) (fun bs => '(v, r) ← rd1 bs; k v r) v2.
Proof.
  intros (b1 & -> & B1 & R1) (b2 & -> & B2 & R2). exists (b1 ++ b2). simpl. split; [done|].
  split; [rewrite bytes_ok_app, B1; assumption|].
  intros rest. rewrite <- app_assoc, R1. apply R2.
Qed.

Lemma round_trips_map {A B} (w : option (list Z)) (rd : reader A) (v : A) (g : A -> B) :
  round_trips w rd v -> round_trips w (fun bs => '(x, r) ← rd bs; Ok (g x, r)) (g v).
Proof.
  intros (bs & -> & B1 & R). exists bs. repeat split; [assumption|].
  intros rest. rewrite R. reflexivity.
Qed.

Lemma round_trips_flag {B} (f : Z) (w : option (list Z)) (k : Z -> reader B) (v : B) :
  fits 8 f = true -> round_trips w (k f) v ->
  round_trips (b ← w; Some (le_bytes 1 f ++ b)) (fun bs => '(x, r) ← read_uint 1 bs; k x r) v.
Proof.
  intros Hf (bs & -> & B1 & R). exists (le_bytes 1 f ++ bs). split; [reflexivity|].
  split; [rewrite bytes_ok_app, le_bytes_ok; assumption|].
  intros rest. rewrite <- app_assoc, read_uint_le. cbn [mbind outcome_bind].
  rewrite wrap_small by assumption. apply R.
Qed.

Lemma write_vec_round_trips a inner vs :
  list_type_or_default a = "length"%string -> size_or_1 a = 1 ->
  Z.of_nat (length vs) < 256 ->
  Forall (fun v => round_trips (write no_args inner v) (read no_args [] inner) v) vs ->
  round_trips (write a (TVec inner) (VSeq vs)) (fun bs => read a [] (TVec inner) bs) (VSeq vs).
Proof.
  intros Hl Hs Hn H. cbn [write read].
  destruct (write_items_round_trip _ _ _ H) as (items & E & L & B & R). rewrite E.
  cbn [mbind option_bind]. unfold write_list. rewrite Hl, Hs. cbn [String.eqb Ascii.eqb Bool.eqb].
  eexists. split; [reflexivity|]. split.
  { rewrite bytes_ok_app, le_bytes_ok. assumption. }
  intros rest. rewrite <- app_assoc, L. cbn [length_width].
  rewrite read_uint_le. cbn [mbind outcome_bind].
  rewrite wrap_small by (apply fits_spec; lia). rewrite Nat2Z.id, R. reflexivity.
Qed.

Lemma write_option_round_trips a env inner o :
  bool_decide (is_Some a.(arg_when)) || has_flag a = true ->
  match a.(arg_when) with
  | Some condition => Bool.eqb (condition env) (bool_decide (is_Some o))
  | None => true
  end = true ->
  (forall x, o = Some x -> round_trips (write no_args inner x) (read no_args [] inner) x) ->
  round_trips (write a (TOption inner) (VOpt o)) (fun bs => read a env (TOption inner) bs) (VOpt o).
Proof.
  intros Hd Hw Hx. cbn [write read]. unfold has_flag in *.
  destruct (arg_when a) as [c|]; [apply eqb_prop in Hw; rewrite Hw|simpl in Hd; rewrite Hd].
  - destruct o as [x|].
    + destruct (round_trips_map _ _ _ (fun x => VOpt (Some x)) (Hx x eq_refl)) as (bs & E & HB & R).
      exists bs. rewrite E. repeat split; [assumption|]. exact R.
    + exists []. repeat split.
  - destruct o as [x|].
    + apply (round_trips_flag 1 _ (fun some r => if some =? 1 then
        '(x, r) ← read no_args [] inner r; Ok (VOpt (Some x), r) else Ok (VOpt None, r)));
        [reflexivity|].
      apply (round_trips_map _ _ _ (fun x => VOpt (Some x)) (Hx x eq_refl)).
    + exists (le_bytes 1 0). repeat split.
Qed.

Lemma decode_encode_all :
  (forall t a env v, decodable [1; 2] a t = true -> encodable a env t v = true ->
     round_trips (write a t v) (read a env t) v)
  /\ (forall fs env vs, decodable_fields [1; 2] fs = true -> encodable_fields env fs vs = true ->
        round_trips (write_fields fs vs) (read_fields env fs) vs)
  /\ (forall vars enum_name size n vs, decodable_variants [1; 2] size vars = true ->
        existsb (Z.eqb size) [1; 2; 4; 8] = true ->
        encodable_variants vars n vs = true ->
        exists tag b, Some tag ∈ tags vars /\ fits (8 * size) tag = true
          /\ write_variants size vars n vs = Some (le_bytes (Z.to_nat size) tag ++ b)
          /\ round_trips (Some b) (read_variants enum_name tag vars) (VEnum n vs)).
Proof.
  apply ty_mutind.
  - intros p a env v Hd He. apply write_prim_round_trips; assumption.
  - intros name fs IH a env v Hd He. destruct v; try discriminate.
    apply (round_trips_map _ _ _ VStruct), IH; assumption.
  - intros name size vars IH a env v Hd He. destruct v as [| | | | | | | | |n vs]; try discriminate.
    cbn [decodable] in Hd. apply andb_true_iff in Hd as [Hs Hd].
    destruct (IH name size n vs Hd Hs He) as (tag & b & _ & Hf & E & R).
    cbn [write read]. rewrite E. destruct R as (? & [= <-] & HB & R).
    eexists. split; [reflexivity|]. split; [rewrite bytes_ok_app, le_bytes_ok; assumption|].
    intros rest. rewrite <- app_assoc, read_uint_le. cbn [mbind outcome_bind].
    apply existsb_exists in Hs as (s' & Hin & Hs). apply Z.eqb_eq in Hs as <-.
    rewrite wrap_small; [apply R|]. replace (Z.of_nat (Z.to_nat size)) with size; [assumption|].
    simpl in Hin. lia.
  - intros a env v Hd He. destruct v; try discriminate. apply write_string_round_trips; assumption.
  - intros n a env v Hd He. destruct v; try discriminate. cbn [encodable] in He.
    apply andb_true_iff in He as [Hn Hb]. cbn [write read]. rewrite Hn.
    exists bs. repeat split; [assumption|]. intros rest.
    rewrite read_exact_app by (apply Nat.eqb_eq; assumption). reflexivity.
  - intros t IH a env v Hd He. destruct v; try discriminate. cbn [encodable decodable] in *.
    apply andb_true_iff in He as [Hv Hl], Hd as [Hd Ht]. apply andb_true_iff in Hd as [Hlt Hs].
    apply String.eqb_eq in Hlt. apply Z.eqb_eq in Hs.
    apply write_vec_round_trips; try assumption.
    + rewrite Hlt, Hs in Hl. cbn [String.eqb Ascii.eqb Bool.eqb negb orb length_width] in Hl.
      apply Z.ltb_lt in Hl. change (2 ^ (8 * Z.of_nat 1)) with 256 in Hl. assumption.
    + apply Forall_forall. intros x Hx. apply IH; [assumption|].
      apply (proj1 (forallb_forall _ _) Hv). apply list_elem_of_In. assumption.
  - intros t IH a env v Hd He. destruct v as [| | | | | | |o| |]; try discriminate.
    cbn [encodable decodable] in *.
    apply andb_true_iff in He as [Hv Hw], Hd as [Hd Ht].
    apply write_option_round_trips; try assumption. intros x ->. apply IH; assumption.
  - intros ts IH a env v Hd He. destruct v; try discriminate.
    apply (round_trips_map _ _ _ VStruct), IH; assumption.
  - intros env [|v vs] _ He; [|discriminate]. exists []. repeat split.
  - intros name a t IHt fs IHfs env [|v vs] Hd He; [discriminate|].
    cbn [decodable_fields encodable_fields] in *.
    apply andb_true_iff in Hd as [Hd1 Hd2], He as [He1 He2]. cbn [write_fields read_fields].
    apply (round_trips_bind _ _ _ v (fun v r => '(vs, r) ← read_fields ((name, v) :: env) fs r;
      Ok (v :: vs, r))); [auto|].
    apply (round_trips_map _ _ _ (cons v)). auto.
  - intros enum_name size n vs _ _ He. discriminate.
  - intros name value fs IHfs rest IHrest enum_name size n vs Hd Hs He.
    cbn [decodable_variants encodable_variants write_variants tags] in *.
    apply andb_true_iff in Hd as [Hd Hrest]. apply andb_true_iff in Hd as [Hd Hfs].
    apply andb_true_iff in Hd as [Hd _]. apply andb_true_iff in Hd as [Hval Hnin]. destruct value as [x|]; [|discriminate].
    destruct (String.eqb_spec name n) as [<-|Hne].
    + destruct (IHfs [] vs Hfs He) as (b & Eb & HB & R). exists x, b.
      rewrite Eb. unfold write_discriminant.
      replace (0 <? size) with true by (simpl in Hs; lia).
      repeat split; [constructor|assumption|]. exists b. repeat split; [assumption|].
      intros r. cbn [read_variants]. rewrite Z.eqb_refl, R. reflexivity.
    + destruct (IHrest enum_name size n vs Hrest Hs He) as (tag & b & Hin & Hf & E & R).
      exists tag, b. rewrite E. repeat split; [constructor; assumption|assumption|].
      destruct R as (? & [= <-] & HB & R). exists b. repeat split; [assumption|].
      intros r. cbn [read_variants]. destruct (Z.eqb_spec x tag) as [->|_]; [|apply R].
      rewrite bool_decide_eq_true_2 in Hnin by assumption. discriminate.
Qed.

(** ** The declared size *)

(** The declarations whose [byte_size] is the number of bytes written: every
    list is framed with one-byte markers or a one-byte length. *)
Fixpoint size_exact (a : field_args) (t : ty) {struct t} : bool :=
  match t with
  | TPrim _ | TArray _ => true
  | TStruct _ fs => size_exact_fields fs
  | TEnum _ size vars => (0 <=? size) && size_exact_variants vars
  | TString => existsb (Z.eqb (size_or_1 a)) [1; 2]
  | TVec inner =>
      existsb (String.eqb (list_type_or_default a)) ["length"; "break"; "has-more"]%string
      && (size_or_1 a =? 1) && size_exact no_args inner
  | TOption inner => size_exact no_args inner
  | TTuple ts => size_exact_fields ts
  end
with size_exact_fields (fs : fields) {struct fs} : bool :=
  match fs with
  | NoField => true
  | Field _ a t fs => size_exact a t && size_exact_fields fs
  end
with size_exact_variants (vars : variants) {struct vars} : bool :=
  match vars with
  | NoVariant => true
  | Variant _ _ fs rest => size_exact_fields fs && size_exact_variants rest
  end.

Definition has_size (w : option (list Z)) (n : Z) : Prop :=
  forall bs, w = Some bs -> Z.of_nat (length bs) = n.

Lemma has_size_bind w1 w2 n1 n2 :
  has_size w1 n1 -> has_size w2 n2 ->
  has_size (b1 ← w1; b2 ← w2; Some (b1 ++ b2)) (n1 + n2).
Proof.
  intros H1 H2 bs. destruct w1 as [b1|], w2 as [b2|]; try discriminate.
  simpl. intros [= <-]. rewrite length_app. specialize (H1 _ eq_refl). specialize (H2 _ eq_refl). lia.
Qed.

Lemma write_prim_size p v : has_size (write_prim p v) (prim_size p).
Proof. intros bs. destruct p, v; try discriminate; intros [= <-]; reflexivity. Qed.

Lemma write_string_size size s :
  existsb (Z.eqb size) [1; 2] = true -> encodable_string size s = true ->
  Z.of_nat (length (write_string size s)) = 2 + str_len s * size.
Proof.
  unfold encodable_string, write_string, str_len. intros Hs He. apply andb_true_iff in He as [_ Hw].
  rewrite length_app, le_bytes_length. destruct (Z.eqb_spec size 1) as [->|Hne]; [lia|].
  simpl in Hw. rewrite concat_le_bytes_length, encode_utf16_ascii, as_bytes_ascii by assumption.
  simpl in Hs. lia.
Qed.

Lemma write_items_size (w : val -> option (list Z)) (sz : val -> Z) vs :
  Forall (fun v => has_size (w v) (sz v)) vs ->
  forall items, mapM w vs = Some items ->
  map (fun i => Z.of_nat (length i)) items = map sz vs.
Proof.
  induction 1 as [|v vs Hv Hvs IH]; intros items E; [injection E as <-; reflexivity|].
  simpl in E. destruct (w v) as [b|] eqn:Eb; [|discriminate].
  destruct (mapM w vs) as [items'|]; [|discriminate]. injection E as <-.
  simpl. f_equal; [apply Hv; congruence|apply IH; reflexivity].
Qed.

Lemma concat_length_sumZ (ls : list (list Z)) :
  Z.of_nat (length (concat ls)) = sumZ (map (fun i => Z.of_nat (length i)) ls).
Proof. induction ls; [reflexivity|]. simpl. rewrite length_app. unfold sumZ in *. simpl. lia. Qed.

Lemma write_list_size a (items : list (list Z)) :
  existsb (String.eqb (list_type_or_default a)) ["length"; "break"; "has-more"]%string = true ->
  size_or_1 a = 1 ->
  Z.of_nat (length (write_list a items))
  = (let lt := list_type_or_default a in
     1 + sumZ (map (fun i => Z.of_nat (length i)
                             + if String.eqb lt "break" || String.eqb lt "has-more" then 1 else 0) items)).
Proof.
  intros Hl Hs. unfold write_list. rewrite Hs.
  assert (M : forall n, Z.of_nat (length (concat (map (app (le_bytes (Z.to_nat 1) n)) items)))
     = sumZ (map (fun i => Z.of_nat (length i) + 1) items)).
  { intros n. rewrite concat_length_sumZ, map_map. f_equal. apply map_ext. intros i. simpl. lia. }
  cbn [existsb] in Hl. cbn zeta.
  destruct (String.eqb (list_type_or_default a) "break");
    [|destruct (String.eqb (list_type_or_default a) "has-more");
      [|destruct (String.eqb (list_type_or_default a) "length"); [|discriminate]]].
  - rewrite length_app, le_bytes_length, Nat2Z.inj_add, M. cbn [orb]. lia.
  - rewrite length_app, le_bytes_length, Nat2Z.inj_add, M. cbn [orb]. lia.
  - rewrite length_app, le_bytes_length, Nat2Z.inj_add, concat_length_sumZ. cbn [orb].
    rewrite (map_ext (fun i : list Z => Z.of_nat (length i) + 0) (fun i => Z.of_nat (length i)))
      by (intros; lia). reflexivity.
Qed.

Lemma byte_size_all :
  (forall t a env v, size_exact a t = true -> encodable a env t v = true ->
     has_size (write a t v) (byte_size a t v))
  /\ (forall fs env vs, size_exact_fields fs = true -> encodable_fields env fs vs = true ->
        has_size (write_fields fs vs) (size_fields fs vs))
  /\ (forall vars size n vs, size_exact_variants vars = true -> 0 <= size ->
        encodable_variants vars n vs = true ->
        has_size (write_variants size vars n vs) (size + size_variants vars n vs)).
Proof.
  apply ty_mutind.
  - intros p a env v _ _. apply write_prim_size.
  - intros name fs IH a env v Hx He. destruct v; try discriminate. apply (IH []); assumption.
  - intros name size vars IH a env v Hx He. destruct v; try discriminate.
    cbn [size_exact] in Hx. apply andb_true_iff in Hx as [Hs Hx]. apply Z.leb_le in Hs.
    apply IH; assumption.
  - intros a env v Hx He. destruct v; try discriminate. intros bs [= <-].
    apply write_string_size; assumption.
  - intros n a env v _ He. destruct v; try discriminate. cbn [write byte_size].
    intros b. destruct (length bs =? n)%nat; [|discriminate]. intros [= <-]. reflexivity.
  - intros t IH a env v Hx He. destruct v; try discriminate. cbn [encodable size_exact] in *.
    apply andb_true_iff in He as [Hv _], Hx as [Hx Ht]. apply andb_true_iff in Hx as [Hl Hs].
    apply Z.eqb_eq in Hs. intros bs. cbn [write byte_size].
    destruct (mapM (write no_args t) vs) as [items|] eqn:E; [|discriminate].
    intros [= <-]. rewrite write_list_size by assumption. cbn zeta.
    assert (Hf : Forall (fun v => has_size (write no_args t v) (byte_size no_args t v)) vs).
    { apply Forall_forall. intros x Hx. apply (IH _ []); [assumption|].
      apply (proj1 (forallb_forall _ _) Hv). apply list_elem_of_In. assumption. }
    pose proof (write_items_size _ _ _ Hf _ E) as M.
    rewrite <- (map_map (fun i => Z.of_nat (length i)) (fun n => n +
      if String.eqb (list_type_or_default a) "break" || String.eqb (list_type_or_default a) "has-more"
      then 1 else 0)), M, map_map.
    destruct (String.eqb _ "break" || String.eqb _ "has-more"); [reflexivity|].
    do 2 f_equal. apply map_ext. intros; lia.
  - intros t IH a env v Hx He. destruct v as [| | | | | | |o| |]; try discriminate.
    cbn [encodable size_exact] in *. apply andb_true_iff in He as [Hv _].
    intros bs. cbn [write byte_size]. destruct o as [x|].
    + destruct (write no_args t x) as [b|] eqn:E; [|discriminate].
      intros [= <-]. rewrite length_app, <- (IH no_args [] x Hx Hv b E).
      destruct (has_flag a); simpl; lia.
    + intros [= <-]. destruct (has_flag a); reflexivity.
  - intros ts IH a env v Hx He. destruct v; try discriminate. eapply IH; eassumption.
  - intros env [|v vs] _ He; [|discriminate]. intros bs [= <-]. reflexivity.
  - intros name a t IHt fs IHfs env [|v vs] Hx He; [discriminate|].
    cbn [size_exact_fields encodable_fields] in *.
    apply andb_true_iff in Hx as [Hx1 Hx2], He as [He1 He2].
    apply has_size_bind; eauto.
  - intros size n vs _ _ He. discriminate.
  - intros name value fs IHfs rest IHrest size n vs Hx Hs He.
    cbn [size_exact_variants encodable_variants write_variants size_variants] in *.
    apply andb_true_iff in Hx as [Hx1 Hx2].
    destruct (String.eqb_spec name n) as [<-|Hne]; [|apply IHrest; assumption].
    apply has_size_bind; [|eapply IHfs; eassumption].
    intros bs. unfold write_discriminant. destruct (Z.ltb_spec 0 size).
    + destruct value; [|discriminate]. intros [= <-]. rewrite le_bytes_length. lia.
    + intros [= <-]. simpl. lia.
Qed.

(** ** What the decoder accepts *)

(** The reader yields legal values, from well-formed bytes. *)
Definition yields {A} (rd : reader A) (P : A -> Prop) : Prop :=
  forall bs v r, bytes_ok bs = true -> rd bs = Ok (v, r) -> P v /\ bytes_ok r = true.

Lemma yields_bind {A B} (rd : reader A) (P : A -> Prop) (k : A -> reader B) (Q : B -> Prop) :
  yields rd P -> (forall v, P v -> yields (k v) Q) -> yields (fun bs => '(v, r) ← rd bs; k v r) Q.
Proof.
  intros H Hk bs v r Hb E. apply bind_ok in E as ([v1 r1] & E1 & E2).
  destruct (H _ _ _ Hb E1) as [Hv Hr]. exact (Hk v1 Hv _ _ _ Hr E2).
Qed.

Lemma yields_ret {A} (v : A) (P : A -> Prop) : P v -> yields (fun bs => Ok (v, bs)) P.
Proof. intros H bs v' r Hb [= <- <-]. auto. Qed.

Lemma yields_err {A} (m : outcome serialization_error (A * list Z)) P :
  is_ok m = false -> yields (fun _ => m) P.
Proof. intros H bs v r _ E. rewrite E in H. discriminate. Qed.

Lemma yields_read_exact n : yields (read_exact n) (fun bs => length bs = n /\ bytes_ok bs = true).
Proof.
  intros bs v r Hb E. unfold read_exact in E.
  destruct (take_exact n bs) as [[a b]|] eqn:T; [|discriminate].
  injection E as -> ->. apply take_exact_some in T as [-> Hn].
  rewrite bytes_ok_app in Hb. apply andb_true_iff in Hb. tauto.
Qed.

Lemma yields_read_uint n : yields (read_uint n) (fun z => fits (8 * Z.of_nat n) z = true).
Proof.
  eapply yields_bind; [apply yields_read_exact|]. intros v [<- Hb].
  apply yields_ret, fits_spec, le_num_range, Hb.
Qed.

Lemma swrap_range w z : 0 < w -> sfits w (swrap w z) = true.
Proof.
  intros Hw. apply sfits_spec. unfold swrap.
  assert (E : 2 ^ w = 2 * 2 ^ (w - 1)) by (rewrite <- Z.pow_succ_r by lia; f_equal; lia).
  assert (0 < 2 ^ (w - 1)) by (apply Z.pow_pos_nonneg; lia).
  pose proof (Z.mod_pos_bound (z + 2 ^ (w - 1)) (2 ^ w)). lia.
Qed.

Lemma yields_read_int n : (0 < n)%nat ->
  yields (read_int n) (fun z => sfits (8 * Z.of_nat n) z = true).
Proof.
  intros Hn. eapply yields_bind; [apply yields_read_uint|]. intros v _.
  apply yields_ret, swrap_range. lia.
Qed.

Lemma yields_read_n {A} n (rd : reader A) P :
  yields rd P -> yields (read_n n rd) (fun vs => length vs = n /\ Forall P vs).
Proof.
  intros H. induction n as [|n IH]; [apply yields_ret; auto|].
  eapply (yields_bind rd P (fun x r => '(xs, r) ← read_n n rd r; Ok (x :: xs, r))); [done|].
  intros x Hx. eapply (yields_bind (read_n n rd)); [exact IH|]. intros xs [Hl Hxs].
  apply yields_ret. simpl. auto.
Qed.

Lemma yields_read_prim p : yields (read_prim p) (fun v => encodable_prim p v = true).
Proof.
  destruct p; try (apply yields_err; reflexivity).
  all: try (eapply yields_bind; [apply yields_read_uint|]; intros v Hv; apply yields_ret; first [exact Hv | reflexivity]).
  all: try (eapply yields_bind; [apply yields_read_int; lia|]; intros v Hv; apply yields_ret; first [exact Hv | reflexivity]).
  - eapply (yields_bind (read_uint 1) (fun _ => True)).
    { intros bs v r Hb E. split; [done|]. apply (yields_read_uint 1 _ _ _ Hb E). }
    intros v _ bs w r Hb E. cbn beta in E. destruct (rarity_try_from v); inversion E; subst; auto.
Qed.

Lemma yields_read_string :
  yields (read_string 1) (fun v => exists s, v = VStr s /\ encodable_string 1 s = true).
Proof.
  eapply (yields_bind (read_uint 2)); [apply yields_read_uint|]. intros len Hlen.
  eapply (yields_bind (read_exact (Z.to_nat len))); [apply yields_read_exact|].
  intros bytes [Hl Hb] bs v r Hr E. apply bind_ok in E as (s & E & [= <- <-]).
  split; [|assumption]. exists s. split; [done|].
  destruct (from_utf8 bytes) as [s'|] eqn:Es; [|discriminate]. injection E as ->.
  apply from_utf8_sound in Es as [Hs <-]; [|assumption].
  unfold encodable_string, str_len. rewrite Hs, Hl. apply fits_spec in Hlen.
  change (8 * Z.of_nat 2) with 16 in Hlen.
  simpl. rewrite andb_true_r. apply Z.ltb_lt. lia.
Qed.

Lemma variants_names_encodable vars n vs :
  encodable_variants vars n vs = true -> n ∈ names vars.
Proof.
  induction vars as [|name value fs rest IH]; [discriminate|].
  cbn [encodable_variants names]. destruct (String.eqb_spec name n) as [->|]; constructor; auto.
Qed.

Lemma read_encodable_all :
  (forall t a env, decodable [1] a t = true ->
     yields (read a env t) (fun v => encodable a env t v = true))
  /\ (forall fs env, decodable_fields [1] fs = true ->
        yields (read_fields env fs) (fun vs => encodable_fields env fs vs = true))
  /\ (forall vars name tag size, decodable_variants [1] size vars = true ->
        yields (read_variants name tag vars)
          (fun v => exists n vs, v = VEnum n vs /\ encodable_variants vars n vs = true)).
Proof.
  apply ty_mutind.
  - intros p a env _. apply yields_read_prim.
  - intros name fs IH a env Hd. eapply (yields_bind (read_fields [] fs)); [apply IH, Hd|].
    intros vs Hvs. apply yields_ret, Hvs.
  - intros name size vars IH a env Hd. apply andb_true_iff in Hd as [_ Hd].
    eapply (yields_bind (read_uint _)); [apply yields_read_uint|]. intros tag _.
    intros bs v r Hb E. destruct (IH name tag size Hd _ _ _ Hb E) as [(n & vs & -> & H) Hr]. auto.
  - intros a env Hd. simpl in Hd. destruct (Z.eqb_spec (size_or_1 a) 1) as [E|]; [|discriminate].
    cbn [read encodable]. rewrite E. intros bs v r Hb Hr.
    destruct (yields_read_string _ _ _ Hb Hr) as [(s & -> & H) Hok]. auto.
  - intros n a env _. eapply (yields_bind (read_exact n)); [apply yields_read_exact|].
    intros bs [Hl Hb]. apply yields_ret. cbn [encodable]. rewrite Hl, Nat.eqb_refl. exact Hb.
  - intros t IH a env Hd. cbn [decodable] in Hd. apply andb_true_iff in Hd as [Hd Ht].
    apply andb_true_iff in Hd as [Hlt Hs]. apply String.eqb_eq in Hlt. apply Z.eqb_eq in Hs.
    eapply (yields_bind (read_uint 1)); [apply yields_read_uint|]. intros size Hsz.
    eapply (yields_bind (read_n _ _)); [apply yields_read_n, IH, Ht|]. intros vs [Hl Hvs].
    apply yields_ret. cbn [encodable]. apply andb_true_iff. split.
    + apply forallb_forall. intros x Hx. apply list_elem_of_In in Hx.
      apply (proj1 (Forall_forall _ _) Hvs x Hx).
    + rewrite Hlt, Hs. apply fits_spec in Hsz. apply orb_true_iff. right. apply Z.ltb_lt.
      cbn [length_width]. lia.
  - intros t IH a env Hd. cbn [decodable] in Hd. apply andb_true_iff in Hd as [Hf Ht].
    cbn [read encodable]. destruct (arg_when a) as [c|].
    + destruct (c env).
      * eapply (yields_bind (read no_args [] t)); [apply IH, Ht|].
        intros v Hv. apply yields_ret. rewrite Hv. reflexivity.
      * apply yields_ret. reflexivity.
    + eapply (yields_bind (read_uint 1)); [apply yields_read_uint|]. intros some _.
      destruct (some =? 1); [|apply yields_ret; reflexivity].
      eapply (yields_bind (read no_args [] t)); [apply IH, Ht|].
      intros v Hv. apply yields_ret. rewrite Hv. reflexivity.
  - intros ts IH a env Hd. eapply (yields_bind (read_fields [] ts)); [apply IH, Hd|].
    intros vs Hvs. apply yields_ret, Hvs.
  - intros env _. apply yields_ret. reflexivity.
  - intros name a t IHt fs IHfs env Hd. cbn [decodable_fields] in Hd.
    apply andb_true_iff in Hd as [Ht Hfs].
    eapply (yields_bind (read a env t)); [apply IHt, Ht|]. intros v Hv.
    eapply (yields_bind (read_fields _ fs)); [apply IHfs, Hfs|]. intros vs Hvs.
    apply yields_ret. cbn [encodable_fields]. rewrite Hv. exact Hvs.
  - intros name tag size _. apply yields_err. reflexivity.
  - intros name value fs IHfs rest IHrest ename tag size Hd. cbn [decodable_variants] in Hd.
    apply andb_true_iff in Hd as [Hd Hrest]. apply andb_true_iff in Hd as [Hd Hfs].
    apply andb_true_iff in Hd as [_ Hname]. cbn [read_variants].
    destruct (match value with Some x => x =? tag | None => false end).
    + eapply (yields_bind (read_fields [] fs)); [apply IHfs, Hfs|]. intros vs Hvs.
      apply yields_ret. exists name, vs. cbn [encodable_variants]. rewrite String.eqb_refl. auto.
    + intros bs v r Hb E. destruct (IHrest ename tag size Hrest _ _ _ Hb E) as [(n & vs & -> & H) Hr].
      split; [|assumption]. exists n, vs. split; [done|]. cbn [encodable_variants].
      destruct (String.eqb_spec name n) as [->|]; [|assumption].
      rewrite bool_decide_eq_true_2 in Hname by (eapply variants_names_encodable; eassumption).
      discriminate.
Qed.

(** ** No panics *)

Definition no_panic {A} (rd : reader A) : Prop := forall bs, rd bs <> Panic.

Lemma no_panic_bind {A B} (rd : reader A) (k : A -> reader B) :
  no_panic rd -> (forall v, no_panic (k v)) -> no_panic (fun bs => '(v, r) ← rd bs; k v r).
Proof.
  intros H Hk bs. specialize (H bs). destruct (rd bs) as [[v r]| |]; try easy. apply Hk.
Qed.

Lemma no_panic_ret {A} (v : A) : no_panic (fun bs => Ok (v, bs)).
Proof. easy. Qed.

Lemma no_panic_read_exact n : no_panic (read_exact n).
Proof. intros bs. unfold read_exact. destruct (take_exact n bs); easy. Qed.

Lemma no_panic_read_uint n : no_panic (read_uint n).
Proof.
  apply (no_panic_bind (read_exact n) (fun x r => Ok (le_num x, r))); [apply no_panic_read_exact|].
  easy.
Qed.

Lemma no_panic_read_n {A} n (rd : reader A) : no_panic rd -> no_panic (read_n n rd).
Proof.
  intros H. induction n as [|n IH]; [easy|].
  apply (no_panic_bind rd (fun x r => '(xs, r) ← read_n n rd r; Ok (x :: xs, r))); [done|].
  intros x. apply (no_panic_bind (read_n n rd) (fun xs r => Ok (x :: xs, r))); [done|]. easy.
Qed.

Lemma no_panic_read_prim p : decodable [] no_args (TPrim p) = true -> no_panic (read_prim p).
Proof.
  intros Hd bs. unfold read_prim, read_int.
  destruct p; try discriminate; cbn [mbind outcome_bind];
    (destruct (read_uint _ bs) as [[x r]| |] eqn:E;
     [|easy|exact (fun _ => no_panic_read_uint _ _ E)]); cbn; try easy.
  destruct (rarity_try_from x); easy.
Qed.

Lemma no_panic_read_string size : no_panic (read_string size).
Proof.
  apply (no_panic_bind (read_uint 2) (fun len r => if size =? 1 then _ else _));
    [apply no_panic_read_uint|].
  intros len. destruct (size =? 1).
  - apply (no_panic_bind (read_exact _) (fun bytes r =>
      s ← ok_or (from_utf8 bytes) StringParsingFailed; Ok (VStr s, r))); [apply no_panic_read_exact|].
    intros bytes r. destruct (from_utf8 bytes); easy.
  - apply (no_panic_bind (read_n _ _) (fun units r =>
      s ← ok_or (from_utf16 units) Utf16ParsingFailed; Ok (VStr s, r)));
      [apply no_panic_read_n, no_panic_read_uint|].
    intros units r. destruct (from_utf16 units); easy.
Qed.

Lemma no_panic_all :
  (forall t ws a env, decodable ws a t = true -> no_panic (read a env t))
  /\ (forall fs ws env, decodable_fields ws fs = true -> no_panic (read_fields env fs))
  /\ (forall vars ws size name tag, decodable_variants ws size vars = true ->
        no_panic (read_variants name tag vars)).
Proof.
  apply ty_mutind.
  - intros p ws a env Hd. apply no_panic_read_prim, Hd.
  - intros name fs IH ws a env Hd.
    apply (no_panic_bind (read_fields [] fs) (fun vs r => Ok (VStruct vs, r))); [eapply IH, Hd|easy].
  - intros name size vars IH ws a env Hd. apply andb_true_iff in Hd as [_ Hd].
    apply (no_panic_bind (read_uint _) (fun tag => read_variants name tag vars));
      [apply no_panic_read_uint|]. intros tag. eapply IH, Hd.
  - intros ws a env _. apply no_panic_read_string.
  - intros n ws a env _.
    apply (no_panic_bind (read_exact n) (fun x r => Ok (VBytes x, r))); [apply no_panic_read_exact|easy].
  - intros t IH ws a env Hd. apply andb_true_iff in Hd as [_ Ht].
    apply (no_panic_bind (read_uint 1) (fun size r =>
      '(vs, r) ← read_n (Z.to_nat size) (read no_args [] t) r; Ok (VSeq vs, r)));
      [apply no_panic_read_uint|].
    intros size. apply (no_panic_bind (read_n _ _) (fun vs r => Ok (VSeq vs, r))); [|easy].
    eapply no_panic_read_n, IH, Ht.
  - intros t IH ws a env Hd. apply andb_true_iff in Hd as [_ Ht].
    assert (Hin : no_panic (fun bs => '(x, r) ← read no_args [] t bs; Ok (VOpt (Some x), r))).
    { apply (no_panic_bind (read no_args [] t) (fun x r => Ok (VOpt (Some x), r))); [eapply IH, Ht|easy]. }
    cbn [read]. destruct (arg_when a) as [c|]; [destruct (c env); [exact Hin|easy]|].
    apply (no_panic_bind (read_uint 1) (fun some r => if some =? 1 then _ else _));
      [apply no_panic_read_uint|].
    intros some. destruct (some =? 1); [exact Hin|easy].
  - intros ts IH ws a env Hd.
    apply (no_panic_bind (read_fields [] ts) (fun vs r => Ok (VStruct vs, r))); [eapply IH, Hd|easy].
  - easy.
  - intros name a t IHt fs IHfs ws env Hd. apply andb_true_iff in Hd as [Ht Hfs].
    apply (no_panic_bind (read a env t) (fun v r =>
      '(vs, r) ← read_fields ((name, v) :: env) fs r; Ok (v :: vs, r))); [eapply IHt, Ht|].
    intros v. apply (no_panic_bind (read_fields _ fs) (fun vs r => Ok (v :: vs, r))); [eapply IHfs, Hfs|easy].
  - easy.
  - intros name value fs IHfs rest IHrest ws size ename tag Hd. cbn [decodable_variants] in Hd.
    apply andb_true_iff in Hd as [Hd Hrest]. apply andb_true_iff in Hd as [_ Hfs].
    cbn [read_variants]. destruct (match value with Some x => x =? tag | None => false end).
    + apply (no_panic_bind (read_fields [] fs) (fun vs r => Ok (VEnum name vs, r))); [eapply IHfs, Hfs|easy].
    + eapply IHrest, Hrest.
Qed.


(** ** Every legal value has an encoding *)

(** Every variant has a [value] when the enum writes one. *)
Fixpoint writable (t : ty) : bool :=
  match t with
  | TPrim _ | TString | TArray _ => true
  | TStruct _ fs => writable_fields fs
  | TEnum _ size vars => writable_variants size vars
  | TVec inner | TOption inner => writable inner
  | TTuple ts => writable_fields ts
  end
with writable_fields (fs : fields) : bool :=
  match fs with
  | NoField => true
  | Field _ _ t fs => writable t && writable_fields fs
  end
with writable_variants (size : Z) (vars : variants) : bool :=
  match vars with
  | NoVariant => true
  | Variant _ value fs rest =>
      ((size =? 0) || bool_decide (is_Some value)) && writable_fields fs && writable_variants size rest
  end.

Lemma write_total_all :
  (forall t a env v, writable t = true -> encodable a env t v = true -> is_Some (write a t v))
  /\ (forall fs env vs, writable_fields fs = true -> encodable_fields env fs vs = true ->
        is_Some (write_fields fs vs))
  /\ (forall vars size n vs, writable_variants size vars = true ->
        encodable_variants vars n vs = true -> is_Some (write_variants size vars n vs)).
Proof.
  apply ty_mutind; cbn [writable writable_fields writable_variants].
  - intros p a env v _ He. destruct p, v; try discriminate; simpl; eauto.
  - intros name fs IH a env v Hw He. destruct v; try discriminate. eapply IH; eassumption.
  - intros name size vars IH a env v Hw He. destruct v; try discriminate. eapply IH; eassumption.
  - intros a env v _ He. destruct v; try discriminate. cbn [write]. eauto.
  - intros n a env v _ He. destruct v; try discriminate. apply andb_true_iff in He as [Hn _].
    cbn [write]. rewrite Hn. eauto.
  - intros t IH a env v Hw He. destruct v; try discriminate. apply andb_true_iff in He as [He _].
    cbn [write].
    assert (is_Some (mapM (write no_args t) vs)) as [items ->]; [|simpl; eauto].
    apply mapM_is_Some_2, Forall_forall. intros x Hx. eapply IH; [exact Hw|].
    apply (proj1 (forallb_forall _ _) He), list_elem_of_In, Hx.
  - intros t IH a env v Hw He. destruct v as [| | | | | | |[x|]| |]; try discriminate;
      cbn [write]; [|eauto]. cbn [encodable] in He. apply andb_true_iff in He as [He _].
    destruct (IH no_args [] x Hw He) as [b ->]. simpl. eauto.
  - intros ts IH a env v Hw He. destruct v; try discriminate. eapply IH; eassumption.
  - intros env [|v vs] _ He; [eauto|discriminate].
  - intros name a t IHt fs IHfs env [|v vs] Hw He; [discriminate|].
    apply andb_true_iff in Hw as [Hw1 Hw2], He as [He1 He2]. cbn [write_fields].
    destruct (IHt _ _ _ Hw1 He1) as [b1 ->], (IHfs _ _ Hw2 He2) as [b2 ->]. simpl. eauto.
  - intros size n vs _ He. discriminate.
  - intros name value fs IHfs rest IHrest size n vs Hw He.
    apply andb_true_iff in Hw as [Hw Hrest]. apply andb_true_iff in Hw as [Hv Hfs].
    cbn [encodable_variants write_variants] in *.
    destruct (String.eqb name n); [|eapply IHrest; eassumption].
    destruct (IHfs _ _ Hfs He) as [b ->]. unfold write_discriminant.
    destruct (Z.ltb_spec 0 size); [|simpl; eauto].
    destruct value; [simpl; eauto|]. rewrite orb_false_r in Hv. lia.
Qed.
