(* ===== verification/Schema.v ===== *)
(** Building declarations of Serde.v, and checking the constructors of the
    declared types. *)
From stdpp Require Import base list option strings.
From Stdlib Require Import ZArith Lia.
From S2P Require Import Prelude Utf Definitions Serde SerdeFacts.

(** ** Notation for declarations *)

Abbreviation U8 := (TPrim PU8).
Abbreviation Bool := (TPrim PBool).
Abbreviation U16 := (TPrim PU16).
Abbreviation U32 := (TPrim PU32).
Abbreviation U64 := (TPrim PU64).
Abbreviation F32 := (TPrim PF32).
Abbreviation Rarity := (TPrim PRarity).
Abbreviation Time := (TPrim PSilkroadTime).
Abbreviation UtcTime := (TPrim PDateTime).

Definition field_decl : Type := string * field_args * ty.
Definition variant_decl : Type := string * option Z * list field_decl.

Definition fld (name : string) (t : ty) : field_decl := (name, no_args, t).
Definition fld_with (name : string) (a : field_args) (t : ty) : field_decl := (name, a, t).
Definition variant (name : string) (value : Z) (fs : list field_decl) : variant_decl :=
  (name, Some value, fs).
Definition untagged (name : string) (fs : list field_decl) : variant_decl := (name, None, fs).

Definition sized (n : Z) : field_args :=
  {| list_type := None; arg_size := Some n; arg_when := None |}.
Definition list_as (s : string) : field_args :=
  {| list_type := Some s; arg_size := None; arg_when := None |}.
Definition guarded (c : scope -> bool) : field_args :=
  {| list_type := None; arg_size := None; arg_when := Some c |}.

Fixpoint in_scope (x : string) (env : scope) : option val :=
  match env with
  | [] => None
  | (y, v) :: env => if String.eqb x y then Some v else in_scope x env
  end.

(** The condition [matches!(x, Enum::Name)]. *)
Definition matches (x name : string) (env : scope) : bool :=
  match in_scope x env with
  | Some (VEnum n _) => String.eqb n name
  | _ => false
  end.

Definition fields_of (fs : list field_decl) : fields :=
  foldr (fun '(name, a, t) rest => Field name a t rest) NoField fs.
Definition variants_of (vs : list variant_decl) : variants :=
  foldr (fun '(name, value, fs) rest => Variant name value (fields_of fs) rest) NoVariant vs.

Definition struct (name : string) (fs : list field_decl) : ty := TStruct name (fields_of fs).
Definition enum (name : string) (size : Z) (vs : list variant_decl) : ty :=
  TEnum name size (variants_of vs).

(** ** Typed constructors

    A constructor with the types of its parameters, and the claim that it
    builds a legal value from legal arguments. *)
Inductive ctor :=
| Ret (v : val)
| Arg (a : field_args) (t : ty) (k : val -> ctor).

Fixpoint well_typed (result : ty) (c : ctor) : Prop :=
  match c with
  | Ret v => encodable no_args [] result v = true
  | Arg a t k => forall x, encodable a [] t x = true -> well_typed result (k x)
  end.

Lemma encodable_no_when a env env' t v :
  a.(arg_when) = None -> encodable a env t v = true -> encodable a env' t v = true.
Proof. intros Ha. destruct t; try exact id. destruct v; try exact id. cbn. rewrite Ha. exact id. Qed.

Fixpoint find_variant (n : string) (vs : list variant_decl) : option (list field_decl) :=
  match vs with
  | [] => None
  | (name, _, fs) :: vs => if String.eqb name n then Some fs else find_variant n vs
  end.

Lemma encodable_struct a env name fs vs :
  encodable_fields [] (fields_of fs) vs = true ->
  encodable a env (struct name fs) (VStruct vs) = true.
Proof. exact id. Qed.

Lemma encodable_enum a env name size vars n fs vs :
  find_variant n vars = Some fs ->
  encodable_fields [] (fields_of fs) vs = true ->
  encodable a env (enum name size vars) (VEnum n vs) = true.
Proof.
  cbn [encodable enum]. unfold enum. cbn [encodable]. intros Hf H.
  induction vars as [|[[name' value] fs'] vars IH]; [discriminate|].
  cbn [find_variant variants_of foldr encodable_variants] in *.
  destruct (String.eqb name' n); [injection Hf as ->; exact H|]. apply IH, Hf.
Qed.

Lemma encodable_fields_nil env : encodable_fields env (fields_of []) [] = true.
Proof. reflexivity. Qed.

Lemma encodable_fields_cons env name a t fs v vs :
  encodable a env t v = true ->
  encodable_fields ((name, v) :: env) (fields_of fs) vs = true ->
  encodable_fields env (fields_of ((name, a, t) :: fs)) (v :: vs) = true.
Proof. intros H1 H2. cbn. rewrite H1. exact H2. Qed.

Lemma encodable_some a env t x :
  a.(arg_when) = None ->
  encodable no_args [] t x = true -> encodable a env (TOption t) (VOpt (Some x)) = true.
Proof. intros Ha H. cbn. rewrite Ha, H. reflexivity. Qed.

(** Check one constructor against the declaration of its type. *)
Ltac check_encodable :=
  first
  [ eapply encodable_no_when; [reflexivity | eassumption]
  | reflexivity
  | apply encodable_some; [reflexivity | check_encodable]
  | eapply encodable_enum; [reflexivity | check_fields]
  | eapply encodable_struct; check_fields ]
with check_fields :=
  first
  [ apply encodable_fields_nil
  | eapply encodable_fields_cons; [check_encodable | check_fields] ].

Ltac check_ctors :=
  repeat (apply Forall_cons; split; [cbn [fst snd well_typed]; intros; check_encodable|]);
  apply Forall_nil; exact I.

(** The same for values of the models: numbers are in range by [skr] or an
    assumption, parts that are values of another model by [legal]. *)
Create HintDb legal discriminated.
#[export] Hint Constants Opaque : legal.

Ltac legal_num :=
  match goal with
  | |- encodable _ _ (TPrim PU8) (VNum ?z) = true => change (fits 8 z = true)
  | |- encodable _ _ (TPrim PU16) (VNum ?z) = true => change (fits 16 z = true)
  | |- encodable _ _ (TPrim PU32) (VNum ?z) = true => change (fits 32 z = true)
  | |- encodable _ _ (TPrim PF32) (VNum ?z) = true => change (fits 32 z = true)
  | |- encodable _ _ (TPrim PU64) (VNum ?z) = true => change (fits 64 z = true)
  end;
  first [assumption | reflexivity | solve [auto with skr]].

Ltac legal_value :=
  lazymatch goal with
  | |- encodable _ _ _ (VNum _) = true => legal_num
  | |- encodable _ _ _ (VStruct _) = true => eapply encodable_struct; legal_fields
  | |- encodable _ _ _ (VEnum _ _) = true => eapply encodable_enum; [reflexivity | legal_fields]
  | |- encodable _ _ _ (VOpt (Some _)) = true => apply encodable_some; [reflexivity | legal_value]
  | |- encodable _ _ _ (VOpt None) = true => reflexivity
  | |- encodable _ _ _ (VBool _) = true => reflexivity
  | |- encodable _ _ _ (VRarity _) = true => reflexivity
  | _ => first [ eapply (encodable_no_when _ []); [reflexivity | solve [eauto with legal]] | reflexivity ]
  end
with legal_fields :=
  lazymatch goal with
  | |- encodable_fields _ _ [] = true => apply encodable_fields_nil
  | _ => eapply encodable_fields_cons; [legal_value | legal_fields]
  end.
