(* ===== verification/SerdeSpec.v ===== *)
(** The contract of the derived traits: what a client of [Serialize],
    [Deserialize] and [ByteSize] may rely on, with the types of the crate's own
    tests as instances. *)
From stdpp Require Import base list option strings.
From Stdlib Require Import ZArith Lia.
From S2P Require Import Prelude Utf Definitions Serde SerdeFacts Schema.

(** ** The types of the unit tests (silkroad-serde/src/lib.rs) *)

Definition Test : ty := struct "Test" [fld "one" U8; fld "two" U16; fld "three" U32; fld "four" U64].
Definition TestEnum : ty := enum "TestEnum" 1 [variant "A" 1 []; variant "B" 2 [fld "t0" U8]].
Definition Wrapped : ty := struct "Wrapped" [fld "inner" Test; fld "inner2" TestEnum].

(** The condition [cond == 1]. *)
Definition equals (x : string) (n : Z) (env : scope) : bool :=
  match in_scope x env with Some (VNum m) => m =? n | _ => false end.

Definition TestCond : ty := struct "TestCond"
  [fld "cond" U8; fld "unrelated" TString; fld_with "value" (guarded (equals "cond" 1)) (TOption U8)].
Definition DoubleString : ty := struct "DoubleString" [fld_with "t0" (sized 2) TString].
Definition WithVec : ty := struct "WithVec" [fld "t0" (TVec U32)].

Definition wrapped_value : val :=
  VStruct [VStruct [VNum 1; VNum 2; VNum 3; VNum 4]; VEnum "B" [VNum 3]].
Definition cond_value : val := VStruct [VNum 1; VStr (chars "abc"); VOpt (Some (VNum 1))].

(** ** Round trip *)

(** C18: Decoding what a value was encoded to gives the value back and leaves
    whatever follows the encoding unread, for every legal value of a declaration
    that is read as it is written: its lists have a length of one byte (the
    derived reader reads no other, see [other_lists_not_decoded]), its options a
    condition or a flag, its enums a discriminant of 1, 2, 4 or 8 bytes with
    values that fit and differ, its strings a width of 1 or, in ASCII, of 2,
    and it has no times, which are only written. *)
Theorem decode_encode a env t v
    (Hd : decodable [1; 2] a t = true) (Hv : encodable a env t v = true) :
  exists bs, write a t v = Some bs /\ bytes_ok bs = true
    /\ forall rest, read a env t (bs ++ rest) = Ok (v, rest).
Proof. exact (proj1 decode_encode_all t a env v Hd Hv). Qed.

Lemma decode_encode_witness :
  exists bs, write no_args TestCond cond_value = Some bs /\ bytes_ok bs = true
    /\ forall rest, read no_args [] TestCond (bs ++ rest) = Ok (cond_value, rest).
Proof. apply decode_encode; reflexivity. Defined.

(** The decoder consumes a prefix [c] of its input; the same prefix
    decodes to the same value whatever follows it, and any input that stops
    inside of it is refused with an I/O error. *)
Theorem decode_prefix a env t bs v r (H : read a env t bs = Ok (v, r)) :
  exists c, bs = c ++ r
    /\ (forall r', read a env t (c ++ r') = Ok (v, r'))
    /\ (forall p s, c = p ++ s -> s <> [] -> read a env t p = Err IoError).
Proof. exact (proj1 framed_read_all t a env bs v r H). Qed.

Lemma decode_prefix_witness :
  exists c, [2; 7; 9] = c ++ [9]
    /\ (forall r', read no_args [] TestEnum (c ++ r') = Ok (VEnum "B" [VNum 7], r'))
    /\ (forall p s, c = p ++ s -> s <> [] -> read no_args [] TestEnum p = Err IoError).
Proof. apply decode_prefix. reflexivity. Defined.

(** Encodings are prefix free, so that values written one after the other
    have a single reading: no encoding of a value is an encoding of another
    one followed by more bytes. *)
Theorem encode_prefix_free a env t v w b c r s
    (Hd : decodable [1; 2] a t = true)
    (Hv : encodable a env t v = true) (Hw : encodable a env t w = true)
    (Hb : write a t v = Some b) (Hc : write a t w = Some c) (E : b ++ r = c ++ s) :
  v = w /\ r = s.
Proof.
  destruct (proj1 decode_encode_all t a env v Hd Hv) as (b' & Eb & _ & Rb).
  destruct (proj1 decode_encode_all t a env w Hd Hw) as (c' & Ec & _ & Rc).
  assert (b' = b) as -> by congruence. assert (c' = c) as -> by congruence.
  pose proof (Rb r) as R1. rewrite E, Rc in R1. split; congruence.
Qed.

Lemma encode_prefix_free_witness :
  VEnum "B" [VNum 7] = VEnum "B" [VNum 7] /\ [9] = [9].
Proof.
  apply (encode_prefix_free no_args [] TestEnum _ _ [2; 7] [2; 7]); reflexivity.
Defined.

(** Whatever the decoder accepts is a legal value of the declared type,
    and its encoding, canonical where the input was not (a flag byte other
    than 0 and 1), decodes to it again. Declarations with strings of width 2
    are left out: their length prefix is not the number of units. *)
Theorem decode_legal a env t bs v r
    (Hd : decodable [1] a t = true) (Hd2 : decodable [1; 2] a t = true)
    (Hb : bytes_ok bs = true) (H : read a env t bs = Ok (v, r)) :
  encodable a env t v = true
  /\ exists c, write a t v = Some c /\ read a env t (c ++ r) = Ok (v, r).
Proof.
  destruct (proj1 read_encodable_all t a env Hd bs v r Hb H) as [He _].
  split; [assumption|].
  destruct (proj1 decode_encode_all t a env v Hd2 He) as (c & E & _ & R). eauto.
Qed.

Lemma decode_legal_witness :
  encodable no_args [] TestCond (VStruct [VNum 0; VStr []; VOpt None]) = true
  /\ exists c, write no_args TestCond (VStruct [VNum 0; VStr []; VOpt None]) = Some c
       /\ read no_args [] TestCond (c ++ [5]) = Ok (VStruct [VNum 0; VStr []; VOpt None], [5]).
Proof. apply (decode_legal _ _ _ [0; 0; 0; 5]); reflexivity. Defined.

(** For a declaration whose lists are framed by one-byte markers or a
    one-byte length, [byte_size] is the number of bytes written, so the
    buffer the conversion to [Bytes] allocates is filled exactly. *)
Theorem byte_size_exact a env t v bs
    (Hs : size_exact a t = true) (Hv : encodable a env t v = true)
    (Hw : write a t v = Some bs) :
  Z.of_nat (length bs) = byte_size a t v.
Proof. exact (proj1 byte_size_all t a env v Hs Hv bs Hw). Qed.

Lemma byte_size_exact_witness : 17 = byte_size no_args Wrapped wrapped_value.
Proof.
  exact (byte_size_exact no_args [] Wrapped wrapped_value
    [1; 2; 0; 3; 0; 0; 0; 4; 0; 0; 0; 0; 0; 0; 0; 2; 3] eq_refl eq_refl eq_refl).
Defined.

(** ** Limits *)

(** A string of width 2 is written with its number of UTF-8 bytes in front
    but as UTF-16 units, so a text with a character outside ASCII (here
    LATIN SMALL LETTER E WITH ACUTE) does not decode from its own encoding. *)
Theorem wide_string_not_decoded :
  write no_args DoubleString (VStruct [VStr [0xE9]]) = Some [2; 0; 0xE9; 0]
  /\ read no_args [] DoubleString [2; 0; 0xE9; 0] = Err IoError.
Proof. split; reflexivity. Qed.

(** The derived reader takes every list for one with a length of one byte and
    every option without a condition for one with a flag, whatever their
    attributes say, so the other frames are written and not read back; a time
    is not read at all. *)
Theorem other_lists_not_decoded :
  let seven := VSeq [VNum 7] in
  (write (list_as "break") (TVec U8) seven = Some [1; 7; 2]
   /\ read (list_as "break") [] (TVec U8) [1; 7; 2] = Ok (seven, [2]))
  /\ (write (list_as "has-more") (TVec U8) seven = Some [1; 7; 0]
      /\ read (list_as "has-more") [] (TVec U8) [1; 7; 0] = Ok (seven, [0]))
  /\ (write (list_as "none") (TVec U8) seven = Some [7] /\ read (list_as "none") [] (TVec U8) [7] = Err IoError)
  /\ (write (sized 2) (TVec U8) seven = Some [1; 0; 7] /\ read (sized 2) [] (TVec U8) [1; 0; 7] = Ok (VSeq [VNum 0], [7]))
  /\ (write (sized 0) (TOption U8) (VOpt (Some (VNum 7))) = Some [7]
      /\ read (sized 0) [] (TOption U8) [7] = Ok (VOpt None, []))
  /\ (forall bs, read no_args [] (TPrim PSilkroadTime) bs = Panic).
Proof. cbv zeta. repeat split; reflexivity. Qed.

(** A field with [list_type = "none"] counts one byte more than it writes,
    and one with [size = 2] one byte less. *)
Theorem byte_size_of_other_lists :
  write (list_as "none") (TVec U8) (VSeq [VNum 7]) = Some [7]
  /\ byte_size (list_as "none") (TVec U8) (VSeq [VNum 7]) = 2
  /\ write (sized 2) (TVec U8) (VSeq [VNum 7]) = Some [1; 0; 7]
  /\ byte_size (sized 2) (TVec U8) (VSeq [VNum 7]) = 2.
Proof. repeat split; reflexivity. Qed.

(** ** Packed times *)

(** The fields of a packed time, as the client extracts them. *)
Definition time_field (x shift width : Z) : Z := Z.land (Z.shiftr x shift) (Z.ones width).

Definition packable (t : datetime) : bool :=
  (2000 <=? t.(year)) && (t.(year) <? 2064) && (1 <=? t.(month)) && (t.(month) <=? 12)
  && (1 <=? t.(day)) && (t.(day) <=? 31) && (0 <=? t.(hour)) && (t.(hour) <? 24)
  && (0 <=? t.(minute)) && (t.(minute) <? 60) && (0 <=? t.(second)) && (t.(second) <? 60).

Lemma pack_time_value t : packable t = true ->
  pack_time t = (t.(year) - 2000) + (t.(month) - 1) * 2 ^ 6 + (t.(day) - 1) * 2 ^ 10
                + t.(hour) * 2 ^ 15 + t.(minute) * 2 ^ 20 + t.(second) * 2 ^ 26.
Proof.
  unfold packable, pack_time. intros H. split_andb.
  rewrite (wrap_small 32) by (apply fits_spec; lia).
  assert (M : forall n m a, m = Z.ones n -> 0 <= n -> 0 <= a < 2 ^ n -> Z.land a m = a).
  { intros n m a -> Hn Ha. rewrite Z.land_ones by assumption. apply Z.mod_small, Ha. }
  rewrite !(M 6 63), (M 4 15), !(M 5 31) by (reflexivity || lia).
  rewrite !Z.shiftl_mul_pow2 by lia.
  assert (L : forall k a b, 0 <= k -> 0 <= b < 2 ^ k -> Z.lor b (a * 2 ^ k) = b + a * 2 ^ k).
  { intros k a b Hk Hb. rewrite Z.lor_comm, lor_disjoint by assumption. lia. }
  rewrite (L 6), (L 10), (L 15), (L 20), (L 26) by lia. reflexivity.
Qed.

(** Between 2000 and 2063 the six fields of a time are packed without
    overlap: each is recovered from its bits. *)
Theorem pack_time_fields t (H : packable t = true) :
  time_field (pack_time t) 0 6 = t.(year) - 2000
  /\ time_field (pack_time t) 6 4 = t.(month) - 1
  /\ time_field (pack_time t) 10 5 = t.(day) - 1
  /\ time_field (pack_time t) 15 5 = t.(hour)
  /\ time_field (pack_time t) 20 6 = t.(minute)
  /\ time_field (pack_time t) 26 6 = t.(second)
  /\ fits 32 (pack_time t) = true.
Proof.
  rewrite fits_spec. rewrite pack_time_value by assumption. unfold packable in H. split_andb.
  unfold time_field. rewrite !Z.land_ones, !Z.shiftr_div_pow2 by lia.
  repeat split; zlia.
Qed.

Lemma pack_time_fields_witness :
  let t := {| year := 2001; month := 1; day := 2; hour := 0; minute := 0; second := 35;
              timestamp_millis := 978393635000 |} in
  time_field (pack_time t) 0 6 = 1
  /\ time_field (pack_time t) 6 4 = 0
  /\ time_field (pack_time t) 10 5 = 1
  /\ time_field (pack_time t) 15 5 = 0
  /\ time_field (pack_time t) 20 6 = 0
  /\ time_field (pack_time t) 26 6 = 35
  /\ fits 32 (pack_time t) = true.
Proof.
  exact (pack_time_fields {| year := 2001; month := 1; day := 2; hour := 0; minute := 0;
    second := 35; timestamp_millis := 978393635000 |} eq_refl).
Defined.
