(* ===== verification/ProtoGeneral.v ===== *)
(** silkroad-protocol/src/general.rs: module identity, keep-alive and the handshake packets.

    One declaration per struct or enum deriving [Serialize] or [Deserialize], and
    one function per constructor, on the values of its parameters. *)
From stdpp Require Import base list option strings.
From Stdlib Require Import ZArith.
From S2P Require Import Prelude Serde Schema.

(** ** Declarations *)

Definition HandshakeStage : ty := enum "HandshakeStage" 1
  [ variant "Initialize" 0xE
     [fld "blowfish_seed" U64; fld "seed_count" U32; fld "seed_crc" U32; fld "handshake_seed" U64;
      fld "a" U32; fld "b" U32; fld "c" U32];
    variant "Finalize" 0x10 [fld "challenge" U64] ].

Definition IdentityInformation : ty := struct "IdentityInformation"
  [fld "module_name" TString; fld "locality" U8].

Definition KeepAlive : ty := struct "KeepAlive"
  [].

Definition SecuritySetup : ty := struct "SecuritySetup"
  [fld "stage" HandshakeStage].

Definition HandshakeChallenge : ty := struct "HandshakeChallenge"
  [fld "b" U32; fld "key" U64].

Definition HandshakeAccepted : ty := struct "HandshakeAccepted"
  [].

(** ** Constructors *)

Definition HandshakeStage_initialize (blowfish_seed seed_count seed_crc handshake_seed a b c :
    val) : val :=
  VEnum "Initialize" [blowfish_seed; seed_count; seed_crc; handshake_seed; a; b; c].

Definition HandshakeStage_finalize (challenge : val) : val :=
  VEnum "Finalize" [challenge].

Definition IdentityInformation_new (module_name locality : val) : val :=
  VStruct [module_name; locality].

Definition SecuritySetup_new (stage : val) : val :=
  VStruct [stage].

(** The constructors with the types of their parameters and results. *)
Definition general_constructors : list (ty * ctor) :=
  [ (HandshakeStage, Arg no_args U64 (fun blowfish_seed => Arg no_args U32 (fun seed_count => Arg
      no_args U32 (fun seed_crc => Arg no_args U64 (fun handshake_seed => Arg no_args U32 (fun a
      => Arg no_args U32 (fun b => Arg no_args U32 (fun c => Ret (HandshakeStage_initialize
      blowfish_seed seed_count seed_crc handshake_seed a b c)))))))));
    (HandshakeStage, Arg no_args U64 (fun challenge => Ret (HandshakeStage_finalize challenge)));
    (IdentityInformation, Arg no_args TString (fun module_name => Arg no_args U8 (fun locality => Ret
      (IdentityInformation_new module_name locality))));
    (SecuritySetup, Arg no_args HandshakeStage (fun stage => Ret (SecuritySetup_new stage))) ].

Lemma general_constructors_typed :
  Forall (fun c => well_typed c.1 c.2) general_constructors.
Proof. check_ctors. Qed.
