(* ===== verification/ProtoLogin.v ===== *)
(** silkroad-protocol/src/login.rs and auth.rs: authentication and logout; the
    gateway: patch check, login, shard list, notices, passcode.

    One declaration per struct or enum deriving [Serialize] or [Deserialize], and
    one function per constructor, on the values of its parameters. *)
From stdpp Require Import base list option strings.
From Stdlib Require Import ZArith.
From S2P Require Import Prelude Serde Schema.

(** ** Declarations *)

Definition SecurityCodeAction : ty := enum "SecurityCodeAction" 1
  [variant "Define" 1 []; variant "Enter" 4 []; variant "Unknown" 0xFF []].

Definition PasscodeRequiredCode : ty := enum "PasscodeRequiredCode" 1
  [ variant "DefinePasscode" 0 [];
    variant "PasscodeRequired" 1 [];
    variant "PasscodeBlocked" 2 [];
    variant "PasscodeInvalid" 3 [] ].

Definition PatchFile : ty := struct "PatchFile"
  [fld "file_id" U32; fld "filename" TString; fld "file_path" TString; fld "size" U32;
   fld "in_pk2" Bool].

Definition PatchError : ty := enum "PatchError" 1
  [ variant "InvalidVersion" 1 [];
    variant "Update" 2
     [fld "server_ip" TString; fld "server_port" U16; fld "current_version" U32;
      fld_with "patch_files" (list_as "has-more") (TVec PatchFile); fld "http_server" TString];
    variant "Offline" 3 [];
    variant "InvalidClient" 4 [];
    variant "PatchDisabled" 5 [] ].

Definition PatchResult : ty := enum "PatchResult" 1
  [ variant "UpToDate" 1 [fld "unknown" U8];
    variant "Problem" 2 [fld "error" PatchError] ].

Definition PasscodeAccountStatus : ty := enum "PasscodeAccountStatus" 1
  [variant "Ok" 4 []; variant "EmailUnverified" 2 []].

Definition BlockReason : ty := enum "BlockReason" 1
  [ variant "AccountInspection" 2 [];
    variant "Punishment" 1 [fld "reason" TString; fld "end" UtcTime] ].

Definition SecurityError : ty := enum "SecurityError" 1
  [ variant "InvalidCredentials" 1 [fld "max_attempts" U32; fld "current_attempts" U32];
    variant "Blocked" 2 [fld "reason" BlockReason];
    variant "AlreadyConnected" 3 [];
    variant "Inspection" 4 [];
    variant "ServerFull" 6 [];
    variant "LoginQueue" 0x1A [fld "total_in_queue" U16; fld "expected_wait_time" U32];
    variant "PasswordExpired" 0x2A [];
    variant "IpLimit" 8 [];
    variant "QueueLimitReached" 0x1C [] ].

Definition LoginResult : ty := enum "LoginResult" 1
  [ variant "Success" 1
     [fld "session_id" U32; fld "agent_ip" TString; fld "agent_port" U16; fld "unknown" U8];
    variant "Error" 2 [fld "error" SecurityError];
    variant "Unknown" 3 [] ].

Definition QueueUpdateStatus : ty := struct "QueueUpdateStatus"
  [fld "total_in_queue" U16; fld "expected_wait_time" U32; fld "current_position" U16].

Definition GatewayNotice : ty := struct "GatewayNotice"
  [fld "subject" TString; fld "article" TString; fld "published" UtcTime].

Definition PingServer : ty := struct "PingServer"
  [fld "index" U8; fld "domain" TString; fld "unknown" U16].

Definition Shard : ty := struct "Shard"
  [fld "id" U16; fld "name" TString; fld "status" U8; fld "is_online" Bool].

Definition Farm : ty := struct "Farm"
  [fld "id" U8; fld "name" TString].

Definition PatchRequest : ty := struct "PatchRequest"
  [fld "content" U8; fld "module" TString; fld "version" U32].

Definition PatchResponse : ty := struct "PatchResponse"
  [fld "result" PatchResult].

Definition LoginRequest : ty := struct "LoginRequest"
  [fld "unknown_1" U8; fld "username" TString; fld "password" TString; fld "shard_id" U16;
   fld "unknown_2" U8].

Definition LoginResponse : ty := struct "LoginResponse"
  [fld "result" LoginResult].

Definition SecurityCodeInput : ty := struct "SecurityCodeInput"
  [fld "action" SecurityCodeAction; fld "inner_size" U16; fld "data" (TArray 8)].

Definition SecurityCodeResponse : ty := struct "SecurityCodeResponse"
  [fld "account_status" PasscodeAccountStatus; fld "result" U8; fld "invalid_attempts" U8].

Definition GatewayNoticeRequest : ty := struct "GatewayNoticeRequest"
  [fld "unknown" U8].

Definition GatewayNoticeResponse : ty := struct "GatewayNoticeResponse"
  [fld_with "notices" (list_as "length") (TVec GatewayNotice)].

Definition PingServerRequest : ty := struct "PingServerRequest"
  [].

Definition PingServerResponse : ty := struct "PingServerResponse"
  [fld_with "servers" (list_as "length") (TVec PingServer)].

Definition ShardListRequest : ty := struct "ShardListRequest"
  [].

Definition ShardListResponse : ty := struct "ShardListResponse"
  [fld_with "farms" (list_as "has-more") (TVec Farm);
   fld_with "shards" (list_as "has-more") (TVec Shard)].

Definition PasscodeRequiredResponse : ty := struct "PasscodeRequiredResponse"
  [fld "result" PasscodeRequiredCode].

Definition PasscodeResponse : ty := struct "PasscodeResponse"
  [fld "unknown_1" U8; fld "status" U8; fld "invalid_attempts" U8].

Definition QueueUpdate : ty := struct "QueueUpdate"
  [fld "still_in_queue" Bool; fld "status" QueueUpdateStatus].

(** ** Constructors *)

Definition PatchError_update (server_ip server_port current_version patch_files http_server : val)
    : val :=
  VEnum "Update" [server_ip; server_port; current_version; patch_files; http_server].

Definition PatchResult_uptodate : val :=
  VEnum "UpToDate" [VNum 0].

Definition PatchResult_problem (error : val) : val :=
  VEnum "Problem" [error].

Definition BlockReason_punishment (reason end_ : val) : val :=
  VEnum "Punishment" [reason; end_].

Definition SecurityError_invalidcredentials (max_attempts current_attempts : val) : val :=
  VEnum "InvalidCredentials" [max_attempts; current_attempts].

Definition SecurityError_blocked (reason : val) : val :=
  VEnum "Blocked" [reason].

Definition SecurityError_loginqueue (total_in_queue expected_wait_time : val) : val :=
  VEnum "LoginQueue" [total_in_queue; expected_wait_time].

Definition LoginResult_success (session_id agent_ip agent_port : val) : val :=
  VEnum "Success" [session_id; agent_ip; agent_port; VNum 1].

Definition LoginResult_error (error : val) : val :=
  VEnum "Error" [error].

Definition QueueUpdateStatus_new (total_in_queue expected_wait_time current_position : val) : val
    :=
  VStruct [total_in_queue; expected_wait_time; current_position].

Definition PatchFile_new (file_id filename file_path size in_pk2 : val) : val :=
  VStruct [file_id; filename; file_path; size; in_pk2].

Definition GatewayNotice_new (subject article published : val) : val :=
  VStruct [subject; article; published].

Definition PingServer_new (index domain : val) : val :=
  VStruct [index; domain; VNum 0x32bd].

Definition Shard_new (id name status is_online : val) : val :=
  VStruct [id; name; status; is_online].

Definition Farm_new (id name : val) : val :=
  VStruct [id; name].

Definition PatchResponse_new (result : val) : val :=
  VStruct [result].

Definition PatchResponse_up_to_date : val :=
  VStruct [VEnum "UpToDate" [VNum 0]].

Definition PatchResponse_error (error : val) : val :=
  VStruct [VEnum "Problem" [error]].

Definition LoginResponse_new (result : val) : val :=
  VStruct [result].

Definition LoginResponse_error (error : val) : val :=
  VStruct [VEnum "Error" [error]].

Definition SecurityCodeResponse_new (account_status result invalid_attempts : val) : val :=
  VStruct [account_status; result; invalid_attempts].

Definition SecurityCodeResponse_success : val :=
  VStruct [VEnum "Ok" []; VNum 1; VNum 3].

Definition GatewayNoticeResponse_new (notices : val) : val :=
  VStruct [notices].

Definition PingServerResponse_new (servers : val) : val :=
  VStruct [servers].

Definition ShardListResponse_new (farms shards : val) : val :=
  VStruct [farms; shards].

Definition PasscodeRequiredResponse_new (result : val) : val :=
  VStruct [result].

Definition PasscodeRequiredResponse_define_passcode : val :=
  VStruct [VEnum "DefinePasscode" []].

Definition PasscodeRequiredResponse_passcode_required : val :=
  VStruct [VEnum "PasscodeRequired" []].

Definition PasscodeRequiredResponse_passcode_invalid : val :=
  VStruct [VEnum "PasscodeInvalid" []].

Definition PasscodeRequiredResponse_passcode_blocked : val :=
  VStruct [VEnum "PasscodeBlocked" []].

Definition PasscodeResponse_new (status invalid_attempts : val) : val :=
  VStruct [VNum 4; status; invalid_attempts].

Definition QueueUpdate_new (still_in_queue status : val) : val :=
  VStruct [still_in_queue; status].

(** The constructors with the types of their parameters and results. *)
Definition login_constructors : list (ty * ctor) :=
  [ (PatchError, Arg no_args TString (fun server_ip => Arg no_args U16 (fun server_port => Arg no_args
      U32 (fun current_version => Arg (list_as "has-more") (TVec PatchFile) (fun patch_files =>
      Arg no_args TString (fun http_server => Ret (PatchError_update server_ip server_port
      current_version patch_files http_server)))))));
    (PatchResult, Ret PatchResult_uptodate);
    (PatchResult, Arg no_args PatchError (fun error => Ret (PatchResult_problem error)));
    (BlockReason, Arg no_args TString (fun reason => Arg no_args UtcTime (fun end_ => Ret
      (BlockReason_punishment reason end_))));
    (SecurityError, Arg no_args U32 (fun max_attempts => Arg no_args U32 (fun current_attempts => Ret
      (SecurityError_invalidcredentials max_attempts current_attempts))));
    (SecurityError, Arg no_args BlockReason (fun reason => Ret (SecurityError_blocked reason)));
    (SecurityError, Arg no_args U16 (fun total_in_queue => Arg no_args U32 (fun expected_wait_time =>
      Ret (SecurityError_loginqueue total_in_queue expected_wait_time))));
    (LoginResult, Arg no_args U32 (fun session_id => Arg no_args TString (fun agent_ip => Arg no_args
      U16 (fun agent_port => Ret (LoginResult_success session_id agent_ip agent_port)))));
    (LoginResult, Arg no_args SecurityError (fun error => Ret (LoginResult_error error)));
    (QueueUpdateStatus, Arg no_args U16 (fun total_in_queue => Arg no_args U32 (fun expected_wait_time
      => Arg no_args U16 (fun current_position => Ret (QueueUpdateStatus_new total_in_queue
      expected_wait_time current_position)))));
    (PatchFile, Arg no_args U32 (fun file_id => Arg no_args TString (fun filename => Arg no_args
      TString (fun file_path => Arg no_args U32 (fun size => Arg no_args Bool (fun in_pk2 => Ret
      (PatchFile_new file_id filename file_path size in_pk2)))))));
    (GatewayNotice, Arg no_args TString (fun subject => Arg no_args TString (fun article => Arg
      no_args UtcTime (fun published => Ret (GatewayNotice_new subject article published)))));
    (PingServer, Arg no_args U8 (fun index => Arg no_args TString (fun domain => Ret (PingServer_new
      index domain))));
    (Shard, Arg no_args U16 (fun id => Arg no_args TString (fun name => Arg no_args U8 (fun status =>
      Arg no_args Bool (fun is_online => Ret (Shard_new id name status is_online))))));
    (Farm, Arg no_args U8 (fun id => Arg no_args TString (fun name => Ret (Farm_new id name))));
    (PatchResponse, Arg no_args PatchResult (fun result => Ret (PatchResponse_new result)));
    (PatchResponse, Ret PatchResponse_up_to_date);
    (PatchResponse, Arg no_args PatchError (fun error => Ret (PatchResponse_error error)));
    (LoginResponse, Arg no_args LoginResult (fun result => Ret (LoginResponse_new result)));
    (LoginResponse, Arg no_args SecurityError (fun error => Ret (LoginResponse_error error)));
    (SecurityCodeResponse, Arg no_args PasscodeAccountStatus (fun account_status => Arg no_args U8
      (fun result => Arg no_args U8 (fun invalid_attempts => Ret (SecurityCodeResponse_new
      account_status result invalid_attempts)))));
    (SecurityCodeResponse, Ret SecurityCodeResponse_success);
    (GatewayNoticeResponse, Arg (list_as "length") (TVec GatewayNotice) (fun notices => Ret
      (GatewayNoticeResponse_new notices)));
    (PingServerResponse, Arg (list_as "length") (TVec PingServer) (fun servers => Ret
      (PingServerResponse_new servers)));
    (ShardListResponse, Arg (list_as "has-more") (TVec Farm) (fun farms => Arg (list_as "has-more")
      (TVec Shard) (fun shards => Ret (ShardListResponse_new farms shards))));
    (PasscodeRequiredResponse, Arg no_args PasscodeRequiredCode (fun result => Ret
      (PasscodeRequiredResponse_new result)));
    (PasscodeRequiredResponse, Ret PasscodeRequiredResponse_define_passcode);
    (PasscodeRequiredResponse, Ret PasscodeRequiredResponse_passcode_required);
    (PasscodeRequiredResponse, Ret PasscodeRequiredResponse_passcode_invalid);
    (PasscodeRequiredResponse, Ret PasscodeRequiredResponse_passcode_blocked);
    (PasscodeResponse, Arg no_args U8 (fun status => Arg no_args U8 (fun invalid_attempts => Ret
      (PasscodeResponse_new status invalid_attempts))));
    (QueueUpdate, Arg no_args Bool (fun still_in_queue => Arg no_args QueueUpdateStatus (fun status =>
      Ret (QueueUpdate_new still_in_queue status)))) ].

Lemma login_constructors_typed :
  Forall (fun c => well_typed c.1 c.2) login_constructors.
Proof. check_ctors. Qed.

(** ** Declarations of auth.rs *)

Definition LogoutMode : ty := enum "LogoutMode" 1
  [variant "Logout" 1 []; variant "Restart" 2 []].

Definition LogoutResult : ty := enum "LogoutResult" 1
  [ variant "Success" 1 [fld "seconds_to_logout" U32; fld "mode" LogoutMode];
    variant "Error" 2 [fld "error" U16] ].

Definition AuthResultError : ty := enum "AuthResultError" 1
  [ variant "InvalidData" 2 [];
    variant "NotInService" 3 [];
    variant "ServerFull" 4 [];
    variant "IpLimit" 5 [] ].

Definition AuthResult : ty := enum "AuthResult" 1
  [ variant "Success" 1 [fld "unknown_1" U8; fld "unknown_2" U8];
    variant "Error" 2 [fld "code" AuthResultError] ].

Definition AuthRequest : ty := struct "AuthRequest"
  [fld "token" U32; fld "username" TString; fld "password" TString; fld "unknown" U8;
   fld "mac_bytes" (TArray 6)].

Definition AuthResponse : ty := struct "AuthResponse"
  [fld "result" AuthResult].

Definition LogoutRequest : ty := struct "LogoutRequest"
  [fld "mode" LogoutMode].

Definition LogoutResponse : ty := struct "LogoutResponse"
  [fld "result" LogoutResult].

Definition LogoutFinished : ty := struct "LogoutFinished"
  [].

Definition Disconnect : ty := struct "Disconnect"
  [fld "unknown" U8].

(** ** Constructors of auth.rs *)

Definition LogoutResult_success (seconds_to_logout mode : val) : val :=
  VEnum "Success" [seconds_to_logout; mode].

Definition LogoutResult_error (error : val) : val :=
  VEnum "Error" [error].

Definition LogoutResult_wait_30_seconds : val :=
  VEnum "Error" [VNum 0x0804].

Definition AuthResult_success : val :=
  VEnum "Success" [VNum 3; VNum 0].

Definition AuthResult_error (code : val) : val :=
  VEnum "Error" [code].

Definition AuthResponse_new (result : val) : val :=
  VStruct [result].

Definition LogoutResponse_new (result : val) : val :=
  VStruct [result].

Definition Disconnect_new : val :=
  VStruct [VNum 0xFF].

(** The constructors with the types of their parameters and results. *)
Definition auth_constructors : list (ty * ctor) :=
  [ (LogoutResult, Arg no_args U32 (fun seconds_to_logout => Arg no_args LogoutMode (fun mode => Ret
      (LogoutResult_success seconds_to_logout mode))));
    (LogoutResult, Arg no_args U16 (fun error => Ret (LogoutResult_error error)));
    (LogoutResult, Ret LogoutResult_wait_30_seconds);
    (AuthResult, Ret AuthResult_success);
    (AuthResult, Arg no_args AuthResultError (fun code => Ret (AuthResult_error code)));
    (AuthResponse, Arg no_args AuthResult (fun result => Ret (AuthResponse_new result)));
    (LogoutResponse, Arg no_args LogoutResult (fun result => Ret (LogoutResponse_new result)));
    (Disconnect, Ret Disconnect_new) ].

Lemma auth_constructors_typed :
  Forall (fun c => well_typed c.1 c.2) auth_constructors.
Proof. check_ctors. Qed.
