(* ===== verification/ProtoMovement.v ===== *)
(** silkroad-protocol/src/movement.rs: positions and movement.

    One declaration per struct or enum deriving [Serialize] or [Deserialize], and
    one function per constructor, on the values of its parameters. *)
From stdpp Require Import base list option strings.
From Stdlib Require Import ZArith.
From S2P Require Import Prelude Serde Schema.

(** ** Declarations *)

Definition MovementType : ty := enum "MovementType" 1
  [variant "Running" 0 []; variant "Walking" 1 []].

Definition MovementTarget : ty := enum "MovementTarget" 1
  [ variant "TargetLocation" 1 [fld "region" U16; fld "x" U16; fld "y" U16; fld "z" U16];
    variant "Direction" 0 [fld "unknown" U8; fld "angle" U16] ].

Definition EntityMovementState : ty := enum "EntityMovementState" 1
  [ variant "Moving" 1
     [fld "movement_type" MovementType; fld "region" U16; fld "x" U16; fld "y" U16; fld "z" U16];
    variant "Standing" 0 [fld "movement_type" MovementType; fld "unknown" U8; fld "angle" U16] ].

Definition MovementDestination : ty := enum "MovementDestination" 1
  [ variant "Direction" 0 [fld "moving" Bool; fld "heading" U16];
    variant "Location" 1 [fld "region" U16; fld "x" U16; fld "y" U16; fld "z" U16] ].

Definition Position : ty := struct "Position"
  [fld "region" U16; fld "pos_x" F32; fld "pos_y" F32; fld "pos_z" F32; fld "heading" U16].

Definition Location : ty := struct "Location"
  [fld "region" U16; fld "pos_x" F32; fld "pos_y" F32; fld "pos_z" F32].

Definition MovementSource : ty := struct "MovementSource"
  [fld "region" U16; fld "x" U16; fld "y" F32; fld "z" U16].

Definition PlayerMovementRequest : ty := struct "PlayerMovementRequest"
  [fld "kind" MovementTarget].

Definition PlayerMovementResponse : ty := struct "PlayerMovementResponse"
  [fld "player_id" U32; fld "destination" MovementDestination;
   fld "source_position" (TOption MovementSource)].

Definition EntityMovementInterrupt : ty := struct "EntityMovementInterrupt"
  [fld "entity_id" U32; fld "position" Position].

Definition Rotation : ty := struct "Rotation"
  [fld "heading" U16].

Definition ChangeSpeed : ty := struct "ChangeSpeed"
  [fld "entity" U32; fld "walk_speed" F32; fld "running_speed" F32].

(** ** Constructors *)

Definition MovementTarget_targetlocation (region x y z : val) : val :=
  VEnum "TargetLocation" [region; x; y; z].

Definition MovementTarget_direction (unknown angle : val) : val :=
  VEnum "Direction" [unknown; angle].

Definition EntityMovementState_moving (movement_type region x y z : val) : val :=
  VEnum "Moving" [movement_type; region; x; y; z].

Definition EntityMovementState_standing (movement_type unknown angle : val) : val :=
  VEnum "Standing" [movement_type; unknown; angle].

Definition MovementDestination_direction (moving heading : val) : val :=
  VEnum "Direction" [moving; heading].

Definition MovementDestination_location (region x y z : val) : val :=
  VEnum "Location" [region; x; y; z].

Definition Position_new (region pos_x pos_y pos_z heading : val) : val :=
  VStruct [region; pos_x; pos_y; pos_z; heading].

Definition MovementSource_new (region x y z : val) : val :=
  VStruct [region; x; y; z].

Definition PlayerMovementResponse_new (player_id destination source_position : val) : val :=
  VStruct [player_id; destination; source_position].

(** The constructors with the types of their parameters and results. *)
Definition movement_constructors : list (ty * ctor) :=
  [ (MovementTarget, Arg no_args U16 (fun region => Arg no_args U16 (fun x => Arg no_args U16 (fun y
      => Arg no_args U16 (fun z => Ret (MovementTarget_targetlocation region x y z))))));
    (MovementTarget, Arg no_args U8 (fun unknown => Arg no_args U16 (fun angle => Ret
      (MovementTarget_direction unknown angle))));
    (EntityMovementState, Arg no_args MovementType (fun movement_type => Arg no_args U16 (fun region
      => Arg no_args U16 (fun x => Arg no_args U16 (fun y => Arg no_args U16 (fun z => Ret
      (EntityMovementState_moving movement_type region x y z)))))));
    (EntityMovementState, Arg no_args MovementType (fun movement_type => Arg no_args U8 (fun unknown
      => Arg no_args U16 (fun angle => Ret (EntityMovementState_standing movement_type unknown
      angle)))));
    (MovementDestination, Arg no_args Bool (fun moving => Arg no_args U16 (fun heading => Ret
      (MovementDestination_direction moving heading))));
    (MovementDestination, Arg no_args U16 (fun region => Arg no_args U16 (fun x => Arg no_args U16
      (fun y => Arg no_args U16 (fun z => Ret (MovementDestination_location region x y z))))));
    (Position, Arg no_args U16 (fun region => Arg no_args F32 (fun pos_x => Arg no_args F32 (fun pos_y
      => Arg no_args F32 (fun pos_z => Arg no_args U16 (fun heading => Ret (Position_new region
      pos_x pos_y pos_z heading)))))));
    (MovementSource, Arg no_args U16 (fun region => Arg no_args U16 (fun x => Arg no_args F32 (fun y
      => Arg no_args U16 (fun z => Ret (MovementSource_new region x y z))))));
    (PlayerMovementResponse, Arg no_args U32 (fun player_id => Arg no_args MovementDestination (fun
      destination => Arg no_args (TOption MovementSource) (fun source_position => Ret
      (PlayerMovementResponse_new player_id destination source_position))))) ].

Lemma movement_constructors_typed :
  Forall (fun c => well_typed c.1 c.2) movement_constructors.
Proof. check_ctors. Qed.
