(* ===== verification/ProtoChat.v ===== *)
(** silkroad-protocol/src/chat.rs, gm.rs and community.rs: chat messages, the
    commands of game masters, and friends.

    One declaration per struct or enum deriving [Serialize] or [Deserialize], and
    one function per constructor, on the values of its parameters. *)
From stdpp Require Import base list option strings.
From Stdlib Require Import ZArith.
From S2P Require Import Prelude Utf Serde Schema.

(** ** Declarations *)

Definition ChatTarget : ty := enum "ChatTarget" 1
  [ variant "All" 1 [];
    variant "AllGm" 3 [];
    variant "NPC" 13 [];
    variant "PrivateMessage" 2 [];
    variant "Party" 4 [];
    variant "Guild" 5 [];
    variant "Global" 6 [];
    variant "Stall" 9 [];
    variant "Union" 11 [];
    variant "Academy" 16 [];
    variant "Notice" 7 [] ].

Definition ChatSource : ty := enum "ChatSource" 1
  [ variant "All" 1 [fld "sender" U32];
    variant "AllGm" 3 [fld "sender" U32];
    variant "NPC" 13 [fld "sender" U32];
    variant "PrivateMessage" 2 [fld "sender" TString];
    variant "Party" 4 [fld "sender" TString];
    variant "Guild" 5 [fld "sender" TString];
    variant "Global" 6 [fld "sender" TString];
    variant "Stall" 9 [fld "sender" TString];
    variant "Union" 11 [fld "sender" TString];
    variant "Academy" 16 [fld "sender" TString];
    variant "Notice" 7 [] ].

Definition ChatErrorCode : ty := enum "ChatErrorCode" 2
  [ variant "InvalidTarget" 3 [];
    variant "WhisperMuted" 0x2006 [];
    variant "InvalidCommand" 0x2008 [] ].

Definition ChatMessageResult : ty := enum "ChatMessageResult" 1
  [variant "Success" 1 []; variant "Error" 2 [fld "code" ChatErrorCode]].

Definition TextCharacterInitialization : ty := struct "TextCharacterInitialization"
  [fld "characters" (TVec U64)].

Definition ChatUpdate : ty := struct "ChatUpdate"
  [fld "source" ChatSource; fld_with "message" (sized 2) TString].

Definition ChatMessage : ty := struct "ChatMessage"
  [fld "target" ChatTarget; fld "index" U8; fld "contains_link" Bool; fld "unknown" U8;
   fld_with "recipient" (guarded (matches "target" "PrivateMessage")) (TOption TString);
   fld_with "message" (sized 2) TString].

Definition ChatMessageResponse : ty := struct "ChatMessageResponse"
  [fld "result" ChatMessageResult; fld "target" ChatTarget; fld "index" U8].

(** ** Constructors *)

Definition ChatSource_all (sender : val) : val :=
  VEnum "All" [sender].

Definition ChatSource_allgm (sender : val) : val :=
  VEnum "AllGm" [sender].

Definition ChatSource_npc (sender : val) : val :=
  VEnum "NPC" [sender].

Definition ChatSource_privatemessage (sender : val) : val :=
  VEnum "PrivateMessage" [sender].

Definition ChatSource_party (sender : val) : val :=
  VEnum "Party" [sender].

Definition ChatSource_guild (sender : val) : val :=
  VEnum "Guild" [sender].

Definition ChatSource_global (sender : val) : val :=
  VEnum "Global" [sender].

Definition ChatSource_stall (sender : val) : val :=
  VEnum "Stall" [sender].

Definition ChatSource_union (sender : val) : val :=
  VEnum "Union" [sender].

Definition ChatSource_academy (sender : val) : val :=
  VEnum "Academy" [sender].

Definition ChatMessageResult_error (code : val) : val :=
  VEnum "Error" [code].

Definition TextCharacterInitialization_new (characters : val) : val :=
  VStruct [characters].

Definition ChatUpdate_new (source message : val) : val :=
  VStruct [source; message].

Definition ChatMessageResponse_new (result target index : val) : val :=
  VStruct [result; target; index].

(** The constructors with the types of their parameters and results. *)
Definition chat_constructors : list (ty * ctor) :=
  [ (ChatSource, Arg no_args U32 (fun sender => Ret (ChatSource_all sender)));
    (ChatSource, Arg no_args U32 (fun sender => Ret (ChatSource_allgm sender)));
    (ChatSource, Arg no_args U32 (fun sender => Ret (ChatSource_npc sender)));
    (ChatSource, Arg no_args TString (fun sender => Ret (ChatSource_privatemessage sender)));
    (ChatSource, Arg no_args TString (fun sender => Ret (ChatSource_party sender)));
    (ChatSource, Arg no_args TString (fun sender => Ret (ChatSource_guild sender)));
    (ChatSource, Arg no_args TString (fun sender => Ret (ChatSource_global sender)));
    (ChatSource, Arg no_args TString (fun sender => Ret (ChatSource_stall sender)));
    (ChatSource, Arg no_args TString (fun sender => Ret (ChatSource_union sender)));
    (ChatSource, Arg no_args TString (fun sender => Ret (ChatSource_academy sender)));
    (ChatMessageResult, Arg no_args ChatErrorCode (fun code => Ret (ChatMessageResult_error code)));
    (TextCharacterInitialization, Arg no_args (TVec U64) (fun characters => Ret
      (TextCharacterInitialization_new characters)));
    (ChatUpdate, Arg no_args ChatSource (fun source => Arg (sized 2) TString (fun message => Ret
      (ChatUpdate_new source message))));
    (ChatMessageResponse, Arg no_args ChatMessageResult (fun result => Arg no_args ChatTarget (fun
      target => Arg no_args U8 (fun index => Ret (ChatMessageResponse_new result target index))))) ].

Lemma chat_constructors_typed :
  Forall (fun c => well_typed c.1 c.2) chat_constructors.
Proof. check_ctors. Qed.

(** ** Declarations of gm.rs *)

Definition GmCommand : ty := enum "GmCommand" 2
  [ variant "BanUser" 0x0D [fld "name" TString];
    variant "SpawnMonster" 0x06 [fld "ref_id" U32; fld "amount" U8; fld "rarity" Rarity];
    variant "Invisible" 0x0E [];
    variant "Invincible" 0x0F [];
    variant "MakeItem" 0x07 [fld "ref_id" U32; fld "upgrade" U8];
    variant "KillMonster" 0x0B [fld "unique_id" U32; fld "unknown" U8] ].

Definition GmSuccessResult : ty := enum "GmSuccessResult" 2
  [ variant "Message" 1 [fld "t0" TString];
    variant "EntityIds" 4 [fld "player" U32; fld "mob" U32; fld "item" U32];
    variant "EventScriptRegisterOk" 0x15 [];
    variant "EventScriptUnRegisterOk" 0x16 [];
    variant "SiegeManagerOk" 0x21 [];
    variant "ClearInventoryOk" 0x31 [];
    variant "CheckMacroUserOk" 0x38 [] ].

Definition GmResponseResult : ty := enum "GmResponseResult" 1
  [variant "Success" 1 [fld "t0" GmSuccessResult]; variant "Error" 0 []].

Definition GmResponse : ty := struct "GmResponse"
  [fld "result" GmResponseResult].

(** ** Constructors of gm.rs *)

Definition GmResponse_success_message (message : val) : val :=
  VStruct [VEnum "Success" [VEnum "Message" [message]]].

Definition GmResponse_print_entity_ids (player_id mob_id item_id : val) : val :=
  VStruct [VEnum "Success" [VEnum "EntityIds" [player_id; mob_id; item_id]]].

(** The constructors with the types of their parameters and results. *)
Definition gm_constructors : list (ty * ctor) :=
  [ (GmResponse, Arg no_args TString (fun message => Ret (GmResponse_success_message message)));
    (GmResponse, Arg no_args U32 (fun player_id => Arg no_args U32 (fun mob_id => Arg no_args U32 (fun
      item_id => Ret (GmResponse_print_entity_ids player_id mob_id item_id))))) ].

Lemma gm_constructors_typed :
  Forall (fun c => well_typed c.1 c.2) gm_constructors.
Proof. check_ctors. Qed.

(** ** Declarations of community.rs *)

Definition GuildInformation : ty := struct "GuildInformation"
  [fld "name" TString; fld "id" U32; fld "member" TString; fld "last_icon_rev" U32;
   fld "union_id" U32; fld "last_union_icon_rev" U32; fld "is_friendly" U8; fld "siege_unknown" U8].

Definition FriendListGroup : ty := struct "FriendListGroup"
  [fld "id" U16; fld "name" TString].

Definition FriendListEntry : ty := struct "FriendListEntry"
  [fld "char_id" U32; fld "name" TString; fld "char_model" U32; fld "group_id" U16;
   fld "offline" Bool].

Definition FriendListInfo : ty := struct "FriendListInfo"
  [fld "groups" (TVec FriendListGroup); fld "friends" (TVec FriendListEntry)].

Definition AddFriend : ty := struct "AddFriend"
  [fld "name" TString].

Definition CreateFriendGroup : ty := struct "CreateFriendGroup"
  [fld "name" TString].

Definition DeleteFriend : ty := struct "DeleteFriend"
  [fld "friend_character_id" U32].

(** ** Constructors of community.rs *)

Definition GuildInformation_new (name id member last_icon_rev union_id last_union_icon_rev
    is_friendly : val) : val :=
  VStruct [name; id; member; last_icon_rev; union_id; last_union_icon_rev; is_friendly; VNum 0].

Definition FriendListGroup_new (id name : val) : val :=
  VStruct [id; name].

Definition FriendListGroup_not_assigned : val :=
  FriendListGroup_new (VNum 0) (VStr (chars "N/A")).

Definition FriendListEntry_new (char_id name char_model group_id offline : val) : val :=
  VStruct [char_id; name; char_model; group_id; offline].

Definition FriendListInfo_new (groups friends : val) : val :=
  VStruct [groups; friends].

(** The constructors with the types of their parameters and results. *)
Definition community_constructors : list (ty * ctor) :=
  [ (GuildInformation, Arg no_args TString (fun name => Arg no_args U32 (fun id => Arg no_args TString
      (fun member => Arg no_args U32 (fun last_icon_rev => Arg no_args U32 (fun union_id => Arg
      no_args U32 (fun last_union_icon_rev => Arg no_args U8 (fun is_friendly => Ret
      (GuildInformation_new name id member last_icon_rev union_id last_union_icon_rev
      is_friendly)))))))));
    (FriendListGroup, Arg no_args U16 (fun id => Arg no_args TString (fun name => Ret
      (FriendListGroup_new id name))));
    (FriendListGroup, Ret FriendListGroup_not_assigned);
    (FriendListEntry, Arg no_args U32 (fun char_id => Arg no_args TString (fun name => Arg no_args U32
      (fun char_model => Arg no_args U16 (fun group_id => Arg no_args Bool (fun offline => Ret
      (FriendListEntry_new char_id name char_model group_id offline)))))));
    (FriendListInfo, Arg no_args (TVec FriendListGroup) (fun groups => Arg no_args (TVec
      FriendListEntry) (fun friends => Ret (FriendListInfo_new groups friends)))) ].

Lemma community_constructors_typed :
  Forall (fun c => well_typed c.1 c.2) community_constructors.
Proof. check_ctors. Qed.
