(* ===== verification/ProtoCombat.v ===== *)
(** silkroad-protocol/src/combat.rs and skill.rs: attacks and damage; skills,
    masteries and hotkeys.

    One declaration per struct or enum deriving [Serialize] or [Deserialize], and
    one function per constructor, on the values of its parameters. *)
From stdpp Require Import base list option strings.
From Stdlib Require Import ZArith.
From S2P Require Import Prelude Serde Schema ProtoMovement.

(** ** Declarations *)

Definition ActionTarget : ty := enum "ActionTarget" 1
  [ variant "None" 0 [];
    variant "Entity" 1 [fld "t0" U32];
    variant "Area" 2 [fld "t0" Location] ].

Definition DoActionType : ty := enum "DoActionType" 1
  [ variant "Attack" 1 [fld "target" ActionTarget];
    variant "PickupItem" 2 [fld "target" ActionTarget];
    variant "UseSkill" 4 [fld "ref_id" U32; fld "target" ActionTarget];
    variant "CancelBuff" 5 [fld "ref_id" U32; fld "target" ActionTarget] ].

Definition PerformAction : ty := enum "PerformAction" 1
  [variant "Do" 1 [fld "t0" DoActionType]; variant "Stop" 2 []].

Definition DoActionResponseCode : ty := enum "DoActionResponseCode" 1
  [variant "Success" 1 []; variant "Error" 3 [fld "t0" U16]].

Definition PerformActionError : ty := enum "PerformActionError" 1
  [ variant "Completed" 0x00 [];
    variant "Obstacle" 0x01 [];
    variant "NotLearned" 0x03 [];
    variant "InsufficientMP" 0x04 [];
    variant "Cooldown" 0x05 [];
    variant "InvalidTarget" 0x06 [];
    variant "InvalidDistance" 0x07 [];
    variant "BuffsIntersect" 0x0C [];
    variant "InvalidWeapon" 0x0D [];
    variant "InsufficientAmmunition" 0x0E [];
    variant "WeaponBroken" 0x0F [];
    variant "ObstacleInPath" 0x10 [];
    variant "Untargetable" 0x11 [];
    variant "InsufficientHP" 0x13 [] ].

Definition PerformActionResponse : ty := enum "PerformActionResponse" 1
  [ variant "Do" 1 [fld "t0" DoActionResponseCode];
    variant "Stop" 2 [fld "t0" PerformActionError] ].

Definition DamageKind : ty := enum "DamageKind" 1
  [variant "Standard" 1 []; variant "Critical" 2 []].

Definition DamageValue : ty := struct "DamageValue"
  [fld "kind" DamageKind; fld "amount" U32; fld "unknown" U16; fld "unknown_2" U8].

Definition SkillPartDamage : ty := enum "SkillPartDamage" 1
  [ variant "Default" 0 [fld "t0" DamageValue];
    variant "KillingBlow" 0x80 [fld "t0" DamageValue];
    variant "Abort" 0x08 [] ].

Definition PerEntityDamage : ty := struct "PerEntityDamage"
  [fld "target" U32; fld_with "damage" (list_as "none") (TVec SkillPartDamage)].

Definition DamageContent : ty := struct "DamageContent"
  [fld "damage_instances" U8; fld_with "entities" (list_as "length") (TVec PerEntityDamage)].

Definition ActionType : ty := enum "ActionType" 1
  [ variant "None" 0 [];
    variant "Attack" 1 [fld "damage" (TOption DamageContent)];
    variant "Teleport" 8 [] ].

Definition PerformActionUpdate : ty := enum "PerformActionUpdate" 1
  [ variant "Success" 1
     [fld "unknown" U16; fld "skill_id" U32; fld "source" U32; fld "instance" U32;
      fld "unknown_4" U32; fld "target" U32; fld "kind" ActionType];
    variant "Error" 2 [fld "t0" PerformActionError] ].

Definition ReceiveExperience : ty := struct "ReceiveExperience"
  [fld "exp_origin" U32; fld "experience" U64; fld "sp" U64; fld "unknown" U8;
   fld_with "new_level" (sized 0) (TOption U16)].

(** ** Constructors *)

Definition ActionTarget_self_target : val :=
  VEnum "Entity" [VNum 0].

Definition DamageValue_new (kind amount : val) : val :=
  VStruct [kind; amount; VNum 0; VNum 0].

Definition PerformActionUpdate_success (skill_id source target instance kind : val) : val :=
  VEnum "Success" [VNum 0x3002; skill_id; source; instance; VNum 0; target; kind].

(** The constructors with the types of their parameters and results. *)
Definition combat_constructors : list (ty * ctor) :=
  [ (ActionTarget, Ret ActionTarget_self_target);
    (DamageValue, Arg no_args DamageKind (fun kind => Arg no_args U32 (fun amount => Ret
      (DamageValue_new kind amount))));
    (PerformActionUpdate, Arg no_args U32 (fun skill_id => Arg no_args U32 (fun source => Arg no_args
      U32 (fun target => Arg no_args U32 (fun instance => Arg no_args ActionType (fun kind => Ret
      (PerformActionUpdate_success skill_id source target instance kind))))))) ].

Lemma combat_constructors_typed :
  Forall (fun c => well_typed c.1 c.2) combat_constructors.
Proof. check_ctors. Qed.

(** ** Declarations of skill.rs *)

Definition LevelUpMastery : ty := struct "LevelUpMastery"
  [fld "mastery" U32; fld "amount" U8].

Definition LevelUpMasteryError : ty := enum "LevelUpMasteryError" 2
  [ variant "InsufficientSP" 0x3802 [];
    variant "MasteryMaxLevel" 0x3804 [];
    variant "ReachedTotalLimit" 0x3805 [] ].

Definition LevelUpMasteryResponse : ty := enum "LevelUpMasteryResponse" 1
  [ variant "Success" 1 [fld "mastery" U32; fld "new_level" U8];
    variant "Error" 2 [fld "t0" LevelUpMasteryError] ].

Definition LearnSkill : ty := struct "LearnSkill"
  [fld "t0" U32].

Definition LearnSkillResponse : ty := enum "LearnSkillResponse" 1
  [ variant "Success" 1 [fld "t0" U32];
    variant "Error" 2 [fld "t0" LevelUpMasteryError] ].

Definition MasteryData : ty := struct "MasteryData"
  [fld "id" U32; fld "level" U8].

Definition HotkeyData : ty := struct "HotkeyData"
  [fld "slot" U8; fld "kind" U8; fld "data" U32].

Definition SkillData : ty := struct "SkillData"
  [fld "id" U32; fld "enabled" Bool].

(** ** Constructors of skill.rs *)

Definition MasteryData_new (id level : val) : val :=
  VStruct [id; level].

Definition HotkeyData_new (slot kind data : val) : val :=
  VStruct [slot; kind; data].

Definition SkillData_new (id enabled : val) : val :=
  VStruct [id; enabled].

(** The constructors with the types of their parameters and results. *)
Definition skill_constructors : list (ty * ctor) :=
  [ (MasteryData, Arg no_args U32 (fun id => Arg no_args U8 (fun level => Ret (MasteryData_new id
      level))));
    (HotkeyData, Arg no_args U8 (fun slot => Arg no_args U8 (fun kind => Arg no_args U32 (fun data =>
      Ret (HotkeyData_new slot kind data)))));
    (SkillData, Arg no_args U32 (fun id => Arg no_args Bool (fun enabled => Ret (SkillData_new id
      enabled)))) ].

Lemma skill_constructors_typed :
  Forall (fun c => well_typed c.1 c.2) skill_constructors.
Proof. check_ctors. Qed.
