(* ===== verification/ProtoInventory.v ===== *)
(** silkroad-protocol/src/inventory.rs: inventory, rent and consignment.

    One declaration per struct or enum deriving [Serialize] or [Deserialize], and
    one function per constructor, on the values of its parameters. *)
From stdpp Require Import base list option strings.
From Stdlib Require Import ZArith.
From S2P Require Import Prelude Serde Schema.

(** ** Declarations *)

Definition InventoryOperationRequest : ty := enum "InventoryOperationRequest" 1
  [ variant "Move" 0x00 [fld "source" U8; fld "target" U8; fld "amount" U16];
    variant "DropGold" 0x0A [fld "amount" U64];
    variant "PickupItem" 0x06 [fld "unique_id" U32];
    variant "DropItem" 0x07 [fld "slot" U8] ].

Definition RentInfo : ty := enum "RentInfo" 4
  [ variant "Empty" 0 [];
    variant "First" 1 [fld "can_delete" U16; fld "start" U64; fld "end" U64];
    variant "Second" 2 [fld "can_delete" U16; fld "can_recharge" U16; fld "meter_rate" U32];
    variant "Third" 3
     [fld "can_delete" U16; fld "can_recharge" U16; fld "start" U64; fld "end" U64;
      fld "pickup" U64] ].

Definition InventoryItemMagicData : ty := struct "InventoryItemMagicData"
  [].

Definition InventoryItemBindingData : ty := struct "InventoryItemBindingData"
  [fld "kind" U8; fld "value" U8].

Definition InventoryItemContentData : ty := enum "InventoryItemContentData" 0
  [ untagged "Equipment"
     [fld "plus_level" U8; fld "variance" U64; fld "durability" U32;
      fld "magic" (TVec InventoryItemMagicData); fld "bindings_1" InventoryItemBindingData;
      fld "bindings_2" InventoryItemBindingData; fld "bindings_3" InventoryItemBindingData;
      fld "bindings_4" InventoryItemBindingData];
    untagged "Expendable" [fld "stack_size" U16] ].

Definition ItemPickupData : ty := enum "ItemPickupData" 0
  [ untagged "Gold" [fld "amount" U32];
    untagged "Item"
     [fld "rent" RentInfo; fld "ref_id" U32; fld "content" InventoryItemContentData];
    untagged "General" [] ].

Definition InventoryOperationResponseData : ty := enum "InventoryOperationResponseData" 1
  [ variant "UpdateSlots" 0x00
     [fld "source_slot" U8; fld "target_slot" U8; fld "amount" U16; fld "unknown" (TOption U8)];
    variant "DropGold" 0x0A [fld "amount" U64];
    variant "PickupItem" 0x06 [fld "slot" U8; fld "item" ItemPickupData];
    variant "AddedByServer" 0x0e [fld "slot" U8; fld "unknown" U8; fld "data" ItemPickupData] ].

Definition ConsignmentErrorCode : ty := enum "ConsignmentErrorCode" 2
  [variant "NotEnoughGold" 0x700D []].

Definition ConsignmentItem : ty := struct "ConsignmentItem"
  [fld "personal_id" U32; fld "status" U8; fld "ref_item_id" U32; fld "sell_count" U32;
   fld "price" U64; fld "deposit" U64; fld "fee" U64; fld "end_date" U32].

Definition ConsignmentResult : ty := enum "ConsignmentResult" 1
  [ variant "Success" 1 [fld "items" (TVec ConsignmentItem)];
    variant "Error" 2 [fld "code" ConsignmentErrorCode] ].

Definition InventoryOperationError : ty := enum "InventoryOperationError" 2
  [ variant "InvalidTarget" 0x03 [];
    variant "InventoryFull" 0x1807 [];
    variant "SomethingMallLevelLimit" 0x1808 [];
    variant "CannotBeStored" 0x180B [];
    variant "EquipItemErr" 0x180E [];
    variant "NotEnoughGold" 0x180F [];
    variant "TooLowLevel" 0x1810 [];
    variant "LockedByOthers" 0x1812 [];
    variant "DifferentSex" 0x1816 [];
    variant "Busy" 0x181E [];
    variant "Timeout" 0x1826 [];
    variant "ExchangeCancelled" 0x182B [];
    variant "DifferentRegion" 0x182F [];
    variant "MoreStrengthRequired" 0x1830 [];
    variant "MoreIntellectRequired" 0x1831 [];
    variant "Indisposable" 0x1838 [];
    variant "CannotBePicked" 0x1839 [];
    variant "CannotTrade" 0x183A [];
    variant "Unusable" 0x183e [];
    variant "InsufficientCoins" 0x184A [];
    variant "RequiresSpecialtyBag" 0x18DC [] ].

Definition InventoryOperationResult : ty := enum "InventoryOperationResult" 1
  [ variant "Error" 2 [fld "t0" InventoryOperationError];
    variant "Success" 1 [fld "t0" InventoryOperationResponseData] ].

Definition InventoryItemData : ty := struct "InventoryItemData"
  [fld "slot" U8; fld "rent_data" RentInfo; fld "item_id" U32;
   fld "content_data" InventoryItemContentData].

Definition JobBagContent : ty := struct "JobBagContent"
  [fld "items" (TVec InventoryItemData)].

Definition InventoryAvatarItemData : ty := struct "InventoryAvatarItemData"
  [].

Definition CharacterSpawnItemData : ty := struct "CharacterSpawnItemData"
  [fld "item_id" U32; fld "upgrade_level" U8].

Definition ConsignmentList : ty := struct "ConsignmentList"
  [].

Definition ConsignmentResponse : ty := struct "ConsignmentResponse"
  [fld "result" ConsignmentResult].

Definition InventoryOperation : ty := struct "InventoryOperation"
  [fld "data" InventoryOperationRequest].

Definition OpenItemMall : ty := struct "OpenItemMall"
  [].

Definition OpenItemMallResult : ty := enum "OpenItemMallResult" 1
  [variant "Error" 2 []; variant "Success" 1 [fld "jid" U32; fld "token" TString]].

Definition OpenItemMallResponse : ty := struct "OpenItemMallResponse"
  [fld "t0" OpenItemMallResult].

(** ** Constructors *)

Definition InventoryOperationRequest_dropgold (amount : val) : val :=
  VEnum "DropGold" [amount].

Definition RentInfo_first (can_delete start end_ : val) : val :=
  VEnum "First" [can_delete; start; end_].

Definition RentInfo_second (can_delete can_recharge meter_rate : val) : val :=
  VEnum "Second" [can_delete; can_recharge; meter_rate].

Definition RentInfo_third (can_delete can_recharge start end_ pickup : val) : val :=
  VEnum "Third" [can_delete; can_recharge; start; end_; pickup].

Definition ItemPickupData_gold (amount : val) : val :=
  VEnum "Gold" [amount].

Definition ItemPickupData_item (rent ref_id content : val) : val :=
  VEnum "Item" [rent; ref_id; content].

Definition InventoryOperationResponseData_dropgold (amount : val) : val :=
  VEnum "DropGold" [amount].

Definition InventoryOperationResponseData_pickupitem (slot item : val) : val :=
  VEnum "PickupItem" [slot; item].

Definition InventoryOperationResponseData_move_item (source dest amount : val) : val :=
  VEnum "UpdateSlots" [source; dest; amount; VOpt None].

Definition ConsignmentResult_success (items : val) : val :=
  VEnum "Success" [items].

Definition ConsignmentResult_error (code : val) : val :=
  VEnum "Error" [code].

Definition InventoryItemContentData_equipment (plus_level variance durability magic bindings_1
    bindings_2 bindings_3 bindings_4 : val) : val :=
  VEnum "Equipment" [plus_level; variance; durability; magic; bindings_1; bindings_2; bindings_3;
    bindings_4].

Definition InventoryItemContentData_expendable (stack_size : val) : val :=
  VEnum "Expendable" [stack_size].

Definition InventoryOperationResult_success_gain_gold (amount : val) : val :=
  VEnum "Success" [VEnum "PickupItem" [VNum 0xFE; VEnum "Gold" [amount]]].

Definition InventoryOperationResult_success_gain_item (slot ref_id content : val) : val :=
  VEnum "Success" [VEnum "PickupItem" [slot; VEnum "Item" [VEnum "Empty" []; ref_id; content]]].

Definition JobBagContent_new (items : val) : val :=
  VStruct [items].

Definition InventoryItemData_new (slot rent_data item_id content_data : val) : val :=
  VStruct [slot; rent_data; item_id; content_data].

Definition InventoryItemBindingData_new (kind value : val) : val :=
  VStruct [kind; value].

Definition CharacterSpawnItemData_new (item_id upgrade_level : val) : val :=
  VStruct [item_id; upgrade_level].

Definition ConsignmentItem_new (personal_id status ref_item_id sell_count price deposit fee
    end_date : val) : val :=
  VStruct [personal_id; status; ref_item_id; sell_count; price; deposit; fee; end_date].

Definition ConsignmentResponse_new (result : val) : val :=
  VStruct [result].

Definition ConsignmentResponse_success_empty : val :=
  VStruct [VEnum "Success" [VSeq []]].

(** The constructors with the types of their parameters and results. *)
Definition inventory_constructors : list (ty * ctor) :=
  [ (InventoryOperationRequest, Arg no_args U64 (fun amount => Ret (InventoryOperationRequest_dropgold
      amount)));
    (RentInfo, Arg no_args U16 (fun can_delete => Arg no_args U64 (fun start => Arg no_args U64 (fun
      end_ => Ret (RentInfo_first can_delete start end_)))));
    (RentInfo, Arg no_args U16 (fun can_delete => Arg no_args U16 (fun can_recharge => Arg no_args U32
      (fun meter_rate => Ret (RentInfo_second can_delete can_recharge meter_rate)))));
    (RentInfo, Arg no_args U16 (fun can_delete => Arg no_args U16 (fun can_recharge => Arg no_args U64
      (fun start => Arg no_args U64 (fun end_ => Arg no_args U64 (fun pickup => Ret
      (RentInfo_third can_delete can_recharge start end_ pickup)))))));
    (ItemPickupData, Arg no_args U32 (fun amount => Ret (ItemPickupData_gold amount)));
    (ItemPickupData, Arg no_args RentInfo (fun rent => Arg no_args U32 (fun ref_id => Arg no_args
      InventoryItemContentData (fun content => Ret (ItemPickupData_item rent ref_id content)))));
    (InventoryOperationResponseData, Arg no_args U64 (fun amount => Ret
      (InventoryOperationResponseData_dropgold amount)));
    (InventoryOperationResponseData, Arg no_args U8 (fun slot => Arg no_args ItemPickupData (fun item
      => Ret (InventoryOperationResponseData_pickupitem slot item))));
    (InventoryOperationResponseData, Arg no_args U8 (fun source => Arg no_args U8 (fun dest => Arg
      no_args U16 (fun amount => Ret (InventoryOperationResponseData_move_item source dest
      amount)))));
    (ConsignmentResult, Arg no_args (TVec ConsignmentItem) (fun items => Ret
      (ConsignmentResult_success items)));
    (ConsignmentResult, Arg no_args ConsignmentErrorCode (fun code => Ret (ConsignmentResult_error
      code)));
    (InventoryItemContentData, Arg no_args U8 (fun plus_level => Arg no_args U64 (fun variance => Arg
      no_args U32 (fun durability => Arg no_args (TVec InventoryItemMagicData) (fun magic => Arg
      no_args InventoryItemBindingData (fun bindings_1 => Arg no_args InventoryItemBindingData
      (fun bindings_2 => Arg no_args InventoryItemBindingData (fun bindings_3 => Arg no_args
      InventoryItemBindingData (fun bindings_4 => Ret (InventoryItemContentData_equipment
      plus_level variance durability magic bindings_1 bindings_2 bindings_3 bindings_4))))))))));
    (InventoryItemContentData, Arg no_args U16 (fun stack_size => Ret
      (InventoryItemContentData_expendable stack_size)));
    (InventoryOperationResult, Arg no_args U32 (fun amount => Ret
      (InventoryOperationResult_success_gain_gold amount)));
    (InventoryOperationResult, Arg no_args U8 (fun slot => Arg no_args U32 (fun ref_id => Arg no_args
      InventoryItemContentData (fun content => Ret (InventoryOperationResult_success_gain_item
      slot ref_id content)))));
    (JobBagContent, Arg no_args (TVec InventoryItemData) (fun items => Ret (JobBagContent_new items)));
    (InventoryItemData, Arg no_args U8 (fun slot => Arg no_args RentInfo (fun rent_data => Arg no_args
      U32 (fun item_id => Arg no_args InventoryItemContentData (fun content_data => Ret
      (InventoryItemData_new slot rent_data item_id content_data))))));
    (InventoryItemBindingData, Arg no_args U8 (fun kind => Arg no_args U8 (fun value => Ret
      (InventoryItemBindingData_new kind value))));
    (CharacterSpawnItemData, Arg no_args U32 (fun item_id => Arg no_args U8 (fun upgrade_level => Ret
      (CharacterSpawnItemData_new item_id upgrade_level))));
    (ConsignmentItem, Arg no_args U32 (fun personal_id => Arg no_args U8 (fun status => Arg no_args
      U32 (fun ref_item_id => Arg no_args U32 (fun sell_count => Arg no_args U64 (fun price => Arg
      no_args U64 (fun deposit => Arg no_args U64 (fun fee => Arg no_args U32 (fun end_date => Ret
      (ConsignmentItem_new personal_id status ref_item_id sell_count price deposit fee
      end_date))))))))));
    (ConsignmentResponse, Arg no_args ConsignmentResult (fun result => Ret (ConsignmentResponse_new
      result)));
    (ConsignmentResponse, Ret ConsignmentResponse_success_empty) ].

Lemma inventory_constructors_typed :
  Forall (fun c => well_typed c.1 c.2) inventory_constructors.
Proof. check_ctors. Qed.
