(* ===== verification/ProtoCharacter.v ===== *)
(** silkroad-protocol/src/character.rs: the character list and character statistics.

    One declaration per struct or enum deriving [Serialize] or [Deserialize], and
    one function per constructor, on the values of its parameters. *)
From stdpp Require Import base list option strings.
From Stdlib Require Import ZArith.
From S2P Require Import Prelude Serde Schema.

(** ** Declarations *)

Definition CharacterListAction : ty := enum "CharacterListAction" 1
  [ variant "Create" 1 [];
    variant "List" 2 [];
    variant "Delete" 3 [];
    variant "CheckName" 4 [];
    variant "Restore" 5 [];
    variant "ShowJobSpread" 9 [];
    variant "AssignJob" 0x10 [] ].

Definition CharacterListError : ty := enum "CharacterListError" 2
  [ variant "InvalidCharacterData" 0x403 [];
    variant "WeaponRequired" 0x404 [];
    variant "TooManyCharacters" 0x405 [];
    variant "CouldntCreateCharacter" 0x406 [];
    variant "UnknownGameserver" 0x409 [];
    variant "NameTooLong" 0x40C [];
    variant "InvalidName" 0x40D [];
    variant "NameAlreadyUsed" 0x410 [];
    variant "ConnectionOverlay" 0x411 [];
    variant "ReachedCapacity" 0x414 [];
    variant "FailedToJoinWorld" 0x415 [];
    variant "CouldntConnectToServer" 0x418 [] ].

Definition TimeInformation : ty := enum "TimeInformation" 1
  [ variant "Deleting" 1 [fld "last_logout" Time; fld "deletion_time_remaining" U32];
    variant "Playable" 0 [fld "last_logout" Time] ].

Definition CharacterListEquippedItem : ty := struct "CharacterListEquippedItem"
  [fld "id" U32; fld "upgrade_level" U8].

Definition CharacterListAvatarItem : ty := struct "CharacterListAvatarItem"
  [fld "id" U32].

Definition CharacterListEntry : ty := struct "CharacterListEntry"
  [fld "ref_id" U32; fld "name" TString; fld "unknown" TString; fld "scale" U8; fld "level" U8;
   fld "exp" U64; fld "strength" U16; fld "intelligence" U16; fld "stat_points" U16; fld "sp" U32;
   fld "hp" U32; fld "mp" U32; fld "region" U16; fld "playtime_info" TimeInformation;
   fld "guild_member_class" U8; fld "guild_rename_required" (TOption TString);
   fld "academy_member_class" U8; fld "equipped_items" (TVec CharacterListEquippedItem);
   fld "avatar_items" (TVec CharacterListAvatarItem)].

Definition CharacterListContent : ty := enum "CharacterListContent" 0
  [ untagged "Characters" [fld "characters" (TVec CharacterListEntry); fld "job" U8];
    untagged "Empty" [];
    untagged "JobSpread" [fld "hunters" U8; fld "thieves" U8] ].

Definition CharacterListResult : ty := enum "CharacterListResult" 1
  [ variant "Ok" 1 [fld "content" CharacterListContent];
    variant "Error" 2 [fld "error" CharacterListError] ].

Definition CharacterListRequestAction : ty := enum "CharacterListRequestAction" 1
  [ variant "Create" 1
     [fld "character_name" TString; fld "ref_id" U32; fld "scale" U8; fld "chest" U32;
      fld "pants" U32; fld "boots" U32; fld "weapon" U32];
    variant "List" 2 [];
    variant "Delete" 3 [fld "character_name" TString];
    variant "CheckName" 4 [fld "character_name" TString];
    variant "Restore" 5 [fld "character_name" TString];
    variant "ShowJobSpread" 9 [];
    variant "AssignJob" 0x10 [fld "job" U8] ].

Definition CharacterJoinResult : ty := enum "CharacterJoinResult" 1
  [variant "Success" 1 []; variant "Error" 2 [fld "error" CharacterListError]].

Definition CharacterListResponse : ty := struct "CharacterListResponse"
  [fld "action" CharacterListAction; fld "result" CharacterListResult].

Definition CharacterListRequest : ty := struct "CharacterListRequest"
  [fld "action" CharacterListRequestAction].

Definition CharacterJoinRequest : ty := struct "CharacterJoinRequest"
  [fld "character_name" TString].

Definition CharacterJoinResponse : ty := struct "CharacterJoinResponse"
  [fld "result" CharacterJoinResult].

Definition CharacterStatsMessage : ty := struct "CharacterStatsMessage"
  [fld "phys_attack_min" U32; fld "phys_attack_max" U32; fld "mag_attack_min" U32;
   fld "mag_attack_max" U32; fld "phys_defense" U16; fld "mag_defense" U16; fld "hit_rate" U16;
   fld "parry_rate" U16; fld "max_hp" U32; fld "max_mp" U32; fld "strength" U16;
   fld "intelligence" U16].

Definition UnknownPacketInner : ty := struct "UnknownPacketInner"
  [fld "unknown" U32; fld "unknown_2" (TOption U32)].

Definition UnknownPacket : ty := struct "UnknownPacket"
  [fld "unknown_1" U8; fld_with "unknown_2" (sized 4) (TVec UnknownPacketInner)].

Definition UnknownPacket2 : ty := struct "UnknownPacket2"
  [fld "unknown_1" U8; fld "id" U32; fld "unknown_2" U32].

Definition MacroStatus : ty := enum "MacroStatus" 1
  [ variant "Possible" 0 [fld "t0" U8; fld "t1" U8];
    variant "Disabled" 1 [fld "t0" TString; fld "t1" TString; fld "t2" U8] ].

Definition FinishLoading : ty := struct "FinishLoading"
  [].

Definition UpdateGameGuide : ty := struct "UpdateGameGuide"
  [fld "t0" U64].

Definition GameGuideResponse : ty := enum "GameGuideResponse" 1
  [variant "Success" 1 [fld "t0" U64]].

(** ** Constructors *)

Definition CharacterListContent_characters (characters job : val) : val :=
  VEnum "Characters" [characters; job].

Definition CharacterListContent_jobspread (hunters thieves : val) : val :=
  VEnum "JobSpread" [hunters; thieves].

Definition CharacterListResult_ok (content : val) : val :=
  VEnum "Ok" [content].

Definition CharacterListResult_error (error : val) : val :=
  VEnum "Error" [error].

Definition CharacterListRequestAction_create (character_name ref_id scale chest pants boots weapon
    : val) : val :=
  VEnum "Create" [character_name; ref_id; scale; chest; pants; boots; weapon].

Definition CharacterListRequestAction_delete (character_name : val) : val :=
  VEnum "Delete" [character_name].

Definition CharacterListRequestAction_checkname (character_name : val) : val :=
  VEnum "CheckName" [character_name].

Definition CharacterListRequestAction_restore (character_name : val) : val :=
  VEnum "Restore" [character_name].

Definition CharacterListRequestAction_assignjob (job : val) : val :=
  VEnum "AssignJob" [job].

Definition CharacterJoinResult_error (error : val) : val :=
  VEnum "Error" [error].

Definition TimeInformation_deleting (last_logout deletion_time_remaining : val) : val :=
  VEnum "Deleting" [last_logout; deletion_time_remaining].

Definition TimeInformation_playable (last_logout : val) : val :=
  VEnum "Playable" [last_logout].

Definition CharacterListEquippedItem_new (id upgrade_level : val) : val :=
  VStruct [id; upgrade_level].

Definition CharacterListAvatarItem_new (id : val) : val :=
  VStruct [id].

Definition CharacterListEntry_new (ref_id name scale level exp strength intelligence stat_points
    sp hp mp region playtime_info guild_member_class guild_rename_required academy_member_class
    equipped_items avatar_items : val) : val :=
  VStruct [ref_id; name; VStr []; scale; level; exp; strength; intelligence; stat_points; sp; hp;
    mp; region; playtime_info; guild_member_class; guild_rename_required; academy_member_class;
    equipped_items; avatar_items].

Definition CharacterListResponse_new (action result : val) : val :=
  VStruct [action; result].

Definition CharacterJoinResponse_success : val :=
  VStruct [VEnum "Success" []].

Definition CharacterJoinResponse_error (error : val) : val :=
  VStruct [VEnum "Error" [error]].

Definition CharacterStatsMessage_new (phys_attack_min phys_attack_max mag_attack_min
    mag_attack_max phys_defense mag_defense hit_rate parry_rate max_hp max_mp strength
    intelligence : val) : val :=
  VStruct [phys_attack_min; phys_attack_max; mag_attack_min; mag_attack_max; phys_defense;
    mag_defense; hit_rate; parry_rate; max_hp; max_mp; strength; intelligence].

Definition UnknownPacket_new : val :=
  VStruct [VNum 4; VSeq []].

Definition UnknownPacket2_new (id : val) : val :=
  VStruct [VNum 1; id; VNum 0].

(** The constructors with the types of their parameters and results. *)
Definition character_constructors : list (ty * ctor) :=
  [ (CharacterListContent, Arg no_args (TVec CharacterListEntry) (fun characters => Arg no_args U8
      (fun job => Ret (CharacterListContent_characters characters job))));
    (CharacterListContent, Arg no_args U8 (fun hunters => Arg no_args U8 (fun thieves => Ret
      (CharacterListContent_jobspread hunters thieves))));
    (CharacterListResult, Arg no_args CharacterListContent (fun content => Ret (CharacterListResult_ok
      content)));
    (CharacterListResult, Arg no_args CharacterListError (fun error => Ret (CharacterListResult_error
      error)));
    (CharacterListRequestAction, Arg no_args TString (fun character_name => Arg no_args U32 (fun
      ref_id => Arg no_args U8 (fun scale => Arg no_args U32 (fun chest => Arg no_args U32 (fun
      pants => Arg no_args U32 (fun boots => Arg no_args U32 (fun weapon => Ret
      (CharacterListRequestAction_create character_name ref_id scale chest pants boots
      weapon)))))))));
    (CharacterListRequestAction, Arg no_args TString (fun character_name => Ret
      (CharacterListRequestAction_delete character_name)));
    (CharacterListRequestAction, Arg no_args TString (fun character_name => Ret
      (CharacterListRequestAction_checkname character_name)));
    (CharacterListRequestAction, Arg no_args TString (fun character_name => Ret
      (CharacterListRequestAction_restore character_name)));
    (CharacterListRequestAction, Arg no_args U8 (fun job => Ret (CharacterListRequestAction_assignjob
      job)));
    (CharacterJoinResult, Arg no_args CharacterListError (fun error => Ret (CharacterJoinResult_error
      error)));
    (TimeInformation, Arg no_args Time (fun last_logout => Arg no_args U32 (fun
      deletion_time_remaining => Ret (TimeInformation_deleting last_logout
      deletion_time_remaining))));
    (TimeInformation, Arg no_args Time (fun last_logout => Ret (TimeInformation_playable
      last_logout)));
    (CharacterListEquippedItem, Arg no_args U32 (fun id => Arg no_args U8 (fun upgrade_level => Ret
      (CharacterListEquippedItem_new id upgrade_level))));
    (CharacterListAvatarItem, Arg no_args U32 (fun id => Ret (CharacterListAvatarItem_new id)));
    (CharacterListEntry, Arg no_args U32 (fun ref_id => Arg no_args TString (fun name => Arg no_args
      U8 (fun scale => Arg no_args U8 (fun level => Arg no_args U64 (fun exp => Arg no_args U16
      (fun strength => Arg no_args U16 (fun intelligence => Arg no_args U16 (fun stat_points =>
      Arg no_args U32 (fun sp => Arg no_args U32 (fun hp => Arg no_args U32 (fun mp => Arg no_args
      U16 (fun region => Arg no_args TimeInformation (fun playtime_info => Arg no_args U8 (fun
      guild_member_class => Arg no_args (TOption TString) (fun guild_rename_required => Arg
      no_args U8 (fun academy_member_class => Arg no_args (TVec CharacterListEquippedItem) (fun
      equipped_items => Arg no_args (TVec CharacterListAvatarItem) (fun avatar_items => Ret
      (CharacterListEntry_new ref_id name scale level exp strength intelligence stat_points sp hp
      mp region playtime_info guild_member_class guild_rename_required academy_member_class
      equipped_items avatar_items))))))))))))))))))));
    (CharacterListResponse, Arg no_args CharacterListAction (fun action => Arg no_args
      CharacterListResult (fun result => Ret (CharacterListResponse_new action result))));
    (CharacterJoinResponse, Ret CharacterJoinResponse_success);
    (CharacterJoinResponse, Arg no_args CharacterListError (fun error => Ret
      (CharacterJoinResponse_error error)));
    (CharacterStatsMessage, Arg no_args U32 (fun phys_attack_min => Arg no_args U32 (fun
      phys_attack_max => Arg no_args U32 (fun mag_attack_min => Arg no_args U32 (fun
      mag_attack_max => Arg no_args U16 (fun phys_defense => Arg no_args U16 (fun mag_defense =>
      Arg no_args U16 (fun hit_rate => Arg no_args U16 (fun parry_rate => Arg no_args U32 (fun
      max_hp => Arg no_args U32 (fun max_mp => Arg no_args U16 (fun strength => Arg no_args U16
      (fun intelligence => Ret (CharacterStatsMessage_new phys_attack_min phys_attack_max
      mag_attack_min mag_attack_max phys_defense mag_defense hit_rate parry_rate max_hp max_mp
      strength intelligence))))))))))))));
    (UnknownPacket, Ret UnknownPacket_new);
    (UnknownPacket2, Arg no_args U32 (fun id => Ret (UnknownPacket2_new id))) ].

Lemma character_constructors_typed :
  Forall (fun c => well_typed c.1 c.2) character_constructors.
Proof. check_ctors. Qed.
