(* ===== verification/ProtoWorld.v ===== *)
(** silkroad-protocol/src/world.rs: entity states and world notifications.

    One declaration per struct or enum deriving [Serialize] or [Deserialize], and
    one function per constructor, on the values of its parameters. *)
From stdpp Require Import base list option strings.
From Stdlib Require Import ZArith.
From S2P Require Import Prelude Serde Schema ProtoMovement.

(** ** Declarations *)

Definition PvpCape : ty := enum "PvpCape" 1
  [ variant "None" 0 [];
    variant "Red" 1 [];
    variant "Gray" 2 [];
    variant "Blue" 3 [];
    variant "White" 4 [];
    variant "Yellow" 5 [] ].

Definition AliveState : ty := enum "AliveState" 1
  [variant "Spawning" 0 []; variant "Alive" 1 []; variant "Dead" 2 []].

Definition JobType : ty := enum "JobType" 1
  [ variant "None" 0 [];
    variant "Trader" 1 [];
    variant "Thief" 2 [];
    variant "Hunter" 3 [] ].

Definition PlayerKillState : ty := enum "PlayerKillState" 1
  [variant "None" 0xFF []; variant "Purple" 1 []; variant "Red" 2 []].

Definition ActiveScroll : ty := enum "ActiveScroll" 1
  [variant "None" 0 []; variant "ReturnScroll" 1 []; variant "JobScroll" 2 []].

Definition InteractOptions : ty := enum "InteractOptions" 1
  [variant "None" 0 []; variant "Talk" 2 [fld "options" (TVec U8)]].

Definition BodyState : ty := enum "BodyState" 1
  [ variant "None" 0 [];
    variant "Berserk" 1 [];
    variant "Untouchable" 2 [];
    variant "GMInvincible" 3 [];
    variant "GMInvisible" 4 [];
    variant "Berserk2" 5 [];
    variant "Stealth" 6 [];
    variant "Invisible" 7 [] ].

Definition WeatherType : ty := enum "WeatherType" 1
  [variant "Clear" 1 []; variant "Rain" 2 []; variant "Snow" 3 []].

Definition ActionState : ty := enum "ActionState" 1
  [ variant "None" 0 [];
    variant "Walking" 2 [];
    variant "Running" 3 [];
    variant "Sitting" 4 [] ].

Definition TargetEntityError : ty := enum "TargetEntityError" 2
  [variant "InvalidTarget" 0x04 []].

Definition TargetEntityData : ty := enum "TargetEntityData" 0
  [ untagged "Monster" [fld "unknown" U32; fld "interact_data" (TOption U8)];
    untagged "NPC" [fld "talk_options" (TOption InteractOptions)] ].

Definition TargetEntityResult : ty := enum "TargetEntityResult" 1
  [ variant "Failure" 2 [fld "error" TargetEntityError];
    variant "Success" 1
     [fld "unique_id" U32; fld "health" (TOption U32); fld "entity_data" TargetEntityData] ].

Definition ActiveBuffData : ty := struct "ActiveBuffData"
  [fld "id" U32; fld "token" U32].

Definition EntityState : ty := struct "EntityState"
  [fld "alive" AliveState; fld "unknown1" U8; fld "action_state" ActionState;
   fld "body_state" BodyState; fld "unknown2" U8; fld "walk_speed" F32; fld "run_speed" F32;
   fld "berserk_speed" F32; fld "active_buffs" (TVec ActiveBuffData)].

Definition CelestialUpdate : ty := struct "CelestialUpdate"
  [fld "unique_id" U32; fld "moon_position" U16; fld "hour" U8; fld "minute" U8].

Definition LunarEventInfo : ty := struct "LunarEventInfo"
  [fld "unknown_1" U8; fld "unknown_2" U8; fld "unknown_3" U32; fld "unknown_4" U32;
   fld "current_achieved" U32; fld "total" U32].

Definition CooldownInfo : ty := struct "CooldownInfo"
  [fld "ref_id" U32; fld "cooldown" U32].

Definition CharacterFinished : ty := struct "CharacterFinished"
  [fld "item_cooldowns" (TVec CooldownInfo); fld "skill_cooldowns" (TVec CooldownInfo)].

Definition WeatherUpdate : ty := struct "WeatherUpdate"
  [fld "kind" WeatherType; fld "speed" U8].

Definition GameNotification : ty := enum "GameNotification" 2
  [ variant "UniqueSpawned" 0xc05 [fld "ref_id" U32];
    variant "UniqueKilled" 0xc06 [fld "ref_id" U32; fld "player" TString] ].

Definition UpdatedState : ty := enum "UpdatedState" 1
  [ variant "Life" 0 [fld "t0" AliveState];
    variant "Movement" 1 [fld "t0" MovementType];
    variant "Body" 4 [fld "t0" BodyState];
    variant "Pvp" 7 [fld "t0" U8];
    variant "Battle" 8 [fld "t0" Bool];
    variant "Scroll" 11 [fld "t0" U8] ].

Definition EntityUpdateState : ty := struct "EntityUpdateState"
  [fld "unique_id" U32; fld "update" UpdatedState].

Definition TargetEntity : ty := struct "TargetEntity"
  [fld "unique_id" U32].

Definition TargetEntityResponse : ty := struct "TargetEntityResponse"
  [fld "result" TargetEntityResult].

Definition UnTargetEntity : ty := struct "UnTargetEntity"
  [fld "unique_id" U32].

Definition UnTargetEntityResponse : ty := struct "UnTargetEntityResponse"
  [fld "success" Bool].

Definition EntityBarUpdateSource : ty := enum "EntityBarUpdateSource" 2
  [variant "Damage" 0x01 []; variant "Regen" 0x10 []; variant "LevelUp" 0x80 []].

Definition EntityBarUpdates : ty := enum "EntityBarUpdates" 1
  [ variant "None" 0 [];
    variant "HP" 1 [fld "amount" U32];
    variant "MP" 2 [fld "amount" U32];
    variant "Both" 3 [fld "hp" U32; fld "mp" U32];
    variant "Status" 4 [fld "effects" U32; fld_with "levels" (list_as "none") (TVec U8)] ].

Definition EntityBarsUpdate : ty := struct "EntityBarsUpdate"
  [fld "unique_id" U32; fld "source" EntityBarUpdateSource; fld "updates" EntityBarUpdates].

Definition CharacterPointsUpdate : ty := enum "CharacterPointsUpdate" 1
  [ variant "Gold" 1 [fld "amount" U64; fld "display" Bool];
    variant "SP" 2 [fld "amount" U32; fld "display" Bool];
    variant "StatPoints" 3 [fld "t0" U16];
    variant "Berserk" 4 [fld "amount" U8; fld "source" U32] ].

Definition CharacterEquipItem : ty := struct "CharacterEquipItem"
  [fld "entity" U32; fld "slot" U8; fld "item_ref" U32; fld "opt_level" U8].

Definition CharacterUnequipItem : ty := struct "CharacterUnequipItem"
  [fld "entity" U32; fld "slot" U8; fld "item_ref" U32].

Definition PlayerPickupAnimation : ty := struct "PlayerPickupAnimation"
  [fld "entity" U32; fld "rotation" U8].

Definition LevelUpEffect : ty := struct "LevelUpEffect"
  [fld "entity" U32].

Definition IncreaseStr : ty := struct "IncreaseStr"
  [].

Definition IncreaseStrResponse : ty := enum "IncreaseStrResponse" 1
  [variant "Success" 1 []; variant "Error" 2 [fld "t0" U16]].

Definition IncreaseInt : ty := struct "IncreaseInt"
  [].

Definition IncreaseIntResponse : ty := enum "IncreaseIntResponse" 1
  [variant "Success" 1 []; variant "Error" 2 [fld "t0" U16]].

(** ** Constructors *)

Definition InteractOptions_talk (options : val) : val :=
  VEnum "Talk" [options].

Definition TargetEntityResult_failure (error : val) : val :=
  VEnum "Failure" [error].

Definition TargetEntityResult_success_monster (unique_id health : val) : val :=
  VEnum "Success" [unique_id; VOpt (Some (health)); VEnum "Monster" [VNum 0; VOpt (Some (VNum
    5))]].

Definition TargetEntityResult_success_npc (unique_id : val) : val :=
  VEnum "Success" [unique_id; VOpt None; VEnum "NPC" [VOpt (Some (InteractOptions_talk (VSeq
    [])))]].

Definition EntityState_new (alive action_state body_state walk_speed run_speed berserk_speed
    active_buffs : val) : val :=
  VStruct [alive; VNum 0; action_state; body_state; VNum 0; walk_speed; run_speed; berserk_speed;
    active_buffs].

Definition ActiveBuffData_new (id token : val) : val :=
  VStruct [id; token].

Definition CelestialUpdate_new (unique_id moon_position hour minute : val) : val :=
  VStruct [unique_id; moon_position; hour; minute].

Definition LunarEventInfo_new (current_achieved total : val) : val :=
  VStruct [VNum 2; VNum 3; VNum 1; VNum 0x7535; current_achieved; total].

Definition WeatherUpdate_new (kind speed : val) : val :=
  VStruct [kind; speed].

Definition GameNotification_uniquespawned (ref_id : val) : val :=
  VEnum "UniqueSpawned" [ref_id].

Definition GameNotification_uniquekilled (ref_id killer : val) : val :=
  VEnum "UniqueKilled" [ref_id; killer].

Definition EntityUpdateState_life (unique_id new : val) : val :=
  VStruct [unique_id; VEnum "Life" [new]].

Definition EntityUpdateState_movement (unique_id new : val) : val :=
  VStruct [unique_id; VEnum "Movement" [new]].

Definition EntityUpdateState_body (unique_id new : val) : val :=
  VStruct [unique_id; VEnum "Body" [new]].

Definition TargetEntityResponse_new (result : val) : val :=
  VStruct [result].

Definition UnTargetEntityResponse_new (success : val) : val :=
  VStruct [success].

Definition EntityBarsUpdate_hp (unique_id source hp : val) : val :=
  VStruct [unique_id; source; VEnum "HP" [hp]].

Definition EntityBarsUpdate_mp (unique_id source mp : val) : val :=
  VStruct [unique_id; source; VEnum "MP" [mp]].

Definition CharacterPointsUpdate_sp (amount : val) : val :=
  VEnum "SP" [amount; VBool false].

Definition CharacterUnequipItem_new (entity slot item_ref : val) : val :=
  VStruct [entity; slot; item_ref].

Definition CharacterEquipItem_new (entity slot item_ref opt_level : val) : val :=
  VStruct [entity; slot; item_ref; opt_level].

(** The constructors with the types of their parameters and results. *)
Definition world_constructors : list (ty * ctor) :=
  [ (InteractOptions, Arg no_args (TVec U8) (fun options => Ret (InteractOptions_talk options)));
    (TargetEntityResult, Arg no_args TargetEntityError (fun error => Ret (TargetEntityResult_failure
      error)));
    (TargetEntityResult, Arg no_args U32 (fun unique_id => Arg no_args U32 (fun health => Ret
      (TargetEntityResult_success_monster unique_id health))));
    (TargetEntityResult, Arg no_args U32 (fun unique_id => Ret (TargetEntityResult_success_npc
      unique_id)));
    (EntityState, Arg no_args AliveState (fun alive => Arg no_args ActionState (fun action_state =>
      Arg no_args BodyState (fun body_state => Arg no_args F32 (fun walk_speed => Arg no_args F32
      (fun run_speed => Arg no_args F32 (fun berserk_speed => Arg no_args (TVec ActiveBuffData)
      (fun active_buffs => Ret (EntityState_new alive action_state body_state walk_speed run_speed
      berserk_speed active_buffs)))))))));
    (ActiveBuffData, Arg no_args U32 (fun id => Arg no_args U32 (fun token => Ret (ActiveBuffData_new
      id token))));
    (CelestialUpdate, Arg no_args U32 (fun unique_id => Arg no_args U16 (fun moon_position => Arg
      no_args U8 (fun hour => Arg no_args U8 (fun minute => Ret (CelestialUpdate_new unique_id
      moon_position hour minute))))));
    (LunarEventInfo, Arg no_args U32 (fun current_achieved => Arg no_args U32 (fun total => Ret
      (LunarEventInfo_new current_achieved total))));
    (WeatherUpdate, Arg no_args WeatherType (fun kind => Arg no_args U8 (fun speed => Ret
      (WeatherUpdate_new kind speed))));
    (GameNotification, Arg no_args U32 (fun ref_id => Ret (GameNotification_uniquespawned ref_id)));
    (GameNotification, Arg no_args U32 (fun ref_id => Arg no_args TString (fun killer => Ret
      (GameNotification_uniquekilled ref_id killer))));
    (EntityUpdateState, Arg no_args U32 (fun unique_id => Arg no_args AliveState (fun new => Ret
      (EntityUpdateState_life unique_id new))));
    (EntityUpdateState, Arg no_args U32 (fun unique_id => Arg no_args MovementType (fun new => Ret
      (EntityUpdateState_movement unique_id new))));
    (EntityUpdateState, Arg no_args U32 (fun unique_id => Arg no_args BodyState (fun new => Ret
      (EntityUpdateState_body unique_id new))));
    (TargetEntityResponse, Arg no_args TargetEntityResult (fun result => Ret (TargetEntityResponse_new
      result)));
    (UnTargetEntityResponse, Arg no_args Bool (fun success => Ret (UnTargetEntityResponse_new
      success)));
    (EntityBarsUpdate, Arg no_args U32 (fun unique_id => Arg no_args EntityBarUpdateSource (fun source
      => Arg no_args U32 (fun hp => Ret (EntityBarsUpdate_hp unique_id source hp)))));
    (EntityBarsUpdate, Arg no_args U32 (fun unique_id => Arg no_args EntityBarUpdateSource (fun source
      => Arg no_args U32 (fun mp => Ret (EntityBarsUpdate_mp unique_id source mp)))));
    (CharacterPointsUpdate, Arg no_args U32 (fun amount => Ret (CharacterPointsUpdate_sp amount)));
    (CharacterUnequipItem, Arg no_args U32 (fun entity => Arg no_args U8 (fun slot => Arg no_args U32
      (fun item_ref => Ret (CharacterUnequipItem_new entity slot item_ref)))));
    (CharacterEquipItem, Arg no_args U32 (fun entity => Arg no_args U8 (fun slot => Arg no_args U32
      (fun item_ref => Arg no_args U8 (fun opt_level => Ret (CharacterEquipItem_new entity slot
      item_ref opt_level)))))) ].

Lemma world_constructors_typed :
  Forall (fun c => well_typed c.1 c.2) world_constructors.
Proof. check_ctors. Qed.
