(* ===== verification/ProtoSpawn.v ===== *)
(** silkroad-protocol/src/spawn.rs: entity spawning.

    One declaration per struct or enum deriving [Serialize] or [Deserialize], and
    one function per constructor, on the values of its parameters. *)
From stdpp Require Import base list option strings.
From Stdlib Require Import ZArith.
From S2P Require Import Prelude Serde Schema ProtoMovement ProtoChat ProtoCombat.
From S2P Require Import ProtoInventory ProtoWorld.

(** ** Declarations *)

Definition GroupSpawnType : ty := enum "GroupSpawnType" 1
  [variant "Spawn" 1 []; variant "Despawn" 2 []].

Definition DroppedItemSource : ty := enum "DroppedItemSource" 1
  [variant "None" 0 []; variant "Monster" 5 []; variant "Player" 6 []].

Definition ItemSpawnData : ty := enum "ItemSpawnData" 0
  [ untagged "Gold"
     [fld "amount" U32; fld "unique_id" U32; fld "position" Position; fld "owner" (TOption U32);
      fld "rarity" U8];
    untagged "Consumable"
     [fld "unique_id" U32; fld "position" Position; fld "owner" (TOption U32); fld "rarity" U8;
      fld "source" DroppedItemSource; fld "source_id" U32];
    untagged "Equipment"
     [fld "upgrade" U8; fld "unique_id" U32; fld "position" Position; fld "owner" (TOption U32);
      fld "rarity" U8; fld "source" DroppedItemSource; fld "source_id" U32] ].

Definition CharacterSpawnStart : ty := struct "CharacterSpawnStart"
  [].

Definition ActiveQuestObjectData : ty := struct "ActiveQuestObjectData"
  [fld "index" U8; fld "incomplete" Bool; fld "name" TString; fld "tasks" (TVec U32);
   fld "task_ids" (TVec U32)].

Definition ActiveQuestData : ty := struct "ActiveQuestData"
  [fld "id" U32; fld "repeat_count" U8; fld "unknown_1" U8; fld "unknown_2" U16; fld "kind" U8;
   fld "status" U8; fld "objectives" (TVec ActiveQuestObjectData)].

Definition CharacterSpawn : ty := struct "CharacterSpawn"
  [fld "time" Time; fld "ref_id" U32; fld "scale" U8; fld "level" U8; fld "max_level" U8;
   fld "exp" U64; fld "sp_exp" U32; fld "gold" U64; fld "sp" U32; fld "stat_points" U16;
   fld "berserk_points" U8; fld "unknown_1" U32; fld "hp" U32; fld "mp" U32; fld "beginner" Bool;
   fld "player_kills_today" U8; fld "player_kills_total" U16; fld "player_kills_penalty" U32;
   fld "berserk_level" U8; fld "free_pvp" U8; fld "fortress_war_mark" U8;
   fld "service_end" UtcTime; fld "user_type" U8; fld "server_max_level" U8; fld "unknown_2" U16;
   fld "inventory_size" U8; fld "inventory_items" (TVec InventoryItemData);
   fld "avatar_item_size" U8; fld "avatar_items" (TVec InventoryAvatarItemData);
   fld "unknown_3" U8; fld "unknown_4" U8; fld "unknown_5" U16;
   fld_with "masteries" (list_as "break") (TVec MasteryData); fld "unknown_6" U8;
   fld_with "skills" (list_as "break") (TVec SkillData);
   fld_with "completed_quests" (sized 2) (TVec U32); fld "active_quests" (TVec ActiveQuestData);
   fld "unknown_8" U8; fld "unknown_9" U32; fld "unique_id" U32; fld "position" Position;
   fld "destination_flag" U8; fld "unknown_10" U8; fld "unknown_11" U8; fld "angle" U16;
   fld "entity_state" EntityState; fld "character_name" TString; fld "unknown_14" U16;
   fld "job_name" TString; fld "job_type" JobType; fld "job_level" U8; fld "job_exp" U32;
   fld "job_contribution" U32; fld "job_reward" U32; fld "pvp_state" U8;
   fld "transport_flag" Bool; fld "in_combat" U8; fld "unknown_15" U8; fld "unknown_16" U8;
   fld "pvp_flag" U8; fld "unknown_17" U8; fld "unknown_18" U64; fld "jid" U32; fld "gm" Bool;
   fld "unknown_19" U32; fld "hotkeys" (TVec HotkeyData); fld "unknown_20" U8; fld "auto_hp" U16;
   fld "auto_mp" U16; fld "auto_pill" U16; fld "potion_delay" U8;
   fld "blocked_players" (TVec TString); fld "unknown_21" U32].

Definition CharacterSpawnEnd : ty := struct "CharacterSpawnEnd"
  [].

Definition EntityDespawn : ty := struct "EntityDespawn"
  [fld "entity_id" U32].

Definition EntityTypeSpawnData : ty := enum "EntityTypeSpawnData" 0
  [ untagged "Item" [fld "t0" ItemSpawnData];
    untagged "Character"
     [fld "scale" U8; fld "berserk_level" U8; fld "pvp_cape" PvpCape; fld "beginner" Bool;
      fld "title" U8; fld "inventory_size" U8; fld "equipment" (TVec CharacterSpawnItemData);
      fld "avatar_inventory_size" U8; fld "avatar_items" (TVec CharacterSpawnItemData);
      fld "mask" (TOption U32); fld "unique_id" U32; fld "position" Position;
      fld "movement" EntityMovementState; fld "entity_state" EntityState; fld "name" TString;
      fld "job_type" JobType; fld "mounted" Bool; fld "in_combat" Bool;
      fld "active_scroll" ActiveScroll; fld "unknown2" U8; fld "guild" GuildInformation;
      fld "unknown3" (TArray 9); fld "equipment_cooldown" Bool; fld "pk_state" PlayerKillState;
      fld "unknown4" U8];
    untagged "NPC"
     [fld "unique_id" U32; fld "position" Position; fld "movement" EntityMovementState;
      fld "entity_state" EntityState; fld "interaction_options" InteractOptions];
    untagged "Monster"
     [fld "unique_id" U32; fld "position" Position; fld "movement" EntityMovementState;
      fld "entity_state" EntityState; fld "interaction_options" InteractOptions;
      fld "rarity" Rarity; fld "unknown" U32] ].

Definition EntitySpawn : ty := struct "EntitySpawn"
  [fld "spawn_data" EntityTypeSpawnData; fld "unknown_3" U8; fld "unknown_4" U32;
   fld "unknown_5" U8].

Definition GroupEntitySpawnStart : ty := struct "GroupEntitySpawnStart"
  [fld "kind" GroupSpawnType; fld "amount" U16; fld "unknown_1" U32; fld "unknown_2" U16].

Definition GroupSpawnDataContent : ty := enum "GroupSpawnDataContent" 0
  [ untagged "Despawn" [fld "id" U32];
    untagged "Spawn" [fld "object_id" U32; fld "data" EntityTypeSpawnData] ].

Definition GroupEntitySpawnData : ty := struct "GroupEntitySpawnData"
  [fld_with "content" (list_as "none") (TVec GroupSpawnDataContent)].

Definition GroupEntitySpawnEnd : ty := struct "GroupEntitySpawnEnd"
  [].

(** ** Constructors *)

Definition CharacterSpawn_new (time ref_id scale level max_level exp sp_exp gold sp stat_points
    berserk_points hp mp beginner player_kills_today player_kills_total player_kills_penalty
    berserk_level free_pvp fortress_war_mark service_end user_type server_max_level inventory_size
    inventory_items avatar_item_size avatar_items masteries skills completed_quests active_quests
    unique_id position destination_flag angle entity_state character_name job_name job_type
    job_level job_exp job_contribution job_reward pvp_state transport_flag in_combat pvp_flag jid
    gm hotkeys auto_hp auto_mp auto_pill potion_delay blocked_players : val) : val :=
  VStruct [time; ref_id; scale; level; max_level; exp; sp_exp; gold; sp; stat_points;
    berserk_points; VNum 0; hp; mp; beginner; player_kills_today; player_kills_total;
    player_kills_penalty; berserk_level; free_pvp; fortress_war_mark; service_end; user_type;
    server_max_level; VNum 0x0107; inventory_size; inventory_items; avatar_item_size;
    avatar_items; VNum 0; VNum 0xb; VNum 0; masteries; VNum 0; skills; completed_quests;
    active_quests; VNum 0; VNum 0; unique_id; position; destination_flag; VNum 1; VNum 0; angle;
    entity_state; character_name; VNum 0; job_name; job_type; job_level; job_exp;
    job_contribution; job_reward; pvp_state; transport_flag; in_combat; VNum 0; VNum 0; pvp_flag;
    VNum 0xFF; VNum 0x8000d7; jid; gm; VNum 0x19; hotkeys; VNum 0; auto_hp; auto_mp; auto_pill;
    potion_delay; blocked_players; VNum 0x9f000000].

Definition EntityDespawn_new (entity_id : val) : val :=
  VStruct [entity_id].

Definition EntitySpawn_new (spawn_data : val) : val :=
  VStruct [spawn_data; VNum 5; VNum 0; VNum 4].

Definition GroupEntitySpawnStart_new (kind amount : val) : val :=
  VStruct [kind; amount; VNum 0; VNum 0].

Definition GroupEntitySpawnData_new (content : val) : val :=
  VStruct [content].

Definition GroupSpawnDataContent_despawn (id : val) : val :=
  VEnum "Despawn" [id].

Definition GroupSpawnDataContent_spawn (object_id data : val) : val :=
  VEnum "Spawn" [object_id; data].

Definition ActiveQuestData_new (id repeat_count kind status objectives : val) : val :=
  VStruct [id; repeat_count; VNum 1; VNum 0; kind; status; objectives].

Definition ActiveQuestObjectData_new (index incomplete name tasks task_ids : val) : val :=
  VStruct [index; incomplete; name; tasks; task_ids].

Definition EntityTypeSpawnData_gold (amount unique_id position owner rarity : val) : val :=
  VEnum "Item" [VEnum "Gold" [amount; unique_id; position; owner; rarity]].

Definition EntityTypeSpawnData_character (scale berserk_level pvp_cape beginner title
    inventory_size equipment avatar_inventory_size avatar_items mask unique_id position movement
    entity_state name job_type mounted in_combat active_scroll guild unknown3 equipment_cooldown
    pk_state : val) : val :=
  VEnum "Character" [scale; berserk_level; pvp_cape; beginner; title; inventory_size; equipment;
    avatar_inventory_size; avatar_items; mask; unique_id; position; movement; entity_state; name;
    job_type; mounted; in_combat; active_scroll; VNum 0; guild; unknown3; equipment_cooldown;
    pk_state; VNum 0xFF].

Definition EntityTypeSpawnData_monster (unique_id position movement entity_state
    interaction_options rarity unknown : val) : val :=
  VEnum "Monster" [unique_id; position; movement; entity_state; interaction_options; rarity;
    unknown].

(** The constructors with the types of their parameters and results. *)
Definition spawn_constructors : list (ty * ctor) :=
  [ (CharacterSpawn, Arg no_args Time (fun time => Arg no_args U32 (fun ref_id => Arg no_args U8 (fun
      scale => Arg no_args U8 (fun level => Arg no_args U8 (fun max_level => Arg no_args U64 (fun
      exp => Arg no_args U32 (fun sp_exp => Arg no_args U64 (fun gold => Arg no_args U32 (fun sp
      => Arg no_args U16 (fun stat_points => Arg no_args U8 (fun berserk_points => Arg no_args U32
      (fun hp => Arg no_args U32 (fun mp => Arg no_args Bool (fun beginner => Arg no_args U8 (fun
      player_kills_today => Arg no_args U16 (fun player_kills_total => Arg no_args U32 (fun
      player_kills_penalty => Arg no_args U8 (fun berserk_level => Arg no_args U8 (fun free_pvp =>
      Arg no_args U8 (fun fortress_war_mark => Arg no_args UtcTime (fun service_end => Arg no_args
      U8 (fun user_type => Arg no_args U8 (fun server_max_level => Arg no_args U8 (fun
      inventory_size => Arg no_args (TVec InventoryItemData) (fun inventory_items => Arg no_args
      U8 (fun avatar_item_size => Arg no_args (TVec InventoryAvatarItemData) (fun avatar_items =>
      Arg (list_as "break") (TVec MasteryData) (fun masteries => Arg (list_as "break") (TVec
      SkillData) (fun skills => Arg (sized 2) (TVec U32) (fun completed_quests => Arg no_args
      (TVec ActiveQuestData) (fun active_quests => Arg no_args U32 (fun unique_id => Arg no_args
      Position (fun position => Arg no_args U8 (fun destination_flag => Arg no_args U16 (fun angle
      => Arg no_args EntityState (fun entity_state => Arg no_args TString (fun character_name =>
      Arg no_args TString (fun job_name => Arg no_args JobType (fun job_type => Arg no_args U8
      (fun job_level => Arg no_args U32 (fun job_exp => Arg no_args U32 (fun job_contribution =>
      Arg no_args U32 (fun job_reward => Arg no_args U8 (fun pvp_state => Arg no_args Bool (fun
      transport_flag => Arg no_args U8 (fun in_combat => Arg no_args U8 (fun pvp_flag => Arg
      no_args U32 (fun jid => Arg no_args Bool (fun gm => Arg no_args (TVec HotkeyData) (fun
      hotkeys => Arg no_args U16 (fun auto_hp => Arg no_args U16 (fun auto_mp => Arg no_args U16
      (fun auto_pill => Arg no_args U8 (fun potion_delay => Arg no_args (TVec TString) (fun
      blocked_players => Ret (CharacterSpawn_new time ref_id scale level max_level exp sp_exp gold
      sp stat_points berserk_points hp mp beginner player_kills_today player_kills_total
      player_kills_penalty berserk_level free_pvp fortress_war_mark service_end user_type
      server_max_level inventory_size inventory_items avatar_item_size avatar_items masteries
      skills completed_quests active_quests unique_id position destination_flag angle entity_state
      character_name job_name job_type job_level job_exp job_contribution job_reward pvp_state
      transport_flag in_combat pvp_flag jid gm hotkeys auto_hp auto_mp auto_pill potion_delay
      blocked_players)))))))))))))))))))))))))))))))))))))))))))))))))))))))));
    (EntityDespawn, Arg no_args U32 (fun entity_id => Ret (EntityDespawn_new entity_id)));
    (EntitySpawn, Arg no_args EntityTypeSpawnData (fun spawn_data => Ret (EntitySpawn_new
      spawn_data)));
    (GroupEntitySpawnStart, Arg no_args GroupSpawnType (fun kind => Arg no_args U16 (fun amount => Ret
      (GroupEntitySpawnStart_new kind amount))));
    (GroupEntitySpawnData, Arg (list_as "none") (TVec GroupSpawnDataContent) (fun content => Ret
      (GroupEntitySpawnData_new content)));
    (GroupSpawnDataContent, Arg no_args U32 (fun id => Ret (GroupSpawnDataContent_despawn id)));
    (GroupSpawnDataContent, Arg no_args U32 (fun object_id => Arg no_args EntityTypeSpawnData (fun
      data => Ret (GroupSpawnDataContent_spawn object_id data))));
    (ActiveQuestData, Arg no_args U32 (fun id => Arg no_args U8 (fun repeat_count => Arg no_args U8
      (fun kind => Arg no_args U8 (fun status => Arg no_args (TVec ActiveQuestObjectData) (fun
      objectives => Ret (ActiveQuestData_new id repeat_count kind status objectives)))))));
    (ActiveQuestObjectData, Arg no_args U8 (fun index => Arg no_args Bool (fun incomplete => Arg
      no_args TString (fun name => Arg no_args (TVec U32) (fun tasks => Arg no_args (TVec U32)
      (fun task_ids => Ret (ActiveQuestObjectData_new index incomplete name tasks task_ids)))))));
    (EntityTypeSpawnData, Arg no_args U32 (fun amount => Arg no_args U32 (fun unique_id => Arg no_args
      Position (fun position => Arg no_args (TOption U32) (fun owner => Arg no_args U8 (fun rarity
      => Ret (EntityTypeSpawnData_gold amount unique_id position owner rarity)))))));
    (EntityTypeSpawnData, Arg no_args U8 (fun scale => Arg no_args U8 (fun berserk_level => Arg
      no_args PvpCape (fun pvp_cape => Arg no_args Bool (fun beginner => Arg no_args U8 (fun title
      => Arg no_args U8 (fun inventory_size => Arg no_args (TVec CharacterSpawnItemData) (fun
      equipment => Arg no_args U8 (fun avatar_inventory_size => Arg no_args (TVec
      CharacterSpawnItemData) (fun avatar_items => Arg no_args (TOption U32) (fun mask => Arg
      no_args U32 (fun unique_id => Arg no_args Position (fun position => Arg no_args
      EntityMovementState (fun movement => Arg no_args EntityState (fun entity_state => Arg
      no_args TString (fun name => Arg no_args JobType (fun job_type => Arg no_args Bool (fun
      mounted => Arg no_args Bool (fun in_combat => Arg no_args ActiveScroll (fun active_scroll =>
      Arg no_args GuildInformation (fun guild => Arg no_args (TArray 9) (fun unknown3 => Arg
      no_args Bool (fun equipment_cooldown => Arg no_args PlayerKillState (fun pk_state => Ret
      (EntityTypeSpawnData_character scale berserk_level pvp_cape beginner title inventory_size
      equipment avatar_inventory_size avatar_items mask unique_id position movement entity_state
      name job_type mounted in_combat active_scroll guild unknown3 equipment_cooldown
      pk_state)))))))))))))))))))))))));
    (EntityTypeSpawnData, Arg no_args U32 (fun unique_id => Arg no_args Position (fun position => Arg
      no_args EntityMovementState (fun movement => Arg no_args EntityState (fun entity_state =>
      Arg no_args InteractOptions (fun interaction_options => Arg no_args Rarity (fun rarity =>
      Arg no_args U32 (fun unknown => Ret (EntityTypeSpawnData_monster unique_id position movement
      entity_state interaction_options rarity unknown))))))))) ].

Lemma spawn_constructors_typed :
  Forall (fun c => well_typed c.1 c.2) spawn_constructors.
Proof. check_ctors. Qed.
