(* ===== verification/Packets.v ===== *)
(** silkroad-protocol/src/lib.rs and error.rs: the packet tables, and the
    conversion between a packet and its opcode and body. *)
From stdpp Require Import base list option strings.
From Stdlib Require Import ZArith Lia.
From S2P Require Import Prelude Utf Definitions Serde SerdeFacts Schema ProtoGeneral.
From S2P Require Import ProtoLogin ProtoMovement ProtoChat.
From S2P Require Import ProtoCombat ProtoInventory ProtoCharacter ProtoWorld ProtoSpawn.

Inductive protocol_error :=
| UnknownOpcode (opcode : Z)
| SerializationError (e : serialization_error)
| StrayMassivePacket.

(** A variant of [ClientPacket] or [ServerPacket] with the packet it boxes. *)
Definition packet : Type := string * val.

(** [client_packets!] *)
Definition client_packets : list (Z * string * ty) :=
  [ (0x7007, "CharacterListRequest", CharacterListRequest);
    (0x7001, "CharacterJoinRequest", CharacterJoinRequest);
    (0x34c6, "FinishLoading", FinishLoading);
    (0x750E, "ConsignmentList", ConsignmentList);
    (0x7021, "PlayerMovementRequest", PlayerMovementRequest);
    (0x7302, "AddFriend", AddFriend);
    (0x7310, "CreateFriendGroup", CreateFriendGroup);
    (0x7304, "DeleteFriend", DeleteFriend);
    (0x7024, "Rotation", Rotation);
    (0x7045, "TargetEntity", TargetEntity);
    (0x704B, "UnTargetEntity", UnTargetEntity);
    (0x7034, "InventoryOperation", InventoryOperation);
    (0x7025, "ChatMessage", ChatMessage);
    (0x6100, "PatchRequest", PatchRequest);
    (0x610A, "LoginRequest", LoginRequest);
    (0x6117, "SecurityCodeInput", SecurityCodeInput);
    (0x6104, "GatewayNoticeRequest", GatewayNoticeRequest);
    (0x6107, "PingServerRequest", PingServerRequest);
    (0x6101, "ShardListRequest", ShardListRequest);
    (0x2001, "IdentityInformation", IdentityInformation);
    (0x2002, "KeepAlive", KeepAlive);
    (0x5000, "HandshakeChallenge", HandshakeChallenge);
    (0x9000, "HandshakeAccepted", HandshakeAccepted);
    (0x6103, "AuthRequest", AuthRequest);
    (0x7005, "LogoutRequest", LogoutRequest);
    (0x7010, "GmCommand", GmCommand);
    (0x755D, "OpenItemMall", OpenItemMall);
    (0x7074, "PerformAction", PerformAction);
    (0x70EA, "UpdateGameGuide", UpdateGameGuide);
    (0x70A2, "LevelUpMastery", LevelUpMastery);
    (0x70A1, "LearnSkill", LearnSkill);
    (0x7050, "IncreaseStr", IncreaseStr);
    (0x7051, "IncreaseInt", IncreaseInt) ]%string.

(** [server_packets!] *)
Definition server_packets : list (Z * string * ty) :=
  [ (0xB007, "CharacterListResponse", CharacterListResponse);
    (0xB001, "CharacterJoinResponse", CharacterJoinResponse);
    (0x303D, "CharacterStatsMessage", CharacterStatsMessage);
    (0x3038, "CharacterEquipItem", CharacterEquipItem);
    (0x3039, "CharacterUnequipItem", CharacterUnequipItem);
    (0x3601, "UnknownPacket", UnknownPacket);
    (0xB602, "UnknownPacket2", UnknownPacket2);
    (0x3020, "CelestialUpdate", CelestialUpdate);
    (0x34f2, "LunarEventInfo", LunarEventInfo);
    (0x34A5, "CharacterSpawnStart", CharacterSpawnStart);
    (0x3013, "CharacterSpawn", CharacterSpawn);
    (0x34A6, "CharacterSpawnEnd", CharacterSpawnEnd);
    (0x3077, "CharacterFinished", CharacterFinished);
    (0x3016, "EntityDespawn", EntityDespawn);
    (0x3015, "EntitySpawn", EntitySpawn);
    (0x3017, "GroupEntitySpawnStart", GroupEntitySpawnStart);
    (0x3019, "GroupEntitySpawnData", GroupEntitySpawnData);
    (0x3018, "GroupEntitySpawnEnd", GroupEntitySpawnEnd);
    (0xB50E, "ConsignmentResponse", ConsignmentResponse);
    (0x3809, "WeatherUpdate", WeatherUpdate);
    (0x3305, "FriendListInfo", FriendListInfo);
    (0x300C, "GameNotification", GameNotification);
    (0xB021, "PlayerMovementResponse", PlayerMovementResponse);
    (0x30BF, "EntityUpdateState", EntityUpdateState);
    (0xB045, "TargetEntityResponse", TargetEntityResponse);
    (0xB04B, "UnTargetEntityResponse", UnTargetEntityResponse);
    (0x3535, "TextCharacterInitialization", TextCharacterInitialization);
    (0x3555, "MacroStatus", MacroStatus);
    (0x3026, "ChatUpdate", ChatUpdate);
    (0xB025, "ChatMessageResponse", ChatMessageResponse);
    (0xA100, "PatchResponse", PatchResponse);
    (0xA10A, "LoginResponse", LoginResponse);
    (0xA117, "SecurityCodeResponse", SecurityCodeResponse);
    (0xA104, "GatewayNoticeResponse", GatewayNoticeResponse);
    (0xA107, "PingServerResponse", PingServerResponse);
    (0xA101, "ShardListResponse", ShardListResponse);
    (0x2116, "PasscodeRequiredResponse", PasscodeRequiredResponse);
    (0xA117, "PasscodeResponse", PasscodeResponse);
    (0x210E, "QueueUpdate", QueueUpdate);
    (0x2001, "IdentityInformation", IdentityInformation);
    (0x5000, "SecuritySetup", SecuritySetup);
    (0xA103, "AuthResponse", AuthResponse);
    (0xB005, "LogoutResponse", LogoutResponse);
    (0x300A, "LogoutFinished", LogoutFinished);
    (0x2212, "Disconnect", Disconnect);
    (0x3057, "EntityBarsUpdate", EntityBarsUpdate);
    (0xB034, "InventoryOperationResult", InventoryOperationResult);
    (0xB010, "GmResponse", GmResponse);
    (0xB55D, "OpenItemMallResponse", OpenItemMallResponse);
    (0xB074, "PerformActionResponse", PerformActionResponse);
    (0xB070, "PerformActionUpdate", PerformActionUpdate);
    (0x304E, "CharacterPointsUpdate", CharacterPointsUpdate);
    (0xB0EA, "GameGuideResponse", GameGuideResponse);
    (0xB023, "EntityMovementInterrupt", EntityMovementInterrupt);
    (0x3036, "PlayerPickupAnimation", PlayerPickupAnimation);
    (0x30D0, "ChangeSpeed", ChangeSpeed);
    (0x3054, "LevelUpEffect", LevelUpEffect);
    (0x3056, "ReceiveExperience", ReceiveExperience);
    (0xB0A2, "LevelUpMasteryResponse", LevelUpMasteryResponse);
    (0xB0A1, "LearnSkillResponse", LearnSkillResponse);
    (0xB050, "IncreaseStrResponse", IncreaseStrResponse);
    (0xB051, "IncreaseIntResponse", IncreaseIntResponse) ]%string.

Fixpoint by_opcode (opcode : Z) (table : list (Z * string * ty)) : option (string * ty) :=
  match table with
  | [] => None
  | (o, n, t) :: table => if o =? opcode then Some (n, t) else by_opcode opcode table
  end.

Fixpoint by_name (name : string) (table : list (Z * string * ty)) : option (Z * ty) :=
  match table with
  | [] => None
  | (o, n, t) :: table => if String.eqb n name then Some (o, t) else by_name name table
  end.

(** [ClientPacket::deserialize] *)
Definition deserialize (opcode : Z) (data : list Z) : outcome protocol_error packet :=
  match by_opcode opcode client_packets with
  | Some (n, t) => v ← map_err SerializationError (try_from_bytes t data); Ok (n, v)
  | None => Err (UnknownOpcode opcode)
  end.

(** [ServerPacket::into_serialize] *)
Definition into_serialize (p : packet) : option (Z * list Z) :=
  '(opcode, t) ← by_name p.1 server_packets;
  bs ← to_bytes t p.2; Some (opcode, bs).

Definition is_massive (p : packet) : bool :=
  existsb (String.eqb p.1) ["PatchResponse"; "GatewayNoticeResponse"]%string.
Definition is_encrypted (p : packet) : bool := existsb (String.eqb p.1) ["LoginResponse"]%string.

(** ** Checks of the tables *)

(** The server packets with a list without length or with a wide one. *)
Definition unframed_packets : list string :=
  ["UnknownPacket"; "CharacterSpawn"; "GroupEntitySpawnData"; "EntityBarsUpdate";
   "PerformActionUpdate"]%string.

Definition legal (t : ty) (v : val) : bool := encodable no_args [] t v.

Lemma client_table_decodable :
  forallb (fun '(_, _, t) => decodable [1; 2] no_args t) client_packets = true.
Proof. vm_compute. reflexivity. Qed.

Definition opcodes (table : list (Z * string * ty)) : list Z := map (fun e => e.1.1) table.

Lemma server_table_writable : forallb (fun '(_, _, t) => writable t) server_packets = true.
Proof. vm_compute. reflexivity. Qed.

(** The server packets with a list that is not framed by single bytes. *)
Definition inexact_packets : list string :=
  map (fun e => e.1.2) (List.filter (fun '(_, _, t) => negb (size_exact no_args t)) server_packets).

Lemma by_opcode_in opcode table n t :
  by_opcode opcode table = Some (n, t) -> In (opcode, n, t) table.
Proof.
  induction table as [|[[o m] u] table IH]; [discriminate|]. cbn [by_opcode].
  destruct (Z.eqb_spec o opcode) as [->|]; [intros [= -> ->]; left; reflexivity|].
  intros H. right. auto.
Qed.

Lemma by_name_in name table o t :
  by_name name table = Some (o, t) -> In (o, name, t) table.
Proof.
  induction table as [|[[o' m] u] table IH]; [discriminate|]. cbn [by_name].
  destruct (String.eqb_spec m name) as [->|]; [intros [= -> ->]; left; reflexivity|].
  intros H. right. auto.
Qed.

Lemma client_packet_decodable opcode n t :
  by_opcode opcode client_packets = Some (n, t) -> decodable [1; 2] no_args t = true.
Proof.
  intros H. apply by_opcode_in in H.
  exact (proj1 (forallb_forall _ _) client_table_decodable _ H).
Qed.

(** The encoding of a legal value of a client packet type. *)
Lemma client_packet_encodes opcode n t v :
  by_opcode opcode client_packets = Some (n, t) -> legal t v = true ->
  exists bs, to_bytes t v = Some bs /\ bytes_ok bs = true
    /\ forall rest, deserialize opcode (bs ++ rest) = Ok (n, v).
Proof.
  intros Ho Hv.
  destruct (proj1 decode_encode_all t no_args [] v (client_packet_decodable _ _ _ Ho) Hv)
    as (bs & E & B & R).
  exists bs. split; [exact E|]. split; [exact B|]. intros rest. unfold deserialize, try_from_bytes.
  rewrite Ho, R. reflexivity.
Qed.

Lemma deserialize_no_panic opcode data : deserialize opcode data <> Panic.
Proof.
  unfold deserialize. destruct (by_opcode opcode client_packets) as [[n t]|] eqn:E; [|easy].
  pose proof (proj1 no_panic_all t _ no_args [] (client_packet_decodable _ _ _ E) data) as Hp.
  unfold try_from_bytes. destruct (read no_args [] t data) as [[v r]|e|]; cbn; easy.
Qed.

(** ** Properties *)

(** Every packet a client can send decodes: the opcode selects the packet
    type, and the encoding of a legal value of that type decodes to the value,
    whatever bytes follow it in the frame. *)
Theorem client_packet_round_trip opcode n t v
    (Ho : by_opcode opcode client_packets = Some (n, t)) (Hv : legal t v = true) :
  exists bs, to_bytes t v = Some bs /\ forall rest, deserialize opcode (bs ++ rest) = Ok (n, v).
Proof. destruct (client_packet_encodes _ _ _ _ Ho Hv) as (bs & E & _ & R). eauto. Qed.

Lemma client_packet_round_trip_witness :
  let v := VStruct [VEnum "PrivateMessage" []; VNum 1; VBool false; VNum 0;
                    VOpt (Some (VStr (chars "Bob"))); VStr (chars "hi")] in
  exists bs, to_bytes ChatMessage v = Some bs
    /\ forall rest, deserialize 0x7025 (bs ++ rest) = Ok ("ChatMessage"%string, v).
Proof. apply (client_packet_round_trip 0x7025); reflexivity. Defined.

(** C39: No input panics the decoder of client packets, an opcode outside of
    the table is refused with [UnknownOpcode], and only such an opcode is. *)
Theorem deserialize_total opcode data :
  deserialize opcode data <> Panic
  /\ (deserialize opcode data = Err (UnknownOpcode opcode)
      <-> opcode ∉ opcodes client_packets).
Proof.
  assert (Hin : by_opcode opcode client_packets = None <-> opcode ∉ opcodes client_packets).
  { unfold opcodes. induction client_packets as [|[[o n] t] table IH]; cbn [by_opcode map fst].
    - split; [intros _; apply not_elem_of_nil|reflexivity].
    - rewrite not_elem_of_cons, <- IH. destruct (Z.eqb_spec o opcode) as [->|Hne].
      + split; [discriminate|]. intros [? _]. congruence.
      + split; [auto|]. intros [_ ?]. assumption. }
  rewrite <- Hin. split; [apply deserialize_no_panic|]. unfold deserialize.
  destruct (by_opcode opcode client_packets) as [[n t]|]; [|easy].
  destruct (try_from_bytes t data) as [v|e|]; cbn; easy.
Qed.

(** The opcodes of client packets are pairwise distinct. *)
Theorem client_opcodes_distinct : NoDup (opcodes client_packets).
Proof. apply (bool_decide_unpack (NoDup (opcodes client_packets))). vm_compute. exact I. Qed.

(** Serializing a legal server packet gives its opcode and its encoding,
    and the encoding has exactly the declared size unless the packet is one of
    [UnknownPacket], [CharacterSpawn], [GroupEntitySpawnData],
    [EntityBarsUpdate] and [PerformActionUpdate], whose lists are not framed
    by single bytes. *)
Theorem server_packet_serialized n v opcode t
    (Hn : by_name n server_packets = Some (opcode, t)) (Hv : legal t v = true) :
  exists bs, into_serialize (n, v) = Some (opcode, bs)
    /\ (n ∉ unframed_packets ->
        Z.of_nat (length bs) = byte_size no_args t v).
Proof.
  pose proof (by_name_in _ _ _ _ Hn) as Hin.
  pose proof (proj1 (forallb_forall _ _) server_table_writable _ Hin) as Hw. cbn in Hw.
  destruct (proj1 write_total_all t no_args [] v Hw Hv) as [bs E].
  exists bs. unfold into_serialize, to_bytes. cbn [fst snd]. rewrite Hn. cbn. rewrite E.
  split; [reflexivity|]. intros Hx.
  apply (proj1 byte_size_all t no_args [] v); [|assumption|assumption].
  assert (Hex : inexact_packets
    = unframed_packets)
    by (vm_compute; reflexivity).
  rewrite <- Hex in Hx. unfold inexact_packets in Hx.
  destruct (size_exact no_args t) eqn:Es; [reflexivity|]. exfalso. apply Hx.
  apply list_elem_of_In. apply in_map_iff. exists (opcode, n, t). split; [reflexivity|].
  apply List.filter_In. split; [assumption|]. rewrite Es. reflexivity.
Qed.

Lemma server_packet_serialized_witness :
  exists bs, into_serialize ("Disconnect"%string, Disconnect_new) = Some (0x2212, bs)
    /\ ("Disconnect"%string ∉ unframed_packets ->
        Z.of_nat (length bs) = byte_size no_args Disconnect Disconnect_new).
Proof. apply server_packet_serialized; reflexivity. Defined.

(** Two server packets share the opcode 0xA117, every other opcode of the
    table names one packet. *)
Theorem server_opcodes :
  NoDup (List.filter (fun o => negb (o =? 0xA117)) (opcodes server_packets))
  /\ by_name "SecurityCodeResponse" server_packets = Some (0xA117, SecurityCodeResponse)
  /\ by_name "PasscodeResponse" server_packets = Some (0xA117, PasscodeResponse).
Proof.
  split; [|split; reflexivity].
  apply (bool_decide_unpack (NoDup (List.filter (fun o => negb (o =? 0xA117)) (opcodes server_packets)))).
  vm_compute. exact I.
Qed.

(** Every constructor function of the protocol crate builds a legal value
    of its type from legal arguments: the constants it fills in for the
    fields it does not take fit their types. *)
Theorem constructors_typed :
  Forall (fun c => well_typed c.1 c.2)
    (general_constructors ++ auth_constructors ++ login_constructors ++ movement_constructors
     ++ chat_constructors ++ community_constructors ++ gm_constructors ++ skill_constructors
     ++ combat_constructors ++ inventory_constructors ++ character_constructors
     ++ world_constructors ++ spawn_constructors).
Proof.
  rewrite !Forall_app.
  repeat split; auto using general_constructors_typed, auth_constructors_typed,
    login_constructors_typed, movement_constructors_typed, chat_constructors_typed,
    community_constructors_typed, gm_constructors_typed, skill_constructors_typed,
    combat_constructors_typed, inventory_constructors_typed, character_constructors_typed,
    world_constructors_typed, spawn_constructors_typed.
Qed.
