(* ===== verification/Entities.v ===== *)
(** agent/src/comp/mod.rs and world/lookup.rs: entities, their identifiers, the
    lookup by identifier and by name, and the messages a system sends.

    An entity of the game engine is its index; liveness of an entity is asked of the
    engine ([contains]). *)
From stdpp Require Import base list option strings gmap.
From Stdlib Require Import ZArith Lia.
From S2P Require Import Prelude Utf Serde SerdeFacts Packets.

Definition Entity : Type := Z.

Record GameEntity := { unique_id : Z; ref_id : Z }.
#[export] Instance GameEntity_eqdec : EqDecision GameEntity.
Proof. solve_decision. Defined.
#[export] Instance GameEntity_countable : Countable GameEntity.
Proof.
  refine (inj_countable' (fun g => (unique_id g, ref_id g)) (fun '(u, r) => {| unique_id := u; ref_id := r |}) _).
  intros []; reflexivity.
Defined.

Record EntityReference := { entity : Entity; game_entity : GameEntity }.
#[export] Instance EntityReference_eqdec : EqDecision EntityReference.
Proof. solve_decision. Defined.
#[export] Instance EntityReference_countable : Countable EntityReference.
Proof.
  refine (inj_countable' (fun r => (entity r, game_entity r)) (fun '(e, g) => {| entity := e; game_entity := g |}) _).
  intros []; reflexivity.
Defined.

(** What [Client::send] was called with, in order; an error of the stream is
    ignored there. *)
Definition sent : Type := list packet.

(** A packet that the writer sends: it is a server packet with a legal value. *)
Definition deliverable (p : packet) : Prop :=
  exists opcode t, by_name p.1 server_packets = Some (opcode, t) /\ legal t p.2 = true.

Lemma deliverable_intro n v opcode t :
  by_name n server_packets = Some (opcode, t) -> encodable no_args [] t v = true -> deliverable (n, v).
Proof. intros Hn Hv. exists opcode, t. exact (conj Hn Hv). Qed.

(** ** world/lookup.rs *)

Record EntityLookup := { player_map : gmap (list Z) Entity; id_map : gmap Z Entity }.

Definition lookup_default : EntityLookup := {| player_map := ∅; id_map := ∅ |}.

Definition add_player (name : list Z) (e : Entity) (id : Z) (l : EntityLookup) : EntityLookup :=
  {| player_map := <[name := e]> l.(player_map); id_map := <[id := e]> l.(id_map) |}.
Definition add_entity (entity_id : Z) (e : Entity) (l : EntityLookup) : EntityLookup :=
  {| player_map := l.(player_map); id_map := <[entity_id := e]> l.(id_map) |}.
Definition get_entity_for_name (l : EntityLookup) (name : list Z) : option Entity := l.(player_map) !! name.
Definition get_entity_for_id (l : EntityLookup) (id : Z) : option Entity := l.(id_map) !! id.

(** The entities whose [GameEntity] was added, with the name of a player. *)
Definition collect_entities (added : list (EntityReference * option (list Z))) (l : EntityLookup) : EntityLookup :=
  fold_left (fun l '(r, player) =>
    match player with
    | Some name => add_player name r.(entity) r.(game_entity).(unique_id) l
    | None => add_entity r.(game_entity).(unique_id) r.(entity) l
    end) added l.

Section Maintain.

(** Entities of the engine, and the pool of identifiers with [return_id], whose
    errors are ignored. *)
Context (contains : Entity -> bool) {Pool : Type} (return_id : Z -> Pool -> Pool).

(** The identifiers of entities that are gone; their order is that of
    [map_to_list] here, and that of a hash map in the code. *)
Definition removed_entities (l : EntityLookup) : list Z :=
  map fst (List.filter (fun e => negb (contains e.2)) (map_to_list l.(id_map))).

Definition maintain_entities (l : EntityLookup) (pool : Pool) : EntityLookup * Pool :=
  let players := filter (fun e => contains e.2 = true) l.(player_map) in
  let '(ids, pool) :=
    fold_left (fun '(m, p) id => (delete id m, return_id id p)) (removed_entities l) (l.(id_map), pool) in
  ({| player_map := players; id_map := ids |}, pool).

Lemma delete_all_lookup (removed : list Z) : forall (m : gmap Z Entity) (p : Pool) id,
  (fold_left (fun '(m, p) id => (delete id m, return_id id p)) removed (m, p)).1 !! id
  = (if bool_decide (id ∈ removed) then None else m !! id)
  /\ (fold_left (fun '(m, p) id => (delete id m, return_id id p)) removed (m, p)).2
     = fold_left (fun p id => return_id id p) removed p.
Proof.
  induction removed as [|r removed IH]; intros m p id; [split; [rewrite bool_decide_false by set_solver|]; reflexivity|].
  cbn [fold_left]. destruct (IH (delete r m) (return_id r p) id) as [-> ->]. split; [|reflexivity].
  destruct (decide (id = r)) as [->|Hn].
  - rewrite lookup_delete_eq, (bool_decide_true (r ∈ r :: removed)) by set_solver.
    destruct (bool_decide _); reflexivity.
  - rewrite lookup_delete_ne by congruence.
    rewrite (bool_decide_ext (id ∈ removed) (id ∈ r :: removed)) by set_solver. reflexivity.
Qed.

Lemma elem_of_removed_entities l id :
  id ∈ removed_entities l <-> exists e, l.(id_map) !! id = Some e /\ contains e = false.
Proof.
  unfold removed_entities. rewrite list_elem_of_In, in_map_iff. split.
  - intros ((i & e) & <- & H). apply filter_In in H as [H Hc]. cbn in *. exists e.
    rewrite <- elem_of_map_to_list, list_elem_of_In. split; [exact H|]. destruct (contains e); easy.
  - intros (e & H & Hc). exists (id, e). split; [reflexivity|]. apply filter_In. cbn.
    rewrite Hc. split; [|reflexivity]. apply list_elem_of_In, elem_of_map_to_list, H.
Qed.

(** Afterwards the lookup answers for exactly the entities that are left,
    under the names and identifiers they had, and every identifier dropped
    was returned to the pool once. *)
Theorem maintain_entities_decides (l : EntityLookup) (pool : Pool) :
  let '(l', pool') := maintain_entities l pool in
  (forall id e, get_entity_for_id l' id = Some e <-> get_entity_for_id l id = Some e /\ contains e = true)
  /\ (forall name e, get_entity_for_name l' name = Some e <-> get_entity_for_name l name = Some e /\ contains e = true)
  /\ exists returned, pool' = fold_left (fun p id => return_id id p) returned pool /\ NoDup returned
       /\ forall id, id ∈ returned <-> is_Some (get_entity_for_id l id) /\ get_entity_for_id l' id = None.
Proof.
  unfold maintain_entities, get_entity_for_id, get_entity_for_name.
  pose proof (delete_all_lookup (removed_entities l) l.(id_map) pool) as Hd.
  destruct (fold_left _ (removed_entities l) (l.(id_map), pool)) as [ids pool'] eqn:E. cbn in Hd |- *.
  assert (Hi : forall id e, ids !! id = Some e <-> l.(id_map) !! id = Some e /\ contains e = true).
  { intros id e. rewrite (proj1 (Hd id)). destruct (bool_decide _) eqn:B.
    - apply bool_decide_eq_true, elem_of_removed_entities in B as (e' & H & Hc). split; [discriminate|].
      intros [H' Hc']. congruence.
    - apply bool_decide_eq_false in B. split; [|tauto]. intros H. split; [exact H|].
      destruct (contains e) eqn:Hc; [reflexivity|]. contradict B. apply elem_of_removed_entities. eauto. }
  split; [exact Hi|]. split; [intros name e; apply map_lookup_filter_Some|].
  exists (removed_entities l). split; [exact (proj2 (Hd 0))|].
  split; [apply NoDup_map_filter, NoDup_fst_map_to_list|].
  intros id. rewrite elem_of_removed_entities. split.
  - intros (e & H & Hc). split; [eauto|]. destruct (ids !! id) as [e'|] eqn:Ei; [|reflexivity].
    apply Hi in Ei as [Ei Hc']. congruence.
  - intros [[e H] Hn]. exists e. split; [exact H|]. destruct (contains e) eqn:Hc; [|reflexivity].
    rewrite (proj2 (Hi id e)) in Hn by auto. discriminate.
Qed.

End Maintain.
