(* ===== verification/Position.v ===== *)
(** game-base/src/pos.rs and vec.rs, agent/src/comp/pos.rs, agent/component.rs
    and player_activity.rs, navmesh/src/region.rs and heightmap.rs: locations
    and positions in f32, regions and their neighbours, headings, the height of
    a point.

    Operations of the linear algebra library are an interface ([Cgmath]). *)
From stdpp Require Import base list option strings gmap.
From Stdlib Require Import ZArith Lia SpecFloat.
From S2P Require Import Prelude Utf Text F32 Definitions TypeIdEnums TypeId GameData Serde Schema ProtoMovement.

Record Vector2 := { x2 : f32; y2 : f32 }.
Record Vector3 := { x3 : f32; y3 : f32; z3 : f32 }.

(** What is used of cgmath: the arithmetic of vectors, squares of distances and
    lengths, directions and angles. *)
Class Cgmath := {
  v_add : Vector2 -> Vector2 -> Vector2;
  v_sub : Vector2 -> Vector2 -> Vector2;
  v_scale : f32 -> Vector2 -> Vector2;
  distance2 : Vector2 -> Vector2 -> f32;
  distance2_3 : Vector3 -> Vector3 -> f32;
  magnitude2 : Vector2 -> f32;
  normalize : Vector2 -> Vector2;
  is_finite : Vector2 -> bool;
  is_zero : Vector2 -> bool;
  (** [Deg::from(value.angle(Vector2::unit_x())).0] *)
  angle_to_unit_x : Vector2 -> f32;
  (** [Quaternion::from_angle_y(Deg(angle)) * Vector3::unit_x()] *)
  rotated_unit_x : f32 -> Vector3;
  (** [pow(2)] *)
  squared : f32 -> f32
}.

(** ** vec.rs *)

Definition to_flat_vec2 (v : Vector3) : Vector2 := {| x2 := v.(x3); y2 := v.(z3) |}.
Definition with_height (v : Vector2) (height : f32) : Vector3 :=
  {| x3 := v.(x2); y3 := height; z3 := v.(y2) |}.

(** ** pos.rs *)

Record LocalLocation := { ll_region : Region; ll_vec : Vector2 }.
Record LocalPosition := { lp_region : Region; lp_vec : Vector3 }.
Definition GlobalLocation : Type := Vector2.
Definition GlobalPosition : Type := Vector3.

(** The length of a side of a region. *)
Definition f1920 : f32 := f32_of_Z 1920.

Definition to_global_location (l : LocalLocation) : GlobalLocation :=
  {| x2 := fadd l.(ll_vec).(x2) (fmul (f32_of_Z (region_x l.(ll_region))) f1920);
     y2 := fadd l.(ll_vec).(y2) (fmul (f32_of_Z (region_y l.(ll_region))) f1920) |}.

(** [as u8] of the number of sides. *)
Definition side (c : f32) : Z := f32_as (U 8) (fdiv c f1920).

Definition location_region (l : GlobalLocation) : Region := region_from_xy (side l.(x2)) (side l.(y2)).

Definition to_local_location (l : GlobalLocation) : LocalLocation :=
  {| ll_region := location_region l;
     ll_vec := {| x2 := frem l.(x2) f1920; y2 := frem l.(y2) f1920 |} |}.

(** The origin of the coordinates shown in the game. *)
Definition from_ingame_location (x z : f32) : GlobalLocation :=
  {| x2 := fadd (fmul x (f32_of_Z 10)) (fmul (f32_of_Z 0x87) f1920);
     y2 := fadd (fmul z (f32_of_Z 10)) (fmul (f32_of_Z 0x5C) f1920) |}.

Definition with_y (l : GlobalLocation) (y : f32) : GlobalPosition :=
  {| x3 := l.(x2); y3 := y; z3 := l.(y2) |}.

Definition point_in_line_with_range `{Cgmath} (self other : GlobalLocation) (range : f32) : GlobalLocation :=
  let range_squared := squared range in
  let distance_squared := distance2 self other in
  if fleb distance_squared range_squared then other
  else
    let direction := normalize (v_sub other self) in
    let offset := v_scale range direction in
    v_add self offset.

Definition to_global (p : LocalPosition) : GlobalPosition :=
  {| x3 := fadd p.(lp_vec).(x3) (fmul (f32_of_Z (region_x p.(lp_region))) f1920);
     y3 := p.(lp_vec).(y3);
     z3 := fadd p.(lp_vec).(z3) (fmul (f32_of_Z (region_y p.(lp_region))) f1920) |}.

Definition position_region (p : GlobalPosition) : Region := region_from_xy (side p.(x3)) (side p.(z3)).

Definition to_local (p : GlobalPosition) : LocalPosition :=
  {| lp_region := position_region p;
     lp_vec := {| x3 := frem p.(x3) f1920; y3 := p.(y3); z3 := frem p.(z3) f1920 |} |}.

Definition to_location (p : GlobalPosition) : GlobalLocation := {| x2 := p.(x3); y2 := p.(z3) |}.

Definition from_ingame_position (x y z : f32) : GlobalPosition :=
  {| x3 := fadd (fmul x (f32_of_Z 10)) (fmul (f32_of_Z 0x87) f1920); y3 := y;
     z3 := fadd (fmul z (f32_of_Z 10)) (fmul (f32_of_Z 0x5C) f1920) |}.

Definition Heading : Type := f32.
Definition f360 : f32 := f32_of_Z 360.

(** [impl From<u16> for Heading] *)
Definition heading_of_u16 (heading : Z) : Heading :=
  if heading =? 0 then f32_of_Z 0
  else
    let percent := fdiv (f32_of_Z heading) (f32_of_Z 65535) in
    fsub f360 (fmul percent f360).

(** [impl From<Heading> for u8], [for u16]: [max] is the largest value. *)
Definition heading_into (t : int_type) (heading : Heading) : Z :=
  if feqb heading (f32_of_Z 0) then 0
  else
    let percentage := fdiv (fsub f360 heading) f360 in
    f32_as t (fmul percentage (f32_of_Z (int_max t))).

Definition heading_into_u8 : Heading -> Z := heading_into (U 8).
Definition heading_into_u16 : Heading -> Z := heading_into (U 16).

(** [impl From<Vector2<f32>> for Heading] *)
Definition heading_of_vector `{Cgmath} (v : Vector2) : Heading := angle_to_unit_x v.

(** [NpcPosExt::location] *)
Definition npc_location (p : NpcPosition) : LocalPosition :=
  {| lp_region := p.(region); lp_vec := {| x3 := p.(GameData.x); y3 := p.(GameData.y); z3 := p.(GameData.z) |} |}.

(** ** region.rs *)

(** [self.x() + 1] of a [u8]; the release build wraps. *)
Definition with_grid_neighbours (r : Region) : list Region :=
  let x := region_x r in
  let y := region_y r in
  [ region_from_xy (u8 (x - 1)) y;
    r;
    region_from_xy (u8 (x + 1)) y;
    region_from_xy (u8 (x - 1)) (u8 (y - 1));
    region_from_xy x (u8 (y - 1));
    region_from_xy (u8 (x + 1)) (u8 (y - 1));
    region_from_xy (u8 (x - 1)) (u8 (y + 1));
    region_from_xy x (u8 (y + 1));
    region_from_xy (u8 (x + 1)) (u8 (y + 1)) ].

(** ** comp/pos.rs *)

Record Position := {
  location : GlobalPosition;
  rotation : Heading;
  has_rotated : bool;
  has_moved : bool
}.

Definition position_new (pos : GlobalPosition) (rotation : Heading) : Position :=
  {| location := pos; rotation := rotation; has_rotated := false; has_moved := false |}.

(** A float in a packet is its bits. *)
Definition as_protocol (p : Position) : val :=
  let local := to_local p.(location) in
  Position_new (VNum local.(lp_region)) (VNum (f32_bits local.(lp_vec).(x3)))
    (VNum (f32_bits local.(lp_vec).(y3))) (VNum (f32_bits local.(lp_vec).(z3)))
    (VNum (heading_into_u16 p.(rotation))).

Definition as_movement (p : Position) : val :=
  let local := to_local p.(location) in
  EntityMovementState_moving (VEnum "Running" []) (VNum local.(lp_region))
    (VNum (f32_as (U 16) local.(lp_vec).(x3))) (VNum (f32_as (U 16) local.(lp_vec).(y3)))
    (VNum (f32_as (U 16) local.(lp_vec).(z3))).

Definition as_standing (p : Position) : val :=
  EntityMovementState_standing (VEnum "Walking" []) (VNum 0) (VNum (heading_into_u16 p.(rotation))).

(** The square of the distance on the ground. *)
Definition distance_to `{Cgmath} (p other : Position) : f32 :=
  distance2 (to_flat_vec2 p.(location)) (to_flat_vec2 other.(location)).

Definition rotate (heading : Heading) (p : Position) : Position :=
  {| location := p.(location); rotation := heading; has_rotated := true; has_moved := p.(has_moved) |}.
Definition move_to (new_pos : GlobalPosition) (p : Position) : Position :=
  {| location := new_pos; rotation := p.(rotation); has_rotated := p.(has_rotated); has_moved := true |}.
Definition update_position (pos : GlobalPosition) (heading : Heading) (p : Position) : Position :=
  rotate heading (move_to pos p).
Definition position_reset (p : Position) : Position :=
  {| location := p.(location); rotation := p.(rotation); has_rotated := false; has_moved := false |}.

(** ** player_activity.rs *)

Definition PlayerActivity : Type := gset Region.
Definition is_region_active (activity : PlayerActivity) (r : Region) : bool := bool_decide (r ∈ activity).
Definition update_player_activity (players : list Position) : PlayerActivity :=
  list_to_set (map (fun pos => position_region pos.(location)) players).

(** ** agent/component.rs *)

Inductive MovementSpeed := Running | Walking | Berserk.

Record Agent := { running_speed : f32; walking_speed : f32; berserk_speed : f32 }.

Definition agent_default : Agent :=
  {| running_speed := f32_of_Z 50; walking_speed := f32_of_Z 16; berserk_speed := f32_of_Z 100 |}.
Definition from_character_data (c : RefCharacterData) : Agent :=
  {| running_speed := f32_of_Z c.(run_speed); walking_speed := f32_of_Z c.(walk_speed);
     berserk_speed := f32_of_Z c.(GameData.berserk_speed) |}.
Definition get_speed_value (a : Agent) (speed : MovementSpeed) : f32 :=
  match speed with
  | Running => a.(running_speed)
  | Walking => a.(walking_speed)
  | Berserk => a.(berserk_speed)
  end.
Definition set_speed (speed : MovementSpeed) (value : f32) (a : Agent) : Agent :=
  match speed with
  | Running => {| running_speed := value; walking_speed := a.(walking_speed); berserk_speed := a.(berserk_speed) |}
  | Walking => {| running_speed := a.(running_speed); walking_speed := value; berserk_speed := a.(berserk_speed) |}
  | Berserk => a
  end.

(** ** heightmap.rs *)

Record Heightmap := { heights : list f32; size : Z; tile_size : Z }.

Definition max_size (h : Heightmap) : Z := h.(size) * h.(tile_size).

(** [self.map\[x + y * self.size\]]: panics out of bounds. *)
Definition height_of_vertex {E} (h : Heightmap) (x y : Z) : outcome E f32 :=
  match h.(heights) !! Z.to_nat (x + y * h.(size)) with
  | Some v => Ok v
  | None => Panic
  end.

(** [floor() as usize]: for an unsigned type, what [as] gives. *)
Definition height_at_position {E} (h : Heightmap) (x y : f32) : outcome E (option f32) :=
  let limit := f32_of_Z (max_size h) in
  let zero := f32_of_Z 0 in
  if fltb x zero || fltb limit x || fltb y zero || fltb limit y then Ok None
  else
    let size := f32_of_Z h.(tile_size) in
    let left_corner_x := f32_as (U 64) (fdiv x size) in
    let top_corner_y := f32_as (U 64) (fdiv y size) in
    let right_corner_x := Z.min (left_corner_x + 1) (h.(Position.size) - 1) in
    let bottom_corner_y := Z.min (top_corner_y + 1) (h.(Position.size) - 1) in
    top_left_height ← height_of_vertex h left_corner_x top_corner_y;
    top_right_height ← height_of_vertex h right_corner_x top_corner_y;
    bottom_left_height ← height_of_vertex h left_corner_x bottom_corner_y;
    bottom_right_height ← height_of_vertex h right_corner_x bottom_corner_y;
    let x_diff := fdiv (fsub x (fmul (f32_of_Z left_corner_x) size)) size in
    let y_diff := fdiv (fsub y (fmul (f32_of_Z top_corner_y) size)) size in
    let interpolate_y_1 := fadd top_left_height (fmul (fsub bottom_left_height top_left_height) y_diff) in
    let interpolate_y_2 := fadd top_right_height (fmul (fsub bottom_right_height top_right_height) y_diff) in
    Ok (Some (fadd interpolate_y_1 (fmul (fsub interpolate_y_2 interpolate_y_1) x_diff))).
