(* ===== verification/PositionSpec.v ===== *)
(** Positions: the unit tests of the sources on the model, the neighbours of a
    region, and a concrete linear algebra for the examples. *)
From stdpp Require Import base list option strings gmap.
From Stdlib Require Import ZArith Lia SpecFloat.
From S2P Require Import Prelude Utf Text F32 Definitions TypeIdEnums TypeId GameData Serde SerdeFacts Schema ProtoMovement.
From S2P Require Import Position.

(** Vectors with componentwise arithmetic. Directions and angles are only those
    of the first axis, which the examples do not depend on. *)
Definition plane : Cgmath := {|
  v_add a b := {| x2 := fadd a.(x2) b.(x2); y2 := fadd a.(y2) b.(y2) |};
  v_sub a b := {| x2 := fsub a.(x2) b.(x2); y2 := fsub a.(y2) b.(y2) |};
  v_scale c a := {| x2 := fmul c a.(x2); y2 := fmul c a.(y2) |};
  distance2 a b :=
    let dx := fsub b.(x2) a.(x2) in let dy := fsub b.(y2) a.(y2) in fadd (fmul dx dx) (fmul dy dy);
  distance2_3 a b :=
    let dx := fsub b.(x3) a.(x3) in let dy := fsub b.(y3) a.(y3) in let dz := fsub b.(z3) a.(z3) in
    fadd (fadd (fmul dx dx) (fmul dy dy)) (fmul dz dz);
  magnitude2 a := fadd (fmul a.(x2) a.(x2)) (fmul a.(y2) a.(y2));
  normalize a := {| x2 := f32_of_Z 1; y2 := f32_of_Z 0 |};
  is_finite a := true;
  is_zero a := feqb a.(x2) (f32_of_Z 0) && feqb a.(y2) (f32_of_Z 0);
  angle_to_unit_x a := f32_of_Z 0;
  rotated_unit_x a := {| x3 := f32_of_Z 1; y3 := f32_of_Z 0; z3 := f32_of_Z 0 |};
  squared f := fmul f f
|}.

(** [test_convert_global] *)
Example convert_global :
  let global := from_ingame_location (f32_of_Z 6047) (f32_of_Z 1144) in
  let local := to_local_location global in
  local.(ll_region) = 24998 /\ feqb local.(ll_vec).(x2) (f32_of_Z 950) = true
  /\ feqb local.(ll_vec).(y2) (f32_of_Z 1840) = true
  /\ to_global_location local = global.
Proof. vm_compute. repeat split. Qed.

(** [test_empty_map] and [test_middle] *)
Example empty_map :
  let map := {| heights := repeat (f32_of_Z 0) 4; size := 2; tile_size := 1 |} in
  max_size map = 2
  /\ forallb (fun '(x, y) => match @height_at_position unit map x y with
                             | Ok (Some h) => feqb h (f32_of_Z 0)
                             | _ => false
                             end)
       [(f32_of_Z 0, f32_of_Z 0); (f32_of_Z 1, f32_of_Z 0); (f32_of_Z 0, f32_of_Z 1);
        (f32_of_decimal false 19999 (-4), f32_of_decimal false 19999 (-4))] = true.
Proof. vm_compute. repeat split. Qed.

Example middle :
  let map := {| heights := [f32_of_Z 0; f32_of_Z 0; f32_of_Z 0; f32_of_Z 10]; size := 2; tile_size := 1 |} in
  let half := fdiv (f32_of_Z 1) (f32_of_Z 2) in
  @height_at_position unit map (f32_of_Z 0) (f32_of_Z 0) = Ok (Some (f32_of_Z 0))
  /\ @height_at_position unit map half (f32_of_Z 1) = Ok (Some (f32_of_Z 5))
  /\ @height_at_position unit map half half = Ok (Some (fdiv (f32_of_Z 5) (f32_of_Z 2))).
Proof. vm_compute. repeat split. Qed.

(** The far edges pass the check and lie out of the grid. *)
Lemma edge_panics :
  let map := {| heights := [f32_of_Z 0; f32_of_Z 0; f32_of_Z 0; f32_of_Z 10]; size := 2; tile_size := 1 |} in
  @height_at_position unit map (f32_of_Z 2) (f32_of_Z 0) = Panic
  /\ @height_at_position unit map (f32_of_Z 0) (f32_of_Z 2) = Panic.
Proof. vm_compute. repeat split. Qed.

(** ** Neighbours *)

Lemma region_x_fits r : fits 8 (region_x r) = true.
Proof. apply wrap_fits. lia. Qed.
Lemma region_y_fits r : fits 8 (region_y r) = true.
Proof. apply wrap_fits. lia. Qed.
#[export] Hint Resolve region_x_fits region_y_fits : skr.

Lemma region_xy_of r : fits 16 r = true -> r = region_from_xy (region_x r) (region_y r).
Proof.
  intros Hr. rewrite region_from_xy_value by auto with skr. apply fits_spec in Hr.
  unfold region_x, region_y. change 0xFF with (Z.ones 8).
  rewrite Z.land_ones, Z.shiftr_div_pow2 by lia. unfold wrap.
  change (2 ^ 8) with 256 in *. change (2 ^ 16) with 65536 in Hr. zlia.
Qed.

Lemma region_from_xy_inj x y x' y' :
  fits 8 x = true -> fits 8 y = true -> fits 8 x' = true -> fits 8 y' = true ->
  region_from_xy x y = region_from_xy x' y' <-> x = x' /\ y = y'.
Proof.
  intros Hx Hy Hx' Hy'. rewrite !region_from_xy_value by assumption. rewrite fits_spec in *.
  change (2 ^ 8) with 256 in *. lia.
Qed.

Lemma f32_as_fits w a : 0 <= w -> fits w (f32_as (U w) a) = true.
Proof.
  intros Hw. pose proof (Z.pow_pos_nonneg 2 w). assert (H' := f32_as_in (U w) a). unfold in_type in H'.
  cbn [int_min int_max U] in H'. apply fits_spec. specialize (H' ltac:(lia)). split_andb. lia.
Qed.

Lemma position_region_fits p : fits 16 (position_region p) = true.
Proof. apply region_xy_roundtrip; apply f32_as_fits; lia. Qed.
#[export] Hint Resolve position_region_fits : skr.

(** [b] is [a] or next to it, in the wrapping arithmetic of bytes. *)
Definition adjacent (a b : Z) : Prop := b = u8 (a - 1) \/ b = a \/ b = u8 (a + 1).

Lemma adjacent_sym a b : fits 8 a = true -> fits 8 b = true -> adjacent a b -> adjacent b a.
Proof. rewrite !fits_spec. unfold adjacent, wrap. change (2 ^ 8) with 256. intros. zlia. Qed.

(** The close regions of a region are the nine different ones whose
    coordinates are adjacent in both directions; the relation is symmetric, so
    that entities in sight of each other are each looked for by the other. *)
Theorem neighbours_decide r r' (Hr : fits 16 r = true) (Hr' : fits 16 r' = true) :
  (r' ∈ with_grid_neighbours r
   <-> adjacent (region_x r) (region_x r') /\ adjacent (region_y r) (region_y r'))
  /\ NoDup (with_grid_neighbours r)
  /\ (r' ∈ with_grid_neighbours r <-> r ∈ with_grid_neighbours r').
Proof.
  assert (D : forall a b, fits 16 a = true -> fits 16 b = true ->
    b ∈ with_grid_neighbours a
    <-> adjacent (region_x a) (region_x b) /\ adjacent (region_y a) (region_y b)).
  { intros a b Ha Hb. rewrite (region_xy_of b Hb) at 1. unfold with_grid_neighbours, adjacent.
    rewrite (region_xy_of a Ha) at 3.
    rewrite !elem_of_cons, elem_of_nil, !region_from_xy_inj by auto using wrap_fits with skr lia.
    tauto. }
  split; [apply D; assumption|]. split.
  - unfold with_grid_neighbours. rewrite (region_xy_of r Hr) at 3.
    pose proof (region_x_fits r) as Hx. pose proof (region_y_fits r) as Hy.
    repeat (apply NoDup_cons; split;
      [rewrite ?elem_of_cons, elem_of_nil, ?region_from_xy_inj by auto using wrap_fits with skr lia;
       rewrite fits_spec in Hx, Hy; unfold wrap; change (2 ^ 8) with 256 in *; zlia|]).
    apply NoDup_nil_2.
  - rewrite !D by assumption. split; intros [Hx Hy]; split; apply adjacent_sym; auto with skr.
Qed.

Lemma neighbours_decide_witness :
  with_grid_neighbours 24998
    = [24997; 24998; 24999; 24741; 24742; 24743; 25253; 25254; 25255]
  /\ (24741 ∈ with_grid_neighbours 24998 <-> 24998 ∈ with_grid_neighbours 24741).
Proof. split; [reflexivity|]. apply (neighbours_decide 24998 24741); reflexivity. Defined.

(** ** Messages *)

Lemma f32_bits_fits a : fits 32 (f32_bits a) = true.
Proof. apply wrap_fits. lia. Qed.

Lemma heading_into_fits w h : 0 <= w -> fits w (heading_into (U w) h) = true.
Proof.
  intros Hw. unfold heading_into. destruct (feqb _ _); [|apply f32_as_fits, Hw].
  apply fits_spec. pose proof (Z.pow_pos_nonneg 2 w). lia.
Qed.
#[export] Hint Resolve f32_bits_fits : skr.

#[export] Hint Extern 1 (fits _ (heading_into _ _) = true) => (apply heading_into_fits; lia) : skr.
#[export] Hint Extern 1 (fits _ (f32_as (U _) _) = true) => (apply f32_as_fits; lia) : skr.

Lemma as_protocol_legal p : encodable no_args [] ProtoMovement.Position (as_protocol p) = true.
Proof. unfold as_protocol, Position_new, heading_into_u16, to_local. cbn [lp_region lp_vec x3 y3 z3]. legal_value. Qed.

Lemma as_movement_legal p : encodable no_args [] EntityMovementState (as_movement p) = true.
Proof. unfold as_movement, EntityMovementState_moving, to_local. cbn [lp_region lp_vec x3 y3 z3]. legal_value. Qed.

Lemma as_standing_legal p : encodable no_args [] EntityMovementState (as_standing p) = true.
Proof. unfold as_standing, EntityMovementState_standing, heading_into_u16. legal_value. Qed.
#[export] Hint Resolve as_protocol_legal as_movement_legal as_standing_legal : legal.
