(* ===== verification/Security.v ===== *)
(** silkroad-security/src/security.rs and passcode.rs: the handshake and the
    encryption of a connection.

    The block cipher (crate blowfish-compat) is a parameter, the class
    [BlockCipher], and what it documents is [BlockCipherLaws]. The values
    [rand::random] draws are an argument of [initialize]. *)
From stdpp Require Import base list option.
From Stdlib Require Import ZArith Lia.
From S2P Require Import Prelude Utf.

(** ** The block cipher *)

Class BlockCipher (cipher : Type) := {
  new_from_slice : list Z -> option cipher;
  encrypt_block : cipher -> list Z -> list Z;
  decrypt_block : cipher -> list Z -> list Z;
}.

Definition is_block (b : list Z) : Prop := length b = 8%nat /\ bytes_ok b = true.

Class BlockCipherLaws (cipher : Type) `{BlockCipher cipher} := {
  new_from_slice_8 : forall key, length key = 8%nat -> is_Some (new_from_slice key);
  encrypt_block_ok : forall c b, is_block b -> is_block (encrypt_block c b);
  decrypt_block_ok : forall c b, is_block b -> is_block (decrypt_block c b);
  decrypt_encrypt_block : forall c b, is_block b -> decrypt_block c (encrypt_block c b) = b;
  encrypt_decrypt_block : forall c b, is_block b -> encrypt_block c (decrypt_block c b) = b;
}.

(** ** Words, keys and powers *)

Definition LOWORD (a : Z) : Z := Z.land a 0xFFFF.
Definition HIWORD (a : Z) : Z := Z.land (Z.shiftr a 16) 0xFFFF.
Definition LOBYTE (a : Z) : Z := Z.land a 0xFF.
Definition HIBYTE (a : Z) : Z := Z.land (Z.shiftr a 8) 0xFF.

(** The loop of [g_pow_x_mod_p]: [i64] products wrap, [%] truncates and panics
    on a zero modulus. The fuel of 32 rounds covers every [u32] exponent; a
    run that exceeds it is reported as [Panic]. *)
Fixpoint pow_loop (fuel : nat) (p x current mult : Z) : outcome Empty_set Z :=
  if x =? 0 then Ok (u32 current)
  else match fuel with
  | O => Panic
  | S fuel =>
      if p =? 0 then Panic
      else
        let current := if 0 <? Z.land x 1 then Z.rem (i64 (mult * current)) p else current in
        pow_loop fuel p (Z.shiftr x 1) current (Z.rem (i64 (mult * mult)) p)
  end.

Definition g_pow_x_mod_p (p x g : Z) : outcome Empty_set Z := pow_loop 32 p x 1 g.

Definition transform_key (val key key_byte : Z) : Z :=
  let key_bytes := [LOBYTE (LOWORD key); HIBYTE (LOWORD key); LOBYTE (HIWORD key); HIBYTE (HIWORD key)] in
  le_num (zip_with (fun s k => Z.lxor s (u8 (u8 (s + k) + key_byte)))
    (le_bytes 8 val) (key_bytes ++ key_bytes)).

Definition to_u64 (low high : Z) : Z := Z.lor (u64 (Z.shiftl high 32)) low.

(** ** Count seeds *)

Definition cycle_step (val : Z) : Z :=
  let x v k := Z.lxor (Z.shiftr v k) val in
  Z.lor
    (Z.land (x (x (x (x (x val 2) 2) 1) 1) 1) 1)
    (Z.land (Z.lor (u32 (Z.shiftl (Z.land val 1) 31)) (Z.shiftr val 1)) 0xFFFFFFFE).

Definition cycle_value (seed : Z) : Z := Nat.iter 32 cycle_step seed.

Definition generate_count_seed (seed : Z) : Z * Z * Z :=
  let round1 := cycle_value seed in
  let round2 := cycle_value round1 in
  let round3 := cycle_value round2 in
  let round4 := cycle_value round3 in
  let byte1 := u8 (Z.lxor (Z.land round4 0xFF) (Z.land round3 0xFF)) in
  let byte2 := u8 (Z.lxor (Z.land round1 0xFF) (Z.land round2 0xFF)) in
  let byte1 := if byte1 =? 0 then 1 else byte1 in
  let byte2 := if byte2 =? 0 then 1 else byte2 in
  (Z.lxor byte1 byte2, byte2, byte1).

(** ** The security of a connection *)

Inductive security_error :=
| SecurityUninitialized
| AlreadyInitialized
| InitializationUnfinished
| InvalidBlockLength (n : Z)
| KeyExchangeMismatch (received calculated : Z).

Record initialization_data := {
  seed : Z; count_seed : Z; crc_seed : Z; handshake_seed : Z;
  additional_seeds : Z * Z * Z;
}.

(** The draws of [initialize], in their order. *)
Record draws := {
  draw_seed : Z; draw_count_seed : Z; draw_crc_seed : Z; draw_handshake_seed : Z;
  draw_x : Z; draw_g : Z; draw_p : Z;
}.

Section Security.
Context {cipher : Type} `{!BlockCipher cipher}.

Inductive security_state :=
| Uninitialized
| HandshakeStarted (count_seed crc_seed handshake_seed value_x value_p value_a : Z)
| Challenged (blowfish : cipher) (count_seed crc_seed : Z)
| Established (blowfish : cipher) (count_seed : Z * Z * Z) (crc_seed : Z).

Definition blowfish_from_int {E} (key : Z) : outcome E cipher :=
  match new_from_slice (le_bytes 8 key) with
  | Some c => Ok c
  | None => Panic
  end.

(** A power whose only failure is a panic, at any error type. *)
Definition power {E} (p x g : Z) : outcome E Z :=
  match g_pow_x_mod_p p x g with Ok a => Ok a | _ => Panic end.

Definition initialize (d : draws) (s : security_state)
    : outcome security_error (initialization_data * security_state) :=
  match s with
  | Uninitialized =>
      let value_x := Z.land d.(draw_x) 0x7FFFFFFF in
      let value_g := Z.land d.(draw_g) 0x7FFFFFFF in
      let value_p := Z.land d.(draw_p) 0x7FFFFFFF in
      value_a ← power value_p value_x value_g;
      Ok ({| seed := d.(draw_seed); count_seed := d.(draw_count_seed);
             crc_seed := d.(draw_crc_seed); handshake_seed := d.(draw_handshake_seed);
             additional_seeds := (value_g, value_p, value_a) |},
          HandshakeStarted d.(draw_count_seed) d.(draw_crc_seed) d.(draw_handshake_seed)
            value_x value_p value_a)
  | _ => Err AlreadyInitialized
  end.

Definition initialize_with (count_seed crc_seed handshake_seed x p a : Z) (_ : security_state)
    : security_state :=
  HandshakeStarted count_seed crc_seed handshake_seed x p a.

Definition restart (_ : security_state) : security_state := Uninitialized.

(** The key of the key exchange and the two keys sealed with it. *)
Definition exchange_key (a b k : Z) : Z := transform_key (to_u64 a b) k (Z.land (LOBYTE (LOWORD k)) 0x03).
Definition client_proof (a b k : Z) : Z := transform_key (to_u64 b a) k (Z.land (LOBYTE (LOWORD b)) 0x07).
Definition server_proof (a b k : Z) : Z := transform_key (to_u64 a b) k (Z.land (LOBYTE (LOWORD a)) 0x07).

Definition start_challenge (value_b client_key : Z) (s : security_state)
    : outcome security_error (Z * security_state) :=
  match s with
  | HandshakeStarted count_seed crc_seed handshake_seed value_x value_p value_a =>
      value_k ← power value_p value_x value_b;
      blowfish ← blowfish_from_int (exchange_key value_a value_b value_k);
      let client_key := le_num (decrypt_block blowfish (le_bytes 8 client_key)) in
      let new_key := client_proof value_a value_b value_k in
      if negb (new_key =? client_key) then Err (KeyExchangeMismatch client_key new_key)
      else
        blowfish ← blowfish_from_int (exchange_key value_a value_b value_k);
        let challenge_key := server_proof value_a value_b value_k in
        let encrypted_challenge := le_num (encrypt_block blowfish (le_bytes 8 challenge_key)) in
        blowfish ← blowfish_from_int (transform_key handshake_seed value_k 0x03);
        Ok (encrypted_challenge, Challenged blowfish count_seed crc_seed)
  | _ => Err SecurityUninitialized
  end.

Definition accept_challenge (s : security_state) : outcome security_error security_state :=
  match s with
  | Challenged blowfish count_seed crc_seed =>
      Ok (Established blowfish (generate_count_seed count_seed) crc_seed)
  | _ => Err InitializationUnfinished
  end.

(** [chunks_mut(8)] over data whose length is a multiple of 8. *)
Fixpoint map_blocks (f : list Z -> list Z) (n : nat) (data : list Z) : list Z :=
  match n with
  | O => []
  | S n => f (firstn 8 data) ++ map_blocks f n (skipn 8 data)
  end.

Definition crypt (f : cipher -> list Z -> list Z) (data : list Z) (s : security_state)
    : outcome security_error (list Z) :=
  match s with
  | Established blowfish _ _ =>
      if negb (Z.of_nat (length data) mod 8 =? 0) then Err (InvalidBlockLength (Z.of_nat (length data)))
      else Ok (map_blocks (f blowfish) (length data / 8) data)
  | _ => Err SecurityUninitialized
  end.

Definition decrypt_mut := crypt decrypt_block.
Definition decrypt := decrypt_mut.
Definition encrypt_mut := crypt encrypt_block.

Definition find_encrypted_length (given_length : Z) : Z :=
  let aligned_length := given_length mod 8 in
  if aligned_length =? 0 then given_length else given_length + (8 - aligned_length).

Definition padding (data : list Z) : list Z :=
  let n := Z.of_nat (length data) in
  replicate (Z.to_nat (find_encrypted_length n - n)) 0.

Definition encrypt (data : list Z) (s : security_state) : outcome security_error (list Z) :=
  match s with
  | Established _ _ _ => encrypt_mut (data ++ padding data) s
  | _ => Err SecurityUninitialized
  end.

(** [count_seed] is bound by copy: the assignment to [count_seed\[0\]] is to
    the copy, and the state keeps the old seed. *)
Definition generate_count_byte (s : security_state) : outcome security_error (Z * security_state) :=
  match s with
  | Established _ (c0, c1, c2) _ =>
      let result := u32 (c2 * u32 ((255 - c0) + c1)) in
      Ok (u8 (Z.lxor result (Z.shiftr result 4)), s)
  | _ => Err SecurityUninitialized
  end.

(** passcode.rs: [decode_passcode], with the decoder's fixed key. *)
Definition passcode_key : list Z := [0x0f; 0x07; 0x3d; 0x20; 0x56; 0x62; 0xc9; 0xeb].

Inductive from_utf8_error := FromUtf8Error.

Definition decode_passcode (passcode_length : Z) (encrypted : list Z)
    : outcome from_utf8_error (list Z) :=
  match new_from_slice passcode_key with
  | None => Panic
  | Some blowfish =>
      if negb (length encrypted =? 8)%nat then Panic
      else
        let data := decrypt_block blowfish encrypted in
        if Z.of_nat (length data) <? passcode_length then Panic
        else ok_or (from_utf8 (firstn (Z.to_nat passcode_length) data)) FromUtf8Error
  end.

End Security.
Arguments security_state cipher : clear implicits.
