(* ===== verification/SecurityFacts.v ===== *)
(** Correctness of Security.v: the key exchange, the states of the handshake,
    and the encryption of frames. *)
From stdpp Require Import base list option.
From Stdlib Require Import ZArith Lia Zpow_facts.
From S2P Require Import Prelude Utf Security.

(** ** Arithmetic of the key exchange *)

Lemma rem_small_product p a : 0 < p -> 0 <= a < 2 ^ 63 -> Z.rem (i64 a) p = a mod p.
Proof.
  intros Hp Ha. rewrite swrap_small by (try apply sfits_spec; lia).
  apply Z.rem_mod_nonneg; lia.
Qed.

(** The largest base whose square is an [i64]. *)
Definition max_base : Z := 3037000499.

Lemma pow_loop_correct fuel p x current mult :
  0 < p < 2 ^ 31 -> 0 <= x < 2 ^ Z.of_nat fuel -> 0 <= current < 2 ^ 31 -> 0 <= mult <= max_base ->
  pow_loop fuel p x current mult
  = Ok (if x =? 0 then current else (current * mult ^ x) mod p).
Proof.
  unfold max_base. revert x current mult.
  induction fuel as [|fuel IH]; intros x current mult Hp Hx Hc Hm.
  { replace x with 0 by (simpl in Hx; lia). simpl. f_equal. apply wrap_small, fits_spec. lia. }
  rewrite Nat2Z.inj_succ, Z.pow_succ_r in Hx by lia.
  cbn [pow_loop]. destruct (Z.eqb_spec x 0) as [->|Hx0].
  { f_equal. apply wrap_small, fits_spec. lia. }
  destruct (Z.eqb_spec p 0); [lia|]. cbv zeta.
  replace (Z.land x 1) with (x mod 2) by (symmetry; apply (Z.land_ones x 1); lia).
  rewrite Z.shiftr_div_pow2 by lia. change (2 ^ 1) with 2. rewrite !rem_small_product by nia.
  pose proof (Z.mod_pos_bound (mult * mult) p ltac:(lia)) as Hm2.
  pose proof (Z.mod_pos_bound (mult * current) p ltac:(lia)) as Hmc.
  assert (Hq : 0 <= x / 2 < 2 ^ Z.of_nat fuel) by zlia.
  assert (Hpow : forall c, (c * (mult * mult mod p) ^ (x / 2)) mod p = (c * mult ^ (2 * (x / 2))) mod p).
  { intros c. rewrite Z.mul_mod, <- Zpower_mod, <- Z.mul_mod by lia.
    rewrite <- Z.pow_2_r, <- Z.pow_mul_r by lia. reflexivity. }
  destruct (Z.ltb_spec 0 (x mod 2)) as [Hodd|Heven].
  - rewrite IH by lia. rewrite Hpow, Z.mul_mod_idemp_l by lia. f_equal.
    destruct (Z.eqb_spec (x / 2) 0) as [E|E].
    + replace x with 1 by zlia. rewrite Z.pow_1_r. f_equal. lia.
    + f_equal. rewrite (Z.mul_comm mult), <- Z.mul_assoc, <- Z.pow_succ_r by zlia. repeat f_equal. zlia.
  - rewrite IH by lia. rewrite Hpow. f_equal.
    destruct (Z.eqb_spec (x / 2) 0) as [E|E]; [zlia|]. repeat f_equal. zlia.
Qed.

Lemma g_pow_x_mod_p_correct p x g :
  1 < p < 2 ^ 31 -> fits 32 x = true -> 0 <= g <= max_base ->
  g_pow_x_mod_p p x g = Ok (g ^ x mod p).
Proof.
  rewrite fits_spec. intros Hp Hx Hg. unfold g_pow_x_mod_p.
  rewrite pow_loop_correct by (change (Z.of_nat 32) with 32; lia).
  destruct (Z.eqb_spec x 0) as [->|]; [rewrite Z.pow_0_r, Z.mod_1_l by lia; reflexivity|].
  rewrite Z.mul_1_l. reflexivity.
Qed.

Lemma power_correct {E} p x g :
  1 < p < 2 ^ 31 -> fits 32 x = true -> 0 <= g <= max_base ->
  @power E p x g = Ok (g ^ x mod p).
Proof. intros. unfold power. rewrite g_pow_x_mod_p_correct by assumption. reflexivity. Qed.

(** ** Keys are 64-bit words *)

Lemma lxor_fits w a b : 0 <= w -> fits w a = true -> fits w b = true -> fits w (Z.lxor a b) = true.
Proof.
  intros Hw Ha Hb. rewrite <- (wrap_small w a Ha), <- (wrap_small w b Hb).
  replace (Z.lxor (wrap w a) (wrap w b)) with (wrap w (Z.lxor a b)); [apply wrap_fits, Hw|].
  unfold wrap. rewrite <- !Z.land_ones by assumption. apply Z.bits_inj'. intros n Hn.
  rewrite !Z.lxor_spec, !Z.land_spec, Z.lxor_spec. destruct (Z.testbit (Z.ones w) n);
    rewrite ?andb_true_r, ?andb_false_r; reflexivity.
Qed.

Lemma transform_key_fits val key key_byte : fits 64 (transform_key val key key_byte) = true.
Proof.
  apply fits_spec. unfold transform_key. cbn [le_bytes app zip_with].
  match goal with |- context [le_num ?l] => set (bs := l) end.
  change 64 with (8 * Z.of_nat (length bs)). apply le_num_range. unfold bs.
  repeat (cbn [bytes_ok forallb]; apply andb_true_iff; split;
    [apply lxor_fits; [lia|apply byte_mod_fits|apply wrap_fits; lia]|]).
  reflexivity.
Qed.

Section Cipher.
Context {cipher : Type} `{BlockCipherLaws cipher}.

Lemma le_bytes_block z : is_block (le_bytes 8 z).
Proof. split; [apply le_bytes_length|apply le_bytes_ok]. Qed.

Lemma le_bytes_num_block b : is_block b -> le_bytes 8 (le_num b) = b.
Proof. intros [Hl Hb]. rewrite <- Hl. apply le_bytes_num, Hb. Qed.

Lemma blowfish_from_int_some {E} key :
  exists c, @blowfish_from_int cipher _ E key = Ok c
    /\ new_from_slice (le_bytes 8 key) = Some c.
Proof.
  unfold blowfish_from_int.
  destruct (new_from_slice_8 (le_bytes 8 key) (le_bytes_length _ _)) as [c E']. rewrite E'. eauto.
Qed.

(** Sealing a 64-bit word with the cipher, and opening it. *)
Definition seal (c : cipher) (z : Z) : Z := le_num (encrypt_block c (le_bytes 8 z)).
Definition unseal (c : cipher) (z : Z) : Z := le_num (decrypt_block c (le_bytes 8 z)).

Lemma unseal_seal c z : fits 64 z = true -> unseal c (seal c z) = z.
Proof.
  intros Hz. unfold unseal, seal.
  rewrite le_bytes_num_block by (apply encrypt_block_ok, le_bytes_block).
  rewrite decrypt_encrypt_block by apply le_bytes_block. apply le_num_bytes_fits, Hz.
Qed.

Lemma start_challenge_spec cs crs hs x p a b k :
  @power security_error p x b = Ok k ->
  exists cx bf,
    new_from_slice (le_bytes 8 (exchange_key a b k)) = Some cx
    /\ new_from_slice (le_bytes 8 (transform_key hs k 0x03)) = Some bf
    /\ forall key, start_challenge b key (HandshakeStarted cs crs hs x p a)
       = if unseal cx key =? client_proof a b k
         then Ok (seal cx (server_proof a b k), Challenged bf cs crs)
         else Err (KeyExchangeMismatch (unseal cx key) (client_proof a b k)).
Proof.
  intros Hk. destruct (@blowfish_from_int_some security_error (exchange_key a b k)) as (cx & E1 & E2).
  destruct (@blowfish_from_int_some security_error (transform_key hs k 0x03)) as (bf & E3 & E4).
  exists cx, bf. repeat split; [assumption..|]. intros key. cbn [start_challenge].
  rewrite Hk. cbn [mbind outcome_bind]. rewrite E1. cbn [mbind outcome_bind].
  fold (unseal cx key). rewrite (Z.eqb_sym (client_proof a b k)).
  destruct (unseal cx key =? client_proof a b k); [|reflexivity].
  cbn [negb]. rewrite E3. reflexivity.
Qed.

(** ** Blocks *)

Lemma find_encrypted_length_spec n :
  0 <= n ->
  find_encrypted_length n mod 8 = 0 /\ n <= find_encrypted_length n < n + 8.
Proof.
  intros Hn. unfold find_encrypted_length. cbv zeta.
  destruct (Z.eqb_spec (n mod 8) 0); [split; lia|].
  split; [|zlia]. replace (n + (8 - n mod 8)) with ((n / 8 + 1) * 8) by zlia. apply Z_mod_mult.
Qed.

Lemma length_padded data :
  Z.of_nat (length (data ++ padding data)) = find_encrypted_length (Z.of_nat (length data)).
Proof.
  unfold padding. rewrite length_app, length_replicate.
  pose proof (find_encrypted_length_spec (Z.of_nat (length data)) ltac:(lia)). lia.
Qed.

Lemma padding_bytes_ok data : bytes_ok (padding data) = true.
Proof.
  unfold padding, bytes_ok. generalize (Z.to_nat (find_encrypted_length (Z.of_nat (length data)) - Z.of_nat (length data))).
  induction n; [reflexivity|]. exact IHn.
Qed.

Lemma block_split n data :
  length data = (8 * S n)%nat -> bytes_ok data = true ->
  is_block (firstn 8 data) /\ length (skipn 8 data) = (8 * n)%nat /\ bytes_ok (skipn 8 data) = true.
Proof.
  intros Hl Hb. rewrite <- (firstn_skipn 8 data), bytes_ok_app in Hb. apply andb_true_iff in Hb as [H1 H2].
  unfold is_block. rewrite firstn_length_le, length_skipn by lia. repeat split; [assumption|lia|assumption].
Qed.

Lemma map_blocks_ok (f : list Z -> list Z) n data :
  (forall b, is_block b -> is_block (f b)) ->
  length data = (8 * n)%nat -> bytes_ok data = true ->
  length (map_blocks f n data) = (8 * n)%nat /\ bytes_ok (map_blocks f n data) = true.
Proof.
  intros Hf. revert data; induction n as [|n IH]; intros data Hl Hb; [split; [simpl; lia|reflexivity]|].
  destruct (block_split n data Hl Hb) as (B & L & O). cbn [map_blocks].
  destruct (IH _ L O) as [IL IO]. destruct (Hf _ B) as [BL BO].
  rewrite length_app, bytes_ok_app, BL, BO, IL, IO. split; [lia|reflexivity].
Qed.

Lemma map_blocks_inverse (f g : list Z -> list Z) n data :
  (forall b, is_block b -> is_block (f b)) -> (forall b, is_block b -> g (f b) = b) ->
  length data = (8 * n)%nat -> bytes_ok data = true ->
  map_blocks g n (map_blocks f n data) = data.
Proof.
  intros Hf Hg. revert data; induction n as [|n IH]; intros data Hl Hb.
  { destruct data; [reflexivity|simpl in Hl; lia]. }
  destruct (block_split n data Hl Hb) as (B & L & O). cbn [map_blocks].
  destruct (Hf _ B) as [BL _].
  rewrite take_app_length', drop_app_length' by (symmetry; assumption).
  rewrite Hg, IH by assumption. apply firstn_skipn.
Qed.

Lemma crypt_established (f : cipher -> list Z -> list Z) c ct crs data n :
  length data = (8 * n)%nat -> crypt f data (Established c ct crs) = Ok (map_blocks (f c) n data).
Proof.
  intros Hl. cbn [crypt]. rewrite Hl, Nat2Z.inj_mul, Z.mul_comm, Z_mod_mult. cbn [negb Z.eqb].
  rewrite Nat.mul_comm, Nat.div_mul by lia. reflexivity.
Qed.

Lemma padded_blocks data :
  exists n, length (data ++ padding data) = (8 * n)%nat.
Proof.
  pose proof (find_encrypted_length_spec (Z.of_nat (length data)) ltac:(lia)) as [Hm _].
  rewrite <- length_padded in Hm.
  exists (Z.to_nat (Z.of_nat (length (data ++ padding data)) / 8)). zlia.
Qed.

End Cipher.
