(* ===== verification/SecuritySpec.v ===== *)
(** The contract of the connection security: a completed handshake agrees on
    keys with the client, nothing is encrypted before it, and decryption undoes
    encryption. Client behaviour follows the handshake described on
    [SilkroadSecurity]. *)
From stdpp Require Import base list option.
From Stdlib Require Import ZArith Lia.
From S2P Require Import Prelude Utf Security SecurityFacts.

(** ** A cipher for the witnesses

    Each byte of a block is combined with the low byte of the key. *)
Definition xor_block (c : Z) (b : list Z) : list Z := map (fun x => Z.lxor x (u8 c)) b.

#[export] Instance xor_cipher : BlockCipher Z := {|
  new_from_slice key := Some (le_num key);
  encrypt_block := xor_block;
  decrypt_block := xor_block;
|}.

Lemma xor_block_ok c b : is_block b -> is_block (xor_block c b).
Proof.
  intros [Hl Hb]. split; [unfold xor_block; rewrite length_map; assumption|].
  clear Hl. induction b as [|x b IH]; [reflexivity|]. cbn [bytes_ok forallb xor_block map] in *.
  apply andb_true_iff in Hb as [Hx Hb].
  rewrite lxor_fits; [apply IH, Hb|lia|assumption|apply wrap_fits; lia].
Qed.

Lemma xor_block_twice c b : xor_block c (xor_block c b) = b.
Proof.
  unfold xor_block. rewrite map_map. rewrite <- (map_id b) at 2. apply map_ext. intros x.
  rewrite Z.lxor_assoc, Z.lxor_nilpotent. apply Z.lxor_0_r.
Qed.

#[export] Instance xor_cipher_laws : BlockCipherLaws Z.
Proof.
  split; intros; try (apply xor_block_ok; assumption); try apply xor_block_twice.
  eexists. reflexivity.
Qed.

(** ** Histories of a connection *)

Section Spec.
Context {cipher : Type} `{BlockCipherLaws cipher}.

(** The operations that change the state of a [SilkroadSecurity]. *)
Inductive op :=
| OpInitialize (d : draws)
| OpInitializeWith (count_seed crc_seed handshake_seed x p a : Z)
| OpRestart
| OpStartChallenge (value_b client_key : Z)
| OpAcceptChallenge
| OpGenerateCountByte.

(** A call that returns an error leaves the state as it was. *)
Definition apply_op (o : op) (s : security_state cipher) : security_state cipher :=
  match o with
  | OpInitialize d => match initialize d s with Ok (_, s') => s' | _ => s end
  | OpInitializeWith cs crs hs x p a => initialize_with cs crs hs x p a s
  | OpRestart => restart s
  | OpStartChallenge b key => match start_challenge b key s with Ok (_, s') => s' | _ => s end
  | OpAcceptChallenge => match accept_challenge s with Ok s' => s' | _ => s end
  | OpGenerateCountByte => match generate_count_byte s with Ok (_, s') => s' | _ => s end
  end.

Definition run (ops : list op) (s : security_state cipher) : security_state cipher :=
  fold_left (fun s o => apply_op o s) ops s.

Lemma run_snoc ops o s : run (ops ++ [o]) s = apply_op o (run ops s).
Proof. unfold run. rewrite fold_left_app. reflexivity. Qed.

Lemma initialize_state d (s s' : security_state cipher) i :
  initialize d s = Ok (i, s') -> exists cs crs hs x p a, s' = HandshakeStarted cs crs hs x p a.
Proof.
  destruct s; try discriminate. cbn [initialize]. intros E.
  apply bind_ok in E as (a & _ & E). injection E as _ <-. eauto 10.
Qed.

Lemma start_challenge_state b key (s s' : security_state cipher) ch :
  start_challenge b key s = Ok (ch, s') ->
  exists bf cs crs, s' = Challenged bf cs crs
    /\ exists hs x p a, s = HandshakeStarted cs crs hs x p a.
Proof.
  destruct s; try discriminate. cbn [start_challenge]. intros E.
  apply bind_ok in E as (k & _ & E). apply bind_ok in E as (c & _ & E). cbv zeta in E.
  destruct (negb _); [discriminate|]. apply bind_ok in E as (c2 & _ & E).
  apply bind_ok in E as (c3 & _ & E). injection E as _ <-. eauto 10.
Qed.

Lemma generate_count_byte_state (s s' : security_state cipher) r : generate_count_byte s = Ok (r, s') -> s' = s.
Proof. destruct s as [| | |bf [[c0 c1] c2] crs]; try discriminate. cbn. congruence. Qed.

Lemma challenged_history ops bf cs crs :
  run ops Uninitialized = Challenged bf cs crs ->
  exists before b key after hs x p a ch,
    ops = before ++ OpStartChallenge b key :: after
    /\ run before Uninitialized = HandshakeStarted cs crs hs x p a
    /\ start_challenge b key (HandshakeStarted cs crs hs x p a) = Ok (ch, Challenged bf cs crs).
Proof.
  induction ops as [|o ops IH] using rev_ind; [discriminate|]. rewrite run_snoc.
  assert (Hkeep : run ops Uninitialized = Challenged bf cs crs ->
    exists before b key after hs x p a ch,
      ops ++ [o] = before ++ OpStartChallenge b key :: after
      /\ run before Uninitialized = HandshakeStarted cs crs hs x p a
      /\ start_challenge b key (HandshakeStarted cs crs hs x p a) = Ok (ch, Challenged bf cs crs)).
  { intros E. destruct (IH E) as (before & b & key & after & hs & x & p & a & ch & -> & R & S).
    exists before, b, key, (after ++ [o]), hs, x, p, a, ch. rewrite <- app_assoc. auto. }
  destruct o; cbn [apply_op].
  - destruct (initialize d _) as [[i s']| |] eqn:E; auto.
    apply initialize_state in E as (? & ? & ? & ? & ? & ? & ->). discriminate.
  - discriminate.
  - discriminate.
  - destruct (start_challenge value_b client_key _) as [[ch s']| |] eqn:E; auto. intros ->.
    pose proof E as E'. apply start_challenge_state in E' as (? & ? & ? & [= <- <- <-] & hs & x & p & a & R).
    exists ops, value_b, client_key, [], hs, x, p, a, ch. rewrite R in E. auto.
  - destruct (run ops Uninitialized) eqn:R; cbn [accept_challenge]; auto; discriminate.
  - destruct (generate_count_byte _) as [[r s']| |] eqn:E; auto.
    apply generate_count_byte_state in E as ->. auto.
Qed.

(** Encryption is only ever enabled by a full handshake: in every history
    of a fresh connection that ends established, an initialization was
    followed by a challenge whose client key was accepted and then by the
    acceptance, and the session's cipher, count seed and checksum seed are the
    ones this handshake derived. *)
Theorem established_after_handshake ops bf ct crs
    (Hr : run ops Uninitialized = Established bf ct crs) :
  exists before b key between after cs hs x p a ch,
    ops = before ++ [OpStartChallenge b key] ++ between ++ [OpAcceptChallenge] ++ after
    /\ run before Uninitialized = HandshakeStarted cs crs hs x p a
    /\ start_challenge b key (HandshakeStarted cs crs hs x p a) = Ok (ch, Challenged bf cs crs)
    /\ ct = generate_count_seed cs.
Proof.
  revert Hr. induction ops as [|o ops IH] using rev_ind; [discriminate|]. rewrite run_snoc.
  assert (Hkeep : run ops Uninitialized = Established bf ct crs ->
    exists before b key between after cs hs x p a ch,
      ops ++ [o] = before ++ [OpStartChallenge b key] ++ between ++ [OpAcceptChallenge] ++ after
      /\ run before Uninitialized = HandshakeStarted cs crs hs x p a
      /\ start_challenge b key (HandshakeStarted cs crs hs x p a) = Ok (ch, Challenged bf cs crs)
      /\ ct = generate_count_seed cs).
  { intros E.
    destruct (IH E) as (before & b & key & between & after & cs & hs & x & p & a & ch & -> & R).
    exists before, b, key, between, (after ++ [o]), cs, hs, x, p, a, ch.
    rewrite <- !app_assoc. auto. }
  destruct o; cbn [apply_op].
  - destruct (initialize d _) as [[i s']| |] eqn:E; auto.
    apply initialize_state in E as (? & ? & ? & ? & ? & ? & ->). discriminate.
  - discriminate.
  - discriminate.
  - destruct (start_challenge value_b client_key _) as [[ch s']| |] eqn:E; auto.
    apply start_challenge_state in E as (? & ? & ? & -> & _). discriminate.
  - destruct (run ops Uninitialized) as [| |bf' cs crs'|] eqn:R; cbn [accept_challenge]; auto.
    intros [= -> <- ->].
    destruct (challenged_history _ _ _ _ R)
      as (before & b & key & between & hs & x & p & a & ch & -> & Hs & Hc).
    exists before, b, key, between, [], cs, hs, x, p, a, ch.
    rewrite <- app_assoc. auto.
  - destruct (generate_count_byte _) as [[r s']| |] eqn:E; auto.
    apply generate_count_byte_state in E as ->. auto.
Qed.

(** ** The key exchange *)

(** An honest client: it answers the server's [g], [p] and [a] with its public
    value and its key, from a secret exponent [y]. *)
Definition client_public (g p y : Z) : Z := g ^ y mod p.
Definition client_secret (p y a : Z) : Z := a ^ y mod p.

(** C8: The key exchange completes with every honest client: whatever
    exponents both sides drew, the server accepts the client's key, the
    client can check the server's challenge, and both derive the key of the
    session's cipher from the same secret. *)
Theorem honest_client_accepted cs crs hs g p x y
    (Hp : 1 < p < 2 ^ 31) (Hg : 0 <= g <= max_base)
    (Hx : fits 32 x = true) (Hy : 0 <= y) :
  let a := g ^ x mod p in
  let b := client_public g p y in
  let k := client_secret p y a in
  exists cx bf challenge,
    new_from_slice (le_bytes 8 (exchange_key a b k)) = Some cx
    /\ new_from_slice (le_bytes 8 (transform_key hs k 0x03)) = Some bf
    /\ @power security_error p x g = Ok a
    /\ start_challenge b (seal cx (client_proof a b k)) (HandshakeStarted cs crs hs x p a)
       = Ok (challenge, Challenged bf cs crs)
    /\ unseal cx challenge = server_proof a b k
    /\ accept_challenge (Challenged bf cs crs)
       = Ok (Established bf (generate_count_seed cs) crs).
Proof.
  intros a b k. assert (Hb : 0 <= b < p) by (apply Z.mod_pos_bound; lia).
  apply fits_spec in Hx as Hx'.
  assert (Hk : @power security_error p x b = Ok k).
  { rewrite power_correct by (unfold max_base; assumption || lia).
    unfold k, client_secret, b, a, client_public. f_equal.
    rewrite <- !Zpow_facts.Zpower_mod, <- !Z.pow_mul_r by lia. f_equal. f_equal. lia. }
  destruct (start_challenge_spec cs crs hs x p a b k Hk) as (cx & bf & E1 & E2 & E3).
  specialize (E3 (seal cx (client_proof a b k))).
  rewrite unseal_seal in E3 by apply transform_key_fits. rewrite Z.eqb_refl in E3.
  exists cx, bf, (seal cx (server_proof a b k)). repeat split; try assumption.
  - apply power_correct; assumption.
  - apply unseal_seal, transform_key_fits.
Qed.

(** A client key is accepted exactly when it opens to the proof computed
    from the exchanged values; any other key is refused with both values in
    the error, and no state but the one after [initialize] accepts a challenge. *)
Theorem start_challenge_decides cs crs hs x p a b
    (Hp : 1 < p < 2 ^ 31) (Hx : fits 32 x = true) (Hb : 0 <= b <= max_base) :
  let k := b ^ x mod p in
  (exists cx bf,
    new_from_slice (le_bytes 8 (exchange_key a b k)) = Some cx
    /\ new_from_slice (le_bytes 8 (transform_key hs k 0x03)) = Some bf
    /\ forall key, start_challenge b key (HandshakeStarted cs crs hs x p a)
       = if unseal cx key =? client_proof a b k
         then Ok (seal cx (server_proof a b k), Challenged bf cs crs)
         else Err (KeyExchangeMismatch (unseal cx key) (client_proof a b k)))
  /\ (forall key (s : security_state cipher),
        (forall cs crs hs x p a, s <> HandshakeStarted cs crs hs x p a) ->
        start_challenge b key s = Err SecurityUninitialized).
Proof.
  intros k. split.
  - apply start_challenge_spec, power_correct; assumption.
  - intros key [] Hs; try reflexivity. exfalso. eapply Hs. reflexivity.
Qed.

(** ** Encryption *)

(** On an established connection, decrypting what was encrypted gives the
    message back followed by zero bytes up to the next multiple of 8; the
    output has that length. *)
Theorem encrypt_decrypt bf ct crs data (Hd : bytes_ok data = true) :
  let s : security_state cipher := Established bf ct crs in
  exists out, encrypt data s = Ok out /\ bytes_ok out = true
    /\ Z.of_nat (length out) = find_encrypted_length (Z.of_nat (length data))
    /\ decrypt out s = Ok (data ++ padding data).
Proof.
  intros s. destruct (padded_blocks data) as [n Hn].
  assert (Hb : bytes_ok (data ++ padding data) = true)
    by (rewrite bytes_ok_app, Hd; apply padding_bytes_ok).
  destruct (map_blocks_ok (encrypt_block bf) n _ (encrypt_block_ok bf) Hn Hb) as [Hl Ho].
  exists (map_blocks (encrypt_block bf) n (data ++ padding data)). repeat split.
  - unfold s, encrypt, encrypt_mut. apply crypt_established, Hn.
  - exact Ho.
  - rewrite <- length_padded, Hl, Hn. reflexivity.
  - unfold s, decrypt, decrypt_mut. rewrite (crypt_established _ _ _ _ _ n) by exact Hl.
    f_equal. apply map_blocks_inverse; auto using encrypt_block_ok, decrypt_encrypt_block.
Qed.

Definition is_established (s : security_state cipher) : bool :=
  match s with Established _ _ _ => true | _ => false end.

(** Encryption and decryption are refused outside of an established
    connection; on one, encryption never fails, and decryption is refused
    exactly for a message that is not a whole number of blocks. *)
Theorem crypt_errors data (s : security_state cipher) :
  if is_established s then
    is_ok (encrypt data s) = true
    /\ (is_ok (decrypt data s) = true <-> Z.of_nat (length data) mod 8 = 0)
    /\ (Z.of_nat (length data) mod 8 <> 0 ->
         decrypt data s = Err (InvalidBlockLength (Z.of_nat (length data))))
  else
    encrypt data s = Err SecurityUninitialized /\ decrypt data s = Err SecurityUninitialized.
Proof.
  destruct s; try (split; reflexivity). cbn [is_established].
  destruct (padded_blocks data) as [n Hn]. unfold encrypt, encrypt_mut.
  rewrite (crypt_established _ _ _ _ _ n Hn). unfold decrypt, decrypt_mut. cbn [crypt].
  destruct (Z.eqb_spec (Z.of_nat (length data) mod 8) 0); cbn; easy.
Qed.

(** The padded length is the least multiple of the block size that holds
    the message. *)
Theorem find_encrypted_length_least n m
    (Hn : 0 <= n) (Hm : n <= m) (H8 : m mod 8 = 0) :
  find_encrypted_length n mod 8 = 0 /\ n <= find_encrypted_length n <= m.
Proof.
  destruct (find_encrypted_length_spec n Hn) as [H1 H2]. repeat split; [assumption|lia|].
  zlia.
Qed.

(** The count byte, documented as the next number of a seeded generator,
    never changes: [generate_count_byte] updates a copy of its seed, so every
    call on a connection returns the byte the first call returned. *)
Theorem count_byte_constant r (s s' : security_state cipher)
    (H1 : generate_count_byte s = Ok (r, s')) :
  s' = s /\ generate_count_byte s' = Ok (r, s').
Proof.
  pose proof (generate_count_byte_state _ _ _ H1) as ->. auto.
Qed.

End Spec.

(** ** Witnesses *)

Definition example_draws : draws :=
  {| draw_seed := 1; draw_count_seed := 2; draw_crc_seed := 3; draw_handshake_seed := 4;
     draw_x := 6; draw_g := 5; draw_p := 23 |}.

(** The history of a client that answers with the secret exponent 15. *)
Definition example_handshake : list op :=
  let a := 5 ^ 6 mod 23 in
  let b := client_public 5 23 15 in
  let k := client_secret 23 15 a in
  [OpInitialize example_draws;
   OpStartChallenge b (seal (cipher := Z) (le_num (le_bytes 8 (exchange_key a b k))) (client_proof a b k));
   OpAcceptChallenge].

Definition example_session : Z * (Z * Z * Z) * Z :=
  match run (cipher := Z) example_handshake Uninitialized with
  | Established bf ct crs => (bf, ct, crs)
  | _ => (0, (0, 0, 0), 0)
  end.

Lemma established_after_handshake_witness :
  exists before b key between after cs hs x p a ch,
    example_handshake = before ++ [OpStartChallenge b key] ++ between ++ [OpAcceptChallenge] ++ after
    /\ run (cipher := Z) before Uninitialized = HandshakeStarted cs example_session.2 hs x p a
    /\ start_challenge b key (HandshakeStarted cs example_session.2 hs x p a)
       = Ok (ch, Challenged example_session.1.1 cs example_session.2)
    /\ example_session.1.2 = generate_count_seed cs.
Proof. apply established_after_handshake. vm_compute. reflexivity. Defined.

Lemma honest_client_accepted_witness :
  let a := 5 ^ 6 mod 23 in
  let b := client_public 5 23 15 in
  let k := client_secret 23 15 a in
  exists (cx bf : Z) challenge,
    new_from_slice (le_bytes 8 (exchange_key a b k)) = Some cx
    /\ new_from_slice (le_bytes 8 (transform_key 4 k 0x03)) = Some bf
    /\ @power security_error 23 6 5 = Ok a
    /\ start_challenge b (seal cx (client_proof a b k)) (HandshakeStarted 2 3 4 6 23 a)
       = Ok (challenge, Challenged bf 2 3)
    /\ unseal cx challenge = server_proof a b k
    /\ accept_challenge (Challenged bf 2 3) = Ok (Established bf (generate_count_seed 2) 3).
Proof. apply honest_client_accepted; try reflexivity; unfold max_base; lia. Defined.

Lemma start_challenge_decides_witness :
  let k := 19 ^ 6 mod 23 in
  (exists cx bf : Z,
    new_from_slice (le_bytes 8 (exchange_key 8 19 k)) = Some cx
    /\ new_from_slice (le_bytes 8 (transform_key 4 k 0x03)) = Some bf
    /\ forall key, start_challenge 19 key (HandshakeStarted 2 3 4 6 23 8)
       = if unseal cx key =? client_proof 8 19 k
         then Ok (seal cx (server_proof 8 19 k), Challenged bf 2 3)
         else Err (KeyExchangeMismatch (unseal cx key) (client_proof 8 19 k)))
  /\ (forall key (s : security_state Z),
        (forall cs crs hs x p a, s <> HandshakeStarted cs crs hs x p a) ->
        start_challenge 19 key s = Err SecurityUninitialized).
Proof. apply start_challenge_decides; try reflexivity; unfold max_base; lia. Defined.

Lemma encrypt_decrypt_witness :
  let s : security_state Z := Established 7 (1, 1, 1) 3 in
  exists out, encrypt [1; 2; 3] s = Ok out /\ bytes_ok out = true
    /\ Z.of_nat (length out) = find_encrypted_length 3
    /\ decrypt out s = Ok [1; 2; 3; 0; 0; 0; 0; 0].
Proof. apply (encrypt_decrypt 7 (1, 1, 1) 3 [1; 2; 3]). reflexivity. Defined.

Lemma find_encrypted_length_least_witness :
  find_encrypted_length 3 mod 8 = 0 /\ 3 <= find_encrypted_length 3 <= 16.
Proof. apply find_encrypted_length_least; reflexivity || lia. Defined.

Lemma count_byte_constant_witness :
  let s : security_state Z := Established 7 (1, 2, 3) 3 in
  s = s /\ generate_count_byte s = Ok (0x30, s).
Proof. apply count_byte_constant. vm_compute. reflexivity. Defined.

(** ** Limits *)

(** A public value of the client whose square exceeds an [i64] is
    exponentiated wrongly (the release build wraps, a debug build panics), so
    a client that chose it is refused although it follows the exchange. *)
Theorem large_public_value_wraps :
  g_pow_x_mod_p 2147483647 2 (max_base + 1) = Ok 2292957839
  /\ (max_base + 1) ^ 2 mod 2147483647 = 145474194.
Proof. split; vm_compute; reflexivity. Qed.

(** The passcode decoder panics on a length above the block size, which
    is a number the client sends, and never on a shorter one over a whole
    block. *)
Theorem decode_passcode_panics `{BlockCipherLaws cipher} len encrypted
    (He : is_block encrypted) (Hlen : 0 <= len) :
  decode_passcode len encrypted = Panic <-> 8 < len.
Proof.
  unfold decode_passcode. destruct (new_from_slice_8 passcode_key eq_refl) as [c E].
  rewrite E. destruct He as [Hl Hb]. rewrite Hl. cbn [negb Nat.eqb].
  destruct (decrypt_block_ok c encrypted (conj Hl Hb)) as [Hl' _]. cbv zeta. rewrite Hl'.
  change (Z.of_nat 8) with 8. destruct (Z.ltb_spec 8 len); [easy|].
  destruct (from_utf8 _); cbn; split; easy || lia.
Qed.

Lemma decode_passcode_panics_witness :
  decode_passcode 9 [113; 42; 1; 64; 127; 104; 60; 94] = Panic <-> 8 < 9.
Proof. apply decode_passcode_panics; [split; reflexivity|lia]. Defined.
