(* ===== verification/Frame.v ===== *)
(** silkroad-network/src/frame.rs and codec.rs: frames, the units of a
    connection's byte stream.

    The security a frame is parsed or serialized with is the optional state of
    Security.v that [Option<Arc<RwLock<SilkroadSecurity>>>] shares; the lock
    is taken for the one call. *)
From stdpp Require Import base list option strings.
From Stdlib Require Import ZArith Lia.
From S2P Require Import Prelude Utf Definitions Serde Schema ProtoLogin Packets Security.
From S2P Require Import SecurityFacts.

Definition MASSIVE_PACKET_OPCODE : Z := 0x600D.

Inductive frame :=
| Packet (count crc opcode : Z) (encrypted : bool) (data : list Z)
| MassiveHeader (count crc contained_opcode contained_count : Z)
| MassiveContainer (count crc : Z) (inner : list Z).

Inductive frame_error :=
| Incomplete
| MissingSecurity
| SecurityError (e : security_error).

Definition zlen {A} (l : list A) : Z := Z.of_nat (length l).

Definition content_size (f : frame) : Z :=
  match f with
  | Packet _ _ _ _ data => zlen data
  | MassiveHeader _ _ _ _ => 6
  | MassiveContainer _ _ inner => 1 + zlen inner
  end.

Definition packet_size (f : frame) : Z :=
  6 + match f with
      | Packet _ _ _ true data => find_encrypted_length (zlen data + 4) - 4
      | _ => content_size f
      end.

Definition opcode_of (f : frame) : Z :=
  match f with Packet _ _ opcode _ _ => opcode | _ => 0x600D end.

(** ** Frames of a packet *)

(** The loop over [split_to(min(0xFFFF, len))]. *)
Fixpoint split_containers (required_packets : nat) (bytes : list Z) : list frame :=
  match required_packets with
  | O => []
  | S n =>
      let size := Nat.min (Z.to_nat 0xFFFF) (length bytes) in
      MassiveContainer 0 0 (firstn size bytes) :: split_containers n (skipn size bytes)
  end.

Definition required_packets (bytes : list Z) : Z := Z.max (zlen bytes / 0xFFFF) 1.

Definition massive_frames (opcode : Z) (bytes : list Z) : list frame :=
  MassiveHeader 0 0 opcode (u16 (required_packets bytes))
  :: split_containers (Z.to_nat (required_packets bytes)) bytes.

Definition create_for (p : packet) : option (list frame) :=
  '(opcode, bytes) ← into_serialize p;
  Some (if is_massive p then massive_frames opcode bytes
        else [Packet 0 0 opcode (is_encrypted p) bytes]).

Section Frame.
Context {cipher : Type} `{!BlockCipher cipher}.
Implicit Type security : option (security_state cipher).

(** ** Serialization *)

Definition serialize (f : frame) security : outcome frame_error (list Z) :=
  match f with
  | Packet count crc opcode true data =>
      let to_encrypt := le_bytes 2 opcode ++ le_bytes 1 count ++ le_bytes 1 crc ++ data in
      s ← ok_or security MissingSecurity;
      encrypted ← map_err SecurityError (encrypt to_encrypt s);
      Ok (le_bytes 2 (Z.lor (content_size f) 0x8000) ++ encrypted)
  | Packet count crc opcode false data =>
      Ok (le_bytes 2 (content_size f) ++ le_bytes 2 opcode ++ le_bytes 1 count ++ le_bytes 1 crc
          ++ data)
  | MassiveHeader count crc contained_opcode contained_count =>
      Ok (le_bytes 2 (content_size f) ++ le_bytes 2 MASSIVE_PACKET_OPCODE ++ le_bytes 1 count
          ++ le_bytes 1 crc ++ le_bytes 1 1 ++ le_bytes 2 contained_count
          ++ le_bytes 2 contained_opcode ++ le_bytes 1 0)
  | MassiveContainer count crc inner =>
      Ok (le_bytes 2 (content_size f) ++ le_bytes 2 MASSIVE_PACKET_OPCODE ++ le_bytes 1 count
          ++ le_bytes 1 crc ++ le_bytes 1 0 ++ inner)
  end.

(** ** Parsing *)

(** The slice [data\[from..to\]], which panics outside of the data. *)
Definition slice {E} (from to : nat) (data : list Z) : outcome E (list Z) :=
  if (from <=? to)%nat && (to <=? length data)%nat then Ok (firstn (to - from) (skipn from data))
  else Panic.

Definition slice_num {E} (from to : nat) (data : list Z) : outcome E Z := le_num <$> slice from to data.

(** The part of [parse] behind the length field, on the decrypted data. *)
Definition parse_content (encrypted : bool) (final_length : Z) (data : list Z)
    : outcome frame_error (Z * frame) :=
  opcode ← slice_num 0 2 data;
  count ← slice_num 2 3 data;
  crc ← slice_num 3 4 data;
  if opcode =? MASSIVE_PACKET_OPCODE then
    mode ← slice_num 4 5 data;
    if mode =? 1 then
      inner_amount ← slice_num 5 7 data;
      inner_opcode ← slice_num 7 9 data;
      Ok (final_length, MassiveHeader count crc inner_opcode inner_amount)
    else Ok (final_length, MassiveContainer count crc (skipn 5 data))
  else Ok (final_length, Packet count crc opcode encrypted (skipn 4 data)).

Definition is_encrypted_length (length : Z) : bool := negb (Z.land length 0x8000 =? 0).

(** The bytes after the length field that belong to the frame. *)
Definition total_size (length : Z) : Z :=
  let content_size := Z.land length 0x7FFF in
  if is_encrypted_length length then find_encrypted_length (content_size + 4) else content_size + 4.

Definition parse (data : list Z) security : outcome frame_error (Z * frame) :=
  if zlen data <? 4 then Err Incomplete
  else
    let length := le_num (firstn 2 data) in
    let data := skipn 2 data in
    let encrypted := is_encrypted_length length in
    let total := total_size length in
    if zlen data <? total then Err Incomplete
    else
      let data := firstn (Z.to_nat total) data in
      data ← (if encrypted then
                s ← ok_or security MissingSecurity; map_err SecurityError (decrypt data s)
              else Ok data);
      parse_content encrypted (total + 2) data.

(** ** codec.rs *)

(** [SilkroadFrameEncoder::encode] appends to the output buffer. *)
Definition encode (f : frame) security (dst : list Z) : outcome frame_error (list Z) :=
  bytes ← serialize f security; Ok (dst ++ bytes).

(** [SilkroadFrameDecoder::decode]: the frame at the start of the buffer, if
    it is complete, and the remaining buffer. *)
Definition decode (src : list Z) security : outcome frame_error (option frame * list Z) :=
  match parse src security with
  | Ok (bytes_read, f) => Ok (Some f, skipn (Z.to_nat bytes_read) src)
  | Err Incomplete => Ok (None, src)
  | Err e => Err e
  | Panic => Panic
  end.

(** The frames [FramedRead] yields from a buffer: it calls [decode] until it
    asks for more bytes or fails; each frame consumes bytes, so the buffer's
    length is enough fuel. *)
Inductive read_end := NeedMore (buffer : list Z) | Failed (e : frame_error) | Crashed.

Fixpoint decode_loop (fuel : nat) (src : list Z) security : list frame * read_end :=
  match decode src security with
  | Ok (Some f, rest) =>
      match fuel with
      | O => ([f], NeedMore rest)
      | S fuel => let '(fs, e) := decode_loop fuel rest security in (f :: fs, e)
      end
  | Ok (None, rest) => ([], NeedMore rest)
  | Err e => ([], Failed e)
  | Panic => ([], Crashed)
  end.

Definition decode_all (src : list Z) security : list frame * read_end :=
  decode_loop (length src) src security.

(** Bytes arriving in chunks: a failed or crashed reader ignores what follows. *)
Definition feed security (st : list frame * read_end) (chunk : list Z) : list frame * read_end :=
  match st with
  | (fs, NeedMore buffer) =>
      let '(fs', e) := decode_all (buffer ++ chunk) security in (fs ++ fs', e)
  | _ => st
  end.

Definition feed_all security (chunks : list (list Z)) : list frame * read_end :=
  fold_left (feed security) chunks ([], NeedMore []).

End Frame.
