(* ===== verification/FrameFacts.v ===== *)
(** Correctness of Frame.v: parsing undoes serialization, is insensitive to
    how the bytes arrive, and what the limits of the two length fields are. *)
From stdpp Require Import base list option strings.
From Stdlib Require Import ZArith Lia.
From S2P Require Import Prelude Utf Definitions Serde Schema ProtoLogin Packets Security.
From S2P Require Import SecurityFacts SecuritySpec Frame.

(** ** The length field *)

Lemma land_15 n : Z.land n 0x7FFF = n mod 2 ^ 15.
Proof. apply (Z.land_ones n 15). lia. Qed.

Lemma is_encrypted_length_spec n : 0 <= n -> is_encrypted_length n = (2 ^ 15 <=? n mod 2 ^ 16).
Proof.
  intros Hn. unfold is_encrypted_length. change 0x8000 with (2 ^ 15). rewrite land_pow2 by lia.
  pose proof (Z.testbit_spec' n 15 ltac:(lia)) as T.
  destruct (Z.testbit n 15); cbn [Z.b2z] in *; cbn [negb Z.eqb Z.mul Z.pow Z.pow_pos Pos.iter];
    symmetry; [apply Z.leb_le|apply Z.leb_gt]; zlia.
Qed.

Lemma plain_length n : 0 <= n < 2 ^ 15 -> is_encrypted_length n = false /\ total_size n = n + 4.
Proof.
  intros Hn. unfold total_size. rewrite is_encrypted_length_spec, land_15 by lia.
  rewrite !Z.mod_small by lia. replace (2 ^ 15 <=? n) with false by (symmetry; apply Z.leb_gt; lia).
  auto.
Qed.

Lemma encrypted_length n :
  0 <= n < 2 ^ 15 ->
  Z.lor n 0x8000 = n + 2 ^ 15 /\ is_encrypted_length (n + 2 ^ 15) = true
  /\ total_size (n + 2 ^ 15) = find_encrypted_length (n + 4).
Proof.
  intros Hn. split.
  - rewrite Z.lor_comm. change 0x8000 with (1 * 2 ^ 15). rewrite lor_disjoint by lia. lia.
  - unfold total_size. rewrite is_encrypted_length_spec, land_15 by lia.
    rewrite (Z.mod_small _ (2 ^ 16)) by lia.
    replace (2 ^ 15 <=? n + 2 ^ 15) with true by (symmetry; apply Z.leb_le; lia).
    split; [reflexivity|]. do 2 f_equal. zlia.
Qed.

Lemma total_size_min n : 4 <= total_size n.
Proof.
  unfold total_size. rewrite land_15.
  pose proof (Z.mod_pos_bound n (2 ^ 15) ltac:(lia)).
  pose proof (find_encrypted_length_spec (n mod 2 ^ 15 + 4) ltac:(lia)).
  destruct (is_encrypted_length n); lia.
Qed.

Section Facts.
Context {cipher : Type} `{BlockCipherLaws cipher}.
Implicit Type security : option (security_state cipher).

(** ** Parsing depends on the frame's bytes only *)

Lemma parse_app data rest security :
  parse data security <> Err Incomplete -> parse (data ++ rest) security = parse data security.
Proof.
  unfold parse, zlen. rewrite length_app.
  destruct (Z.ltb_spec (Z.of_nat (length data)) 4) as [|H4]; [easy|].
  replace (Z.of_nat (length data + length rest) <? 4) with false by (symmetry; apply Z.ltb_ge; lia).
  rewrite take_app_le, drop_app_le by lia. cbv zeta.
  set (total := total_size _). rewrite length_app.
  destruct (Z.ltb_spec (Z.of_nat (length (drop 2 data))) total) as [|Ht]; [easy|]. intros _.
  replace (Z.of_nat _ <? total) with false by (symmetry; apply Z.ltb_ge; lia).
  rewrite take_app_le by lia. reflexivity.
Qed.

Lemma parse_content_size e n data security m f :
  parse_content e n data = Ok (m, f) -> m = n.
Proof.
  unfold parse_content. intros E. apply bind_ok in E as (op & _ & E).
  apply bind_ok in E as (ct & _ & E). apply bind_ok in E as (crc & _ & E).
  destruct (op =? _); [|congruence]. apply bind_ok in E as (md & _ & E).
  destruct (md =? 1); [|congruence]. apply bind_ok in E as (am & _ & E).
  apply bind_ok in E as (io & _ & E). congruence.
Qed.

Lemma parse_size data security n f :
  parse data security = Ok (n, f) -> 6 <= n <= zlen data.
Proof.
  unfold parse, zlen. destruct (Z.ltb_spec (Z.of_nat (length data)) 4) as [|H4]; [easy|]. cbv zeta.
  pose proof (total_size_min (le_num (firstn 2 data))) as Ht.
  destruct (Z.ltb_spec (Z.of_nat (length (drop 2 data))) (total_size (le_num (firstn 2 data)))) as [|Hl];
    [easy|].
  intros E. apply bind_ok in E as (d & _ & E). apply parse_content_size in E as ->; [|exact security].
  rewrite length_skipn in Hl. lia.
Qed.

(** ** Decoding a stream *)

Lemma decode_rest src security f rest :
  decode src security = Ok (Some f, rest) -> (length rest < length src)%nat.
Proof.
  unfold decode. destruct (parse src security) as [[n g]|[]|] eqn:E; try discriminate.
  intros [= _ <-]. apply parse_size in E. unfold zlen in E. rewrite length_skipn. lia.
Qed.

Lemma decode_loop_fuel security n m src :
  (length src <= n)%nat -> (length src <= m)%nat ->
  decode_loop n src security = decode_loop m src security.
Proof.
  revert m src; induction n as [|n IH]; intros m src Hn Hm.
  - destruct src; [|simpl in Hn; lia]. destruct m; reflexivity.
  - destruct m as [|m].
    + destruct src; [|simpl in Hm; lia]. reflexivity.
    + cbn [decode_loop]. destruct (decode src security) as [[[f|] rest]| |] eqn:E; try reflexivity.
      apply decode_rest in E. rewrite (IH m rest) by lia. reflexivity.
Qed.

Lemma decode_all_eq src security :
  decode_all src security
  = match decode src security with
    | Ok (Some f, rest) => let '(fs, e) := decode_all rest security in (f :: fs, e)
    | Ok (None, rest) => ([], NeedMore rest)
    | Err e => ([], Failed e)
    | Panic => ([], Crashed)
    end.
Proof.
  unfold decode_all.
  destruct src as [|b src]; [reflexivity|]. cbn [length]. set (l := b :: src).
  cbn [decode_loop]. destruct (decode l security) as [[[f|] rest]| |] eqn:E; try reflexivity.
  apply decode_rest in E. rewrite (decode_loop_fuel _ (length src) (length rest)); try lia.
  - reflexivity.
  - simpl in E. lia.
Qed.

Lemma decode_all_nil security : decode_all [] security = ([], NeedMore []).
Proof. reflexivity. Qed.

Lemma decode_all_app security chunk src :
  decode_all (src ++ chunk) security = feed security (decode_all src security) chunk.
Proof.
  induction src as [src IH] using (induction_ltof1 _ (@length Z)).
  rewrite (decode_all_eq src). unfold decode at 1.
  destruct (parse src security) as [[n f]|e|] eqn:E.
  - pose proof (parse_size _ _ _ _ E) as Hn. unfold zlen in Hn.
    rewrite decode_all_eq. unfold decode.
    rewrite parse_app, E by (rewrite E; discriminate).
    rewrite skipn_app, (proj2 (Nat.sub_0_le (Z.to_nat n) (length src))) by lia.
    rewrite skipn_O, IH by (unfold ltof; rewrite length_skipn; lia).
    destruct (decode_all (drop (Z.to_nat n) src) security) as [fs [buffer|e|]]; try reflexivity.
    cbn [feed]. destruct (decode_all (buffer ++ chunk) security). reflexivity.
  - destruct e; [cbn [feed]; destruct (decode_all (src ++ chunk) security); reflexivity| |];
      rewrite decode_all_eq; unfold decode; rewrite parse_app, E by (rewrite E; discriminate);
      reflexivity.
  - rewrite decode_all_eq. unfold decode. rewrite parse_app, E by (rewrite E; discriminate). reflexivity.
Qed.

Lemma feed_app security st c1 c2 : feed security (feed security st c1) c2 = feed security st (c1 ++ c2).
Proof.
  destruct st as [fs [buffer|e|]]; try reflexivity. cbn [feed].
  rewrite app_assoc, (decode_all_app security c2).
  destruct (decode_all (buffer ++ c1) security) as [fs' [b'|e|]]; try reflexivity.
  cbn [feed]. destruct (decode_all (b' ++ c2) security). rewrite app_assoc. reflexivity.
Qed.

(** C27: How the bytes of a connection are cut into reads does not matter: the
    frames decoded chunk by chunk, and how decoding ends, are those of the
    whole byte sequence decoded at once. *)
Theorem decoding_ignores_chunking security chunks :
  feed_all security chunks = decode_all (concat chunks) security.
Proof.
  unfold feed_all. induction chunks as [|c chunks IH] using rev_ind; [reflexivity|].
  rewrite fold_left_app, concat_app, decode_all_app. cbn [fold_left concat].
  rewrite IH, app_nil_r. reflexivity.
Qed.

(** ** Parsing undoes serialization *)

Lemma parse_framed n body rest security :
  0 <= n < 2 ^ 16 -> zlen body = total_size n ->
  parse (le_bytes 2 n ++ body ++ rest) security
  = (data ← (if is_encrypted_length n then
               s ← ok_or security MissingSecurity; map_err SecurityError (decrypt body s)
             else Ok body);
     parse_content (is_encrypted_length n) (total_size n + 2) data).
Proof.
  intros Hn Hb. unfold parse, zlen in *. rewrite !length_app, le_bytes_length.
  pose proof (total_size_min n).
  replace (Z.of_nat _ <? 4) with false by (symmetry; apply Z.ltb_ge; lia).
  rewrite take_app_length', drop_app_length' by (symmetry; apply le_bytes_length).
  rewrite le_num_bytes_fits by (apply fits_spec; exact Hn). cbv zeta. rewrite length_app.
  replace (Z.of_nat _ <? total_size n) with false by (symmetry; apply Z.ltb_ge; lia).
  rewrite take_app_length' by lia. reflexivity.
Qed.

(** The fixed part of a frame behind its length field. *)
Definition frame_head (opcode count crc : Z) : list Z :=
  le_bytes 2 opcode ++ le_bytes 1 count ++ le_bytes 1 crc.

Lemma parse_content_head e n opcode count crc data :
  fits 16 opcode = true -> fits 8 count = true -> fits 8 crc = true ->
  parse_content e n (frame_head opcode count crc ++ data)
  = if opcode =? MASSIVE_PACKET_OPCODE then
      mode ← slice_num 0 1 data;
      if mode =? 1 then
        inner_amount ← slice_num 1 3 data;
        inner_opcode ← slice_num 3 5 data;
        Ok (n, MassiveHeader count crc inner_opcode inner_amount)
      else Ok (n, MassiveContainer count crc (skipn 1 data))
    else Ok (n, Packet count crc opcode e data).
Proof.
  intros Ho Hc Hr. unfold frame_head, parse_content, slice_num, slice.
  cbn [le_bytes app length Nat.leb Nat.sub andb skipn firstn].
  cbn [fmap outcome_fmap mbind outcome_bind].
  change [opcode mod 256; opcode / 256 mod 256] with (le_bytes 2 opcode).
  change [count mod 256] with (le_bytes 1 count).
  change (crc mod 256 :: take 0 data) with (le_bytes 1 crc). change (drop 0 data) with data.
  rewrite !le_num_bytes_fits by assumption. reflexivity.
Qed.

(** The frames both sides can exchange: fields in range, a payload whose size
    leaves the encryption flag of the length field clear, and an opcode of a
    basic frame that is not the one of massive frames. *)
Definition frame_ok (f : frame) : bool :=
  match f with
  | Packet count crc opcode _ data =>
      fits 8 count && fits 8 crc && fits 16 opcode && negb (opcode =? MASSIVE_PACKET_OPCODE)
      && bytes_ok data && (zlen data <? 2 ^ 15)
  | MassiveHeader count crc contained_opcode contained_count =>
      fits 8 count && fits 8 crc && fits 16 contained_opcode && fits 16 contained_count
  | MassiveContainer count crc inner =>
      fits 8 count && fits 8 crc && bytes_ok inner && (zlen inner <? 2 ^ 15 - 1)
  end.

(** An encrypted frame needs an established security. *)
Definition security_ready security (f : frame) : Prop :=
  match f with
  | Packet _ _ _ true _ => exists bf ct crs, security = Some (Established bf ct crs)
  | _ => True
  end.

(** What arrives: the padding of an encrypted frame stays on its data. *)
Definition received (f : frame) : frame :=
  match f with
  | Packet count crc opcode true data =>
      Packet count crc opcode true (data ++ padding (frame_head opcode count crc ++ data))
  | _ => f
  end.

Lemma split_frame_ok_packet count crc opcode e data :
  frame_ok (Packet count crc opcode e data) = true ->
  fits 8 count = true /\ fits 8 crc = true /\ fits 16 opcode = true
  /\ (opcode =? MASSIVE_PACKET_OPCODE) = false /\ bytes_ok data = true /\ 0 <= zlen data < 2 ^ 15.
Proof.
  cbn [frame_ok]. intros Hf. split_andb.
  repeat split; try assumption; [apply negb_true_iff; assumption|unfold zlen; lia].
Qed.

Lemma plain_packet_round_trip count crc opcode data rest security :
  frame_ok (Packet count crc opcode false data) = true ->
  parse (le_bytes 2 (zlen data) ++ (frame_head opcode count crc ++ data) ++ rest) security
  = Ok (zlen data + 6, Packet count crc opcode false data).
Proof.
  intros Hf. destruct (split_frame_ok_packet _ _ _ _ _ Hf) as (Hc & Hr & Ho & Hm & Hb & Hl).
  destruct (plain_length (zlen data) Hl) as [E T].
  rewrite parse_framed by (try lia; rewrite T; unfold zlen; rewrite length_app; cbn [length frame_head le_bytes app]; lia).
  rewrite E, T. cbn [mbind outcome_bind]. rewrite parse_content_head, Hm by assumption.
  do 2 f_equal. lia.
Qed.

Lemma encrypted_packet_round_trip count crc opcode data bf ct crs :
  frame_ok (Packet count crc opcode true data) = true ->
  exists out, encrypt (frame_head opcode count crc ++ data) (Established bf ct crs) = Ok out
    /\ zlen out = find_encrypted_length (zlen data + 4)
    /\ forall rest, parse (le_bytes 2 (Z.lor (zlen data) 0x8000) ++ out ++ rest) (Some (Established bf ct crs))
       = Ok (find_encrypted_length (zlen data + 4) + 2, received (Packet count crc opcode true data)).
Proof.
  intros Hf. destruct (split_frame_ok_packet _ _ _ _ _ Hf) as (Hc & Hr & Ho & Hm & Hb & Hl).
  assert (Hp : bytes_ok (frame_head opcode count crc ++ data) = true).
  { rewrite bytes_ok_app, Hb, andb_true_r. unfold frame_head. rewrite !bytes_ok_app, !le_bytes_ok. reflexivity. }
  assert (Hlen : zlen (frame_head opcode count crc ++ data) = zlen data + 4).
  { unfold zlen. rewrite length_app. cbn [length frame_head le_bytes app]. lia. }
  destruct (padded_blocks (frame_head opcode count crc ++ data)) as [n Hn].
  assert (Hpo : bytes_ok ((frame_head opcode count crc ++ data) ++ padding (frame_head opcode count crc ++ data)) = true)
    by (rewrite bytes_ok_app, Hp; apply padding_bytes_ok).
  destruct (map_blocks_ok (encrypt_block bf) n _ (encrypt_block_ok bf) Hn Hpo) as [Ol Oo].
  eexists. split; [apply (crypt_established _ _ _ _ _ n Hn)|].
  assert (Hz : zlen (map_blocks (encrypt_block bf) n
     ((frame_head opcode count crc ++ data) ++ padding (frame_head opcode count crc ++ data)))
     = find_encrypted_length (zlen data + 4)).
  { unfold zlen at 1. rewrite Ol, <- Hn, length_padded. fold (zlen (frame_head opcode count crc ++ data)).
    rewrite Hlen. reflexivity. }
  split; [exact Hz|]. intros rest.
  destruct (encrypted_length (zlen data) Hl) as (L & E & T). rewrite L.
  rewrite parse_framed by (try lia; rewrite T; exact Hz). rewrite E, T. cbn [ok_or mbind outcome_bind].
  unfold decrypt, decrypt_mut. rewrite (crypt_established _ _ _ _ _ n Ol). cbn [map_err mbind outcome_bind].
  rewrite (map_blocks_inverse _ _ n _ (encrypt_block_ok bf) (decrypt_encrypt_block bf) Hn Hpo).
  rewrite <- app_assoc, parse_content_head, Hm by assumption. reflexivity.
Qed.

Lemma massive_header_round_trip count crc op n rest security :
  frame_ok (MassiveHeader count crc op n) = true ->
  exists bytes, serialize (MassiveHeader count crc op n) security = Ok bytes
    /\ zlen bytes = 12
    /\ parse (bytes ++ rest) security = Ok (12, MassiveHeader count crc op n).
Proof.
  cbn [frame_ok]. intros Hf. split_andb. eexists. split; [reflexivity|]. split; [reflexivity|].
  destruct (plain_length 6 ltac:(lia)) as [E T].
  pose proof (parse_framed 6 (frame_head MASSIVE_PACKET_OPCODE count crc
    ++ le_bytes 1 1 ++ le_bytes 2 n ++ le_bytes 2 op ++ le_bytes 1 0) rest security
    ltac:(lia) ltac:(rewrite T; reflexivity)) as P.
  rewrite E, T in P. cbn [mbind outcome_bind] in P.
  rewrite parse_content_head, Z.eqb_refl in P by (assumption || reflexivity).
  unfold slice_num, slice in P.
  cbn [le_bytes app length Nat.leb Nat.sub andb skipn firstn fmap outcome_fmap mbind outcome_bind] in P.
  change [n mod 256; n / 256 mod 256] with (le_bytes 2 n) in P.
  change [op mod 256; op / 256 mod 256] with (le_bytes 2 op) in P.
  rewrite !le_num_bytes_fits in P by assumption. exact P.
Qed.

Lemma massive_container_round_trip count crc inner rest security :
  frame_ok (MassiveContainer count crc inner) = true ->
  parse (le_bytes 2 (1 + zlen inner)
         ++ (frame_head MASSIVE_PACKET_OPCODE count crc ++ le_bytes 1 0 ++ inner) ++ rest) security
  = Ok (zlen inner + 7, MassiveContainer count crc inner).
Proof.
  cbn [frame_ok]. intros Hf. split_andb. assert (0 <= zlen inner) by (unfold zlen; lia).
  destruct (plain_length (1 + zlen inner) ltac:(lia)) as [E T].
  rewrite parse_framed
    by (try lia; rewrite T; unfold zlen, frame_head; rewrite !length_app; cbn [length le_bytes]; lia).
  rewrite E, T. cbn [mbind outcome_bind]. rewrite parse_content_head, Z.eqb_refl by (assumption || reflexivity).
  unfold slice_num, slice. cbn. do 2 f_equal. lia.
Qed.

(** A serialized frame parses to itself, whatever follows it. *)
Lemma serialized_frame_parses f security
    (Hf : frame_ok f = true) (Hs : security_ready security f) :
  exists bytes, serialize f security = Ok bytes /\ zlen bytes = packet_size f
    /\ forall rest, parse (bytes ++ rest) security = Ok (packet_size f, received f).
Proof.
  destruct f as [count crc opcode [] data|count crc op n|count crc inner].
  - destruct Hs as (bf & ct & crs & ->).
    destruct (encrypted_packet_round_trip _ _ _ _ bf ct crs Hf) as (out & E & L & P).
    exists (le_bytes 2 (Z.lor (zlen data) 0x8000) ++ out). repeat split.
    + unfold frame_head in E. rewrite <- !app_assoc in E.
      cbn [serialize ok_or]. cbn [mbind outcome_bind]. rewrite E. reflexivity.
    + unfold packet_size. rewrite <- L. unfold zlen. rewrite length_app, le_bytes_length. lia.
    + intros rest. rewrite <- app_assoc, P. do 2 f_equal. unfold packet_size. lia.
  - eexists. split; [reflexivity|]. unfold packet_size. cbn [content_size].
    split; [unfold zlen; rewrite !length_app, !le_bytes_length; lia|]. intros rest.
    pose proof (plain_packet_round_trip count crc opcode data rest security Hf) as P.
    unfold frame_head in P. rewrite <- !app_assoc in *. rewrite P. do 2 f_equal. lia.
  - destruct (massive_header_round_trip count crc op n [] security Hf) as (bytes & E & L & _).
    exists bytes. repeat split; [exact E|exact L|]. intros rest.
    destruct (massive_header_round_trip count crc op n rest security Hf) as (bytes' & E' & _ & P).
    rewrite E in E'. injection E' as ->. exact P.
  - eexists. split; [reflexivity|]. unfold packet_size. cbn [content_size].
    split; [unfold zlen; rewrite !length_app, !le_bytes_length; lia|]. intros rest.
    pose proof (massive_container_round_trip count crc inner rest security Hf) as P.
    unfold frame_head in P. rewrite <- !app_assoc in *. rewrite P. do 2 f_equal. lia.
Qed.

(** The frames of a stream one after the other. *)
Fixpoint serialize_all (fs : list frame) security : outcome frame_error (list Z) :=
  match fs with
  | [] => Ok []
  | f :: fs => bytes ← serialize f security; rest ← serialize_all fs security; Ok (bytes ++ rest)
  end.

Lemma decode_serialized f bytes rest security :
  frame_ok f = true -> security_ready security f -> serialize f security = Ok bytes ->
  decode (bytes ++ rest) security = Ok (Some (received f), rest).
Proof.
  intros Hf Hs E. destruct (serialized_frame_parses f security Hf Hs) as (bytes' & E' & L & P).
  assert (bytes' = bytes) as -> by congruence. unfold decode. rewrite P, <- L.
  unfold zlen. rewrite Nat2Z.id, drop_app_length. reflexivity.
Qed.

Lemma frame_stream fs security :
  Forall (fun f => frame_ok f = true /\ security_ready security f) fs ->
  exists bytes, serialize_all fs security = Ok bytes.
Proof.
  induction 1 as [|f fs [Hf Hs] _ (bytes & E)]; cbn [serialize_all]; [eauto|].
  destruct (serialized_frame_parses f security Hf Hs) as (b & Eb & _). rewrite Eb, E. cbn. eauto.
Qed.

(** C28: Frames with fields in range, sent one after the other, arrive as they
    are: they have a serialization, its size is the one [packet_size]
    announces, and decoding a buffer that starts with it yields the frames (an
    encrypted one with its padding) and goes on with what follows them. *)
Theorem frame_round_trip fs security
    (Hf : Forall (fun f => frame_ok f = true /\ security_ready security f) fs) :
  exists bytes, serialize_all fs security = Ok bytes /\ zlen bytes = sumZ (map packet_size fs)
    /\ forall rest, decode_all (bytes ++ rest) security
        = let '(fs', e) := decode_all rest security in (map received fs ++ fs', e).
Proof.
  induction Hf as [|f fs [Hf Hs] _ (bytes & E & L & D)]; cbn [serialize_all map].
  - exists []. repeat split. intros rest. cbn [app]. destruct (decode_all rest security). reflexivity.
  - destruct (serialized_frame_parses f security Hf Hs) as (b & Eb & Lb & _).
    rewrite Eb, E. exists (b ++ bytes). cbn [mbind outcome_bind]. split; [reflexivity|]. split.
    + unfold zlen in *. rewrite length_app, Nat2Z.inj_add. cbn [map sumZ foldr]. unfold sumZ in L. lia.
    + intros rest. rewrite <- app_assoc, decode_all_eq, (decode_serialized f b _ security Hf Hs Eb), D.
      destruct (decode_all rest security). reflexivity.
Qed.

(** ** Incomplete and malformed frames *)

Lemma slice_ok {E} from to (data : list Z) :
  (from <= to <= length data)%nat -> @slice E from to data = Ok (firstn (to - from) (skipn from data)).
Proof.
  intros Hl. unfold slice. rewrite (proj2 (Nat.leb_le from to)), (proj2 (Nat.leb_le to (length data))) by lia.
  reflexivity.
Qed.

Lemma slice_no_err {E} from to (data : list Z) (e : E) : slice from to data <> Err e.
Proof. unfold slice. destruct (_ && _); discriminate. Qed.

Lemma bind_err {E A B} (m : outcome E A) (k : A -> outcome E B) e :
  m ≫= k = Err e -> m = Err e \/ exists a, m = Ok a /\ k a = Err e.
Proof. destruct m; cbn; [eauto|intros [= ->]; auto|discriminate]. Qed.

Lemma slice_num_no_err {E} from to (data : list Z) (e : E) : slice_num from to data <> Err e.
Proof.
  unfold slice_num. pose proof (slice_no_err from to data e).
  destruct (slice from to data); cbn; congruence.
Qed.

Lemma parse_content_no_err e n data err : parse_content e n data <> Err err.
Proof.
  unfold parse_content. intros E.
  repeat match goal with
  | H : _ ≫= _ = Err _ |- _ =>
      apply bind_err in H as [H|(? & _ & H)]; [exact (slice_num_no_err _ _ _ _ H)|]
  | H : (if ?b then _ else _) = Err _ |- _ => destruct b; [|discriminate]
  end. discriminate.
Qed.

Lemma parse_content_panic e n data :
  (4 <= length data)%nat -> parse_content e n data = Panic ->
  le_num (firstn 2 data) = MASSIVE_PACKET_OPCODE /\ (length data < 9)%nat.
Proof.
  intros H4. unfold parse_content, slice_num. rewrite !(slice_ok 0 2), !(slice_ok 2 3), !(slice_ok 3 4) by lia.
  cbn [fmap outcome_fmap mbind outcome_bind]. change (take (2 - 0) (drop 0 data)) with (take 2 data).
  destruct (Z.eqb_spec (le_num (take 2 data)) MASSIVE_PACKET_OPCODE) as [Eo|]; [|discriminate].
  intros E. split; [exact Eo|].
  destruct (Nat.le_gt_cases 9 (length data)) as [H9|]; [exfalso|assumption].
  rewrite !(slice_ok 4 5), !(slice_ok 5 7), !(slice_ok 7 9) in E by lia.
  cbn [fmap outcome_fmap mbind outcome_bind] in E. destruct (_ =? 1); discriminate.
Qed.

(** The bytes of a complete frame as [parse] sees them. *)
Lemma parse_complete data security :
  4 <= zlen data -> total_size (le_num (firstn 2 data)) + 2 <= zlen data ->
  exists body, zlen body = total_size (le_num (firstn 2 data)) /\
  parse data security
  = (content ← (if is_encrypted_length (le_num (firstn 2 data)) then
                  s ← ok_or security MissingSecurity; map_err SecurityError (decrypt body s)
                else Ok body);
     parse_content (is_encrypted_length (le_num (firstn 2 data)))
       (total_size (le_num (firstn 2 data)) + 2) content).
Proof.
  intros H4 Ht. pose proof (total_size_min (le_num (firstn 2 data))).
  exists (firstn (Z.to_nat (total_size (le_num (firstn 2 data)))) (skipn 2 data)).
  unfold zlen in *. rewrite length_firstn, length_skipn. split; [lia|].
  unfold parse, zlen. rewrite (proj2 (Z.ltb_ge _ _) H4). cbv zeta. rewrite length_skipn.
  rewrite (proj2 (Z.ltb_ge _ _)) by lia. reflexivity.
Qed.

(** A buffer is reported incomplete exactly when it is shorter than the
    frame its length field announces; everything longer is decided. *)
Theorem parse_incomplete data security :
  parse data security = Err Incomplete
  <-> zlen data < 4 \/ zlen data < 2 + total_size (le_num (firstn 2 data)).
Proof.
  split.
  - intros E. destruct (Z.lt_ge_cases (zlen data) 4) as [|H4]; [auto|].
    destruct (Z.lt_ge_cases (zlen data) (2 + total_size (le_num (firstn 2 data)))) as [|Ht]; [auto|].
    exfalso. destruct (parse_complete data security H4 ltac:(lia)) as (body & _ & P). rewrite P in E.
    apply bind_err in E as [E|(? & _ & E)]; [|exact (parse_content_no_err _ _ _ _ E)].
    destruct (is_encrypted_length _); [|discriminate].
    apply bind_err in E as [E|(s & _ & E)]; [destruct security; discriminate|].
    destruct (decrypt body s); discriminate.
  - intros Hd. unfold parse. destruct (Z.ltb_spec (zlen data) 4); [reflexivity|]. cbv zeta.
    destruct Hd as [|Hd]; [lia|]. unfold zlen in *. rewrite length_skipn.
    rewrite (proj2 (Z.ltb_lt _ _)); [reflexivity|]. lia.
Qed.

(** Without encryption, the parser panics exactly on a complete frame with
    the opcode of massive packets that is shorter than the fields it indexes:
    without the mode byte, or a header without count and opcode. *)
Theorem parse_panics_on_short_massive :
  parse [0; 0; 0x0D; 0x60; 0; 0] (@None (security_state cipher)) = Panic
  /\ parse [1; 0; 0x0D; 0x60; 0; 0; 1] (@None (security_state cipher)) = Panic
  /\ forall data, parse data (@None (security_state cipher)) = Panic ->
       le_num (firstn 2 (skipn 2 data)) = MASSIVE_PACKET_OPCODE
       /\ total_size (le_num (firstn 2 data)) < 9.
Proof.
  split; [reflexivity|]. split; [reflexivity|]. intros data E.
  pose proof (total_size_min (le_num (firstn 2 data))) as Hmin.
  unfold parse, zlen in E. destruct (Z.ltb_spec (Z.of_nat (length data)) 4); [discriminate|].
  cbv zeta in E. rewrite length_skipn in E.
  destruct (Z.ltb_spec (Z.of_nat (length data - 2)) (total_size (le_num (firstn 2 data)))); [discriminate|].
  destruct (is_encrypted_length _); [discriminate|]. cbn [mbind outcome_bind] in E.
  apply parse_content_panic in E as [E1 E2]; rewrite ?length_firstn, ?length_skipn in *; [|lia].
  rewrite firstn_firstn, Nat.min_l in E1 by lia. split; [exact E1|lia].
Qed.

(** ** Massive packets *)

End Facts.

Lemma frame_round_trip_witness :
  let s : option (security_state Z) := Some (Established 7 (1, 1, 1) 3) in
  let fs := [Packet 1 2 0xA10A true [1; 2; 3]; MassiveHeader 0 0 0xA104 1; MassiveContainer 0 0 [9]] in
  exists bytes, serialize_all fs s = Ok bytes /\ zlen bytes = 30
    /\ fst (decode_all (bytes ++ [1]) s)
       = [Packet 1 2 0xA10A true [1; 2; 3; 0]; MassiveHeader 0 0 0xA104 1; MassiveContainer 0 0 [9]].
Proof.
  intros s fs. destruct (frame_round_trip fs s) as (bytes & E & L & D).
  - repeat constructor; cbn; eauto.
  - exists bytes. rewrite D. auto.
Defined.

(** The payload the containers of a massive packet carry together. *)
Definition payload (fs : list frame) : list Z :=
  concat (map (fun f => match f with MassiveContainer _ _ inner => inner | _ => [] end) fs).

Lemma split_containers_payload n bytes :
  payload (split_containers n bytes) = firstn (n * Z.to_nat 0xFFFF) bytes
  /\ length (split_containers n bytes) = n.
Proof.
  revert bytes; induction n as [|n IH]; intros bytes; [split; reflexivity|].
  cbn [split_containers]. set (m := Z.to_nat 0xFFFF).
  destruct (IH (skipn (Nat.min m (length bytes)) bytes)) as [IHp IHl].
  split; [|cbn [length]; rewrite IHl; reflexivity].
  unfold payload in *. cbn [map concat]. rewrite IHp. fold m.
  destruct (Nat.le_gt_cases m (length bytes)) as [Hm|Hm].
  - rewrite Nat.min_l by exact Hm. apply take_take_drop.
  - rewrite Nat.min_r, drop_all, take_nil, app_nil_r by lia.
    rewrite !take_ge by lia. reflexivity.
Qed.

(** The containers made for a massive packet are as many as its header
    announces, and together they carry the first multiple of 0xFFFF bytes of
    the body: the whole body exactly when it fits one container or its length
    is a multiple of 0xFFFF, otherwise its tail is lost. *)
Theorem massive_frames_payload opcode bytes (Hn : zlen bytes < 0xFFFF * 2 ^ 16) :
  exists containers,
    massive_frames opcode bytes
      = MassiveHeader 0 0 opcode (Z.of_nat (length containers)) :: containers
    /\ payload containers = firstn (length containers * Z.to_nat 0xFFFF) bytes
    /\ (payload containers = bytes <-> zlen bytes <= 0xFFFF \/ zlen bytes mod 0xFFFF = 0).
Proof.
  assert (Hr : 1 <= required_packets bytes < 2 ^ 16).
  { unfold required_packets, zlen in *. split; [lia|]. apply Z.max_lub_lt; [zlia|lia]. }
  exists (split_containers (Z.to_nat (required_packets bytes)) bytes).
  destruct (split_containers_payload (Z.to_nat (required_packets bytes)) bytes) as [-> ->].
  split; [|split; [reflexivity|]].
  - unfold massive_frames. rewrite wrap_small by (apply fits_spec; lia). rewrite Z2Nat.id by lia. reflexivity.
  - unfold required_packets, zlen in *. split.
    + intros E. apply (f_equal (@length Z)) in E. rewrite length_firstn in E. zlia.
    + intros Hd. apply take_ge. zlia.
Qed.

Lemma massive_frames_payload_witness :
  exists containers,
    massive_frames 0xA104 [1; 2; 3] = MassiveHeader 0 0 0xA104 (Z.of_nat (length containers)) :: containers
    /\ payload containers = firstn (length containers * Z.to_nat 0xFFFF) [1; 2; 3]
    /\ (payload containers = [1; 2; 3] <-> zlen [1; 2; 3] <= 0xFFFF \/ zlen [1; 2; 3] mod 0xFFFF = 0).
Proof. apply massive_frames_payload. reflexivity. Defined.
