(* ===== verification/Stream.v ===== *)
(** silkroad-network/src/stream.rs and security_setup.rs: the reader and the
    writer of a connection, the handshake that opens it, and the loop that
    delivers its packets.

    The socket is the bytes the peer sends before it closes; by
    [decoding_ignores_chunking] (FrameFacts.v) it does not matter how they are
    cut. The writer's socket is the bytes written so far. A frame is decoded
    when it is asked for, with the security of that moment. *)
From stdpp Require Import base list option strings.
From Stdlib Require Import ZArith Lia.
From S2P Require Import Prelude Utf Definitions Serde SerdeFacts Schema ProtoGeneral Packets.
From S2P Require Import Security Frame.

(** A [FrameError] from the stream's io: bytes left behind at its end. *)
Inductive stream_error :=
| IncompleteHandshake
| FrameError (e : frame_error)
| IoError
| ProtocolError (e : protocol_error)
| StreamClosed
| UnconsumedMassivePacket (remaining : Z).

Record StreamReader := { inner : list Z; massive_packet : option (Z * Z) }.

Definition reader_new (bytes : list Z) : StreamReader := {| inner := bytes; massive_packet := None |}.

Definition with_inner (r : StreamReader) (bytes : list Z) : StreamReader :=
  {| inner := bytes; massive_packet := r.(massive_packet) |}.
Definition with_massive (r : StreamReader) (m : option (Z * Z)) : StreamReader :=
  {| inner := r.(inner); massive_packet := m |}.

Inductive handshake_error :=
| NonHandshakePacketReceived
| StreamError (e : stream_error).

Section Stream.
Context {cipher : Type} `{!BlockCipher cipher}.
Implicit Type security : option (security_state cipher).

(** What [next] does with one frame: [None] means that it reads another one. *)
Definition on_frame (f : frame) (r : StreamReader) : option (outcome stream_error packet) * StreamReader :=
  match f with
  | Packet _ _ opcode _ data => (Some (map_err ProtocolError (deserialize opcode data)), r)
  | MassiveHeader _ _ contained_opcode contained_count =>
      match r.(massive_packet) with
      | Some (_, remaining) => (Some (Err (UnconsumedMassivePacket remaining)), r)
      | None => (None, with_massive r (Some (contained_opcode, contained_count)))
      end
  | MassiveContainer _ _ data =>
      match r.(massive_packet) with
      | Some (opcode, count) =>
          match map_err ProtocolError (deserialize opcode data) with
          | Ok result =>
              let new_count := u16 (count - 1) in
              (Some (Ok result),
               with_massive r (if 0 <? new_count then Some (opcode, new_count) else None))
          | e => (Some e, r)
          end
      | None => (Some (Err (ProtocolError StrayMassivePacket)), r)
      end
  end.

(** [next]; every round takes a frame out of the buffer, so that its length is
    enough fuel. *)
Fixpoint next_loop (fuel : nat) security (r : StreamReader) : outcome stream_error packet * StreamReader :=
  match decode r.(inner) security with
  | Ok (Some f, rest) =>
      match on_frame f (with_inner r rest) with
      | (Some result, r) => (result, r)
      | (None, r) =>
          match fuel with
          | O => (Err StreamClosed, r)
          | S fuel => next_loop fuel security r
          end
      end
  | Ok (None, []) => (Err StreamClosed, with_inner r [])
  | Ok (None, rest) => (Err IoError, with_inner r rest)
  | Err e => (Err (FrameError e), r)
  | Panic => (Panic, r)
  end.

Definition next security (r : StreamReader) : outcome stream_error packet * StreamReader :=
  next_loop (length r.(inner)) security r.

(** [StreamReader::start_loop]: the packets it delivers, as long as they are
    received, and how it ends. *)
Inductive loop_end := Stopped (e : stream_error) | LoopPanics | OutOfFuel.

Fixpoint read_loop (fuel : nat) security (r : StreamReader) : list packet * loop_end :=
  match fuel with
  | O => ([], OutOfFuel)
  | S fuel =>
      match next security r with
      | (Ok p, r) => let '(ps, e) := read_loop fuel security r in (p :: ps, e)
      | (Err (ProtocolError _), r) => read_loop fuel security r
      | (Err e, _) => ([], Stopped e)
      | (Panic, _) => ([], LoopPanics)
      end
  end.

Definition start_loop security (r : StreamReader) : list packet * loop_end :=
  read_loop (S (length r.(inner))) security r.

(** [StreamWriter::send]: the frames of the packet, encoded in order. *)
Fixpoint send_all (fs : list frame) security (out : list Z) : outcome stream_error (list Z) :=
  match fs with
  | [] => Ok out
  | f :: fs => out ← map_err FrameError (encode f security out); send_all fs security out
  end.

(** A value that is none of its packet type has no encoding; the code cannot
    build one. *)
Definition send (p : packet) security (out : list Z) : outcome stream_error (list Z) :=
  match create_for p with
  | Some fs => send_all fs security out
  | None => Panic
  end.

(** ** The handshake *)

Definition setup_initialize (i : initialization_data) : packet :=
  let '(a, b, c) := i.(additional_seeds) in
  ("SecuritySetup"%string,
   SecuritySetup_new (VEnum "Initialize"
     [VNum i.(seed); VNum i.(count_seed); VNum i.(crc_seed); VNum i.(handshake_seed);
      VNum a; VNum b; VNum c])).

Definition setup_finalize (challenge : Z) : packet :=
  ("SecuritySetup"%string, SecuritySetup_new (VEnum "Finalize" [VNum challenge])).

(** [expect]: an error panics. *)
Definition expect {E F A} (m : outcome E A) : outcome F A :=
  match m with Ok a => Ok a | _ => Panic end.

(** The security, the reader and the bytes written, next to the result. *)
Definition do_handshake (d : draws) (s : security_state cipher) (r : StreamReader) (out : list Z)
    : outcome handshake_error unit * security_state cipher * StreamReader * list Z :=
  match initialize d s with
  | Ok (init, s) =>
      match send (setup_initialize init) (Some s) out with
      | Ok out =>
          match next (Some s) r with
          | (Ok (name, value), r) =>
              match String.eqb name "HandshakeChallenge", value with
              | true, VStruct [VNum b; VNum key] =>
                  match start_challenge b key s with
                  | Ok (challenge, s) =>
                      match send (setup_finalize challenge) (Some s) out with
                      | Ok out =>
                          match next (Some s) r with
                          | (Ok (name, _), r) =>
                              if String.eqb name "HandshakeAccepted" then
                                match accept_challenge s with
                                | Ok s => (Ok (), s, r, out)
                                | _ => (Panic, s, r, out)
                                end
                              else (Err NonHandshakePacketReceived, s, r, out)
                          | (Err e, r) => (Err (StreamError e), s, r, out)
                          | (Panic, r) => (Panic, s, r, out)
                          end
                      | Err e => (Err (StreamError e), s, r, out)
                      | Panic => (Panic, s, r, out)
                      end
                  | _ => (Panic, s, r, out)
                  end
              | _, _ => (Err NonHandshakePacketReceived, s, r, out)
              end
          | (Err e, r) => (Err (StreamError e), s, r, out)
          | (Panic, r) => (Panic, s, r, out)
          end
      | Err e => (Err (StreamError e), s, r, out)
      | Panic => (Panic, s, r, out)
      end
  | _ => (Panic, s, r, out)
  end.

End Stream.
