(* ===== verification/StreamSpec.v ===== *)
(** Correctness of Stream.v: what a reader delivers, and how a connection is
    opened. *)
From stdpp Require Import base list option strings.
From Stdlib Require Import ZArith Lia.
From S2P Require Import Prelude Utf Definitions Serde SerdeFacts Schema ProtoGeneral.
From S2P Require Import ProtoLogin ProtoChat Packets Security SecurityFacts SecuritySpec Frame.
From S2P Require Import FrameFacts Stream.

Section Facts.
Context {cipher : Type} `{BlockCipherLaws cipher}.
Implicit Type security : option (security_state cipher).

(** ** Reading *)

Lemma on_frame_inner f r : (on_frame f r).2.(inner) = r.(inner).
Proof.
  destruct f; cbn; [reflexivity| |]; destruct (massive_packet r) as [[op n]|]; try reflexivity.
  destruct (map_err _ _); reflexivity.
Qed.

Lemma next_loop_fuel security n m r :
  (length r.(inner) <= n)%nat -> (length r.(inner) <= m)%nat ->
  next_loop n security r = next_loop m security r.
Proof.
  revert m r; induction n as [|n IH]; intros m r Hn Hm.
  - destruct r as [[|b bs] mp]; [|cbn in Hn; lia]. destruct m; reflexivity.
  - destruct m as [|m].
    { destruct r as [[|b bs] mp]; [|cbn in Hm; lia]. reflexivity. }
    cbn [next_loop]. destruct (decode (inner r) security) as [[[f|] rest]| |] eqn:E; try reflexivity.
    apply decode_rest in E. pose proof (on_frame_inner f (with_inner r rest)) as Hi.
    destruct (on_frame f (with_inner r rest)) as [[result|] r']; [reflexivity|].
    cbn in Hi. apply IH; rewrite Hi; lia.
Qed.

(** [next] without fuel. *)
Lemma next_eq security r :
  next security r
  = match decode r.(inner) security with
    | Ok (Some f, rest) =>
        match on_frame f (with_inner r rest) with
        | (Some result, r) => (result, r)
        | (None, r) => next security r
        end
    | Ok (None, []) => (Err StreamClosed, with_inner r [])
    | Ok (None, rest) => (Err IoError, with_inner r rest)
    | Err e => (Err (FrameError e), r)
    | Panic => (Panic, r)
    end.
Proof.
  unfold next at 1. destruct (inner r) as [|b bs] eqn:Er.
  { destruct r as [i mp]. cbn in Er. subst i. reflexivity. }
  cbn [length next_loop]. rewrite Er.
  destruct (decode (b :: bs) security) as [[[f|] rest]| |] eqn:E; try reflexivity.
  apply decode_rest in E. pose proof (on_frame_inner f (with_inner r rest)) as Hi.
  destruct (on_frame f (with_inner r rest)) as [[result|] r']; [reflexivity|].
  cbn in Hi, E. apply next_loop_fuel; rewrite Hi; lia.
Qed.

(** A packet or a protocol error leaves fewer bytes to read. *)
Lemma next_shrinks security r :
  match next security r with
  | (Ok _, r') | (Err (ProtocolError _), r') => (length r'.(inner) < length r.(inner))%nat
  | _ => True
  end.
Proof.
  remember (length (inner r)) as n eqn:En. revert r En.
  induction n as [n IH] using (well_founded_induction lt_wf). intros r ->.
  rewrite next_eq. destruct (decode (inner r) security) as [[[f|] rest]| |] eqn:E; [|destruct rest; exact I|exact I|exact I].
  apply decode_rest in E. pose proof (on_frame_inner f (with_inner r rest)) as Hi. cbn in Hi.
  destruct (on_frame f (with_inner r rest)) as [[result|] r']; cbn in Hi.
  - rewrite Hi. destruct result as [|[]|]; auto.
  - specialize (IH (length (inner r')) ltac:(rewrite Hi; exact E) r' eq_refl).
    destruct (next security r') as [[|[]|] r2]; auto; rewrite Hi in IH; lia.
Qed.

Lemma read_loop_fuel security n m r :
  (length r.(inner) < n)%nat -> (length r.(inner) < m)%nat ->
  read_loop n security r = read_loop m security r.
Proof.
  revert m r; induction n as [|n IH]; intros m r Hn Hm; [lia|]. destruct m as [|m]; [lia|].
  cbn [read_loop]. pose proof (next_shrinks security r) as Hs.
  destruct (next security r) as [[p|[]|] r']; try reflexivity.
  - rewrite (IH m r') by lia. reflexivity.
  - apply IH; lia.
Qed.

(** [start_loop] without fuel. *)
Lemma start_loop_eq security r :
  start_loop security r
  = match next security r with
    | (Ok p, r) => let '(ps, e) := start_loop security r in (p :: ps, e)
    | (Err (ProtocolError _), r) => start_loop security r
    | (Err e, _) => ([], Stopped e)
    | (Panic, _) => ([], LoopPanics)
    end.
Proof.
  unfold start_loop at 1. cbn [read_loop]. pose proof (next_shrinks security r) as Hs.
  destruct (next security r) as [[p|[]|] r']; try reflexivity.
  - rewrite (read_loop_fuel _ _ (S (length (inner r')))) by lia. reflexivity.
  - unfold start_loop. apply read_loop_fuel; lia.
Qed.

(** The reader at a complete frame. *)
Lemma next_frame security f bytes rest mp :
  frame_ok f = true -> security_ready security f -> serialize f security = Ok bytes ->
  next security {| inner := bytes ++ rest; massive_packet := mp |}
  = match on_frame (received f) {| inner := rest; massive_packet := mp |} with
    | (Some result, r) => (result, r)
    | (None, r) => next security r
    end.
Proof. intros Hf Hs E. rewrite next_eq. cbn [inner]. rewrite (decode_serialized f bytes rest) by assumption. reflexivity. Qed.

(** What the reader makes of a received packet frame. *)
Definition delivered (f : frame) : option packet :=
  match received f with
  | Packet _ _ opcode _ data => match deserialize opcode data with Ok p => Some p | _ => None end
  | _ => None
  end.

Definition is_packet (f : frame) : bool := match f with Packet _ _ _ _ _ => true | _ => false end.

(** A packet frame both sides can exchange. *)
Definition transmissible security (f : frame) : Prop :=
  is_packet f = true /\ frame_ok f = true /\ security_ready security f.

Lemma start_loop_packet security f bytes rest mp :
  transmissible security f -> serialize f security = Ok bytes ->
  start_loop security {| inner := bytes ++ rest; massive_packet := mp |}
  = let '(ps, e) := start_loop security {| inner := rest; massive_packet := mp |} in
    (option_list (delivered f) ++ ps, e).
Proof.
  intros (Hp & Hf & Hs) E. rewrite start_loop_eq, (next_frame security f bytes rest mp Hf Hs E).
  unfold delivered. destruct f as [count crc opcode [] data| |]; try discriminate; cbn [received on_frame];
    match goal with |- context [deserialize ?o ?d] =>
      pose proof (deserialize_no_panic o d) as Hn; destruct (deserialize o d); [| |congruence] end;
    cbn [map_err option_list app]; destruct (start_loop security _); reflexivity.
Qed.

Lemma start_loop_closed security mp :
  start_loop security {| inner := []; massive_packet := mp |} = ([], Stopped StreamClosed).
Proof. reflexivity. Qed.

Lemma start_loop_packets security fs mp :
  Forall (transmissible security) fs ->
  exists bytes, serialize_all fs security = Ok bytes
    /\ start_loop security {| inner := bytes; massive_packet := mp |}
       = (concat (map (fun f => option_list (delivered f)) fs), Stopped StreamClosed).
Proof.
  induction 1 as [|f fs Hf _ (bytes & E & L)]; cbn [serialize_all map concat].
  - exists []. split; reflexivity.
  - destruct (serialized_frame_parses f security) as (b & Eb & _ & _); [apply Hf..|].
    rewrite Eb, E. exists (b ++ bytes). split; [reflexivity|].
    rewrite (start_loop_packet security f b bytes mp Hf Eb), L. reflexivity.
Qed.

(** ** Properties *)

(** C37: Whatever packet frames a client sends, the connection survives them:
    the loop delivers, in order, the packets of the frames that decode, skips
    the ones with an unknown opcode or a malformed body, and stops only when
    the stream is closed. *)
Theorem malformed_packets_skipped security (fs : list frame)
    (Hfs : Forall (transmissible security) fs) :
  exists bytes, serialize_all fs security = Ok bytes
    /\ start_loop security (reader_new bytes)
       = (concat (map (fun f => option_list (delivered f)) fs), Stopped StreamClosed).
Proof. exact (start_loop_packets security fs None Hfs). Qed.

(** A packet a client sends: its entry of the table, a value, and how it is framed. *)
Record message := {
  msg_opcode : Z; msg_name : string; msg_type : ty; msg_value : val;
  msg_encrypted : bool; msg_count : Z; msg_crc : Z;
}.

Definition body (m : message) : list Z := default [] (to_bytes m.(msg_type) m.(msg_value)).
Definition frame_of (m : message) : frame :=
  Packet m.(msg_count) m.(msg_crc) m.(msg_opcode) m.(msg_encrypted) (body m).
Definition packet_of (m : message) : packet := (m.(msg_name), m.(msg_value)).

Record message_ok security (m : message) : Prop := {
  known_packet : by_opcode m.(msg_opcode) client_packets = Some (m.(msg_name), m.(msg_type));
  legal_value : legal m.(msg_type) m.(msg_value) = true;
  small_body : zlen (body m) < 2 ^ 15;
  header_fields : fits 8 m.(msg_count) = true /\ fits 8 m.(msg_crc) = true;
  secured : m.(msg_encrypted) = true -> exists bf ct crs, security = Some (Established bf ct crs);
}.

Lemma client_opcodes_ok :
  forallb (fun '(o, _, _) => fits 16 o && negb (o =? MASSIVE_PACKET_OPCODE)) client_packets = true.
Proof. vm_compute. reflexivity. Qed.

Lemma message_transmissible security m :
  message_ok security m -> transmissible security (frame_of m) /\ delivered (frame_of m) = Some (packet_of m).
Proof.
  intros [Hk Hl Hb [Hc Hr] Hs].
  destruct (client_packet_encodes _ _ _ _ Hk Hl) as (bs & E & B & R).
  assert (Eb : body m = bs) by (unfold body; rewrite E; reflexivity).
  pose proof (proj1 (forallb_forall _ _) client_opcodes_ok _ (by_opcode_in _ _ _ _ Hk)) as Ho.
  cbn beta iota in Ho. apply andb_true_iff in Ho as [Ho1 Ho2].
  split; [split; [reflexivity|]; split|].
  - unfold frame_of. cbn [frame_ok]. rewrite Hc, Hr, Ho1, Ho2, Eb, B. cbn.
    apply Z.ltb_lt. rewrite <- Eb. exact Hb.
  - unfold frame_of, security_ready. destruct (msg_encrypted m); [apply Hs; reflexivity | exact I].
  - unfold delivered, frame_of. destruct (msg_encrypted m); cbn [received]; rewrite Eb.
    + rewrite R. reflexivity.
    + rewrite <- (app_nil_r bs), R. reflexivity.
Qed.

(** ** The handshake *)

(** The bytes of a packet in a single unencrypted frame. *)
Definition plain_bytes (p : packet) : list Z :=
  match into_serialize p with
  | Some (opcode, bs) =>
      le_bytes 2 (zlen bs) ++ le_bytes 2 opcode ++ le_bytes 1 0 ++ le_bytes 1 0 ++ bs
  | None => []
  end.

Lemma send_setup v security out :
  legal SecuritySetup v = true ->
  send ("SecuritySetup"%string, v) security out = Ok (out ++ plain_bytes ("SecuritySetup"%string, v)).
Proof.
  intros Hv.
  assert (Hw : decodable [1; 2] no_args SecuritySetup = true) by (vm_compute; reflexivity).
  destruct (proj1 decode_encode_all SecuritySetup no_args [] v Hw Hv) as (bs & E & _ & _).
  assert (Ei : into_serialize ("SecuritySetup"%string, v) = Some (0x5000, bs)).
  { unfold into_serialize. replace (by_name _ server_packets) with (Some (0x5000, SecuritySetup))
      by (vm_compute; reflexivity). unfold to_bytes. cbn [mbind option_bind snd]. rewrite E. reflexivity. }
  unfold send, create_for, plain_bytes. rewrite Ei. reflexivity.
Qed.

Record draws_ok (d : draws) : Prop := {
  seeds_fit : fits 64 d.(draw_seed) = true /\ fits 64 d.(draw_handshake_seed) = true;
  counts_fit : fits 32 d.(draw_count_seed) = true /\ fits 32 d.(draw_crc_seed) = true;
}.

Lemma pow_loop_fits fuel p x c m a : pow_loop fuel p x c m = Ok a -> fits 32 a = true.
Proof.
  revert x c m; induction fuel as [|fuel IH]; intros x c m; cbn [pow_loop];
    (destruct (x =? 0); [intros [= <-]; apply wrap_fits; lia|]); [discriminate|].
  destruct (p =? 0); [discriminate|]. apply IH.
Qed.

Lemma g_pow_x_mod_p_fits p x g a : g_pow_x_mod_p p x g = Ok a -> fits 32 a = true.
Proof. unfold g_pow_x_mod_p. apply pow_loop_fits. Qed.

Lemma land_31_fits z : fits 32 (Z.land z 0x7FFFFFFF) = true.
Proof.
  change 0x7FFFFFFF with (Z.ones 31). rewrite Z.land_ones by lia. apply fits_spec.
  pose proof (Z.mod_pos_bound z (2 ^ 31)). lia.
Qed.

Lemma legal_initialize s c r h a b k :
  fits 64 s && (fits 32 c && (fits 32 r && (fits 64 h && (fits 32 a && (fits 32 b && fits 32 k))))) = true ->
  legal SecuritySetup (SecuritySetup_new (VEnum "Initialize"
    [VNum s; VNum c; VNum r; VNum h; VNum a; VNum b; VNum k])) = true.
Proof. intros Hfit. cbn. rewrite !andb_true_r. exact Hfit. Qed.

Lemma legal_finalize c : fits 64 c = true -> legal SecuritySetup (SecuritySetup_new (VEnum "Finalize" [VNum c])) = true.
Proof. intros Hfit. cbn. rewrite !andb_true_r. exact Hfit. Qed.

Lemma power_fits {E} p x g a : @power E p x g = Ok a -> fits 32 a = true.
Proof.
  unfold power. destruct (g_pow_x_mod_p p x g) as [a'|[]|] eqn:Eg; [|discriminate].
  intros [= ->]. exact (g_pow_x_mod_p_fits _ _ _ _ Eg).
Qed.

Lemma initialize_seeds d s init s' :
  initialize (cipher := cipher) d s = Ok (init, s') ->
  exists a, fits 32 a = true /\ init =
    {| seed := d.(draw_seed); count_seed := d.(draw_count_seed); crc_seed := d.(draw_crc_seed);
       handshake_seed := d.(draw_handshake_seed);
       additional_seeds := (Z.land d.(draw_g) 0x7FFFFFFF, Z.land d.(draw_p) 0x7FFFFFFF, a) |}.
Proof.
  destruct s; try discriminate. cbn [initialize]. intros E. apply bind_ok in E as (a & Ea & E).
  exists a. apply power_fits in Ea. injection E as <- _. auto.
Qed.

Lemma setup_initialize_legal d s init s' :
  draws_ok d -> initialize (cipher := cipher) d s = Ok (init, s') ->
  exists v, setup_initialize init = ("SecuritySetup"%string, v) /\ legal SecuritySetup v = true.
Proof.
  intros [[H1 H2] [H3 H4]] E. apply initialize_seeds in E as (a & Ha & ->).
  eexists. split; [reflexivity|]. apply legal_initialize.
  cbn [seed count_seed crc_seed handshake_seed]. rewrite H1, H2, H3, H4, !land_31_fits, Ha. reflexivity.
Qed.

Lemma sealed_fits c z : fits 64 (seal c z) = true.
Proof.
  destruct (encrypt_block_ok c _ (le_bytes_block z)) as [Hl Hb]. apply fits_spec.
  pose proof (le_num_range _ Hb) as Hr. rewrite Hl in Hr. exact Hr.
Qed.

Lemma challenge_sealed b key s challenge s' :
  start_challenge (cipher := cipher) b key s = Ok (challenge, s') -> exists c z, challenge = seal c z.
Proof.
  destruct s; try discriminate. cbn [start_challenge]. intros E.
  apply bind_ok in E as (k & _ & E). apply bind_ok in E as (c & _ & E). cbv zeta in E.
  destruct (negb _); [discriminate|]. apply bind_ok in E as (c2 & _ & E).
  apply bind_ok in E as (c3 & _ & E). injection E as <- _.
  exists c2, (server_proof value_a b k). reflexivity.
Qed.

Lemma setup_finalize_legal b key s challenge s' :
  start_challenge (cipher := cipher) b key s = Ok (challenge, s') ->
  exists v, setup_finalize challenge = ("SecuritySetup"%string, v) /\ legal SecuritySetup v = true.
Proof.
  intros E. apply challenge_sealed in E as (c & z & ->). eexists. split; [reflexivity|].
  apply legal_finalize, sealed_fits.
Qed.

(** A plain frame is read under any security. *)
Lemma next_plain security f bytes rest mp :
  transmissible None f -> serialize f (@None (security_state cipher)) = Ok bytes ->
  next security {| inner := bytes ++ rest; massive_packet := mp |}
  = (match received f with
     | Packet _ _ opcode _ data => map_err ProtocolError (deserialize opcode data)
     | _ => Panic
     end, {| inner := rest; massive_packet := mp |}).
Proof.
  intros (Hp & Hf & Hs) E. destruct f as [count crc opcode [] data| |]; try discriminate.
  rewrite (next_frame security (Packet count crc opcode false data) bytes rest mp Hf I E). reflexivity.
Qed.

Lemma next_delivered security f bytes rest mp p :
  transmissible None f -> serialize f (@None (security_state cipher)) = Ok bytes ->
  delivered f = Some p ->
  next security {| inner := bytes ++ rest; massive_packet := mp |}
  = (Ok p, {| inner := rest; massive_packet := mp |}).
Proof.
  intros Hf E Hd. rewrite (next_plain security f bytes rest mp Hf E). unfold delivered in Hd.
  destruct (received f) as [? ? opcode e data| |]; try discriminate.
  destruct (deserialize opcode data); [|discriminate..]. cbn. congruence.
Qed.

(** The handshake with a client whose challenge is accepted. *)
Lemma handshake_runs (d : draws) (init : initialization_data) (s1 : security_state cipher)
    (f1 f2 : frame) (b key challenge : Z) (bf : cipher) (cs crs : Z) (v : val)
    (Hd : draws_ok d) (Hi : initialize d Uninitialized = Ok (init, s1))
    (Hf1 : transmissible None f1)
    (Hc : delivered f1 = Some ("HandshakeChallenge"%string, VStruct [VNum b; VNum key]))
    (Hs : start_challenge b key s1 = Ok (challenge, Challenged bf cs crs))
    (Hf2 : transmissible None f2) (Ha : delivered f2 = Some ("HandshakeAccepted"%string, v)) :
  exists bytes, serialize_all [f1; f2] (@None (security_state cipher)) = Ok bytes
    /\ forall rest, do_handshake d Uninitialized (reader_new (bytes ++ rest)) []
      = (Ok (), Established bf (generate_count_seed cs) crs, reader_new rest,
         plain_bytes (setup_initialize init) ++ plain_bytes (setup_finalize challenge)).
Proof.
  destruct (serialized_frame_parses f1 (@None (security_state cipher))) as (b1 & E1 & _ & _); [apply Hf1..|].
  destruct (serialized_frame_parses f2 (@None (security_state cipher))) as (b2 & E2 & _ & _); [apply Hf2..|].
  exists (b1 ++ b2 ++ []). cbn [serialize_all]. rewrite E1, E2. split; [reflexivity|].
  intros rest. rewrite app_nil_r, <- app_assoc. unfold do_handshake, reader_new.
  destruct (setup_initialize_legal _ _ _ _ Hd Hi) as (v1 & Ev1 & L1).
  destruct (setup_finalize_legal _ _ _ _ _ Hs) as (v2 & Ev2 & L2).
  rewrite Hi, Ev1, Ev2, (send_setup v1 (Some s1) [] L1).
  rewrite (next_delivered (Some s1) f1 b1 (b2 ++ rest) None _ Hf1 E1 Hc). cbn [String.eqb Ascii.eqb Bool.eqb].
  rewrite Hs, ?Ev2, (send_setup v2 _ _ L2).
  rewrite (next_delivered _ f2 b2 rest None _ Hf2 E2 Ha). reflexivity.
Qed.

Lemma session_delivered security ms :
  Forall (message_ok security) ms ->
  exists bytes, serialize_all (map frame_of ms) security = Ok bytes
    /\ start_loop security (reader_new bytes) = (map packet_of ms, Stopped StreamClosed).
Proof.
  intros Hms. destruct (start_loop_packets security (map frame_of ms) None) as (bytes & E & L).
  - apply Forall_map. eapply Forall_impl; [exact Hms|]. intros m Hm. apply message_transmissible, Hm.
  - exists bytes. split; [exact E|]. unfold reader_new. rewrite L. f_equal. clear E L.
    induction Hms as [|m ms Hm _ IH]; [reflexivity|]. cbn [map concat]. rewrite IH.
    rewrite (proj2 (message_transmissible security m Hm)). reflexivity.
Qed.

(** C1: A connection from its first byte to its last: a client that answers the
    initialization with an accepted challenge and acknowledges opens the
    connection; exactly the two setup packets are written, the security of the
    challenge is established, and all it sends from there on, encrypted or
    not, is delivered as it was, each packet once and in order. *)
Theorem connection_delivers (d : draws) (init : initialization_data) (s1 : security_state cipher)
    (f1 f2 : frame) (b key challenge : Z) (bf : cipher) (cs crs : Z) (v : val) (ms : list message)
    (Hd : draws_ok d) (Hi : initialize d Uninitialized = Ok (init, s1))
    (Hf1 : transmissible None f1)
    (Hc : delivered f1 = Some ("HandshakeChallenge"%string, VStruct [VNum b; VNum key]))
    (Hs : start_challenge b key s1 = Ok (challenge, Challenged bf cs crs))
    (Hf2 : transmissible None f2) (Ha : delivered f2 = Some ("HandshakeAccepted"%string, v))
    (Hms : Forall (message_ok (Some (Established bf (generate_count_seed cs) crs))) ms) :
  let s := Established bf (generate_count_seed cs) crs in
  exists opening session r,
    serialize_all [f1; f2] (@None (security_state cipher)) = Ok opening
    /\ serialize_all (map frame_of ms) (Some s) = Ok session
    /\ do_handshake d Uninitialized (reader_new (opening ++ session)) []
      = (Ok (), s, r, plain_bytes (setup_initialize init) ++ plain_bytes (setup_finalize challenge))
    /\ start_loop (Some s) r = (map packet_of ms, Stopped StreamClosed).
Proof.
  intros s.
  destruct (handshake_runs d init s1 f1 f2 b key challenge bf cs crs v Hd Hi Hf1 Hc Hs Hf2 Ha)
    as (opening & Eo & Hrun).
  destruct (session_delivered (Some s) ms Hms) as (session & Es & L).
  exists opening, session, (reader_new session). auto.
Qed.

(** Any other first answer ends the connection before a challenge is sent,
    with the security still uninitialized for encryption: a packet that is no
    challenge and a frame that decodes to nothing are errors, and a challenge
    with a wrong key panics the task. *)
Theorem handshake_refuses (d : draws) (init : initialization_data) (s1 : security_state cipher)
    (f : frame)
    (Hd : draws_ok d) (Hi : initialize d Uninitialized = Ok (init, s1)) (Hf : transmissible None f)
    (Hc : forall b key challenge s2,
       delivered f = Some ("HandshakeChallenge"%string, VStruct [VNum b; VNum key]) ->
       start_challenge b key s1 <> Ok (challenge, s2)) :
  exists bytes, serialize f (@None (security_state cipher)) = Ok bytes
    /\ forall rest,
      let '(result, s, r, out) := do_handshake d Uninitialized (reader_new (bytes ++ rest)) [] in
      s = s1 /\ r = reader_new rest /\ out = plain_bytes (setup_initialize init)
      /\ match delivered f with
         | Some (name, VStruct [VNum b; VNum key]) =>
             result = if String.eqb name "HandshakeChallenge" then Panic else Err NonHandshakePacketReceived
         | Some _ => result = Err NonHandshakePacketReceived
         | None => exists e, result = Err (StreamError (ProtocolError e))
         end.
Proof.
  destruct (serialized_frame_parses f (@None (security_state cipher))) as (bytes & E & _ & _); [apply Hf..|].
  exists bytes. split; [exact E|]. intros rest. unfold do_handshake, reader_new.
  destruct (setup_initialize_legal _ _ _ _ Hd Hi) as (v1 & Ev1 & L1).
  rewrite Hi, Ev1, (send_setup v1 (Some s1) [] L1), (next_plain (Some s1) f bytes rest None Hf E).
  unfold delivered in *. destruct Hf as (Hp & _ & _).
  destruct (received f) as [? ? opcode e data| |] eqn:Er;
    try (destruct f as [? ? ? [] ?| |]; discriminate).
  pose proof (deserialize_no_panic opcode data) as Hn.
  destruct (deserialize opcode data) as [[name v]|e'|]; [|cbn; repeat split; eauto|congruence].
  cbn [map_err]. destruct (String.eqb_spec name "HandshakeChallenge") as [->|Hne].
  - destruct v as [| | | | | | | |[|[b| | | | | | | | |] [|[key| | | | | | | | |] [|? ?]]]|]; try (repeat split; fail).
    pose proof (Hc b key) as Hc'. destruct (start_challenge b key s1) as [[challenge s2]|e'|];
      [destruct (Hc' challenge s2 eq_refl eq_refl)|repeat split..].
  - destruct v as [| | | | | | | |[|[b| | | | | | | | |] [|[key| | | | | | | | |] [|? ?]]]|]; repeat split.
Qed.

(** ** Massive packets *)

Definition containers (bodies : list (list Z)) : list frame := map (MassiveContainer 0 0) bodies.

Lemma start_loop_containers security op bodies : forall ps bytes rest,
  (0 < length bodies)%nat -> Z.of_nat (length bodies) < 2 ^ 16 ->
  Forall (fun b => frame_ok (MassiveContainer 0 0 b) = true) bodies ->
  Forall2 (fun b p => deserialize op b = Ok p) bodies ps ->
  serialize_all (containers bodies) security = Ok bytes ->
  start_loop security {| inner := bytes ++ rest; massive_packet := Some (op, Z.of_nat (length bodies)) |}
  = let '(ps', e) := start_loop security (reader_new rest) in (ps ++ ps', e).
Proof.
  induction bodies as [|b bodies IH]; [cbn; lia|]. intros ps bytes rest _ Hn Hok Hp E.
  apply Forall_cons in Hok as [Hb Hok]. apply Forall2_cons_inv_l in Hp as (p & ps' & Ep & Hps & ->).
  cbn [containers map serialize_all] in E.
  destruct (serialized_frame_parses (MassiveContainer 0 0 b) security Hb I) as (b1 & E1 & _ & _).
  rewrite E1 in E. cbn [mbind outcome_bind] in E. apply bind_ok in E as (b2 & E2 & E). injection E as <-.
  rewrite start_loop_eq, <- app_assoc, (next_frame security (MassiveContainer 0 0 b) b1 _ _ Hb I E1).
  cbn [received on_frame massive_packet]. rewrite Ep. cbn [map_err with_massive inner].
  cbn [length] in Hn |- *. rewrite wrap_small by (apply fits_spec; lia).
  replace (Z.of_nat (S (length bodies)) - 1) with (Z.of_nat (length bodies)) by lia.
  destruct bodies as [|b' bodies].
  - apply Forall2_nil_inv_l in Hps as ->. cbn in E2. injection E2 as <-. reflexivity.
  - rewrite (proj2 (Z.ltb_lt _ _)) by (cbn [length]; lia). unfold with_massive. cbn [inner].
    rewrite (IH ps' b2 rest); [|cbn [length] in *; lia|cbn [length] in *; lia|assumption..].
    destruct (start_loop security (reader_new rest)). reflexivity.
Qed.

(** A massive packet whose header announces as many containers as follow
    it is delivered container by container, each decoded with the contained
    opcode, after which the reader accepts ordinary frames again. *)
Theorem massive_packet_delivered security (op : Z) (bodies : list (list Z)) (ps : list packet)
    (Hop : fits 16 op = true) (Hne : bodies <> []) (Hn : Z.of_nat (length bodies) < 2 ^ 16)
    (Hok : Forall (fun b => frame_ok (MassiveContainer 0 0 b) = true) bodies)
    (Hps : Forall2 (fun b p => deserialize op b = Ok p) bodies ps) :
  exists bytes,
    serialize_all (MassiveHeader 0 0 op (Z.of_nat (length bodies)) :: containers bodies) security = Ok bytes
    /\ forall rest, start_loop security (reader_new (bytes ++ rest))
      = let '(ps', e) := start_loop security (reader_new rest) in (ps ++ ps', e).
Proof.
  assert (Hh : frame_ok (MassiveHeader 0 0 op (Z.of_nat (length bodies))) = true).
  { cbn [frame_ok]. rewrite Hop. cbn [andb]. rewrite (proj2 (fits_spec 16 (Z.of_nat (length bodies)))) by lia.
    reflexivity. }
  destruct (serialized_frame_parses _ security Hh I) as (b1 & E1 & _ & _).
  destruct (frame_stream (containers bodies) security) as (b2 & E2).
  { apply Forall_map. eapply Forall_impl; [exact Hok|]. intros b Hb. exact (conj Hb I). }
  exists (b1 ++ b2). cbn [serialize_all]. rewrite E1, E2. split; [reflexivity|]. intros rest.
  rewrite <- app_assoc. unfold reader_new at 1.
  rewrite start_loop_eq, (next_frame security _ b1 _ None Hh I E1).
  cbn [received on_frame massive_packet with_massive inner]. rewrite <- start_loop_eq.
  apply start_loop_containers; try assumption. destruct bodies; [congruence|cbn; lia].
Qed.

End Facts.

(** A packet split over two containers is not put together again, although
    the frames made for a large server packet are split that way: the reader
    decodes each container on its own, so that neither part of a legal
    LoginRequest arrives. *)
Theorem split_packet_not_reassembled :
  exists v bs part1 part2 bytes,
    legal LoginRequest v = true /\ to_bytes LoginRequest v = Some bs /\ bs = part1 ++ part2
    /\ serialize_all (MassiveHeader 0 0 0x610A 2 :: containers [part1; part2])
         (@None (security_state Z)) = Ok bytes
    /\ start_loop (@None (security_state Z)) (reader_new bytes) = ([], Stopped StreamClosed).
Proof.
  pose (v := VStruct [VNum 22; VStr (chars "user"); VStr (chars "pw"); VNum 64; VNum 0]).
  exists v.
  exists (default [] (to_bytes LoginRequest v)), (firstn 4 (default [] (to_bytes LoginRequest v))),
    (skipn 4 (default [] (to_bytes LoginRequest v))).
  eexists. repeat split; vm_compute; reflexivity.
Qed.

(** A massive header that announces no container makes the reader expect
    65535 more after the first one, and the next massive header then ends the
    connection. *)
Theorem massive_zero_count :
  exists bytes,
    serialize_all [MassiveHeader 0 0 0x2002 0; MassiveContainer 0 0 []; MassiveHeader 0 0 0x2002 1]
      (@None (security_state Z)) = Ok bytes
    /\ start_loop (@None (security_state Z)) (reader_new bytes)
       = ([("KeepAlive"%string, VStruct [])], Stopped (UnconsumedMassivePacket 65535)).
Proof.
  exists [6; 0; 0x0D; 0x60; 0; 0; 1; 0; 0; 2; 0x20; 0; 1; 0; 0x0D; 0x60; 0; 0; 0;
          6; 0; 0x0D; 0x60; 0; 0; 1; 1; 0; 2; 0x20; 0].
  split; vm_compute; reflexivity.
Qed.

(** ** Witnesses *)

Lemma malformed_packets_skipped_witness :
  exists bytes,
    serialize_all [Packet 0 0 0x1234 false [1; 2]; Packet 0 0 0x2002 false []] (@None (security_state Z)) = Ok bytes
    /\ start_loop (@None (security_state Z)) (reader_new bytes)
       = ([("KeepAlive"%string, VStruct [])], Stopped StreamClosed).
Proof.
  apply (malformed_packets_skipped None [Packet 0 0 0x1234 false [1; 2]; Packet 0 0 0x2002 false []]).
  repeat constructor.
Defined.

Definition chat : message :=
  {| msg_opcode := 0x7025; msg_name := "ChatMessage"; msg_type := ChatMessage;
     msg_value := VStruct [VEnum "PrivateMessage" []; VNum 1; VBool false; VNum 0;
                           VOpt (Some (VStr (chars "Bob"))); VStr (chars "hi")];
     msg_encrypted := false; msg_count := 3; msg_crc := 9 |}.
Definition keep_alive : message :=
  {| msg_opcode := 0x2002; msg_name := "KeepAlive"; msg_type := KeepAlive; msg_value := VStruct [];
     msg_encrypted := true; msg_count := 0; msg_crc := 0 |}.

Lemma massive_packet_delivered_witness :
  exists bytes,
    serialize_all (MassiveHeader 0 0 0x2002 2 :: containers [[]; []]) (@None (security_state Z)) = Ok bytes
    /\ forall rest, start_loop (@None (security_state Z)) (reader_new (bytes ++ rest))
      = let '(ps', e) := start_loop None (reader_new rest) in
        ([("KeepAlive"%string, VStruct []); ("KeepAlive"%string, VStruct [])] ++ ps', e).
Proof.
  apply (massive_packet_delivered (cipher := Z) None 0x2002 [[]; []]); try discriminate; repeat constructor.
Defined.

(** The client of [example_handshake] on the wire. *)
Definition client_key : Z :=
  let a := 5 ^ 6 mod 23 in
  let k := client_secret 23 15 a in
  seal (cipher := Z) (le_num (le_bytes 8 (exchange_key a 19 k))) (client_proof a 19 k).
Definition challenge_frame : frame := Packet 0 0 0x5000 false (le_bytes 4 19 ++ le_bytes 8 client_key).
Definition accepted_frame : frame := Packet 0 0 0x9000 false [].

Lemma connection_delivers_witness :
  exists opening session r (s : security_state Z) out,
    serialize_all [challenge_frame; accepted_frame] (@None (security_state Z)) = Ok opening
    /\ serialize_all (map frame_of [chat; keep_alive; chat]) (Some s) = Ok session
    /\ do_handshake example_draws Uninitialized (reader_new (opening ++ session)) [] = (Ok (), s, r, out)
    /\ start_loop (Some s) r = (map packet_of [chat; keep_alive; chat], Stopped StreamClosed).
Proof.
  edestruct (connection_delivers (cipher := Z) example_draws) with (f1 := challenge_frame)
    (f2 := accepted_frame) (ms := [chat; keep_alive; chat]) as (opening & session & r & E1 & E2 & H & L);
    [repeat split | vm_compute; reflexivity | repeat split | vm_compute; reflexivity
    | vm_compute; reflexivity | repeat split | vm_compute; reflexivity
    | repeat constructor; try discriminate; eauto |].
  exists opening, session, r. do 2 eexists. split; [exact E1|]. split; [exact E2|]. split; [exact H | exact L].
Defined.

Lemma handshake_refuses_witness :
  exists bytes init s1,
    serialize accepted_frame (@None (security_state Z)) = Ok bytes
    /\ initialize (cipher := Z) example_draws Uninitialized = Ok (init, s1)
    /\ forall rest,
      let '(result, s, r, out) := do_handshake example_draws Uninitialized (reader_new (bytes ++ rest)) [] in
      s = s1 /\ r = reader_new rest /\ out = plain_bytes (setup_initialize init)
      /\ result = Err NonHandshakePacketReceived.
Proof.
  edestruct (handshake_refuses (cipher := Z) example_draws) with (f := accepted_frame) as (bytes & E & H);
    [repeat split | vm_compute; reflexivity | repeat split | discriminate |].
  exists bytes. do 2 eexists. split; [exact E|]. split; [vm_compute; reflexivity | exact H].
Defined.
