(* ===== verification/Network.v ===== *)
(** silkroad-network/src/server.rs and sid.rs, and the tasks and channels of
    stream.rs: how connections are accepted, and what is between the task that
    reads a socket, the task that writes it, and the game.

    A task does one round of its loop at a time; the rounds of all tasks, the
    calls of the game and the failures of sockets come in any order, which is a
    list of operations. The two channels are unbounded queues. *)
From stdpp Require Import base list option strings.
From Stdlib Require Import ZArith Lia.
From S2P Require Import Prelude Utf Serde Schema Packets Security Frame Stream.

(** ** sid.rs *)

(** [StreamId::new]: the number of the pool, which is advanced. *)
Definition stream_id_new (pool : Z) : Z * Z := (pool, wrap 64 (pool + 1)).

Section Network.
Context {cipher : Type} `{!BlockCipher cipher}.

(** ** stream.rs *)

(** A stream and its tasks: the reader of the reading task until it ends, the
    packets in the channel to the game and in the one from it, whether the
    writing task runs, the bytes it has written, and whether the game holds the
    stream. *)
Record Connection := {
  stream_id : Z;
  security : option (security_state cipher);
  reader : option StreamReader;
  incoming : list packet;
  outgoing : list packet;
  writing : bool;
  written : list Z;
  held : bool;
}.

Definition with_reader (r : option StreamReader) (c : Connection) : Connection :=
  {| stream_id := c.(stream_id); security := c.(security); reader := r; incoming := c.(incoming);
     outgoing := c.(outgoing); writing := c.(writing); written := c.(written); held := c.(held) |}.
Definition with_incoming (ps : list packet) (c : Connection) : Connection :=
  {| stream_id := c.(stream_id); security := c.(security); reader := c.(reader); incoming := ps;
     outgoing := c.(outgoing); writing := c.(writing); written := c.(written); held := c.(held) |}.
Definition with_outgoing (ps : list packet) (out : list Z) (c : Connection) : Connection :=
  {| stream_id := c.(stream_id); security := c.(security); reader := c.(reader); incoming := c.(incoming);
     outgoing := ps; writing := c.(writing); written := out; held := c.(held) |}.

(** The end of the writing task drops its side of the channel and what is in it. *)
Definition stop_writing (c : Connection) : Connection :=
  {| stream_id := c.(stream_id); security := c.(security); reader := c.(reader); incoming := c.(incoming);
     outgoing := []; writing := false; written := c.(written); held := c.(held) |}.

(** A round of [StreamReader::start_loop]. A panic ends the task as well. *)
Definition read_round (c : Connection) : Connection :=
  match c.(reader) with
  | None => c
  | Some r =>
      match next c.(security) r with
      | (Ok p, r) =>
          if c.(held) then with_incoming (c.(incoming) ++ [p]) (with_reader (Some r) c)
          else with_reader None c
      | (Err (ProtocolError _), r) => with_reader (Some r) c
      | (Err _, _) | (Panic, _) => with_reader None c
      end
  end.

(** A round of [StreamWriter::start_loop]: it waits while the channel is empty
    and open. *)
Definition write_round (c : Connection) : Connection :=
  if negb c.(writing) then c
  else match c.(outgoing) with
  | [] => if c.(held) then c else stop_writing c
  | p :: ps =>
      match send p c.(security) c.(written) with
      | Ok out => with_outgoing ps out c
      | _ => stop_writing c
      end
  end.

(** The read half fails while the reader waits for more bytes: the error ends the
    loop, whatever else the peer has sent. *)
Definition read_fails (c : Connection) : Connection := with_reader None c.

(** The write half fails while a packet is written, of which [n] bytes were
    taken; the loop breaks. *)
Definition write_fails (n : nat) (c : Connection) : Connection :=
  if negb c.(writing) then c
  else match c.(outgoing) with
  | [] => c
  | p :: _ =>
      match send p c.(security) c.(written) with
      | Ok out => stop_writing (with_outgoing [] (take (length c.(written) + n) out) c)
      | _ => stop_writing c
      end
  end.

(** [Stream::has_activity], [received], [send] and [is_disconnected]. *)
Definition has_activity (c : Connection) : bool := negb (bool_decide (c.(incoming) = [])).

Definition received (c : Connection) : outcome stream_error (option packet) * Connection :=
  match c.(incoming) with
  | p :: ps => (Ok (Some p), with_incoming ps c)
  | [] => (match c.(reader) with Some _ => Ok None | None => Err StreamClosed end, c)
  end.

Definition stream_send (p : packet) (c : Connection) : outcome stream_error unit * Connection :=
  if c.(writing) then (Ok (), with_outgoing (c.(outgoing) ++ [p]) c.(written) c)
  else (Err StreamClosed, c).

Definition is_disconnected (c : Connection) : bool := negb c.(writing).

(** The game lets the stream go. *)
Definition drop_stream (c : Connection) : Connection :=
  {| stream_id := c.(stream_id); security := c.(security); reader := c.(reader); incoming := [];
     outgoing := c.(outgoing); writing := c.(writing); written := c.(written); held := false |}.

(** [impl PartialEq for Stream] *)
Definition same_stream (a b : Connection) : bool := a.(stream_id) =? b.(stream_id).

Inductive operation :=
| Reads
| ReadFails
| Writes
| WriteFails (n : nat)
| Receives
| Sends (p : packet)
| Drops.

(** What the game is answered. *)
Inductive answer :=
| Received (r : outcome stream_error (option packet))
| Sent (p : packet) (r : outcome stream_error unit).

Definition perform (o : operation) (c : Connection) : Connection * list answer :=
  match o with
  | Reads => (read_round c, [])
  | ReadFails => (read_fails c, [])
  | Writes => (write_round c, [])
  | WriteFails n => (write_fails n c, [])
  | Receives => if c.(held) then let '(r, c) := received c in (c, [Received r]) else (c, [])
  | Sends p => if c.(held) then let '(r, c) := stream_send p c in (c, [Sent p r]) else (c, [])
  | Drops => (drop_stream c, [])
  end.

Fixpoint run (os : list operation) (c : Connection) : Connection * list answer :=
  match os with
  | [] => (c, [])
  | o :: os => let '(c, a) := perform o c in let '(c, answers) := run os c in (c, a ++ answers)
  end.

(** [init_stream] on the bytes the peer sends: the result, the security, the
    reader, and the bytes written. *)
Definition init_stream (d : draws) (bytes : list Z) (enable_encryption : bool)
    : outcome handshake_error unit * option (security_state cipher) * StreamReader * list Z :=
  if enable_encryption then
    let '(r, s, reader, out) := do_handshake d Uninitialized (reader_new bytes) [] in (r, Some s, reader, out)
  else (Ok (), None, reader_new bytes, []).

(** [accept_with_enc] with an identifier that was taken from the pool, and [accept]. *)
Definition accept_with_enc (id : Z) (d : draws) (bytes : list Z) (enable_encryption : bool)
    : outcome handshake_error Connection :=
  match init_stream d bytes enable_encryption with
  | (Ok _, s, r, out) =>
      Ok {| stream_id := id; security := s; reader := Some r; incoming := []; outgoing := []; writing := true;
            written := out; held := true |}
  | (Err e, _, _, _) => Err e
  | (Panic, _, _, _) => Panic
  end.

Definition accept (id : Z) (d : draws) (bytes : list Z) : outcome handshake_error Connection :=
  accept_with_enc id d bytes true.

(** ** server.rs *)

(** A socket: the draws of its handshake and the bytes of its peer. *)
Definition socket : Type := draws * list Z.

(** The pool of identifiers; whether the listening task runs and is asked to end;
    the sockets whose tasks have not begun, those in their handshake, and the
    streams in the channel to the game. *)
Record Server := {
  id_pool : Z;
  listening : bool;
  shutdown_token : bool;
  accepted : list socket;
  handshaking : list (Z * socket);
  stream_receiver : list Connection;
}.

Definition server_new (pool : Z) : Server :=
  {| id_pool := pool; listening := true; shutdown_token := false; accepted := []; handshaking := []; stream_receiver := [] |}.

Definition with_sockets (a : list socket) (s : Server) : Server :=
  {| id_pool := s.(id_pool); listening := s.(listening); shutdown_token := s.(shutdown_token); accepted := a;
     handshaking := s.(handshaking); stream_receiver := s.(stream_receiver) |}.
Definition with_streams (hs : list (Z * socket)) (streams : list Connection) (s : Server) : Server :=
  {| id_pool := s.(id_pool); listening := s.(listening); shutdown_token := s.(shutdown_token); accepted := s.(accepted);
     handshaking := hs; stream_receiver := streams |}.
Definition with_listening (l t : bool) (s : Server) : Server :=
  {| id_pool := s.(id_pool); listening := l; shutdown_token := t; accepted := s.(accepted);
     handshaking := s.(handshaking); stream_receiver := s.(stream_receiver) |}.

(** [SilkroadServer::connected]: all streams that wait. *)
Definition connected (s : Server) : list Connection * Server :=
  (s.(stream_receiver), with_streams s.(handshaking) [] s).

Definition shutdown (s : Server) : Server := with_listening s.(listening) true s.

Inductive server_operation :=
| Accepts (client : socket)
| ListenerEnds
| Starts (i : nat)
| Finishes (i : nat)
| Breaks (i : nat)
| Connected
| ShutsDown.

(** The streams that are handed to the game, next to the server. A handshake
    ends with the bytes of its peer, or before that when its socket fails. *)
Definition server_perform (o : server_operation) (s : Server) : Server * list Connection :=
  match o with
  | Accepts client => if s.(listening) then (with_sockets (s.(accepted) ++ [client]) s, []) else (s, [])
  | ListenerEnds => (with_listening (s.(listening) && negb s.(shutdown_token)) s.(shutdown_token) s, [])
  | Starts i =>
      match s.(accepted) !! i with
      | Some client =>
          let '(id, pool) := stream_id_new s.(id_pool) in
          ({| id_pool := pool; listening := s.(listening); shutdown_token := s.(shutdown_token);
              accepted := delete i s.(accepted); handshaking := s.(handshaking) ++ [(id, client)];
              stream_receiver := s.(stream_receiver) |}, [])
      | None => (s, [])
      end
  | Finishes i =>
      match s.(handshaking) !! i with
      | Some (id, (d, bytes)) =>
          let hs := delete i s.(handshaking) in
          match accept id d bytes with
          | Ok stream => (with_streams hs (s.(stream_receiver) ++ [stream]) s, [])
          | _ => (with_streams hs s.(stream_receiver) s, [])
          end
      | None => (s, [])
      end
  | Breaks i =>
      match s.(handshaking) !! i with
      | Some _ => (with_streams (delete i s.(handshaking)) s.(stream_receiver) s, [])
      | None => (s, [])
      end
  | Connected => let '(streams, s) := connected s in (s, streams)
  | ShutsDown => (shutdown s, [])
  end.

Fixpoint server_run (os : list server_operation) (s : Server) : Server * list Connection :=
  match os with
  | [] => (s, [])
  | o :: os => let '(s, a) := server_perform o s in let '(s, streams) := server_run os s in (s, a ++ streams)
  end.

End Network.
