(* ===== verification/NetworkSpec.v ===== *)
(** Connections between their tasks: whatever the order of the rounds, the game
    receives what was read of the peer, in order and before it is told of the
    end, and the peer is written what the game sent, in order, up to a failure; a stream the game lets go is written to its end;
    no two streams have the same identifier. *)
From stdpp Require Import base list option strings.
From Stdlib Require Import ZArith Lia.
From S2P Require Import Prelude Utf Serde Schema ProtoGeneral Packets Security SecuritySpec Frame FrameFacts Stream StreamSpec Network.

Section NetworkSpec.
Context {cipher : Type} `{!BlockCipher cipher}.
Implicit Type c : Connection (cipher := cipher).
Implicit Type s : option (security_state cipher).

(** ** Channels *)

(** What the game received, and what it sent while the writer ran. *)
Definition packets_received (answers : list answer) : list packet :=
  omap (fun a => match a with Received (Ok (Some p)) => Some p | _ => None end) answers.
Definition packets_taken (answers : list answer) : list packet :=
  omap (fun a => match a with Sent p (Ok _) => Some p | _ => None end) answers.

Fixpoint send_each (ps : list packet) s (out : list Z) : outcome stream_error (list Z) :=
  match ps with
  | [] => Ok out
  | p :: ps => out ← send p s out; send_each ps s out
  end.

Lemma send_each_app ps qs s out : send_each (ps ++ qs) s out = (out ← send_each ps s out; send_each qs s out).
Proof.
  revert out. induction ps as [|p ps IH]; intros out; [reflexivity|]. cbn [send_each app].
  destruct (send p s out) as [o| |]; cbn [mbind outcome_bind]; [apply IH|reflexivity..].
Qed.

(** What the reading task will still deliver. *)
Definition to_come c : list packet :=
  match c.(reader) with Some r => (start_loop c.(security) r).1 | None => [] end.

(** A stream as it is accepted. *)
Definition fresh c : Prop := c.(incoming) = [] /\ c.(outgoing) = [] /\ c.(writing) = true /\ c.(held) = true.

(** What a failing write leaves: the packet behind those that were written, cut. *)
Definition cut_in c out (rest : list packet) : Prop :=
  exists p ps whole, rest = p :: ps /\ send p c.(security) out = Ok whole
    /\ out `prefix_of` c.(written) /\ c.(written) `prefix_of` whole.

(** The state of the channels after some answers, when reading and writing have
    not failed so far or may have. *)
Record channels (c0 c : Connection (cipher := cipher)) (answers : list answer) (reads_on writes_on : bool) : Prop := {
  same_security : c.(security) = c0.(security);
  in_order : exists tail, packets_received answers ++ c.(incoming) ++ tail = to_come c0
    /\ (c.(held) = true -> reads_on = true -> tail = to_come c);
  reading_failed : reads_on = false -> c.(reader) = None;
  all_told : Received (Err StreamClosed) ∈ answers -> c.(incoming) = [] /\ c.(reader) = None;
  to_the_end : reads_on = true -> Received (Err StreamClosed) ∈ answers -> packets_received answers = to_come c0;
  out_order : exists done out rest, packets_taken answers = done ++ rest
    /\ send_each done c0.(security) c0.(written) = Ok out
    /\ (c.(writing) = true -> rest = c.(outgoing) /\ c.(written) = out)
    /\ (c.(written) = out \/ writes_on = false /\ cut_in c out rest);
}.

Lemma channels_fresh c : fresh c -> channels c c [] true true.
Proof.
  intros (Hi & Ho & Hw & Hh). split; [reflexivity| |discriminate|intros Hin; inversion Hin|intros _ Hin; inversion Hin|].
  - exists (to_come c). rewrite Hi. auto.
  - exists [], c.(written), []. rewrite Ho. auto 6.
Qed.

Lemma to_come_next c r : c.(reader) = Some r ->
  to_come c = match next c.(security) r with
    | (Ok p, r) => p :: (start_loop c.(security) r).1
    | (Err (ProtocolError _), r) => (start_loop c.(security) r).1
    | _ => []
    end.
Proof.
  intros E. unfold to_come. rewrite E, start_loop_eq. destruct (next (security c) r) as [[p|[]|] r']; try reflexivity.
  destruct (start_loop _ r') as [ps e]. reflexivity.
Qed.

Lemma channels_read c0 c answers ro wo : channels c0 c answers ro wo -> channels c0 (read_round c) answers ro wo.
Proof.
  intros Hc. pose proof Hc as [Hs (tail & Ht & Hl) Hf Ha He Ho]. unfold read_round.
  destruct (reader c) as [r|] eqn:Er; [|exact Hc]. pose proof (to_come_next c r Er) as Hn.
  assert (Hno : Received (Err StreamClosed) ∈ answers -> False) by (intros Hin; destruct (Ha Hin) as [_ E]; discriminate E).
  destruct ro; [|discriminate (Hf eq_refl)].
  destruct (next (security c) r) as [[p|e|] r'].
  - destruct (held c) eqn:Eh.
    + split; try assumption; try (intros; exfalso; auto; discriminate).
      exists (start_loop (security c) r').1. cbn [with_incoming with_reader incoming].
      specialize (Hl eq_refl eq_refl). rewrite <- Ht, Hl, Hn, <- app_assoc. split; reflexivity.
    + split; try assumption; try (intros; exfalso; auto; discriminate). exists tail. split; [exact Ht|]. cbn. congruence.
  - destruct e; (split; try assumption; try (intros; exfalso; auto; discriminate)); exists tail; (split; [exact Ht|]); cbn [with_reader held];
      intros Hh _; rewrite (Hl Hh eq_refl), Hn; reflexivity.
  - split; try assumption; try (intros; exfalso; auto; discriminate). exists tail. split; [exact Ht|]. intros Hh _. rewrite (Hl Hh eq_refl), Hn. reflexivity.
Qed.

Lemma channels_read_fails c0 c answers ro wo : channels c0 c answers ro wo -> channels c0 (read_fails c) answers false wo.
Proof.
  intros [Hs (tail & Ht & _) Hf Ha He Ho]. split; try assumption; try discriminate; auto.
  - exists tail. split; [exact Ht|discriminate].
  - intros Hin. split; [apply Ha, Hin|reflexivity].
Qed.

Lemma channels_stopped c0 c answers ro wo : channels c0 c answers ro wo -> channels c0 (stop_writing c) answers ro wo.
Proof.
  intros [Hs Hi Hf Ha He (done & out & rest & Ht & Ho & _ & Hc)]. split; try assumption.
  exists done, out, rest. split; [exact Ht|]. split; [exact Ho|]. split; [discriminate|exact Hc].
Qed.

Lemma channels_write c0 c answers ro wo : channels c0 c answers ro wo -> channels c0 (write_round c) answers ro wo.
Proof.
  intros Hc. pose proof (channels_stopped c0 c answers ro wo Hc) as Hstop. unfold write_round.
  destruct (writing c) eqn:Ew; [|exact Hc]. cbn [negb]. destruct (outgoing c) as [|p ps] eqn:Eo.
  { destruct (held c); [exact Hc|exact Hstop]. }
  destruct (send p (security c) (written c)) as [out| |] eqn:Es; try exact Hstop.
  destruct Hc as [Hs Hi Hf Ha He (done & out0 & rest & Ht & Ho & Hw & _)]. split; try assumption.
  destruct (Hw Ew) as [-> <-]. rewrite Eo in Ht.
  exists (done ++ [p]), out, ps. split; [rewrite <- app_assoc; exact Ht|]. split; [|auto].
  rewrite send_each_app, Ho. cbn [mbind outcome_bind send_each]. rewrite <- Hs, Es. reflexivity.
Qed.

Lemma send_all_extends fs s : forall out out', send_all fs s out = Ok out' -> out `prefix_of` out'.
Proof.
  induction fs as [|f fs IH]; intros out out'; cbn [send_all]; [intros [= ->]; reflexivity|].
  unfold encode. destruct (serialize f s) as [bytes| |]; try discriminate. cbn [mbind outcome_bind map_err]. intros E%IH.
  etransitivity; [|exact E]. exists bytes. reflexivity.
Qed.

Lemma send_extends p s out out' : send p s out = Ok out' -> out `prefix_of` out'.
Proof. unfold send. destruct (create_for p); [apply send_all_extends|discriminate]. Qed.

Lemma channels_write_fails n c0 c answers ro wo : channels c0 c answers ro wo -> channels c0 (write_fails n c) answers ro false.
Proof.
  intros Hc. assert (Hweak : forall c', channels c0 c' answers ro wo -> channels c0 c' answers ro false).
  { intros c' [Hs Hi Hf Ha He (done & out & rest & Ht & Ho & Hw & Hx)]. split; try assumption.
    exists done, out, rest. repeat (split; [assumption|]). destruct Hx as [Hx|[_ Hx]]; auto. }
  unfold write_fails. destruct (writing c) eqn:Ew; [|auto]. cbn [negb]. destruct (outgoing c) as [|p ps] eqn:Eo; [auto|].
  destruct (send p (security c) (written c)) as [whole| |] eqn:Es; auto using channels_stopped.
  destruct Hc as [Hs Hi Hf Ha He (done & out & rest & Ht & Ho & Hw & _)]. split; try assumption.
  destruct (Hw Ew) as [-> Hout]. exists done, out, (outgoing c). split; [exact Ht|]. split; [exact Ho|]. split; [discriminate|].
  right. split; [reflexivity|]. exists p, ps, whole. rewrite <- Hout. split; [exact Eo|]. split; [exact Es|].
  destruct (send_extends _ _ _ _ Es) as [more ->]. cbn [stop_writing with_outgoing written]. split.
  - exists (take n more). rewrite take_app_add. reflexivity.
  - exists (drop n more). rewrite take_app_add, <- app_assoc, take_drop. reflexivity.
Qed.

Lemma packets_received_app a b : packets_received (a ++ b) = packets_received a ++ packets_received b.
Proof. apply omap_app. Qed.
Lemma packets_taken_app a b : packets_taken (a ++ b) = packets_taken a ++ packets_taken b.
Proof. apply omap_app. Qed.

Lemma channels_receive c0 c answers ro wo : c.(held) = true -> channels c0 c answers ro wo ->
  channels c0 (received c).2 (answers ++ [Received (received c).1]) ro wo.
Proof.
  intros Hh [Hs (tail & Ht & Hl) Hf Ha He Ho]. specialize (Hl Hh).
  assert (Hsame : forall r, packets_taken (answers ++ [Received r]) = packets_taken answers).
  { intros r. rewrite packets_taken_app. apply app_nil_r. }
  unfold received. destruct (incoming c) as [|p ps] eqn:Ei.
  - cbn [fst snd]. set (r := match reader c with Some _ => Ok None | None => Err StreamClosed end).
    assert (Hr : packets_received (answers ++ [Received r]) = packets_received answers).
    { rewrite packets_received_app. unfold r. destruct (reader c); apply app_nil_r. }
    assert (Hin : Received (Err StreamClosed) ∈ answers ++ [Received r] -> Received (Err StreamClosed) ∈ answers \/ reader c = None).
    { rewrite elem_of_app, list_elem_of_singleton. unfold r. destruct (reader c); [intros [Hin|E]; [auto|discriminate]|auto]. }
    split; [assumption| |assumption| | |rewrite Hsame; exact Ho]; rewrite ?Hr.
    + exists tail. rewrite Ei. auto.
    + intros [H|H]%Hin; [apply Ha in H|]; tauto.
    + intros Hro [H|Er]%Hin; [exact (He Hro H)|]. rewrite <- Ht, (Hl Hro). unfold to_come. rewrite Er, !app_nil_r. reflexivity.
  - cbn [fst snd]. assert (Hr : packets_received (answers ++ [Received (Ok (Some p))]) = packets_received answers ++ [p]).
    { rewrite packets_received_app. reflexivity. }
    assert (Hno : Received (Err StreamClosed) ∈ answers ++ [Received (Ok (Some p))] -> False).
    { rewrite elem_of_app, list_elem_of_singleton. intros [Hin|E]; [|discriminate]. destruct (Ha Hin). discriminate. }
    split; [assumption| |assumption| | |rewrite Hsame; exact Ho]; rewrite ?Hr; try (intros; exfalso; auto; fail).
    exists tail. cbn [with_incoming incoming]. rewrite <- app_assoc. split; [exact Ht|]. intros _. exact Hl.
Qed.

Lemma channels_send c0 c p answers ro wo : c.(held) = true -> channels c0 c answers ro wo ->
  channels c0 (stream_send p c).2 (answers ++ [Sent p (stream_send p c).1]) ro wo.
Proof.
  intros Hh [Hs Hi Hf Ha He (done & out & rest & Ht & Ho & Hw & Hx)].
  assert (Hr : forall r, packets_received (answers ++ [Sent p r]) = packets_received answers).
  { intros r. rewrite packets_received_app. apply app_nil_r. }
  assert (Hc : forall r, Received (Err StreamClosed) ∈ answers ++ [Sent p r] -> Received (Err StreamClosed) ∈ answers).
  { intros r. rewrite elem_of_app, list_elem_of_singleton. intros [Hin|E]; [exact Hin|discriminate]. }
  unfold stream_send. destruct (writing c) eqn:Ew; cbn [fst snd].
  - split; rewrite ?Hr; try assumption; [intros Hin; exact (Ha (Hc _ Hin))|intros Hro Hin; exact (He Hro (Hc _ Hin))|].
    destruct (Hw eq_refl) as [-> <-]. exists done, (written c), (outgoing c ++ [p]).
    rewrite packets_taken_app, Ht, <- app_assoc. split; [reflexivity|]. auto.
  - split; rewrite ?Hr; try assumption; [intros Hin; exact (Ha (Hc _ Hin))|intros Hro Hin; exact (He Hro (Hc _ Hin))|].
    exists done, out, rest. rewrite packets_taken_app. unfold packets_taken at 2. cbn [omap list_omap]. rewrite app_nil_r.
    split; [exact Ht|]. split; [exact Ho|]. rewrite Ew. split; [discriminate|exact Hx].
Qed.

Lemma channels_drop c0 c answers ro wo : channels c0 c answers ro wo -> channels c0 (drop_stream c) answers ro wo.
Proof.
  intros [Hs (tail & Ht & Hl) Hf Ha He Ho]. split; try assumption.
  - exists (incoming c ++ tail). split; [exact Ht|discriminate].
  - intros Hin. split; [reflexivity|apply (Ha Hin)].
Qed.

(** The failures among some operations. *)
Definition read_failure (o : operation) : bool := match o with ReadFails => true | _ => false end.
Definition write_failure (o : operation) : bool := match o with WriteFails _ => true | _ => false end.

Lemma channels_perform c0 o c answers ro wo : channels c0 c answers ro wo ->
  channels c0 (perform o c).1 (answers ++ (perform o c).2) (ro && negb (read_failure o)) (wo && negb (write_failure o)).
Proof.
  intros Hc. destruct o; cbn [perform fst snd read_failure write_failure negb]; rewrite ?app_nil_r, ?andb_true_r, ?andb_false_r;
    eauto using channels_read, channels_read_fails, channels_write, channels_write_fails, channels_drop.
  - destruct (held c) eqn:Eh; [|cbn [fst snd]; rewrite app_nil_r; exact Hc].
    pose proof (channels_receive c0 c answers ro wo Eh Hc) as Hr. destruct (received c) as [r c']. exact Hr.
  - destruct (held c) eqn:Eh; [|cbn [fst snd]; rewrite app_nil_r; exact Hc].
    pose proof (channels_send c0 c p answers ro wo Eh Hc) as Hr. destruct (stream_send p c) as [r c']. exact Hr.
Qed.

Lemma channels_run c0 os : forall c answers ro wo, channels c0 c answers ro wo ->
  channels c0 (run os c).1 (answers ++ (run os c).2)
    (ro && negb (existsb read_failure os)) (wo && negb (existsb write_failure os)).
Proof.
  induction os as [|o os IH]; intros c answers ro wo Hc; cbn [run existsb negb]; [cbn; rewrite app_nil_r, !andb_true_r; exact Hc|].
  pose proof (channels_perform c0 o c answers ro wo Hc) as Hp. destruct (perform o c) as [c' a]. cbn [fst snd] in Hp.
  specialize (IH c' _ _ _ Hp). destruct (run os c') as [c2 answers2]. cbn [fst snd] in *.
  rewrite !negb_orb, !andb_assoc, app_assoc. exact IH.
Qed.

Lemma accepted_fresh id d bytes e c : accept_with_enc id d bytes e = Ok c -> fresh c /\ c.(stream_id) = id /\ exists r, c.(reader) = Some r.
Proof.
  unfold accept_with_enc. destruct (init_stream d bytes e) as [[[[[]| |] s] r] out]; try discriminate.
  intros E. injection E as <-. split; [repeat split|]. split; [reflexivity|]. exists r. reflexivity.
Qed.

(** What of the packets the game sent is written: those up to the one at which
    the writer stopped; a failing write may cut the next one. *)
Definition written_in_order c0 c (answers : list answer) (failed : bool) : Prop :=
  exists done out, done `prefix_of` packets_taken answers /\ send_each done c0.(security) c0.(written) = Ok out
    /\ (failed = false -> c.(written) = out)
    /\ (c.(written) = out
        \/ exists p whole, (done ++ [p]) `prefix_of` packets_taken answers /\ send p c0.(security) out = Ok whole
           /\ out `prefix_of` c.(written) /\ c.(written) `prefix_of` whole).

(** Whatever the order of the rounds of the two tasks, the calls of the game
    and the failures of the socket: the game receives the packets that the
    reader of the connection delivers, in their order and each once; it is told
    that the stream is closed only when it has received all that was read, which
    is all of them when reading did not fail, so that what a client sent before
    it left is not lost; and the bytes written are those of the packets the game
    sent, in their order, up to the one at which the writer stopped. *)
Lemma stream_keeps_order id d bytes e c0 r os :
  accept_with_enc id d bytes e = Ok c0 -> c0.(reader) = Some r ->
  let '(c, answers) := run os c0 in
  packets_received answers `prefix_of` (start_loop c0.(security) r).1
  /\ (Received (Err StreamClosed) ∈ answers -> c.(incoming) = [] /\ c.(reader) = None)
  /\ (existsb read_failure os = false -> Received (Err StreamClosed) ∈ answers ->
      packets_received answers = (start_loop c0.(security) r).1)
  /\ written_in_order c0 c answers (existsb write_failure os).
Proof.
  intros Ha Er. destruct (accepted_fresh id d bytes e c0 Ha) as [Hf _].
  pose proof (channels_run c0 os c0 [] true true (channels_fresh c0 Hf)) as Hc. destruct (run os c0) as [c answers]. cbn [fst snd app andb] in Hc.
  destruct Hc as [Hs (tail & Ht & _) _ Hall He (done & out & rest & Hd & Ho & _ & Hx)]. unfold to_come in *. rewrite Er in *.
  split; [exists (incoming c ++ tail); symmetry; exact Ht|]. split; [exact Hall|].
  split; [intros E; apply He; rewrite E; reflexivity|]. exists done, out. split; [exists rest; exact Hd|]. split; [exact Ho|]. split.
  - intros E. destruct Hx as [Hx|[Hx _]]; [exact Hx|]. rewrite E in Hx. discriminate.
  - destruct Hx as [Hx|[_ (p & ps & whole & -> & Hp & H1 & H2)]]; [auto|]. right. exists p, whole.
    split; [exists ps; rewrite <- app_assoc; exact Hd|]. rewrite <- Hs. auto.
Qed.

(** ** The end of a stream *)

Definition is_read (o : operation) : bool := match o with Reads => true | _ => false end.
Definition is_write (o : operation) : bool := match o with Writes => true | _ => false end.
Definition reads (os : list operation) : nat := length (List.filter is_read os).
Definition writes (os : list operation) : nat := length (List.filter is_write os).
Definition rounds (os : list operation) : Prop := Forall (fun o => is_read o || is_write o = true) os.

Definition sendable s (p : packet) : Prop := forall out, exists out', send p s out = Ok out'.

(** What the writer has and does is left alone by the reader. *)
Definition same_writer c c' : Prop :=
  c'.(security) = c.(security) /\ c'.(outgoing) = c.(outgoing) /\ c'.(writing) = c.(writing)
  /\ c'.(written) = c.(written) /\ c'.(held) = c.(held).

Lemma read_round_writer c : same_writer c (read_round c).
Proof.
  unfold read_round. destruct (reader c) as [r|]; [|repeat split].
  destruct (next (security c) r) as [[p|[]|] r']; try (repeat split);
    destruct (held c) eqn:Eh; repeat split; assumption.
Qed.

Lemma stopped_stays os : forall c, rounds os -> c.(writing) = false ->
  (run os c).1.(writing) = false /\ (run os c).1.(written) = c.(written).
Proof.
  induction os as [|o os IH]; intros c Hos Hw; [auto|]. inversion Hos as [|? ? Ho Hos']; subst. cbn [run].
  destruct o; try discriminate Ho; cbn [perform].
  - destruct (read_round_writer c) as (_ & _ & Ew & Eo & _). specialize (IH (read_round c) Hos'). destruct (run os (read_round c)) as [c' a].
    cbn [fst] in *. rewrite <- Eo. apply IH. congruence.
  - unfold write_round. rewrite Hw. cbn [negb]. specialize (IH c Hos' Hw). destruct (run os c) as [c' a]. exact IH.
Qed.

Lemma writer_drains os : forall c, rounds os -> c.(held) = false -> c.(writing) = true ->
  Forall (sendable c.(security)) c.(outgoing) -> (length c.(outgoing) < writes os)%nat ->
  (run os c).1.(writing) = false /\ send_each c.(outgoing) c.(security) c.(written) = Ok (run os c).1.(written).
Proof.
  induction os as [|o os IH]; intros c Hos Hh Hw Hp Hn; [cbn in Hn; lia|].
  inversion Hos as [|? ? Ho Hos']; subst. cbn [run]. destruct o; try discriminate Ho; cbn [perform].
  - destruct (read_round_writer c) as (Es & Eo & Ew & Ewr & Eh). specialize (IH (read_round c) Hos').
    rewrite Es, Eo, Ew, Ewr, Eh in IH. destruct (run os (read_round c)) as [c' a]. cbn [fst] in *. apply IH; auto.
  - unfold write_round. rewrite Hw, Hh. cbn [negb]. destruct (outgoing c) as [|p ps] eqn:Eo.
    + destruct (stopped_stays os (stop_writing c) Hos' eq_refl) as [E1 E2]. destruct (run os (stop_writing c)) as [c' a].
      cbn [fst send_each] in *. rewrite E2. auto.
    + inversion Hp as [|? ? Hsend Hps]; subst. destruct (Hsend (written c)) as [out E]. rewrite E.
      specialize (IH (with_outgoing ps out c) Hos' Hh Hw Hps).
      unfold writes in Hn. cbn [is_write List.filter length] in Hn. fold (writes os) in Hn.
      cbn [send_each]. rewrite E. cbn [mbind outcome_bind]. destruct (run os (with_outgoing ps out c)) as [c' a]. apply IH. cbn [with_outgoing outgoing]. lia.
Qed.

Lemma write_round_reader c : (write_round c).(reader) = c.(reader).
Proof.
  unfold write_round. destruct (writing c); [|reflexivity]. cbn [negb]. destruct (outgoing c) as [|p ps].
  - destruct (held c); reflexivity.
  - destruct (send p (security c) (written c)); reflexivity.
Qed.

(** A round of the reader takes something from its socket or is its last. *)
Lemma read_round_shrinks c r : c.(reader) = Some r ->
  match (read_round c).(reader) with
  | Some r' => (length r'.(inner) < length r.(inner))%nat
  | None => True
  end.
Proof.
  intros Er. unfold read_round. rewrite Er. pose proof (next_shrinks (security c) r) as Hs.
  destruct (next (security c) r) as [[p|[]|] r']; cbn [with_reader reader]; try exact Logic.I; [|exact Hs].
  destruct (held c); [exact Hs|exact Logic.I].
Qed.

Lemma write_fails_reader n c : (write_fails n c).(reader) = c.(reader).
Proof.
  unfold write_fails. destruct (writing c); [|reflexivity]. cbn [negb]. destruct (outgoing c) as [|p ps]; [reflexivity|].
  destruct (send p (security c) (written c)); reflexivity.
Qed.

Lemma perform_reader o c : is_read o = false -> (perform o c).1.(reader) = c.(reader) \/ (perform o c).1.(reader) = None.
Proof.
  destruct o; intros E; try discriminate E; cbn [perform fst]; [right; reflexivity|left..];
    [apply write_round_reader|apply write_fails_reader| | |reflexivity].
  - destruct (held c); [|reflexivity]. unfold received. destruct (incoming c); reflexivity.
  - destruct (held c); [|reflexivity]. unfold stream_send. destruct (writing c); reflexivity.
Qed.

Lemma reader_ends os : forall c,
  match c.(reader) with Some r => (length r.(inner) < reads os)%nat | None => True end ->
  (run os c).1.(reader) = None.
Proof.
  induction os as [|o os IH]; intros c Hn; [destruct (reader c) eqn:Er; [cbn in Hn; lia|exact Er]|].
  cbn [run]. destruct (perform o c) as [c' a] eqn:Ep. specialize (IH c'). destruct (run os c') as [c2 answers]. apply IH.
  destruct (is_read o) eqn:Eo.
  - destruct o; try discriminate Eo. cbn [perform] in Ep. injection Ep as <- _. destruct (reader c) as [r|] eqn:Er.
    + pose proof (read_round_shrinks c r Er) as Hs. destruct (reader (read_round c)); [|exact Logic.I].
      unfold reads in *. cbn [is_read List.filter length] in Hn. lia.
    + unfold read_round. rewrite Er, Er. exact Logic.I.
  - pose proof (perform_reader o c Eo) as Hr. rewrite Ep in Hr. cbn [fst] in Hr. destruct Hr as [-> | ->]; [|exact Logic.I].
    destruct (reader c); [|exact Logic.I]. unfold reads in *. cbn [List.filter] in Hn. rewrite Eo in Hn. exact Hn.
Qed.

(** C32: A stream that the game lets go is written to its end: in every order of
    enough rounds of its tasks all packets the game has sent are written, in
    their order, and then both tasks end; so the last messages of a session,
    like the one that confirms a logout, reach a client that is still there. *)
Theorem goodbye_is_written id d bytes e c0 os c answers rest :
  accept_with_enc id d bytes e = Ok c0 -> run os c0 = (c, answers) ->
  c.(held) = false -> c.(writing) = true -> Forall (sendable c0.(security)) (packets_taken answers) ->
  rounds rest -> (length c.(outgoing) < writes rest)%nat ->
  match c.(reader) with Some r => (length r.(inner) < reads rest)%nat | None => True end ->
  let c' := (run rest c).1 in
  send_each (packets_taken answers) c0.(security) c0.(written) = Ok c'.(written)
  /\ c'.(writing) = false /\ c'.(reader) = None.
Proof.
  intros Ha Er Hh Hw Hp Hos Hn Hr c'. destruct (accepted_fresh id d bytes e c0 Ha) as [Hf _].
  pose proof (channels_run c0 os c0 [] true true (channels_fresh c0 Hf)) as Hc. rewrite Er in Hc. cbn [fst snd app] in Hc.
  destruct Hc as [Hs _ _ _ _ (done & out & left & Ht & Ho & Hl & _)]. destruct (Hl Hw) as [-> <-]. rewrite Ht in Hp |- *.
  apply Forall_app in Hp as [_ Hp]. rewrite <- Hs in Hp. destruct (writer_drains rest c Hos Hh Hw Hp Hn) as [Ew Ed].
  rewrite send_each_app, Ho. cbn [mbind outcome_bind]. rewrite <- Hs. split; [exact Ed|]. split; [exact Ew|].
  exact (reader_ends rest c Hr).
Qed.

(** ** From the client to the game *)

Definition is_drop (o : operation) : bool := match o with Drops => true | _ => false end.

Lemma perform_held o c : is_drop o = false -> (perform o c).1.(held) = c.(held).
Proof.
  destruct o; intros Ho; try discriminate Ho; cbn [perform fst].
  - apply read_round_writer.
  - reflexivity.
  - unfold write_round. destruct (writing c); [|reflexivity]. cbn [negb]. destruct (outgoing c) as [|p ps].
    + destruct (held c) eqn:E; [exact E|exact E].
    + destruct (send p (security c) (written c)); reflexivity.
  - unfold write_fails. destruct (writing c); [|reflexivity]. cbn [negb]. destruct (outgoing c) as [|p ps]; [reflexivity|].
    destruct (send p (security c) (written c)); reflexivity.
  - destruct (held c) eqn:E; [|exact E]. unfold received. destruct (incoming c); exact E.
  - destruct (held c) eqn:E; [|exact E]. unfold stream_send. destruct (writing c); exact E.
Qed.

Lemma held_kept os : forall c, c.(held) = true -> existsb is_drop os = false -> (run os c).1.(held) = true.
Proof.
  induction os as [|o os IH]; intros c Hh Hd; [exact Hh|]. cbn [existsb] in Hd. apply orb_false_iff in Hd as [Ho Hd].
  cbn [run]. pose proof (perform_held o c Ho) as Hp. destruct (perform o c) as [c' a]. specialize (IH c').
  destruct (run os c') as [c2 answers]. apply IH; [|exact Hd]. cbn [fst] in Hp. congruence.
Qed.

(** When the reader has ended, the game receives what is left and then the end. *)
Lemma receives_end n : forall c, c.(held) = true -> c.(reader) = None -> (length c.(incoming) < n)%nat ->
  Received (Err StreamClosed) ∈ (run (repeat Receives n) c).2.
Proof.
  induction n as [|n IH]; intros c Hh Hr Hn; [lia|]. cbn [repeat run perform]. rewrite Hh. unfold received.
  destruct (incoming c) as [|p ps] eqn:Ei.
  - rewrite Hr. destruct (run (repeat Receives n) c) as [c2 answers]. left.
  - specialize (IH (with_incoming ps c) Hh Hr). destruct (run (repeat Receives n) (with_incoming ps c)) as [c2 answers].
    cbn [snd] in *. right. apply IH. cbn. cbn in Hn. lia.
Qed.

Lemma operations_app os os' c : run (os ++ os') c =
  let '(c1, a1) := run os c in let '(c2, a2) := run os' c1 in (c2, a1 ++ a2).
Proof.
  revert c. induction os as [|o os IH]; intros c; cbn [app run]; [destruct (run os' c); reflexivity|].
  destruct (perform o c) as [c1 a1]. rewrite IH. destruct (run os c1) as [c2 a2]. destruct (run os' c2) as [c3 a3].
  rewrite app_assoc. reflexivity.
Qed.

(** C2: A client that answers the handshake with an accepted challenge is
    accepted. From then on the rounds of the two tasks, the calls of the game
    and failures of either half of the socket come in any order, and: the game
    receives packets the client sent, in their order and each once; it is told
    that the stream is closed only when it has received all that the reader has
    read, which is all that the client sent unless reading failed; without such
    a failure, it comes to that when the reader has had enough rounds, the game
    holds the stream and asks often enough; and the client is written the
    packets the game sent, in their order, up to the one at which the writer
    stopped, of which a failing write may leave a part. *)
Theorem client_reaches_game `{!BlockCipherLaws cipher} (id : Z) (d : draws) (init : initialization_data) (s1 : security_state cipher)
    (f1 f2 : frame) (b key challenge : Z) (bf : cipher) (cs crs : Z) (v : val) (ms : list message)
    (Hd : draws_ok d) (Hi : initialize d Uninitialized = Ok (init, s1))
    (Hf1 : transmissible (@None (security_state cipher)) f1)
    (Hc : delivered f1 = Some ("HandshakeChallenge"%string, VStruct [VNum b; VNum key]))
    (Hs : start_challenge b key s1 = Ok (challenge, Challenged bf cs crs))
    (Hf2 : transmissible (@None (security_state cipher)) f2) (Ha : delivered f2 = Some ("HandshakeAccepted"%string, v))
    (Hms : Forall (message_ok (Some (Established bf (generate_count_seed cs) crs))) ms) :
  exists opening session c0,
    serialize_all [f1; f2] (@None (security_state cipher)) = Ok opening
    /\ serialize_all (map frame_of ms) c0.(security) = Ok session
    /\ accept id d (opening ++ session) = Ok c0
    /\ (forall os, let '(c, answers) := run os c0 in
          packets_received answers `prefix_of` map packet_of ms
          /\ (Received (Err StreamClosed) ∈ answers -> c.(incoming) = [] /\ c.(reader) = None)
          /\ (existsb read_failure os = false -> Received (Err StreamClosed) ∈ answers ->
              packets_received answers = map packet_of ms)
          /\ written_in_order c0 c answers (existsb write_failure os))
    /\ forall os, existsb is_drop os = false -> existsb read_failure os = false -> (length session < reads os)%nat ->
          exists n, packets_received (run (os ++ repeat Receives n) c0).2 = map packet_of ms.
Proof.
  set (s := Established bf (generate_count_seed cs) crs) in *.
  destruct (handshake_runs d init s1 f1 f2 b key challenge bf cs crs v Hd Hi Hf1 Hc Hs Hf2 Ha) as (opening & Eo & Hrun).
  destruct (session_delivered (Some s) ms Hms) as (session & Es & L).
  set (c0 := {| stream_id := id; security := Some s; reader := Some (reader_new session); incoming := []; outgoing := [];
                writing := true; written := plain_bytes (setup_initialize init) ++ plain_bytes (setup_finalize challenge);
                held := true |}).
  assert (Ea : accept_with_enc id d (opening ++ session) true = Ok c0)
    by (unfold accept_with_enc, init_stream; rewrite (Hrun session); reflexivity).
  assert (Hall : forall os, let '(c, answers) := run os c0 in
          packets_received answers `prefix_of` map packet_of ms
          /\ (Received (Err StreamClosed) ∈ answers -> c.(incoming) = [] /\ c.(reader) = None)
          /\ (existsb read_failure os = false -> Received (Err StreamClosed) ∈ answers ->
              packets_received answers = map packet_of ms)
          /\ written_in_order c0 c answers (existsb write_failure os)).
  { intros os. pose proof (stream_keeps_order id d (opening ++ session) true c0 (reader_new session) os Ea eq_refl) as H.
    change (security c0) with (Some s) in *. rewrite L in H. exact H. }
  exists opening, session, c0. split; [exact Eo|]. split; [exact Es|]. split; [exact Ea|]. split; [exact Hall|].
  intros os Hdrop Hfail Hreads. pose proof (held_kept os c0 eq_refl Hdrop) as Hh. pose proof (reader_ends os c0 Hreads) as Hr.
  exists (S (length (run os c0).1.(incoming))). specialize (Hall (os ++ repeat Receives (S (length (run os c0).1.(incoming))))).
  rewrite operations_app in *. destruct (run os c0) as [c1 a1]. cbn [fst] in *.
  pose proof (receives_end (S (length (incoming c1))) c1 Hh Hr ltac:(lia)) as Hend.
  destruct (run (repeat Receives (S (length (incoming c1)))) c1) as [c2 a2]. cbn [snd] in *.
  apply Hall; [|rewrite elem_of_app; right; exact Hend].
  rewrite existsb_app, Hfail. clear. induction (S _) as [|n IH]; [reflexivity|exact IH].
Qed.

(** ** Identifiers *)

Definition is_start (o : server_operation) : bool := match o with Starts _ => true | _ => false end.
Definition starts (os : list server_operation) : Z := Z.of_nat (length (List.filter is_start os)).

(** The identifiers that are in use, next to streams that the game has. *)
Definition used_ids (s : Server (cipher := cipher)) (handed : list (Connection (cipher := cipher))) : list Z :=
  map stream_id handed ++ map stream_id s.(stream_receiver) ++ map fst s.(handshaking).

(** A stream whose handshake was completed. *)
Definition admitted c : Prop := exists d bytes, accept c.(stream_id) d bytes = Ok c.

Record ids_ok (s : Server (cipher := cipher)) (handed : list (Connection (cipher := cipher))) : Prop := {
  pool_counts : 0 <= s.(id_pool);
  ids_distinct : NoDup (used_ids s handed);
  ids_below : Forall (fun i => 0 <= i < s.(id_pool)) (used_ids s handed);
  all_admitted : Forall admitted (handed ++ s.(stream_receiver));
}.

(** Fewer or other places for the same identifiers. *)
Lemma ids_ok_fewer (s s' : Server (cipher := cipher)) handed handed' : ids_ok s handed -> s'.(id_pool) = s.(id_pool) ->
  (exists gone, used_ids s handed ≡ₚ gone ++ used_ids s' handed') ->
  Forall admitted (handed' ++ s'.(stream_receiver)) -> ids_ok s' handed'.
Proof.
  intros [H0 H1 H2 _] Ep (gone & E) Ha. rewrite E in H1, H2. apply NoDup_app in H1 as (_ & _ & H1). apply Forall_app in H2 as [_ H2].
  split; rewrite ?Ep; assumption.
Qed.

Lemma ids_ok_same (s s' : Server (cipher := cipher)) handed : ids_ok s handed -> s'.(id_pool) = s.(id_pool) ->
  s'.(handshaking) = s.(handshaking) -> s'.(stream_receiver) = s.(stream_receiver) -> ids_ok s' (handed ++ []).
Proof.
  intros Hok Ep Eh Es. rewrite app_nil_r. apply (ids_ok_fewer s s' handed handed Hok Ep).
  - exists []. unfold used_ids. rewrite Eh, Es. reflexivity.
  - rewrite Es. apply Hok.
Qed.

Lemma accept_encrypted id d bytes : accept id d bytes = accept_with_enc id d bytes true.
Proof. reflexivity. Qed.

Lemma accept_id id d bytes c : accept id d bytes = Ok c -> c.(stream_id) = id /\ admitted c.
Proof.
  intros E. pose proof E as E'. rewrite accept_encrypted in E'. apply accepted_fresh in E' as (_ & Ei & _).
  split; [exact Ei|]. exists d, bytes. rewrite Ei. exact E.
Qed.

Lemma ids_ok_start (s : Server (cipher := cipher)) handed client a l t : ids_ok s handed -> s.(id_pool) + 1 < 2 ^ 64 ->
  ids_ok {| id_pool := wrap 64 (s.(id_pool) + 1); listening := l; shutdown_token := t; accepted := a;
            handshaking := s.(handshaking) ++ [(s.(id_pool), client)]; stream_receiver := s.(stream_receiver) |} handed.
Proof.
  intros [H0 H1 H2 H3] Hp. rewrite wrap_small by (apply fits_spec; lia).
  assert (E : forall s' : Server (cipher := cipher), s'.(handshaking) = s.(handshaking) ++ [(s.(id_pool), client)] -> s'.(stream_receiver) = s.(stream_receiver) ->
    used_ids s' handed = used_ids s handed ++ [s.(id_pool)]).
  { intros s' Eh Es. unfold used_ids. rewrite Eh, Es, map_app, !app_assoc. reflexivity. }
  split; cbn [id_pool stream_receiver]; [lia| | |exact H3]; rewrite E by reflexivity.
  - apply NoDup_app. split; [exact H1|]. split; [|apply NoDup_singleton]. intros i Hi Hj. apply list_elem_of_singleton in Hj as ->.
    rewrite Forall_forall in H2. specialize (H2 _ Hi). lia.
  - apply Forall_app. split; [|constructor; [lia|constructor]]. apply (Forall_impl _ _ _ H2). intros i Hi. cbv beta in Hi. lia.
Qed.

Lemma ids_ok_finish (s : Server (cipher := cipher)) handed i id d bytes :
  ids_ok s handed -> s.(handshaking) !! i = Some (id, (d, bytes)) ->
  ids_ok (server_perform (Finishes i) s).1 (handed ++ (server_perform (Finishes i) s).2).
Proof.
  intros Hok Hi. cbn [server_perform]. rewrite Hi.
  assert (E : used_ids s handed ≡ₚ map stream_id handed ++ map stream_id s.(stream_receiver) ++ [id] ++ map fst (delete i s.(handshaking))).
  { unfold used_ids. rewrite (delete_Permutation _ _ _ Hi) at 1. reflexivity. }
  destruct (accept id d bytes) as [stream| |] eqn:Ea; cbn [fst snd]; rewrite app_nil_r.
  - apply accept_id in Ea as [<- Ha]. apply (ids_ok_fewer s _ handed handed Hok); [reflexivity| |].
    + exists []. rewrite E. unfold used_ids. cbn [with_streams stream_receiver handshaking]. rewrite map_app, <- app_assoc. reflexivity.
    + cbn [with_streams stream_receiver]. rewrite app_assoc. apply Forall_app. split; [apply Hok|]. constructor; [exact Ha|constructor].
  - apply (ids_ok_fewer s _ handed handed Hok); [reflexivity| |apply Hok]. exists [id]. rewrite E. unfold used_ids.
    cbn [with_streams stream_receiver handshaking]. rewrite !app_assoc. rewrite (Permutation_app_comm (_ ++ _) [id]), <- !app_assoc. reflexivity.
  - apply (ids_ok_fewer s _ handed handed Hok); [reflexivity| |apply Hok]. exists [id]. rewrite E. unfold used_ids.
    cbn [with_streams stream_receiver handshaking]. rewrite !app_assoc. rewrite (Permutation_app_comm (_ ++ _) [id]), <- !app_assoc. reflexivity.
Qed.

Lemma finish_pool (s : Server (cipher := cipher)) i : (server_perform (Finishes i) s).1.(id_pool) = s.(id_pool).
Proof.
  cbn [server_perform]. destruct (handshaking s !! i) as [[id [d bytes]]|]; [|reflexivity].
  destruct (accept id d bytes); reflexivity.
Qed.

Lemma finish_none (s : Server (cipher := cipher)) i : s.(handshaking) !! i = None -> server_perform (Finishes i) s = (s, []).
Proof. cbn [server_perform]. destruct (handshaking s !! i) as [[id [d bytes]]|]; [discriminate|reflexivity]. Qed.

Definition taken_by (o : server_operation) : Z := if is_start o then 1 else 0.

Lemma ids_perform o (s : Server (cipher := cipher)) handed : ids_ok s handed -> s.(id_pool) + taken_by o < 2 ^ 64 ->
  ids_ok (server_perform o s).1 (handed ++ (server_perform o s).2)
  /\ (server_perform o s).1.(id_pool) <= s.(id_pool) + taken_by o.
Proof.
  intros Hok Hp. pose proof (pool_counts _ _ Hok). destruct o as [client| |i|i|i| |]; unfold taken_by in *; cbn [is_start] in *.
  - cbn [server_perform]. destruct (listening s); (split; [apply (ids_ok_same s); auto|cbn [fst with_sockets id_pool]; lia]).
  - cbn [server_perform]. split; [apply (ids_ok_same s); auto|cbn [fst with_listening id_pool]; lia].
  - cbn [server_perform]. destruct (accepted s !! i) as [client|].
    + cbn [stream_id_new fst snd id_pool]. rewrite app_nil_r. split; [apply ids_ok_start; assumption|].
      rewrite wrap_small by (apply fits_spec; lia). lia.
    + split; [apply (ids_ok_same s); auto|cbn [fst]; lia].
  - destruct (handshaking s !! i) as [[id [d bytes]]|] eqn:Ei.
    + split; [exact (ids_ok_finish s handed i id d bytes Hok Ei)|]. rewrite finish_pool. lia.
    + split; [|rewrite finish_pool; lia]. rewrite (finish_none s i Ei). apply (ids_ok_same s); auto.
  - cbn [server_perform]. destruct (handshaking s !! i) as [[id client]|] eqn:Ei; (split; [|cbn [fst with_streams id_pool]; lia]).
    + cbn [fst snd]. rewrite app_nil_r. apply (ids_ok_fewer s _ handed handed Hok); [reflexivity| |apply Hok].
      exists [id]. unfold used_ids. cbn [with_streams stream_receiver handshaking]. rewrite (delete_Permutation _ _ _ Ei) at 1.
      cbn [map fst]. rewrite !app_assoc, <- Permutation_middle. reflexivity.
    + apply (ids_ok_same s); auto.
  - cbn [server_perform connected fst snd]. split; [|cbn [with_streams id_pool]; lia].
    apply (ids_ok_fewer s _ handed); [exact Hok|reflexivity| |].
    + exists []. unfold used_ids. cbn [with_streams stream_receiver handshaking map app]. rewrite map_app, <- app_assoc. reflexivity.
    + cbn [with_streams stream_receiver]. rewrite app_nil_r. apply Hok.
  - cbn [server_perform]. split; [apply (ids_ok_same s); auto|cbn [fst shutdown with_listening id_pool]; lia].
Qed.

Lemma ids_run os : forall (s : Server (cipher := cipher)) handed, ids_ok s handed -> s.(id_pool) + starts os < 2 ^ 64 ->
  ids_ok (server_run os s).1 (handed ++ (server_run os s).2).
Proof.
  induction os as [|o os IH]; intros s handed Hok Hp; [cbn; rewrite app_nil_r; exact Hok|]. cbn [server_run].
  assert (Es : starts (o :: os) = taken_by o + starts os).
  { unfold starts, taken_by. cbn [List.filter]. destruct (is_start o); cbn [length]; lia. }
  destruct (ids_perform o s handed Hok) as [Hok' Hp']; [unfold starts in *; lia|].
  destruct (server_perform o s) as [s' a]. cbn [fst snd] in *. specialize (IH s' _ Hok'). destruct (server_run os s') as [s2 streams].
  cbn [fst snd] in *. rewrite app_assoc. apply IH. lia.
Qed.

(** Whatever the order in which clients connect, their handshakes begin and
    end, and the game takes its streams: the game is handed only streams whose
    handshake was completed, and no two of them, with those that wait, have the
    same identifier, as long as fewer than 2^64 connections were made. *)
Theorem streams_are_distinct pool os (s : Server (cipher := cipher)) streams :
  0 <= pool -> pool + starts os < 2 ^ 64 -> server_run os (server_new pool) = (s, streams) ->
  NoDup (map stream_id (streams ++ s.(stream_receiver)))
  /\ Forall (fun c => exists d bytes, accept c.(stream_id) d bytes = Ok c) (streams ++ s.(stream_receiver)).
Proof.
  intros H0 Hp E. assert (Hok : ids_ok (server_new pool) []) by (split; [exact H0|constructor..]).
  pose proof (ids_run os (server_new pool) [] Hok Hp) as Hr. rewrite E in Hr. cbn [fst snd app] in Hr.
  destruct Hr as [_ Hd _ Ha]. split; [|exact Ha]. unfold used_ids in Hd. rewrite app_assoc in Hd.
  apply NoDup_app in Hd as [Hd _]. rewrite map_app. exact Hd.
Qed.

End NetworkSpec.

(** ** A client on the wire *)

(** The client of [connection_delivers_witness], with two packets after its handshake. *)
Definition client_bytes : list Z :=
  match serialize_all [challenge_frame; accepted_frame; frame_of chat; Packet 0 0 0x2002 false []] (@None (security_state Z)) with
  | Ok bytes => bytes
  | _ => []
  end.

Definition client_connection : Connection (cipher := Z) :=
  match accept_with_enc 7 example_draws client_bytes true with
  | Ok c => c
  | _ => {| stream_id := 0; security := None; reader := None; incoming := []; outgoing := []; writing := false; written := []; held := false |}
  end.

Definition goodbye : packet := ("LogoutFinished"%string, VStruct []).

(** A reader that fails after its first packet, and a writer in the middle of one. *)
Lemma stream_cut :
  let '(c, answers) := run [Reads; ReadFails; Receives; Sends goodbye; WriteFails 3; Reads; Receives; Sends goodbye] client_connection in
  answers = [Received (Ok (Some (packet_of chat))); Sent goodbye (Ok ()); Received (Err StreamClosed); Sent goodbye (Err StreamClosed)]
  /\ length c.(written) = (length client_connection.(written) + 3)%nat.
Proof. vm_compute. auto. Qed.

Lemma client_reaches_game_witness :
  exists opening session (c0 : Connection (cipher := Z)),
    serialize_all (map frame_of [chat; keep_alive; chat]) c0.(security) = Ok session
    /\ accept 7 example_draws (opening ++ session) = Ok c0
    /\ forall os, existsb is_drop os = false -> existsb read_failure os = false -> (length session < reads os)%nat ->
          exists n, packets_received (run (os ++ repeat Receives n) c0).2 = map packet_of [chat; keep_alive; chat].
Proof.
  edestruct (client_reaches_game (cipher := Z) 7 example_draws) with (f1 := challenge_frame)
    (f2 := accepted_frame) (ms := [chat; keep_alive; chat]) as (opening & session & c0 & _ & E & Ha & _ & H);
    [repeat split | vm_compute; reflexivity | repeat split | vm_compute; reflexivity
    | vm_compute; reflexivity | repeat split | vm_compute; reflexivity
    | repeat constructor; try discriminate; eauto |].
  exists opening, session, c0. split; [exact E|]. split; [exact Ha | exact H].
Defined.

Lemma goodbye_is_written_witness :
  let '(c, answers) := run [Reads; Sends goodbye; Sends goodbye; Drops] client_connection in
  let c' := (run ([Writes; Reads; Writes; Writes] ++ repeat Reads 6) c).1 in
  send_each (packets_taken answers) client_connection.(security) client_connection.(written) = Ok c'.(written)
  /\ c'.(writing) = false.
Proof.
  destruct (run [Reads; Sends goodbye; Sends goodbye; Drops] client_connection) as [c answers] eqn:E.
  assert (Ec : c = (run [Reads; Sends goodbye; Sends goodbye; Drops] client_connection).1) by (rewrite E; reflexivity).
  assert (Es : packets_taken answers = [goodbye; goodbye]) by (apply (f_equal snd) in E; cbn [snd] in E; rewrite <- E; vm_compute; reflexivity).
  destruct (goodbye_is_written 7 example_draws client_bytes true client_connection
    [Reads; Sends goodbye; Sends goodbye; Drops] c answers ([Writes; Reads; Writes; Writes] ++ repeat Reads 6)) as (E1 & E2 & _);
    [vm_compute; reflexivity|exact E|rewrite Ec; vm_compute; reflexivity|rewrite Ec; vm_compute; reflexivity| | | | |].
  - rewrite Es. repeat constructor; intros out; eexists; vm_compute; reflexivity.
  - repeat constructor.
  - rewrite Ec. vm_compute. lia.
  - rewrite Ec. vm_compute. lia.
  - split; assumption.
Defined.

Definition two_clients : list server_operation :=
  [Accepts (example_draws, client_bytes); Accepts (example_draws, client_bytes); Starts 0; Starts 0; Finishes 1;
   Finishes 0; Connected; ShutsDown; ListenerEnds].

Lemma streams_are_distinct_witness :
  exists s streams,
    server_run two_clients (server_new (cipher := Z) 5) = (s, streams)
    /\ map stream_id streams = [6; 5] /\ NoDup (map stream_id (streams ++ s.(stream_receiver))).
Proof.
  destruct (server_run two_clients (server_new (cipher := Z) 5)) as [s streams] eqn:E.
  exists s, streams. split; [reflexivity|].
  assert (Hn : 5 + starts two_clients < 2 ^ 64) by (vm_compute; reflexivity).
  destruct (streams_are_distinct (cipher := Z) 5 two_clients s streams ltac:(lia) Hn E) as [Hd _].
  split; [|exact Hd]. apply (f_equal snd) in E. cbn [snd] in E. rewrite <- E. vm_compute. reflexivity.
Defined.
