(* ===== verification/Changes.v ===== *)
(** silkroad-game-base/src/changes.rs: tracked changes and their optimization,
    with the instance of silkroad-agent/src/comp/skill.rs.

    [Change] is the trait; [KeyedChange] states what its documentation asks of
    [merge] for changes that each concern one key. *)
From Stdlib Require Import ZArith Lia.
From Stdlib Require Sorting.Permutation.
From stdpp Require Import base list option.
From S2P Require Import Prelude.

Inductive MergeResult (T : Type) :=
| Unchanged (left right : T)
| Incompatible (left right : T)
| Merged (result : T)
| Cancelled.
Arguments Unchanged {T}.
Arguments Incompatible {T}.
Arguments Merged {T}.
Arguments Cancelled {T}.

Class Change (T : Type) := merge : T -> T -> MergeResult T.

Section Optimize.
Context {T : Type} `{!Change T}.

(** The loop of [merge_recursive]: [stack] is [to_do_stack] with its top
    first, [deque] is [unchanged_stack] with its front first. *)
Fixpoint merge_loop (stack deque : list T) : list T :=
  match stack with
  | [] => rev deque
  | item :: stack =>
      match deque with
      | [] => rev stack ++ [item]
      | next :: deque =>
          match merge item next with
          | Unchanged l r => merge_loop stack (r :: deque ++ [l])
          | Incompatible l r => rev stack ++ rev (r :: deque ++ [l])
          | Merged res => merge_loop stack (res :: deque)
          | Cancelled => merge_loop stack deque
          end
      end
  end.

Definition merge_recursive (items : list T) (new : T) : list T := merge_loop (rev items) [new].

Definition optimize (l : list T) : list T :=
  if (length l <=? 1)%nat then l else fold_left merge_recursive l [].

(** Optimizing never makes the list longer, whatever [merge] does. *)
Lemma merge_loop_length stack deque :
  (length (merge_loop stack deque) <= length stack + length deque)%nat.
Proof.
  revert deque; induction stack as [|item stack IH]; intros deque; cbn [merge_loop].
  - rewrite length_rev. lia.
  - destruct deque as [|next deque]; [rewrite length_app, length_rev; cbn; lia|].
    destruct (merge item next) as [l r|l r|res|].
    + rewrite IH. cbn. rewrite length_app. cbn. lia.
    + rewrite length_app, !length_rev. cbn. rewrite length_app. cbn. lia.
    + rewrite IH. cbn. lia.
    + rewrite IH. cbn. lia.
Qed.

Lemma fold_merge_length l acc :
  (length (fold_left merge_recursive l acc) <= length l + length acc)%nat.
Proof.
  revert acc; induction l as [|a l IH]; intros acc; [cbn; lia|]. cbn [fold_left length].
  rewrite IH. unfold merge_recursive. pose proof (merge_loop_length (rev acc) [a]) as Hl.
  rewrite length_rev in Hl. cbn in Hl. lia.
Qed.

(** Changes of which no two are merged stay as they are. *)
Definition unmerged (l : list T) : Prop :=
  forall i j a b, (i < j)%nat -> l !! i = Some a -> l !! j = Some b -> merge a b = Unchanged a b.

Lemma merge_loop_unmerged stack next deque :
  (forall a, a ∈ stack -> merge a next = Unchanged a next) ->
  merge_loop stack (next :: deque) = rev (next :: deque ++ stack).
Proof.
  revert deque; induction stack as [|a stack IH]; intros deque H; cbn [merge_loop]; [rewrite app_nil_r; reflexivity|].
  rewrite (H a) by left. rewrite IH by (intros b Hb; apply H; right; exact Hb). rewrite <- app_assoc. reflexivity.
Qed.

Lemma fold_merge_unmerged l acc : unmerged (acc ++ l) -> fold_left merge_recursive l acc = acc ++ l.
Proof.
  revert acc; induction l as [|a l IH]; intros acc H; [rewrite app_nil_r; reflexivity|]. cbn [fold_left].
  assert (E : merge_recursive acc a = acc ++ [a]).
  { unfold merge_recursive. rewrite merge_loop_unmerged; cbn [app rev]; [rewrite rev_involutive; reflexivity|].
    intros b Hb. apply list_elem_of_In, in_rev, list_elem_of_In, list_elem_of_lookup in Hb as [i Hi].
    pose proof (lookup_lt_Some _ _ _ Hi).
    apply (H i (length acc)); [assumption|rewrite lookup_app_l; assumption|].
    rewrite lookup_app_r, Nat.sub_diag by lia. reflexivity. }
  rewrite E, IH by (rewrite <- app_assoc; exact H). rewrite <- app_assoc. reflexivity.
Qed.

Lemma optimize_unmerged l : unmerged l -> optimize l = l.
Proof. intros H. unfold optimize. destruct (_ <=? 1)%nat; [reflexivity|]. apply (fold_merge_unmerged l [] H). Qed.

(** What holds of all changes holds of the optimized ones, if merging keeps it. *)
Context (P : T -> Prop).
Hypothesis merge_keeps : forall a b, P a -> P b ->
  match merge a b with Unchanged l r | Incompatible l r => P l /\ P r | Merged r => P r | Cancelled => True end.

Lemma merge_loop_keeps stack deque : Forall P stack -> Forall P deque -> Forall P (merge_loop stack deque).
Proof.
  revert deque; induction stack as [|a stack IH]; intros deque Hs Hd; cbn [merge_loop]; [apply Forall_rev, Hd|].
  apply list.Forall_cons in Hs as [Ha Hs]. destruct deque as [|b deque]; [apply list.Forall_app; auto using Forall_rev|].
  apply list.Forall_cons in Hd as [Hb Hd]. pose proof (merge_keeps a b Ha Hb) as H. destruct (merge a b) as [l r|l r|r|].
  - destruct H. apply IH; [exact Hs|]. constructor; [assumption|]. apply list.Forall_app; auto.
  - destruct H. apply list.Forall_app. split; apply Forall_rev; [exact Hs|]. constructor; [assumption|]. apply list.Forall_app; auto.
  - apply IH; auto.
  - apply IH; auto.
Qed.

Lemma optimize_keeps l : Forall P l -> Forall P (optimize l).
Proof.
  intros Hl. unfold optimize. destruct (_ <=? 1)%nat; [exact Hl|].
  assert (H : forall acc, Forall P acc -> Forall P (fold_left merge_recursive l acc)); [|apply H; constructor].
  induction Hl as [|a l Ha Hl IH]; intros acc Hacc; [exact Hacc|]. cbn [fold_left]. apply IH.
  apply merge_loop_keeps; [apply Forall_rev, Hacc|auto].
Qed.

End Optimize.

(** ** Keyed changes *)

(** Changes of a store with one value per key: changes of different keys are
    independent, and two changes of one key are merged into a change of that
    key with their common effect, or cancel out. *)
Class KeyedChange (T K V : Type) `{Change T, EqDecision K} := {
  key : T -> K;
  effect : T -> V -> V;
  merge_other_key : forall a b, key a <> key b -> merge a b = Unchanged a b;
  merge_same_key : forall a b, key a = key b ->
    match merge a b with
    | Merged r => key r = key a /\ forall v, effect r v = effect b (effect a v)
    | Cancelled => forall v, effect b (effect a v) = v
    | _ => False
    end;
}.

Section Keyed.
Context {T K V : Type} `{KeyedChange T K V}.

(** The effect of a list of changes, in order, on a store. *)
Definition apply_change (store : K -> V) (a : T) : K -> V :=
  fun k => if decide (k = key a) then effect a (store k) else store k.
Definition apply_changes (l : list T) (store : K -> V) : K -> V := fold_left apply_change l store.

Definition on (k : K) (l : list T) : list T := List.filter (fun a => bool_decide (k = key a)) l.
Definition effects (l : list T) (v : V) : V := fold_left (fun v a => effect a v) l v.

Lemma on_app k l1 l2 : on k (l1 ++ l2) = on k l1 ++ on k l2.
Proof. apply List.filter_app. Qed.

Lemma on_cons k a l : on k (a :: l) = if bool_decide (k = key a) then a :: on k l else on k l.
Proof. reflexivity. Qed.

Lemma effects_app l1 l2 v : effects (l1 ++ l2) v = effects l2 (effects l1 v).
Proof. apply fold_left_app. Qed.

(** A store sees a list of changes one key at a time. *)
Lemma apply_changes_at l store k : apply_changes l store k = effects (on k l) (store k).
Proof.
  revert store; induction l as [|a l IH]; intros store; [reflexivity|].
  cbn [apply_changes fold_left]. unfold apply_changes in IH. rewrite IH, on_cons.
  unfold apply_change. destruct (decide (k = key a)) as [->|Hne].
  - rewrite bool_decide_eq_true_2 by reflexivity. reflexivity.
  - rewrite bool_decide_eq_false_2 by assumption. reflexivity.
Qed.

Definition keys (l : list T) : list K := map key l.

Lemma on_not_in k l : k ∉ keys l -> on k l = [].
Proof.
  induction l as [|a l IH]; [reflexivity|]. cbn [keys map]. rewrite not_elem_of_cons, on_cons.
  intros [Hne Hl]. rewrite bool_decide_eq_false_2 by assumption. apply IH, Hl.
Qed.

Lemma keys_app l1 l2 : keys (l1 ++ l2) = keys l1 ++ keys l2.
Proof. apply map_app. Qed.

Lemma NoDup_keys_rev l : NoDup (keys l) -> NoDup (keys (rev l)).
Proof. unfold keys. rewrite map_rev. rewrite <- Permutation.Permutation_rev. auto. Qed.

(** The loop keeps one change per key and the effect on every key. *)
Lemma merge_loop_keyed stack deque :
  NoDup (keys (stack ++ tail deque)) ->
  (forall next d, deque = next :: d -> key next ∉ keys d) ->
  NoDup (keys (merge_loop stack deque))
  /\ forall k v, effects (on k (merge_loop stack deque)) v = effects (on k (rev stack ++ rev deque)) v.
Proof.
  revert deque; induction stack as [|item stack IH]; intros deque Hnd Hd; cbn [merge_loop].
  { split; [|reflexivity]. destruct deque as [|next d]; [constructor|].
    apply NoDup_keys_rev. cbn. constructor; [apply (Hd next d eq_refl)|exact Hnd]. }
  destruct deque as [|next d].
  { cbn [rev app]. rewrite app_nil_r in *. split; [|reflexivity].
    change (rev stack ++ [item]) with (rev (item :: stack)). apply NoDup_keys_rev, Hnd. }
  cbn [tail app keys map] in Hnd. apply list.NoDup_cons in Hnd as [Hitem Hnd].
  specialize (Hd next d eq_refl) as Hnext. cbn [rev].
  assert (Hid : key item ∉ keys d) by (intros Hin; apply Hitem; rewrite map_app; apply elem_of_app; auto).
  destruct (decide (key item = key next)) as [E|E].
  - pose proof (merge_same_key item next E) as M. destruct (merge item next) as [| |res|]; try easy.
    + destruct M as [Kr Er]. destruct (IH (res :: d)) as [N Eff]; [exact Hnd| |].
      { intros ? ? [= <- <-]. rewrite Kr. exact Hid. }
      split; [exact N|]. intros k v. rewrite Eff. cbn [rev]. rewrite !on_app, !effects_app.
      rewrite !on_cons, Kr, <- E. destruct (bool_decide_reflect (k = key item)) as [->|Hk]; [|reflexivity].
      assert (Hor : on (key item) (rev d) = []).
      { apply on_not_in. unfold keys. rewrite map_rev. intros Hin. apply Hid.
        apply list_elem_of_In. apply list_elem_of_In in Hin. apply in_rev. exact Hin. }
      rewrite Hor. cbn. apply Er.
    + destruct d as [|c d].
      * destruct (IH []) as [N Eff]; [exact Hnd|discriminate|]. split; [exact N|].
        intros k v. rewrite Eff. cbn [rev]. rewrite !on_app, !effects_app.
        rewrite !on_cons, <- E. destruct (bool_decide_reflect (k = key item)) as [->|Hk]; [|reflexivity].
        cbn. symmetry. apply M.
      * destruct (IH (c :: d)) as [N Eff].
        { unfold keys in *. rewrite map_app in *. cbn [map tail] in *.
          apply list.NoDup_app in Hnd as (H1 & H2 & H3). apply list.NoDup_cons in H3 as [H3 H4].
          apply list.NoDup_app. split; [exact H1|]. split; [|exact H4].
          intros x Hx Hin. apply (H2 x Hx). right. exact Hin. }
        { intros ? ? [= <- <-]. unfold keys in *. rewrite map_app in Hnd.
          apply list.NoDup_app in Hnd as (_ & _ & H3). apply list.NoDup_cons in H3 as [H3 _]. exact H3. }
        split; [exact N|]. intros k v. rewrite Eff. rewrite !on_app, !effects_app.
        rewrite !on_cons, <- E. destruct (bool_decide_reflect (k = key item)) as [->|Hk]; [|reflexivity].
        assert (Hor : on (key item) (rev (c :: d)) = []).
        { apply on_not_in. unfold keys. rewrite map_rev. intros Hin. apply Hid.
          apply list_elem_of_In. apply list_elem_of_In in Hin. apply in_rev. exact Hin. }
        rewrite Hor. cbn. symmetry. apply M.
  - rewrite merge_other_key by exact E.
    destruct (IH (next :: d ++ [item])) as [N Eff].
    { cbn [tail]. rewrite app_assoc. unfold keys in *. rewrite (map_app _ (stack ++ d)). cbn [map].
      apply list.NoDup_app. split; [exact Hnd|]. split; [|apply NoDup_singleton].
      intros x Hx Hin. apply list_elem_of_singleton in Hin as ->. apply Hitem, Hx. }
    { intros ? ? [= <- <-]. rewrite keys_app. cbn. rewrite not_elem_of_app, not_elem_of_cons.
      split; [exact Hnext|]. split; [congruence|apply not_elem_of_nil]. }
    split; [exact N|]. intros k v. rewrite Eff. cbn [rev]. rewrite rev_app_distr. cbn [rev app].
    rewrite <- app_assoc. reflexivity.
Qed.

Lemma fold_merge_keyed l acc :
  NoDup (keys acc) ->
  NoDup (keys (fold_left merge_recursive l acc))
  /\ forall k v, effects (on k (fold_left merge_recursive l acc)) v = effects (on k (acc ++ l)) v.
Proof.
  revert acc; induction l as [|a l IH]; intros acc Hacc; [rewrite app_nil_r; auto|].
  cbn [fold_left]. unfold merge_recursive at 2 4.
  destruct (merge_loop_keyed (rev acc) [a]) as [N Eff].
  { cbn [tail]. rewrite app_nil_r. apply NoDup_keys_rev, Hacc. }
  { intros ? ? [= <- <-]. apply not_elem_of_nil. }
  destruct (IH _ N) as [N' Eff']. split; [exact N'|]. intros k v.
  rewrite Eff', on_app, effects_app, Eff, rev_involutive.
  rewrite (on_app k acc (a :: l)), !effects_app. rewrite on_app, effects_app, on_cons.
  cbn [rev app]. rewrite on_cons. destruct (bool_decide (k = key a)); reflexivity.
Qed.

End Keyed.

(** ** The example of the unit tests *)

Inductive TestChange := MkTestChange (n : Z).

#[export] Instance TestChange_change : Change TestChange := fun a b =>
  let '(MkTestChange x) := a in
  let '(MkTestChange y) := b in
  if x =? y then Cancelled
  else if 10 <=? u8 (x + y) then Merged (MkTestChange (u8 (x + y) mod 10))
  else if x =? 5 then Incompatible a b
  else Unchanged a b.

Definition test_optimize (l : list Z) : list Z :=
  map (fun '(MkTestChange n) => n) (optimize (map MkTestChange l)).

(** The assertions of the unit tests. *)
Example test_changes :
  test_optimize [1; 2; 3] = [1; 2; 3] /\ test_optimize [1; 1] = []
  /\ test_optimize [1; 1; 2] = [2] /\ test_optimize [1; 2; 1] = [2]
  /\ test_optimize [2; 1; 2; 1; 1; 1; 2] = [2] /\ test_optimize [1; 1; 5] = [5]
  /\ test_optimize [5; 1; 1] = [5] /\ test_optimize [1; 5; 1] = [1; 5; 1]
  /\ test_optimize [6; 8] = [4] /\ test_optimize [7; 6; 8] = [1].
Proof. repeat split. Qed.

(** ** Properties *)

(** C30: For changes that each concern one key, optimizing keeps what the
    documentation promises: the optimized list has the same effect on every
    store as the original one, at most one change per key, and no more changes
    than before. *)
Theorem optimize_keyed {T K V : Type} `{KeyedChange T K V} (l : list T) :
  (forall (store : K -> V) k, apply_changes (optimize l) store k = apply_changes l store k)
  /\ NoDup (keys (optimize l)) /\ (length (optimize l) <= length l)%nat.
Proof.
  unfold optimize. destruct (Nat.leb_spec (length l) 1).
  - repeat split; [|lia]. destruct l as [|a [|b l]]; [constructor|apply NoDup_singleton|simpl in *; lia].
  - destruct (fold_merge_keyed l [] ltac:(constructor)) as [N Eff]. repeat split.
    + intros store k. rewrite !apply_changes_at. apply Eff.
    + exact N.
    + pose proof (fold_merge_length l []) as Hl. cbn in Hl. lia.
Qed.
