(* ===== verification/Skills.v ===== *)
(** silkroad-agent/src/comp/skill.rs: the skill book of a character and the
    changes it hands to the persistence. *)
From Stdlib Require Import ZArith Lia.
From stdpp Require Import base list option gmap.
From S2P Require Import Prelude Changes.

(** A learned skill: its group and its level. *)
Inductive LearnedSkill := MkLearnedSkill (group level : Z).

#[export] Instance LearnedSkill_change : Change LearnedSkill := fun a b =>
  let '(MkLearnedSkill g _) := a in
  let '(MkLearnedSkill g' _) := b in
  if g' =? g then Merged b else Unchanged a b.

(** [ApplyToDatabase]: the statement inserts the row of the skill group or
    replaces its level. *)
#[export] Instance LearnedSkill_keyed : KeyedChange LearnedSkill Z (option Z).
Proof.
  refine {| key := fun '(MkLearnedSkill g _) => g;
            effect := fun '(MkLearnedSkill _ l) _ => Some l |}.
  - intros [g l] [g' l'] Hne. unfold merge, LearnedSkill_change.
    destruct (Z.eqb_spec g' g); [congruence|reflexivity].
  - intros [g l] [g' l'] E. unfold merge, LearnedSkill_change. subst g'. rewrite Z.eqb_refl.
    split; reflexivity.
Defined.

Record SkillBook := { skills : gmap Z Z; new_skills : list (Z * Z) }.

(** What [learn_skill] and [has_required_skills_for] read of a [RefSkillData]:
    its group and level, and the groups and levels it requires. *)
Record RefSkillData := { group : Z; level : Z; required_skills : list (Z * Z) }.

Definition skill_book_new (known : list (Z * Z)) : SkillBook :=
  {| skills := fold_left (fun m '(g, l) => <[g := l]> m) known ∅; new_skills := [] |}.

Definition learn_skill (skill : RefSkillData) (b : SkillBook) : SkillBook :=
  {| skills := <[skill.(group) := skill.(level)]> b.(skills);
     new_skills := b.(new_skills) ++ [(skill.(group), skill.(level))] |}.

Definition has_required_skills_for (skill : RefSkillData) (b : SkillBook) : bool :=
  forallb (fun '(g, l) => l <=? default 0 (b.(skills) !! g))
    (List.filter (fun '(g, _) => negb (g =? 0)) skill.(required_skills)).

(** [changes] takes the pending changes and leaves none. *)
Definition skill_changes (b : SkillBook) : list LearnedSkill * SkillBook :=
  (map (fun '(g, l) => MkLearnedSkill g l) b.(new_skills),
   {| skills := b.(skills); new_skills := [] |}).

(** ** Properties *)

Lemma learn_all_skills ss b :
  new_skills (fold_left (fun b s => learn_skill s b) ss b)
    = new_skills b ++ map (fun s => (s.(group), s.(level))) ss
  /\ forall k, skills (fold_left (fun b s => learn_skill s b) ss b) !! k
    = effects (on k (map (fun s => MkLearnedSkill s.(group) s.(level)) ss)) (skills b !! k).
Proof.
  revert b; induction ss as [|s ss IH]; intros b; [rewrite app_nil_r; auto|].
  cbn [fold_left map]. destruct (IH (learn_skill s b)) as [-> Hs]. split.
  - cbn [learn_skill new_skills]. rewrite <- app_assoc. reflexivity.
  - intros k. rewrite Hs, on_cons. cbn [learn_skill skills key LearnedSkill_keyed].
    destruct (bool_decide_reflect (k = group s)) as [->|Hne].
    + cbn [effects fold_left effect LearnedSkill_keyed]. rewrite lookup_insert_eq. reflexivity.
    + rewrite lookup_insert_ne by congruence. reflexivity.
Qed.

(** What a character learned reaches the database: when the stored skills
    are the ones the book had after its last persistence, then after any
    number of learned skills, applying the optimized pending changes to them
    gives the skills of the book, and no change is pending any more. *)
Theorem skills_persisted (ss : list RefSkillData) (b : SkillBook) (Hb : new_skills b = []) :
  let b' := fold_left (fun b s => learn_skill s b) ss b in
  (forall k, apply_changes (optimize (fst (skill_changes b'))) (fun k => skills b !! k) k = skills b' !! k)
  /\ new_skills (snd (skill_changes b')) = [].
Proof.
  intros b'. split; [|reflexivity]. intros k.
  destruct (learn_all_skills ss b) as [En Es]. fold b' in En, Es.
  destruct (fold_merge_keyed (fst (skill_changes b')) [] ltac:(constructor)) as [_ Eff].
  assert (Eo : apply_changes (optimize (fst (skill_changes b'))) (fun k => skills b !! k) k
    = apply_changes (fst (skill_changes b')) (fun k => skills b !! k) k).
  { unfold optimize. destruct (_ <=? 1)%nat; [reflexivity|]. rewrite !apply_changes_at. apply Eff. }
  rewrite Eo, apply_changes_at, Es. unfold skill_changes. cbn [fst]. rewrite En, Hb. cbn [app].
  rewrite map_map. reflexivity.
Qed.

Lemma skills_persisted_witness :
  let b := skill_book_new [(1, 1)] in
  let ss := [{| group := 1; level := 2; required_skills := [] |};
             {| group := 1; level := 3; required_skills := [] |}] in
  let b' := fold_left (fun b s => learn_skill s b) ss b in
  (forall k, apply_changes (optimize (fst (skill_changes b'))) (fun k => skills b !! k) k = skills b' !! k)
  /\ new_skills (snd (skill_changes b')) = [].
Proof. apply skills_persisted. reflexivity. Defined.

Lemma optimize_keyed_witness :
  let l := [MkLearnedSkill 1 2; MkLearnedSkill 7 1; MkLearnedSkill 1 3] in
  (forall (store : Z -> option Z) k,
     apply_changes (optimize l) store k = apply_changes l store k)
  /\ NoDup (keys (optimize l)) /\ (length (optimize l) <= length l)%nat.
Proof. apply (optimize_keyed (V := option Z)). Defined.
