(* ===== verification/Inventory.v ===== *)
(** silkroad-game-base/src/inventory.rs: the items of a character, the changes
    recorded for the persistence, and how changes merge.

    The [HashMap] of slots is a [gmap]; the order in which it iterates is a
    parameter. A call that returns an error has already changed the inventory,
    so the operations return the inventory next to their result. *)
From Stdlib Require Import ZArith Lia.
From stdpp Require Import base list option gmap.
From S2P Require Import Prelude Definitions TypeIdEnums TypeId GameData Changes.

Definition WEAPON_SLOT : Z := 6.
Definition GOLD_SLOT : Z := 0xFE.

(** ** Items *)

(** An item refers to its row of the game data. *)
Definition type_id_of (r : RefItemData) : TypeId := r.(item_common).(type_id).
Definition country (r : RefItemData) : RefOrigin := r.(item_common).(GameData.country).

(** [impl PartialEq for RefItemData] *)
Definition same_reference (a b : RefItemData) : bool := ref_id a =? ref_id b.

Inductive ItemTypeData :=
| Equipment (upgrade_level : Z)
| COS
| Consumable (amount : Z)
| Gold (amount : Z).

#[export] Instance ItemTypeData_eqdec : EqDecision ItemTypeData.
Proof. solve_decision. Defined.

Record Item := { reference : RefItemData; variance : option Z; type_data : ItemTypeData }.

Definition with_type_data (i : Item) (d : ItemTypeData) : Item :=
  {| reference := i.(reference); variance := i.(variance); type_data := d |}.

Definition stack_size (i : Item) : Z :=
  match i.(type_data) with Consumable amount => amount | _ => 1 end.
Definition is_max_stacked (i : Item) : bool := i.(reference).(max_stack_size) <=? stack_size i.
Definition upgrade_level_of (i : Item) : Z :=
  match i.(type_data) with Equipment upgrade_level => upgrade_level | _ => 0 end.
Definition amount_of (d : ItemTypeData) : Z :=
  match d with Consumable amount => amount | Gold amount => amount | _ => 1 end.

Inductive MoveError := ItemDoesNotExist | NotStackable | Impossible.

(** [change_stack_size(amount: i16)] *)
Definition change_stack_size (i : Item) (amount : Z) : outcome MoveError Item :=
  match i.(type_data) with
  | Consumable old_amount =>
      if amount <? 0 then
        let to_subtract := Z.abs amount in
        if old_amount <? to_subtract then Err Impossible
        else Ok (with_type_data i (Consumable (old_amount - to_subtract)))
      else Ok (with_type_data i (Consumable (u16 (old_amount + u16 amount))))
  | _ => Err NotStackable
  end.

(** ** Changes *)

Inductive InventoryChange :=
| AddItem (slot : Z) (item : Item)
| ChangeTypeData (slot : Z) (old_item new_item : ItemTypeData)
| MoveItem (source_slot target_slot : Z)
| RemoveItem (slot : Z)
| Swap (first_slot second_slot : Z).

#[export] Instance InventoryChange_change : Change InventoryChange := fun self other =>
  match self with
  | AddItem slot item =>
      match other with
      | AddItem new_slot _ => if slot =? new_slot then Merged other else Unchanged self other
      | MoveItem source_slot target_slot =>
          if source_slot =? slot then Merged (AddItem target_slot item) else Unchanged self other
      | RemoveItem removed_slot => if slot =? removed_slot then Cancelled else Unchanged self other
      | ChangeTypeData changed_slot old_item new_item =>
          if (slot =? changed_slot) && bool_decide (item.(type_data) = old_item) then
            Merged (AddItem slot (with_type_data item new_item))
          else Unchanged self other
      | Swap first_slot second_slot =>
          if (first_slot =? slot) || (second_slot =? slot) then Incompatible self other
          else Unchanged self other
      end
  | RemoveItem slot =>
      match other with
      | AddItem s _ | RemoveItem s | MoveItem s _ | ChangeTypeData s _ _ =>
          if slot =? s then Incompatible self other else Unchanged self other
      | Swap first_slot second_slot =>
          if (first_slot =? slot) || (second_slot =? slot) then Incompatible self other
          else Unchanged self other
      end
  | MoveItem source_slot target_slot =>
      match other with
      | AddItem slot _ =>
          if target_slot =? slot then Incompatible self other else Unchanged self other
      | MoveItem new_source new_target =>
          if target_slot =? new_source then Merged (MoveItem source_slot new_target)
          else Unchanged self other
      | RemoveItem slot =>
          if slot =? target_slot then Merged (RemoveItem source_slot) else Unchanged self other
      | Swap first_slot second_slot =>
          if (second_slot =? target_slot) || (first_slot =? target_slot)
             || (second_slot =? source_slot) || (first_slot =? source_slot)
          then Incompatible self other
          else Unchanged self other
      | ChangeTypeData _ _ _ => Unchanged self other
      end
  | ChangeTypeData slot old_item new_item =>
      match other with
      | ChangeTypeData other_slot changed_old changed_new =>
          if slot =? other_slot then
            if bool_decide (new_item = changed_old) then
              Merged (ChangeTypeData slot old_item changed_new)
            else Incompatible self other
          else Unchanged self other
      | MoveItem source_slot _ =>
          if source_slot =? slot then Incompatible self other else Unchanged self other
      | RemoveItem removed_slot => if slot =? removed_slot then Merged other else Unchanged self other
      | Swap first_slot second_slot =>
          if (first_slot =? slot) || (second_slot =? slot) then Incompatible self other
          else Unchanged self other
      | AddItem _ _ => Unchanged self other
      end
  | Swap first_slot second_slot =>
      match other with
      | AddItem slot _ | ChangeTypeData slot _ _ | RemoveItem slot =>
          if (slot =? first_slot) || (slot =? second_slot) then Incompatible self other
          else Unchanged self other
      | MoveItem source_slot target_slot =>
          if (first_slot =? source_slot) || (first_slot =? target_slot)
             || (second_slot =? source_slot) || (second_slot =? target_slot)
          then Incompatible self other
          else Unchanged self other
      | Swap other_first_slot other_second_slot =>
          if ((first_slot =? other_first_slot) && (second_slot =? other_first_slot))
             || ((first_slot =? other_second_slot) && (second_slot =? other_first_slot))
          then Cancelled
          else if (first_slot =? other_first_slot) || (first_slot =? other_second_slot)
                  || (second_slot =? other_first_slot) || (second_slot =? other_second_slot)
          then Incompatible self other
          else Unchanged self other
      end
  end.

(** ** The inventory *)

Record Inventory := { size : Z; items : gmap Z Item; changes : list InventoryChange }.

Definition set_items (inv : Inventory) (m : gmap Z Item) : Inventory :=
  {| size := inv.(size); items := m; changes := inv.(changes) |}.
Definition push (inv : Inventory) (c : InventoryChange) : Inventory :=
  {| size := inv.(size); items := inv.(items); changes := inv.(changes) ++ [c] |}.

(** [assert!(size > 0xC)] *)
Definition inventory_new {E} (size : Z) : outcome E Inventory :=
  if 0xC <? size then Ok {| size := size; items := ∅; changes := [] |} else Panic.

Definition get_item_at (inv : Inventory) (slot : Z) : option Item := inv.(items) !! slot.
Definition weapon (inv : Inventory) : option Item := inv.(items) !! WEAPON_SLOT.
Definition get_equipment_item (inv : Inventory) (slot : EquipmentSlot) : option Item :=
  inv.(items) !! into slot.
Definition is_equipment_slot (slot : Z) : bool := slot <=? 0xC.

(** [0u8..(self.size as u8)] *)
Definition non_equipment_slots (inv : Inventory) : list Z :=
  List.filter (fun index => negb (is_equipment_slot index)) (seqZ 0 (u8 inv.(size))).

Definition empty_slot (inv : Inventory) : option Z :=
  List.find (fun slot => negb (bool_decide (is_Some (inv.(items) !! slot)))) (non_equipment_slots inv).

Definition set_item (inv : Inventory) (slot : Z) (item : Item) : Inventory :=
  set_items inv (<[slot := item]> inv.(items)).

(** The changes taken by the persistence. *)
Definition take_changes (inv : Inventory) : list InventoryChange * Inventory :=
  (inv.(changes), {| size := inv.(size); items := inv.(items); changes := [] |}).

(** Both items are out of the map in the stacking branches; [?] leaves them out. *)
Definition move_stack (inv : Inventory) (source target : Z) (source_item target_item : Item)
    (amount : Z) : outcome MoveError Z * Inventory :=
  let available_on_target_stack :=
    u16 (target_item.(reference).(max_stack_size) - stack_size target_item) in
  if available_on_target_stack =? 0 then
    (Ok 0, set_item (set_item inv source source_item) target target_item)
  else if amount <=? available_on_target_stack then
    match change_stack_size target_item (i16 amount) with
    | Ok target_item' =>
        let inv := push inv (RemoveItem source) in
        let inv := push inv
          (ChangeTypeData target target_item.(type_data) target_item'.(type_data)) in
        (Ok amount, set_item inv target target_item')
    | Err e => (Err e, inv)
    | Panic => (Panic, inv)
    end
  else
    match change_stack_size target_item (i16 available_on_target_stack) with
    | Ok target_item' =>
        let inv := push inv
          (ChangeTypeData target target_item.(type_data) target_item'.(type_data)) in
        match change_stack_size source_item (i16 (- i16 available_on_target_stack)) with
        | Ok source_item' =>
            let inv := push inv
              (ChangeTypeData source source_item.(type_data) source_item'.(type_data)) in
            (Ok available_on_target_stack,
             set_item (set_item inv source source_item') target target_item')
        | Err e => (Err e, inv)
        | Panic => (Panic, inv)
        end
    | Err e => (Err e, inv)
    | Panic => (Panic, inv)
    end.

Definition move_item (inv : Inventory) (source target amount : Z)
    : outcome MoveError Z * Inventory :=
  match inv.(items) !! source with
  | Some source_item =>
      let inv := set_items inv (delete source inv.(items)) in
      match inv.(items) !! target with
      | Some target_item =>
          let inv := set_items inv (delete target inv.(items)) in
          if (ref_id source_item.(reference) =? ref_id target_item.(reference))
             && (1 <? source_item.(reference).(max_stack_size))
          then move_stack inv source target source_item target_item amount
          else
            let inv := push inv (Swap source target) in
            (Ok amount, set_item (set_item inv target source_item) source target_item)
      | None =>
          let inv := push inv (MoveItem source target) in
          (Ok amount, set_item inv target source_item)
      end
  | None => (Err ItemDoesNotExist, inv)
  end.

Section Iteration.

(** The iteration order of the hash map. *)
Variable iterate : gmap Z Item -> list (Z * Item).

Definition find_slots_matching (inv : Inventory) (item : Item) : list Z :=
  map fst (List.filter (fun '(_, existing) =>
    same_reference existing.(reference) item.(reference)
    && bool_decide (existing.(variance) = item.(variance))) (iterate inv.(items))).

(** The insertion into a free slot at the end of [add_item]. *)
Definition add_to_free_slot (inv : Inventory) (item : Item) : option Z * Inventory :=
  match empty_slot inv with
  | Some free_slot => (Some free_slot, push (set_item inv free_slot item) (AddItem free_slot item))
  | None => (None, inv)
  end.

(** Adding [item] to the matching stack [existing] at slot [i]. *)
Definition add_to_stack (inv : Inventory) (i : Z) (existing item : Item) : option Z * Inventory :=
  match existing.(type_data), item.(type_data) with
  | Consumable existing_amount, Consumable added_amount =>
      let max := item.(reference).(max_stack_size) in
      let sum_amount := u16 (existing_amount + added_amount) in
      let top_up new_data :=
        push (set_item inv i (with_type_data existing new_data))
          (ChangeTypeData i existing.(type_data) new_data) in
      if sum_amount <=? max then (Some i, top_up (Consumable sum_amount))
      else
        let inv := top_up (Consumable max) in
        let remaining := u16 (sum_amount - max) in
        add_to_free_slot inv (with_type_data item (Consumable remaining))
  | _, _ => (None, inv)
  end.

(** The loop over the matching slots: the first stack with room decides. The
    slots come from the map, so that each has its item. *)
Fixpoint add_to_matching (inv : Inventory) (slots : list Z) (item : Item)
    : option (option Z * Inventory) :=
  match slots with
  | [] => None
  | i :: slots =>
      match inv.(items) !! i with
      | Some existing =>
          if negb (is_max_stacked existing)
             && (ref_id existing.(reference) =? ref_id item.(reference))
          then Some (add_to_stack inv i existing item)
          else add_to_matching inv slots item
      | None => None
      end
  end.

Definition add_item (inv : Inventory) (item : Item) : option Z * Inventory :=
  let found :=
    if 1 <? item.(reference).(max_stack_size) then
      add_to_matching inv (find_slots_matching inv item) item
    else None in
  match found with
  | Some result => result
  | None => add_to_free_slot inv item
  end.

(** The loop of [remove_item] over the matching slots. *)
Fixpoint remove_from (inv : Inventory) (slots : list Z) (to_remove removed : Z)
    : outcome MoveError Z * Inventory :=
  match slots with
  | [] => (Ok removed, inv)
  | i :: slots =>
      match inv.(items) !! i with
      | Some existing =>
          if 1 <? to_remove then
            if to_remove <? stack_size existing then
              match change_stack_size existing (i16 (- i16 to_remove)) with
              | Ok existing' => (Ok (u16 (removed + to_remove)), set_item inv i existing')
              | Err e => (Err e, inv)
              | Panic => (Panic, inv)
              end
            else
              let inv' := push (set_items inv (delete i inv.(items))) (RemoveItem i) in
              remove_from inv' slots (sat_sub to_remove (stack_size existing))
                (u16 (removed + stack_size existing))
          else
            (Ok (u16 (removed + 1)), push (set_items inv (delete i inv.(items))) (RemoveItem i))
      | None => (Panic, inv)
      end
  end.

Definition remove_item (inv : Inventory) (item : Item) : outcome MoveError Z * Inventory :=
  remove_from inv (find_slots_matching inv item) (stack_size item) 0.

End Iteration.
