(* ===== verification/InventoryFacts.v ===== *)
(** Correctness of Inventory.v: quantities, recorded changes, and the limits of
    moving stacks and of merging changes. *)
From Stdlib Require Import ZArith Lia.
From stdpp Require Import base list option gmap.
From S2P Require Import Prelude Definitions TypeIdEnums TypeId GameData Changes Inventory.

(** ** Quantities *)

Definition weight (r : Z) (i : Item) : Z :=
  if ref_id i.(reference) =? r then stack_size i else 0.

(** How many items of the reference [r] the slots hold. *)
Definition total (r : Z) (m : gmap Z Item) : Z := map_fold (fun _ i acc => weight r i + acc) 0 m.

Lemma total_insert_fresh r s i m : m !! s = None -> total r (<[s := i]> m) = weight r i + total r m.
Proof.
  intros Hs. unfold total. rewrite map_fold_insert_L; [reflexivity| |exact Hs].
  intros. lia.
Qed.

Lemma total_delete r s i m : m !! s = Some i -> total r m = weight r i + total r (delete s m).
Proof.
  intros Hs. rewrite <- (insert_delete_id m s i Hs) at 1.
  apply total_insert_fresh, lookup_delete_eq.
Qed.

Lemma total_insert r s i m : total r (<[s := i]> m) = weight r i + total r (delete s m).
Proof. rewrite <- insert_delete_eq. apply total_insert_fresh, lookup_delete_eq. Qed.

(** ** What a recorded change says of the items

    Each change expects the slots it names to be occupied or free. That the
    statements of the persistence do the same to the rows is in InventoryRows.v. *)
Definition apply_inventory_change (c : InventoryChange) (m : gmap Z Item) : option (gmap Z Item) :=
  match c with
  | AddItem slot item => match m !! slot with None => Some (<[slot := item]> m) | Some _ => None end
  | ChangeTypeData slot old_item new_item =>
      i ← m !! slot;
      if decide (i.(type_data) = old_item) then Some (<[slot := with_type_data i new_item]> m) else None
  | MoveItem source target =>
      i ← m !! source;
      match delete source m !! target with
      | None => Some (<[target := i]> (delete source m))
      | Some _ => None
      end
  | RemoveItem slot => _ ← m !! slot; Some (delete slot m)
  | Swap first second => a ← m !! first; b ← m !! second; Some (<[second := a]> (<[first := b]> m))
  end.

Fixpoint apply_inventory_changes (cs : list InventoryChange) (m : gmap Z Item) : option (gmap Z Item) :=
  match cs with
  | [] => Some m
  | c :: cs => m ← apply_inventory_change c m; apply_inventory_changes cs m
  end.

(** The new changes of an operation replay it. *)
Definition recorded (inv inv' : Inventory) : Prop :=
  exists cs, changes inv' = changes inv ++ cs
    /\ apply_inventory_changes cs (items inv) = Some (items inv').

Lemma change_stack_size_ok i n i' :
  change_stack_size i n = Ok i' ->
  exists a, i' = with_type_data i (Consumable a) /\ exists old, type_data i = Consumable old.
Proof.
  unfold change_stack_size. destruct (type_data i) eqn:E; try discriminate.
  destruct (n <? 0); [destruct (amount <? Z.abs n); [discriminate|]|]; intros [= <-]; eauto.
Qed.

Lemma with_type_data_eta i d : with_type_data i (type_data (with_type_data i d)) = with_type_data i d.
Proof. reflexivity. Qed.

(** ** Moving items *)

Lemma move_stack_recorded inv s t si ti amount n inv' :
  s <> t -> items inv !! s = Some si -> items inv !! t = Some ti ->
  move_stack (set_items inv (delete t (delete s (items inv)))) s t si ti amount = (Ok n, inv') ->
  recorded inv inv'.
Proof.
  intros Hne Hs Ht. unfold move_stack. cbv zeta.
  set (av := u16 _). destruct (av =? 0).
  { intros [= _ <-]. exists []. cbn. rewrite app_nil_r. split; [reflexivity|]. f_equal.
    apply map_eq. intros k. destruct (decide (k = t)) as [->|]; [rewrite lookup_insert_eq; exact Ht|].
    rewrite lookup_insert_ne by congruence.
    destruct (decide (k = s)) as [->|]; [rewrite lookup_insert_eq; exact Hs|].
    rewrite lookup_insert_ne, !lookup_delete_ne by congruence. reflexivity. }
  destruct (amount <=? av).
  - destruct (change_stack_size ti (i16 amount)) as [ti'| |] eqn:E; try discriminate.
    intros [= _ <-]. apply change_stack_size_ok in E as (a & -> & old & Eo).
    exists [RemoveItem s; ChangeTypeData t (type_data ti) (Consumable a)]. cbn.
    rewrite <- app_assoc. split; [reflexivity|].
    rewrite Hs. cbn. rewrite lookup_delete_ne, Ht by congruence. cbn.
    rewrite decide_True by reflexivity. cbn. f_equal. apply map_eq. intros k.
    destruct (decide (k = t)) as [->|]; [rewrite !lookup_insert_eq; reflexivity|].
    rewrite !lookup_insert_ne by congruence. rewrite (lookup_delete_ne _ t) by congruence. reflexivity.
  - destruct (change_stack_size ti (i16 av)) as [ti'| |] eqn:E; try discriminate.
    destruct (change_stack_size si (i16 (- i16 av))) as [si'| |] eqn:E'; try discriminate.
    intros [= _ <-]. apply change_stack_size_ok in E as (a & -> & old & Eo).
    apply change_stack_size_ok in E' as (b & -> & old' & Eo').
    exists [ChangeTypeData t (type_data ti) (Consumable a); ChangeTypeData s (type_data si) (Consumable b)].
    cbn. rewrite <- app_assoc. split; [reflexivity|].
    rewrite Ht. cbn. rewrite decide_True by reflexivity. cbn.
    rewrite lookup_insert_ne, Hs by congruence. cbn. rewrite decide_True by reflexivity. cbn.
    f_equal. apply map_eq. intros k.
    destruct (decide (k = t)) as [->|].
    { rewrite lookup_insert_ne, !lookup_insert_eq by congruence. reflexivity. }
    destruct (decide (k = s)) as [->|].
    { rewrite lookup_insert_eq, lookup_insert_ne, lookup_insert_eq by congruence. reflexivity. }
    rewrite !lookup_insert_ne, !lookup_delete_ne by congruence. reflexivity.
Qed.

Lemma move_item_recorded inv s t amount n inv' :
  move_item inv s t amount = (Ok n, inv') -> recorded inv inv'.
Proof.
  unfold move_item. destruct (items inv !! s) as [si|] eqn:Hs; [|discriminate]. cbn [items set_items].
  destruct (delete s (items inv) !! t) as [ti|] eqn:Ht.
  - assert (Hne : s <> t) by (intros ->; rewrite lookup_delete_eq in Ht; discriminate).
    rewrite lookup_delete_ne in Ht by congruence.
    destruct (_ && _).
    + apply (move_stack_recorded inv); assumption.
    + intros [= _ <-]. exists [Swap s t]. split; [reflexivity|]. cbn. rewrite Hs. cbn. rewrite Ht. cbn.
      f_equal. apply map_eq. intros k.
      destruct (decide (k = t)) as [->|].
      { rewrite lookup_insert_eq, lookup_insert_ne, lookup_insert_eq by congruence. reflexivity. }
      destruct (decide (k = s)) as [->|].
      { rewrite lookup_insert_ne, !lookup_insert_eq by congruence. reflexivity. }
      rewrite !lookup_insert_ne, !lookup_delete_ne by congruence. reflexivity.
  - intros [= _ <-]. exists [MoveItem s t]. split; [reflexivity|]. cbn. rewrite Hs. cbn.
    rewrite Ht. reflexivity.
Qed.

(** The condition under which [move_item] stacks, and how many items the
    stacking with room for all of [amount] adds. *)
Definition stacks (inv : Inventory) (s t : Z) : option (Item * Item) :=
  si ← items inv !! s;
  ti ← delete s (items inv) !! t;
  if (ref_id si.(reference) =? ref_id ti.(reference)) && (1 <? si.(reference).(max_stack_size))
  then Some (si, ti) else None.

Definition room (ti : Item) : Z := ti.(reference).(max_stack_size) - stack_size ti.

Definition quantity_error (r : Z) (inv : Inventory) (s t amount : Z) : Z :=
  match stacks inv s t with
  | Some (si, ti) =>
      if (0 <? room ti) && (amount <=? room ti) && (ref_id si.(reference) =? r)
      then amount - stack_size si else 0
  | None => 0
  end.

(** Stacks within their limits; a reference allows stacks that fit an [i16]. *)
Definition item_ok (i : Item) : bool :=
  (0 <=? stack_size i) && (stack_size i <=? i.(reference).(max_stack_size))
  && (i.(reference).(max_stack_size) <? 2 ^ 15).
Definition items_ok (m : gmap Z Item) : Prop := forall s i, m !! s = Some i -> item_ok i = true.

Lemma consumable_weight r i a :
  weight r (with_type_data i (Consumable a)) = if ref_id i.(reference) =? r then a else 0.
Proof. reflexivity. Qed.

Lemma change_stack_size_small i n i' :
  item_ok i = true -> - 2 ^ 15 < n < 2 ^ 15 -> change_stack_size i n = Ok i' ->
  exists a, type_data i = Consumable a /\ i' = with_type_data i (Consumable (a + n)) /\ 0 <= a + n.
Proof.
  unfold item_ok, change_stack_size, stack_size. intros Hi Hn.
  destruct (type_data i) as [| |a|]; try discriminate. split_andb.
  destruct (Z.ltb_spec n 0).
  - destruct (Z.ltb_spec a (Z.abs n)); [discriminate|]. intros [= <-]. exists a.
    split; [reflexivity|]. split; [do 2 f_equal; lia|lia].
  - intros [= <-]. exists a. split; [reflexivity|].
    rewrite (wrap_small 16 n), wrap_small by (apply fits_spec; lia). split; [reflexivity|lia].
Qed.

Lemma move_stack_total r inv s t si ti amount n inv' :
  items_ok (items inv) -> 0 <= amount ->
  s <> t -> items inv !! s = Some si -> items inv !! t = Some ti ->
  (ref_id si.(reference) =? ref_id ti.(reference)) = true ->
  move_stack (set_items inv (delete t (delete s (items inv)))) s t si ti amount = (Ok n, inv') ->
  total r (items inv') = total r (items inv)
    + if (0 <? room ti) && (amount <=? room ti) && (ref_id si.(reference) =? r)
      then amount - stack_size si else 0.
Proof.
  intros Hok Ha Hne Hs Ht Href. pose proof (Hok s si Hs) as Hsi. pose proof (Hok t ti Ht) as Hti.
  apply Z.eqb_eq in Href. pose proof Hti as Hti'. unfold item_ok in Hti'. split_andb.
  assert (T0 : total r (items inv) = weight r si + (weight r ti + total r (delete t (delete s (items inv))))).
  { rewrite (total_delete r s si) by exact Hs. f_equal. apply total_delete.
    rewrite lookup_delete_ne by congruence. exact Ht. }
  unfold move_stack. cbv zeta. unfold room.
  rewrite (wrap_small 16) by (apply fits_spec; lia).
  set (av := max_stack_size (reference ti) - stack_size ti) in *. assert (Hav : 0 <= av < 2 ^ 15) by lia.
  destruct (Z.eqb_spec av 0) as [E0|E0].
  { intros [= _ <-]. rewrite E0. cbn [Z.ltb Z.compare andb]. cbn [items set_item set_items].
    rewrite total_insert_fresh by (rewrite lookup_insert_ne, lookup_delete_eq by congruence; reflexivity).
    rewrite total_insert_fresh by (rewrite lookup_delete_ne, lookup_delete_eq by congruence; reflexivity).
    lia. }
  replace (0 <? av) with true by (symmetry; apply Z.ltb_lt; lia). cbn [andb].
  destruct (Z.leb_spec amount av).
  - rewrite (swrap_small 16 amount) by (try apply sfits_spec; lia).
    destruct (change_stack_size ti amount) as [ti'| |] eqn:E; try discriminate. intros [= _ <-].
    apply change_stack_size_small in E as (a & Ea & -> & _); [|assumption|lia].
    cbn [items set_item set_items push].
    rewrite total_insert_fresh by apply lookup_delete_eq.
    rewrite consumable_weight, T0. unfold weight. rewrite Href. cbn [andb].
    destruct (_ =? r); [|lia]. unfold stack_size at 2. rewrite Ea. lia.
  - rewrite (swrap_small 16 av) by (try apply sfits_spec; lia).
    rewrite (swrap_small 16 (- av)) by (try apply sfits_spec; lia).
    destruct (change_stack_size ti av) as [ti'| |] eqn:E; try discriminate.
    destruct (change_stack_size si (- av)) as [si'| |] eqn:E'; try discriminate. intros [= _ <-].
    apply change_stack_size_small in E as (a & Ea & -> & _); [|assumption|lia].
    apply change_stack_size_small in E' as (b & Eb & -> & _); [|assumption|lia].
    cbn [items set_item set_items push andb].
    rewrite total_insert_fresh by (rewrite lookup_insert_ne, lookup_delete_eq by congruence; reflexivity).
    rewrite total_insert_fresh by (rewrite lookup_delete_ne, lookup_delete_eq by congruence; reflexivity).
    rewrite !consumable_weight, T0. unfold weight, stack_size. rewrite Ea, Eb, Href.
    destruct (_ =? r); lia.
Qed.
