(* ===== verification/InventorySpec.v ===== *)
(** The contract of the inventory: nothing is created or lost by moving and
    adding items, the recorded changes replay every operation, and where the
    code departs from that. *)
From Stdlib Require Import ZArith Lia.
From stdpp Require Import base list option gmap.
From S2P Require Import Prelude F32 Definitions TypeIdEnums TypeId GameData Changes Inventory.
From S2P Require Import InventoryFacts.

(** ** Data for the witnesses *)

(** A row of the item table with the columns that matter here. *)
Definition item_row (id : Z) (type : TypeId) (stack : Z) (level : option Z) : RefItemData :=
  let zero := f32_of_Z 0 in
  {| item_common := {| common_ref_id := id; common_id := []; type_id := type; GameData.country := Chinese;
                       despawn_time := 0 |};
     price := 0; max_stack_size := stack; range := None; required_level := level; biological_type := Both;
     params := []; physical_attack_power_lower := zero; physical_attack_power_upper := zero;
     magical_attack_power_lower := zero; magical_attack_power_upper := zero; critical := zero;
     physical_reinforce_lower := zero; physical_reinforce_upper := zero; magical_reinforce_upper := zero;
     magical_reinforce_lower := zero; attack_rate := zero |}.

Definition potion : RefItemData := item_row 1 (MkTypeId 3 3 1 1) 50 None.
Definition sword : RefItemData := item_row 2 (MkTypeId 3 1 6 2) 1 None.
Definition potions (n : Z) : Item :=
  {| reference := potion; variance := None; type_data := Consumable n |}.
Definition a_sword : Item := {| reference := sword; variance := None; type_data := Equipment 3 |}.
Definition inventory_of (l : list (Z * Item)) : Inventory :=
  {| size := 45; items := list_to_map l; changes := [] |}.

(** An iteration order of the hash map. *)
Definition slots_of (m : gmap Z Item) : list (Z * Item) := map_to_list m.

Lemma items_ok_of l : forallb (fun '(_, i) => item_ok i) l = true -> items_ok (list_to_map l).
Proof.
  intros H s i Hs. apply elem_of_list_to_map_2 in Hs.
  exact (proj1 (forallb_forall _ _) H _ (proj1 (list_elem_of_In _ _) Hs)).
Qed.

(** ** Moving *)

(** C26: A successful [move_item] changes the quantity of an item only when it
    stacks with room for the whole requested amount: then the whole source
    stack disappears and the requested amount appears, so the quantity is kept
    exactly if the request named the size of the source stack. In every case
    the recorded changes replay the move. *)
Theorem move_item_quantity (inv inv' : Inventory) (s t amount n r : Z)
    (Hok : items_ok (items inv)) (Ha : 0 <= amount)
    (Hm : move_item inv s t amount = (Ok n, inv')) :
  total r (items inv') = total r (items inv) + quantity_error r inv s t amount
  /\ recorded inv inv'.
Proof.
  split; [|exact (move_item_recorded _ _ _ _ _ _ Hm)].
  unfold move_item in Hm. unfold quantity_error, stacks.
  destruct (items inv !! s) as [si|] eqn:Hs; [|discriminate]. cbn [items set_items mbind option_bind] in *.
  destruct (delete s (items inv) !! t) as [ti|] eqn:Ht.
  - assert (Hne : s <> t) by (intros ->; rewrite lookup_delete_eq in Ht; discriminate).
    cbn [mbind option_bind].
    destruct ((ref_id (reference si) =? ref_id (reference ti)) && (1 <? max_stack_size (reference si))) eqn:E.
    + apply andb_true_iff in E as [E _]. rewrite lookup_delete_ne in Ht by congruence.
      eapply move_stack_total; eassumption.
    + injection Hm as _ <-. cbn [items push set_item set_items].
      rewrite total_insert_fresh by (rewrite lookup_insert_ne, lookup_delete_ne, lookup_delete_eq by congruence; reflexivity).
      rewrite total_insert_fresh by apply lookup_delete_eq.
      rewrite (total_delete r s si (items inv)) by exact Hs.
      rewrite (total_delete r t ti (delete s (items inv))) by exact Ht. lia.
  - injection Hm as _ <-. cbn [items push set_item set_items mbind option_bind].
    rewrite total_insert_fresh by exact Ht. rewrite (total_delete r s si (items inv)) by exact Hs. lia.
Qed.

Lemma move_item_quantity_witness :
  let inv := inventory_of [(20, potions 5); (21, potions 10)] in
  let inv' := (move_item inv 20 21 5).2 in
  total 1 (items inv') = total 1 (items inv) + quantity_error 1 inv 20 21 5 /\ recorded inv inv'.
Proof.
  intros inv inv'. apply (move_item_quantity inv inv' 20 21 5 5 1);
    [apply items_ok_of; reflexivity|lia|vm_compute; reflexivity].
Defined.

(** A client that names more than its stack holds multiplies items: moving
    40 from a stack of 5 onto a stack of 10 leaves 50; and one that names less
    loses the rest. *)
Theorem move_item_duplicates :
  let inv := inventory_of [(20, potions 5); (21, potions 10)] in
  total 1 (items inv) = 15
  /\ total 1 (items (move_item inv 20 21 40).2) = 50
  /\ total 1 (items (move_item inv 20 21 2).2) = 12.
Proof. vm_compute. auto. Qed.

(** A failed stacking destroys items: when [move_item] returns an error
    other than the missing source, both slots are empty afterwards. It does so
    for a request of 41 from a stack of 5 onto a stack of 10 of at most 50. *)
Theorem move_item_error_destroys (inv : Inventory) (s t amount : Z) :
  (forall e inv', move_item inv s t amount = (Err e, inv') -> e <> ItemDoesNotExist ->
     items inv' = delete t (delete s (items inv)) /\ is_Some (items inv !! s) /\ is_Some (items inv !! t))
  /\ (move_item (inventory_of [(20, potions 5); (21, potions 10)]) 20 21 41).1 = Err Impossible.
Proof.
  split; [|vm_compute; reflexivity]. intros e inv'. unfold move_item.
  destruct (items inv !! s) as [si|] eqn:Hs; [|congruence]. cbn [items set_items].
  destruct (delete s (items inv) !! t) as [ti|] eqn:Ht; [|discriminate].
  assert (Hne : s <> t) by (intros ->; rewrite lookup_delete_eq in Ht; discriminate).
  rewrite lookup_delete_ne in Ht by congruence. rewrite Ht.
  destruct (_ && _); [|discriminate]. unfold move_stack. cbv zeta.
  destruct (_ =? 0); [discriminate|]. destruct (amount <=? _).
  - destruct (change_stack_size ti _); try discriminate. intros [= <- <-] _. eauto.
  - destruct (change_stack_size ti _); [|intros [= <- <-] _; eauto|discriminate].
    destruct (change_stack_size si _); try discriminate. intros [= <- <-] _. eauto.
Qed.

(** ** Adding *)

Section Adding.
Variable iterate : gmap Z Item -> list (Z * Item).

Lemma empty_slot_spec inv slot :
  empty_slot inv = Some slot -> items inv !! slot = None /\ is_equipment_slot slot = false
    /\ 0 <= slot < u8 (size inv).
Proof.
  unfold empty_slot. intros E. apply find_some in E as [Hin E].
  apply negb_true_iff, bool_decide_eq_false in E.
  unfold non_equipment_slots in Hin. apply List.filter_In in Hin as [Hin Heq].
  apply list_elem_of_In, elem_of_seqZ in Hin. apply negb_true_iff in Heq.
  split; [|split; [exact Heq|lia]]. destruct (items inv !! slot); [exfalso; eauto|reflexivity].
Qed.

Lemma items_ok_insert m s i : items_ok m -> item_ok i = true -> items_ok (<[s := i]> m).
Proof.
  intros Hm Hi k j Hk. destruct (decide (k = s)) as [->|].
  - rewrite lookup_insert_eq in Hk. injection Hk as <-. exact Hi.
  - rewrite lookup_insert_ne in Hk by congruence. eapply Hm, Hk.
Qed.

(** What [add_item] guarantees of its result. *)
Definition added (inv : Inventory) (item : Item) (res : option Z * Inventory) : Prop :=
  items_ok (items res.2) /\ recorded inv res.2
  /\ match res.1 with
     | Some slot =>
         (forall r, total r (items res.2) = total r (items inv) + weight r item)
         /\ exists i, items res.2 !! slot = Some i /\ ref_id i.(reference) = ref_id item.(reference)
     | None => True
     end.

Lemma add_to_free_slot_added inv item :
  items_ok (items inv) -> item_ok item = true -> added inv item (add_to_free_slot inv item).
Proof.
  intros Hok Hi. unfold add_to_free_slot, added. destruct (empty_slot inv) as [slot|] eqn:E.
  - apply empty_slot_spec in E as (Hn & _ & _). cbn [fst snd items push set_item set_items].
    split; [apply items_ok_insert; assumption|]. split.
    + exists [AddItem slot item]. split; [reflexivity|]. cbn. rewrite Hn. reflexivity.
    + split; [intros r; rewrite total_insert_fresh by exact Hn; lia|].
      exists item. rewrite lookup_insert_eq. auto.
  - split; [exact Hok|]. split; [|exact I]. exists []. rewrite app_nil_r. auto.
Qed.

Lemma recorded_trans a b c : recorded a b -> recorded b c -> recorded a c.
Proof.
  intros (cs & E1 & A1) (ds & E2 & A2). exists (cs ++ ds). rewrite E2, E1, app_assoc. split; [reflexivity|].
  assert (Happ : forall cs m, apply_inventory_changes (cs ++ ds) m
    = m' ← apply_inventory_changes cs m; apply_inventory_changes ds m').
  { induction cs0 as [|x cs0 IH]; intros m; [reflexivity|]. cbn.
    destruct (apply_inventory_change x m); [apply IH|reflexivity]. }
  rewrite Happ, A1. exact A2.
Qed.

Lemma add_to_stack_added inv i existing item :
  items_ok (items inv) -> item_ok item = true -> items inv !! i = Some existing ->
  is_max_stacked existing = false -> ref_id (reference existing) = ref_id (reference item) ->
  max_stack_size (reference existing) = max_stack_size (reference item) ->
  added inv item (add_to_stack inv i existing item).
Proof.
  intros Hok Hi Hs Hmax Href Hms. pose proof (Hok i existing Hs) as He.
  unfold add_to_stack. destruct (type_data existing) as [| |a|] eqn:Ea;
    try (split; [exact Hok|split; [exists []; rewrite app_nil_r; auto|exact I]]).
  destruct (type_data item) as [| |b|] eqn:Eb;
    try (split; [exact Hok|split; [exists []; rewrite app_nil_r; auto|exact I]]).
  unfold is_max_stacked in Hmax. apply Z.leb_gt in Hmax.
  assert (Hwe : stack_size existing = a) by (unfold stack_size; rewrite Ea; reflexivity).
  assert (Hwi : stack_size item = b) by (unfold stack_size; rewrite Eb; reflexivity).
  unfold item_ok in Hi, He. rewrite Hwe in He, Hmax. rewrite Hwi in Hi. split_andb.
  cbv zeta. rewrite (wrap_small 16 (a + b)) by (apply fits_spec; lia).
  set (max := max_stack_size (reference item)) in *.
  assert (Htop : forall d, 0 <= d <= max ->
    let inv' := push (set_item inv i (with_type_data existing (Consumable d)))
                  (ChangeTypeData i (Consumable a) (Consumable d)) in
    items_ok (items inv') /\ recorded inv inv'
    /\ forall r, total r (items inv') = total r (items inv)
         + if ref_id (reference item) =? r then d - a else 0).
  { intros d Hd inv'. subst inv'. cbn [items push set_item set_items]. repeat split.
    - apply items_ok_insert; [exact Hok|]. unfold item_ok, stack_size. cbn. rewrite Hms. fold max. lia.
    - exists [ChangeTypeData i (Consumable a) (Consumable d)]. split; [reflexivity|]. cbn. rewrite Hs. cbn.
      rewrite decide_True by exact Ea. reflexivity.
    - intros r. rewrite total_insert, (total_delete r i existing (items inv)) by exact Hs.
      rewrite consumable_weight. unfold weight. rewrite Hwe, Href. destruct (_ =? r); lia. }
  destruct (Z.leb_spec (a + b) max).
  - destruct (Htop (a + b) ltac:(lia)) as (O & R & T). split; [exact O|]. split; [exact R|].
    cbn [fst snd]. split.
    + intros r. rewrite T. unfold weight. rewrite Hwi. destruct (_ =? r); lia.
    + exists (with_type_data existing (Consumable (a + b))). cbn. rewrite lookup_insert_eq. auto.
  - destruct (Htop max ltac:(lia)) as (O & R & T).
    rewrite (wrap_small 16 (a + b - max)) by (apply fits_spec; lia).
    pose proof (add_to_free_slot_added
      (push (set_item inv i (with_type_data existing (Consumable max)))
         (ChangeTypeData i (Consumable a) (Consumable max)))
      (with_type_data item (Consumable (a + b - max))) O) as Hf.
    destruct Hf as (O' & R' & T').
    { unfold item_ok, stack_size. cbn. fold max. lia. }
    split; [exact O'|]. split; [eapply recorded_trans; eassumption|].
    destruct (add_to_free_slot _ _) as [[slot|] inv'']; [|exact I]. cbn [fst snd] in *.
    destruct T' as [T' Hslot]. split; [|exact Hslot].
    intros r. rewrite T', T, consumable_weight. unfold weight. rewrite Hwi. destruct (_ =? r); lia.
Qed.

Lemma add_to_matching_added inv slots item :
  items_ok (items inv) -> item_ok item = true ->
  (forall s i, items inv !! s = Some i -> ref_id (reference i) = ref_id (reference item) ->
     max_stack_size (reference i) = max_stack_size (reference item)) ->
  forall res, add_to_matching inv slots item = Some res -> added inv item res.
Proof.
  intros Hok Hi Hms. induction slots as [|s slots IH]; [discriminate|]. intros res.
  cbn [add_to_matching]. destruct (items inv !! s) as [existing|] eqn:Hs; [|discriminate].
  destruct (is_max_stacked existing) eqn:Em; [exact (IH res)|]. cbn [negb andb].
  destruct (Z.eqb_spec (ref_id (reference existing)) (ref_id (reference item))); [|exact (IH res)].
  intros [= <-]. apply add_to_stack_added; auto. eapply Hms; eassumption.
Qed.

(** [add_item] keeps every stack within its limit and records changes that
    replay it; when it reports a slot, exactly the added quantity appeared and
    the slot holds an item of that reference. References with one id share
    their data, as the data files guarantee; the order in which the hash map
    lists the slots does not matter. *)
Theorem add_item_quantity (inv : Inventory) (item : Item)
    (Hok : items_ok (items inv)) (Hi : item_ok item = true)
    (Hdata : forall s i, items inv !! s = Some i -> ref_id (reference i) = ref_id (reference item) ->
       max_stack_size (reference i) = max_stack_size (reference item)) :
  added inv item (add_item iterate inv item).
Proof.
  unfold add_item. destruct (1 <? _); [|apply add_to_free_slot_added; assumption].
  destruct (add_to_matching inv (find_slots_matching iterate inv item) item) as [res|] eqn:E;
    [|apply add_to_free_slot_added; assumption].
  eapply add_to_matching_added; eassumption.
Qed.

End Adding.

Lemma add_item_quantity_witness :
  let inv := inventory_of [(20, potions 5); (21, potions 48)] in
  added inv (potions 4) (add_item slots_of inv (potions 4)).
Proof.
  intros inv. apply add_item_quantity; [apply items_ok_of; reflexivity|reflexivity|].
  intros s i Hs. unfold inv, inventory_of in Hs. cbn [items] in Hs.
  apply elem_of_list_to_map_2 in Hs. apply list_elem_of_In in Hs.
  destruct Hs as [[= <- <-]|[[= <- <-]|[]]]; reflexivity.
Defined.

(** When the inventory is full, [add_item] reports a failure after topping
    up a matching stack: the caller keeps the item and the inventory holds a
    part of it as well. *)
Theorem add_item_full_keeps_part :
  let slots := map (fun k => (k, a_sword)) (seqZ 13 31) in
  let inv := inventory_of ((44, potions 48) :: slots) in
  (add_item slots_of inv (potions 4)).1 = None
  /\ total 1 (items (add_item slots_of inv (potions 4)).2) = total 1 (items inv) + 2.
Proof. vm_compute. auto. Qed.

(** ** Removing *)

(** [remove_item] takes a part off a larger stack without recording the
    change, so the stored amount is not the one of the inventory; and a
    request for a single item removes the whole first stack. *)
Theorem remove_item_unrecorded :
  let inv := inventory_of [(20, potions 30)] in
  let part := remove_item slots_of inv (potions 10) in
  let one := remove_item slots_of inv (potions 1) in
  part.1 = Ok 10 /\ total 1 (items part.2) = 20 /\ changes part.2 = []
  /\ one.1 = Ok 1 /\ total 1 (items one.2) = 0.
Proof. vm_compute. auto 10. Qed.

(** ** Optimizing recorded changes *)

(** Optimizing the changes of an inventory is not sound for moves: an item
    moved away, another one put in its place and the first one removed
    optimize to the removal of the new item; and two swaps that undo each
    other are kept while the merge looks for a swap of a slot with itself. *)
Theorem optimize_moves_unsound :
  let inv := (list_to_map [(20, a_sword)] : gmap Z Item) in
  let cs := [MoveItem 20 21; AddItem 20 (potions 5); RemoveItem 21] in
  optimize cs = [AddItem 20 (potions 5); RemoveItem 20]
  /\ apply_inventory_changes cs inv = Some {[20 := potions 5]}
  /\ apply_inventory_changes (optimize cs) inv = None
  /\ optimize [Swap 20 21; Swap 20 21] = [Swap 20 21; Swap 20 21].
Proof. cbv zeta. repeat split; vm_compute; reflexivity. Qed.
