(* ===== verification/InventoryRows.v ===== *)
(** silkroad-agent/src/comp/inventory.rs: the stored rows of a character's
    items, what applying a recorded change does to them, and how an inventory
    is loaded from them.

    The table of one character is a map from slots to rows, by the unique
    constraint on character and slot; a statement that would break it fails. *)
From Stdlib Require Import ZArith Lia.
From stdpp Require Import base list option gmap.
From S2P Require Import Prelude Definitions TypeIdEnums TypeId GameData Changes Inventory.
From S2P Require Import InventoryFacts InventorySpec.

(** [CharacterItem] without its character and slot. *)
Record CharacterItem := {
  item_obj_id : Z;
  db_upgrade_level : Z;
  db_variance : option Z;
  db_amount : Z;
}.

Definition table : Type := gmap Z CharacterItem.

(** [ItemTypeData::upgrade_level], or 0 where the statements take a default. *)
Definition upgrade_level_or_0 (d : ItemTypeData) : Z :=
  match d with Equipment upgrade_level => upgrade_level | _ => 0 end.

(** The values bound for an item. *)
Definition row_of (i : Item) : CharacterItem :=
  {| item_obj_id := i32 (ref_id i.(reference));
     db_upgrade_level := i16 (upgrade_level_or_0 i.(type_data));
     db_variance := i64 <$> i.(variance);
     db_amount := i16 (amount_of i.(type_data)) |}.

Definition set_type_data (d : ItemTypeData) (r : CharacterItem) : CharacterItem :=
  {| item_obj_id := r.(item_obj_id); db_upgrade_level := i16 (upgrade_level_or_0 d);
     db_variance := r.(db_variance); db_amount := i16 (amount_of d) |}.

(** [UPDATE character_items SET slot = target WHERE slot = source], and
    whether the database accepts it. *)
Definition update_slot (source target : Z) (t : gmap Z CharacterItem) : bool * gmap Z CharacterItem :=
  match t !! source with
  | None => (true, t)
  | Some r =>
      match delete source t !! target with
      | Some _ => (false, t)
      | None => (true, <[target := r]> (delete source t))
      end
  end.

(** [ApplyToDatabase for InventoryChange]: whether it succeeds, and the rows
    afterwards; the statements of a swap are not one transaction. *)
Definition apply_to_rows (c : InventoryChange) (t : gmap Z CharacterItem) : bool * gmap Z CharacterItem :=
  match c with
  | AddItem slot item => (true, <[slot := row_of item]> t)
  | ChangeTypeData slot _ new_item =>
      (true, match t !! slot with Some r => <[slot := set_type_data new_item r]> t | None => t end)
  | MoveItem source_slot target_slot => update_slot source_slot target_slot t
  | RemoveItem slot => (true, delete slot t)
  | Swap first_slot second_slot =>
      let '(ok, t) := update_slot first_slot (-1) t in
      if ok then
        let '(ok, t) := update_slot second_slot first_slot t in
        if ok then update_slot (-1) second_slot t else (false, t)
      else (false, t)
  end.

(** The loop of [apply_changes_exit], with the number of errors it logs. *)
Fixpoint apply_each (cs : list InventoryChange) (t : gmap Z CharacterItem) : nat * gmap Z CharacterItem :=
  match cs with
  | [] => (0%nat, t)
  | c :: cs =>
      let '(ok, t) := apply_to_rows c t in
      let '(errors, t) := apply_each cs t in
      (if ok then errors else S errors, t)
  end.

Definition apply_changes_exit (changes : list InventoryChange) (t : gmap Z CharacterItem)
    : nat * gmap Z CharacterItem := apply_each (optimize changes) t.

(** ** Loading *)

Section Loading.

(** The lookup of the item data. *)
Variable find_id : Z -> option RefItemData.

Definition item_type_data_for (ref_data : RefItemData) (r : CharacterItem) : outcome MoveError ItemTypeData :=
  match from_type_id (type_id_of ref_data) with
  | Some (Type_Item item_type) =>
      Ok (match item_type with
          | Item_Equippable _ => Equipment (u8 r.(db_upgrade_level))
          | Item_Pet _ => COS
          | _ => Consumable (u16 r.(db_amount))
          end)
  | _ => Panic
  end.

Definition item_of_row (r : CharacterItem) : outcome MoveError Item :=
  match find_id (u32 r.(item_obj_id)) with
  | Some item_def =>
      d ← item_type_data_for item_def r;
      Ok {| reference := item_def; variance := u64 <$> r.(db_variance); type_data := d |}
  | None => Panic
  end.

(** [from_db_inventory]: the rows in the order of the query. *)
Fixpoint load_rows (rows : list (Z * CharacterItem)) (inv : Inventory) : outcome MoveError Inventory :=
  match rows with
  | [] => Ok inv
  | (slot, r) :: rows => i ← item_of_row r; load_rows rows (set_item inv (u8 slot) i)
  end.

Definition from_db_inventory (rows : list (Z * CharacterItem)) (size : Z) : outcome MoveError Inventory :=
  inv ← inventory_new size; load_rows rows inv.

End Loading.

(** ** Applying changes to rows follows the inventory *)

Definition rows_of (m : gmap Z Item) : gmap Z CharacterItem := row_of <$> m.

(** Slots are bytes; -1 is the slot a swap uses in between. *)
Definition slots_ok (m : gmap Z Item) : Prop := forall s i, m !! s = Some i -> 0 <= s < 256.
Definition change_slots_ok (c : InventoryChange) : Prop :=
  match c with
  | AddItem s _ | ChangeTypeData s _ _ | RemoveItem s => 0 <= s < 256
  | MoveItem s t | Swap s t => 0 <= s < 256 /\ 0 <= t < 256
  end.

Lemma rows_lookup m s : rows_of m !! s = row_of <$> m !! s.
Proof. apply lookup_fmap. Qed.

Lemma rows_insert m s i : rows_of (<[s := i]> m) = <[s := row_of i]> (rows_of m).
Proof. apply fmap_insert. Qed.

Lemma rows_delete m s : rows_of (delete s m) = delete s (rows_of m).
Proof. apply fmap_delete. Qed.

Lemma rows_lookup_none m s : m !! s = None -> rows_of m !! s = None.
Proof. intros H. rewrite rows_lookup, H. reflexivity. Qed.

Lemma update_slot_moves (t : gmap Z CharacterItem) source target r :
  t !! source = Some r -> delete source t !! target = None ->
  update_slot source target t = (true, <[target := r]> (delete source t)).
Proof. intros Hs Ht. unfold update_slot. rewrite Hs, Ht. reflexivity. Qed.

(** Decides a lookup in a map built by insertions and deletions. *)
Ltac slot_lookup :=
  repeat first
    [ rewrite lookup_insert_eq | rewrite lookup_delete_eq
    | rewrite lookup_insert_ne by (congruence || lia)
    | rewrite lookup_delete_ne by (congruence || lia) ]; auto.

Lemma swap_rows (t : gmap Z CharacterItem) f s ra rb :
  0 <= f -> 0 <= s -> t !! (-1) = None -> t !! f = Some ra -> t !! s = Some rb ->
  apply_to_rows (Swap f s) t = (true, <[s := ra]> (<[f := rb]> t)).
Proof.
  intros Hf Hs Hn Ha Hb. cbn [apply_to_rows]. rewrite (update_slot_moves t f (-1) ra) by slot_lookup.
  set (t1 := <[-1 := ra]> (delete f t)).
  assert (E1 : (if decide (f = s) then t1 else <[f := rb]> (delete s t1)) !! (-1) = Some ra).
  { subst t1. destruct (decide (f = s)); slot_lookup. }
  assert (E2 : update_slot s f t1 = (true, if decide (f = s) then t1 else <[f := rb]> (delete s t1))).
  { destruct (decide (f = s)) as [<-|Hne].
    - unfold update_slot, t1. slot_lookup.
    - apply update_slot_moves; subst t1; slot_lookup. }
  rewrite E2, (update_slot_moves _ _ _ ra E1).
  - f_equal. apply map_eq. intros k. subst t1.
    destruct (decide (k = s)) as [->|]; [slot_lookup|]. destruct (decide (k = -1)) as [->|].
    { slot_lookup. }
    destruct (decide (f = s)) as [->|]; [slot_lookup|].
    destruct (decide (k = f)) as [->|]; slot_lookup.
  - subst t1. destruct (decide (f = s)) as [->|]; slot_lookup.
Qed.

Lemma slots_ok_insert m s i : slots_ok m -> 0 <= s < 256 -> slots_ok (<[s := i]> m).
Proof.
  intros Hm Hs k j. destruct (decide (k = s)) as [->|]; [auto|].
  rewrite lookup_insert_ne by congruence. apply Hm.
Qed.

Lemma slots_ok_delete m s : slots_ok m -> slots_ok (delete s m).
Proof. intros Hm k j Hk. apply lookup_delete_Some in Hk as [_ Hk]. eapply Hm, Hk. Qed.

(** The statements do to the rows what the change says of the items. *)
Lemma apply_refines c m m' :
  slots_ok m -> change_slots_ok c -> apply_inventory_change c m = Some m' ->
  apply_to_rows c (rows_of m) = (true, rows_of m') /\ slots_ok m'.
Proof.
  intros Hm Hc E. destruct c as [s i|s d d'|s t|s|f s]; cbn [apply_inventory_change change_slots_ok] in *.
  - destruct (m !! s); [discriminate|]. injection E as <-.
    split; [cbn [apply_to_rows]; rewrite rows_insert; reflexivity | apply slots_ok_insert; assumption].
  - destruct (m !! s) as [i|] eqn:Es; [|discriminate]. cbn [mbind option_bind] in E.
    destruct (decide _); [|discriminate]. injection E as <-. split; [|apply slots_ok_insert; assumption].
    cbn [apply_to_rows]. rewrite rows_lookup, Es, rows_insert. reflexivity.
  - destruct (m !! s) as [i|] eqn:Es; [|discriminate]. cbn [mbind option_bind] in E.
    destruct (delete s m !! t) eqn:Et; [discriminate|]. injection E as <-.
    split.
    { cbn [apply_to_rows]. rewrite rows_insert, rows_delete. apply update_slot_moves; [rewrite rows_lookup, Es; reflexivity|].
      rewrite <- rows_delete. apply rows_lookup_none, Et. }
    apply slots_ok_insert; [apply slots_ok_delete, Hm | apply Hc].
  - destruct (m !! s) as [i|]; [|discriminate]. injection E as <-.
    split; [cbn [apply_to_rows]; rewrite rows_delete; reflexivity | apply slots_ok_delete, Hm].
  - destruct (m !! f) as [a|] eqn:Ef; [|discriminate]. cbn [mbind option_bind] in E.
    destruct (m !! s) as [b|] eqn:Es; [|discriminate]. injection E as <-. destruct Hc as [Hf Hs].
    split; [|repeat apply slots_ok_insert; assumption].
    rewrite (swap_rows (rows_of m) f s (row_of a) (row_of b)); [|lia|lia| | |].
    + rewrite !rows_insert. reflexivity.
    + rewrite rows_lookup. destruct (m !! (-1)) as [i|] eqn:E1; [|reflexivity].
      apply Hm in E1. lia.
    + rewrite rows_lookup, Ef. reflexivity.
    + rewrite rows_lookup, Es. reflexivity.
Qed.

Lemma apply_each_refines cs : forall m m',
  slots_ok m -> Forall change_slots_ok cs -> apply_inventory_changes cs m = Some m' ->
  apply_each cs (rows_of m) = (0%nat, rows_of m') /\ slots_ok m'.
Proof.
  induction cs as [|c cs IH]; intros m m' Hm Hcs E; cbn [apply_inventory_changes apply_each] in *.
  - injection E as <-. auto.
  - apply Forall_cons in Hcs as [Hc Hcs]. destruct (apply_inventory_change c m) as [m1|] eqn:E1; [|discriminate].
    destruct (apply_refines c m m1 Hm Hc E1) as [-> Hm1].
    destruct (IH m1 m' Hm1 Hcs E) as [-> Hm']. auto.
Qed.

(** ** The changes of the operations *)

(** The changes of one operation: they replay it, their slots are bytes, and
    none of them is merged with another one. *)
Definition logged (inv inv' : Inventory) : Prop :=
  exists cs, changes inv' = changes inv ++ cs
    /\ Forall change_slots_ok cs
    /\ apply_inventory_changes cs (items inv) = Some (items inv')
    /\ unmerged cs.

Lemma unmerged_pair (c d : InventoryChange) : merge c d = Unchanged c d -> unmerged [c; d].
Proof.
  intros E i j a b Hij Ha Hb. destruct i as [|[|i]], j as [|[|j]]; try lia; try discriminate.
  cbn in Ha, Hb. injection Ha as <-. injection Hb as <-. exact E.
Qed.
Lemma unmerged_one (c : InventoryChange) : unmerged [c].
Proof. intros i j a b Hij Ha Hb. destruct i, j; try lia; discriminate. Qed.
Lemma unmerged_none : unmerged (@nil InventoryChange).
Proof. intros i j a b _ Ha. discriminate. Qed.
#[local] Hint Resolve unmerged_one unmerged_none : core.

(** Changes of different slots are not merged. *)
Definition touched (c : InventoryChange) : list Z :=
  match c with
  | AddItem slot _ | ChangeTypeData slot _ _ | RemoveItem slot => [slot]
  | MoveItem source_slot target_slot => [source_slot; target_slot]
  | Swap first_slot second_slot => [first_slot; second_slot]
  end.

Lemma apart_unmerged (c d : InventoryChange) :
  (forall slot, slot ∈ touched c -> slot ∉ touched d) -> merge c d = Unchanged c d.
Proof.
  intros H. assert (Hne : forall s s', s ∈ touched c -> s' ∈ touched d -> s <> s') by (intros s s' H1 H2 ->; exact (H s' H1 H2)).
  destruct c, d; cbn in *; unfold merge, InventoryChange_change;
    repeat match goal with
    | |- context [Z.eqb ?a ?b] => destruct (Z.eqb_spec a b); [exfalso; first [apply (Hne a b); [set_solver..|congruence]|apply (Hne b a); [set_solver..|congruence]]|]
    end; reflexivity.
Qed.

Lemma logged_of_recorded inv inv' cs :
  recorded inv inv' -> changes inv' = changes inv ++ cs -> Forall change_slots_ok cs ->
  unmerged cs -> logged inv inv'.
Proof.
  intros (ds & E & A) E' Hcs Ho. exists cs. rewrite E in E'. apply app_inv_head in E' as ->. auto.
Qed.

Lemma unchanged_logged inv : logged inv inv.
Proof. exists []. rewrite app_nil_r. repeat split; auto. Qed.

Lemma move_item_logged inv s t amount n inv' :
  0 <= s < 256 -> 0 <= t < 256 -> move_item inv s t amount = (Ok n, inv') -> logged inv inv'.
Proof.
  intros Hs Ht Hm. pose proof (move_item_recorded _ _ _ _ _ _ Hm) as R.
  assert (Hne : forall ti, delete s (items inv) !! t = Some ti -> s <> t).
  { intros ti E ->. rewrite lookup_delete_eq in E. discriminate. }
  unfold move_item in Hm. destruct (items inv !! s) as [si|]; [|discriminate]. cbn [items set_items] in Hm.
  destruct (delete s (items inv) !! t) as [ti|].
  - specialize (Hne ti eq_refl). destruct (_ && _).
    + unfold move_stack in Hm. cbv zeta in Hm. destruct (_ =? 0).
      { injection Hm as _ <-. apply (logged_of_recorded _ _ []); cbn; rewrite ?app_nil_r; auto. }
      destruct (amount <=? _).
      * destruct (change_stack_size ti _) as [ti'| |]; try discriminate. injection Hm as _ <-.
        apply (logged_of_recorded _ _ [RemoveItem s; ChangeTypeData t (type_data ti) (type_data ti')]);
          [exact R|cbn; rewrite <- app_assoc; reflexivity|repeat constructor; cbn; lia|].
        apply unmerged_pair. cbn. rewrite (proj2 (Z.eqb_neq s t)) by exact Hne. reflexivity.
      * destruct (change_stack_size ti _) as [ti'| |]; try discriminate.
        destruct (change_stack_size si _) as [si'| |]; try discriminate. injection Hm as _ <-.
        apply (logged_of_recorded _ _ [ChangeTypeData t (type_data ti) (type_data ti');
                                       ChangeTypeData s (type_data si) (type_data si')]);
          [exact R|cbn; rewrite <- app_assoc; reflexivity|repeat constructor; cbn; lia|].
        apply unmerged_pair. cbn. rewrite (proj2 (Z.eqb_neq t s)) by congruence. reflexivity.
    + injection Hm as _ <-. apply (logged_of_recorded _ _ [Swap s t]); auto; repeat constructor; cbn; lia.
  - injection Hm as _ <-. apply (logged_of_recorded _ _ [MoveItem s t]); auto; repeat constructor; cbn; lia.
Qed.

Lemma empty_slot_byte inv slot : empty_slot inv = Some slot -> 0 <= slot < 256.
Proof.
  intros E. apply empty_slot_spec in E as (_ & _ & E). pose proof (wrap_range 8 (size inv)). lia.
Qed.

Lemma free_slot_logged inv item : logged inv (add_to_free_slot inv item).2.
Proof.
  unfold add_to_free_slot. destruct (empty_slot inv) as [slot|] eqn:E; [|apply unchanged_logged].
  pose proof (empty_slot_byte _ _ E). apply empty_slot_spec in E as (E & _).
  exists [AddItem slot item]. cbn. rewrite E. split_and!; auto.
Qed.

Lemma add_to_stack_logged inv i existing item :
  slots_ok (items inv) -> items inv !! i = Some existing ->
  logged inv (add_to_stack inv i existing item).2.
Proof.
  intros Hok Hi. unfold add_to_stack. destruct (type_data existing) as [| |a|] eqn:Ea; try apply unchanged_logged.
  destruct (type_data item) as [| |b|]; try apply unchanged_logged. cbv zeta.
  pose proof (Hok _ _ Hi) as Hb.
  assert (A : forall d, apply_inventory_change (ChangeTypeData i (Consumable a) d) (items inv)
    = Some (<[i := with_type_data existing d]> (items inv))).
  { intros d. cbn. rewrite Hi. cbn. rewrite decide_True by exact Ea. reflexivity. }
  destruct (_ <=? _).
  - eexists [_]. cbn [fst snd push set_item set_items changes items]. split; [reflexivity|].
    split; [repeat constructor; cbn; lia|]. cbn [apply_inventory_changes]. rewrite A. auto.
  - unfold add_to_free_slot. destruct (empty_slot _) as [slot|] eqn:E.
    + pose proof (empty_slot_byte _ _ E). apply empty_slot_spec in E as (E & _).
      eexists [_; _]. cbn [fst snd push set_item set_items changes items] in *.
      split; [rewrite <- app_assoc; reflexivity|]. split; [repeat constructor; cbn; lia|].
      split; [cbn [apply_inventory_changes]; rewrite A; cbn; rewrite E; reflexivity|].
      apply unmerged_pair. reflexivity.
    + eexists [_]. cbn [fst snd push set_item set_items changes items]. split; [reflexivity|].
      split; [repeat constructor; cbn; lia|]. cbn [apply_inventory_changes]. rewrite A. auto.
Qed.

Lemma add_to_matching_logged slots inv item res :
  slots_ok (items inv) -> add_to_matching inv slots item = Some res -> logged inv res.2.
Proof.
  intros Hok. induction slots as [|s slots IH]; [discriminate|]. cbn [add_to_matching].
  destruct (items inv !! s) as [existing|] eqn:Hs; [|discriminate].
  destruct (_ && _); [|exact IH]. intros [= <-]. apply add_to_stack_logged; assumption.
Qed.

Section Operations.
Variable iterate : gmap Z Item -> list (Z * Item).

Lemma add_item_logged inv item :
  slots_ok (items inv) -> logged inv (add_item iterate inv item).2.
Proof.
  intros Hok. unfold add_item. destruct (1 <? _); [|apply free_slot_logged].
  destruct (add_to_matching _ _ _) as [res|] eqn:E; [|apply free_slot_logged].
  eapply add_to_matching_logged; eassumption.
Qed.

(** The calls that the game makes on an inventory; a failed move is not one,
    since it leaves the inventory broken. *)
Inductive operation :=
| Moving (source target amount : Z)
| Adding_item (item : Item).

Definition operation_ok (o : operation) : Prop :=
  match o with Moving s t _ => 0 <= s < 256 /\ 0 <= t < 256 | Adding_item _ => True end.

Definition perform (o : operation) (inv : Inventory) : option Inventory :=
  match o with
  | Moving s t amount =>
      match move_item inv s t amount with (Ok _, inv') => Some inv' | _ => None end
  | Adding_item item => Some (add_item iterate inv item).2
  end.

Fixpoint perform_all (os : list operation) (inv : Inventory) : option Inventory :=
  match os with [] => Some inv | o :: os => inv ← perform o inv; perform_all os inv end.

Lemma perform_logged o inv inv' :
  slots_ok (items inv) -> operation_ok o -> perform o inv = Some inv' -> logged inv inv'.
Proof.
  intros Hok Ho. destruct o as [s t a|item]; cbn.
  - destruct (move_item inv s t a) as [[n| |] inv1] eqn:E; try discriminate. intros [= <-].
    destruct Ho as [Hs Ht]. exact (move_item_logged _ _ _ _ _ _ Hs Ht E).
  - intros [= <-]. apply add_item_logged, Hok.
Qed.

Lemma apply_changes_app cs ds m m' :
  apply_inventory_changes cs m = Some m' -> apply_inventory_changes (cs ++ ds) m = apply_inventory_changes ds m'.
Proof.
  revert m; induction cs as [|c cs IH]; intros m; [intros [= ->]; reflexivity|]. cbn.
  destruct (apply_inventory_change c m) as [m1|]; [apply IH|discriminate].
Qed.

(** The changes of any sequence of operations replay it. *)
Lemma perform_all_logged os inv inv' :
  slots_ok (items inv) -> Forall operation_ok os -> perform_all os inv = Some inv' ->
  slots_ok (items inv') /\ exists cs, changes inv' = changes inv ++ cs /\ Forall change_slots_ok cs
    /\ apply_inventory_changes cs (items inv) = Some (items inv').
Proof.
  intros Hok Hos. revert inv Hok; induction Hos as [|o os Ho Hos IH]; intros inv Hok Hrun; cbn [perform_all] in Hrun.
  - injection Hrun as <-. split; [exact Hok|]. exists []. rewrite app_nil_r. auto.
  - destruct (perform o inv) as [inv1|] eqn:E; [|discriminate].
    destruct (perform_logged o inv inv1 Hok Ho E) as (cs & Ec & Hcs & Ha & _).
    destruct (apply_each_refines cs _ _ Hok Hcs Ha) as [_ Hok1].
    destruct (IH inv1 Hok1 Hrun) as (Hok' & ds & Ed & Hds & Hd). split; [exact Hok'|]. exists (cs ++ ds).
    rewrite Ed, Ec, app_assoc, (apply_changes_app _ _ _ _ Ha). rewrite Forall_app. auto.
Qed.

Lemma apply_each_app cs ds t t' :
  apply_each cs t = (0%nat, t') -> apply_each (cs ++ ds) t = apply_each ds t'.
Proof.
  revert t; induction cs as [|c cs IH]; intros t; [intros [= <-]; reflexivity|]. cbn [app apply_each].
  destruct (apply_to_rows c t) as [ok t1]. destruct (apply_each cs t1) as [n t2] eqn:E.
  destruct ok; [|discriminate]. intros [= -> ->]. rewrite (IH t1 E).
  destruct (apply_each ds t'); reflexivity.
Qed.

(** C11: The stored rows follow the inventory: after any sequence of successful
    moves and of additions, the statements of the changes recorded meanwhile,
    executed in the order of recording, all succeed and turn the rows of the
    old items into the rows of the new ones. When one operation happened since
    the changes were last taken, the loop of a disconnection, which optimizes
    them first, does this as well. *)
Theorem database_follows_inventory (os : list operation) (inv inv' : Inventory)
    (Hok : slots_ok (items inv)) (Hos : Forall operation_ok os)
    (Hrun : perform_all os inv = Some inv') :
  exists cs, changes inv' = changes inv ++ cs
    /\ apply_each cs (rows_of (items inv)) = (0%nat, rows_of (items inv'))
    /\ ((length os <= 1)%nat ->
          apply_changes_exit cs (rows_of (items inv)) = (0%nat, rows_of (items inv'))).
Proof.
  revert inv Hok Hrun; induction Hos as [|o os Ho Hos IH]; intros inv Hok Hrun; cbn [perform_all] in Hrun.
  - injection Hrun as <-. exists []. rewrite app_nil_r. auto.
  - destruct (perform o inv) as [inv1|] eqn:E; [|discriminate].
    destruct (perform_logged o inv inv1 Hok Ho E) as (cs & Ec & Hcs & Ha & Hopt).
    destruct (apply_each_refines cs _ _ Hok Hcs Ha) as [Hr Hok1].
    destruct (IH inv1 Hok1 Hrun) as (ds & Ed & Hd & _). exists (cs ++ ds). split; [|split].
    + rewrite Ed, Ec, app_assoc. reflexivity.
    + rewrite (apply_each_app _ _ _ _ Hr). exact Hd.
    + intros Hl. destruct os; [|cbn in Hl; lia]. injection Hrun as <-.
      assert (ds = []) as -> by (apply (app_inv_head (changes inv1)); rewrite app_nil_r; symmetry; exact Ed).
      unfold apply_changes_exit. rewrite app_nil_r, (optimize_unmerged _ Hopt). exact Hr.
Qed.

End Operations.

Lemma database_follows_inventory_witness :
  let inv := inventory_of [(20, potions 5); (21, potions 48); (22, a_sword)] in
  let os := [Moving 20 21 5; Adding_item (potions 4); Moving 22 20 1] in
  exists inv' cs, perform_all slots_of os inv = Some inv' /\ changes inv' = changes inv ++ cs
    /\ apply_each cs (rows_of (items inv)) = (0%nat, rows_of (items inv')).
Proof.
  intros inv os. destruct (perform_all slots_of os inv) as [inv'|] eqn:E; [|vm_compute in E; discriminate].
  assert (Hok : slots_ok (items inv)).
  { intros s i Hs. apply elem_of_list_to_map_2, list_elem_of_In in Hs.
    destruct Hs as [[= <- <-]|[[= <- <-]|[[= <- <-]|[]]]]; lia. }
  assert (Hos : Forall operation_ok os) by (repeat constructor; cbn; lia).
  destruct (database_follows_inventory slots_of os inv inv' Hok Hos E) as (cs & A & B & _).
  exists inv', cs. auto.
Defined.

(** The order matters: changes that are applied concurrently, as between two
    persistence runs, may leave other rows. *)
Lemma application_order_matters :
  let t := rows_of (list_to_map [(20, a_sword)]) in
  apply_each [MoveItem 20 21; AddItem 20 (potions 5)] t
    <> apply_each [AddItem 20 (potions 5); MoveItem 20 21] t.
Proof. vm_compute. discriminate. Qed.

(** ** Loading what was stored *)

Lemma u8_i16 z : fits 8 z = true -> u8 (i16 z) = z.
Proof.
  intros Hz. rewrite (swrap_small 16); [apply wrap_small, Hz|lia|].
  apply fits_spec in Hz. apply sfits_spec. lia.
Qed.

Section Storing.
Variable find_id : Z -> option RefItemData.

(** What a stored item needs to come back: its reference is found under its
    id, its data are those of its type, and the numbers have their widths. *)
Definition storable (i : Item) : Prop :=
  fits 32 (ref_id (reference i)) = true
  /\ find_id (ref_id (reference i)) = Some (reference i)
  /\ match variance i with Some v => fits 64 v = true | None => True end
  /\ match from_type_id (type_id_of (reference i)), type_data i with
     | Some (Type_Item (Item_Equippable _)), Equipment u => fits 8 u = true
     | Some (Type_Item (Item_Pet _)), COS => True
     | Some (Type_Item (Item_Equippable _)), _ => False
     | Some (Type_Item (Item_Pet _)), _ => False
     | Some (Type_Item _), Consumable a => fits 16 a = true
     | _, _ => False
     end.

Lemma item_of_row_of i : storable i -> item_of_row find_id (row_of i) = Ok i.
Proof.
  destruct i as [r v d]. unfold storable. cbn [reference variance type_data].
  intros (Hr & Hf & Hv & Hd). unfold item_of_row, row_of. cbn [item_obj_id reference].
  rewrite (wrap_swrap 32), Hf by (lia || exact Hr). unfold item_type_data_for.
  assert (Ev : u64 <$> (i64 <$> v) = v).
  { destruct v as [v|]; [cbn; rewrite (wrap_swrap 64) by (lia || exact Hv); reflexivity|reflexivity]. }
  cbn [db_variance db_upgrade_level db_amount variance type_data]. rewrite Ev.
  destruct (from_type_id (type_id_of r)) as [o|]; [|contradiction].
  destruct o as [|ty|]; try contradiction. destruct ty; destruct d as [u| |a|]; try contradiction;
    cbn [upgrade_level_or_0 amount_of mbind outcome_bind];
    rewrite ?(wrap_swrap 16) by (lia || exact Hd); rewrite ?u8_i16 by exact Hd; reflexivity.
Qed.

Lemma load_rows_list (l : list (Z * Item)) : forall inv,
  NoDup l.*1 -> Forall (fun '(s, i) => fits 8 s = true /\ storable i) l ->
  load_rows find_id (prod_map id row_of <$> l) inv
  = Ok (set_items inv (list_to_map l ∪ items inv)).
Proof.
  induction l as [|[s i] l IH]; intros inv Hnd Hl; cbn [fmap list_fmap load_rows prod_map].
  - destruct inv. unfold set_items. cbn. rewrite (left_id_L ∅ (∪)). reflexivity.
  - apply Forall_cons in Hl as [[Hs Hi] Hl]. cbn in Hnd. apply NoDup_cons in Hnd as [Hnin Hnd].
    rewrite item_of_row_of by exact Hi. cbn [mbind outcome_bind id].
    cbn [fst snd]. rewrite (wrap_small 8 s Hs), IH by assumption. unfold set_item, set_items. cbn [size items changes].
    do 2 f_equal. rewrite list_to_map_cons, <- insert_union_l, insert_union_r; [reflexivity|].
    apply not_elem_of_list_to_map_1, Hnin.
Qed.

Lemma load_permuted (m : gmap Z Item) (rows : list (Z * CharacterItem)) (inv : Inventory) :
  slots_ok m -> (forall s i, m !! s = Some i -> storable i) -> Permutation rows (map_to_list (rows_of m)) ->
  load_rows find_id rows inv = Ok (set_items inv (m ∪ items inv)).
Proof.
  intros Hslots Hitems Hrows. unfold rows_of in Hrows. rewrite map_to_list_fmap in Hrows.
  apply Permutation_map_inv in Hrows as (l & -> & Hl). symmetry in Hl.
  assert (Hn : NoDup l.*1) by (rewrite Hl; apply NoDup_fst_map_to_list).
  rewrite load_rows_list; [|exact Hn|].
  - rewrite (list_to_map_proper l (map_to_list m)), list_to_map_to_list; [reflexivity|exact Hn|exact Hl].
  - rewrite Hl. apply Forall_forall. intros [s i] Hin. apply elem_of_map_to_list in Hin.
    split; [apply fits_spec; apply (Hslots _ _ Hin) | apply (Hitems _ _ Hin)].
Qed.

(** An inventory is loaded from its rows as it was, in whatever order the
    database returns them: no lookup fails, and every number comes back from
    the narrower signed columns. *)
Theorem stored_inventory_loads (m : gmap Z Item) (rows : list (Z * CharacterItem)) (sz : Z)
    (Hslots : slots_ok m) (Hitems : forall s i, m !! s = Some i -> storable i)
    (Hsize : 0xC < sz) (Hrows : Permutation rows (map_to_list (rows_of m))) :
  from_db_inventory find_id rows sz = Ok {| size := sz; items := m; changes := [] |}.
Proof.
  unfold from_db_inventory, inventory_new. rewrite (proj2 (Z.ltb_lt _ _) Hsize). cbn [mbind outcome_bind].
  rewrite (load_permuted m) by assumption. unfold set_items. cbn [size items changes].
  rewrite (right_id_L ∅ (∪)). reflexivity.
Qed.
End Storing.

Lemma stored_inventory_loads_witness :
  let find_id := fun n => if n =? 1 then Some potion else if n =? 2 then Some sword else None in
  let m := list_to_map [(20, potions 48); (6, a_sword)] in
  from_db_inventory find_id (rev (map_to_list (rows_of m))) 45
  = Ok {| size := 45; items := m; changes := [] |}.
Proof.
  intros find_id m.
  assert (Hall : forall s i, m !! s = Some i -> (s, i) = (20, potions 48) \/ (s, i) = (6, a_sword)).
  { intros s i Hs. apply elem_of_list_to_map_2, list_elem_of_In in Hs.
    destruct Hs as [Hs|[Hs|[]]]; rewrite <- Hs; auto. }
  apply stored_inventory_loads.
  - intros s i Hs. destruct (Hall s i Hs) as [[= -> ->]|[= -> ->]]; lia.
  - intros s i Hs. destruct (Hall s i Hs) as [[= -> ->]|[= -> ->]]; vm_compute; auto.
  - lia.
  - symmetry. apply Permutation_rev.
Defined.
