(* ===== verification/Population.v ===== *)
(** silkroad-agent/src/population: the capacity of a server, the queue of
    reservations for its spots, and the players holding the spots.

    Every operation of the queue runs under the mutex of the reservations, so
    that the operations are steps of one sequence; a playing token may be
    dropped between any two of them. Dropping a reservation drops its queue
    token. The clock readings and the draws of the random number generator are
    arguments. *)
From stdpp Require Import base list option relations strings.
From Stdlib Require Import ZArith Lia.
From S2P Require Import Prelude F32.

(** silkroad-agent/src/db/user.rs *)
Record ServerUser := {
  id : Z;
  username : list Z;
  job : Z;
  premium_type : Z;
  premium_end : option Z;
}.

(** [impl PartialEq for ServerUser] *)
Definition same_user (a b : ServerUser) : bool :=
  (a.(id) =? b.(id)) && bool_decide (a.(username) = b.(username)).

(** ** Capacity *)

Record Capacity := { max : Z; queued : Z; playing : Z }.

Definition capacity_new (capacity : Z) : Capacity := {| max := capacity; queued := 0; playing := 0 |}.

Definition current_total (c : Capacity) : Z := u16 (c.(queued) + c.(playing)).
Definition available (c : Capacity) : Z := u16 (c.(max) - current_total c).
Definition usage (c : Capacity) : f32 := fdiv (f32_of_Z (current_total c)) (f32_of_Z c.(max)).
Definition can_queue (c : Capacity) : bool := 0 <? available c.

Definition set_queued (c : Capacity) (q : Z) : Capacity :=
  {| max := c.(max); queued := q; playing := c.(playing) |}.
Definition set_playing (c : Capacity) (p : Z) : Capacity :=
  {| max := c.(max); queued := c.(queued); playing := p |}.

(** [None]: no queue token; otherwise the capacity with the token counted. *)
Definition add_queue (c : Capacity) : option Capacity :=
  if negb (can_queue c) then None else Some (set_queued c (u16 (c.(queued) + 1))).
Definition add_playing (c : Capacity) : Capacity := set_playing c (u16 (c.(playing) + 1)).
Definition drop_queue_token (c : Capacity) : Capacity := set_queued c (u16 (c.(queued) - 1)).
Definition drop_playing_token (c : Capacity) : Capacity := set_playing c (u16 (c.(playing) - 1)).

(** ** The login queue *)

Definition MAX_TOKEN_TRIES : Z := 10.

Inductive ReservationError :=
| NoSpotsAvailable
| AlreadyHasReservation
| AllTokensTaken
| NoSuchToken.

Record Reservation := { token : Z; content : ServerUser; timeout : Z }.

Record LoginQueue := {
  capacity : Capacity;
  reservations : list Reservation;
  reservation_valid_time : Z;
}.

Definition login_queue_new (c : Capacity) (valid_time : Z) : LoginQueue :=
  {| capacity := c; reservations := []; reservation_valid_time := valid_time |}.

Definition with_table (q : LoginQueue) (c : Capacity) (l : list Reservation) : LoginQueue :=
  {| capacity := c; reservations := l; reservation_valid_time := q.(reservation_valid_time) |}.

Definition expired (now : Z) (r : Reservation) : bool := r.(timeout) <=? now.

(** [retain]: a reservation that is not kept drops its token. *)
Definition cleanup_registrations (now : Z) (q : LoginQueue) : LoginQueue :=
  with_table q
    (Nat.iter (length (List.filter (expired now) q.(reservations))) drop_queue_token q.(capacity))
    (List.filter (fun r => negb (expired now r)) q.(reservations)).

(** The first draw that [taken] does not hold, after at most [tries] more draws. *)
Fixpoint draw_token (taken : Z -> bool) (rng : nat -> Z) (drawn tries : nat) : option Z :=
  if taken (rng drawn) then
    match tries with
    | O => None
    | S tries => draw_token taken rng (S drawn) tries
    end
  else Some (rng drawn).

Definition has_token (t : Z) (r : Reservation) : bool := r.(token) =? t.
Definition token_taken (l : list Reservation) (t : Z) : bool := existsb (has_token t) l.

(** The result is the session token and the seconds the client is told; [now]
    and [current_time] are the two readings of the clock. *)
Definition reserve_spot (user : ServerUser) (now current_time : Z) (rng : nat -> Z) (q : LoginQueue)
    : outcome ReservationError (Z * Z) * LoginQueue :=
  let q := cleanup_registrations now q in
  if existsb (fun r => same_user r.(content) user) q.(reservations) then (Err AlreadyHasReservation, q)
  else
    match add_queue q.(capacity) with
    | None => (Err NoSpotsAvailable, q)
    | Some c =>
        let deadline := current_time + q.(reservation_valid_time) in
        match draw_token (token_taken q.(reservations)) rng 0 (Z.to_nat MAX_TOKEN_TRIES) with
        | None => (Err AllTokensTaken, with_table q (drop_queue_token c) q.(reservations))
        | Some t =>
            (Ok (t, u64 (q.(reservation_valid_time) - 1)),
             with_table q c
               (q.(reservations) ++ [{| token := t; content := user; timeout := deadline |}]))
        end
    end.

Fixpoint position {A} (p : A -> bool) (l : list A) : option nat :=
  match l with
  | [] => None
  | a :: l => if p a then Some O else S <$> position p l
  end.

(** The user holds a playing token from here on; the reservation is taken out
    of the table and its queue token dropped after that. *)
Definition hand_in_reservation (t now : Z) (q : LoginQueue)
    : outcome ReservationError ServerUser * LoginQueue :=
  let q := cleanup_registrations now q in
  match position (has_token t) q.(reservations) with
  | Some index =>
      match q.(reservations) !! index with
      | Some reservation =>
          let c := add_playing q.(capacity) in
          (Ok reservation.(content), with_table q (drop_queue_token c) (delete index q.(reservations)))
      | None => (Panic, q)
      end
  | None => (Err NoSuchToken, q)
  end.

(** ** The server: the queue and the [Playing] components of its world *)

Record Server := { queue : LoginQueue; players : list ServerUser }.

Inductive step : Server -> Server -> Prop :=
| step_reserve s user now current_time rng :
    (forall n, 0 <= rng n < 2 ^ 32 - 1) ->
    step s {| queue := snd (reserve_spot user now current_time rng s.(queue)); players := s.(players) |}
| step_hand_in s t now user q :
    hand_in_reservation t now s.(queue) = (Ok user, q) ->
    step s {| queue := q; players := s.(players) ++ [user] |}
| step_hand_in_fails s t now e q :
    hand_in_reservation t now s.(queue) = (Err e, q) ->
    step s {| queue := q; players := s.(players) |}
| step_leave s index user :
    s.(players) !! index = Some user ->
    step s {| queue := with_table s.(queue) (drop_playing_token s.(queue).(capacity))
                         s.(queue).(reservations);
              players := delete index s.(players) |}.

Definition server_new (capacity valid_time : Z) : Server :=
  {| queue := login_queue_new (capacity_new capacity) valid_time; players := [] |}.

Definition reachable (capacity valid_time : Z) : Server -> Prop :=
  rtc step (server_new capacity valid_time).
