(* ===== verification/PopulationSpec.v ===== *)
(** Correctness of Population.v: the counters count the outstanding tokens, the
    server is never overfull, and a session token admits its user once. *)
From stdpp Require Import base list option relations strings.
From Stdlib Require Import ZArith Lia.
From S2P Require Import Prelude Utf Population.

(** ** Tables of reservations *)

Definition user_key (u : ServerUser) : Z * list Z := (u.(id), u.(username)).

Lemma same_user_spec a b : same_user a b = true <-> user_key a = user_key b.
Proof.
  unfold same_user, user_key. rewrite andb_true_iff, Z.eqb_eq, bool_decide_eq_true.
  split; [intros [-> ->]; reflexivity | intros [= -> ->]; auto].
Qed.

Definition tokens (l : list Reservation) : list Z := map token l.
Definition users (l : list Reservation) : list (Z * list Z) := map (fun r => user_key r.(content)) l.

Record table_ok (l : list Reservation) : Prop := {
  tokens_distinct : NoDup (tokens l);
  tokens_bounded : Forall (fun t => 0 <= t < 2 ^ 32 - 1) (tokens l);
  users_distinct : NoDup (users l);
}.

Section Bounded.

(** The configured capacity. *)
Variable spots : Z.

(** The counters of the capacity against the reservations and the players. *)
Record counted (c : Capacity) (reserved held : Z) : Prop := {
  max_exact : c.(max) = spots;
  max_bounded : 0 <= spots < 2 ^ 16;
  queued_exact : c.(queued) = reserved;
  playing_exact : c.(playing) = held;
  reserved_nonneg : 0 <= reserved;
  held_nonneg : 0 <= held;
  not_overfull : reserved + held <= spots;
}.

Lemma table_ok_filter p l : table_ok l -> table_ok (List.filter p l).
Proof.
  intros [H1 H2 H3]. split; try (apply NoDup_map_filter; assumption).
  unfold tokens in *. rewrite Forall_forall in *. intros t Ht. apply H2.
  rewrite list_elem_of_In in *. apply in_map_iff in Ht as (x & E & Hx).
  apply filter_In in Hx as [Hx _]. apply in_map_iff. eauto.
Qed.

Lemma map_delete {A B} (f : A -> B) i (l : list A) : map f (delete i l) = delete i (map f l).
Proof. revert i; induction l as [|a l IH]; intros [|i]; cbn; [auto..|]. f_equal. apply IH. Qed.

Lemma table_ok_delete i l : table_ok l -> table_ok (delete i l).
Proof.
  intros [H1 H2 H3]. split; unfold tokens, users in *; rewrite map_delete.
  - eapply sublist_NoDup; [exact H1 | apply sublist_delete].
  - rewrite Forall_forall in *. intros t Ht. apply H2.
    eapply elem_of_sublist; [exact Ht | apply sublist_delete].
  - eapply sublist_NoDup; [exact H3 | apply sublist_delete].
Qed.

Lemma NoDup_snoc {A} (l : list A) a : NoDup l -> ~ In a l -> NoDup (l ++ [a]).
Proof.
  intros Hl Ha. apply list.NoDup_app. split; [exact Hl|]. split; [|apply NoDup_singleton].
  intros x Hx E. apply list_elem_of_singleton in E as ->. apply Ha, list_elem_of_In, Hx.
Qed.

Lemma table_ok_snoc l r :
  table_ok l -> 0 <= r.(token) < 2 ^ 32 - 1 -> ~ In r.(token) (tokens l) ->
  ~ In (user_key r.(content)) (users l) -> table_ok (l ++ [r]).
Proof.
  intros [H1 H2 H3] Hb Ht Hu. split; unfold tokens, users in *; rewrite map_app; cbn [map].
  - apply NoDup_snoc; assumption.
  - apply Forall_app. auto.
  - apply NoDup_snoc; assumption.
Qed.

Lemma token_taken_spec l t : token_taken l t = true <-> In t (tokens l).
Proof.
  unfold token_taken, tokens. rewrite existsb_exists, in_map_iff. unfold has_token.
  setoid_rewrite Z.eqb_eq. firstorder.
Qed.

Lemma user_reserved_spec l u :
  existsb (fun r => same_user r.(content) u) l = true <-> In (user_key u) (users l).
Proof.
  unfold users. rewrite existsb_exists, in_map_iff. setoid_rewrite same_user_spec. firstorder.
Qed.

(** The token is the first of the [tries + 1] draws that is not taken. *)
Lemma draw_token_spec taken rng drawn tries :
  match draw_token taken rng drawn tries with
  | Some t => exists n, (drawn <= n <= drawn + tries)%nat /\ t = rng n /\ taken t = false
                /\ forall m, (drawn <= m < n)%nat -> taken (rng m) = true
  | None => forall m, (drawn <= m <= drawn + tries)%nat -> taken (rng m) = true
  end.
Proof.
  revert drawn; induction tries as [|tries IH]; intros drawn; cbn [draw_token];
    destruct (taken (rng drawn)) eqn:E.
  - intros m Hm. replace m with drawn by lia. exact E.
  - exists drawn. repeat split; [lia..| exact E | intros; lia].
  - specialize (IH (S drawn)). destruct (draw_token taken rng (S drawn) tries) as [t|].
    + destruct IH as (n & Hn & Et & Ef & Hm). exists n. repeat split; [lia..| exact Et | exact Ef |].
      intros m H. destruct (decide (m = drawn)) as [->|]; [exact E | apply Hm; lia].
    + intros m H. destruct (decide (m = drawn)) as [->|]; [exact E | apply IH; lia].
  - exists drawn. repeat split; [lia..| exact E | intros; lia].
Qed.

Lemma position_some {A} (p : A -> bool) l i :
  position p l = Some i -> exists a, l !! i = Some a /\ p a = true.
Proof.
  revert i; induction l as [|a l IH]; intros i; cbn [position]; [discriminate|].
  destruct (p a) eqn:E; [intros [= <-]; exists a; auto|].
  destruct (position p l) as [j|]; [|discriminate]. intros [= <-]. apply (IH j eq_refl).
Qed.

Lemma position_none {A} (p : A -> bool) l : position p l = None <-> existsb p l = false.
Proof.
  induction l as [|a l IH]; cbn [position existsb]; [tauto|].
  destruct (p a); cbn [orb]; [split; discriminate|].
  rewrite <- IH. destruct (position p l); cbn; split; congruence.
Qed.

(** ** Counters *)

Lemma u16_small z : 0 <= z < 2 ^ 16 -> u16 z = z.
Proof. intros H. apply wrap_small, fits_spec, H. Qed.

Lemma counted_available c r h : counted c r h -> available c = spots - (r + h).
Proof.
  intros [Hm Hb Hq Hp Hr Hh Hn]. unfold available, current_total. rewrite Hq, Hp, (u16_small (r + h)) by lia.
  rewrite Hm. apply u16_small. lia.
Qed.

Lemma counted_can_queue c r h : counted c r h -> can_queue c = (r + h <? spots).
Proof.
  intros H. unfold can_queue. rewrite (counted_available c r h H).
  destruct (Z.ltb_spec 0 (spots - (r + h))), (Z.ltb_spec (r + h) spots); lia.
Qed.

Lemma counted_add_queue c r h c' :
  counted c r h -> add_queue c = Some c' -> counted c' (r + 1) h /\ drop_queue_token c' = c.
Proof.
  intros H. unfold add_queue. rewrite (counted_can_queue c r h H).
  destruct (Z.ltb_spec (r + h) spots); [|discriminate]. intros [= <-].
  destruct H as [Hm Hb Hq Hp Hr Hh Hn]. split.
  - split; cbn; rewrite ?u16_small; lia.
  - unfold drop_queue_token, set_queued. destruct c as [m q p]; cbn in *. f_equal.
    rewrite !u16_small; rewrite ?u16_small; lia.
Qed.

Lemma counted_drop_queue c r h : counted c r h -> 0 < r -> counted (drop_queue_token c) (r - 1) h.
Proof.
  intros [Hm Hb Hq Hp Hr Hh Hn] Hpos. split; cbn; rewrite ?u16_small; lia.
Qed.

Lemma counted_drop_queues c r h n :
  counted c r h -> Z.of_nat n <= r -> counted (Nat.iter n drop_queue_token c) (r - Z.of_nat n) h.
Proof.
  intros H. induction n as [|n IH]; intros Hn; [cbn [Nat.iter]; rewrite Z.sub_0_r; exact H|].
  cbn [Nat.iter nat_rect]. replace (r - Z.of_nat (S n)) with (r - Z.of_nat n - 1) by lia.
  apply counted_drop_queue; [apply IH|]; lia.
Qed.

(** Handing in: the player is counted while the reservation still is. *)
Lemma counted_hand_in c r h :
  counted c r h -> 0 < r -> counted (drop_queue_token (add_playing c)) (r - 1) (h + 1).
Proof.
  intros [Hm Hb Hq Hp Hr Hh Hn] Hpos. split; cbn; rewrite ?u16_small; lia.
Qed.

Lemma counted_leave c r h : counted c r h -> 0 < h -> counted (drop_playing_token c) r (h - 1).
Proof.
  intros [Hm Hb Hq Hp Hr Hh Hn] Hpos. split; cbn; rewrite ?u16_small; lia.
Qed.

(** ** The queue's invariant *)

Definition zlength {A} (l : list A) : Z := Z.of_nat (length l).

Record queue_ok (q : LoginQueue) (held : Z) : Prop := {
  queue_counted : counted q.(capacity) (zlength q.(reservations)) held;
  queue_table : table_ok q.(reservations);
}.

Lemma filter_split_length {A} (p : A -> bool) l :
  (length (List.filter p l) + length (List.filter (fun a => negb (p a)) l) = length l)%nat.
Proof. induction l as [|a l IH]; [reflexivity|]. cbn [List.filter]. destruct (p a); cbn; lia. Qed.

Lemma cleanup_ok now q held : queue_ok q held -> queue_ok (cleanup_registrations now q) held.
Proof.
  intros [Hc Ht]. pose proof (filter_split_length (expired now) q.(reservations)) as El.
  split; cbn [cleanup_registrations with_table capacity reservations]; [|apply table_ok_filter, Ht].
  eapply counted_drop_queues with (n := length (List.filter (expired now) q.(reservations))) in Hc;
    [|unfold zlength; lia].
  replace (zlength (List.filter (fun r => negb (expired now r)) q.(reservations)))
    with (zlength q.(reservations) - Z.of_nat (length (List.filter (expired now) q.(reservations))))
    by (unfold zlength; lia). exact Hc.
Qed.

Lemma reserve_ok user now current_time rng q held :
  (forall n, 0 <= rng n < 2 ^ 32 - 1) -> queue_ok q held ->
  queue_ok (snd (reserve_spot user now current_time rng q)) held.
Proof.
  intros Hrng Hq. apply (cleanup_ok now) in Hq. unfold reserve_spot.
  set (q' := cleanup_registrations now q) in *.
  destruct (existsb _ _) eqn:Eu; [exact Hq|].
  destruct (add_queue _) as [c|] eqn:Ec; [|exact Hq]. destruct Hq as [Hc Ht].
  destruct (counted_add_queue _ _ _ _ Hc Ec) as [Hc' Hd].
  destruct (draw_token _ _ _ _) as [t|] eqn:Ed; cbn [snd].
  - pose proof (draw_token_spec (token_taken q'.(reservations)) rng 0 (Z.to_nat MAX_TOKEN_TRIES)) as Hd'.
    rewrite Ed in Hd'. destruct Hd' as (n & _ & -> & Hf & _).
    split; cbn [with_table capacity reservations].
    + unfold zlength in *. rewrite length_app. cbn [length].
      rewrite Nat2Z.inj_add. exact Hc'.
    + apply table_ok_snoc; cbn [token content]; [exact Ht | apply Hrng | |].
      * rewrite <- token_taken_spec. congruence.
      * rewrite <- user_reserved_spec. congruence.
  - split; cbn [with_table capacity reservations]; [rewrite Hd; exact Hc | exact Ht].
Qed.

Lemma hand_in_ok t now q held user q' :
  queue_ok q held -> hand_in_reservation t now q = (Ok user, q') -> queue_ok q' (held + 1).
Proof.
  intros Hq. apply (cleanup_ok now) in Hq. unfold hand_in_reservation.
  set (q0 := cleanup_registrations now q) in *. clearbody q0.
  destruct (position _ _) as [i|]; [|discriminate].
  destruct (_ !! i) as [r|] eqn:Ei; [|discriminate]. intros [= _ <-].
  destruct Hq as [Hc Ht]. pose proof (lookup_lt_Some _ _ _ Ei) as Hi.
  split; cbn [with_table capacity reservations]; [|apply table_ok_delete, Ht].
  unfold zlength in *. rewrite length_delete by eauto.
  replace (Z.of_nat (length (reservations q0) - 1)) with (Z.of_nat (length (reservations q0)) - 1) by lia.
  apply counted_hand_in; [exact Hc | lia].
Qed.

Lemma hand_in_fails_ok t now q held e q' :
  queue_ok q held -> hand_in_reservation t now q = (Err e, q') -> queue_ok q' held.
Proof.
  intros Hq. unfold hand_in_reservation.
  destruct (position _ _) as [i|]; [destruct (_ !! i); discriminate|].
  intros [= _ <-]. apply cleanup_ok, Hq.
Qed.

Definition server_ok (s : Server) : Prop := queue_ok s.(queue) (zlength s.(players)).

Lemma step_ok s s' : server_ok s -> step s s' -> server_ok s'.
Proof.
  unfold server_ok. intros Hs Hstep. destruct Hstep as [s user now ct rng Hr|s t now u q E|s t now e q E|s i u E];
    cbn [queue players].
  - apply reserve_ok; assumption.
  - unfold zlength in *. rewrite length_app. cbn [length]. rewrite Nat2Z.inj_add.
    eapply hand_in_ok; eassumption.
  - eapply hand_in_fails_ok; eassumption.
  - destruct Hs as [Hc Ht]. pose proof (lookup_lt_Some _ _ _ E).
    split; cbn [with_table capacity reservations]; [|exact Ht].
    unfold zlength in *. rewrite length_delete by eauto.
    replace (Z.of_nat (length s.(players) - 1)) with (Z.of_nat (length s.(players)) - 1) by lia.
    apply counted_leave; [exact Hc | lia].
Qed.

Lemma server_new_ok valid_time : 0 <= spots < 2 ^ 16 -> server_ok (server_new spots valid_time).
Proof. intros H. split; [split; unfold zlength; cbn; lia | split; constructor]. Qed.

Lemma reachable_ok valid_time s :
  0 <= spots < 2 ^ 16 -> reachable spots valid_time s -> server_ok s.
Proof.
  intros Hb Hr. assert (H0 := server_new_ok valid_time Hb). unfold reachable in Hr.
  revert H0. induction Hr as [|x y z Hxy _ IH]; [auto|]. intros Hx.
  apply IH. eapply step_ok; eassumption.
Qed.

End Bounded.

(** ** Properties *)

(** C10: Whatever is reserved, handed in, left or expired, in every reachable
    state of a server the queue counter is the number of reservations, the
    playing counter the number of players, their sum never exceeds the
    configured capacity, the session tokens are distinct 32-bit numbers, and no
    user holds two reservations. *)
Theorem population_invariant (spots valid_time : Z) (s : Server)
    (Hspots : 0 <= spots < 2 ^ 16) (Hs : reachable spots valid_time s) :
  let q := s.(queue) in
  q.(capacity).(queued) = zlength q.(reservations)
  /\ q.(capacity).(playing) = zlength s.(players)
  /\ zlength q.(reservations) + zlength s.(players) <= spots
  /\ NoDup (tokens q.(reservations)) /\ Forall (fun t => fits 32 t = true) (tokens q.(reservations))
  /\ NoDup (users q.(reservations)).
Proof.
  destruct (reachable_ok spots valid_time s Hspots Hs) as [[_ _ Eq Ep _ _ Hn] [Ht Hb Hu]].
  repeat split; try assumption.
  eapply Forall_impl; [exact Hb|]. intros t H. apply fits_spec. cbn beta in H. lia.
Qed.

Definition alice : ServerUser :=
  {| id := 1; username := chars "alice"; job := 0; premium_type := 0; premium_end := None |}.
Definition bob : ServerUser :=
  {| id := 2; username := chars "bob"; job := 0; premium_type := 0; premium_end := None |}.

(** One player of two, and one reservation. *)
Definition busy_server : Server :=
  let q := snd (reserve_spot alice 0 0 (fun _ => 7) (login_queue_new (capacity_new 2) 60)) in
  let q := snd (hand_in_reservation 7 10 q) in
  {| queue := snd (reserve_spot bob 20 20 (fun _ => 7) q); players := [alice] |}.

Lemma busy_server_reachable : reachable 2 60 busy_server.
Proof.
  unfold reachable, busy_server.
  eapply rtc_l; [apply (step_reserve _ alice 0 0 (fun _ => 7)); intros n; cbn beta; lia|].
  eapply rtc_l; [eapply (step_hand_in _ 7 10 alice); reflexivity|].
  eapply rtc_l; [apply (step_reserve _ bob 20 20 (fun _ => 7)); intros n; cbn beta; lia|].
  apply rtc_refl.
Qed.

Lemma population_invariant_witness :
  busy_server.(queue).(reservations) <> []
  /\ zlength busy_server.(queue).(reservations) + zlength busy_server.(players) <= 2.
Proof.
  split; [discriminate|].
  apply (population_invariant 2 60 busy_server ltac:(lia) busy_server_reachable).
Defined.

Definition live (now : Z) (q : LoginQueue) : list Reservation :=
  List.filter (fun r => negb (expired now r)) q.(reservations).

(** Reserving a spot on a reachable server decides by the live
    reservations only: a user who holds one is refused, then a full server is,
    then a user for whom the first eleven draws are all taken; otherwise the
    user gets the first draw nobody holds, until the deadline. Nothing but the
    expired reservations is lost in any case. *)
Theorem reserve_spot_decides (spots valid_time : Z) (s : Server) (user : ServerUser)
    (now current_time : Z) (rng : nat -> Z)
    (Hspots : 0 <= spots < 2 ^ 16) (Hs : reachable spots valid_time s) :
  let l := live now s.(queue) in
  let reserved := In (user_key user) (users l) in
  let room := zlength l + zlength s.(players) < spots in
  let '(result, q) := reserve_spot user now current_time rng s.(queue) in
  match result with
  | Err AlreadyHasReservation => reserved /\ q.(reservations) = l
  | Err NoSpotsAvailable => ~ reserved /\ ~ room /\ q.(reservations) = l
  | Err AllTokensTaken =>
      ~ reserved /\ room /\ (forall m, (m <= 10)%nat -> In (rng m) (tokens l)) /\ q.(reservations) = l
  | Ok (t, _) =>
      ~ reserved /\ room
      /\ (exists n, (n <= 10)%nat /\ t = rng n /\ ~ In t (tokens l)
            /\ forall m, (m < n)%nat -> In (rng m) (tokens l))
      /\ q.(reservations) = l ++ [{| token := t; content := user;
            timeout := current_time + s.(queue).(reservation_valid_time) |}]
  | _ => False
  end.
Proof.
  destruct (cleanup_ok spots now _ _ (reachable_ok spots valid_time s Hspots Hs)) as [Hc _].
  intros l reserved room. unfold reserve_spot.
  change (reservations (cleanup_registrations now (queue s))) with l in *.
  change (reservation_valid_time (cleanup_registrations now (queue s)))
    with (reservation_valid_time (queue s)).
  set (c := capacity (cleanup_registrations now (queue s))) in *. clearbody c.
  destruct (existsb _ l) eqn:Eu; [split; [apply user_reserved_spec, Eu | reflexivity]|].
  assert (Hu : ~ reserved) by (unfold reserved; rewrite <- user_reserved_spec; congruence).
  unfold add_queue. rewrite (counted_can_queue spots c _ _ Hc). fold room.
  destruct (Z.ltb_spec (zlength l + zlength (players s)) spots) as [Hr|Hr]; cbn [negb];
    [|split; [exact Hu | split; [unfold room; lia | reflexivity]]].
  pose proof (draw_token_spec (token_taken l) rng 0 (Z.to_nat MAX_TOKEN_TRIES)) as Hd.
  destruct (draw_token _ _ _ _) as [t|].
  - destruct Hd as (n & Hn & -> & Hf & Hm). unfold MAX_TOKEN_TRIES in Hn.
    split; [exact Hu|]. split; [exact Hr|]. split; [|reflexivity].
    exists n. split; [lia|]. split; [reflexivity|].
    split; [rewrite <- token_taken_spec; congruence|].
    intros m H. apply token_taken_spec, Hm. lia.
  - split; [exact Hu|]. split; [exact Hr|]. split; [|reflexivity].
    intros m H. apply token_taken_spec, Hd. unfold MAX_TOKEN_TRIES. lia.
Qed.

Lemma reserve_spot_decides_witness :
  fst (reserve_spot alice 30 30 (fun n => Z.of_nat n + 7) busy_server.(queue)) = Err NoSpotsAvailable
  /\ ~ (zlength (live 30 busy_server.(queue)) + zlength busy_server.(players) < 2).
Proof.
  pose proof (reserve_spot_decides 2 60 busy_server alice 30 30 (fun n => Z.of_nat n + 7)
    ltac:(lia) busy_server_reachable) as H. cbv zeta in H.
  assert (E : fst (reserve_spot alice 30 30 (fun n => Z.of_nat n + 7) busy_server.(queue))
    = Err NoSpotsAvailable) by (vm_compute; reflexivity).
  split; [exact E|]. destruct (reserve_spot _ _ _ _ _) as [result q]. cbn [fst] in E. subst result.
  apply H.
Defined.

Lemma find_by_token l r :
  NoDup (tokens l) -> In r l ->
  exists i, position (has_token r.(token)) l = Some i /\ l !! i = Some r
    /\ ~ In r.(token) (tokens (delete i l)).
Proof.
  induction l as [|a l IH]; cbn [In position tokens map]; [tauto|].
  rewrite list.NoDup_cons, list_elem_of_In. intros [Ha Hl] Hin.
  unfold has_token at 1. destruct (Z.eqb_spec a.(token) r.(token)) as [E|E].
  - exists O. split; [reflexivity|]. destruct Hin as [->|Hin]; [auto|].
    exfalso. apply Ha. unfold tokens in *. rewrite E. apply in_map, Hin.
  - destruct Hin as [->|Hin]; [congruence|].
    destruct (IH Hl Hin) as (i & Ei & Hi & Hd). exists (S i). rewrite Ei.
    split; [reflexivity|]. split; [exact Hi|].
    cbn. intros [H|H]; [apply E, H | apply Hd, H].
Qed.

Lemma in_delete {A} (x y : A) i l : In x l -> l !! i = Some y -> x <> y -> In x (delete i l).
Proof.
  revert i; induction l as [|a l IH]; intros i; [tauto|]. destruct i as [|i]; cbn.
  - intros [->|H] [= ->] Hne; [congruence | exact H].
  - intros [->|H] Hi Hne; [left; reflexivity | right; eapply IH; eassumption].
Qed.

Lemma unknown_token t now q :
  ~ In t (tokens q.(reservations)) -> fst (hand_in_reservation t now q) = Err NoSuchToken.
Proof.
  intros H. unfold hand_in_reservation. set (l := reservations (cleanup_registrations now q)).
  destruct (position _ _) as [i|] eqn:E; [|reflexivity].
  apply position_some in E as (r & Hi & Hr). exfalso. apply H.
  apply Z.eqb_eq in Hr as <-. unfold tokens. apply in_map.
  assert (Hin : In r l) by (apply list_elem_of_In, list_elem_of_lookup; eauto).
  apply filter_In in Hin as [Hin _]. exact Hin.
Qed.

(** C40: A session token admits the user it was reserved for, once: as long as
    the reservation has not timed out, handing in its token on a reachable
    server yields that user and frees the reservation, and handing it in again
    fails from then on; after the timeout it fails at once. *)
Theorem token_admits_once (spots valid_time : Z) (s : Server) (r : Reservation) (now : Z)
    (Hspots : 0 <= spots < 2 ^ 16) (Hs : reachable spots valid_time s)
    (Hr : In r s.(queue).(reservations)) :
  let '(result, q) := hand_in_reservation r.(token) now s.(queue) in
  result = (if now <? r.(timeout) then Ok r.(content) else Err NoSuchToken)
  /\ (forall later, fst (hand_in_reservation r.(token) later q) = Err NoSuchToken)
  /\ (forall r', In r' s.(queue).(reservations) -> r' <> r -> now < r'.(timeout) ->
        In r' q.(reservations)).
Proof.
  pose proof (reachable_ok spots valid_time s Hspots Hs) as Hok.
  destruct Hok as [_ [Hnd _ _]].
  assert (Hnd' : NoDup (tokens (live now s.(queue)))) by (apply NoDup_map_filter, Hnd).
  unfold hand_in_reservation at 1.
  change (reservations (cleanup_registrations now (queue s))) with (live now s.(queue)).
  assert (Hlive : forall r', In r' s.(queue).(reservations) -> now < r'.(timeout) ->
    In r' (live now s.(queue))).
  { intros r' Hin Hlt. apply filter_In. split; [exact Hin|]. apply negb_true_iff, Z.leb_gt, Hlt. }
  destruct (Z.ltb_spec now r.(timeout)) as [Hlt|Hge].
  - destruct (find_by_token _ r Hnd' (Hlive r Hr Hlt)) as (i & Ei & Hi & Hd). rewrite Ei, Hi.
    split; [reflexivity|]. split; [intros later; apply unknown_token, Hd|].
    intros r' Hin Hne Hlt'. cbn [with_table reservations].
    eapply in_delete; [apply Hlive; assumption | exact Hi | exact Hne].
  - assert (Hno : ~ In r.(token) (tokens (live now s.(queue)))).
    { intros H. apply in_map_iff in H as (r' & Et & Hr').
      apply filter_In in Hr' as [Hr' Hl]. apply negb_true_iff, Z.leb_gt in Hl.
      enough (r' = r) by (subst; lia).
      apply list_elem_of_In, list_elem_of_lookup in Hr as [i Hi], Hr' as [j Hj].
      assert (i = j) as ->; [|congruence].
      eapply (NoDup_lookup (tokens s.(queue).(reservations))); [exact Hnd | |];
        unfold tokens; change (@map ?A ?B) with (@fmap list _ A B); rewrite list_lookup_fmap, ?Hi, ?Hj;
        cbn; rewrite ?Et; reflexivity. }
    destruct (position _ _) as [i|] eqn:E.
    { apply position_some in E as (r' & Hi & Ht). exfalso. apply Hno.
      apply Z.eqb_eq in Ht as <-. apply in_map, list_elem_of_In, list_elem_of_lookup; eauto. }
    split; [reflexivity|]. split; [intros later; apply unknown_token, Hno|].
    intros r' Hin _ Hlt. apply Hlive; assumption.
Qed.

Lemma token_admits_once_witness :
  let r := {| token := 7; content := bob; timeout := 80 |} in
  fst (hand_in_reservation 7 79 busy_server.(queue)) = Ok bob
  /\ fst (hand_in_reservation 7 90 (snd (hand_in_reservation 7 79 busy_server.(queue)))) = Err NoSuchToken.
Proof.
  intros r.
  pose proof (token_admits_once 2 60 busy_server r 79 ltac:(lia) busy_server_reachable
    ltac:(left; vm_compute; reflexivity)) as H.
  change (token r) with 7 in H. destruct (hand_in_reservation 7 79 _) as [result q].
  destruct H as (E & H & _). split; [exact E | apply (H 90)].
Defined.
