(* ===== verification/Progress.v ===== *)
(** silkroad-agent/src/comp and game: what a character gains and spends:
    experience and levels, skill points, gold, stat points, masteries and
    skills, health, and the damage a target remembers.

    A component of an entity is a record; a system is the function it computes
    for one entity and one input or event. *)
From Stdlib Require Import ZArith Lia.
From stdpp Require Import base list option gmap.
From S2P Require Import Prelude Skills.

(** ** silkroad-data/src/level.rs *)

(** What is read of a [RefLevel]. *)
Record RefLevel := { exp : Z; exp_mastery : Z }.

Definition LevelMap : Type := gmap Z RefLevel.

Definition get_exp_for_level (m : LevelMap) (level : Z) : option Z := exp <$> m !! level.
Definition get_mastery_sp_for_level (m : LevelMap) (level : Z) : option Z := exp_mastery <$> m !! level.

(** ** comp/exp.rs *)

Definition EXP_PER_SP : Z := 400.

(** [from] is the unique id of the entity the experience comes from. *)
Record ExperienceGained := {
  gained_exp : Z;
  gained_sp_exp : Z;
  trigged_level_up : bool;
  from : option Z;
}.

Record Experienced := {
  experience : Z;
  sp_exp : Z;
  experience_received : list ExperienceGained;
}.

Definition experienced_new (experience sp_exp : Z) : Experienced :=
  {| experience := experience; sp_exp := sp_exp; experience_received := [] |}.

Definition experienced_reset (x : Experienced) : Experienced :=
  {| experience := x.(experience); sp_exp := x.(sp_exp); experience_received := [] |}.

Definition receive (exp sp_exp : Z) (from : option Z) (x : Experienced) : Experienced :=
  {| experience := u64 (x.(experience) + exp);
     sp_exp := u64 (x.(Progress.sp_exp) + sp_exp);
     experience_received := x.(experience_received) ++
       [{| gained_exp := exp; gained_sp_exp := sp_exp; trigged_level_up := false;
         from := from |}] |}.

(** [last_mut]: the most recent gain is marked. *)
Definition mark_last (l : list ExperienceGained) : list ExperienceGained :=
  match rev l with
  | [] => l
  | g :: rest =>
      rev rest ++ [{| gained_exp := g.(gained_exp); gained_sp_exp := g.(gained_sp_exp);
                      trigged_level_up := true; from := g.(from) |}]
  end.

Definition try_level_up (required : Z) (x : Experienced) : bool * Experienced :=
  if required <=? x.(experience) then
    (true, {| experience := x.(experience) - required; sp_exp := x.(sp_exp);
              experience_received := mark_last x.(experience_received) |})
  else (false, x).

Definition convert_sp (x : Experienced) : Z * Experienced :=
  (u32 (x.(sp_exp) / EXP_PER_SP),
   {| experience := x.(experience); sp_exp := x.(sp_exp) mod EXP_PER_SP;
      experience_received := x.(experience_received) |}).

Record SP := MkSP { sp : Z }.
Definition sp_gain (amount : Z) (s : SP) : SP := MkSP (u32 (s.(sp) + amount)).
Definition sp_spend (amount : Z) (s : SP) : SP := MkSP (u32 (s.(sp) - amount)).

Record Leveled := { level : Z; max_level : Z; leveled_up : Z }.

Definition leveled_new (level max_level : Z) : Leveled :=
  {| level := level; max_level := max_level; leveled_up := 0 |}.
Definition leveled_reset (l : Leveled) : Leveled := leveled_new l.(level) l.(max_level).

Definition level_up (l : Leveled) : Leveled :=
  let new_level := sat_add 8 l.(level) 1 in
  {| level := new_level; max_level := Z.max new_level l.(max_level);
     leveled_up := swrap 8 (l.(leveled_up) + 1) |}.

Definition delevel (l : Leveled) : Leveled :=
  {| level := sat_sub l.(level) 1; max_level := l.(max_level);
     leveled_up := swrap 8 (l.(leveled_up) - 1) |}.

Definition did_level (l : Leveled) : bool := 0 <? l.(leveled_up).

(** ** game/exp.rs *)

(** The loop of [receive_experience]; [None]: still running after [fuel] rounds. *)
Fixpoint level_loop (fuel : nat) (levels : LevelMap) (l : Leveled) (x : Experienced)
    : option (Leveled * Experienced) :=
  match fuel with
  | O => None
  | S fuel =>
      match get_exp_for_level levels l.(level) with
      | Some required =>
          let '(leveled, x) := try_level_up required x in
          if leveled then level_loop fuel levels (level_up l) x else Some (l, x)
      | None => Some (l, x)
      end
  end.

Record Progression := { leveled : Leveled; experienced : Experienced; skill_points : SP }.

(** One [ReceiveExperienceEvent] of a known target. *)
Definition receive_experience (fuel : nat) (levels : LevelMap) (exp sp_exp : Z) (source : option Z)
    (p : Progression) : option Progression :=
  if (exp =? 0) && (sp_exp =? 0) then Some p
  else
    let x := receive exp sp_exp source p.(experienced) in
    let '(received_sp, x) := convert_sp x in
    let s := if 0 <? received_sp then sp_gain received_sp p.(skill_points) else p.(skill_points) in
    '(l, x) ← level_loop fuel levels p.(leveled) x;
    Some {| leveled := l; experienced := x; skill_points := s |}.

(** ** comp/gold.rs *)

Record GoldPouch := MkGoldPouch { gold : Z }.
Definition gold_gain (amount : Z) (g : GoldPouch) : GoldPouch := MkGoldPouch (sat_add 64 g.(gold) amount).
Definition gold_spend (amount : Z) (g : GoldPouch) : GoldPouch := MkGoldPouch (sat_sub g.(gold) amount).

(** ** comp/mod.rs: health and mana *)

Record Health := { current_health : Z; max_health : Z; change : option Z }.

Definition health_new (max_health : Z) : Health :=
  {| current_health := max_health; max_health := max_health; change := None |}.

Definition add_change (amount : Z) (h : Health) : Health :=
  {| current_health := h.(current_health); max_health := h.(max_health);
     change := match h.(change) with
               | Some previous_change => Some (i32 (previous_change + amount))
               | None => Some amount
               end |}.

Definition set_health (h : Health) (z : Z) : Health :=
  {| current_health := z; max_health := h.(max_health); change := h.(change) |}.

Definition reduce (amount : Z) (h : Health) : Health :=
  let before := h.(current_health) in
  add_change (i32 (- i32 before)) (set_health h (sat_sub before amount)).

Definition regenerate (amount : Z) (h : Health) : Health :=
  let before := h.(current_health) in
  add_change (i32 before) (set_health h (sat_add 32 before amount)).

Definition is_dead (h : Health) : bool := h.(current_health) =? 0.

Definition increase_max (new_max : Z) (h : Health) : Health :=
  {| current_health := h.(current_health); max_health := new_max; change := h.(change) |}.

Definition upgrade (new_max : Z) (h : Health) : Health :=
  let diff := u32 (new_max - h.(current_health)) in
  add_change (i32 diff) (increase_max new_max h).

Record Mana := { current_mana : Z; max_mana : Z; mana_change : option Z }.

Definition mana_with_max (max : Z) : Mana :=
  {| current_mana := max; max_mana := max; mana_change := None |}.

Definition mana_add_change (amount : Z) (m : Mana) : Mana :=
  {| current_mana := m.(current_mana); max_mana := m.(max_mana);
     mana_change := match m.(mana_change) with
                    | Some previous_change => Some (i32 (previous_change + amount))
                    | None => Some amount
                    end |}.

(** Unlike the one of [Health], this sets the current value and not the maximum. *)
Definition mana_increase_max (new_max : Z) (m : Mana) : Mana :=
  {| current_mana := new_max; max_mana := m.(max_mana); mana_change := m.(mana_change) |}.

Definition mana_upgrade (new_max : Z) (m : Mana) : Mana :=
  let diff := u32 (new_max - m.(current_mana)) in
  let m := {| current_mana := m.(current_mana); max_mana := new_max; mana_change := m.(mana_change) |} in
  mana_add_change (i32 diff) (mana_increase_max new_max m).

(** The resets at the end of a tick. *)
Definition health_reset (h : Health) : Health :=
  {| current_health := h.(current_health); max_health := h.(max_health); change := None |}.
Definition mana_reset (m : Mana) : Mana :=
  {| current_mana := m.(current_mana); max_mana := m.(max_mana); mana_change := None |}.

(** ** comp/damage.rs *)

Record DamageReceiver := { damage_counts : gmap Z Z }.

Definition damage_receiver_default : DamageReceiver := {| damage_counts := ∅ |}.

Definition record_damage (source amount : Z) (d : DamageReceiver) : DamageReceiver :=
  {| damage_counts := match d.(damage_counts) !! source with
                      | Some previous => <[source := u64 (previous + amount)]> d.(damage_counts)
                      | None => <[source := amount]> d.(damage_counts)
                      end |}.

Definition total_damage_of (source : Z) (d : DamageReceiver) : Z :=
  default 0 (d.(damage_counts) !! source).

(** ** game/damage.rs *)

(** What [handle_damage] decides for an event: nothing was alive to hit, or the
    damage shown to the clients and whether it killed; a killing blow also
    announces the death and requests the dead state. *)
Inductive DamageOutcome := TargetDead | Hit (amount : Z) | KillingBlow (amount : Z).

Definition handle_damage (source amount : Z) (invincible : bool) (h : Health) (d : DamageReceiver)
    : DamageOutcome * Health * DamageReceiver :=
  if is_dead h then (TargetDead, h, d)
  else
    let amount := if negb invincible then amount else 0 in
    let d := record_damage source amount d in
    let h := reduce amount h in
    (if is_dead h then KillingBlow amount else Hit amount, h, d).

(** ** game-base/stats.rs and comp/player.rs: stat points *)

Inductive StatType := STR | INT.

Record Stats := { str : Z; int : Z }.

Record StatPoints := {
  stats : Stats;
  remaining_points : Z;
  has_gained_points : bool;
  has_spent_points : bool;
}.

Definition stat_points_new (s : Stats) (remaining : Z) : StatPoints :=
  {| stats := s; remaining_points := remaining; has_gained_points := false;
     has_spent_points := false |}.

Definition increase_strength (amount : Z) (s : Stats) : Stats :=
  {| str := u16 (s.(str) + amount); int := s.(int) |}.
Definition increase_intelligence (amount : Z) (s : Stats) : Stats :=
  {| str := s.(str); int := u16 (s.(int) + amount) |}.

Definition spend_str (p : StatPoints) : StatPoints :=
  {| stats := increase_strength 1 p.(stats); remaining_points := u16 (p.(remaining_points) - 1);
     has_gained_points := p.(has_gained_points); has_spent_points := true |}.
Definition spend_int (p : StatPoints) : StatPoints :=
  {| stats := increase_intelligence 1 p.(stats); remaining_points := u16 (p.(remaining_points) - 1);
     has_gained_points := p.(has_gained_points); has_spent_points := true |}.
Definition gain_points (amount : Z) (p : StatPoints) : StatPoints :=
  {| stats := p.(stats); remaining_points := sat_add 16 p.(remaining_points) amount;
     has_gained_points := true; has_spent_points := p.(has_spent_points) |}.
Definition stat_points_reset (p : StatPoints) : StatPoints :=
  {| stats := p.(stats); remaining_points := p.(remaining_points);
     has_gained_points := false; has_spent_points := true |}.

(** game/stats.rs: the answers to the requests of one tick, in order. *)
Inductive StatResponse :=
| IncreaseSuccess (kind : StatType)
| IncreaseError (kind : StatType) (code : Z).

Fixpoint increase_stats (requests : list StatType) (p : StatPoints) : list StatResponse * StatPoints :=
  match requests with
  | [] => ([], p)
  | kind :: requests =>
      let '(response, p) :=
        if p.(remaining_points) =? 0 then (IncreaseError kind 0, p)
        else (IncreaseSuccess kind, match kind with STR => spend_str p | INT => spend_int p end) in
      let '(responses, p) := increase_stats requests p in
      (response :: responses, p)
  end.

(** ** comp/mastery.rs and game/mastery.rs *)

Record MasteryKnowledge := { masteries : gmap Z Z; leveled_masteries : list Z }.

Definition mastery_knowledge_new (values : list (Z * Z)) : MasteryKnowledge :=
  {| masteries := fold_left (fun m '(k, v) => <[k := v]> m) values ∅; leveled_masteries := [] |}.

Definition mastery_reset (k : MasteryKnowledge) : MasteryKnowledge :=
  {| masteries := k.(masteries); leveled_masteries := [] |}.

Definition level_mastery_by (ref_id amount : Z) (k : MasteryKnowledge) : MasteryKnowledge :=
  {| masteries := match k.(masteries) !! ref_id with
                  | Some old => <[ref_id := u8 (old + amount)]> k.(masteries)
                  | None => <[ref_id := amount]> k.(masteries)
                  end;
     leveled_masteries := k.(leveled_masteries) ++ [ref_id] |}.

Definition level_of (ref_id : Z) (k : MasteryKnowledge) : option Z := k.(masteries) !! ref_id.

(** The sum of a [u16] iterator. *)
Definition total (k : MasteryKnowledge) : Z :=
  map_fold (fun _ v acc => u16 (acc + v)) 0 k.(masteries).

Inductive Race := European | Chinese.
Definition as_skill_origin (r : Race) : Z := match r with European => 1 | Chinese => 0 end.

Record MasteryConfig := { european_per_level : Z; chinese_per_level : Z }.

Inductive LevelUpMasteryError := InsufficientSP | MasteryMaxLevel | ReachedTotalLimit.

(** The system for one player and the request of the tick. [known] tells the
    masteries of the game data. *)
Definition handle_mastery_levelup (known : Z -> bool) (levels : LevelMap) (config : MasteryConfig)
    (race : Race) (l : Leveled) (mastery amount : Z) (k : MasteryKnowledge) (s : SP)
    : option LevelUpMasteryError * MasteryKnowledge * SP :=
  if negb (known mastery) then (Some InsufficientSP, k, s)
  else
    let current_level := default 0 (level_of mastery k) in
    let per_level_cap :=
      match race with European => european_per_level config | Chinese => chinese_per_level config end in
    let current_cap := u16 (l.(level) * per_level_cap) in
    if current_cap <=? total k then (Some ReachedTotalLimit, k, s)
    else
      let required_sp := default 0 (get_mastery_sp_for_level levels current_level) in
      if s.(sp) <? required_sp then (Some InsufficientSP, k, s)
      else
        let s := if 0 <? required_sp then sp_spend required_sp s else s in
        (None, level_mastery_by mastery amount k, s).

(** What [learn_skill] reads of a [RefSkillData] besides its group and level. *)
Record SkillEntry := {
  skill : RefSkillData;
  skill_race : Z;
  skill_sp : Z;
  skill_mastery : option Z;
  skill_mastery_level : option Z;
}.

(** The mastery guard; [true]: it lets the skill pass. *)
Definition mastery_suffices (e : SkillEntry) (k : MasteryKnowledge) : bool :=
  match e.(skill_mastery) with
  | Some mastery_id =>
      match level_of mastery_id k with
      | None => false
      | Some mastery_level =>
          match e.(skill_mastery_level) with
          | Some required_level => required_level <=? mastery_level
          | None => true
          end
      end
  | None => true
  end.

(** [find_id] looks the requested skill up in the game data. *)
Definition learn_skill_request (find_id : Z -> option SkillEntry) (learn : Z) (race : Race)
    (k : MasteryKnowledge) (b : SkillBook) (s : SP)
    : outcome LevelUpMasteryError Z * SkillBook * SP :=
  match find_id learn with
  | None => (Err InsufficientSP, b, s)
  | Some e =>
      if negb (e.(skill_race) =? 3) && negb (e.(skill_race) =? as_skill_origin race) then
        (Err InsufficientSP, b, s)
      else if s.(sp) <? e.(skill_sp) then (Err InsufficientSP, b, s)
      else if negb (mastery_suffices e k) then (Err InsufficientSP, b, s)
      else if negb (has_required_skills_for e.(skill) b) then (Err InsufficientSP, b, s)
      else (Ok learn, learn_skill e.(skill) b, sp_spend e.(skill_sp) s)
  end.

(** ** login/job_distribution.rs *)

Definition spread (hunters thieves : Z) : Z * Z :=
  let total := u32 (hunters + thieves) in
  if total =? 0 then (50, 50)
  else if thieves =? 0 then (100, 0)
  else if hunters =? 0 then (0, 100)
  else
    let hunter_percentage := u8 (hunters / total) in
    (hunter_percentage, u8 (100 - hunter_percentage)).
