(* ===== verification/ProgressSpec.v ===== *)
(** Correctness of Progress.v: experience, levels and skill points are
    conserved, purchases are paid for, a target dies once. *)
From Stdlib Require Import ZArith Lia.
From stdpp Require Import base list option gmap.
From S2P Require Import Prelude Skills Progress.

(** ** Experience *)

(** The experience [n] levels cost from [level] on; the level saturates. *)
Fixpoint level_cost (levels : LevelMap) (level : Z) (n : nat) : Z :=
  match n with
  | O => 0
  | S n => default 0 (get_exp_for_level levels level) + level_cost levels (sat_add 8 level 1) n
  end.

(** Every level has its experience at least once below the top level, and the
    top level, where leveling up changes nothing, has a positive one or none. *)
Definition levels_ok (levels : LevelMap) : Prop :=
  (forall l r, levels !! l = Some r -> 0 <= exp r) /\ (forall r, levels !! 255 = Some r -> 0 < exp r).

Definition settled (levels : LevelMap) (l : Leveled) (x : Experienced) : Prop :=
  match get_exp_for_level levels l.(level) with
  | Some required => x.(experience) < required
  | None => True
  end.

(** Rounds that are enough to spend the experience from a level on. *)
Definition enough_rounds (l : Leveled) (x : Experienced) : nat :=
  Z.to_nat (256 - l.(level) + x.(experience)).

Lemma level_loop_settles levels (Hlevels : levels_ok levels) fuel : forall l x,
  0 <= l.(level) <= 255 -> l.(level) <= l.(max_level) -> 0 <= x.(experience) ->
  (enough_rounds l x <= fuel)%nat ->
  exists n l' x', level_loop fuel levels l x = Some (l', x')
    /\ l'.(level) = Z.min 255 (l.(level) + Z.of_nat n)
    /\ l'.(max_level) = Z.max l.(max_level) l'.(level)
    /\ x.(experience) = x'.(experience) + level_cost levels l.(level) n
    /\ 0 <= x'.(experience) /\ x'.(sp_exp) = x.(sp_exp) /\ settled levels l' x'.
Proof.
  destruct Hlevels as [Hpos Htop].
  induction fuel as [|fuel IH]; intros l x Hl Hm Hx Hf; unfold enough_rounds in Hf; [lia|].
  cbn [level_loop]. unfold get_exp_for_level at 1. destruct (levels !! level l) as [r|] eqn:Er; cbn [fmap option_fmap option_map].
  2: { exists O, l, x. cbn [level_cost]. unfold settled, get_exp_for_level. rewrite Er.
       repeat split; try reflexivity; lia. }
  unfold try_level_up. destruct (Z.leb_spec (exp r) x.(experience)).
  2: { exists O, l, x. cbn [level_cost]. unfold settled, get_exp_for_level. rewrite Er. cbn.
       repeat split; try reflexivity; lia. }
  specialize (Hpos _ _ Er).
  set (x1 := {| experience := _; sp_exp := _; experience_received := _ |}).
  destruct (IH (level_up l) x1) as (n & l' & x' & E & El & Em & Ex & Ex0 & Es & Ed).
  - cbn. unfold sat_add. lia.
  - cbn. lia.
  - cbn. lia.
  - unfold enough_rounds. cbn. unfold sat_add.
    destruct (decide (level l = 255)) as [E|E].
    + rewrite E in Er. specialize (Htop _ Er). lia.
    + lia.
  - exists (S n), l', x'. rewrite E. split; [reflexivity|].
    cbn in El, Em, Ex, Es. cbn [level_cost]. unfold get_exp_for_level at 1. rewrite Er. cbn.
    unfold sat_add in El, Em |- *. unfold sat_add in Ex.
    repeat split; try assumption; lia.
Qed.

(** C35: Receiving experience on a level table whose top level costs something
    returns within the stated rounds, and neither loses nor invents anything:
    the experience held is what is left after paying the levels gained, not
    enough for another one, and every 400 points of skill experience became one
    skill point. *)
Theorem receive_experience_settles (levels : LevelMap) (exp sp_exp : Z) (source : option Z)
    (p : Progression) (fuel : nat)
    (Hlevels : levels_ok levels)
    (Hlevel : 0 <= p.(leveled).(level) <= 255) (Hmax : p.(leveled).(level) <= p.(leveled).(max_level))
    (Hexp : 0 <= exp) (Hx : 0 <= p.(experienced).(experience))
    (Hfit : fits 64 (p.(experienced).(experience) + exp) = true)
    (Hsp : 0 <= sp_exp) (Hy : 0 <= p.(experienced).(Progress.sp_exp))
    (Hsfit : p.(experienced).(Progress.sp_exp) + sp_exp < 2 ^ 32)
    (Hspfit : 0 <= p.(skill_points).(sp)
       /\ p.(skill_points).(sp) + (p.(experienced).(Progress.sp_exp) + sp_exp) / EXP_PER_SP < 2 ^ 32)
    (Hsome : exp <> 0 \/ sp_exp <> 0)
    (Hfuel : (Z.to_nat (256 - p.(leveled).(level) + p.(experienced).(experience) + exp) <= fuel)%nat) :
  exists n p', receive_experience fuel levels exp sp_exp source p = Some p'
    /\ p'.(leveled).(level) = Z.min 255 (p.(leveled).(level) + Z.of_nat n)
    /\ p'.(leveled).(max_level) = Z.max p.(leveled).(max_level) p'.(leveled).(level)
    /\ p.(experienced).(experience) + exp
         = p'.(experienced).(experience) + level_cost levels p.(leveled).(level) n
    /\ settled levels p'.(leveled) p'.(experienced)
    /\ EXP_PER_SP * p.(skill_points).(sp) + p.(experienced).(Progress.sp_exp) + sp_exp
         = EXP_PER_SP * p'.(skill_points).(sp) + p'.(experienced).(Progress.sp_exp)
    /\ p'.(experienced).(Progress.sp_exp) < EXP_PER_SP.
Proof.
  assert (Eskip : (exp =? 0) && (sp_exp =? 0) = false)
    by (apply andb_false_iff; rewrite !Z.eqb_neq; exact Hsome).
  unfold receive_experience. rewrite Eskip. unfold convert_sp, receive. cbn.
  rewrite (wrap_small 64 (_ + exp)) by exact Hfit.
  rewrite (wrap_small 64 (Progress.sp_exp _ + sp_exp)) by (apply fits_spec; lia).
  set (total := Progress.sp_exp (experienced p) + sp_exp) in *. unfold EXP_PER_SP in *.
  assert (Hdiv : 0 <= total / 400) by (apply Z.div_pos; unfold total; lia).
  rewrite (wrap_small 32 (total / 400)) by (apply fits_spec; lia).
  destruct (level_loop_settles levels Hlevels fuel (leveled p)
    {| experience := experience (experienced p) + exp; sp_exp := total mod 400;
       experience_received := experience_received (experienced p) ++
         [{| gained_exp := exp; gained_sp_exp := sp_exp; trigged_level_up := false; from := source |}] |})
    as (n & l' & x' & E & El & Em & Ex & _ & Es & Ed); cbn; [lia..| unfold enough_rounds; cbn; lia |].
  rewrite E. cbn in El, Em, Ex, Es. cbn. exists n. eexists. split; [reflexivity|]. cbn.
  rewrite Es. repeat split; try assumption.
  - destruct (Z.ltb_spec 0 (total / 400)); cbn.
    + rewrite wrap_small by (apply fits_spec; lia). pose proof (Z.div_mod total 400). lia.
    + pose proof (Z.div_mod total 400). lia.
  - pose proof (Z.mod_pos_bound total 400). lia.
Qed.

Definition small_levels : LevelMap :=
  {[ 1 := {| exp := 100; exp_mastery := 1 |}; 2 := {| exp := 200; exp_mastery := 2 |};
     3 := {| exp := 400; exp_mastery := 4 |} ]}.

Lemma small_levels_ok : levels_ok small_levels.
Proof.
  assert (H : map_Forall (fun _ r => 0 <= exp r) small_levels)
    by (unfold small_levels; repeat apply map_Forall_insert_2; cbn; try lia; apply map_Forall_empty).
  split; [intros l r; apply H | intros r Hr; vm_compute in Hr; discriminate].
Qed.

Definition novice : Progression :=
  {| leveled := leveled_new 1 1; experienced := experienced_new 50 300; skill_points := MkSP 2 |}.

Lemma receive_experience_settles_witness :
  exists n p', receive_experience 700 small_levels 260 900 None novice = Some p'
    /\ p'.(leveled).(level) = Z.min 255 (1 + Z.of_nat n)
    /\ 310 = p'.(experienced).(experience) + level_cost small_levels 1 n
    /\ 400 * 2 + 1200 = 400 * p'.(skill_points).(sp) + p'.(experienced).(Progress.sp_exp).
Proof.
  destruct (receive_experience_settles small_levels 260 900 None novice 700 small_levels_ok)
    as (n & p' & E & El & _ & Ex & _ & Es & _);
    try reflexivity; try (split; vm_compute; congruence); try (cbn; lia).
  exists n, p'. cbn in El, Ex. unfold EXP_PER_SP in Es. cbn in Es. auto.
Defined.

(** ** Stat points *)

Definition is_str (k : StatType) : bool := match k with STR => true | INT => false end.
Definition count_kind (p : StatType -> bool) (ks : list StatType) : Z :=
  Z.of_nat (length (List.filter p ks)).

Lemma u16_step a b : u16 (u16 (a + 1) + b) = u16 (a + (1 + b)).
Proof. unfold wrap. rewrite Zplus_mod_idemp_l, Z.add_assoc. reflexivity. Qed.

(** Of the stat requests of a tick, in order, as many succeed as the
    character has points, each of them spending one point for one point of its
    stat; the rest are refused and change nothing. *)
Theorem increase_stats_spends (requests : list StatType) (p : StatPoints)
    (Hp : fits 16 p.(remaining_points) = true)
    (Hs : fits 16 p.(stats).(str) = true) (Hi : fits 16 p.(stats).(int) = true) :
  let '(responses, p') := increase_stats requests p in
  let affordable := firstn (Z.to_nat p.(remaining_points)) requests in
  let refused := skipn (Z.to_nat p.(remaining_points)) requests in
  responses = map IncreaseSuccess affordable ++ map (fun k => IncreaseError k 0) refused
  /\ p'.(remaining_points) + Z.of_nat (length affordable) = p.(remaining_points)
  /\ p'.(stats).(str) = u16 (p.(stats).(str) + count_kind is_str affordable)
  /\ p'.(stats).(int) = u16 (p.(stats).(int) + count_kind (fun k => negb (is_str k)) affordable).
Proof.
  revert p Hp Hs Hi; induction requests as [|k ks IH]; intros p Hp Hs Hi.
  - cbn [increase_stats]. rewrite firstn_nil, skipn_nil. cbn. rewrite !Z.add_0_r.
    rewrite (wrap_small 16 (str _)), (wrap_small 16 (int _)) by assumption. auto.
  - cbn [increase_stats]. apply fits_spec in Hp as Hr.
    destruct (Z.eqb_spec (remaining_points p) 0) as [E|E].
    + specialize (IH p Hp Hs Hi). destruct (increase_stats ks p) as [rs p'].
      rewrite E in IH |- *. cbn [Z.to_nat firstn skipn map app] in IH |- *. destruct IH as (-> & IH). split; [reflexivity | exact IH].
    + set (p1 := match k with STR => spend_str p | INT => spend_int p end).
      assert (E1 : remaining_points p1 = remaining_points p - 1)
        by (destruct k; cbn; apply wrap_small, fits_spec; lia).
      specialize (IH p1). destruct (increase_stats ks p1) as [rs p'].
      replace (Z.to_nat (remaining_points p)) with (S (Z.to_nat (remaining_points p1))) by lia.
      cbn [firstn skipn map length app].
      destruct IH as (-> & Er & Es & Ei);
        [apply fits_spec; rewrite E1; lia | destruct k; cbn; auto using wrap_fits with lia..|].
      split; [reflexivity|]. split; [lia|]. rewrite Es, Ei. unfold count_kind.
      destruct k; cbn [List.filter is_str negb length];
        rewrite ?Nat2Z.inj_succ; unfold Z.succ; cbn [spend_str spend_int stats str int increase_strength
          increase_intelligence p1]; split; try reflexivity;
        rewrite u16_step; f_equal; lia.
Qed.

Lemma increase_stats_spends_witness :
  let p := stat_points_new {| str := 20; int := 65535 |} 2 in
  let '(responses, p') := increase_stats [INT; STR; STR] p in
  responses = [IncreaseSuccess INT; IncreaseSuccess STR; IncreaseError STR 0]
  /\ p'.(remaining_points) + 2 = 2.
Proof.
  intros p.
  pose proof (increase_stats_spends [INT; STR; STR] p eq_refl eq_refl eq_refl) as H.
  destruct (increase_stats _ p) as [responses p']. destruct H as (H1 & H2 & _).
  split; [exact H1 | exact H2].
Defined.

(** ** Damage *)

(** A sequence of hits on one target: attacker and amount of each. *)
Fixpoint take_hits (hits : list (Z * Z)) (h : Health) (d : DamageReceiver)
    : list DamageOutcome * Health * DamageReceiver :=
  match hits with
  | [] => ([], h, d)
  | (source, amount) :: hits =>
      let '(o, h, d) := handle_damage source amount false h d in
      let '(os, h, d) := take_hits hits h d in
      (o :: os, h, d)
  end.

Definition damage_sum (hits : list (Z * Z)) : Z := sumZ (map snd hits).
Definition damage_by (source : Z) (hits : list (Z * Z)) : Z :=
  damage_sum (List.filter (fun hit => fst hit =? source) hits).

Definition amounts_ok (hits : list (Z * Z)) : Prop := Forall (fun hit => fits 32 (snd hit) = true) hits.
Definition receiver_ok (d : DamageReceiver) : Prop :=
  forall source, fits 64 (total_damage_of source d) = true.

(** [d'] is [d] after recording the hits. *)
Definition records (d : DamageReceiver) (hits : list (Z * Z)) (d' : DamageReceiver) : Prop :=
  forall source, total_damage_of source d' = u64 (total_damage_of source d + damage_by source hits).

Lemma damage_by_cons source s a hits :
  damage_by source ((s, a) :: hits) = (if s =? source then a else 0) + damage_by source hits.
Proof. unfold damage_by. cbn [List.filter fst]. destruct (s =? source); reflexivity. Qed.

Lemma damage_by_app source xs ys : damage_by source (xs ++ ys) = damage_by source xs + damage_by source ys.
Proof. unfold damage_by, damage_sum. rewrite List.filter_app, map_app. apply sumZ_app. Qed.

Lemma records_nil d : receiver_ok d -> records d [] d.
Proof. intros H source. cbn. rewrite Z.add_0_r, wrap_small by apply H. reflexivity. Qed.

Lemma records_one s a d : receiver_ok d -> fits 32 a = true -> records d [(s, a)] (record_damage s a d).
Proof.
  intros Hd Ha source. rewrite damage_by_cons. cbn. rewrite Z.add_0_r.
  unfold record_damage. pose proof (Hd source) as H. unfold total_damage_of in *.
  destruct (Z.eqb_spec s source) as [->|Hne].
  - cbn. destruct (damage_counts d !! source) as [v|]; rewrite lookup_insert_eq; cbn; [reflexivity|].
    symmetry. apply wrap_small, fits_spec. apply fits_spec in Ha. lia.
  - rewrite Z.add_0_r, (wrap_small 64) by exact H.
    cbn. destruct (damage_counts d !! s); rewrite lookup_insert_ne by exact Hne; reflexivity.
Qed.

Lemma records_app d xs d1 ys d2 : records d xs d1 -> records d1 ys d2 -> records d (xs ++ ys) d2.
Proof.
  intros H1 H2 source. rewrite H2, H1, damage_by_app. unfold wrap.
  rewrite Zplus_mod_idemp_l, Z.add_assoc. reflexivity.
Qed.

Lemma records_ok d hits d' : records d hits d' -> receiver_ok d'.
Proof. intros H source. rewrite H. apply wrap_fits. lia. Qed.

Lemma handle_damage_alive s a h d :
  0 < h.(current_health) ->
  let '(o, h', d') := handle_damage s a false h d in
  o = (if h.(current_health) <=? a then KillingBlow a else Hit a)
  /\ h'.(current_health) = sat_sub h.(current_health) a /\ d' = record_damage s a d.
Proof.
  intros Hpos. unfold handle_damage, is_dead. destruct (Z.eqb_spec (current_health h) 0); [lia|].
  cbn. split; [|auto]. unfold sat_sub.
  destruct (Z.eqb_spec (Z.max (current_health h - a) 0) 0), (Z.leb_spec (current_health h) a); try lia;
    reflexivity.
Qed.

Lemma take_hits_dead hits h d :
  is_dead h = true -> take_hits hits h d = (map (fun _ => TargetDead) hits, h, d).
Proof.
  intros Hd. induction hits as [|[s a] hits IH]; [reflexivity|].
  cbn [take_hits map]. unfold handle_damage. rewrite Hd, IH. reflexivity.
Qed.

Lemma take_hits_app xs ys h d :
  take_hits (xs ++ ys) h d
    = let '(o1, h1, d1) := take_hits xs h d in
      let '(o2, h2, d2) := take_hits ys h1 d1 in (o1 ++ o2, h2, d2).
Proof.
  revert h d; induction xs as [|[s a] xs IH]; intros h d; cbn [app take_hits].
  - destruct (take_hits ys h d) as [[o2 h2] d2]. reflexivity.
  - destruct (handle_damage s a false h d) as [[o h'] d']. rewrite IH.
    destruct (take_hits xs h' d') as [[o1 h1] d1], (take_hits ys h1 d1) as [[o2 h2] d2]. reflexivity.
Qed.

Lemma damage_sum_nonneg hits : amounts_ok hits -> 0 <= damage_sum hits.
Proof.
  unfold damage_sum. induction 1 as [|[s a] hits Ha _ IH]; cbn [map sumZ foldr snd] in *; [lia|].
  apply fits_spec in Ha. unfold sumZ in IH. lia.
Qed.

Lemma take_hits_alive hits h d :
  amounts_ok hits -> receiver_ok d -> damage_sum hits < h.(current_health) ->
  let '(shown, h1, d1) := take_hits hits h d in
  shown = map (fun hit => Hit (snd hit)) hits
  /\ h1.(current_health) = h.(current_health) - damage_sum hits /\ records d hits d1.
Proof.
  intros Ha. revert h d. induction Ha as [|[s a] hits Ha Hhits IH]; intros h d Hd Hh.
  - cbn. repeat split; [lia | apply records_nil, Hd].
  - pose proof (damage_sum_nonneg hits Hhits) as Hn. apply fits_spec in Ha as Ha'. cbn [snd] in *.
    change (damage_sum ((s, a) :: hits)) with (a + damage_sum hits) in *.
    cbn [take_hits]. pose proof (handle_damage_alive s a h d ltac:(lia)) as H.
    destruct (handle_damage s a false h d) as [[o h'] d']. destruct H as (-> & Eh & ->).
    unfold sat_sub in Eh. specialize (IH h' (record_damage s a d)).
    assert (Hr : records d [(s, a)] (record_damage s a d)) by (apply records_one; assumption).
    destruct (take_hits hits h' _) as [[os h1] d1].
    destruct IH as (-> & -> & Hr'); [eapply records_ok, Hr | lia|].
    destruct (Z.leb_spec (current_health h) a); [lia|].
    split; [reflexivity|]. split; [lia|]. apply (records_app _ [(s, a)] _ hits _ Hr Hr').
Qed.

(** Damage is accounted for until the target dies, and it dies once: hits
    that do not add up to its health are all shown as they are and reduce the
    health by their sum; the first hit that reaches the health is the killing
    blow, the hits after it meet a dead target and change nothing. The damage
    recorded for an attacker is the sum of its hits. *)
Theorem damage_kills_once (hits later : list (Z * Z)) (source amount : Z) (h : Health)
    (d : DamageReceiver)
    (Hhits : amounts_ok hits) (Hamount : fits 32 amount = true) (Hd : receiver_ok d)
    (Hh : damage_sum hits < h.(current_health))
    (Hkill : h.(current_health) <= damage_sum hits + amount) :
  let '(shown, h1, d1) := take_hits hits h d in
  shown = map (fun hit => Hit (snd hit)) hits
  /\ h1.(current_health) = h.(current_health) - damage_sum hits /\ records d hits d1
  /\ let '(all, h2, d2) := take_hits (hits ++ (source, amount) :: later) h d in
     all = shown ++ KillingBlow amount :: map (fun _ => TargetDead) later
     /\ is_dead h2 = true /\ records d (hits ++ [(source, amount)]) d2.
Proof.
  pose proof (take_hits_alive hits h d Hhits Hd Hh) as H. rewrite take_hits_app.
  destruct (take_hits hits h d) as [[shown h1] d1]. destruct H as (-> & Eh & Hr).
  split; [reflexivity|]. split; [exact Eh|]. split; [exact Hr|]. cbn [take_hits].
  pose proof (handle_damage_alive source amount h1 d1 ltac:(lia)) as H.
  destruct (handle_damage source amount false h1 d1) as [[o h2] d2]. destruct H as (-> & Eh2 & ->).
  assert (Hdead : is_dead h2 = true)
    by (unfold is_dead; apply Z.eqb_eq; rewrite Eh2; unfold sat_sub; lia).
  rewrite take_hits_dead by exact Hdead.
  destruct (Z.leb_spec (current_health h1) amount); [|lia].
  split; [reflexivity|]. split; [exact Hdead|].
  eapply records_app; [exact Hr|]. apply records_one; [eapply records_ok, Hr | exact Hamount].
Qed.

Lemma damage_kills_once_witness :
  let '(all, h2, d2) := take_hits [(7, 30); (8, 30); (7, 50); (8, 10)] (health_new 100) damage_receiver_default in
  all = [Hit 30; Hit 30; KillingBlow 50; TargetDead] /\ is_dead h2 = true.
Proof.
  pose proof (damage_kills_once [(7, 30); (8, 30)] [(8, 10)] 7 50 (health_new 100) damage_receiver_default
    ltac:(repeat constructor) eq_refl ltac:(intros s; reflexivity) eq_refl ltac:(cbn; lia)) as H.
  cbn [app] in H. destruct (take_hits [(7, 30); (8, 30)] _ _) as [[shown h1] d1].
  destruct H as (-> & _ & _ & H). destruct (take_hits _ _ _) as [[all h2] d2].
  destruct H as (-> & H & _). split; [reflexivity | exact H].
Defined.

(** ** Masteries and skills *)

(** Leveling a mastery up is decided as the guards say: an unknown mastery,
    a character at its total of levels, and one that cannot pay the skill
    points of the mastery's current level are refused and nothing changes;
    otherwise exactly these points are spent, the mastery gains the requested
    levels modulo 256 and no other mastery changes. *)
Theorem mastery_levelup_decides (known : Z -> bool) (levels : LevelMap) (config : MasteryConfig)
    (race : Race) (l : Leveled) (mastery amount : Z) (k : MasteryKnowledge) (s : SP)
    (Hs : fits 32 s.(sp) = true) (Ha : fits 8 amount = true) :
  let '(error, k', s') := handle_mastery_levelup known levels config race l mastery amount k s in
  let current := default 0 (level_of mastery k) in
  let cap := match race with European => european_per_level config | Chinese => chinese_per_level config end in
  let price := default 0 (get_mastery_sp_for_level levels current) in
  match error with
  | Some e =>
      k' = k /\ s' = s
      /\ match e with
         | ReachedTotalLimit => known mastery = true /\ u16 (l.(level) * cap) <= total k
         | InsufficientSP => known mastery = false \/ s.(sp) < price
         | MasteryMaxLevel => False
         end
  | None =>
      known mastery = true /\ total k < u16 (l.(level) * cap) /\ price <= s.(sp)
      /\ s'.(sp) = s.(sp) - Z.max price 0
      /\ level_of mastery k' = Some (match level_of mastery k with Some old => u8 (old + amount) | None => amount end)
      /\ (forall other, other <> mastery -> level_of other k' = level_of other k)
  end.
Proof.
  unfold handle_mastery_levelup. apply fits_spec in Hs.
  destruct (known mastery) eqn:Ek; cbn [negb]; [|auto].
  destruct (Z.leb_spec (u16 (level l * match race with European => european_per_level config
    | Chinese => chinese_per_level config end)) (total k)) as [H|H]; [auto|].
  set (price := default 0 _). destruct (Z.ltb_spec (sp s) price) as [Hp|Hp]; [auto 6|].
  split; [reflexivity|]. split; [exact H|]. split; [exact Hp|]. split; [|split].
  - destruct (Z.ltb_spec 0 price); cbn; [rewrite wrap_small by (apply fits_spec; lia)|]; lia.
  - unfold level_mastery_by, level_of. cbn.
    destruct (masteries k !! mastery); rewrite lookup_insert_eq; reflexivity.
  - intros other Hne. unfold level_mastery_by, level_of. cbn.
    destruct (masteries k !! mastery); rewrite lookup_insert_ne by congruence; reflexivity.
Qed.

Lemma mastery_levelup_decides_witness :
  let k := mastery_knowledge_new [(257, 1)] in
  let config := {| european_per_level := 6; chinese_per_level := 3 |} in
  let '(error, k', s') := handle_mastery_levelup (fun m => m =? 257) small_levels config Chinese
    (leveled_new 2 2) 257 1 k (MkSP 5) in
  error = None /\ s'.(sp) = 4 /\ level_of 257 k' = Some 2.
Proof.
  intros k config.
  pose proof (mastery_levelup_decides (fun m => m =? 257) small_levels config Chinese (leveled_new 2 2)
    257 1 k (MkSP 5) eq_refl eq_refl) as H.
  assert (E : fst (fst (handle_mastery_levelup (fun m => m =? 257) small_levels config Chinese
    (leveled_new 2 2) 257 1 k (MkSP 5))) = None) by (vm_compute; reflexivity).
  destruct (handle_mastery_levelup _ _ _ _ _ _ _ _ _) as [[error k'] s']. cbn in E. subst error.
  destruct H as (_ & _ & _ & Hs & Hl & _). split; [reflexivity|]. split; [exact Hs | exact Hl].
Defined.

(** The price of a mastery level does not depend on the number of levels
    the client asks for, nor does the cap: one request takes a character with a
    total cap of three to a mastery of level 200 for the points of one level. *)
Theorem mastery_levelup_amount_unchecked :
  exists k s k', total k < 3
    /\ handle_mastery_levelup (fun _ => true) small_levels
         {| european_per_level := 6; chinese_per_level := 3 |} Chinese (leveled_new 1 1) 257 199 k s
       = (None, k', MkSP (s.(sp) - 1))
    /\ level_of 257 k' = Some 200 /\ total k' = 200.
Proof.
  exists (mastery_knowledge_new [(257, 1)]), (MkSP 1), (level_mastery_by 257 199 (mastery_knowledge_new [(257, 1)])).
  split; [reflexivity|]. split; [reflexivity|]. split; reflexivity.
Qed.

Lemma mastery_suffices_spec e k :
  mastery_suffices e k = true <-> forall m, e.(skill_mastery) = Some m ->
    exists lvl, level_of m k = Some lvl /\ forall r, e.(skill_mastery_level) = Some r -> r <= lvl.
Proof.
  unfold mastery_suffices. destruct (skill_mastery e) as [m|]; [|split; [discriminate|auto]].
  destruct (level_of m k) as [lvl|] eqn:El.
  - destruct (skill_mastery_level e) as [r|]; rewrite ?Z.leb_le; split.
    + intros H m' [= <-]. exists lvl. split; [exact El|]. intros r' [= <-]. exact H.
    + intros H. destruct (H m eq_refl) as (l' & E & H'). assert (l' = lvl) by congruence. subst. auto.
    + intros _ m' [= <-]. exists lvl. split; [exact El | discriminate].
    + reflexivity.
  - split; [discriminate|]. intros H. destruct (H m eq_refl) as (l' & E & _). congruence.
Qed.

Lemma has_required_skills_spec sk b :
  has_required_skills_for sk b = true <-> forall g lvl,
    In (g, lvl) sk.(required_skills) -> g <> 0 -> lvl <= default 0 (skills b !! g).
Proof.
  unfold has_required_skills_for. rewrite forallb_forall. split.
  - intros H g lvl Hin Hg. apply Z.leb_le, (H (g, lvl)), filter_In. split; [exact Hin|].
    apply negb_true_iff, Z.eqb_neq, Hg.
  - intros H [g lvl] Hin. apply filter_In in Hin as [Hin Hg]. apply negb_true_iff, Z.eqb_neq in Hg.
    apply Z.leb_le, H; assumption.
Qed.

(** A skill is learned exactly when the game data knows it, its race and
    mastery requirements are met, the required skills are known at their level
    and its points can be paid; then they are spent, and the book holds the
    skill's group at its level. Otherwise nothing changes. *)
Theorem learn_skill_decides (find_id : Z -> option SkillEntry) (learn : Z) (race : Race)
    (k : MasteryKnowledge) (b : SkillBook) (s : SP) (e : SkillEntry)
    (He : find_id learn = Some e)
    (Hs : fits 32 s.(sp) = true) (Hsp : 0 <= e.(skill_sp)) :
  let allowed := (e.(skill_race) = 3 \/ e.(skill_race) = as_skill_origin race)
    /\ e.(skill_sp) <= s.(sp)
    /\ (forall m, e.(skill_mastery) = Some m -> exists lvl, level_of m k = Some lvl
          /\ forall r, e.(skill_mastery_level) = Some r -> r <= lvl)
    /\ (forall g lvl, In (g, lvl) e.(skill).(required_skills) -> g <> 0 ->
          lvl <= default 0 (skills b !! g)) in
  let '(result, b', s') := learn_skill_request find_id learn race k b s in
  (allowed /\ result = Ok learn /\ s'.(sp) = s.(sp) - e.(skill_sp)
     /\ skills b' = <[group e.(skill) := Skills.level e.(skill)]> (skills b))
  \/ (~ allowed /\ result = Err InsufficientSP /\ b' = b /\ s' = s).
Proof.
  intros allowed. unfold learn_skill_request. rewrite He. apply fits_spec in Hs.
  assert (Hal : allowed <-> (e.(skill_race) = 3 \/ e.(skill_race) = as_skill_origin race)
    /\ e.(skill_sp) <= s.(sp) /\ mastery_suffices e k = true
    /\ has_required_skills_for e.(skill) b = true)
    by (pose proof (mastery_suffices_spec e k); pose proof (has_required_skills_spec e.(skill) b);
        unfold allowed; tauto).
  clearbody allowed.
  destruct (Z.eqb_spec (skill_race e) 3), (Z.eqb_spec (skill_race e) (as_skill_origin race)); cbn [negb andb];
    try (right; rewrite Hal; split; [tauto | auto]; fail);
    (destruct (Z.ltb_spec (sp s) (skill_sp e)); [right; rewrite Hal; split; [intuition lia | auto]|]);
    (destruct (mastery_suffices e k); cbn [negb];
       [|right; rewrite Hal; split; [intuition discriminate | auto]]);
    (destruct (has_required_skills_for (skill e) b); cbn [negb];
       [|right; rewrite Hal; split; [intuition discriminate | auto]]);
    left; rewrite Hal; (split; [tauto|]); (split; [reflexivity|]); (split; [|reflexivity]);
    cbn; apply wrap_small, fits_spec; lia.
Qed.

Lemma learn_skill_decides_witness :
  let e := {| skill := {| Skills.group := 5; Skills.level := 2; Skills.required_skills := [(5, 1); (0, 0)] |};
              skill_race := 0; skill_sp := 3; skill_mastery := Some 257; skill_mastery_level := Some 2 |} in
  let k := mastery_knowledge_new [(257, 2)] in
  let '(result, b', s') := learn_skill_request (fun i => if i =? 42 then Some e else None) 42 Chinese k
    (skill_book_new [(5, 1)]) (MkSP 10) in
  result = Ok 42 /\ s'.(sp) = 7 /\ skills b' !! 5 = Some 2.
Proof.
  intros e k.
  pose proof (learn_skill_decides (fun i => if i =? 42 then Some e else None) 42 Chinese k
    (skill_book_new [(5, 1)]) (MkSP 10) e eq_refl eq_refl ltac:(cbn; lia)) as H. cbv zeta in H.
  assert (E : fst (fst (learn_skill_request (fun i => if i =? 42 then Some e else None) 42 Chinese k
    (skill_book_new [(5, 1)]) (MkSP 10))) = Ok 42) by (vm_compute; reflexivity).
  destruct (learn_skill_request _ _ _ _ _ _) as [[result b'] s']. cbn in E. subst result.
  destruct H as [(_ & _ & Hs & Hb)|(_ & Hr & _)]; [|discriminate].
  split; [reflexivity|]. split; [exact Hs|]. rewrite Hb. reflexivity.
Defined.

(** The job spread of a server with players of both jobs is always shown as
    no hunters and a hundred percent thieves, whatever the numbers. *)
Theorem spread_of_both_jobs (hunters thieves : Z)
    (Hh : 0 < hunters) (Ht : 0 < thieves) (Hfit : hunters + thieves < 2 ^ 32) :
  spread hunters thieves = (0, 100).
Proof.
  unfold spread. rewrite wrap_small by (apply fits_spec; lia).
  destruct (Z.eqb_spec (hunters + thieves) 0); [lia|].
  destruct (Z.eqb_spec thieves 0); [lia|]. destruct (Z.eqb_spec hunters 0); [lia|].
  rewrite Z.div_small by lia. reflexivity.
Qed.

Lemma spread_of_both_jobs_witness : spread 90 10 = (0, 100).
Proof. apply (spread_of_both_jobs 90 10); lia. Defined.
