(* ===== verification/AgentStates.v ===== *)
(** silkroad-agent/src/agent: the states of an entity, the queue of requested
    transitions, and the systems that carry them out.

    The state components of an entity are the fields of a record. The systems
    of the transition set run one after the other in some order; the commands
    they issue take effect together after the last of them. *)
From stdpp Require Import base list option.
From Stdlib Require Import ZArith Lia Permutation.
From S2P Require Import Prelude.

Section States.

(** What the components carry: the goal of a movement, the action with its
    skill and target, the entity to pick up, and their timers. The queue never
    looks at them. *)
Context {MovementGoal ActionData PickupData Timer : Type}.

(** ** states.rs *)

Inductive kind := KIdle | KSitting | KMoving | KAction | KPickup | KDead.

#[export] Instance kind_eqdec : EqDecision kind.
Proof. solve_decision. Defined.

Inductive StateChange :=
| Idle
| Sitting (duration : Z)
| Moving (goal : MovementGoal)
| Action (action : ActionData)
| Pickup (data : PickupData)
| Dead (despawn : option Timer).

Definition kind_of (s : StateChange) : kind :=
  match s with
  | Idle => KIdle
  | Sitting _ => KSitting
  | Moving _ => KMoving
  | Action _ => KAction
  | Pickup _ => KPickup
  | Dead _ => KDead
  end.

(** [State::ORDER] *)
Definition ORDER (k : kind) : Z :=
  match k with
  | KIdle => 0
  | KMoving => 1
  | KAction => 2
  | KSitting => 1
  | KPickup => 2
  | KDead => 3
  end.

(** [State::INTERRUPTABLE] *)
Definition INTERRUPTABLE (k : kind) : bool :=
  match k with KIdle | KMoving | KSitting => true | KAction | KPickup | KDead => false end.

Record StateTransition := { data : StateChange; priority : Z }.

Definition transition_new (s : StateChange) : StateTransition :=
  {| data := s; priority := ORDER (kind_of s) |}.

Definition StateTransitionQueue : Type := list StateTransition.

Definition request_transition (s : StateChange) (q : StateTransitionQueue) : StateTransitionQueue :=
  q ++ [transition_new s].

(** [sort_by] with the comparison of the priorities reversed; the sort is stable. *)
Fixpoint insert_sorted (t : StateTransition) (l : list StateTransition) : list StateTransition :=
  match l with
  | [] => [t]
  | u :: l => if u.(priority) <? t.(priority) then t :: u :: l else u :: insert_sorted t l
  end.
Definition sort_transitions (l : list StateTransition) : list StateTransition :=
  fold_left (fun acc t => insert_sorted t acc) l [].

(** ** Commands *)

Inductive command := RemoveState (k : kind) | InsertState (s : StateChange).

(** [StateTransition::replace::<T>] *)
Definition replace (current : kind) (t : StateTransition) : list command :=
  [RemoveState current; InsertState t.(data)].

(** The commands, the queue left, and whether a transition took place. *)
Definition transition_to_new_state (current : kind) (q : StateTransitionQueue)
    : list command * StateTransitionQueue * bool :=
  match sort_transitions q with
  | chosen :: _ => (replace current chosen, [], true)
  | [] => ([], q, false)
  end.

Definition transition_to_higher_state (current : kind) (q : StateTransitionQueue)
    : list command * StateTransitionQueue * bool :=
  match sort_transitions (List.filter (fun t => ORDER current <? t.(priority)) q) with
  | chosen :: _ => (replace current chosen, [], true)
  | [] => ([], [], false)
  end.

(** ** The components of an entity *)

Record components := {
  idle : bool;
  sitting : option Z;
  moving : option MovementGoal;
  action : option ActionData;
  pickup : option PickupData;
  dead : option (option Timer);
}.

Definition no_state : components :=
  {| idle := false; sitting := None; moving := None; action := None; pickup := None; dead := None |}.

Definition has (k : kind) (c : components) : bool :=
  match k with
  | KIdle => c.(idle)
  | KSitting => bool_decide (is_Some c.(sitting))
  | KMoving => bool_decide (is_Some c.(moving))
  | KAction => bool_decide (is_Some c.(action))
  | KPickup => bool_decide (is_Some c.(pickup))
  | KDead => bool_decide (is_Some c.(dead))
  end.

Definition apply_command (c : components) (m : command) : components :=
  match m with
  | RemoveState KIdle | InsertState Idle =>
      {| idle := match m with InsertState _ => true | RemoveState _ => false end;
         sitting := c.(sitting); moving := c.(moving); action := c.(action);
         pickup := c.(pickup); dead := c.(dead) |}
  | RemoveState k =>
      {| idle := c.(idle);
         sitting := if decide (k = KSitting) then None else c.(sitting);
         moving := if decide (k = KMoving) then None else c.(moving);
         action := if decide (k = KAction) then None else c.(action);
         pickup := if decide (k = KPickup) then None else c.(pickup);
         dead := if decide (k = KDead) then None else c.(dead) |}
  | InsertState s =>
      {| idle := c.(idle);
         sitting := match s with Sitting d => Some d | _ => c.(sitting) end;
         moving := match s with Moving g => Some g | _ => c.(moving) end;
         action := match s with Action a => Some a | _ => c.(action) end;
         pickup := match s with Pickup p => Some p | _ => c.(pickup) end;
         dead := match s with Dead t => Some t | _ => c.(dead) end |}
  end.

(** ** system.rs: the systems of [AgentSet::Transition] *)

Inductive transition_system :=
| transition_to_idle
| transition_from_idle
| transition_from_moving
| transition_from_sitting
| transition_from_attacking.

Definition systems : list transition_system :=
  [transition_to_idle; transition_from_idle; transition_from_moving; transition_from_sitting;
   transition_from_attacking].

(** The events written to the other systems. *)
Inductive event := MovementFinished | ActionFinished.

(** A system on one entity: its components are the ones of the stage's begin. *)
Definition run_system (c : components) (s : transition_system) (q : StateTransitionQueue)
    : list command * StateTransitionQueue * list event :=
  match s with
  | transition_to_idle =>
      if has KIdle c || has KMoving c || has KAction c || has KSitting c then ([], q, [])
      else ([InsertState Idle], q, [])
  | transition_from_idle =>
      if has KIdle c then let '(m, q, _) := transition_to_new_state KIdle q in (m, q, []) else ([], q, [])
  | transition_from_sitting =>
      if has KSitting c then let '(m, q, _) := transition_to_new_state KSitting q in (m, q, [])
      else ([], q, [])
  | transition_from_moving =>
      if has KMoving c then
        let '(m, q, changed) := transition_to_new_state KMoving q in
        (m, q, if changed then [MovementFinished] else [])
      else ([], q, [])
  | transition_from_attacking =>
      if has KAction c then
        let '(m, q, changed) := transition_to_higher_state KAction q in
        (m, q, if changed then [ActionFinished] else [])
      else ([], q, [])
  end.

Fixpoint run_systems (c : components) (order : list transition_system) (q : StateTransitionQueue)
    : list command * StateTransitionQueue * list event :=
  match order with
  | [] => ([], q, [])
  | s :: order =>
      let '(m, q, e) := run_system c s q in
      let '(ms, q, es) := run_systems c order q in
      (m ++ ms, q, e ++ es)
  end.

Definition transition_stage (order : list transition_system) (c : components) (q : StateTransitionQueue)
    : components * StateTransitionQueue * list event :=
  let '(ms, q, es) := run_systems c order q in (fold_left apply_command ms c, q, es).

End States.

Arguments StateChange : clear implicits.
Arguments StateTransition : clear implicits.
Arguments StateTransitionQueue : clear implicits.
Arguments components : clear implicits.
Arguments command : clear implicits.

(** ** states/action.rs: the progress of an action *)

Inductive ActionProgressState := Preparation | Casting | Execution | Teardown.

Definition next_progress (s : ActionProgressState) : option ActionProgressState :=
  match s with
  | Preparation => Some Casting
  | Casting => Some Execution
  | Execution => Some Teardown
  | Teardown => None
  end.

Record SkillTimings := {
  preparation_time : Z;
  cast_time : Z;
  duration : Z;
  cooldown : Z;
  next_delay : Z;
}.

Definition get_time_for (s : ActionProgressState) (t : SkillTimings) : option Z :=
  let value := match s with
               | Preparation => i32 t.(preparation_time)
               | Casting => i32 t.(cast_time)
               | Execution => t.(duration)
               | Teardown => i32 t.(next_delay)
               end in
  if 0 <? value then Some value else None.

(** One tick of an action on an entity target with an attack skill (the code
    panics on another one when it executes it); [finished] tells whether its timer just finished,
    the result whether damage is dealt, and the state with the milliseconds of
    its timer, or [None] when the action is removed. *)
Definition action_tick (t : SkillTimings) (finished : bool) (s : ActionProgressState * Z)
    : bool * option (ActionProgressState * Z) :=
  if finished then
    match next_progress s.1 with
    | Some next =>
        (match next with Execution => true | _ => false end,
         Some (next, default 0 (get_time_for next t)))
    | None => (false, None)
    end
  else (false, Some s).

(** The ticks of an action until it is removed: how often it dealt damage, and
    what is left of it. *)
Fixpoint action_run (t : SkillTimings) (ticks : list bool) (s : ActionProgressState * Z)
    : nat * option (ActionProgressState * Z) :=
  match ticks with
  | [] => (O, Some s)
  | finished :: ticks =>
      match action_tick t finished s with
      | (hit, None) => (Nat.b2n hit, None)
      | (hit, Some s) => let '(hits, rest) := action_run t ticks s in ((Nat.b2n hit + hits)%nat, rest)
      end
  end.
