(* ===== verification/AgentStatesSpec.v ===== *)
(** Correctness of AgentStates.v: which transition is carried out, that an
    entity stays in one state, and where it does not. *)
From stdpp Require Import base list option.
From Stdlib Require Import ZArith Lia Permutation Sorted.
From S2P Require Import Prelude AgentStates.

Section Facts.
Context {G A P T : Type}.
Implicit Type q : StateTransitionQueue G A P T.
Implicit Type c : components G A P T.
Implicit Type t u : StateTransition G A P T.

(** ** The choice of a transition *)

(** The transition of highest priority, the earliest requested among equals. *)
Fixpoint chosen_from q : option (StateTransition G A P T) :=
  match q with
  | [] => None
  | t :: q =>
      match chosen_from q with
      | Some u => if t.(priority) <? u.(priority) then Some u else Some t
      | None => Some t
      end
  end.

Definition best t (l : list (StateTransition G A P T)) : option (StateTransition G A P T) :=
  match l with
  | u :: _ => if u.(priority) <? t.(priority) then Some t else Some u
  | [] => Some t
  end.

Lemma head_insert t l : head (insert_sorted t l) = best t l.
Proof. destruct l as [|u l]; [reflexivity|]. cbn. destruct (_ <? _); reflexivity. Qed.

Lemma head_sort q : head (sort_transitions q) = chosen_from q.
Proof.
  unfold sort_transitions.
  assert (G0 : forall q acc, head (fold_left (fun acc t => insert_sorted t acc) q acc)
    = match head acc, chosen_from q with
      | Some a, Some u => if a.(priority) <? u.(priority) then Some u else Some a
      | Some a, None => Some a
      | None, o => o
      end).
  { clear q. induction q as [|t q IH]; intros acc; cbn [fold_left chosen_from].
    - destruct (head acc); reflexivity.
    - rewrite IH, head_insert. unfold best. destruct acc as [|a acc]; cbn [head].
      + destruct (chosen_from q); reflexivity.
      + destruct (chosen_from q) as [u|].
        * destruct (Z.ltb_spec (priority t) (priority u)), (Z.ltb_spec (priority a) (priority t)); cbn [head];
            repeat match goal with |- context [?x <? ?y] => destruct (Z.ltb_spec x y) end;
            reflexivity || lia.
        * destruct (_ <? _); reflexivity. }
  rewrite G0. reflexivity.
Qed.

Lemma chosen_from_none q : chosen_from q = None <-> q = [].
Proof.
  destruct q as [|t q]; cbn; [tauto|]. destruct (chosen_from q) as [u|]; [destruct (_ <? _)|];
    split; discriminate.
Qed.

Lemma chosen_from_spec q t :
  chosen_from q = Some t -> exists before after, q = before ++ t :: after
    /\ Forall (fun u => u.(priority) < t.(priority)) before
    /\ Forall (fun u => u.(priority) <= t.(priority)) after.
Proof.
  revert t; induction q as [|u q IH]; intros t; cbn [chosen_from]; [discriminate|].
  destruct (chosen_from q) as [v|] eqn:E.
  - destruct (IH v eq_refl) as (before & after & -> & Hb & Ha).
    destruct (Z.ltb_spec (priority u) (priority v)) as [Hlt|Hge]; intros [= <-].
    + exists (u :: before), after. auto.
    + exists [], (before ++ v :: after). split; [reflexivity|]. split; [constructor|].
      apply Forall_app. split; [|constructor; [lia|]]; eapply Forall_impl; eauto; cbn; intros; lia.
  - apply chosen_from_none in E as ->. intros [= <-]. exists [], []. auto.
Qed.

(** A state that can be left for any other is left for the request of
    highest priority, the earliest among several; the queue is empty after
    that, and nothing happens without a request. *)
Theorem new_state_is_best (k : kind) q :
  match transition_to_new_state k q with
  | (commands, rest, true) =>
      rest = [] /\ exists t before after, q = before ++ t :: after
        /\ Forall (fun u => u.(priority) < t.(priority)) before
        /\ Forall (fun u => u.(priority) <= t.(priority)) after
        /\ commands = [RemoveState k; InsertState t.(data)]
  | (commands, rest, false) => q = [] /\ commands = [] /\ rest = []
  end.
Proof.
  unfold transition_to_new_state. pose proof (head_sort q) as Hs.
  destruct (sort_transitions q) as [|t l]; cbn [head] in Hs.
  - symmetry in Hs. apply chosen_from_none in Hs. auto.
  - symmetry in Hs. destruct (chosen_from_spec q t Hs) as (b & a & E & Hb & Ha).
    split; [reflexivity|]. exists t, b, a. auto.
Qed.

(** ** The stage on one entity *)

Definition requested (q : StateTransitionQueue G A P T) : Prop :=
  Forall (fun t => t.(priority) = ORDER (kind_of t.(data))) q.

(** The entity in exactly the one state. *)
Definition only (s : StateChange G A P T) : components G A P T := apply_command no_state (InsertState s).

Lemma apply_replace s s' :
  fold_left apply_command [RemoveState (kind_of s); InsertState s'] (only s) = only s'.
Proof. destruct s, s'; reflexivity. Qed.

(** The system that serves each state, the ones without a service have none. *)
Definition serves (k : kind) : option transition_system :=
  match k with
  | KIdle => Some transition_from_idle
  | KSitting => Some transition_from_sitting
  | KMoving => Some transition_from_moving
  | KAction => Some transition_from_attacking
  | KPickup | KDead => None
  end.

(** When one system acts on the entity, the order does not matter. *)
Lemma run_systems_single c order sys q :
  Permutation order systems ->
  (forall x q, x <> sys -> run_system c x q = ([], q, [])) ->
  run_systems c order q = run_system c sys q.
Proof.
  intros Hp Hother.
  assert (Hnd : NoDup order).
  { apply NoDup_ListNoDup. eapply Permutation_NoDup; [symmetry; exact Hp|].
    repeat constructor; cbn; intuition discriminate. }
  assert (Hin : In sys order).
  { eapply Permutation_in; [symmetry; exact Hp|]. destruct sys; cbn; tauto. }
  clear Hp. revert q.
  assert (Hrest : forall order q, ~ In sys order -> run_systems c order q = ([], q, [])).
  { clear order Hnd Hin. induction order as [|x order IH]; intros q Hn; [reflexivity|].
    cbn in Hn. cbn [run_systems]. rewrite Hother by (intros ->; tauto).
    rewrite IH by tauto. reflexivity. }
  induction order as [|x order IH]; intros q; [destruct Hin|].
  apply list.NoDup_cons in Hnd as [Hx Hnd]. rewrite list_elem_of_In in Hx. cbn [run_systems].
  destruct Hin as [->|Hin].
  - destruct (run_system c sys q) as [[m q'] e]. rewrite Hrest by exact Hx.
    rewrite !app_nil_r. reflexivity.
  - rewrite Hother by (intros ->; tauto). rewrite IH by assumption.
    destruct (run_system c sys q) as [[m q'] e]. reflexivity.
Qed.

Lemma run_systems_one (s : StateChange G A P T) order sys q :
  Permutation order systems -> serves (kind_of s) = Some sys ->
  run_systems (only s) order q = run_system (only s) sys q.
Proof.
  intros Hp Hs. apply run_systems_single; [exact Hp|]. intros x q' Hx.
  destruct s, x; cbn in Hs; try reflexivity; congruence.
Qed.

(** An entity that is idle, sitting, moving or acting stays in exactly one
    state whatever was requested and in whatever order the systems run: in the
    chosen one, which for an acting entity can only be its death, or in the one
    it has. *)
Theorem one_state_kept (s : StateChange G A P T) (order : list transition_system) q
    (Horder : Permutation order systems) (Hs : serves (kind_of s) <> None) (Hq : requested q) :
  let '(c', q', _) := transition_stage order (only s) q in
  (exists s', c' = only s' /\ (s' = s \/ In s' (map data q))
    /\ (kind_of s = KAction -> s' = s \/ kind_of s' = KDead))
  /\ (c' <> only s -> q' = []).
Proof.
  destruct (serves (kind_of s)) as [sys|] eqn:Es; [|congruence]. unfold transition_stage.
  rewrite (run_systems_one s order sys q Horder Es).
  assert (Hnew : forall t q0, chosen_from q0 = Some t -> In t q0).
  { intros t q0 Hc. destruct (chosen_from_spec q0 t Hc) as (b & a & -> & _). apply in_elt. }
  pose proof (head_sort q) as Hh. destruct (decide (kind_of s = KAction)) as [Ek|Ek].
  - destruct s; try discriminate. cbn in Es. injection Es as <-. cbn [run_system has only].
    replace (bool_decide _) with true by reflexivity. unfold transition_to_higher_state.
    set (q1 := List.filter _ q). pose proof (head_sort q1) as H1.
    destruct (sort_transitions q1) as [|t l]; cbn [fold_left].
    + split; [|auto]. eexists. split; [reflexivity|]. auto.
    + symmetry in H1. apply Hnew in H1. apply filter_In in H1 as [Hin Ho].
      split; [|auto]. exists (data t). split; [apply (apply_replace (Action action))|].
      split; [right; apply in_map, Hin|]. intros _. right. cbn in Ho. apply Z.ltb_lt in Ho.
      unfold requested in Hq. rewrite Forall_forall in Hq.
      specialize (Hq t Hin). rewrite Hq in Ho.
      destruct (data t); cbn in Ho |- *; try lia; reflexivity.
  - assert (Hrun : run_system (only s) sys q
      = let '(m, q', changed) := transition_to_new_state (kind_of s) q in
        (m, q', match sys with transition_from_moving => if changed then [MovementFinished] else [] | _ => [] end)).
    { destruct s; cbn in Es, Ek; try congruence; injection Es as <-; cbn [run_system has only kind_of];
        try replace (bool_decide _) with true by reflexivity; reflexivity. }
    rewrite Hrun. unfold transition_to_new_state. destruct (sort_transitions q) as [|t l]; cbn [fold_left].
    + split; [|congruence]. exists s. auto.
    + symmetry in Hh. apply Hnew in Hh. split; [|auto]. exists (data t).
      split; [apply apply_replace|]. split; [right; apply in_map, Hh|]. tauto.
Qed.

(** An entity that died or picks something up is given the idle state on
    top at the next stage, in any order of the systems, since no exclusion of
    the query covers these states; from then on it obeys requests again: a dead
    entity walks. *)
Theorem dead_entity_walks (order1 order2 : list transition_system) (despawn : option T) (goal : G)
    (H1 : Permutation order1 systems) (H2 : Permutation order2 systems) :
  let '(c1, _, _) := transition_stage order1 (only (Dead despawn)) [] in
  let '(c2, _, _) := transition_stage order2 c1 (request_transition (Moving goal) []) in
  has KDead c1 = true /\ has KIdle c1 = true
  /\ has KDead c2 = true /\ has KIdle c2 = false /\ moving c2 = Some goal.
Proof.
  unfold transition_stage.
  rewrite (run_systems_single _ order1 transition_to_idle _ H1) by (intros [] q Hx; reflexivity || congruence).
  cbn [run_system has only apply_command no_state idle moving action sitting]. cbn.
  rewrite (run_systems_single _ order2 transition_from_idle _ H2) by (intros [] q Hx; reflexivity || congruence).
  cbn. auto.
Qed.

(** ** Actions *)

Definition stage_of (s : ActionProgressState) : nat :=
  match s with Preparation => 0 | Casting => 1 | Execution => 2 | Teardown => 3 end.

Definition at_stage (n : nat) : option ActionProgressState :=
  match n with
  | 0 => Some Preparation | 1 => Some Casting | 2 => Some Execution | 3 => Some Teardown
  | _ => None
  end%nat.

Definition finishes (ticks : list bool) : nat := length (List.filter (fun b => b) ticks).

Lemma action_run_stages (t : SkillTimings) ticks s :
  let '(hits, rest) := action_run t ticks s in
  hits = Nat.b2n ((stage_of s.1 <? 2)%nat && (2 <=? stage_of s.1 + finishes ticks)%nat)
  /\ fst <$> rest = at_stage (stage_of s.1 + finishes ticks).
Proof.
  revert s; induction ticks as [|f ticks IH]; intros [s ms]; cbn [action_run].
  - unfold finishes. cbn [List.filter length fst]. rewrite Nat.add_0_r. destruct s; split; reflexivity.
  - unfold action_tick, finishes in *. cbn [fst snd List.filter]. destruct f.
    + cbn [length]. rewrite Nat.add_succ_r, <- Nat.add_succ_l. set (n := length _) in *. clearbody n.
      destruct s; cbn [next_progress];
        try (match goal with |- context [action_run t ticks ?s0] => specialize (IH s0) end;
             destruct (action_run t ticks _) as [h r]; destruct IH as [-> ->]; split; reflexivity).
      split; reflexivity.
    + specialize (IH (s, ms)). destruct (action_run t ticks (s, ms)) as [h r]. destruct IH as [-> ->].
      split; reflexivity.
Qed.

(** An action deals its damage exactly once, when its preparation and its
    cast are over, however many ticks that takes, and is removed when its
    fourth timer finishes. *)
Theorem action_hits_once (t : SkillTimings) (ticks : list bool) (milliseconds : Z) :
  let '(hits, rest) := action_run t ticks (Preparation, milliseconds) in
  hits = (if (2 <=? finishes ticks)%nat then 1 else 0)%nat
  /\ (rest = None <-> (4 <= finishes ticks)%nat)
  /\ (forall s, fst <$> rest = Some s -> stage_of s = finishes ticks).
Proof.
  pose proof (action_run_stages t ticks (Preparation, milliseconds)) as H.
  destruct (action_run t ticks _) as [hits rest]. destruct H as [-> Hr]. cbn [fst stage_of Nat.add] in *.
  split; [cbn; destruct (2 <=? finishes ticks)%nat; reflexivity|].
  destruct (finishes ticks) as [|[|[|[|n]]]]; cbn in Hr; destruct rest as [[s ms]|]; try discriminate;
    (split; [split; (discriminate || lia || reflexivity)|]); cbn; intros s' [= <-]; injection Hr as ->; reflexivity.
Qed.

End Facts.

(** ** Witnesses *)

Abbreviation request := (@transition_new unit nat unit unit).

Lemma one_state_kept_witness :
  exists s', fst (fst (transition_stage (rev systems) (only (Action 7%nat))
      [request (Moving tt); request (Dead None); request (Sitting 3)])) = only s'
    /\ (s' = Action 7%nat \/ kind_of s' = KDead).
Proof.
  pose proof (one_state_kept (G := unit) (P := unit) (T := unit) (Action 7%nat) (rev systems)
    [request (Moving tt); request (Dead None); request (Sitting 3)]
    ltac:(symmetry; apply Permutation_rev) ltac:(discriminate) ltac:(repeat constructor)) as H.
  destruct (transition_stage _ _ _) as [[c' q'] e]. destruct H as [(s' & -> & _ & H) _].
  exists s'. auto.
Defined.

Lemma dead_entity_walks_witness :
  let '(c1, _, _) := transition_stage systems (only (A := nat) (P := unit) (Dead (Some 5))) [] in
  let '(c2, _, _) := transition_stage systems c1 (request_transition (Moving 9) []) in
  has KDead c2 = true /\ moving c2 = Some 9.
Proof.
  pose proof (dead_entity_walks (A := nat) (P := unit) systems systems (Some 5) 9
    (Permutation_refl _) (Permutation_refl _)) as H.
  destruct (transition_stage systems (only _) []) as [[c1 ?] ?].
  destruct (transition_stage systems c1 _) as [[c2 ?] ?]. tauto.
Defined.
