(* ===== verification/Equipment.v ===== *)
(** silkroad-agent/src/game/inventory.rs and gold.rs: what a player's inventory
    requests do, and which items may be worn where. *)
From Stdlib Require Import ZArith Lia.
From stdpp Require Import base list option gmap.
From S2P Require Import Prelude Definitions TypeIdEnums TypeId GameData Changes Inventory Progress.

(** ** Which item fits a slot *)

Definition does_object_type_match_slot (slot : Z) (obj_type : ObjectType) : bool :=
  match obj_type with
  | Type_Item (Item_Equippable equipment) =>
      match equipment with
      | Equip_Clothing _ part =>
          match part with
          | ObjectClothingPart_Head => slot =? 0
          | ObjectClothingPart_Shoulder => slot =? 1
          | ObjectClothingPart_Body => slot =? 2
          | ObjectClothingPart_Leg => slot =? 4
          | ObjectClothingPart_Arm => slot =? 3
          | ObjectClothingPart_Foot => slot =? 5
          | ObjectClothingPart_Any => false
          end
      | Equip_Shield _ => slot =? 7
      | Equip_Jewelry _ kind =>
          match kind with
          | ObjectJewelryType_Earring => slot =? 8
          | ObjectJewelryType_Necklace => slot =? 9
          | ObjectJewelryType_Ring => (slot =? 11) || (slot =? 10)
          end
      | Equip_Weapon _ => slot =? 6
      | _ => false
      end
  | Type_Item (Item_Consumable (Consumable_Ammo _)) => slot =? 7
  | _ => false
  end.

Definition is_chinese (r : Race) : bool := match r with Progress.Chinese => true | Progress.European => false end.
Definition is_european (r : Race) : bool := negb (is_chinese r).

Definition does_object_type_match_race (user_race : Race) (obj_type : ObjectType) : bool :=
  match obj_type with
  | Type_Item (Item_Equippable equipment) =>
      match equipment with
      | Equip_Clothing kind _ =>
          match kind with
          | ObjectClothingType_Garment | ObjectClothingType_Protector | ObjectClothingType_Armor =>
              is_chinese user_race
          | ObjectClothingType_Robe | ObjectClothingType_LightArmor | ObjectClothingType_HeavyArmor =>
              is_european user_race
          end
      | Equip_Shield race | Equip_Jewelry race _ =>
          match race with
          | ObjectRace_Chinese => is_chinese user_race
          | ObjectRace_European => is_european user_race
          end
      | Equip_Weapon kind =>
          match kind with
          | ObjectWeaponType_Sword | ObjectWeaponType_Blade | ObjectWeaponType_Spear
          | ObjectWeaponType_Glavie | ObjectWeaponType_Bow => is_chinese user_race
          | ObjectWeaponType_OneHandSword | ObjectWeaponType_TwoHandSword | ObjectWeaponType_Axe
          | ObjectWeaponType_WarlockStaff | ObjectWeaponType_Staff | ObjectWeaponType_Crossbow
          | ObjectWeaponType_Dagger | ObjectWeaponType_Harp | ObjectWeaponType_ClericRod =>
              is_european user_race
          | _ => false
          end
      | _ => false
      end
  | Type_Item (Item_Consumable (Consumable_Ammo kind)) =>
      match kind with
      | ObjectConsumableAmmo_Arrows => is_chinese user_race
      | ObjectConsumableAmmo_Bolts => is_european user_race
      end
  | _ => false
  end.

(** The guard on a reference; [expect] panics on an unknown type. *)
Definition reference_fits (r : RefItemData) (target : Z) (level : Leveled) (race : Race) : outcome MoveError bool :=
  match from_type_id (type_id_of r) with
  | None => Panic
  | Some object_type =>
      Ok (does_object_type_match_slot target object_type
          && match r.(required_level) with Some val => val <=? level.(Progress.level) | None => true end
          && does_object_type_match_race race object_type)
  end.

Definition item_fits_into_equipment_slot (source_item : Item) (target : Z) (level : Leveled) (race : Race)
    : outcome MoveError bool :=
  reference_fits source_item.(reference) target level race.

(** ** Moving items *)

(** What the client is sent. *)
Inductive message :=
| Moved (source target amount : Z)
| Indisposable
| InvalidTarget
| NotEnoughGold
| DroppedGold (amount : Z)
| EquipItem (slot ref_id upgrade_level : Z)
| UnequipItem (slot ref_id : Z).

Definition player_unequip_item (inv : Inventory) (item_slot source : Z) : list message :=
  match get_item_at inv item_slot with
  | Some item => [UnequipItem source (ref_id item.(reference))]
  | None => []
  end.

Definition player_equip_item (inv : Inventory) (slot_the_item_gets_equipped_to slot_of_item : Z)
    : list message :=
  match get_item_at inv slot_of_item with
  | Some item =>
      [EquipItem slot_the_item_gets_equipped_to (ref_id item.(reference)) (upgrade_level_of item)]
  | None => []
  end.

(** A move whose errors are ignored; [announce] makes the messages after the
    success from the new inventory. *)
Definition move_and_announce (inv : Inventory) (source target amount : Z)
    (announce : Inventory -> list message) : outcome MoveError (list message * Inventory) :=
  match move_item inv source target amount with
  | (Ok amount_moved, inv) => Ok (Moved source target amount_moved :: announce inv, inv)
  | (Err _, inv) => Ok ([], inv)
  | (Panic, _) => Panic
  end.

Definition handle_inventory_movement (inv : Inventory) (source target : Z) (level : Leveled) (race : Race)
    (amount : Z) : outcome MoveError (list message * Inventory) :=
  match get_item_at inv source with
  | Some source_item =>
      match is_equipment_slot source, is_equipment_slot target with
      | false, true =>
          fits ← item_fits_into_equipment_slot source_item target level race;
          if fits : bool then
            move_and_announce inv source target 1 (fun inv => player_equip_item inv source target)
          else Ok ([Indisposable], inv)
      | true, false =>
          match get_item_at inv target with
          | Some swapped_in_item =>
              fits ← item_fits_into_equipment_slot swapped_in_item source level race;
              if fits : bool then
                move_and_announce inv source target (Z.max 1 amount)
                  (fun inv => player_unequip_item inv target source ++ player_equip_item inv source source)
              else Ok ([Indisposable], inv)
          | None =>
              move_and_announce inv source target (Z.max 1 amount)
                (fun inv => player_unequip_item inv target source)
          end
      | false, false => move_and_announce inv source target (Z.max 1 amount) (fun _ => [])
      | true, true =>
          fits ← item_fits_into_equipment_slot source_item target level race;
          if fits : bool then Ok ([], inv) else Ok ([Indisposable], inv)
      end
  | None => Ok ([InvalidTarget], inv)
  end.

(** ** Gold *)

Definition SMALL_GOLD_SIZE_MAX : Z := 1000.
Definition MEDIUM_GOLD_SIZE_MAX : Z := 5000.

(** The reference id of a drop of gold; the table of items has it. *)
Definition get_gold_ref_id (amount : Z) : Z :=
  if amount <? SMALL_GOLD_SIZE_MAX then 1
  else if amount <? MEDIUM_GOLD_SIZE_MAX then 2
  else 3.

(** What is dropped: the reference id and the type data of the item. *)
Definition handle_player_drop_gold (amount : Z) (gold : GoldPouch)
    : list message * option (Z * ItemTypeData) * GoldPouch :=
  if gold.(Progress.gold) <? amount then ([NotEnoughGold], None, gold)
  else if amount =? 0 then ([], None, gold)
  else
    ([DroppedGold amount], Some (get_gold_ref_id (u32 amount), Gold (u32 amount)), gold_spend amount gold).

(** Picking gold up, in [pickup] of agent/states/action.rs. *)
Definition pickup_gold (dropped : ItemTypeData) (gold : GoldPouch) : GoldPouch :=
  match dropped with Gold amount => gold_gain amount gold | _ => gold end.
