(* ===== verification/EquipmentSpec.v ===== *)
(** Correctness of Equipment.v: what is worn fits, and what the gold of a drop
    comes to. *)
From Stdlib Require Import ZArith Lia.
From stdpp Require Import base list option gmap.
From S2P Require Import Prelude Definitions TypeIdEnums TypeId GameData Changes Inventory.
From S2P Require Import InventoryFacts InventorySpec Progress Equipment.

(** ** Where references end up *)

(** The item of a slot comes from the slot, or from the other slot of a move. *)
Definition from_slot (m m' : gmap Z Item) (k s : Z) : Prop :=
  forall i, m' !! k = Some i -> exists i0, m !! s = Some i0 /\ i.(reference) = i0.(reference).

Lemma change_stack_size_reference i n i' : change_stack_size i n = Ok i' -> i'.(reference) = i.(reference).
Proof. intros H. apply change_stack_size_ok in H as (a & -> & _). reflexivity. Qed.

(** What a slot of the new map may hold after a move. *)
Definition moved_ok (m m' : gmap Z Item) (s t : Z) : Prop :=
  forall k i, m' !! k = Some i ->
    (exists i0, m !! k = Some i0 /\ i.(reference) = i0.(reference))
    \/ (k = t /\ exists i0, m !! s = Some i0 /\ i.(reference) = i0.(reference))
    \/ (k = s /\ exists i0, m !! t = Some i0 /\ i.(reference) = i0.(reference)).

Lemma moved_same m m' s t : (forall k i, m' !! k = Some i -> m !! k = Some i) -> moved_ok m m' s t.
Proof. intros H k i Hk. left. eauto. Qed.

Lemma moved_insert_target m m' s t i i0 :
  moved_ok m m' s t -> m !! t = Some i0 -> i.(reference) = i0.(reference) ->
  moved_ok m (<[t := i]> m') s t.
Proof.
  intros H Ht Hr k j. destruct (decide (k = t)) as [->|Hne].
  - rewrite lookup_insert_eq. intros [= <-]. left. eauto.
  - rewrite lookup_insert_ne by congruence. apply H.
Qed.

Lemma moved_insert_source m m' s t i i0 :
  moved_ok m m' s t -> m !! s = Some i0 -> i.(reference) = i0.(reference) ->
  moved_ok m (<[s := i]> m') s t.
Proof.
  intros H Hs Hr k j. destruct (decide (k = s)) as [->|Hne].
  - rewrite lookup_insert_eq. intros [= <-]. left. eauto.
  - rewrite lookup_insert_ne by congruence. apply H.
Qed.

Lemma moved_deleted m s t : moved_ok m (delete t (delete s m)) s t.
Proof.
  apply moved_same. intros k i Hk. apply lookup_delete_Some in Hk as [_ Hk].
  apply lookup_delete_Some in Hk as [_ Hk]. exact Hk.
Qed.

Lemma move_stack_references inv s t si ti amount :
  items inv !! s = Some si -> items inv !! t = Some ti ->
  moved_ok (items inv)
    (items (snd (move_stack (set_items inv (delete t (delete s (items inv)))) s t si ti amount))) s t.
Proof.
  intros Hs Ht. pose proof (moved_deleted (items inv) s t) as Hd. unfold move_stack. cbv zeta.
  destruct (u16 _ =? 0).
  { eapply moved_insert_target; [|exact Ht|reflexivity].
    eapply moved_insert_source; [exact Hd|exact Hs|reflexivity]. }
  destruct (amount <=? _).
  - destruct (change_stack_size ti _) as [ti'|e|] eqn:E; [|exact Hd..].
    eapply moved_insert_target; [exact Hd|exact Ht|]. eapply change_stack_size_reference, E.
  - destruct (change_stack_size ti _) as [ti'|e|] eqn:E; [|exact Hd..].
    destruct (change_stack_size si _) as [si'|e|] eqn:E'; [|exact Hd..].
    eapply moved_insert_target; [|exact Ht|eapply change_stack_size_reference, E].
    eapply moved_insert_source; [exact Hd|exact Hs|eapply change_stack_size_reference, E'].
Qed.

Lemma move_item_references inv s t amount :
  moved_ok (items inv) (items (snd (move_item inv s t amount))) s t.
Proof.
  unfold move_item. destruct (items inv !! s) as [si|] eqn:Hs; [|apply moved_same; auto].
  cbn [items set_items]. destruct (delete s (items inv) !! t) as [ti|] eqn:Ht.
  - apply lookup_delete_Some in Ht as [Hne Ht]. destruct (_ && _); [exact (move_stack_references inv s t si ti amount Hs Ht)|].
    intros k i. cbn. destruct (decide (k = s)) as [->|Hs'].
    + rewrite lookup_insert_eq. intros [= <-]. right; right. eauto.
    + rewrite lookup_insert_ne by congruence. destruct (decide (k = t)) as [->|Ht'].
      * rewrite lookup_insert_eq. intros [= <-]. right; left. eauto.
      * rewrite lookup_insert_ne, !lookup_delete_ne by congruence. left. eauto.
  - intros k i. cbn. destruct (decide (k = t)) as [->|Ht'].
    + rewrite lookup_insert_eq. intros [= <-]. right; left. eauto.
    + rewrite lookup_insert_ne by congruence. intros Hk. apply lookup_delete_Some in Hk as [_ Hk].
      left. eauto.
Qed.

(** ** Worn items *)

(** Every item in an equipment slot passes the guard of that slot. *)
Definition worn_fits (level : Leveled) (race : Race) (m : gmap Z Item) : Prop :=
  forall slot i, is_equipment_slot slot = true -> m !! slot = Some i ->
    reference_fits i.(reference) slot level race = Ok true.

Lemma worn_after_move level race inv s t amount :
  worn_fits level race (items inv) ->
  (forall si, is_equipment_slot t = true -> items inv !! s = Some si ->
     reference_fits si.(reference) t level race = Ok true) ->
  (forall ti, is_equipment_slot s = true -> items inv !! t = Some ti ->
     reference_fits ti.(reference) s level race = Ok true) ->
  worn_fits level race (items (snd (move_item inv s t amount))).
Proof.
  intros Hw Hst Hts k i Hk Hi. apply (move_item_references inv s t amount) in Hi as
    [(i0 & H0 & ->)|[(-> & i0 & H0 & ->)|(-> & i0 & H0 & ->)]]; eauto.
Qed.

Lemma worn_after_announced level race inv s t amount announce msgs inv' :
  worn_fits level race (items inv) ->
  (forall si, is_equipment_slot t = true -> items inv !! s = Some si ->
     reference_fits si.(reference) t level race = Ok true) ->
  (forall ti, is_equipment_slot s = true -> items inv !! t = Some ti ->
     reference_fits ti.(reference) s level race = Ok true) ->
  move_and_announce inv s t amount announce = Ok (msgs, inv') ->
  worn_fits level race (items inv').
Proof.
  intros Hw Hst Hts. pose proof (worn_after_move level race inv s t amount Hw Hst Hts) as H.
  unfold move_and_announce. destruct (move_item inv s t amount) as [[n|e|] inv1]; cbn [snd] in H;
    [intros [= _ <-] | intros [= _ <-] | discriminate]; exact H.
Qed.

(** C34: Whatever a client asks to move where, no item gets into an equipment
    slot it does not fit by its type, the character's race and its level: not
    by equipping, not by swapping, and not by a move that fails. *)
Theorem worn_items_fit (inv inv' : Inventory) (source target amount : Z) (level : Leveled) (race : Race)
    (msgs : list message)
    (Hw : worn_fits level race (items inv))
    (Hh : handle_inventory_movement inv source target level race amount = Ok (msgs, inv')) :
  worn_fits level race (items inv').
Proof.
  unfold handle_inventory_movement, get_item_at, item_fits_into_equipment_slot in Hh.
  destruct (items inv !! source) as [si|] eqn:Hs; [|injection Hh as _ <-; exact Hw].
  destruct (is_equipment_slot source) eqn:Es, (is_equipment_slot target) eqn:Et.
  - apply bind_ok in Hh as ([] & _ & Hh); injection Hh as _ <-; exact Hw.
  - destruct (items inv !! target) as [ti|] eqn:Ht.
    + apply bind_ok in Hh as ([] & Hfit & Hh); [|injection Hh as _ <-; exact Hw].
      eapply worn_after_announced; [exact Hw| | |exact Hh]; intros ? ?; congruence.
    + eapply worn_after_announced; [exact Hw| | |exact Hh]; intros ? ?; congruence.
  - apply bind_ok in Hh as ([] & Hfit & Hh); [|injection Hh as _ <-; exact Hw].
    eapply worn_after_announced; [exact Hw| | |exact Hh]; intros ? ?; congruence.
  - eapply worn_after_announced; [exact Hw| | |exact Hh]; intros ? ?; congruence.
Qed.

(** A Chinese sword of level 5, and where it can be worn. *)
Definition sword : Item :=
  {| reference :=
       item_row 100 (TypeId.type_id (Type_Item (Item_Equippable (Equip_Weapon ObjectWeaponType_Sword)))) 1 (Some 5);
     variance := None; type_data := Equipment 2 |}.
Definition bag : Inventory := {| size := 45; items := {[ 20 := sword ]}; changes := [] |}.

Lemma worn_items_fit_witness :
  handle_inventory_movement bag 20 6 (leveled_new 5 5) Progress.Chinese 1
    = Ok ([Moved 20 6 1; EquipItem 20 100 2], snd (move_item bag 20 6 1))
  /\ worn_fits (leveled_new 5 5) Progress.Chinese (items (snd (move_item bag 20 6 1))).
Proof.
  assert (E : handle_inventory_movement bag 20 6 (leveled_new 5 5) Progress.Chinese 1
    = Ok ([Moved 20 6 1; EquipItem 20 100 2], snd (move_item bag 20 6 1))) by (vm_compute; reflexivity).
  split; [exact E|].
  refine (worn_items_fit bag _ 20 6 1 (leveled_new 5 5) Progress.Chinese _ _ E).
  intros slot i Hslot Hi. cbn in Hi. apply lookup_singleton_Some in Hi as [<- <-]. discriminate.
Defined.

(** Equipping an item from the bag tells the client the wrong slot: the
    message names the bag slot the item came from, never an equipment slot. *)
Theorem equip_announces_bag_slot (inv inv' : Inventory) (source target amount slot id upgrade : Z)
    (level : Leveled) (race : Race) (msgs : list message)
    (Hs : is_equipment_slot source = false) (Ht : is_equipment_slot target = true)
    (Hh : handle_inventory_movement inv source target level race amount = Ok (msgs, inv'))
    (Hm : In (EquipItem slot id upgrade) msgs) :
  slot = source /\ is_equipment_slot slot = false.
Proof.
  enough (slot = source) by (subst; auto). unfold handle_inventory_movement in Hh. rewrite Hs, Ht in Hh.
  destruct (get_item_at inv source) as [si|]; [|injection Hh as <- _; cbn in Hm; intuition discriminate].
  apply bind_ok in Hh as ([] & _ & Hh); [|injection Hh as <- _; cbn in Hm; intuition discriminate].
  unfold move_and_announce in Hh. destruct (move_item inv source target 1) as [[n|e|] inv1];
    [|injection Hh as <- _; destruct Hm|discriminate].
  injection Hh as <- _. destruct Hm as [Hm|Hm]; [discriminate|].
  unfold player_equip_item in Hm. destruct (get_item_at inv1 target); [|destruct Hm].
  destruct Hm as [[= <- _ _]|[]]. reflexivity.
Qed.

Lemma equip_announces_bag_slot_witness : 20 = 20 /\ is_equipment_slot 20 = false.
Proof.
  apply (equip_announces_bag_slot bag (snd (move_item bag 20 6 1)) 20 6 1 20 100 2 (leveled_new 5 5)
    Progress.Chinese [Moved 20 6 1; EquipItem 20 100 2]);
    [reflexivity | reflexivity | vm_compute; reflexivity | right; left; reflexivity].
Defined.

(** The target of a move is not checked against the size of the inventory:
    an item of a 45-slot inventory moves to slot 200, and is told to have. *)
Theorem move_beyond_size :
  exists inv', handle_inventory_movement bag 20 200 (leveled_new 5 5) Progress.Chinese 1
      = Ok ([Moved 20 200 1], inv')
    /\ size inv' = 45 /\ get_item_at inv' 200 = Some sword /\ get_item_at inv' 20 = None.
Proof. eexists. split; [vm_compute; reflexivity|]. split; [|split]; vm_compute; reflexivity. Qed.

(** ** Gold *)

(** Dropping gold takes exactly the amount the player has it for and
    refuses more; picking the drop up gives it back exactly when the amount
    fits 32 bits, otherwise a multiple of 2^32 is gone. *)
Theorem drop_gold_conserved (amount : Z) (g : GoldPouch)
    (Ha : 0 <= amount) (Hg : fits 64 g.(gold) = true) :
  let '(msgs, dropped, g') := handle_player_drop_gold amount g in
  match dropped with
  | Some (_, item) =>
      0 < amount <= g.(gold) /\ msgs = [DroppedGold amount]
      /\ g'.(gold) = g.(gold) - amount
      /\ (pickup_gold item g').(gold) = g.(gold) - amount + u32 amount
      /\ (pickup_gold item g' = g <-> amount < 2 ^ 32)
  | None => g' = g /\ (amount = 0 \/ g.(gold) < amount)
  end.
Proof.
  apply fits_spec in Hg. unfold handle_player_drop_gold.
  destruct (Z.ltb_spec (gold g) amount); [auto|]. destruct (Z.eqb_spec amount 0); [auto|].
  assert (Hw : 0 <= u32 amount <= amount).
  { pose proof (wrap_range 32 amount ltac:(lia)). split; [lia|]. apply Z.mod_le; lia. }
  assert (Ep : gold (pickup_gold (Gold (u32 amount)) (gold_spend amount g)) = gold g - amount + u32 amount).
  { cbn. unfold sat_add, sat_sub. rewrite Z.max_l, Z.min_l by lia. reflexivity. }
  repeat split; try assumption; try lia.
  - cbn. unfold sat_sub. lia.
  - intros E. rewrite E in Ep. pose proof (wrap_range 32 amount ltac:(lia)). lia.
  - intros Hlt. destruct g as [z]. unfold pickup_gold, gold_gain, gold_spend in *. cbn in *. f_equal.
    rewrite Ep, wrap_small by (apply fits_spec; lia). lia.
Qed.

Lemma drop_gold_conserved_witness :
  pickup_gold (Gold (u32 (2 ^ 32 + 5))) (gold_spend (2 ^ 32 + 5) (MkGoldPouch (2 ^ 33))) <> MkGoldPouch (2 ^ 33).
Proof.
  pose proof (drop_gold_conserved (2 ^ 32 + 5) (MkGoldPouch (2 ^ 33)) ltac:(lia) eq_refl) as H.
  destruct H as (_ & _ & _ & _ & H). intros E. apply H in E. lia.
Defined.
