(* ===== verification/Characters.v ===== *)
(** Characters: the record of game-base, the rows and queries of
    agent/src/db/character.rs and agent/src/login/character_loader.rs over the
    tables of the migrations, and what comp/player.rs makes of a row.

    A query is the function its statement computes on the tables; an error of
    the database panics the task ([unwrap]) and is left out. *)
From stdpp Require Import base list option strings gmap.
From Stdlib Require Import ZArith Lia.
From S2P Require Import Prelude Utf Text F32 Definitions TypeIdEnums TypeId GameData Inventory InventoryRows Progress.

(** ** game-base: a character *)

Inductive SpawningState := Loading | Spawning | Finished.

Record Character := {
  char_id : Z;
  name : list Z;
  race : Race;
  scale : Z;
  level : Z;
  max_level : Z;
  exp : Z;
  sp : Z;
  sp_exp : Z;
  stats : Stats;
  stat_points : Z;
  current_hp : Z;
  current_mp : Z;
  berserk_points : Z;
  gold : Z;
  beginner_mark : bool;
  gm : bool;
  state : SpawningState;
  masteries : list (Z * Z);
  skills : list (Z * Z);
}.

(** ** db/character.rs: the rows *)

Inductive DbRace := DbChinese | DbEuropean.

Definition race_of_db (r : DbRace) : Race :=
  match r with DbChinese => Progress.Chinese | DbEuropean => Progress.European end.
Definition db_race_of (r : Race) : DbRace :=
  match r with Progress.European => DbEuropean | Progress.Chinese => DbChinese end.

Record CharacterData := {
  data_id : Z;
  user_id : Z;
  server_id : Z;
  charname : list Z;
  db_race : DbRace;
  character_type : Z;
  db_scale : Z;
  db_level : Z;
  db_max_level : Z;
  db_exp : Z;
  db_sp : Z;
  db_sp_exp : Z;
  strength : Z;
  intelligence : Z;
  db_stat_points : Z;
  db_current_hp : Z;
  db_current_mp : Z;
  deletion_end : option Z;
  pos_x : f32;
  pos_y : f32;
  pos_z : f32;
  db_rotation : Z;
  db_region : Z;
  db_berserk_points : Z;
  db_gold : Z;
  db_beginner_mark : bool;
  db_gm : bool;
  last_logout : option Z;
}.

(** A row of [character_items]: its slot and the rest, as in [InventoryRows]. *)
Definition ItemRow : Type := Z * CharacterItem.

Record DbCharacter := {
  character_data : CharacterData;
  db_items : list ItemRow;
  db_masteries : list (Z * Z);
  db_skills : list (Z * Z);
}.

(** The tables: characters in the order of their ids, the other ones with the
    id of the character first. *)
Record Database := {
  characters : list CharacterData;
  character_items : list (Z * ItemRow);
  character_masteries : list (Z * (Z * Z));
  character_skills : list (Z * (Z * Z));
  next_id : Z;
}.

Definition with_characters (cs : list CharacterData) (db : Database) : Database :=
  {| characters := cs; character_items := db.(character_items);
     character_masteries := db.(character_masteries); character_skills := db.(character_skills);
     next_id := db.(next_id) |}.

(** [deletion_end > NOW() OR deletion_end is null] *)
Definition not_deleted (now : Z) (c : CharacterData) : bool :=
  match c.(deletion_end) with Some t => now <? t | None => true end.

Definition fetch_characters (user shard now : Z) (db : Database) : list CharacterData :=
  List.filter (fun c => (c.(user_id) =? user) && (c.(server_id) =? shard) && not_deleted now c)
    db.(characters).

(** The rows of a table for one character, in the order of the query. *)
Definition rows_for {A} (id : Z) (rows : list (Z * A)) : list A :=
  map snd (List.filter (fun r => r.1 =? id) rows).

(** [load_characters_sparse]: the rows of the characters found, grouped. *)
Definition load_characters_sparse (user shard now : Z) (db : Database) : list DbCharacter :=
  map (fun c => {| character_data := c; db_items := rows_for c.(data_id) db.(character_items);
                   db_masteries := rows_for c.(data_id) db.(character_masteries);
                   db_skills := rows_for c.(data_id) db.(character_skills) |})
    (fetch_characters user shard now db).

Section Names.

(** [LOWER] of the database. *)
Context (lower : list Z -> list Z).

(** The server is bound as an [i16]. *)
Definition check_name_available (n : list Z) (server : Z) (db : Database) : list Z * bool :=
  (n, (length (List.filter (fun c => bool_decide (lower c.(charname) = lower n) && (c.(server_id) =? i16 server)%Z)
                 db.(characters)) =? 0)%nat).
End Names.

(** An [UPDATE] of the characters that match, and how many there were. *)
Definition update_where (p : CharacterData -> bool) (f : CharacterData -> CharacterData) (db : Database)
    : nat * Database :=
  (length (List.filter p db.(characters)),
   with_characters (map (fun c => if p c then f c else c) db.(characters)) db).

Definition with_deletion_end (t : option Z) (c : CharacterData) : CharacterData :=
  {| data_id := c.(data_id); user_id := c.(user_id); server_id := c.(server_id); charname := c.(charname);
     db_race := c.(db_race); character_type := c.(character_type); db_scale := c.(db_scale);
     db_level := c.(db_level); db_max_level := c.(db_max_level); db_exp := c.(db_exp); db_sp := c.(db_sp);
     db_sp_exp := c.(db_sp_exp); strength := c.(strength); intelligence := c.(intelligence);
     db_stat_points := c.(db_stat_points); db_current_hp := c.(db_current_hp);
     db_current_mp := c.(db_current_mp); deletion_end := t; pos_x := c.(pos_x); pos_y := c.(pos_y);
     pos_z := c.(pos_z); db_rotation := c.(db_rotation); db_region := c.(db_region);
     db_berserk_points := c.(db_berserk_points); db_gold := c.(db_gold);
     db_beginner_mark := c.(db_beginner_mark); db_gm := c.(db_gm); last_logout := c.(last_logout) |}.

Definition named (user server : Z) (n : list Z) (c : CharacterData) : bool :=
  (c.(user_id) =? user) && (c.(server_id) =? server) && bool_decide (c.(charname) = n).

(** Minutes, of the microseconds of a timestamp. *)
Definition minutes (m : Z) : Z := m * 60 * 1000000.

Definition start_delete_character (user : Z) (n : list Z) (server deletion_duration now : Z) (db : Database)
    : bool * Database :=
  let '(affected, db) :=
    update_where (named user (i16 server) n)
      (with_deletion_end (Some (now + minutes (i32 deletion_duration)))) db in
  ((affected =? 1)%nat, db).

Definition restore_character (user : Z) (n : list Z) (server now : Z) (db : Database) : bool * Database :=
  let '(affected, db) :=
    update_where (fun c => named user (i16 server) n c
                           && match c.(deletion_end) with Some t => now <? t | None => false end)
      (with_deletion_end None) db in
  ((affected =? 1)%nat, db).

(** The row [INSERT] makes: the columns it does not name take the defaults of
    the table, which are 0, false and null, and [chinese] for the race. *)
Definition inserted_row (id : Z) (c : CharacterData) : CharacterData :=
  {| data_id := id; user_id := c.(user_id); server_id := c.(server_id); charname := c.(charname);
     db_race := DbChinese; character_type := c.(character_type); db_scale := c.(db_scale);
     db_level := c.(db_level); db_max_level := c.(db_max_level); db_exp := 0; db_sp := 0;
     db_sp_exp := 0; strength := c.(strength); intelligence := c.(intelligence);
     db_stat_points := c.(db_stat_points); db_current_hp := c.(db_current_hp);
     db_current_mp := c.(db_current_mp); deletion_end := None; pos_x := c.(pos_x); pos_y := c.(pos_y);
     pos_z := c.(pos_z); db_rotation := 0; db_region := c.(db_region);
     db_berserk_points := 0; db_gold := 0;
     db_beginner_mark := c.(db_beginner_mark); db_gm := false; last_logout := None |}.

(** The row of an item: [variance] null and [amount] 1 by default. *)
Definition inserted_item (r : ItemRow) : ItemRow :=
  (r.1, {| item_obj_id := r.2.(item_obj_id); db_upgrade_level := r.2.(db_upgrade_level);
           db_variance := None; db_amount := 1 |}).

Definition create_character (c : DbCharacter) (db : Database) : Database :=
  let id := db.(next_id) in
  {| characters := db.(characters) ++ [inserted_row id c.(character_data)];
     character_items := db.(character_items) ++ map (fun r => (id, inserted_item r)) c.(db_items);
     character_masteries := db.(character_masteries);
     character_skills := db.(character_skills);
     next_id := id + 1 |}.

(** ** login/charselect.rs: the character a client asks for *)

(** An item in a slot, as it is written there. *)
Definition starting_item (slot obj_id : Z) : ItemRow :=
  (slot, {| item_obj_id := i32 obj_id; db_upgrade_level := 0; db_variance := None; db_amount := 1 |}).

Definition create_character_from (user server : Z) (n : list Z) (ref_id scale chest pants boots weapon : Z)
    : DbCharacter :=
  {| character_data :=
       {| data_id := 0; user_id := user; server_id := server; charname := n;
          db_race := if 2000 <? ref_id then DbEuropean else DbChinese;
          character_type := i32 ref_id; db_scale := scale; db_level := 1; db_max_level := 1; db_exp := 0;
          db_sp := 0; db_sp_exp := 0; strength := 20; intelligence := 20; db_stat_points := 0;
          db_current_hp := 200; db_current_mp := 200; deletion_end := None;
          pos_x := f32_of_Z 739; pos_y := f32_of_decimal false 374519 (-4); pos_z := f32_of_Z 1757;
          db_rotation := 0; db_region := 24998; db_berserk_points := 0; db_gold := 5000000;
          db_beginner_mark := true; db_gm := false; last_logout := None |};
     db_items := [starting_item 1 chest; starting_item 4 pants; starting_item 5 boots; starting_item 6 weapon];
     db_masteries := []; db_skills := [] |}.

(** ** comp/player.rs *)

(** [Player::from_db_character] with the casts of each column. *)
Definition from_db_character (data : CharacterData) : Character :=
  {| char_id := u32 data.(data_id); name := data.(charname); race := Progress.Chinese;
     scale := u8 data.(db_scale); level := u8 data.(db_level); max_level := u8 data.(db_max_level);
     exp := u64 data.(db_exp); sp := u32 data.(db_sp); sp_exp := u32 data.(db_sp_exp);
     stats := {| str := u16 data.(strength); int := u16 data.(intelligence) |};
     stat_points := u16 data.(db_stat_points); current_hp := u32 data.(db_current_hp);
     current_mp := u32 data.(db_current_mp); berserk_points := u8 data.(db_berserk_points);
     gold := u64 data.(db_gold); beginner_mark := data.(db_beginner_mark); gm := data.(db_gm);
     state := Loading; masteries := []; skills := [] |}.

Section Stats.

(** [f32::powi], whose precision the standard library leaves open. *)
Context (powi : f32 -> Z -> f32).

(** [SCALING.powi((level - 1) as i32) * (self.str * 10) as f32], in [u8] and [u16]. *)
Definition scaled (level value : Z) : Z :=
  f32_as (U 32) (fmul (powi (f32_of_decimal false 102 (-2)) (u8 (level - 1))) (f32_of_Z (u16 (value * 10)))).
Definition max_health_of (s : Stats) (level : Z) : Z := scaled level s.(str).
Definition max_mana_of (s : Stats) (level : Z) : Z := scaled level s.(int).

(** game/exp.rs: the systems for one entity. [upgrade] and [increase_max] are
    those of the components. *)
Definition reset_health_mana_on_level (p : StatPoints) (l : Leveled) (h : Health) (m : Mana) : Health * Mana :=
  if did_level l then
    (upgrade (max_health_of p.(Progress.stats) l.(Progress.level)) h,
     mana_upgrade (max_mana_of p.(Progress.stats) l.(Progress.level)) m)
  else (h, m).

Definition update_max_hp_mp_on_stat_change (p : StatPoints) (l : Leveled) (h : Health) (m : Mana) : Health * Mana :=
  if p.(has_spent_points) then
    (increase_max (max_health_of p.(Progress.stats) l.(Progress.level)) h,
     mana_increase_max (max_mana_of p.(Progress.stats) l.(Progress.level)) m)
  else (h, m).
End Stats.
