(* ===== verification/Movement.v ===== *)
(** agent/src/agent/states/movement.rs, game/movement.rs, [movement_input] of
    agent/system.rs and the lookup of heights of ext.rs: where an entity goes.

    A system is the function it computes for one entity. The queue of requested
    transitions is that of [AgentStates]. *)
From stdpp Require Import base list option strings gmap.
From Stdlib Require Import ZArith Lia.
From S2P Require Import Prelude Utf Text F32 Definitions TypeIdEnums TypeId GameData Serde.
From S2P Require Import Position Entities AgentStates.

Inductive MovementGoal :=
| GoalLocation (location : GlobalPosition)
| GoalDirection (direction : Heading)
| GoalEntity (target : Entity) (location : GlobalPosition) (distance : f32).

(** The value is below this square when the target is reached. *)
Definition EPSYLON : f32 := f32_of_Z 1.

(** What a query finds for an entity: its component, no such entity, or an
    entity without the component. *)
Inductive found (A : Type) := Found (a : A) | NoSuchEntity | DoesNotMatch.
Arguments Found {A} _.
Arguments NoSuchEntity {A}.
Arguments DoesNotMatch {A}.

Section Movement.
Context `{Cgmath}.

(** ** ext.rs: heights *)

(** The loaded meshes. *)
Context (mesh_for : Region -> option Heightmap).

Definition height_for_location {E} (local : LocalLocation) : outcome E (option f32) :=
  match mesh_for local.(ll_region) with
  | Some map => height_at_position map local.(ll_vec).(x2) local.(ll_vec).(y2)
  | None => Ok None
  end.

Definition height_for {E} (l : GlobalLocation) : outcome E (option f32) :=
  height_for_location (to_local_location l).

(** ** states/movement.rs *)

(** The target moved to, with the height there. *)
Definition move_with_step (pos : Position) (target : GlobalLocation) (heading : Heading) : outcome unit Position :=
  height ← height_for target;
  Ok (update_position (with_y target (default pos.(location).(y3) height)) heading pos).

Definition get_next_step (time_delta : f32) (current_location : GlobalLocation) (speed : f32)
    (target : GlobalLocation) : GlobalLocation * Heading * bool :=
  let direction := v_sub target current_location in
  let distance_travelled := v_scale (fmul speed time_delta) (normalize direction) in
  let angle := heading_of_vector direction in
  if negb (is_finite direction) || is_zero direction || fltb (magnitude2 direction) EPSYLON
     || fltb (magnitude2 direction) (magnitude2 distance_travelled)
  then (target, angle, true)
  else (v_add current_location distance_travelled, angle, false).

(** The next location of a goal, and whether it is reached. *)
Definition next_step (delta : f32) (pos : Position) (speed : f32) (goal : MovementGoal)
    : GlobalLocation * Heading * bool :=
  let here := to_location pos.(location) in
  match goal with
  | GoalLocation location | GoalEntity _ location _ => get_next_step delta here speed (to_location location)
  | GoalDirection direction =>
      let direction_vec := normalize (to_flat_vec2 (rotated_unit_x direction)) in
      (v_add here (v_scale (fmul speed delta) direction_vec), direction, false)
  end.

(** The new position, and whether the entity stops moving and becomes idle. *)
Definition movement (delta : f32) (agent : Agent) (speed_state : MovementSpeed) (goal : MovementGoal)
    (pos : Position) : outcome unit (Position * bool) :=
  let '(next_location, heading, finished) := next_step delta pos (get_speed_value agent speed_state) goal in
  pos ← move_with_step pos next_location heading;
  Ok (pos, finished).

(** The goal of an entity that follows another one, or [None] when it stops
    following and becomes idle. *)
Definition update_target_location (max_follow_distance : f32) (own_position : Position)
    (target_query : Entity -> found Position) (goal : MovementGoal) : outcome unit (option MovementGoal) :=
  match goal with
  | GoalEntity target old distance =>
      match target_query target with
      | Found pos =>
          if fltb (squared max_follow_distance) (distance_to own_position pos) then Ok None
          else
            let there := to_flat_vec2 pos.(location) in
            let dir_vector := v_sub there (to_flat_vec2 own_position.(location)) in
            let target_vector := v_scale distance (normalize dir_vector) in
            let target_location := v_sub there target_vector in
            height ← height_for target_location;
            Ok (Some (GoalEntity target (with_y target_location (default old.(y3) height)) distance))
      | NoSuchEntity => Ok None
      | DoesNotMatch => Ok (Some goal)
      end
  | _ => Ok (Some goal)
  end.

(** Of an idle entity, with the rotation of its input. *)
Definition turning (input : option Z) (pos : Position) : Position :=
  match input with Some heading => rotate (heading_of_u16 heading) pos | None => pos end.

(** ** agent/system.rs *)

(** [MovementTarget] *)
Inductive MovementTarget :=
| TargetLocation (region x y z : Z)
| TargetDirection (unknown angle : Z).

(** The transition a movement request asks for. *)
Definition movement_input {A P T} (input : option MovementTarget)
    (q : StateTransitionQueue MovementGoal A P T) : StateTransitionQueue MovementGoal A P T :=
  match input with
  | Some (TargetLocation region x y z) =>
      let target_pos := {| lp_region := region;
                           lp_vec := {| x3 := f32_of_Z x; y3 := f32_of_Z y; z3 := f32_of_Z z |} |} in
      request_transition (Moving (GoalLocation (to_global target_pos))) q
  | Some (TargetDirection _ angle) => request_transition (Moving (GoalDirection (heading_of_u16 angle))) q
  | None => q
  end.

(** ** game/movement.rs: the strolling of monsters *)

Record RandomStroll := { origin : GlobalLocation; radius : f32 }.

(** [random_in_radius] of two random numbers; square root, sine and cosine are
    those of the platform. *)
Context (sqrt sin cos : f32 -> f32) (pi : f32).

Definition random_in_radius (v : Vector2) (radius r1 r2 : f32) : Vector2 :=
  let r := fmul radius (sqrt r1) in
  let theta := fmul (fmul r2 (f32_of_Z 2)) pi in
  {| x2 := fadd v.(x2) (fmul r (cos theta)); y2 := fadd v.(y2) (fmul r (sin theta)) |}.

(** An idle monster; [finished] tells whether the timer of its stroll finished,
    [draw] is the random number that lets it walk. The result tells whether the
    timer was reset; otherwise it ticks. *)
Definition movement_monster {A P T} (finished has_goal : bool) (draw r1 r2 : f32) (stroll : RandomStroll)
    (pos : Position) (q : StateTransitionQueue MovementGoal A P T)
    : outcome unit (bool * StateTransitionQueue MovementGoal A P T) :=
  if has_goal then Ok (false, q)
  else if finished && fleb draw (f32_of_decimal false 1 (-1)) then
    let new_location := random_in_radius stroll.(origin) stroll.(radius) r1 r2 in
    new_y ← height_for new_location;
    Ok (true, request_transition
                (Moving (GoalLocation (with_y new_location (default pos.(location).(y3) new_y)))) q)
  else Ok (false, q).

End Movement.
