(* ===== verification/Visibility.v ===== *)
(** agent/src/comp/visibility.rs and game/visibility.rs: which entities are in
    the radius of an entity, and the spawn and despawn messages that tell a
    player about them. *)
From stdpp Require Import base list option strings gmap.
From Stdlib Require Import ZArith Lia.
From S2P Require Import Prelude Utf Text F32 Definitions TypeIdEnums TypeId GameData Serde Schema ProtoGeneral.
From S2P Require Import ProtoMovement ProtoChat ProtoInventory ProtoWorld ProtoSpawn Packets.
From S2P Require Import Inventory Characters Position Entities.

Record Visibility := {
  visibility_radius : f32;
  entities_in_radius : gset EntityReference;
  added_entities : list EntityReference;
  removed_entities : list EntityReference;
}.

Definition with_radius (radius : f32) : Visibility :=
  {| visibility_radius := radius; entities_in_radius := ∅; added_entities := []; removed_entities := [] |}.

Record Invisible := { by_command : bool }.
Definition from_command : Invisible := {| by_command := true |}.
Definition gm_invisible (i : Invisible) : bool := i.(by_command).

Section Visibility.
Context `{Cgmath}.

(** The iteration orders of a [HashSet] of references and of a [HashMap] of items. *)
Context (set_order : gset EntityReference -> list EntityReference).
Context (item_order : gmap Z Item -> list (Z * Item)).

(** ** The entities in the radius *)

Definition grouped (lookup : list (EntityReference * Position)) : gmap Region (list (EntityReference * Position)) :=
  fold_left (fun acc e =>
    let r := position_region e.2.(location) in
    <[r := default [] (acc !! r) ++ [e]]> acc) lookup ∅.

(** The entities of the close regions, but oneself, that are nearer than the radius. *)
Definition entities_in_range (lookup : list (EntityReference * Position)) (self : Entity) (position : Position)
    (radius : f32) : gset EntityReference :=
  let groups := grouped lookup in
  list_to_set (map fst
    (List.filter (fun e => fltb (distance_to position e.2) (squared radius))
      (List.filter (fun e => negb (e.1.(entity) =? self))
        (flat_map (fun r => default [] (groups !! r))
          (with_grid_neighbours (position_region position.(location))))))).

(** The sets after [remove] and [insert] of the differences. *)
Definition visibility_update (activity : PlayerActivity) (lookup : list (EntityReference * Position))
    (self : Entity) (position : Position) (v : Visibility) : Visibility :=
  let close_regions := with_grid_neighbours (position_region position.(location)) in
  if existsb (is_region_active activity) close_regions then
    let in_range := entities_in_range lookup self position v.(visibility_radius) in
    let removed := set_order (v.(entities_in_radius) ∖ in_range) in
    let added := set_order (in_range ∖ v.(entities_in_radius)) in
    let kept := fold_left (fun s r => s ∖ {[ r ]}) removed v.(entities_in_radius) in
    {| visibility_radius := v.(visibility_radius);
       entities_in_radius := fold_left (fun s r => {[ r ]} ∪ s) added kept;
       added_entities := v.(added_entities) ++ added;
       removed_entities := v.(removed_entities) ++ removed |}
  else v.

(** ** Spawning *)

(** The components that the lookup of a visible entity reads. *)
Record Drop := { owner : option EntityReference; drop_item : Item }.

Record Visible := {
  v_position : Position;
  v_inventory : option Inventory;
  v_agent : option Agent;
  v_player : option Character;
  v_monster : option EntityRarity;
  v_drop : option Drop;
  v_npc : bool;
}.

Definition f32_val (f : f32) : val := VNum (f32_bits f).
Definition none : val := VEnum "None" [].

Definition entity_state_from_agent (a : Agent) : val :=
  VStruct [VEnum "Alive" []; VNum 0; none; none; VNum 0;
           f32_val a.(walking_speed); f32_val a.(running_speed); f32_val a.(berserk_speed); VSeq []].

(** The owner of a drop, unless it is the player. *)
Definition owner_for (o : option EntityReference) (for_player : GameEntity) : val :=
  VOpt (match o with
        | Some r =>
            let id := r.(game_entity).(unique_id) in
            if id =? for_player.(unique_id) then None else Some (VNum id)
        | None => None
        end).

Definition spawndata_from_item (e : GameEntity) (pos : Position) (d : Drop) (for_player : GameEntity) : val :=
  let id := VNum e.(unique_id) in
  let owner := owner_for d.(owner) for_player in
  match d.(drop_item).(type_data) with
  | Equipment upgrade_level =>
      VEnum "Equipment" [VNum upgrade_level; id; as_protocol pos; owner; VNum 0; none; VNum 0]
  | COS | Consumable _ => VEnum "Consumable" [id; as_protocol pos; owner; VNum 0; none; VNum 0]
  | Gold amount => VEnum "Gold" [VNum amount; id; as_protocol pos; owner; VNum 0]
  end.

(** The equipped items of a player. *)
Definition equipment_of (i : option Inventory) : list val :=
  match i with
  | Some inv =>
      map (fun '(_, item) => VStruct [VNum (GameData.ref_id item.(reference)); VNum (upgrade_level_of item)])
        (List.filter (fun '(slot, _) => is_equipment_slot slot) (item_order inv.(items)))
  | None => []
  end.

Definition character_data (e : GameEntity) (pos : Position) (i : option Inventory) (a : Agent) (c : Character) : val :=
  VEnum "Character"
    [ VNum c.(scale); VNum 0; none; VBool c.(beginner_mark); VNum 0;
      VNum (match i with Some inv => u8 inv.(Inventory.size) | None => 0 end);
      VSeq (equipment_of i); VNum 5; VSeq []; VOpt None; VNum e.(unique_id);
      as_protocol pos; as_standing pos; entity_state_from_agent a; VStr c.(name); none; VBool false; VBool false;
      none; VNum 0; GuildInformation_new (VStr []) (VNum 0) (VStr []) (VNum 0) (VNum 0) (VNum 0) (VNum 0);
      VBytes (repeat 0 9); VBool false; none; VNum 0 ].

Definition object (e : GameEntity) (data : val) : val := GroupSpawnDataContent_spawn (VNum e.(ref_id)) data.

(** What is shown of an entity: [None] where it has nothing to show, a panic
    where an agent is missing. *)
Definition spawn_of (player : GameEntity) (r : EntityReference) (v : Visible) : outcome unit (option val) :=
  let e := r.(game_entity) in
  let agent : outcome unit Agent := match v.(v_agent) with Some a => Ok a | None => Panic end in
  match v.(v_player) with
  | Some c => a ← agent; Ok (Some (object e (character_data e v.(v_position) v.(v_inventory) a c)))
  | None =>
  match v.(v_monster) with
  | Some rarity =>
      a ← agent;
      Ok (Some (object e
        (VEnum "Monster" [VNum e.(unique_id); as_protocol v.(v_position); as_movement v.(v_position);
                          entity_state_from_agent a; InteractOptions_talk (VSeq [VNum 5]); VRarity rarity; VNum 0])))
  | None =>
  match v.(v_drop) with
  | Some d => Ok (Some (object e (VEnum "Item" [spawndata_from_item e v.(v_position) d player])))
  | None =>
      if v.(v_npc) then
        a ← agent;
        Ok (Some (object e
          (VEnum "NPC" [VNum e.(unique_id); as_protocol v.(v_position); as_standing v.(v_position);
                        entity_state_from_agent a; none])))
      else Ok None
  end end end.

Fixpoint spawns_of (lookup : Entity -> option Visible) (player : GameEntity) (added : list EntityReference)
    : outcome unit (list val) :=
  match added with
  | [] => Ok []
  | r :: added =>
      here ← match lookup r.(entity) with
             | Some v => spawn_of player r v
             | None => Ok None
             end;
      rest ← spawns_of lookup player added;
      Ok (match here with Some s => s :: rest | None => rest end)
  end.

Definition send_group_spawn_packet (mode : val) (spawns : list val) : sent :=
  match spawns with
  | [] => []
  | _ => [ ("GroupEntitySpawnStart"%string, GroupEntitySpawnStart_new mode (VNum (u16 (Z.of_nat (length spawns)))));
           ("GroupEntitySpawnData"%string, GroupEntitySpawnData_new (VSeq spawns));
           ("GroupEntitySpawnEnd"%string, VStruct []) ]
  end.

(** The system for one player; [lookup] finds no invisible entity. *)
Definition player_visibility_update (lookup : Entity -> option Visible) (player : GameEntity) (v : Visibility)
    : outcome unit (sent * Visibility) :=
  spawns ← spawns_of lookup player v.(added_entities);
  let despawns := map (fun r => GroupSpawnDataContent_despawn (VNum r.(game_entity).(unique_id))) v.(removed_entities) in
  Ok (send_group_spawn_packet (VEnum "Spawn" []) spawns ++ send_group_spawn_packet (VEnum "Despawn" []) despawns,
      {| visibility_radius := v.(visibility_radius); entities_in_radius := v.(entities_in_radius);
         added_entities := []; removed_entities := [] |}).

(** [clear_visibility], for an entity that is no player. *)
Definition clear_visibility (v : Visibility) : Visibility :=
  {| visibility_radius := v.(visibility_radius); entities_in_radius := v.(entities_in_radius);
     added_entities := []; removed_entities := [] |}.

(** A tick of a player: the update, then the messages. *)
Definition visibility_tick (activity : PlayerActivity) (positions : list (EntityReference * Position))
    (lookup : Entity -> option Visible) (self : EntityReference) (position : Position) (v : Visibility)
    : outcome unit (sent * Visibility) :=
  player_visibility_update lookup self.(game_entity)
    (visibility_update activity positions self.(entity) position v).

End Visibility.
