(* ===== verification/VisibilitySpec.v ===== *)
(** Visibility: what is in the radius of an entity, the changes a tick records,
    and that the messages keep the client of a player in step with them. *)
From stdpp Require Import base list option strings gmap.
From Stdlib Require Import ZArith Lia SpecFloat.
From S2P Require Import Prelude Utf Text F32 Definitions TypeIdEnums TypeId GameData Serde SerdeFacts Schema ProtoGeneral.
From S2P Require Import ProtoMovement ProtoChat ProtoInventory ProtoWorld ProtoSpawn Packets.
From S2P Require Import Inventory Characters Position PositionSpec Entities Visibility.

Lemma fold_remove (rs : list EntityReference) : forall s : gset EntityReference,
  fold_left (fun s r => s ∖ {[ r ]}) rs s = s ∖ list_to_set rs.
Proof. induction rs as [|r rs IH]; intros s; cbn [fold_left list_to_set]; [set_solver|rewrite IH; set_solver]. Qed.

Lemma fold_insert (rs : list EntityReference) : forall s : gset EntityReference,
  fold_left (fun s r => {[ r ]} ∪ s) rs s = list_to_set rs ∪ s.
Proof. induction rs as [|r rs IH]; intros s; cbn [fold_left list_to_set]; [set_solver|rewrite IH; set_solver]. Qed.

(** The groups are the rows of a region, in the order of the query. *)
Lemma grouped_region (rows : list (EntityReference * Position)) r :
  default [] (grouped rows !! r)
  = List.filter (fun e => position_region e.2.(location) =? r) rows.
Proof.
  unfold grouped.
  assert (G : forall acc : gmap Region (list (EntityReference * Position)), default [] (fold_left (fun acc e =>
      let r := position_region e.2.(location) in <[r := default [] (acc !! r) ++ [e]]> acc) rows acc !! r)
    = default [] (acc !! r) ++ List.filter (fun e => position_region e.2.(location) =? r) rows).
  { induction rows as [|e rows IH]; intros acc; cbn [fold_left List.filter]; [rewrite app_nil_r; reflexivity|].
    rewrite IH. cbv zeta. destruct (Z.eqb_spec (position_region e.2.(location)) r) as [->|Hn].
    - rewrite lookup_insert_eq. unfold default at 1, from_option, id at 1. rewrite <- app_assoc. reflexivity.
    - rewrite lookup_insert_ne by exact Hn. reflexivity. }
  rewrite G, lookup_empty. reflexivity.
Qed.

Section Update.
Context `{Cgmath}.
Context (set_order : gset EntityReference -> list EntityReference).
Hypothesis set_order_elements : forall s, set_order s ≡ₚ elements s.

Lemma elem_of_set_order s x : x ∈ set_order s <-> x ∈ s.
Proof.
  rewrite <- (elem_of_elements s x), !list_elem_of_In.
  split; apply Permutation_in; [|symmetry]; apply set_order_elements.
Qed.

Lemma NoDup_set_order s : NoDup (set_order s).
Proof. eapply NoDup_Permutation_proper; [apply set_order_elements|apply NoDup_elements]. Qed.

Lemma set_order_set s : list_to_set (set_order s) = s.
Proof. apply set_eq. intros x. rewrite elem_of_list_to_set. apply elem_of_set_order. Qed.

(** [other] is seen by an entity at [position]: it is another entity, in a
    close region, nearer than the radius. *)
Definition sees (self : Entity) (position : Position) (radius : f32) (e : EntityReference * Position) : Prop :=
  e.1.(entity) <> self
  /\ position_region e.2.(location) ∈ with_grid_neighbours (position_region position.(location))
  /\ fltb (distance_to position e.2) (squared radius) = true.

Lemma elem_of_entities_in_range rows self position radius x :
  x ∈ entities_in_range rows self position radius
  <-> exists pos, (x, pos) ∈ rows /\ sees self position radius (x, pos).
Proof.
  unfold entities_in_range, sees. rewrite elem_of_list_to_set, list_elem_of_In, in_map_iff. cbn [fst snd]. split.
  - intros ([x' pos] & <- & E). apply filter_In in E as [E Hd]. apply filter_In in E as [E Hs].
    apply in_flat_map in E as (r & Hr & E). rewrite grouped_region in E. apply filter_In in E as [E Hx].
    apply Z.eqb_eq in Hx. cbn in *. exists pos. rewrite list_elem_of_In, list_elem_of_In. repeat split; [exact E|lia| |exact Hd].
    rewrite Hx. exact Hr.
  - intros (pos & E & Hs & Hr & Hd). exists (x, pos). split; [reflexivity|].
    apply filter_In. split; [|exact Hd]. apply filter_In. split; [|cbn; lia].
    apply in_flat_map. exists (position_region pos.(location)). split; [apply list_elem_of_In, Hr|].
    rewrite grouped_region. apply filter_In. split; [apply list_elem_of_In, E|]. cbn. lia.
Qed.

Definition active (activity : PlayerActivity) (position : Position) : bool :=
  existsb (is_region_active activity) (with_grid_neighbours (position_region position.(location))).

(** Near an active region the entities in the radius become exactly the
    ones that are seen, and the differences to the ones before are recorded,
    each once; elsewhere nothing changes. *)
Theorem visibility_update_decides activity rows self position v :
  let v' := visibility_update set_order activity rows self position v in
  if active activity position then
    (forall x, x ∈ v'.(entities_in_radius)
               <-> exists pos, (x, pos) ∈ rows /\ sees self position v.(visibility_radius) (x, pos))
    /\ exists added removed,
         v'.(added_entities) = v.(added_entities) ++ added
         /\ v'.(removed_entities) = v.(removed_entities) ++ removed
         /\ NoDup added /\ NoDup removed
         /\ (forall x, x ∈ added <-> x ∈ v'.(entities_in_radius) /\ x ∉ v.(entities_in_radius))
         /\ (forall x, x ∈ removed <-> x ∈ v.(entities_in_radius) /\ x ∉ v'.(entities_in_radius))
  else v' = v.
Proof.
  unfold visibility_update. fold (active activity position). destruct (active activity position); [|reflexivity].
  pose proof (elem_of_entities_in_range rows self position v.(visibility_radius)) as Hin. revert Hin.
  generalize (entities_in_range rows self position v.(visibility_radius)) as in_range. intros in_range Hin.
  cbv zeta. cbn [entities_in_radius added_entities removed_entities].
  rewrite fold_insert, fold_remove, !set_order_set.
  assert (E : in_range ∖ entities_in_radius v ∪ entities_in_radius v ∖ (entities_in_radius v ∖ in_range) = in_range).
  { apply set_eq. intros x. rewrite elem_of_union, !elem_of_difference.
    destruct (decide (x ∈ in_range)), (decide (x ∈ entities_in_radius v)); tauto. }
  rewrite E. split; [exact Hin|].
  exists (set_order (in_range ∖ entities_in_radius v)), (set_order (entities_in_radius v ∖ in_range)).
  split; [reflexivity|]. split; [reflexivity|].
  split; [apply NoDup_set_order|]. split; [apply NoDup_set_order|].
  split; intros x; rewrite elem_of_set_order; apply elem_of_difference.
Qed.

End Update.

(** ** The client *)

(** What a client shows: the identifiers of the spawn messages, without those
    of later despawn messages. *)
Definition spawned_id (data : val) : option Z :=
  match data with
  | VEnum "Character" fields =>
      match fields !! 10%nat with Some (VNum id) => Some id | _ => None end
  | VEnum "Monster" (VNum id :: _) | VEnum "NPC" (VNum id :: _) => Some id
  | VEnum "Item" [VEnum "Consumable" (VNum id :: _)] => Some id
  | VEnum "Item" [VEnum "Equipment" (_ :: VNum id :: _)] => Some id
  | VEnum "Item" [VEnum "Gold" (_ :: VNum id :: _)] => Some id
  | _ => None
  end.

Definition client_content (shown : gset Z) (content : val) : gset Z :=
  match content with
  | VEnum "Despawn" [VNum id] => shown ∖ {[ id ]}
  | VEnum "Spawn" [_; data] => match spawned_id data with Some id => {[ id ]} ∪ shown | None => shown end
  | _ => shown
  end.

Definition client_packet (shown : gset Z) (p : packet) : gset Z :=
  match p with
  | ("GroupEntitySpawnData"%string, VStruct [VSeq contents]) => fold_left client_content contents shown
  | _ => shown
  end.

Definition client (shown : gset Z) (ps : sent) : gset Z := fold_left client_packet ps shown.

Lemma client_app shown ps qs : client shown (ps ++ qs) = client (client shown ps) qs.
Proof. apply fold_left_app. Qed.

Definition id_of (r : EntityReference) : Z := r.(game_entity).(unique_id).
Definition ids (s : gset EntityReference) : gset Z := set_map id_of s.

(** There is something to show of an entity. *)
Definition displayable (v : Visible) : bool :=
  let agent := bool_decide (is_Some v.(v_agent)) in
  match v.(v_player), v.(v_monster), v.(v_drop) with
  | Some _, _, _ | None, Some _, _ => agent
  | None, None, Some _ => true
  | None, None, None => v.(v_npc) && agent
  end.

Section Client.
Context `{Cgmath}.
Context (set_order : gset EntityReference -> list EntityReference) (item_order : gmap Z Item -> list (Z * Item)).
Hypothesis set_order_elements : forall s, set_order s ≡ₚ elements s.

Lemma spawn_of_displayable player r v :
  displayable v = true ->
  exists data, spawn_of item_order player r v = Ok (Some (VEnum "Spawn" [VNum r.(game_entity).(ref_id); data]))
    /\ spawned_id data = Some (id_of r).
Proof.
  unfold displayable, spawn_of. destruct v as [pos inv agent p m d npc]. cbn.
  destruct p as [c|]; [|destruct m as [rarity|]; [|destruct d as [d|]; [|destruct npc]]];
    try (destruct agent as [a|]; [|discriminate]); intros Hd; try discriminate;
    try (eexists; split; reflexivity).
  unfold spawndata_from_item. destruct d.(drop_item).(type_data); eexists; split; reflexivity.
Qed.

Definition all_displayable (lookup : Entity -> option Visible) (added : list EntityReference) : Prop :=
  Forall (fun r => exists v, lookup r.(entity) = Some v /\ displayable v = true) added.

Lemma spawns_of_displayable lookup player added :
  all_displayable lookup added ->
  exists spawns, spawns_of item_order lookup player added = Ok spawns
    /\ forall shown, fold_left client_content spawns shown = list_to_set (map id_of added) ∪ shown.
Proof.
  induction 1 as [|r added (v & Hl & Hd) _ IH]; [exists []; split; [reflexivity|intros; set_solver]|].
  destruct IH as (spawns & E & Hs). destruct (spawn_of_displayable player r v Hd) as (data & Ed & Hi).
  cbn [spawns_of]. rewrite Hl, Ed, ok_bind. cbv beta. rewrite E, ok_bind.
  eexists; split; [reflexivity|]. intros shown. cbn [fold_left client_content map list_to_set].
  rewrite Hi, Hs. set_solver.
Qed.

Lemma client_group shown mode spawns :
  client shown (send_group_spawn_packet mode spawns) = fold_left client_content spawns shown.
Proof. destruct spawns as [|s spawns]; [reflexivity|]. reflexivity. Qed.

Lemma client_despawns (removed : list EntityReference) : forall shown,
  fold_left client_content (map (fun r => GroupSpawnDataContent_despawn (VNum r.(game_entity).(unique_id))) removed) shown
  = shown ∖ list_to_set (map id_of removed).
Proof.
  induction removed as [|r removed IH]; intros shown; cbn [map fold_left list_to_set]; [set_solver|].
  rewrite IH. cbn [client_content GroupSpawnDataContent_despawn]. unfold id_of. set_solver.
Qed.

(** The rows of a tick, and what the messages may read. *)
Record Tick := {
  t_activity : PlayerActivity;
  t_rows : list (EntityReference * Position);
  t_lookup : Entity -> option Visible;
  t_position : Position;
}.

Definition after (self : EntityReference) (t : Tick) (v : Visibility) : Visibility :=
  visibility_update set_order t.(t_activity) t.(t_rows) self.(entity) t.(t_position) v.

Definition tick (self : EntityReference) (t : Tick) (v : Visibility) : outcome unit (sent * Visibility) :=
  visibility_tick set_order item_order t.(t_activity) t.(t_rows) t.(t_lookup) self t.(t_position) v.

(** A tick in which all that comes into the radius can be shown, and in which
    an identifier stands for one entity. *)
Definition tick_ok (self : EntityReference) (t : Tick) (v : Visibility) : Prop :=
  all_displayable t.(t_lookup) (after self t v).(added_entities)
  /\ forall a b, a ∈ v.(entities_in_radius) ∪ (after self t v).(entities_in_radius) ->
       b ∈ v.(entities_in_radius) ∪ (after self t v).(entities_in_radius) -> id_of a = id_of b -> a = b.

Definition settled (v : Visibility) : Prop := v.(added_entities) = [] /\ v.(removed_entities) = [].

Lemma after_sets self t v :
  settled v ->
  let v' := after self t v in
  (forall x, x ∈ v'.(added_entities) <-> x ∈ v'.(entities_in_radius) /\ x ∉ v.(entities_in_radius))
  /\ (forall x, x ∈ v'.(removed_entities) <-> x ∈ v.(entities_in_radius) /\ x ∉ v'.(entities_in_radius)).
Proof.
  intros [Ha Hr]. unfold after, visibility_update. destruct (existsb _ _); cbv zeta.
  - generalize (entities_in_range t.(t_rows) self.(entity) t.(t_position) v.(visibility_radius)) as s. intros s.
    cbn [entities_in_radius added_entities removed_entities]. rewrite Ha, Hr. cbn [app].
    rewrite fold_insert, fold_remove, !set_order_set by exact set_order_elements.
    split; intros x; rewrite elem_of_set_order, elem_of_union, !elem_of_difference by exact set_order_elements;
      destruct (decide (x ∈ s)), (decide (x ∈ entities_in_radius v)); tauto.
  - rewrite Ha, Hr. split; intros x; rewrite elem_of_nil; tauto.
Qed.

Lemma elem_of_ids s i : i ∈ ids s <-> exists r, r ∈ s /\ id_of r = i.
Proof. unfold ids. rewrite elem_of_map. split; intros (r & H1 & H2); exists r; auto. Qed.

(** One tick. *)
Lemma tick_follows self t v :
  settled v -> tick_ok self t v ->
  exists ps, tick self t v = Ok (ps, clear_visibility (after self t v))
    /\ client (ids v.(entities_in_radius)) ps = ids (after self t v).(entities_in_radius).
Proof.
  intros Hs [Hd Hi]. pose proof (after_sets self t v Hs) as [HA HR].
  unfold tick, visibility_tick, player_visibility_update. fold (after self t v).
  destruct (spawns_of_displayable t.(t_lookup) self.(game_entity) _ Hd) as (spawns & E & Hc).
  rewrite E, ok_bind. eexists; split; [reflexivity|].
  rewrite client_app, !client_group, Hc, client_despawns.
  revert HA HR Hi. generalize (after self t v) as v'. intros v' HA HR Hi.
  apply set_eq. intros i. rewrite elem_of_difference, elem_of_union, !elem_of_list_to_set, !elem_of_ids.
  rewrite !list_elem_of_In, !in_map_iff. setoid_rewrite <- list_elem_of_In.
  split.
  - intros [[(r & <- & Hr)|(r & Hr & <-)] Hn]; [exists r; split; [apply HA, Hr|reflexivity]|].
    exists r. split; [|reflexivity]. destruct (decide (r ∈ v'.(entities_in_radius))) as [Hin|Hout]; [exact Hin|].
    contradict Hn. exists r. split; [reflexivity|]. apply HR. auto.
  - intros (r & Hr & <-). split.
    + destruct (decide (r ∈ v.(entities_in_radius))) as [Hin|Hout]; [right; eauto|].
      left. exists r. split; [reflexivity|]. apply HA. auto.
    + intros (r' & Er & Hr'). apply HR in Hr' as [Hin Hout].
      rewrite (Hi r r') in Hr; [contradiction| | |congruence]; apply elem_of_union; auto.
Qed.

Fixpoint run (self : EntityReference) (ts : list Tick) (v : Visibility) : outcome unit (sent * Visibility) :=
  match ts with
  | [] => Ok ([], v)
  | t :: ts => '(ps, v) ← tick self t v; '(qs, v) ← run self ts v; Ok (ps ++ qs, v)
  end.

(** *** What a client should show *)

(** Those whose rows of the tick the player sees. *)
Definition seen (self : EntityReference) (radius : f32) (t : Tick) (x : EntityReference) : Prop :=
  exists pos, (x, pos) ∈ t.(t_rows) /\ sees self.(entity) t.(t_position) radius (x, pos).

(** The surroundings are those of the last tick in which a region near the player
    was active. *)
Fixpoint surroundings (self : EntityReference) (radius : f32) (before : EntityReference -> Prop) (ts : list Tick)
    : EntityReference -> Prop :=
  match ts with
  | [] => before
  | t :: ts => surroundings self radius (if active t.(t_activity) t.(t_position) then seen self radius t else before) ts
  end.

(** In every such tick what is newly seen can be shown, and an identifier stands
    for one entity among those that are seen and those that were before. *)
Fixpoint run_ok (self : EntityReference) (radius : f32) (before : EntityReference -> Prop) (ts : list Tick) : Prop :=
  match ts with
  | [] => True
  | t :: ts =>
      if active t.(t_activity) t.(t_position) then
        (forall x, seen self radius t x -> ~ before x -> exists v, t.(t_lookup) x.(entity) = Some v /\ displayable v = true)
        /\ (forall x y, before x \/ seen self radius t x -> before y \/ seen self radius t y -> id_of x = id_of y -> x = y)
        /\ run_ok self radius (seen self radius t) ts
      else run_ok self radius before ts
  end.

Lemma after_entities self t v x :
  x ∈ (after self t v).(entities_in_radius)
  <-> if active t.(t_activity) t.(t_position) then seen self v.(visibility_radius) t x else x ∈ v.(entities_in_radius).
Proof.
  pose proof (visibility_update_decides set_order set_order_elements t.(t_activity) t.(t_rows) self.(entity) t.(t_position) v) as Hupd.
  cbv zeta in Hupd. unfold after. destruct (active _ _); [apply Hupd|rewrite Hupd; reflexivity].
Qed.

Lemma after_radius self t v : (after self t v).(visibility_radius) = v.(visibility_radius).
Proof. unfold after, visibility_update. destruct (existsb _ _); reflexivity. Qed.

Lemma tick_ok_active self t v before : settled v -> (forall x, x ∈ v.(entities_in_radius) <-> before x) ->
  active t.(t_activity) t.(t_position) = true ->
  (forall x, seen self v.(visibility_radius) t x -> ~ before x -> exists w, t.(t_lookup) x.(entity) = Some w /\ displayable w = true) ->
  (forall x y, before x \/ seen self v.(visibility_radius) t x -> before y \/ seen self v.(visibility_radius) t y -> id_of x = id_of y -> x = y) ->
  tick_ok self t v.
Proof.
  intros Hs Hb Ha Hd Hi. pose proof (after_sets self t v Hs) as [HA _]. pose proof (after_entities self t v) as He. rewrite Ha in He. split.
  - apply Forall_forall. intros x Hx. apply HA in Hx as [H1 H2]. rewrite He in H1. rewrite Hb in H2. exact (Hd x H1 H2).
  - intros x y Hx Hy. rewrite !elem_of_union, !Hb, !He in *. apply Hi; assumption.
Qed.

Lemma tick_ok_quiet self t v before : settled v -> (forall x, x ∈ v.(entities_in_radius) <-> before x) ->
  active t.(t_activity) t.(t_position) = false ->
  (forall x y, before x -> before y -> id_of x = id_of y -> x = y) -> tick_ok self t v.
Proof.
  intros Hs Hb Ha Hi. pose proof (after_sets self t v Hs) as [HA _]. pose proof (after_entities self t v) as He. rewrite Ha in He. split.
  - apply Forall_forall. intros x Hx. apply HA in Hx as [H1 H2]. rewrite He in H1. contradiction.
  - intros x y Hx Hy. rewrite !elem_of_union, !He, !Hb in *. apply Hi; tauto.
Qed.

(** C7: From its entry on, a client shows its surroundings: over any ticks in which
    what newly comes into view can be shown and no two entities in view share an
    identifier, the messages it is sent leave it with exactly the identifiers of
    the other entities that, in the last tick with an active region nearby, were
    in the region of the player or a neighbouring one and nearer than the radius. *)
Theorem client_shows_surroundings self ts radius (Hok : run_ok self radius (fun _ => False) ts) :
  exists ps v, run self ts (with_radius radius) = Ok (ps, v)
    /\ forall i, i ∈ client ∅ ps <-> exists x, surroundings self radius (fun _ => False) ts x /\ id_of x = i.
Proof.
  assert (G : forall ts v before, settled v -> v.(visibility_radius) = radius -> (forall x, x ∈ v.(entities_in_radius) <-> before x) ->
    (forall x y, before x -> before y -> id_of x = id_of y -> x = y) -> run_ok self radius before ts ->
    exists ps v', run self ts v = Ok (ps, v') /\ client (ids v.(entities_in_radius)) ps = ids v'.(entities_in_radius)
      /\ forall x, x ∈ v'.(entities_in_radius) <-> surroundings self radius before ts x).
  { clear ts Hok. intros ts. induction ts as [|t ts IH]; intros v before Hs Hrad Hb Hi Hok; [exists [], v; auto|].
    assert (Hstep : tick_ok self t v /\ let before' := if active t.(t_activity) t.(t_position) then seen self radius t else before in
      (forall x y, before' x -> before' y -> id_of x = id_of y -> x = y) /\ run_ok self radius before' ts).
    { cbn [run_ok] in Hok. destruct (active _ _) eqn:Ea.
      - destruct Hok as (Hd & Hi' & Hok). split; [|split; [auto|exact Hok]].
        apply (tick_ok_active self t v before Hs Hb Ea); rewrite Hrad; assumption.
      - split; [exact (tick_ok_quiet self t v before Hs Hb Ea Hi)|split; [exact Hi|exact Hok]]. }
    destruct Hstep as (Ht & Hi' & Hok'). destruct (tick_follows self t v Hs Ht) as (ps & E & Hc).
    destruct (IH (clear_visibility (after self t v)) (if active t.(t_activity) t.(t_position) then seen self radius t else before) (conj eq_refl eq_refl))
      as (qs & v' & Er & Hq & Hs'); [exact (eq_trans (after_radius self t v) Hrad)| |exact Hi'|exact Hok'|].
    { intros x. cbn [clear_visibility entities_in_radius]. rewrite after_entities, Hrad. destruct (active _ _); [reflexivity|apply Hb]. }
    cbn [run]. rewrite E, ok_bind, Er, ok_bind. exists (ps ++ qs), v'. split; [reflexivity|]. split; [|exact Hs'].
    rewrite client_app, Hc. exact Hq. }
  destruct (G ts (with_radius radius) (fun _ => False)) as (ps & v & E & Hc & Hv);
    [split; reflexivity|reflexivity|intros x; cbn; set_solver|contradiction|exact Hok|].
  exists ps, v. split; [exact E|]. intros i. change (ids _) with (ids ∅) in Hc at 1. replace (ids ∅) with (∅ : gset Z) in Hc by (unfold ids; rewrite set_map_empty; reflexivity).
  rewrite Hc, elem_of_ids. setoid_rewrite Hv. reflexivity.
Qed.

End Client.

(** ** The messages are legal *)

Definition reference_wf (r : EntityReference) : Prop :=
  fits 32 r.(game_entity).(unique_id) = true /\ fits 32 r.(game_entity).(ref_id) = true.

Definition item_wf (i : Item) : Prop :=
  fits 32 (GameData.ref_id i.(reference)) = true
  /\ match i.(type_data) with
     | Equipment upgrade_level => fits 8 upgrade_level = true
     | Gold amount => fits 32 amount = true
     | COS => True
     | Consumable amount => fits 16 amount = true
     end.

Definition inventory_wf (inv : Inventory) : Prop :=
  forall s i, inv.(items) !! s = Some i -> fits 8 s = true /\ item_wf i.

Definition visible_wf (v : Visible) : Prop :=
  (forall inv, v.(v_inventory) = Some inv -> inventory_wf inv)
  /\ (forall c, v.(v_player) = Some c -> fits 8 c.(scale) = true /\ encodable_string 1 c.(name) = true)
  /\ (forall d, v.(v_drop) = Some d ->
        item_wf d.(drop_item) /\ forall o, d.(owner) = Some o -> reference_wf o).

Lemma upgrade_level_fits i : item_wf i -> fits 8 (upgrade_level_of i) = true.
Proof. intros [_ H]. unfold upgrade_level_of. destruct i.(type_data); try reflexivity. exact H. Qed.

Lemma agent_state_legal a : encodable no_args [] EntityState (entity_state_from_agent a) = true.
Proof. unfold entity_state_from_agent, f32_val, none. legal_value. Qed.
#[export] Hint Resolve agent_state_legal : legal.

(** Distinct numbers below a bound are at most as many. *)
Lemma bounded_keys_length {A} (l : list (Z * A)) n :
  NoDup (map fst l) -> (forall e, e ∈ l -> 0 <= e.1 < n) -> Z.of_nat (length l) <= Z.max 0 n.
Proof.
  intros Hn Hl. assert (S : map fst l ⊆+ seqZ 0 n).
  { apply NoDup_submseteq; [exact Hn|]. intros x. rewrite list_elem_of_In, in_map_iff, elem_of_seqZ.
    intros (e & <- & He). apply list_elem_of_In, Hl in He. lia. }
  apply submseteq_length in S. rewrite length_map, length_seqZ in S. lia.
Qed.

Lemma equipment_legal item_order i :
  (forall m : gmap Z Item, item_order m ≡ₚ map_to_list m) ->
  (forall inv, i = Some inv -> inventory_wf inv) ->
  encodable no_args [] (TVec CharacterSpawnItemData) (VSeq (equipment_of item_order i)) = true.
Proof.
  intros Ho Hw. destruct i as [inv|]; [|reflexivity]. specialize (Hw inv eq_refl).
  assert (Hin : forall e, e ∈ List.filter (fun '(slot, _) => is_equipment_slot slot) (item_order inv.(items)) ->
    0 <= e.1 < 13 /\ item_wf e.2).
  { intros [s it]. rewrite list_elem_of_In. intros H. apply filter_In in H as [H Hs]. cbn in *.
    unfold is_equipment_slot in Hs. apply (Permutation_in _ (Ho _)), list_elem_of_In, elem_of_map_to_list in H.
    apply Hw in H as [Hf Hi]. apply fits_spec in Hf. split; [lia|exact Hi]. }
  cbn [encodable equipment_of list_type_or_default size_or_1 no_args]. apply andb_true_iff. split.
  - apply forallb_forall. intros v Hv. apply in_map_iff in Hv as ([s it] & <- & H).
    apply list_elem_of_In, Hin in H as [_ Hi]. cbn [snd] in Hi. pose proof (upgrade_level_fits it Hi). destruct Hi as [Hi _].
    legal_value.
  - apply orb_true_iff. right. rewrite length_map. apply Z.ltb_lt.
    eapply Z.le_lt_trans; [apply (bounded_keys_length _ 13)|reflexivity].
    + apply NoDup_map_filter. eapply NoDup_Permutation_proper; [apply Permutation_map, Ho|]. apply NoDup_fst_map_to_list.
    + intros e He. apply Hin, He.
Qed.

Lemma owner_legal o p a env :
  a.(arg_when) = None -> (forall r, o = Some r -> reference_wf r) ->
  encodable a env (TOption U32) (owner_for o p) = true.
Proof.
  intros Ha Ho. apply (encodable_no_when a []); [exact Ha|]. unfold owner_for. destruct o as [r|]; [|cbn; rewrite Ha; reflexivity].
  cbv zeta. destruct (_ =? _); [cbn; rewrite Ha; reflexivity|]. apply encodable_some; [exact Ha|]. apply (Ho r eq_refl).
Qed.

Lemma drop_legal e pos d p :
  fits 32 e.(unique_id) = true -> item_wf d.(drop_item) -> (forall r, d.(owner) = Some r -> reference_wf r) ->
  encodable no_args [] ItemSpawnData (spawndata_from_item e pos d p) = true.
Proof.
  intros He [_ Hi] Ho. pose proof (owner_legal d.(owner) p no_args [] eq_refl Ho) as Hw.
  unfold spawndata_from_item, none. cbv zeta. destruct d.(drop_item).(type_data); legal_value.
Qed.

Lemma character_legal item_order e pos i a c :
  (forall m : gmap Z Item, item_order m ≡ₚ map_to_list m) ->
  fits 32 e.(unique_id) = true -> (forall inv, i = Some inv -> inventory_wf inv) ->
  fits 8 c.(scale) = true -> encodable_string 1 c.(name) = true ->
  encodable no_args [] EntityTypeSpawnData (character_data item_order e pos i a c) = true.
Proof.
  intros Ho He Hi Hs Hn. pose proof (equipment_legal item_order i Ho Hi) as Hq.
  assert (Hz : fits 8 (match i with Some inv => u8 inv.(Inventory.size) | None => 0 end) = true)
    by (destruct i; [auto with skr lia|reflexivity]).
  assert (Hstr : encodable no_args [] TString (VStr c.(name)) = true) by exact Hn.
  unfold character_data, none, GuildInformation_new. legal_value.
Qed.

Lemma spawn_of_legal item_order player r v s :
  (forall m : gmap Z Item, item_order m ≡ₚ map_to_list m) ->
  reference_wf r -> visible_wf v -> spawn_of item_order player r v = Ok (Some s) ->
  encodable no_args [] GroupSpawnDataContent s = true.
Proof.
  intros Ho [Hu Hr] (Hi & Hp & Hd). unfold spawn_of, object, GroupSpawnDataContent_spawn, InteractOptions_talk, none. cbv zeta.
  destruct v.(v_player) as [c|].
  - destruct (v_agent v) as [a|]; [|discriminate]. rewrite ok_bind. intros [= <-]. destruct (Hp c eq_refl) as [Hs Hn].
    pose proof (character_legal item_order _ v.(v_position) _ a c Ho Hu Hi Hs Hn). legal_value.
  - destruct v.(v_monster) as [rarity|]; [|destruct v.(v_drop) as [d|]].
    + destruct (v_agent v) as [a|]; [|discriminate]. rewrite ok_bind. intros [= <-]. legal_value.
    + intros [= <-]. destruct (Hd d eq_refl) as [Hw Hown].
      pose proof (drop_legal _ v.(v_position) d player Hu Hw Hown). legal_value.
    + destruct v.(v_npc); [|discriminate]. destruct (v_agent v) as [a|]; [|discriminate]. rewrite ok_bind. intros [= <-]. legal_value.
Qed.

Lemma group_deliverable mode spawns :
  encodable no_args [] GroupSpawnType mode = true ->
  Forall (fun s => encodable no_args [] GroupSpawnDataContent s = true) spawns ->
  Forall deliverable (send_group_spawn_packet mode spawns).
Proof.
  intros Hm Hs. unfold send_group_spawn_packet. destruct spawns as [|s spawns]; [constructor|].
  repeat apply Forall_cons_2; [..|constructor]; (eapply deliverable_intro; [reflexivity|]).
  - unfold GroupEntitySpawnStart_new. legal_value.
  - unfold GroupEntitySpawnData_new. eapply encodable_struct, encodable_fields_cons; [|apply encodable_fields_nil].
    cbn [encodable]. apply andb_true_iff. split; [|reflexivity].
    apply forallb_forall. intros x Hx. rewrite Forall_forall in Hs. apply Hs, list_elem_of_In, Hx.
  - reflexivity.
Qed.

(** All that a player is told about its surroundings are legal packets of
    the protocol, whatever is visible, so that the writer sends every one. *)
Theorem visibility_messages_legal item_order lookup player v ps v'
    (Horder : forall m : gmap Z Item, item_order m ≡ₚ map_to_list m)
    (Hadded : Forall reference_wf v.(added_entities)) (Hremoved : Forall reference_wf v.(removed_entities))
    (Hvisible : forall e w, lookup e = Some w -> visible_wf w)
    (Hrun : player_visibility_update item_order lookup player v = Ok (ps, v')) :
  Forall deliverable ps.
Proof.
  assert (Hs : forall spawns, spawns_of item_order lookup player v.(added_entities) = Ok spawns ->
    Forall (fun s => encodable no_args [] GroupSpawnDataContent s = true) spawns).
  { clear Hrun Hremoved. induction Hadded as [|r added Hr _ IH]; [intros ? [= <-]; constructor|].
    intros spawns H. cbn [spawns_of] in H. apply bind_ok in H as (here & E & H).
    apply bind_ok in H as (rest & Er & [= <-]). specialize (IH rest Er).
    destruct (lookup r.(entity)) as [w|] eqn:El; [|injection E as <-; exact IH].
    destruct here as [s|]; [|exact IH]. constructor; [|exact IH].
    eapply spawn_of_legal; eauto. }
  unfold player_visibility_update in Hrun. apply bind_ok in Hrun as (spawns & E & [= <- <-]).
  apply Forall_app. split; apply group_deliverable; [reflexivity|apply Hs, E|reflexivity|].
  apply Forall_forall. intros x. rewrite list_elem_of_In, in_map_iff. intros (r & <- & Hr).
  rewrite Forall_forall in Hremoved. apply list_elem_of_In, Hremoved in Hr as [Hu _].
  unfold GroupSpawnDataContent_despawn. legal_value.
Qed.

#[local] Existing Instance plane.

(** ** Examples: a player, a monster that comes near and leaves, and an NPC *)

Lemma distinct_ids (s : gset EntityReference) :
  NoDup (map id_of (elements s)) ->
  forall a b, a ∈ s -> b ∈ s -> id_of a = id_of b -> a = b.
Proof.
  intros Hn a b Ha Hb E. rewrite <- elem_of_elements in Ha, Hb. induction (elements s) as [|x l IH]; [inversion Ha|].
  cbn in Hn. apply NoDup_cons in Hn as [Hx Hl].
  assert (Hin : forall y, y ∈ l -> id_of y = id_of x -> False).
  { intros y Hy Ey. apply Hx. rewrite <- Ey, list_elem_of_In. apply in_map, list_elem_of_In, Hy. }
  apply elem_of_cons in Ha as [->|Ha], Hb as [->|Hb]; eauto; exfalso; [eapply (Hin b)|eapply (Hin a)]; eauto.
Qed.

Definition at_point (x z : Z) : Position := position_new {| x3 := f32_of_Z x; y3 := f32_of_Z 0; z3 := f32_of_Z z |} (f32_of_Z 0).
Definition a_reference (e id : Z) : EntityReference := {| entity := e; game_entity := {| unique_id := id; ref_id := 1000 + id |} |}.
Definition a_player := a_reference 1 11.
Definition a_monster := a_reference 2 12.
Definition an_npc := a_reference 3 13.
Definition a_visible (p : Position) (m : option EntityRarity) (npc : bool) : Visible :=
  {| v_position := p; v_inventory := None; v_agent := Some agent_default; v_player := None; v_monster := m;
     v_drop := None; v_npc := npc |}.

(** The monster is at [x]; [hidden] entities are invisible. *)
Definition a_tick (x : Z) (hidden : list Z) : Tick :=
  let here := at_point 259200 176640 in
  let there := at_point x 176640 in
  let near := at_point 259210 176650 in
  {| t_activity := update_player_activity [here];
     t_rows := [(a_player, here); (a_monster, there); (an_npc, near)];
     t_lookup e :=
       if bool_decide (e ∈ hidden) then None
       else if e =? 2 then Some (a_visible there (Some {| party := false; kind := Rarity_Normal |}) false)
       else if e =? 3 then Some (a_visible near None true) else None;
     t_position := here |}.

Definition walk : list Tick := [a_tick 259300 []; a_tick 259900 []; a_tick 259600 []].

Lemma visibility_update_decides_witness :
  let t := a_tick 259300 [] in
  let v := with_radius (f32_of_Z 500) in
  let v' := visibility_update elements t.(t_activity) t.(t_rows) 1 t.(t_position) v in
  (v'.(added_entities) = [an_npc; a_monster] /\ active t.(t_activity) t.(t_position) = true) /\
  if active t.(t_activity) t.(t_position) then
    (forall x, x ∈ v'.(entities_in_radius)
               <-> exists pos, (x, pos) ∈ t.(t_rows) /\ sees 1 t.(t_position) v.(visibility_radius) (x, pos))
    /\ exists added removed,
         v'.(added_entities) = v.(added_entities) ++ added
         /\ v'.(removed_entities) = v.(removed_entities) ++ removed
         /\ NoDup added /\ NoDup removed
         /\ (forall x, x ∈ added <-> x ∈ v'.(entities_in_radius) /\ x ∉ v.(entities_in_radius))
         /\ (forall x, x ∈ removed <-> x ∈ v.(entities_in_radius) /\ x ∉ v'.(entities_in_radius))
  else v' = v.
Proof.
  intros t v v'. split; [vm_compute; split; reflexivity|].
  pose proof (visibility_update_decides elements (fun s => reflexivity _) t.(t_activity) t.(t_rows) 1
    t.(t_position) v) as X. cbv zeta in X. subst v' v t. exact X.
Defined.

(** The conditions of the theorem, decided for given ticks. *)
Fixpoint run_okb (self : EntityReference) (radius : f32) (before : gset EntityReference) (ts : list Tick) : bool :=
  match ts with
  | [] => true
  | t :: ts =>
      if active t.(t_activity) t.(t_position) then
        let now := entities_in_range t.(t_rows) self.(entity) t.(t_position) radius in
        forallb (fun x => match t.(t_lookup) x.(entity) with Some v => displayable v | None => false end) (elements (now ∖ before))
        && bool_decide (NoDup (map id_of (elements (before ∪ now)))) && run_okb self radius now ts
      else run_okb self radius before ts
  end.

Lemma run_okb_sound self radius ts : forall before P, (forall x, x ∈ before <-> P x) ->
  run_okb self radius before ts = true -> run_ok self radius P ts.
Proof.
  induction ts as [|t ts IH]; intros before P HP; [reflexivity|]. cbn [run_okb run_ok]. destruct (active _ _); [|apply IH, HP].
  intros [[Hd Hn]%andb_true_iff Hr]%andb_true_iff.
  assert (Hnow : forall x, x ∈ entities_in_range t.(t_rows) self.(entity) t.(t_position) radius <-> seen self radius t x)
    by (intros x; apply elem_of_entities_in_range).
  split; [|split; [|exact (IH _ _ Hnow Hr)]].
  - intros x Hx Hb. rewrite <- HP in Hb. apply Hnow in Hx. rewrite forallb_forall in Hd. specialize (Hd x).
    rewrite <- list_elem_of_In, elem_of_elements, elem_of_difference in Hd. specialize (Hd (conj Hx Hb)).
    destruct (t.(t_lookup) x.(entity)) as [v|]; [eauto|discriminate].
  - apply bool_decide_eq_true in Hn. intros x y Hx Hy. rewrite <- HP, <- Hnow, <- elem_of_union in Hx, Hy.
    apply (distinct_ids _ Hn x y Hx Hy).
Qed.

Lemma client_shows_surroundings_witness :
  exists ps v, run elements map_to_list a_player walk (with_radius (f32_of_Z 500)) = Ok (ps, v)
    /\ forall i, i ∈ client ∅ ps <-> exists x, surroundings a_player (f32_of_Z 500) (fun _ => False) walk x /\ id_of x = i.
Proof.
  apply (@client_shows_surroundings plane elements map_to_list (fun s => reflexivity _)).
  apply (run_okb_sound _ _ _ ∅); [intros x; cbn; set_solver|vm_compute; reflexivity].
Defined.

Definition arrivals : Visibility :=
  {| visibility_radius := f32_of_Z 500; entities_in_radius := ∅; added_entities := [an_npc; a_monster];
     removed_entities := [a_reference 4 14] |}.

Lemma visible_in_tick e w : (a_tick 259300 []).(t_lookup) e = Some w -> visible_wf w.
Proof.
  cbn. destruct (e =? 2); [|destruct (e =? 3)]; intros [= <-] || discriminate;
    unfold visible_wf, a_visible; cbn; repeat split; intros; discriminate.
Qed.

Lemma visibility_messages_legal_witness :
  exists ps v', player_visibility_update map_to_list (a_tick 259300 []).(t_lookup) a_player.(game_entity) arrivals = Ok (ps, v')
    /\ length ps = 6%nat /\ Forall deliverable ps.
Proof.
  destruct (player_visibility_update map_to_list (a_tick 259300 []).(t_lookup) a_player.(game_entity) arrivals)
    as [[ps v']|e|] eqn:E; [|discriminate|discriminate].
  exists ps, v'. split; [reflexivity|]. split; [injection E as <- _; reflexivity|].
  eapply (visibility_messages_legal map_to_list); [intros m; reflexivity| | |exact visible_in_tick|exact E];
    repeat constructor.
Defined.

(** An entity that is invisible when it comes into the radius is not shown when
    it turns visible there, and one that turns invisible is not taken away. *)
Lemma turning_visible_not_shown :
  match run elements map_to_list a_player [a_tick 259300 [2]; a_tick 259300 []] (with_radius (f32_of_Z 500)),
        run elements map_to_list a_player [a_tick 259300 []; a_tick 259300 [2]] (with_radius (f32_of_Z 500)) with
  | Ok (ps, v), Ok (qs, w) =>
      bool_decide (a_monster ∈ v.(entities_in_radius)) = true /\ bool_decide (12 ∈ client ∅ ps) = false
      /\ bool_decide (12 ∈ client ∅ qs) = true
  | _, _ => False
  end.
Proof. vm_compute. repeat split. Qed.

(** The despawn messages come after the spawn messages: when the identifier of
    an entity that leaves is given to one that comes in the same tick, the
    client takes the new one away. *)
Lemma reused_identifier_lost :
  let reused := a_reference 4 12 in
  let t := a_tick 259300 [] in
  let next := {| t_activity := t.(t_activity);
                 t_rows := [(a_player, t.(t_position)); (reused, t.(t_position))];
                 t_lookup e := Some (a_visible t.(t_position) None true); t_position := t.(t_position) |} in
  match run elements map_to_list a_player [t; next] (with_radius (f32_of_Z 500)) with
  | Ok (ps, v) => bool_decide (reused ∈ v.(entities_in_radius)) = true /\ bool_decide (12 ∈ client ∅ ps) = false
  | _ => False
  end.
Proof. vm_compute. repeat split. Qed.
