(* ===== verification/Combat.v ===== *)
(** Fights: game-base/src/skill.rs, agent/src/game/mind.rs, attack.rs, action.rs,
    damage.rs, target.rs, drop.rs and the distribution of experience of exp.rs,
    agent/src/agent/states/action.rs and dead.rs.

    What an entity wants ([Mind]) becomes requested transitions, the progress of
    an action deals damage, damage kills, and a death gives experience. A system
    is the function it computes for one entity, or for one event in order;
    commands take effect after it. *)
From stdpp Require Import base list option strings gmap.
From Stdlib Require Import ZArith Lia.
From S2P Require Import Prelude Utf Text F32 Definitions TypeIdEnums TypeId GameData SkillData Serde Schema.
From S2P Require Import ProtoCombat ProtoInventory ProtoWorld Packets Inventory Visibility Characters Progress.
From S2P Require Import Position Entities AgentStates Movement.

(** ** Time

    Timers are those of bevy_time; a duration is a number of nanoseconds. *)
Class Timers := {
  Timer : Type;
  timer_once : Z -> Timer;
  timer_tick : Z -> Timer -> Timer;
  just_finished : Timer -> bool;
  timer_finished : Timer -> bool
}.

Definition from_millis (ms : Z) : Z := ms * 1000000.
Definition from_secs (s : Z) : Z := s * 1000000000.

(** ** game-base/src/skill.rs *)

Inductive AttackSkillError := NotAWeapon | SkillNotFound | UnknownWeapon.

Definition PUNCH_SKILL_ID : Z := 1.

Definition get_range_for_attack (skill : RefSkillData) (weapon : option GameData.RefItemData) : f32 :=
  let item_range := match weapon with
    | Some item => match item.(range) with Some r => f32_of_Z r | None => f32_of_Z 0 end
    | None => f32_of_Z 0
    end in
  fadd (f32_of_Z skill.(skill_range)) item_range.

(** The skill of a kind of weapon. *)
Definition weapon_skill (w : ObjectWeaponType) : option Z :=
  match w with
  | ObjectWeaponType_Sword | ObjectWeaponType_Blade => Some 2
  | ObjectWeaponType_Spear | ObjectWeaponType_Glavie => Some 40
  | ObjectWeaponType_Bow => Some 70
  | ObjectWeaponType_OneHandSword => Some 7127
  | ObjectWeaponType_TwoHandSword => Some 7128
  | ObjectWeaponType_Axe => Some 7129
  | ObjectWeaponType_WarlockStaff => Some 9069
  | ObjectWeaponType_Staff => Some 8454
  | ObjectWeaponType_Crossbow => Some 7909
  | ObjectWeaponType_Dagger => Some 7910
  | ObjectWeaponType_Harp => Some 9606
  | ObjectWeaponType_ClericRod => Some 9970
  | ObjectWeaponType_None | ObjectWeaponType_FortressHammer => None
  end.

Definition get_attack_skill (skills : list RefSkillData) (weapon : option Item)
    : outcome AttackSkillError RefSkillData :=
  let find id := match find_id skills id with Some s => Ok s | None => Err SkillNotFound end in
  match weapon with
  | Some weapon =>
      match from_type_id (type_id_of weapon.(reference)) with
      | Some (Type_Item (Item_Equippable (Equip_Weapon weapon_type))) =>
          match weapon_skill weapon_type with Some id => find id | None => Err UnknownWeapon end
      | _ => Err NotAWeapon
      end
  | None => find PUNCH_SKILL_ID
  end.

(** ** game/mind.rs: goals *)

Inductive Goal :=
| AttackGoal (target : EntityReference)
| ExecuteSkill (target : EntityReference) (skill : RefSkillData)
| PickUp (target : EntityReference).

Record Mind := { current_goal : option Goal }.

Definition mind_default : Mind := {| current_goal := None |}.
Definition attack (target : EntityReference) (m : Mind) : Mind := {| current_goal := Some (AttackGoal target) |}.
Definition attack_with (target : EntityReference) (skill : RefSkillData) (m : Mind) : Mind :=
  {| current_goal := Some (ExecuteSkill target skill) |}.
Definition cancel (m : Mind) : Mind := {| current_goal := None |}.
Definition pickup_goal (target : EntityReference) (m : Mind) : Mind := {| current_goal := Some (PickUp target) |}.
Definition has_goal (m : Mind) : bool := bool_decide (is_Some (option_map (fun _ => tt) m.(current_goal))).

(** ** game/action.rs: what a player wants *)

Inductive ActionTarget := TargetNone | TargetEntity (unique_id : Z) | TargetArea.

Inductive DoActionType :=
| DoAttack (target : ActionTarget)
| PickupItem (target : ActionTarget)
| UseSkill (ref_id : Z) (target : ActionTarget)
| CancelBuff (ref_id : Z) (target : ActionTarget).

Inductive PerformAction := Do (action : DoActionType) | Stop.

Definition stop (e : string) : packet :=
  ("PerformActionResponse"%string, VEnum "Stop" [VEnum e []]).
Definition do_success : packet :=
  ("PerformActionResponse"%string, VEnum "Do" [VEnum "Success" []]).

Section World.
Context `{Cgmath} `{Timers}.

(** [WorldData]: the loaded skills and characters; the meshes; [powf(2.0)]. *)
Context (skill_map : list RefSkillData) (character_map : list RefCharacterData).
Context (mesh_for : Region -> option Heightmap) (powf2 : f32 -> f32).

(** [handle_action] for one player: its answers and its mind. [target_query]
    and [pickup_query] are the identities of all entities and of drops. *)
Definition handle_action (lookup : EntityLookup) (target_query pickup_query : Entity -> option GameEntity)
    (input : option PerformAction) (mind : Mind) : sent * Mind :=
  let invalid := ([stop "InvalidTarget"], mind) in
  let resolve (query : Entity -> option GameEntity) unique_id (k : EntityReference -> sent * Mind) :=
    match get_entity_for_id lookup unique_id with
    | Some target =>
        match query target with
        | Some g => k {| entity := target; game_entity := g |}
        | None => invalid
        end
    | None => invalid
    end in
  match input with
  | None => ([], mind)
  | Some (Do (DoAttack (TargetEntity unique_id))) =>
      resolve target_query unique_id (fun target => ([], attack target mind))
  | Some (Do (PickupItem (TargetEntity unique_id))) =>
      resolve pickup_query unique_id (fun target => ([], pickup_goal target mind))
  | Some (Do (UseSkill skill_id (TargetEntity unique_id))) =>
      resolve target_query unique_id (fun target =>
        match find_id skill_map skill_id with
        | Some skill => ([], attack_with target skill mind)
        | None => ([stop "NotLearned"], mind)
        end)
  | Some (Do _) => ([], mind)
  | Some Stop => ([], cancel mind)
  end.

(** ** states/action.rs: the data of states *)

Inductive StateTarget :=
| NoTarget | OwnTarget | EntityTarget (e : Entity) | LocationTarget (l : GlobalLocation).

Record ActionData := {
  skill : RefSkillData;
  action_target : StateTarget;
  progress_state : ActionProgressState;
  progress : Timer;
}.

(** [Action::from] of a description. *)
Definition action_of (s : RefSkillData) (t : StateTarget) : ActionData :=
  {| skill := s; action_target := t; progress_state := Preparation;
     progress := timer_once (from_millis s.(timings).(SkillData.preparation_time)) |}.

Definition PickupData : Type := Entity * option Timer.
Definition Change : Type := StateChange MovementGoal ActionData PickupData Timer.
Definition Queue : Type := StateTransitionQueue MovementGoal ActionData PickupData Timer.

(** ** game/attack.rs *)

Definition find_attack_for_player (inventory : Inventory) : outcome AttackSkillError RefSkillData :=
  get_attack_skill skill_map (get_equipment_item inventory Definitions.Weapon).

Definition find_attack_for_monster (monster : GameEntity) : option RefSkillData :=
  chardata ← find_id character_map monster.(ref_id);
  skill ← head chardata.(GameData.skills);
  find_id skill_map skill.

(** [AttackProcess::try_attack]: the request made. *)
Definition try_attack (state : Queue) (position : Position) (s : RefSkillData) (weapon : option Item)
    (target : EntityReference) (target_pos : Position) : outcome AttackSkillError Queue :=
  let range := get_range_for_attack s (reference <$> weapon) in
  if fleb (distance_to position target_pos) (squared range) then
    Ok (request_transition (Action (action_of s (EntityTarget target.(entity)))) state)
  else
    let new_target_position :=
      point_in_line_with_range (to_location position.(location)) (to_location target_pos.(location)) range in
    new_height ← height_for mesh_for new_target_position;
    Ok (request_transition
          (Moving (GoalLocation (with_y new_target_position (default target_pos.(location).(y3) new_height)))) state).

(** ** game/mind.rs: carrying out a goal *)

Section Minds.

(** The entity, whether it has a client, and what it holds; the positions of
    entities that are not dead. *)
Context (self : GameEntity) (has_client : bool) (position : Position) (inventory : option Inventory).
Context (target_query : Entity -> option Position).

Definition tell (p : packet) : sent := if has_client then [p] else [].

(** The target and the skill of a goal to fight; [unwrap] on the default attack. *)
Definition fight_of (goal : Goal) : outcome unit (option (EntityReference * RefSkillData)) :=
  match goal with
  | AttackGoal target =>
      match inventory with
      | Some inv => match find_attack_for_player inv with Ok s => Ok (Some (target, s)) | _ => Panic end
      | None => match find_attack_for_monster self with Some s => Ok (Some (target, s)) | None => Panic end
      end
  | ExecuteSkill target s => Ok (Some (target, s))
  | PickUp _ => Ok None
  end.

(** The attempt and its answer. *)
Definition attempt (mind : Mind) (state : Queue) (target : EntityReference) (s : RefSkillData) (target_pos : Position)
    : outcome unit (sent * Mind * Queue) :=
  let weapon := inv ← inventory; get_equipment_item inv Definitions.Weapon in
  match try_attack state position s weapon target target_pos with
  | Ok state => Ok (tell do_success, mind, state)
  | Err (NotAWeapon | UnknownWeapon) => Ok (tell (stop "InvalidWeapon"), cancel mind, state)
  | Err SkillNotFound => Ok (tell (stop "NotLearned"), cancel mind, state)
  | Panic => Panic
  end.

(** [enqueue_action] of an idle entity. *)
Definition enqueue_action (mind : Mind) (state : Queue) : outcome unit (sent * Mind * Queue) :=
  let abandon := Ok ([], cancel mind, request_transition Idle state) in
  match mind.(current_goal) with
  | None => Ok ([], mind, state)
  | Some (PickUp target) =>
      match target_query target.(entity) with
      | None => abandon
      | Some target_pos =>
          match find_id character_map self.(ref_id) with
          | None => abandon
          | Some character_data =>
              match character_data.(pickup_range) with
              | None => abandon
              | Some range =>
                  let range := f32_of_Z range in
                  if fleb (distance_to target_pos position) (powf2 range) then
                    Ok ([], mind, request_transition (Pickup (target.(entity), None)) state)
                  else
                    let there := point_in_line_with_range (to_location position.(location))
                                   (to_location target_pos.(location)) range in
                    target_height ← height_for mesh_for there;
                    Ok ([], mind, request_transition
                          (Moving (GoalLocation (with_y there (default position.(location).(y3) target_height)))) state)
              end
          end
      end
  | Some goal =>
      fight ← fight_of goal;
      match fight with
      | None => Ok ([], mind, state)
      | Some (target, s) =>
          match target_query target.(entity) with
          | Some target_pos => attempt mind state target s target_pos
          | None => Ok ([], cancel mind, state)
          end
      end
  end.

(** [update_action] of a moving entity. *)
Definition update_action (moving : MovementGoal) (mind : Mind) (state : Queue) : outcome unit (sent * Mind * Queue) :=
  let to_location := match moving with GoalLocation _ => true | _ => false end in
  match mind.(current_goal) with
  | None => Ok ([], mind, state)
  | Some (PickUp target) =>
      match target_query target.(entity) with
      | None => Ok ([], cancel mind, request_transition Idle state)
      | Some _ => if to_location then Ok ([], mind, state) else Ok ([], cancel mind, state)
      end
  | Some goal =>
      fight ← fight_of goal;
      match fight with
      | None => Ok ([], mind, state)
      | Some (target, s) =>
          if negb to_location then Ok ([], cancel mind, state)
          else
            match target_query target.(entity) with
            | None => Ok ([], cancel mind, request_transition Idle state)
            | Some entity_location => attempt mind state target s entity_location
            end
      end
  end.
End Minds.

(** ** states/action.rs: picking up *)

(** What the system changes of the entity that picks up. *)
Record Picker := {
  p_pickup : option PickupData;
  p_idle : bool;
  p_inventory : Inventory;
  p_gold : GoldPouch;
}.

Definition with_pickup (d : option PickupData) (p : Picker) : Picker :=
  {| p_pickup := d; p_idle := p.(p_idle); p_inventory := p.(p_inventory); p_gold := p.(p_gold) |}.
Definition with_inventory (i : Inventory) (p : Picker) : Picker :=
  {| p_pickup := p.(p_pickup); p_idle := p.(p_idle); p_inventory := i; p_gold := p.(p_gold) |}.
Definition with_gold (g : GoldPouch) (p : Picker) : Picker :=
  {| p_pickup := p.(p_pickup); p_idle := p.(p_idle); p_inventory := p.(p_inventory); p_gold := g |}.

Definition gain_item (slot : Z) (item : Item) (content : val) : packet :=
  ("InventoryOperationResult"%string,
   InventoryOperationResult_success_gain_item (VNum slot) (VNum (GameData.ref_id item.(reference))) content).

Definition equipment_content (plus_level variance : Z) : val :=
  InventoryItemContentData_equipment (VNum plus_level) (VNum variance) (VNum 1) (VSeq [])
    (InventoryItemBindingData_new (VNum 1) (VNum 0)) (InventoryItemBindingData_new (VNum 2) (VNum 0))
    (InventoryItemBindingData_new (VNum 3) (VNum 0)) (InventoryItemBindingData_new (VNum 4) (VNum 0)).

(** The iteration order of the map of items. *)
Context (item_order : gmap Z Item -> list (Z * Item)).

(** The item of a drop goes to the one that picks it up. *)
Definition receive_drop (item : Item) (p : Picker) : sent * Picker :=
  match item.(type_data) with
  | Gold amount => ([do_success], with_gold (gold_gain amount p.(p_gold)) p)
  | Equipment upgrade_level =>
      let '(slot, inv) := add_item item_order p.(p_inventory) item in
      (match slot with
       | Some slot => [gain_item slot item (equipment_content upgrade_level (default 0 item.(variance)))]
       | None => []
       end, with_inventory inv p)
  | COS | Consumable _ =>
      let '(slot, inv) := add_item item_order p.(p_inventory) item in
      (match slot with
       | Some slot => [gain_item slot item (InventoryItemContentData_expendable (VNum (stack_size item)))]
       | None => [("InventoryOperationResult"%string, VEnum "Error" [VEnum "InventoryFull" []])]
       end ++ [stop "Completed"], with_inventory inv p)
  end.

(** [pickup] for one entity: its answers, the entity to despawn, and what is
    left of it. [target_query] finds drops. *)
Definition pickup (delta : Z) (target_query : Entity -> found Drop) (p : Picker) : sent * option Entity * Picker :=
  match p.(p_pickup) with
  | None => ([], None, p)
  | Some (target, Some cooldown) =>
      let cooldown := timer_tick delta cooldown in
      if just_finished cooldown
      then ([stop "Completed"], None,
            {| p_pickup := None; p_idle := true; p_inventory := p.(p_inventory); p_gold := p.(p_gold) |})
      else ([], None, with_pickup (Some (target, Some cooldown)) p)
  | Some (target, None) =>
      match target_query target with
      | Found drop =>
          let '(answers, p) := receive_drop drop.(drop_item) p in
          (answers, Some target, with_pickup (Some (target, Some (timer_once (from_secs 1)))) p)
      | NoSuchEntity => ([stop "InvalidTarget"], None, with_pickup None p)
      | DoesNotMatch => ([], None, with_pickup None p)
      end
  end.

(** The system over all entities: despawning takes effect after the last. *)
Definition pickups (delta : Z) (drops : Entity -> found Drop) (ps : list Picker) : list Entity * list (sent * Picker) :=
  let results := map (pickup delta drops) ps in
  (omap (fun r => r.1.2) results, map (fun r => (r.1.1, r.2)) results).

(** ** states/action.rs: acting *)

Record DamageReceiveEvent := {
  source : EntityReference;
  hit_target : EntityReference;
  by_skill : RefSkillData;
  instance : Z;
  amount : Z;
}.

(** The limits of the damage of a player with a weapon, as they are drawn from. *)
Definition attack_power (strength : Z) (reinforce power : f32) : Z :=
  f32_as (U 32) (fadd (fmul (f32_of_Z strength) reinforce) power).
Definition weapon_damage (c : Character) (w : GameData.RefItemData) : Z * Z :=
  (attack_power c.(Characters.stats).(str) w.(physical_reinforce_lower) w.(physical_attack_power_lower),
   u32 (attack_power c.(Characters.stats).(str) w.(physical_reinforce_upper) w.(physical_attack_power_upper) + 1)).

(** [gen_range(low..high)], which panics on an empty range. *)
Definition gen_range (draw : Z -> Z -> Z) (low high : Z) : outcome unit Z :=
  if low <? high then Ok (draw low high) else Panic.

Definition is_attack (p : SkillParam) : bool := match p with SkillData.Attack _ _ _ _ _ => true | _ => false end.

(** The damage an execution deals, if any, and the counter of actions. *)
Definition execute (self : EntityReference) (a : ActionData) (inventory : option Inventory) (player : option Character)
    (target_query : Entity -> option GameEntity) (draw : Z -> Z -> Z) (counter : Z)
    : outcome unit (list DamageReceiveEvent * Z) :=
  match List.find is_attack a.(skill).(skill_params_of) with
  | None => Panic
  | Some _ =>
      match a.(action_target) with
      | EntityTarget target =>
          match target_query target with
          | None => Panic
          | Some g =>
              let hit n := ([{| source := self; hit_target := {| entity := target; game_entity := g |};
                                by_skill := a.(skill); instance := counter; amount := n |}], u32 (counter + 1)) in
              match inventory, player with
              | Some inv, Some c =>
                  match get_equipment_item inv Definitions.Weapon with
                  | Some weapon =>
                      let '(low, high) := weapon_damage c weapon.(reference) in
                      dmg ← gen_range draw low high; Ok (hit dmg)
                  | None => Ok (hit 1)
                  end
              | Some _, None => Ok ([], counter)
              | None, _ => Ok (hit 10)
              end
          end
      | _ => Panic
      end
  end.

(** [action] for one entity: what is left of its action, and the damage. *)
Definition action (delta : Z) (self : EntityReference) (inventory : option Inventory) (player : option Character)
    (target_query : Entity -> option GameEntity) (draw : Z -> Z -> Z) (a : ActionData) (counter : Z)
    : outcome unit (option ActionData * list DamageReceiveEvent * Z) :=
  let ticked := timer_tick delta a.(progress) in
  if just_finished ticked then
    match next_progress a.(progress_state) with
    | Some next =>
        let timings := {| preparation_time := a.(skill).(timings).(SkillData.preparation_time);
                          cast_time := a.(skill).(timings).(SkillData.cast_time);
                          duration := a.(skill).(timings).(SkillData.duration);
                          cooldown := a.(skill).(timings).(SkillData.cooldown);
                          next_delay := a.(skill).(timings).(SkillData.next_delay) |} in
        let time := default 0 (get_time_for next timings) in
        let a := {| skill := a.(skill); action_target := a.(action_target); progress_state := next;
                    progress := timer_once (from_millis (u64 time)) |} in
        match next with
        | Execution =>
            dealt ← execute self a inventory player target_query draw counter;
            Ok (Some a, dealt.1, dealt.2)
        | _ => Ok (Some a, [], counter)
        end
    | None => Ok (None, [], counter)
    end
  else Ok (Some {| skill := a.(skill); action_target := a.(action_target);
                   progress_state := a.(progress_state); progress := ticked |}, [], counter).

(** ** states/dead.rs and game/drop.rs: leaving the world *)

Definition new_player : Change := Dead None.
Definition new_monster : Change := Dead (Some (timer_once (from_secs 5))).

(** [should_despawn]: the timer left, and whether it just finished. *)
Definition should_despawn (delta : Z) (despawn : option Timer) : option Timer * bool :=
  match despawn with
  | Some t => let t := timer_tick delta t in (Some t, just_finished t)
  | None => (None, false)
  end.

(** [dead]: the entities despawned, and the timers of the others. *)
Definition dead (delta : Z) (entities : list (Entity * option Timer)) : list Entity * list (Entity * option Timer) :=
  let ticked := map (fun '(e, d) => (e, should_despawn delta d)) entities in
  (map fst (List.filter (fun '(_, (_, gone)) => gone) ticked), map (fun '(e, (d, _)) => (e, d)) ticked).

Definition tick_drop (delta : Z) (drops : list (Entity * Timer)) : list Entity * list (Entity * Timer) :=
  let ticked := map (fun '(e, t) => (e, timer_tick delta t)) drops in
  (map fst (List.filter (fun '(_, t) => timer_finished t) ticked), ticked).

(** ** game/damage.rs *)

Record Receiver := {
  r_health : Health;
  r_queue : Queue;
  r_damage : DamageReceiver;
  r_player : bool;
  r_client : bool;
  r_invincible : bool;
}.

Record EntityDeath := { died : EntityReference; killer : option EntityReference }.

(** The message about a hit. *)
Definition hit_message (e : DamageReceiveEvent) (kind : string) (amount : Z) : packet :=
  ("PerformActionUpdate"%string,
   PerformActionUpdate_success (VNum e.(by_skill).(skill_ref_id))
     (VNum e.(source).(game_entity).(unique_id)) (VNum e.(hit_target).(game_entity).(unique_id)) (VNum e.(instance))
     (VEnum "Attack"
        [VOpt (Some (VStruct [VNum 1; VSeq [VStruct [VNum e.(hit_target).(game_entity).(unique_id);
           VSeq [VEnum kind [DamageValue_new (VEnum "Standard" []) (VNum amount)]]]]]))])).

(** Whoever is told: the attacker if it has a client, or else the target. *)
Definition tell_hit (e : DamageReceiveEvent) (attacker_client target_client : bool) (p : packet)
    : list (Entity * packet) :=
  if attacker_client then [(e.(source).(entity), p)]
  else if target_client then [(e.(hit_target).(entity), p)]
  else [].

(** One event; [senders] are the entities with their identities and whether
    they have a client. *)
Definition handle_damage_event (senders : Entity -> option (GameEntity * bool)) (e : DamageReceiveEvent)
    (receivers : gmap Entity Receiver)
    : outcome unit (list (Entity * packet) * list EntityDeath * gmap Entity Receiver) :=
  match receivers !! e.(hit_target).(entity) with
  | None => Ok ([], [], receivers)
  | Some r =>
      match senders e.(source).(entity) with
      | None => Panic
      | Some (attacker, attacker_client) =>
          let '(result, health, damage) :=
            Progress.handle_damage attacker.(unique_id) e.(amount) r.(r_invincible) r.(r_health) r.(r_damage) in
          let update queue := <[e.(hit_target).(entity) :=
            {| r_health := health; r_queue := queue; r_damage := damage; r_player := r.(r_player);
               r_client := r.(r_client); r_invincible := r.(r_invincible) |}]> receivers in
          match result with
          | TargetDead =>
              Ok (if attacker_client
                  then [(e.(source).(entity), ("PerformActionUpdate"%string, VEnum "Error" [VEnum "Completed" []]))]
                  else [], [], receivers)
          | Hit amount =>
              Ok (tell_hit e attacker_client r.(r_client) (hit_message e "Default" amount), [], update r.(r_queue))
          | KillingBlow amount =>
              let dead_state := if r.(r_player) then new_player else new_monster in
              Ok (tell_hit e attacker_client r.(r_client) (hit_message e "KillingBlow" amount),
                  [{| died := e.(hit_target); killer := Some e.(source) |}],
                  update (request_transition dead_state r.(r_queue)))
          end
      end
  end.

(** The system reads its events in order. *)
Fixpoint handle_damage (senders : Entity -> option (GameEntity * bool)) (events : list DamageReceiveEvent)
    (receivers : gmap Entity Receiver)
    : outcome unit (list (Entity * packet) * list EntityDeath * gmap Entity Receiver) :=
  match events with
  | [] => Ok ([], [], receivers)
  | e :: events =>
      first ← handle_damage_event senders e receivers;
      rest ← handle_damage senders events first.2;
      Ok (first.1.1 ++ rest.1.1, first.1.2 ++ rest.1.2, rest.2)
  end.

(** [attack_player] on the minds of the monsters. *)
Definition attack_player (events : list DamageReceiveEvent) (minds : gmap Entity Mind) : gmap Entity Mind :=
  fold_left (fun minds e =>
    match minds !! e.(hit_target).(entity) with
    | Some mind => if has_goal mind then minds
                   else <[e.(hit_target).(entity) := attack e.(source) mind]> minds
    | None => minds
    end) events minds.

(** ** game/exp.rs: a death gives experience *)

Record ReceiveExperienceEvent := {
  exp_source : option EntityReference;
  exp_target : EntityReference;
  exp_amount : Z;
  sp_amount : Z;
}.

Definition EXP_RECEIVE_RANGE_SQUARED : f32 := fmul (f32_of_Z 1000) (f32_of_Z 1000).

(** The iteration order of the map of damage. *)
Context (attacker_order : gmap Z Z -> list Z).

Definition all_attackers (d : DamageReceiver) : list Z := attacker_order d.(damage_counts).

Definition experience_for (lookup : EntityLookup) (receivers : Entity -> option (GameEntity * Position))
    (d : EntityDeath) (death_location : Position) (attacker_id : Z) : list ReceiveExperienceEvent :=
  match get_entity_for_id lookup attacker_id with
  | Some target =>
      match receivers target with
      | Some (g, position) =>
          if fleb (distance_to death_location position) EXP_RECEIVE_RANGE_SQUARED
          then [{| exp_source := Some d.(died); exp_target := {| entity := target; game_entity := g |};
                   exp_amount := 100; sp_amount := 100 |}]
          else []
      | None => []
      end
  | None => []
  end.

Definition distribute_experience (lookup : EntityLookup) (dead_query : Entity -> option (DamageReceiver * Position))
    (receivers : Entity -> option (GameEntity * Position)) (deaths : list EntityDeath)
    : list ReceiveExperienceEvent :=
  flat_map (fun d =>
    match dead_query d.(died).(entity) with
    | Some (damage_distribution, death_location) =>
        flat_map (experience_for lookup receivers d death_location) (all_attackers damage_distribution)
    | None => []
    end) deaths.

(** ** game/target.rs *)

Definition MAX_TARGET_DISTANCE : f32 := fmul (f32_of_Z 500) (f32_of_Z 500).

(** What the query of a target reads. *)
Record Targetable := {
  t_position : Position;
  t_health : option Health;
  t_monster : bool;
  t_npc : bool;
  t_player : bool;
}.

Definition target_response (result : val) : packet :=
  ("TargetEntityResponse"%string, TargetEntityResponse_new result).
Definition target_failure : sent := [target_response (TargetEntityResult_failure (VEnum "InvalidTarget" []))].

(** The request to target: the answers, and the target set. *)
Definition set_target (lookup : EntityLookup) (targets : Entity -> option Targetable) (pos : Position)
    (unique_id : Z) : sent * option Entity :=
  match get_entity_for_id lookup unique_id with
  | None => (target_failure, None)
  | Some target_entity =>
      match targets target_entity with
      | None => (target_failure, None)
      | Some t =>
          if fleb MAX_TARGET_DISTANCE (distance2_3 t.(t_position).(location) pos.(location)) then (target_failure, None)
          else
            match t.(t_health), t.(t_monster), t.(t_npc), t.(t_player) with
            | Some health, true, _, _ =>
                ([target_response (TargetEntityResult_success_monster (VNum unique_id) (VNum health.(current_health)))],
                 Some target_entity)
            | _, _, true, _ =>
                ([target_response (TargetEntityResult_success_npc (VNum unique_id))], Some target_entity)
            | Some _, _, _, true => ([], Some target_entity)
            | _, _, _, _ => (target_failure, None)
            end
      end
  end.

Definition untarget_response (success : bool) : packet :=
  ("UnTargetEntityResponse"%string, UnTargetEntityResponse_new (VBool success)).

(** [player_update_target] for one player; the request to stop targeting sees
    the target of before. *)
Definition player_update_target (lookup : EntityLookup) (targets : Entity -> option Targetable) (pos : Position)
    (target untarget : option Z) (current_target : option Entity) : sent * option Entity :=
  let '(answers, inserted) :=
    match target with Some id => set_target lookup targets pos id | None => ([], None) end in
  let next := match inserted with Some e => Some e | None => current_target end in
  match untarget with
  | None => (answers, next)
  | Some id =>
      match current_target with
      | None => (answers ++ [untarget_response true], next)
      | Some current =>
          match get_entity_for_id lookup id with
          | None => (answers ++ [untarget_response false], next)
          | Some found =>
              if found =? current then (answers ++ [untarget_response true], None)
              else (answers ++ [untarget_response false], next)
          end
      end
  end.

(** [deselect_despawned] for one entity. *)
Definition deselect_despawned (exists_entity : Entity -> bool) (has_client : bool) (target : Entity)
    : sent * option Entity :=
  if exists_entity target then ([], Some target)
  else (if has_client then [untarget_response true] else [], None).

End World.
