(* ===== verification/CombatSpec.v ===== *)
(** Fights: what a mind requests, when an action fails, who dies, who is
    rewarded, and what picking up gives. *)
From stdpp Require Import base list option strings gmap.
From Stdlib Require Import ZArith Lia Permutation.
From S2P Require Import Prelude Utf Text F32 Definitions TypeIdEnums TypeId GameData SkillData SkillDataSpec Serde Schema.
From S2P Require Import ProtoCombat ProtoInventory ProtoWorld Packets Inventory InventoryFacts InventorySpec Visibility Characters Progress.
From S2P Require Import Position PositionSpec Entities AgentStates AgentStatesSpec Movement Combat.

Section Fights.
Context `{Cgmath} `{Timers}.
Context (skill_map : list RefSkillData) (character_map : list RefCharacterData).
Context (mesh_for : Region -> option Heightmap) (powf2 : f32 -> f32).

(** ** Minds *)

Section Mind.
Context (self : GameEntity) (has_client : bool) (position : Position) (inventory : option Inventory).
Context (target_query : Entity -> option Position).

(** The weapon in hand. *)
Definition held : option Item := inv ← inventory; get_equipment_item inv Definitions.Weapon.

(** What a goal allows to request: to act on a living target in reach, to walk
    while it lives, or to give up. *)
Definition allowed (goal : option Goal) (mind' : Mind) (c : Change) : Prop :=
  match c with
  | Action a =>
      exists target pos, (goal = Some (AttackGoal target) \/ goal = Some (ExecuteSkill target a.(skill)))
        /\ a = action_of a.(skill) (EntityTarget target.(entity))
        /\ target_query target.(entity) = Some pos
        /\ fleb (distance_to position pos) (squared (get_range_for_attack a.(skill) (reference <$> held))) = true
  | Pickup (e, cooldown) =>
      exists target pos data range, goal = Some (PickUp target) /\ e = target.(entity) /\ cooldown = None
        /\ target_query e = Some pos /\ find_id character_map self.(ref_id) = Some data
        /\ data.(pickup_range) = Some range /\ fleb (distance_to pos position) (powf2 (f32_of_Z range)) = true
  | Moving (GoalLocation _) =>
      exists target, (goal = Some (AttackGoal target) \/ (exists s, goal = Some (ExecuteSkill target s)) \/ goal = Some (PickUp target))
        /\ is_Some (target_query target.(entity))
  | Idle => mind' = mind_default
  | _ => False
  end.

(** At most one request, and the goal is kept or given up. *)
Definition requests (goal : option Goal) (state : Queue) (r : sent * Mind * Queue) : Prop :=
  let '(_, mind', state') := r in
  (mind'.(current_goal) = goal \/ mind' = mind_default)
  /\ (state' = state \/ exists c, state' = request_transition c state /\ allowed goal mind' c).

Lemma attempt_requests goal mind state target s pos r :
  mind.(current_goal) = goal -> goal = Some (AttackGoal target) \/ goal = Some (ExecuteSkill target s) ->
  target_query target.(entity) = Some pos ->
  attempt mesh_for has_client position inventory mind state target s pos = Ok r -> requests goal state r.
Proof.
  intros Hm Hg Hpos. unfold attempt, try_attack. fold held. destruct (fleb _ _) eqn:E.
  - intros [= <-]. split; [left; exact Hm|]. right. eexists. split; [reflexivity|].
    exists target, pos. auto.
  - destruct (height_for mesh_for _) as [h|e|]; cbn; [| |discriminate].
    + intros [= <-]. split; [left; exact Hm|]. right. eexists. split; [reflexivity|].
      exists target. split; [naive_solver|eauto].
    + destruct e; intros [= <-]; (split; [right; reflexivity|left; reflexivity]).
Qed.

Lemma fight_of_goal goal target s :
  fight_of skill_map character_map self inventory goal = Ok (Some (target, s)) ->
  goal = AttackGoal target \/ goal = ExecuteSkill target s.
Proof.
  destruct goal as [t|t s'|t]; cbn.
  - destruct inventory as [inv|]; [destruct (find_attack_for_player _ _)|destruct (find_attack_for_monster _ _ _)];
      try discriminate; intros [= -> _]; auto.
  - intros [= -> ->]. auto.
  - discriminate.
Qed.

Lemma abandon_requests goal state : requests goal state ([], cancel mind_default, request_transition Idle state).
Proof. split; [right; reflexivity|]. right. eexists. split; reflexivity. Qed.

(** An attempt on the target of a goal to fight, if it is alive. *)
Lemma fight_requests goal mind state dead_state r :
  mind.(current_goal) = Some goal ->
  dead_state = state \/ dead_state = request_transition Idle state ->
  (fight ← fight_of skill_map character_map self inventory goal;
   match fight with
   | None => Ok ([], mind, state)
   | Some (target, s) =>
       match target_query target.(entity) with
       | Some target_pos => attempt mesh_for has_client position inventory mind state target s target_pos
       | None => Ok ([], cancel mind, dead_state)
       end
   end) = Ok r -> requests (Some goal) state r.
Proof.
  intros Hgoal Hdead. destruct (fight_of _ _ _ _ goal) as [[[target s]|]|e|] eqn:Hf; cbn; try discriminate.
  - apply fight_of_goal in Hf. destruct (target_query _) as [pos|] eqn:Hpos.
    + apply attempt_requests; [exact Hgoal|destruct Hf as [->| ->]; auto|exact Hpos].
    + intros [= <-]. destruct Hdead as [->| ->]; [cbn; auto|apply abandon_requests].
  - intros [= <-]. cbn. auto.
Qed.

Lemma enqueue_requests mind state r :
  enqueue_action skill_map character_map mesh_for powf2 self has_client position inventory target_query
    mind state = Ok r -> requests mind.(current_goal) state r.
Proof.
  unfold enqueue_action. destruct (current_goal mind) as [goal|] eqn:Hgoal; [|intros [= <-]; cbn; auto].
  destruct goal as [target|target s|target]; [apply fight_requests; auto..|].
  destruct (target_query _) as [pos|] eqn:Hpos; [|intros [= <-]; apply abandon_requests].
  destruct (find_id character_map _) as [data|] eqn:Hdata; [|intros [= <-]; apply abandon_requests].
  destruct (pickup_range data) as [range|] eqn:Hrange; [|intros [= <-]; apply abandon_requests].
  destruct (fleb _ _) eqn:E.
  - intros [= <-]. split; [left; exact Hgoal|]. right. eexists. split; [reflexivity|].
    exists target, pos, data, range. repeat split; assumption.
  - intros Hr. apply bind_ok in Hr as (h & _ & [= <-]). split; [left; exact Hgoal|]. right.
    eexists. split; [reflexivity|]. exists target. split; [auto|eauto].
Qed.

Lemma update_requests moving mind state r :
  update_action skill_map character_map mesh_for self has_client position inventory target_query moving
    mind state = Ok r -> requests mind.(current_goal) state r.
Proof.
  unfold update_action. destruct (current_goal mind) as [goal|] eqn:Hgoal; [|intros [= <-]; cbn; auto].
  assert (Hcancel : requests (Some goal) state ([], cancel mind, state)) by (cbn; auto).
  set (there := match moving with GoalLocation _ => true | _ => false end).
  destruct goal as [target|target s|target].
  3:{ destruct (target_query _); [|intros [= <-]; apply abandon_requests].
      destruct there; intros [= <-]; [cbn; auto|exact Hcancel]. }
  all: destruct there; cbn [negb]; [apply fight_requests; auto|].
  all: destruct (fight_of _ _ _ _ _) as [[[]|]|e|]; cbn; try discriminate; intros [= <-]; cbn; auto.
Qed.

(** C23: An entity acts only on a living target within its reach: whatever its
    goal is, an idle entity and one on its way request at most one transition,
    an action or a pickup only on the target of the goal when that is alive and
    in range, a movement only while the target lives, and idling only when it
    gives the goal up. *)
Theorem mind_acts_in_reach (mind : Mind) (state : Queue) r
    (Hr : enqueue_action skill_map character_map mesh_for powf2 self has_client position inventory target_query
            mind state = Ok r
          \/ exists moving, update_action skill_map character_map mesh_for self has_client position inventory
               target_query moving mind state = Ok r) :
  requests mind.(current_goal) state r.
Proof. destruct Hr as [Hr|[moving Hr]]; [exact (enqueue_requests _ _ _ Hr)|exact (update_requests _ _ _ _ Hr)]. Qed.
End Mind.

(** ** Actions *)

Section Acting.
Context (self : EntityReference) (inventory : option Inventory) (player : option Character).
Context (target_query : Entity -> option GameEntity) (draw : Z -> Z -> Z).

(** The damage of an execution, if there is one. *)
Definition execution_fails (a : ActionData) : Prop :=
  List.find is_attack a.(skill).(skill_params_of) = None
  \/ (forall target g, a.(action_target) = EntityTarget target -> target_query target <> Some g)
  \/ exists inv c w, inventory = Some inv /\ player = Some c /\ get_equipment_item inv Definitions.Weapon = Some w
       /\ (weapon_damage c w.(reference)).2 <= (weapon_damage c w.(reference)).1.

Lemma execute_panics a counter :
  execute self a inventory player target_query draw counter = Panic <-> execution_fails a.
Proof.
  unfold execute, execution_fails. destruct (List.find is_attack _) as [p|]; [|tauto].
  destruct (action_target a) as [| |target|l]; try (split; [intros _; right; left; discriminate|reflexivity]).
  destruct (target_query target) as [g|] eqn:Hg;
    [|split; [intros _; right; left; intros ? ? [= <-]; congruence|reflexivity]].
  assert (Hfound : ~ (forall t g', EntityTarget target = EntityTarget t -> target_query t <> Some g'))
    by (intros Hf; exact (Hf target g eq_refl Hg)).
  destruct inventory as [inv|]; [|split; [discriminate|intros [?|[?|(? & ? & ? & ? & _)]]; [discriminate|contradiction|discriminate]]].
  destruct player as [c|]; [|split; [discriminate|intros [?|[?|(? & ? & ? & _ & ? & _)]]; [discriminate|contradiction|discriminate]]].
  destruct (get_equipment_item inv Definitions.Weapon) as [w|] eqn:Hw.
  - destruct (weapon_damage c (reference w)) as [low high] eqn:Hd. unfold gen_range.
    destruct (Z.ltb_spec low high); cbn.
    + split; [discriminate|]. intros [?|[?|(inv' & c' & w' & Ei & Ec & Hw' & Hle)]]; [discriminate|contradiction|].
      simplify_eq. unfold weapon_damage in Hd. injection Hd as <- <-. cbn in Hle. lia.
    + split; [|reflexivity]. intros _. right; right. exists inv, c, w. unfold weapon_damage in Hd. injection Hd as <- <-. cbn. auto.
  - split; [discriminate|]. intros [?|[?|(inv' & c' & w' & Ei & Ec & Hw' & _)]]; [discriminate|contradiction|simplify_eq].
Qed.

(** C25: The system that carries actions out stops the server exactly when the
    cast of an action ends and the skill has no attack among its parameters,
    the target is not an entity or has gone, or the range that the damage of
    the weapon is drawn from is empty; in every other situation it goes on. *)
Theorem action_panics (delta : Z) (a : ActionData) (counter : Z) :
  action delta self inventory player target_query draw a counter = Panic
  <-> just_finished (timer_tick delta a.(progress)) = true /\ a.(progress_state) = Casting /\ execution_fails a.
Proof.
  unfold action. destruct (just_finished _); [|split; [discriminate|intros [? _]; discriminate]].
  destruct (progress_state a) eqn:Es; cbn [next_progress];
    try (split; [discriminate|intros (_ & ? & _); discriminate]).
  rewrite <- (execute_panics a counter). set (a' := {| skill := _ |}).
  assert (E : execute self a' inventory player target_query draw counter
    = execute self a inventory player target_query draw counter) by reflexivity.
  rewrite E. destruct (execute _ a _ _ _ _ _) as [[events n]|e|]; cbn; split; try discriminate; try tauto.
  all: intros (_ & _ & ?); discriminate.
Qed.

End Acting.

(** The action over several ticks: how long each was, and who was there. *)
Fixpoint act (self : EntityReference) (inventory : option Inventory) (player : option Character) (draw : Z -> Z -> Z)
    (ticks : list (Z * (Entity -> option GameEntity))) (a : ActionData) (counter : Z)
    : outcome unit (option ActionData * list DamageReceiveEvent * Z) :=
  match ticks with
  | [] => Ok (Some a, [], counter)
  | (delta, target_query) :: ticks =>
      r ← action delta self inventory player target_query draw a counter;
      match r.1.1 with
      | Some a => rest ← act self inventory player draw ticks a r.2; Ok (rest.1.1, r.1.2 ++ rest.1.2, rest.2)
      | None => Ok (None, r.1.2, r.2)
      end
  end.

(** A timer that runs once finishes with the tick that reaches its duration. *)
Definition ticked (n : Z) (ds : list Z) : Timer := fold_left (fun t d => timer_tick d t) ds (timer_once n).

Class TimerLaws := {
  once_finishes n ds d : Forall (fun d => 0 <= d) (ds ++ [d]) -> ds = [] \/ sumZ ds < n ->
    just_finished (timer_tick d (ticked n ds)) = (n <=? sumZ (ds ++ [d]))
}.

(** Ticks that last a time: the last one of them reaches it. *)
Definition lasts (n : Z) (ds : list Z) : Prop :=
  exists ds' d, ds = ds' ++ [d] /\ Forall (fun d => 0 <= d) ds /\ (ds' = [] \/ sumZ ds' < n) /\ n <= sumZ ds.

Definition timings_of (s : RefSkillData) : AgentStates.SkillTimings :=
  {| preparation_time := s.(timings).(SkillData.preparation_time); cast_time := s.(timings).(SkillData.cast_time);
     duration := s.(timings).(SkillData.duration); cooldown := s.(timings).(SkillData.cooldown);
     next_delay := s.(timings).(SkillData.next_delay) |}.

(** The time an action stays in a state. *)
Definition time_of (p : ActionProgressState) (s : RefSkillData) : Z :=
  match p with
  | Preparation => from_millis s.(timings).(SkillData.preparation_time)
  | _ => from_millis (u64 (default 0 (get_time_for p (timings_of s))))
  end.

Section Landing.
Context (self : EntityReference) (inventory : option Inventory) (player : option Character) (draw : Z -> Z -> Z).

#[local] Abbreviation after_ticks s t p ds := {| skill := s; action_target := t; progress_state := p; progress := ticked (time_of p s) ds |}.
#[local] Abbreviation at_state s t p := (after_ticks s t p []).
#[local] Abbreviation acts := (act self inventory player draw).

Lemma ticked_snoc n ds d : timer_tick d (ticked n ds) = ticked n (ds ++ [d]).
Proof. unfold ticked. rewrite fold_left_app. reflexivity. Qed.

Lemma sumZ_nonneg ds : Forall (fun d => 0 <= d) ds -> 0 <= sumZ ds.
Proof. induction 1; cbn; unfold sumZ in *; lia. Qed.

(** While its time has not come a state is kept. *)
Lemma act_waits `{!TimerLaws} s t p rest ts : forall ds counter,
  Forall (fun d => 0 <= d) (ds ++ ts.*1) -> ts = [] \/ sumZ (ds ++ ts.*1) < time_of p s ->
  acts (ts ++ rest) (after_ticks s t p ds) counter = acts rest (after_ticks s t p (ds ++ ts.*1)) counter.
Proof.
  induction ts as [|[d q] ts IH]; intros ds counter Hn Hlt; [cbn; rewrite app_nil_r; reflexivity|].
  destruct Hlt as [|Hlt]; [discriminate|]. cbn [app act fmap list_fmap fst] in *. unfold fmap in *.
  replace (ds ++ d :: list_fmap _ _ fst ts) with ((ds ++ [d]) ++ list_fmap _ _ fst ts) in * by (rewrite <- app_assoc; reflexivity).
  assert (Hsum : sumZ (ds ++ [d]) < time_of p s).
  { rewrite (sumZ_app (ds ++ [d])) in Hlt. apply Forall_app in Hn as [_ Hn]. pose proof (sumZ_nonneg _ Hn). lia. }
  assert (Hs : action d self inventory player q draw (after_ticks s t p ds) counter
    = Ok (Some (after_ticks s t p (ds ++ [d])), [], counter)).
  { unfold action. cbn [progress progress_state skill action_target]. rewrite once_finishes.
    - rewrite (proj2 (Z.leb_gt _ _)) by exact Hsum. rewrite ticked_snoc. reflexivity.
    - apply Forall_app in Hn as [Hn _]. exact Hn.
    - right. rewrite sumZ_app in Hsum. apply Forall_app in Hn as [Hn _]. apply Forall_app in Hn as [_ Hn].
      apply Forall_cons in Hn as [Hd _]. cbn in Hsum. lia. }
  rewrite Hs. cbn [mbind outcome_bind fst snd]. rewrite IH by (assumption || (right; exact Hlt)).
  destruct (acts rest _ counter) as [[[r1 r2] r3]| |]; reflexivity.
Qed.

(** The last tick of a state. *)
Lemma finishes `{!TimerLaws} n ds d : lasts n (ds ++ [d]) -> just_finished (timer_tick d (ticked n ds)) = true.
Proof.
  intros (ds' & d' & E & Hn & Hlt & Hle). apply app_inj_tail in E as [<- <-].
  rewrite once_finishes by assumption. apply Z.leb_le, Hle.
Qed.

Lemma lasts_waits n (ts : list (Z * (Entity -> option GameEntity))) d : lasts n (ts.*1 ++ [d]) ->
  Forall (fun d => 0 <= d) ([] ++ ts.*1) /\ (ts = [] \/ sumZ ([] ++ ts.*1) < n).
Proof.
  intros (ds' & d' & E & Hn & Hlt & _). apply app_inj_tail in E as [<- <-]. apply Forall_app in Hn as [Hn _].
  split; [exact Hn|]. destruct Hlt as [Hnil|Hlt]; [left|right; exact Hlt]. destruct ts; [reflexivity|discriminate].
Qed.

(** What the last tick of a state leads to. *)
Lemma act_phase `{!TimerLaws} s t p ts d q rest counter : lasts (time_of p s) (ts.*1 ++ [d]) ->
  acts ((ts ++ [(d, q)]) ++ rest) (at_state s t p) counter
  = (r ← match next_progress p with
         | None => Ok (None, [], counter)
         | Some Execution =>
             dealt ← execute self (at_state s t Execution) inventory player q draw counter;
             Ok (Some (at_state s t Execution), dealt.1, dealt.2)
         | Some next => Ok (Some (at_state s t next), [], counter)
         end;
     match r.1.1 with
     | Some a => after ← acts rest a r.2; Ok (after.1.1, r.1.2 ++ after.1.2, after.2)
     | None => Ok (None, r.1.2, r.2)
     end).
Proof.
  intros Hl. destruct (lasts_waits _ ts d Hl) as [Hn Hlt]. rewrite <- app_assoc, act_waits by assumption. cbn [app act].
  f_equal. unfold action. cbn [progress progress_state skill action_target]. rewrite (finishes _ _ _ Hl).
  destruct p; reflexivity.
Qed.

(** An execution that does not fail hits the target, unless it is by an entity
    with an inventory that is no player. *)
Lemma execute_hits (target_query : Entity -> option GameEntity) s target g counter p :
  let a := at_state s (EntityTarget target) p in
  ~ execution_fails inventory player target_query a -> target_query target = Some g ->
  inventory = None \/ player <> None ->
  exists n, execute self a inventory player target_query draw counter
    = Ok ([{| source := self; hit_target := {| entity := target; game_entity := g |}; by_skill := s;
              instance := counter; amount := n |}], u32 (counter + 1)).
Proof.
  cbn zeta. intros Hok Hg Hinv. rewrite <- (execute_panics self inventory player target_query draw _ counter) in Hok.
  unfold execute in *. cbn [skill action_target] in *. rewrite Hg in *.
  destruct (List.find is_attack _); [|contradiction].
  destruct inventory as [inv|]; [|eauto]. destruct player as [c|]; [|naive_solver].
  destruct (get_equipment_item inv Definitions.Weapon) as [w|]; [|eauto].
  destruct (weapon_damage c (reference w)) as [low high]. unfold gen_range in *.
  destruct (low <? high); [|contradiction]. cbn. eauto.
Qed.

(** C21: An attack lands. An idle entity has the goal to fight a living target in
    reach, with a skill that has an attack among its parameters; the target is
    still there in the tick that ends the cast, and a weapon has a range of
    damage. Then through the request of its mind, the transition of the stage in
    any order of the systems, and whatever ticks the four states of the action
    are cut into, each ending with the tick that reaches its time, the target is
    hit exactly once, after which the action has ended. *)
Theorem attack_lands `{!TimerLaws} (target_query : Entity -> option GameEntity) has_client position positions mind goal target s pos g
    order counter t1 t2 t3 t4 d1 d2 d3 d4 q1 q3 q4
    (Hgoal : mind.(current_goal) = Some goal)
    (Hfight : fight_of skill_map character_map self.(game_entity) inventory goal = Ok (Some (target, s)))
    (Hpos : positions target.(entity) = Some pos)
    (Hreach : fleb (distance_to position pos) (squared (get_range_for_attack s (reference <$> held inventory))) = true)
    (Hg : target_query target.(entity) = Some g)
    (Hok : ~ execution_fails inventory player target_query (action_of s (EntityTarget target.(entity))))
    (Hinv : inventory = None \/ player <> None)
    (Horder : Permutation order systems)
    (Hpreparation : lasts (time_of Preparation s) (t1.*1 ++ [d1])) (Hcasting : lasts (time_of Casting s) (t2.*1 ++ [d2]))
    (Hexecution : lasts (time_of Execution s) (t3.*1 ++ [d3])) (Hteardown : lasts (time_of Teardown s) (t4.*1 ++ [d4])) :
  exists q hit,
    enqueue_action skill_map character_map mesh_for powf2 self.(game_entity) has_client position inventory positions mind []
      = Ok (tell has_client do_success, mind, q)
    /\ transition_stage order (only Idle) q = (only (Action (action_of s (EntityTarget target.(entity)))), [], [])
    /\ acts ((t1 ++ [(d1, q1)]) ++ (t2 ++ [(d2, target_query)]) ++ (t3 ++ [(d3, q3)]) ++ (t4 ++ [(d4, q4)]))
         (action_of s (EntityTarget target.(entity))) counter
       = Ok (None, [hit], u32 (counter + 1))
    /\ hit.(source) = self /\ hit.(hit_target) = {| entity := target.(entity); game_entity := g |}
    /\ hit.(by_skill) = s /\ hit.(instance) = counter.
Proof.
  destruct (execute_hits target_query s target.(entity) g counter Execution Hok Hg Hinv) as [n He].
  eexists _, _. split; [|split; [|split]].
  - unfold enqueue_action. rewrite Hgoal, Hfight.
    assert (Hatt : attempt mesh_for has_client position inventory mind [] target s pos
      = Ok (tell has_client do_success, mind, [transition_new (Action (action_of s (EntityTarget target.(entity))))])).
    { unfold attempt, try_attack. fold (held inventory). rewrite Hreach. reflexivity. }
    destruct goal as [t|t s'|t]; [..|discriminate]; cbn; rewrite Hpos; exact Hatt.
  - unfold transition_stage. rewrite (run_systems_one Idle order transition_from_idle _ Horder eq_refl). reflexivity.
  - change (action_of s _) with (at_state s (EntityTarget target.(entity)) Preparation).
    rewrite act_phase by exact Hpreparation. cbn [next_progress mbind outcome_bind fst snd].
    rewrite act_phase by exact Hcasting. cbn [next_progress]. rewrite He. cbn [mbind outcome_bind fst snd].
    rewrite act_phase by exact Hexecution. cbn [next_progress mbind outcome_bind fst snd].
    rewrite <- (app_nil_r (t4 ++ _)), act_phase by exact Hteardown. reflexivity.
  - repeat split.
Qed.
End Landing.

End Fights.

(** ** Damage of many events *)

Section Damage.
Context `{Cgmath} `{Timers} (senders : Entity -> option (GameEntity * bool)).

(** The events on one entity, as the identifiers of the attackers and the damage. *)
Definition attacker_of (e : DamageReceiveEvent) : Z :=
  match senders e.(source).(entity) with Some (g, _) => g.(unique_id) | None => 0 end.
Definition hits_on (v : Entity) (events : list DamageReceiveEvent) : list (Z * Z) :=
  map (fun e => (attacker_of e, e.(amount))) (List.filter (fun e => e.(hit_target).(entity) =? v) events).

(** One entity suffers hits, in order. *)
Fixpoint suffer (invincible : bool) (hits : list (Z * Z)) (h : Health) (d : DamageReceiver)
    : Health * DamageReceiver :=
  match hits with
  | [] => (h, d)
  | (source, amount) :: hits =>
      let '(_, h, d) := Progress.handle_damage source amount invincible h d in suffer invincible hits h d
  end.

Lemma suffer_dead invincible hits h d : is_dead h = true -> suffer invincible hits h d = (h, d).
Proof.
  intros Hd. induction hits as [|[s a] hits IH]; [reflexivity|]. cbn [suffer]. unfold Progress.handle_damage.
  rewrite Hd. exact IH.
Qed.

Definition dead_state_of (r : Receiver) : Change := if r.(r_player) then new_player else new_monster.
Definition deaths_of (v : Entity) (deaths : list EntityDeath) : list EntityDeath :=
  List.filter (fun d => d.(died).(entity) =? v) deaths.

(** What becomes of an entity that suffers hits, and whether it dies of them. *)
Definition dies_of (hits : list (Z * Z)) (r : Receiver) : bool :=
  negb (is_dead r.(r_health)) && is_dead (suffer r.(r_invincible) hits r.(r_health) r.(r_damage)).1.
Definition after_hits (hits : list (Z * Z)) (r : Receiver) : Receiver :=
  let '(h, d) := suffer r.(r_invincible) hits r.(r_health) r.(r_damage) in
  {| r_health := h;
     r_queue := if dies_of hits r then request_transition (dead_state_of r) r.(r_queue) else r.(r_queue);
     r_damage := d; r_player := r.(r_player); r_client := r.(r_client); r_invincible := r.(r_invincible) |}.

Lemma after_no_hits r : after_hits [] r = r.
Proof. unfold after_hits, dies_of. cbn. destruct (is_dead _); cbn; destruct r; reflexivity. Qed.

Lemma after_hits_dead hits r : is_dead r.(r_health) = true -> after_hits hits r = r /\ dies_of hits r = false.
Proof.
  intros Hd. unfold after_hits, dies_of. rewrite suffer_dead, Hd by exact Hd. destruct r. split; reflexivity.
Qed.

(** One hit more in front. *)
Lemma after_hits_cons hit hits r :
  after_hits (hit :: hits) r = after_hits hits (after_hits [hit] r)
  /\ dies_of (hit :: hits) r = dies_of [hit] r || dies_of hits (after_hits [hit] r).
Proof.
  destruct (is_dead (r_health r)) eqn:Ed.
  { destruct (after_hits_dead [hit] r Ed) as [-> ->], (after_hits_dead hits r Ed) as [-> ->],
      (after_hits_dead (hit :: hits) r Ed) as [-> ->]. auto. }
  destruct hit as [s a]. unfold after_hits, dies_of. cbn [suffer]. rewrite Ed. cbn [negb andb].
  destruct (Progress.handle_damage s a _ _ _) as [[o h] d] eqn:E. cbn [fst r_health r_damage r_invincible].
  destruct (is_dead h) eqn:Eh.
  - rewrite !suffer_dead by exact Eh. cbn. rewrite ?Eh. auto.
  - cbn [negb andb orb]. destruct (suffer _ hits h d) as [h' d']. cbn. rewrite ?Eh. split; reflexivity.
Qed.

Definition is_killing (o : DamageOutcome) : bool := match o with KillingBlow _ => true | _ => false end.

Lemma one_hit s a r :
  let '(o, h, d) := Progress.handle_damage s a r.(r_invincible) r.(r_health) r.(r_damage) in
  dies_of [(s, a)] r = is_killing o
  /\ after_hits [(s, a)] r =
       {| r_health := h; r_queue := if is_killing o then request_transition (dead_state_of r) r.(r_queue) else r.(r_queue);
          r_damage := d; r_player := r.(r_player); r_client := r.(r_client); r_invincible := r.(r_invincible) |}.
Proof.
  unfold after_hits, dies_of. cbn [suffer]. unfold Progress.handle_damage.
  destruct (is_dead (r_health r)) eqn:Ed; [auto|]. cbn [negb andb fst].
  destruct (is_dead (reduce _ (r_health r))); auto.
Qed.

Lemma event_accounted e receivers ps deaths receivers' v :
  handle_damage_event senders e receivers = Ok (ps, deaths, receivers') ->
  receivers' !! v = after_hits (hits_on v [e]) <$> receivers !! v
  /\ length (deaths_of v deaths)
     = match receivers !! v with Some r => Nat.b2n (dies_of (hits_on v [e]) r) | None => O end.
Proof.
  unfold handle_damage_event, hits_on. cbn [List.filter]. destruct (Z.eqb_spec (hit_target e).(entity) v) as [<-|Hv].
  - unfold attacker_of. cbn [map]. destruct (receivers !! _) as [r|] eqn:Er; [|intros [= <- <- <-]; rewrite Er; auto].
    destruct (senders _) as [[g c]|] eqn:Es; [|discriminate].
    pose proof (one_hit g.(unique_id) e.(amount) r) as H1.
    destruct (Progress.handle_damage _ _ _ _ _) as [[o h] d] eqn:Eh. destruct H1 as [Hdie Hafter].
    cbn [fmap option_fmap option_map]. rewrite Hafter, Hdie. destruct o as [|n|n]; intros [= <- <- <-]; cbn [is_killing Nat.b2n].
    + rewrite Er. unfold Progress.handle_damage in Eh. destruct (is_dead _); [|destruct (is_dead _); discriminate].
      injection Eh as <- <-. destruct r; auto.
    + rewrite lookup_insert_eq. auto.
    + rewrite lookup_insert_eq. cbn. rewrite Z.eqb_refl. auto.
  - cbn [map]. assert (Hk : (after_hits [] <$> receivers !! v) = receivers !! v)
      by (destruct (receivers !! v); cbn [fmap option_fmap option_map]; rewrite ?after_no_hits; reflexivity).
    rewrite Hk. assert (Hz : match receivers !! v with Some r => Nat.b2n (dies_of [] r) | None => O end = O).
    { destruct (receivers !! v) as [r|]; [|reflexivity]. unfold dies_of. cbn. destruct (is_dead _); reflexivity. }
    rewrite Hz. apply Z.eqb_neq in Hv as Hvb.
    destruct (receivers !! (hit_target e).(entity)) as [r|]; [|intros [= <- <- <-]; auto].
    destruct (senders _) as [[g c]|]; [|discriminate].
    destruct (Progress.handle_damage _ _ _ _ _) as [[[|n|n] h] d]; intros [= <- <- <-]; cbn;
      rewrite ?lookup_insert_ne, ?Hvb by congruence; auto.
Qed.

(** C22: A fight is accounted for entity by entity: whatever the order of the
    events of a tick, each entity suffers exactly the ones aimed at it, in
    their order, as if it was alone, keeps who hurt it by how much until it
    dies, and when it dies of them its death is announced once and it is
    requested to be dead once. *)
Theorem fight_accounted events receivers ps deaths receivers' v
    (Hrun : handle_damage senders events receivers = Ok (ps, deaths, receivers')) :
  receivers' !! v = after_hits (hits_on v events) <$> receivers !! v
  /\ length (deaths_of v deaths)
     = match receivers !! v with Some r => Nat.b2n (dies_of (hits_on v events) r) | None => O end.
Proof.
  revert receivers ps deaths receivers' Hrun. induction events as [|e events IH]; intros receivers ps deaths receivers' Hrun.
  - injection Hrun as <- <- <-. destruct (receivers !! v) as [r|]; [|auto]. cbn [fmap option_fmap option_map].
    change (hits_on v []) with (@nil (Z * Z)). rewrite after_no_hits. unfold dies_of. cbn. destruct (is_dead _); auto.
  - cbn [handle_damage] in Hrun. apply bind_ok in Hrun as ([[ps1 d1] r1] & H1 & Hrun).
    apply bind_ok in Hrun as ([[ps2 d2] r2] & H2 & Hrun). injection Hrun as <- <- <-. cbn [fst snd] in *.
    destruct (event_accounted _ _ _ _ _ v H1) as [A1 B1]. destruct (IH _ _ _ _ H2) as [A2 B2].
    assert (Hh : hits_on v (e :: events) = hits_on v [e] ++ hits_on v events)
      by (unfold hits_on; cbn [List.filter]; destruct (_ =? v); reflexivity).
    unfold deaths_of in *. rewrite List.filter_app, length_app, B1, B2, A2, A1, Hh.
    destruct (receivers !! v) as [r|]; cbn [fmap option_fmap option_map]; [|auto].
    assert (Hs : hits_on v [e] = [] \/ exists hit, hits_on v [e] = [hit])
      by (unfold hits_on; cbn [List.filter]; destruct (_ =? v); cbn; eauto).
    destruct Hs as [-> |[hit ->]]; cbn [app].
    + rewrite after_no_hits. unfold dies_of at 1. cbn. destruct (is_dead (r_health r)); auto.
    + destruct (after_hits_cons hit (hits_on v events) r) as [-> ->]. split; [reflexivity|].
      destruct (dies_of [hit] r) eqn:E1; [|reflexivity]. cbn [orb Nat.b2n].
      assert (Hdead : is_dead (r_health (after_hits [hit] r)) = true).
      { unfold dies_of in E1. apply andb_true_iff in E1 as [_ E1]. unfold after_hits. destruct (suffer _ _ _ _). exact E1. }
      rewrite (proj2 (after_hits_dead _ _ Hdead)). reflexivity.
Qed.
(** The system only panics on a hit by an entity that has gone. *)
Lemma event_panics e receivers :
  handle_damage_event senders e receivers = Panic
  <-> is_Some (receivers !! e.(hit_target).(entity)) /\ senders e.(source).(entity) = None.
Proof.
  unfold handle_damage_event. destruct (receivers !! _) as [r|]; [|split; [discriminate|intros [[? ?] _]; discriminate]].
  destruct (senders _) as [[g c]|]; [|split; [eauto|reflexivity]].
  destruct (Progress.handle_damage _ _ _ _ _) as [[[] h] d]; split; try discriminate; intros [_ ?]; discriminate.
Qed.

(** ** Experience *)

(** The attackers whose hits found the entity alive. *)
Fixpoint effective (invincible : bool) (hits : list (Z * Z)) (h : Health) : list Z :=
  match hits with
  | [] => []
  | (source, amount) :: hits =>
      if is_dead h then [] else source :: effective invincible hits (reduce (if invincible then 0 else amount) h)
  end.

Lemma record_damage_keys source amount d k :
  is_Some ((record_damage source amount d).(damage_counts) !! k) <-> k = source \/ is_Some (d.(damage_counts) !! k).
Proof.
  unfold record_damage. cbn. destruct (decide (k = source)) as [->|Hn].
  - destruct (damage_counts d !! source) eqn:E; rewrite lookup_insert_eq; split; eauto.
  - destruct (damage_counts d !! source); rewrite lookup_insert_ne by congruence; naive_solver.
Qed.

Lemma suffer_attackers invincible hits h d k :
  is_Some ((suffer invincible hits h d).2.(damage_counts) !! k)
  <-> In k (effective invincible hits h) \/ is_Some (d.(damage_counts) !! k).
Proof.
  revert h d. induction hits as [|[s a] hits IH]; intros h d; [cbn; tauto|]. cbn [suffer effective].
  destruct (is_dead h) eqn:Ed.
  - unfold Progress.handle_damage. rewrite Ed, suffer_dead by exact Ed. cbn. tauto.
  - unfold Progress.handle_damage. rewrite Ed. replace (if negb invincible then a else 0) with (if invincible then 0 else a)
      by (destruct invincible; reflexivity).
    rewrite IH, record_damage_keys. cbn [In]. intuition congruence.
Qed.

Lemma filter_flat_map {A B} (p : B -> bool) (f : A -> list B) l :
  List.filter p (flat_map f l) = flat_map (fun x => List.filter p (f x)) l.
Proof. induction l as [|x l IH]; [reflexivity|]. cbn. rewrite List.filter_app, IH. reflexivity. Qed.

Lemma flat_map_unique {A} (f : Z -> list A) k l :
  NoDup l -> (forall x, x <> k -> f x = []) -> flat_map f l = if existsb (Z.eqb k) l then f k else [].
Proof.
  intros Hl Hf. induction Hl as [|x l Hx Hl IH]; [reflexivity|]. cbn. rewrite IH. destruct (Z.eqb_spec k x) as [->|Hn]; cbn.
  - replace (existsb (Z.eqb x) l) with false; [apply app_nil_r|]. symmetry. apply not_true_is_false.
    intros He. apply existsb_exists in He as (y & Hy & E). apply Z.eqb_eq in E as <-. apply Hx, list_elem_of_In, Hy.
  - rewrite Hf by congruence. reflexivity.
Qed.

Section Rewards.
Context (attacker_order : gmap Z Z -> list Z) (lookup : EntityLookup) (places : Entity -> option (GameEntity * Position)).
Context (Horder : forall m, Permutation (attacker_order m) (map fst (map_to_list m))).
Context (Hids : forall i j x, get_entity_for_id lookup i = Some x -> get_entity_for_id lookup j = Some x -> i = j).

(** The damage of the entities after the hits, and where they are. *)
Definition dead_query (receivers : gmap Entity Receiver) (e : Entity) : option (DamageReceiver * Position) :=
  r ← receivers !! e; p ← places e; Some (r.(r_damage), p.2).

(** The experience one entity is given for the death of another one. *)
Definition rewards (x v : Entity) (events : list ReceiveExperienceEvent) : list ReceiveExperienceEvent :=
  List.filter (fun ev => (ev.(exp_target).(entity) =? x)
    && bool_decide (option_map entity ev.(exp_source) = Some v)) events.

Lemma rewards_of_death x v id d death_location attackers :
  get_entity_for_id lookup id = Some x -> NoDup attackers -> d.(died).(entity) = v ->
  rewards x v (flat_map (experience_for lookup places d death_location) attackers)
  = if existsb (Z.eqb id) attackers then experience_for lookup places d death_location id else [].
Proof.
  intros Hx Hnd Hv. unfold rewards. rewrite filter_flat_map, (flat_map_unique _ id) by
    (exact Hnd || (intros a Ha; unfold experience_for; destruct (get_entity_for_id lookup a) as [y|] eqn:Ey; [|reflexivity];
       destruct (places y) as [[g p]|]; [|reflexivity]; destruct (fleb _ _); [|reflexivity]; cbn;
       destruct (Z.eqb_spec y x) as [->|]; [exfalso; apply Ha, (Hids a id x Ey Hx)|reflexivity])).
  destruct (existsb _ _); [|reflexivity]. unfold experience_for. rewrite Hx. destruct (places x) as [[g p]|]; [|reflexivity].
  destruct (fleb _ _); [|reflexivity]. cbn. rewrite Z.eqb_refl, Hv, bool_decide_true by reflexivity. reflexivity.
Qed.

Lemma rewards_of_others x v d death_location attackers :
  d.(died).(entity) <> v -> rewards x v (flat_map (experience_for lookup places d death_location) attackers) = [].
Proof.
  intros Hv. unfold rewards. rewrite filter_flat_map. induction attackers as [|a l IH]; [reflexivity|]. cbn. rewrite IH, app_nil_r.
  unfold experience_for. destruct (get_entity_for_id lookup a) as [y|]; [|reflexivity]. destruct (places y) as [[g p]|]; [|reflexivity].
  destruct (fleb _ _); [|reflexivity]. cbn. rewrite bool_decide_false by congruence. rewrite andb_false_r. reflexivity.
Qed.

Lemma rewards_of_deaths x v (per : EntityDeath -> list ReceiveExperienceEvent) deaths :
  (forall d, d.(died).(entity) <> v -> rewards x v (per d) = []) ->
  rewards x v (flat_map per deaths) = rewards x v (flat_map per (deaths_of v deaths)).
Proof.
  intros Hper. unfold rewards in *. rewrite !filter_flat_map. induction deaths as [|d l IH]; [reflexivity|]. cbn.
  destruct (Z.eqb_spec (entity (died d)) v) as [E|E]; cbn; rewrite IH; [reflexivity|]. rewrite Hper by exact E. reflexivity.
Qed.

Lemma attackers_distinct m : NoDup (attacker_order m).
Proof. rewrite Horder. apply NoDup_fst_map_to_list. Qed.

Lemma elem_of_attackers m k : In k (attacker_order m) <-> is_Some (m !! k).
Proof.
  rewrite <- list_elem_of_In, Horder. split.
  - intros Hk. apply list_elem_of_fmap in Hk as ([k' a] & -> & Hk). apply elem_of_map_to_list in Hk. eauto.
  - intros [a Ha]. apply list_elem_of_fmap. exists (k, a). split; [reflexivity|]. apply elem_of_map_to_list, Ha.
Qed.

Lemma attackers_effective hits r :
  r.(r_damage) = damage_receiver_default ->
  forall k, In k (attacker_order (after_hits hits r).(r_damage).(damage_counts))
    <-> In k (effective r.(r_invincible) hits r.(r_health)).
Proof.
  intros Hfresh k. rewrite elem_of_attackers. unfold after_hits.
  pose proof (suffer_attackers r.(r_invincible) hits r.(r_health) r.(r_damage) k) as Hs.
  destruct (suffer _ _ _ _) as [h d]. cbn in *. rewrite Hs, Hfresh. cbn. rewrite lookup_empty.
  split; [intros [?|[? ?]]; [assumption|discriminate]|auto].
Qed.

(** C24: Who fights is rewarded, once: of the death of an entity in the events of
    a tick, every other one whose hit found it alive and that is near it then
    is given 100 experience and skill experience, in one event; whoever did
    not hit it, or only after its death, or is too far away is given nothing. *)
Theorem fighters_rewarded events receivers ps deaths receivers' v r g_v death_location x id g position
    (Hrun : handle_damage senders events receivers = Ok (ps, deaths, receivers'))
    (Hr : receivers !! v = Some r) (Hfresh : r.(r_damage) = damage_receiver_default)
    (Hdies : dies_of (hits_on v events) r = true) (Hv : places v = Some (g_v, death_location))
    (Hx : get_entity_for_id lookup id = Some x) (Hg : places x = Some (g, position)) :
  exists d, d.(entity) = v
    /\ rewards x v (distribute_experience attacker_order lookup (dead_query receivers') places deaths)
       = if existsb (Z.eqb id) (effective r.(r_invincible) (hits_on v events) r.(r_health))
            && fleb (distance_to death_location position) EXP_RECEIVE_RANGE_SQUARED
         then [{| exp_source := Some d; exp_target := {| entity := x; game_entity := g |};
                  exp_amount := 100; sp_amount := 100 |}]
         else [].
Proof.
  destruct (fight_accounted _ _ _ _ _ v Hrun) as [Hafter Hone]. rewrite Hr in Hafter, Hone. rewrite Hdies in Hone.
  destruct (deaths_of v deaths) as [|d [|]] eqn:Ed; try discriminate. clear Hone. exists d.(died).
  assert (Hd : d.(died).(entity) = v).
  { assert (Hin : In d (deaths_of v deaths)) by (rewrite Ed; left; reflexivity). apply filter_In in Hin as [_ Hin]. lia. }
  split; [exact Hd|].
  assert (Hq : dead_query receivers' v = Some ((after_hits (hits_on v events) r).(r_damage), death_location))
    by (unfold dead_query; rewrite Hafter; cbn [fmap option_fmap option_map mbind option_bind]; rewrite Hv; reflexivity).
  set (per d := match dead_query receivers' d.(died).(entity) with
    | Some (damage_distribution, death_location) =>
        flat_map (experience_for lookup places d death_location) (all_attackers attacker_order damage_distribution)
    | None => [] end).
  unfold distribute_experience. fold per. rewrite rewards_of_deaths, Ed.
  2:{ intros d' Hd'. unfold per. destruct (dead_query receivers' d'.(died).(entity)) as [[dd dl]|]; [|reflexivity]. apply rewards_of_others, Hd'. }
  cbn [flat_map]. rewrite app_nil_r. unfold per. rewrite Hd, Hq.
  unfold all_attackers. rewrite (rewards_of_death x v id d) by (exact Hx || exact Hd || apply attackers_distinct).
  replace (existsb (Z.eqb id) (attacker_order _))
    with (existsb (Z.eqb id) (effective (r_invincible r) (hits_on v events) (r_health r))).
  { destruct (existsb _ _); [|reflexivity]. unfold experience_for. rewrite Hx, Hg. reflexivity. }
  apply eq_iff_eq_true. rewrite !existsb_exists.
  pose proof (attackers_effective (hits_on v events) r Hfresh) as Hk. split; intros (k & Hin & E); exists k; (split; [apply Hk, Hin|exact E]).
Qed.
End Rewards.
End Damage.

(** ** Concrete fights *)

Section Examples.

(** Timers that run once: the time left, or [None], and whether the last tick
    finished it. *)
#[local] Instance counting : Timers := {|
  Timer := option Z * bool;
  timer_once n := (Some n, false);
  timer_tick delta t :=
    match t.1 with
    | Some rest => if rest <=? delta then (None, true) else (Some (rest - delta), false)
    | None => (None, false)
    end;
  just_finished t := t.2;
  timer_finished t := match t.1 with Some _ => false | None => true end
|}.

#[local] Instance counting_laws : TimerLaws.
Proof.
  constructor. intros n ds d Hn Hlt.
  assert (E : forall m, ds = [] \/ sumZ ds < m -> fold_left (fun t d => timer_tick d t) ds (timer_once m) = (Some (m - sumZ ds), false)).
  { apply Forall_app in Hn as [Hn _]. clear Hlt. induction Hn as [|e ds He Hn IH]; intros m Hm; [cbn; do 2 f_equal; lia|].
    destruct Hm as [|Hm]; [discriminate|]. pose proof (sumZ_nonneg ds Hn) as Hs. cbn in Hm. fold (sumZ ds) in Hm.
    cbn [fold_left timer_tick timer_once fst]. cbn. rewrite (proj2 (Z.leb_gt _ _)) by lia.
    change (Some (m - e), false) with (timer_once (m - e)). rewrite IH by lia. do 2 f_equal. fold (sumZ ds). lia. }
  unfold ticked. rewrite E by exact Hlt. cbn [timer_tick counting fst just_finished]. rewrite sumZ_app. cbn.
  destruct (Z.leb_spec (n - sumZ ds) d), (Z.leb_spec n (sumZ ds + (d + 0))); reflexivity || lia.
Qed.

#[local] Existing Instance plane.

Definition place (x : Z) : Position :=
  position_new {| x3 := f32_of_Z x; y3 := f32_of_Z 0; z3 := f32_of_Z 0 |} (f32_of_Z 0).
Definition entity_of (e : Z) : EntityReference := {| entity := e; game_entity := {| unique_id := e; ref_id := 1933 |} |}.
Definition no_mesh (r : Region) : option Heightmap := None.

(** Entities 1 and 2 stand two apart. *)
Definition standing (e : Entity) : option Position :=
  if e =? 1 then Some (place 100) else if e =? 2 then Some (place 102) else None.
Definition known_entity (e : Entity) : option GameEntity := if (e =? 1) || (e =? 2) then Some (entity_of e).(game_entity) else None.

Lemma mind_acts_in_reach_witness :
  exists r, enqueue_action [] [] no_mesh (fun f => f) (entity_of 1).(game_entity) true (place 100) None standing
      (attack_with (entity_of 2) a_skill mind_default) [] = Ok r
    /\ requests [] (fun f => f) (entity_of 1).(game_entity) (place 100) None standing
         (Some (ExecuteSkill (entity_of 2) a_skill)) [] r.
Proof.
  eexists. split; [vm_compute; reflexivity|].
  apply (mind_acts_in_reach [] [] no_mesh (fun f => f) (entity_of 1).(game_entity) true (place 100) None standing
           (attack_with (entity_of 2) a_skill mind_default) []).
  left. vm_compute. reflexivity.
Defined.

(** The goal of entity 1, and what it holds. *)
Definition smash : Mind := attack_with (entity_of 2) a_skill mind_default.

Lemma smash_does_not_fail : ~ execution_fails None None known_entity (action_of a_skill (EntityTarget 2)).
Proof.
  intros [H|[H|(inv & c & w & H & _)]]; [vm_compute in H; discriminate| |discriminate].
  apply (H 2 (entity_of 2).(game_entity)); reflexivity.
Qed.

Lemma smash_in_reach :
  fleb (distance_to (place 100) (place 102)) (squared (get_range_for_attack a_skill (reference <$> held None))) = true.
Proof. vm_compute. reflexivity. Qed.

(** Two ticks of 400 ms for the cast, the target turned up before the second. *)
Lemma smash_lasts : lasts (time_of Preparation a_skill) ([] ++ [0]) /\ lasts (time_of Casting a_skill) ([from_millis 400] ++ [from_millis 400])
  /\ lasts (time_of Execution a_skill) ([] ++ [0]) /\ lasts (time_of Teardown a_skill) ([] ++ [5]).
Proof.
  assert (H : forall n ds d, Forall (fun d => 0 <= d) (ds ++ [d]) -> (ds = [] \/ sumZ ds < n) -> n <= sumZ (ds ++ [d]) -> lasts n (ds ++ [d]))
    by (intros n ds d H1 H2 H3; exists ds, d; auto).
  repeat split; apply H; try (left; reflexivity); try (right; vm_compute; reflexivity);
    try (vm_compute; discriminate); repeat apply Forall_cons_2; try apply Forall_nil_2; vm_compute; discriminate.
Qed.

Lemma attack_lands_witness :
  exists q hit,
    enqueue_action [] [] no_mesh (fun f => f) (entity_of 1).(game_entity) true (place 100) None standing smash []
      = Ok (tell true do_success, smash, q)
    /\ transition_stage (rev systems) (only Idle) q = (only (Action (action_of a_skill (EntityTarget 2))), [], [])
    /\ act (entity_of 1) None None (fun low _ => low)
         [(0, known_entity); (from_millis 400, fun _ => None); (from_millis 400, known_entity); (0, fun _ => None); (5, fun _ => None)]
         (action_of a_skill (EntityTarget 2)) 9
       = Ok (None, [hit], u32 (9 + 1))
    /\ hit.(source) = entity_of 1 /\ hit.(hit_target) = {| entity := 2; game_entity := (entity_of 2).(game_entity) |}
    /\ hit.(by_skill) = a_skill /\ hit.(instance) = 9.
Proof.
  destruct smash_lasts as (L1 & L2 & L3 & L4).
  exact (attack_lands [] [] no_mesh (fun f => f) (entity_of 1) None None (fun low _ => low) known_entity true (place 100)
    standing smash (ExecuteSkill (entity_of 2) a_skill) (entity_of 2) a_skill (place 102) (entity_of 2).(game_entity)
    (rev systems) 9 [] [(from_millis 400, fun _ => None)] [] [] 0 (from_millis 400) 0 5 known_entity (fun _ => None) (fun _ => None)
    eq_refl eq_refl eq_refl smash_in_reach eq_refl smash_does_not_fail
    (or_introl eq_refl) (Permutation_sym (Permutation_rev systems)) L1 L2 L3 L4).
Defined.

(** Entity 1 hits entity 2 twice, the second hit kills it. *)
Definition blow (e n : Z) : DamageReceiveEvent :=
  {| source := entity_of e; hit_target := entity_of 2; by_skill := a_skill; instance := 0; amount := n |}.
Definition patient (h : Z) : Receiver :=
  {| r_health := health_new h; r_queue := []; r_damage := damage_receiver_default; r_player := false;
     r_client := false; r_invincible := false |}.
Definition fighters (e : Entity) : option (GameEntity * bool) := Some ((entity_of e).(game_entity), true).
Definition blows : list DamageReceiveEvent := [blow 1 30; blow 3 80; blow 4 10].

Lemma fight_accounted_witness :
  exists ps deaths receivers', handle_damage fighters blows {[ 2 := patient 100 ]} = Ok (ps, deaths, receivers')
    /\ receivers' !! 2 = Some (after_hits (hits_on fighters 2 blows) (patient 100)) /\ length (deaths_of 2 deaths) = 1%nat.
Proof.
  destruct (handle_damage fighters blows {[ 2 := patient 100 ]}) as [[[ps deaths] receivers']|e|] eqn:E;
    [|vm_compute in E; discriminate..].
  exists ps, deaths, receivers'. split; [reflexivity|].
  destruct (fight_accounted fighters blows _ ps deaths receivers' 2 E) as [H1 H2].
  rewrite lookup_singleton_eq in H1, H2. split; [exact H1|exact H2].
Defined.

Definition ids_of (m : gmap Z Z) : list Z := map fst (map_to_list m).
Definition everyone : EntityLookup := {| player_map := ∅; id_map := list_to_map [(1, 1); (2, 2); (3, 3); (4, 4)] |}.
Definition everywhere (e : Entity) : option (GameEntity * Position) := Some ((entity_of e).(game_entity), place 100).

Lemma everyone_ids i x : get_entity_for_id everyone i = Some x -> i = x.
Proof.
  unfold get_entity_for_id, everyone. cbn [id_map]. intros Hi. apply elem_of_list_to_map_2, list_elem_of_In in Hi.
  repeat (destruct Hi as [[= <- <-]|Hi]; [reflexivity|]). destruct Hi.
Qed.

(** The killer is rewarded, whoever came later is not. *)
Lemma fighters_rewarded_witness :
  exists ps deaths receivers', handle_damage fighters blows {[ 2 := patient 100 ]} = Ok (ps, deaths, receivers')
    /\ (exists d, d.(entity) = 2
        /\ rewards 3 2 (distribute_experience ids_of everyone (dead_query everywhere receivers') everywhere deaths)
           = [{| exp_source := Some d; exp_target := entity_of 3; exp_amount := 100; sp_amount := 100 |}])
    /\ rewards 4 2 (distribute_experience ids_of everyone (dead_query everywhere receivers') everywhere deaths) = [].
Proof.
  destruct (handle_damage fighters blows {[ 2 := patient 100 ]}) as [[[ps deaths] receivers']|e|] eqn:E;
    [|vm_compute in E; discriminate..].
  exists ps, deaths, receivers'. split; [reflexivity|].
  assert (Hids : forall i j x, get_entity_for_id everyone i = Some x -> get_entity_for_id everyone j = Some x -> i = j)
    by (intros i j x Hi Hj; rewrite (everyone_ids i x Hi), (everyone_ids j x Hj); reflexivity).
  pose proof (fun x Hx => fighters_rewarded fighters ids_of everyone everywhere (fun m => Permutation_refl _) Hids blows
    {[ 2 := patient 100 ]} ps deaths receivers' 2 (patient 100) (entity_of 2).(game_entity) (place 100) x x
    (entity_of x).(game_entity) (place 100) E (lookup_singleton_eq _ _) eq_refl eq_refl eq_refl Hx eq_refl) as H.
  split; [exact (H 3 eq_refl)|]. destruct (H 4 eq_refl) as (d & _ & H4). exact H4.
Defined.

(** ** Departures *)

(** A skill without an attack, which anybody can ask to use. *)
Definition a_buff : RefSkillData :=
  {| skill_ref_id := 77; group := 2; skill_id := []; original := None; skill_level := 1; skill_type := ActionSkill;
     next_in_chain := None; timings := SkillData.timings a_skill; projectile_speed := 0; buff_interference := 0;
     auto_attack := auto_attack a_skill; skill_range := 6; requires_target := true; target := ALLY; mastery := None;
     mastery_level := None; required_skills := []; SkillData.sp := 0; SkillData.race := 0; weapon_requirements := (None, None);
     consumed_hp := 0; consumed_mp := 0; usage_chance := 100; usage_type := 0; skill_params_of := [SkillData.Duration 5000] |}.

(** A single request of a client stops the server: to use a skill without an
    attack on anything in reach, which does not have to be learned. *)
Lemma request_stops_server :
  let '(answers, mind) := handle_action [a_buff] everyone known_entity (fun _ => None)
    (Some (Do (UseSkill 77 (TargetEntity 2)))) mind_default in
  answers = []
  /\ exists q, enqueue_action [a_buff] [] no_mesh (fun f => f) (entity_of 1).(game_entity) true (place 100) None standing mind []
      = Ok ([do_success], mind, q)
    /\ transition_stage systems (only Idle) q = (only (Action (action_of a_buff (EntityTarget 2))), [], [])
    /\ act (entity_of 1) None None (fun low _ => low) [(0, known_entity); (from_millis 700, known_entity)] (action_of a_buff (EntityTarget 2)) 0
       = Panic.
Proof. split; [reflexivity|]. eexists. repeat split; vm_compute; reflexivity. Qed.

(** So does the target of an attack leaving the world while it is cast, and a
    default attack with a weapon that has none. *)
Lemma gone_target_stops_server :
  act (entity_of 1) None None (fun low _ => low) [(0, fun _ => None); (from_millis 700, fun _ => None)] (action_of a_skill (EntityTarget 2)) 0
  = Panic.
Proof. vm_compute. reflexivity. Qed.

Definition hammer : Item :=
  {| reference := item_row 5 (TypeId.type_id (Type_Item (Item_Equippable (Equip_Weapon ObjectWeaponType_FortressHammer)))) 1 None;
     variance := None; type_data := Equipment 0 |}.

Lemma hammer_stops_server :
  enqueue_action [a_skill] [] no_mesh (fun f => f) (entity_of 1).(game_entity) true (place 100)
    (Some (inventory_of [(6, hammer)])) standing (attack (entity_of 2) mind_default) [] = Panic.
Proof. vm_compute. reflexivity. Qed.

(** Who left after a hit, before the damage is handled, stops it as well. *)
Lemma gone_attacker_stops_server :
  handle_damage (fun _ => None) [blow 1 30] {[ 2 := patient 100 ]} = Panic.
Proof. vm_compute. reflexivity. Qed.

(** Two players who pick the same item up in one tick both receive it. *)
Definition at_pickup : Picker :=
  {| p_pickup := Some (9, None); p_idle := false; p_inventory := inventory_of []; p_gold := MkGoldPouch 0 |}.
Definition a_drop (i : Item) (e : Entity) : found Drop :=
  if e =? 9 then Found {| owner := None; drop_item := i |} else NoSuchEntity.

Lemma drop_duplicated :
  let '(despawned, ps) := pickups slots_of 0 (a_drop a_sword) [at_pickup; at_pickup] in
  despawned = [9; 9] /\ map (fun r => map_to_list r.2.(p_inventory).(items)) ps = [[(13, a_sword)]; [(13, a_sword)]].
Proof. vm_compute. auto. Qed.

(** Equipment picked up with a full inventory is gone, without an answer. *)
Lemma drop_destroyed :
  let full := {| p_pickup := Some (9, None); p_idle := false;
                 p_inventory := inventory_of (map (fun k => (k, a_sword)) (seqZ 13 32)); p_gold := MkGoldPouch 0 |} in
  let '(answers, despawned, p) := pickup slots_of 0 (a_drop a_sword) full in
  answers = [] /\ despawned = Some 9 /\ p.(p_inventory) = full.(p_inventory).
Proof. vm_compute. auto. Qed.

(** A player that is selected is not answered, though the target is set. *)
Lemma selected_player_unanswered :
  set_target everyone (fun _ => Some {| t_position := place 102; t_health := Some (health_new 100); t_monster := false;
    t_npc := false; t_player := true |}) (place 100) 2 = ([], Some 2).
Proof. vm_compute. reflexivity. Qed.

End Examples.
