(* ===== verification/Accounts.v ===== *)
(** Accounts: the tables of the migrations that hold users, servers and news;
    silkroad-gateway/src/login.rs, and agent/src/db/user.rs and server.rs; and
    silkroad-rpc/src/lib.rs: the calls between the gateway and the agents, and
    the interface under which the gateway makes them.

    A query is the function its statement computes on the tables. The gateway
    panics the task of a connection when a query fails; that is left out. *)
From stdpp Require Import base list option strings gmap.
From Stdlib Require Import ZArith Lia.
From S2P Require Import Prelude Utf Text F32 Population Characters.

(** ** The tables *)

Record UserRow := { user_id : Z; username : list Z; password : list Z; passcode : option (list Z) }.

Record UserServer := {
  us_user : Z;
  us_server : Z;
  us_job : Z;
  us_premium_type : Z;
  us_premium_end : option Z;
}.

Record ServerRow := {
  srv_id : Z;
  identifier : Z;
  srv_name : list Z;
  srv_region : list Z;
  srv_address : list Z;
  srv_port : Z;
  srv_token : list Z;
  srv_rpc_address : list Z;
  srv_rpc_port : Z;
}.

Record NewsRow := { title : list Z; body : list Z; date : Z; visible : bool }.

Record Tables := {
  users : list UserRow;
  next_user : Z;
  user_servers : list UserServer;
  servers : list ServerRow;
  next_server : Z;
  news_rows : list NewsRow;
  database : Database;
}.

Definition with_users (us : list UserRow) (next : Z) (t : Tables) : Tables :=
  {| users := us; next_user := next; user_servers := t.(user_servers); servers := t.(servers);
     next_server := t.(next_server); news_rows := t.(news_rows); database := t.(database) |}.
Definition with_user_servers (us : list UserServer) (t : Tables) : Tables :=
  {| users := t.(users); next_user := t.(next_user); user_servers := us; servers := t.(servers);
     next_server := t.(next_server); news_rows := t.(news_rows); database := t.(database) |}.
Definition with_servers (ss : list ServerRow) (next : Z) (t : Tables) : Tables :=
  {| users := t.(users); next_user := t.(next_user); user_servers := t.(user_servers); servers := ss;
     next_server := next; news_rows := t.(news_rows); database := t.(database) |}.
Definition with_database (d : Database) (t : Tables) : Tables :=
  {| users := t.(users); next_user := t.(next_user); user_servers := t.(user_servers); servers := t.(servers);
     next_server := t.(next_server); news_rows := t.(news_rows); database := d |}.

(** ** login.rs *)

(** The crate bcrypt: [verify] of a password against a hash, which fails on a
    malformed hash, and [hash] with the salt it draws. *)
Class Bcrypt := {
  verify : list Z -> list Z -> option bool;
  hash : Z -> list Z -> option (list Z)
}.

Inductive LoginResult := Success (id : Z) | MissingPasscode | InvalidCredentials | Blocked.
Inductive RegistrationResult := Registered | UsernameTaken | DatabaseError.
Inductive SetGmResult := GmSet | GmDatabaseError | UserNotFound.

Section LoginProvider.
Context `{Bcrypt}.

Definition verified (given stored : list Z) : bool := default false (verify given stored).

Definition user_named (name : list Z) (r : UserRow) : bool := bool_decide (r.(username) = name).

Definition try_login (name given : list Z) (t : Tables) : LoginResult :=
  match List.find (user_named name) t.(users) with
  | Some result =>
      if negb (verified given result.(password)) then InvalidCredentials
      else match result.(passcode) with Some _ => MissingPasscode | None => Success result.(user_id) end
  | None => InvalidCredentials
  end.

Definition try_login_passcode (name given code : list Z) (t : Tables) : LoginResult :=
  match List.find (fun r => user_named name r && bool_decide (r.(passcode) = Some code)) t.(users) with
  | Some r => if verified given r.(password) then Success r.(user_id) else InvalidCredentials
  | None => InvalidCredentials
  end.

(** [INSERT], which the unique name of [user_username_unique] can refuse. *)
Definition insert_user (name hashed : list Z) (code : option (list Z)) (t : Tables) : option Tables :=
  if existsb (user_named name) t.(users) then None
  else Some (with_users (t.(users) ++ [{| user_id := t.(next_user); username := name; password := hashed;
                                          passcode := code |}]) (t.(next_user) + 1) t).

(** [register], with what happens to the tables between its two statements. *)
Definition register (name given : list Z) (code : option (list Z)) (salt : Z) (meanwhile : Tables -> Tables)
    (t : Tables) : outcome unit RegistrationResult * Tables :=
  match List.find (user_named name) t.(users) with
  | Some _ => (Ok UsernameTaken, t)
  | None =>
      match hash salt given with
      | None => (Panic, meanwhile t)
      | Some hashed =>
          match insert_user name hashed code (meanwhile t) with
          | Some t => (Ok Registered, t)
          | None => (Ok DatabaseError, meanwhile t)
          end
      end
  end.
End LoginProvider.

Definition with_gm (g : bool) (c : CharacterData) : CharacterData :=
  {| data_id := c.(data_id); Characters.user_id := c.(Characters.user_id); server_id := c.(server_id);
     charname := c.(charname); db_race := c.(db_race); character_type := c.(character_type);
     db_scale := c.(db_scale); db_level := c.(db_level); db_max_level := c.(db_max_level); db_exp := c.(db_exp);
     db_sp := c.(db_sp); db_sp_exp := c.(db_sp_exp); strength := c.(strength); intelligence := c.(intelligence);
     db_stat_points := c.(db_stat_points); db_current_hp := c.(db_current_hp);
     db_current_mp := c.(db_current_mp); deletion_end := c.(deletion_end); pos_x := c.(pos_x); pos_y := c.(pos_y);
     pos_z := c.(pos_z); db_rotation := c.(db_rotation); db_region := c.(db_region);
     db_berserk_points := c.(db_berserk_points); db_gold := c.(db_gold);
     db_beginner_mark := c.(db_beginner_mark); db_gm := g; last_logout := c.(last_logout) |}.

Definition set_gm (character_name : list Z) (g : bool) (t : Tables) : SetGmResult * Tables :=
  let named c := bool_decide (c.(charname) = character_name) in
  match List.find named t.(database).(characters) with
  | None => (UserNotFound, t)
  | Some _ => (GmSet, with_database (update_where named (with_gm g) t.(database)).2 t)
  end.

(** ** db/user.rs *)

(** [ServerUser::fetch]; the insertion fails if the server is not the id of a
    row of [servers] ([user_servers_servers_id_fk]). *)
Definition fetch (id server : Z) (t : Tables) : outcome unit (option ServerUser) * Tables :=
  match List.find (fun r => r.(user_id) =? i32 id) t.(users) with
  | None => (Ok None, t)
  | Some user =>
      match List.find (fun r => (r.(us_user) =? i32 id) && (r.(us_server) =? server)) t.(user_servers) with
      | Some data =>
          (Ok (Some {| Population.id := i32 id; Population.username := user.(username); job := data.(us_job);
                       premium_type := data.(us_premium_type); premium_end := data.(us_premium_end) |}), t)
      | None =>
          if existsb (fun s => s.(srv_id) =? server) t.(servers) then
            (Ok (Some {| Population.id := i32 id; Population.username := user.(username); job := 0;
                         premium_type := 0; premium_end := None |}),
             with_user_servers (t.(user_servers) ++ [{| us_user := i32 id; us_server := server; us_job := 0;
                                                        us_premium_type := 0; us_premium_end := None |}]) t)
          else (Err tt, t)
      end
  end.

(** The number of users of a job, hunters first. *)
Definition fetch_job_distribution (shard : Z) (t : Tables) : Z * Z :=
  let count j := u32 (Z.of_nat (length (List.filter (fun r =>
    (r.(us_job) =? j) && (r.(us_server) =? shard)) t.(user_servers)))) in
  (count 2, count 1).

(** ** db/server.rs *)

(** [varchar] columns refuse longer texts. *)
Definition server_fits (r : ServerRow) : bool :=
  let within n (s : list Z) := (length s <=? n)%nat in
  within 255%nat r.(srv_name) && within 3%nat r.(srv_region) && within 255%nat r.(srv_address)
  && within 255%nat r.(srv_token) && within 255%nat r.(srv_rpc_address).

(** [ServerRegistration::setup]: a row of the identifier is updated and keeps
    its id; the sequence of ids advances anyway. *)
Definition setup (server : Z) (name region address : list Z) (port : Z) (rpc_address : list Z) (rpc_port : Z)
    (token : list Z) (t : Tables) : outcome unit unit * Tables :=
  let row id := {| srv_id := id; identifier := i16 server; srv_name := name; srv_region := region;
                   srv_address := address; srv_port := i16 port; srv_token := token;
                   srv_rpc_address := rpc_address; srv_rpc_port := i16 rpc_port |} in
  if negb (server_fits (row t.(next_server))) then (Err tt, t)
  else
    let mine r := r.(identifier) =? i16 server in
    (Ok tt,
     if existsb mine t.(servers)
     then with_servers (map (fun r => if mine r then row r.(srv_id) else r) t.(servers)) (t.(next_server) + 1) t
     else with_servers (t.(servers) ++ [row t.(next_server)]) (t.(next_server) + 1) t).

(** ** silkroad-rpc/src/lib.rs *)

Inductive ServerPopulation := Full | Crowded | Populated | Easy.

Definition u8_of_population (p : ServerPopulation) : Z :=
  match p with Full => 0 | Crowded => 1 | Populated => 2 | Easy => 3 end.

Definition population_of_f32 (value : f32) : ServerPopulation :=
  if fltb value (f32_of_decimal false 25 (-2)) then Easy
  else if fltb value (f32_of_decimal false 6 (-1)) then Populated
  else if fltb value (f32_of_decimal false 98 (-2)) then Crowded
  else Full.

Record ServerStatusReport := { healthy : bool; population : ServerPopulation }.

Record ReserveRequest := { request_user : Z; request_username : list Z }.

Inductive ReserveResponse :=
| Reserved (token alive : Z)
| NotFound
| NoSpot
| Duplicate
| RequestError (message : list Z).

(** What happens to a call: it is delivered, or it fails before or after it
    was; with the clock readings and the draws of the other side. *)
Inductive Transport := Delivered | LostRequest | LostResponse.

Record Call := { transport : Transport; handled_at : Z; reserved_at : Z; draws : nat -> Z }.

(** A report, no connection, or another error. *)
Inductive StatusResult := Report (r : ServerStatusReport) | NotAccessible | OtherError.

(** The agents as the gateway sees them: a status by address, and requests to
    reserve a spot, which work on the tables they share. *)
Class AgentRpc (A : Type) := {
  get_status : Transport -> list Z -> A -> StatusResult;
  post_request : Call -> list Z -> list Z -> ReserveRequest -> Tables * A -> option ReserveResponse * (Tables * A)
}.
