(* ===== verification/Gateway.v ===== *)
(** silkroad-gateway/src: the patcher (patch.rs), the news (news.rs), the list of
    agent servers (agentserver.rs), the connection of a client (client.rs), and
    the settings and commands of the program (main.rs, config.rs, cli.rs).

    A connection is the sequence of what its reader yields; the body of its loop
    is a function of the state of the gateway, so that several connections are
    interleaved by interleaving the bodies. *)
From stdpp Require Import base list option strings gmap.
From Stdlib Require Import ZArith Lia.
From S2P Require Import Prelude Utf Text Serde Schema ProtoGeneral ProtoLogin Packets Security Stream.
From S2P Require Import Accounts.

(** ** patch.rs *)

Record PatchConfig := {
  remote_url : list Z;
  dir : list Z;
  expected_client_version : Z;
  minimum_client_version : Z;
}.

Inductive Patcher :=
| AcceptAll
| AcceptMatching (min current : Z) (patch_dir remote : list Z).

Inductive PatchInformation :=
| UpToDate
| RequiresUpdate (files : val) (target_version : Z) (host : list Z)
| Outdated.

Definition patcher_new (c : PatchConfig) : Patcher :=
  AcceptMatching c.(minimum_client_version) c.(expected_client_version) c.(dir) c.(remote_url).
Definition allow_all : Patcher := AcceptAll.

(** [todo!()] *)
Definition get_patches_for (p : Patcher) (version : Z) : outcome unit val := Panic.

Definition get_patch_information (p : Patcher) (version : Z) : outcome unit PatchInformation :=
  match p with
  | AcceptAll => Ok UpToDate
  | AcceptMatching min current _ remote =>
      if version =? current then Ok UpToDate
      else if (version <? current) && (min <=? version) then
        files ← get_patches_for p version; Ok (RequiresUpdate files current remote)
      else Ok Outdated
  end.

(** ** news.rs *)

Record News := { news_title : list Z; news_body : list Z; news_date : Z }.

Record NewsCache := { cache_time : Z; cached : list News; last_cache_time : Z }.

(** [ORDER BY date ASC], of equal dates in the order of the table. *)
Fixpoint insert_by_date (r : NewsRow) (l : list NewsRow) : list NewsRow :=
  match l with
  | [] => [r]
  | x :: l' => if r.(date) <=? x.(date) then r :: l else x :: insert_by_date r l'
  end.
Definition order_by_date (l : list NewsRow) : list NewsRow := fold_right insert_by_date [] l.

Definition load_available_news (t : Tables) : list News :=
  map (fun r => {| news_title := r.(title); news_body := r.(body); news_date := r.(date) |})
    (order_by_date (List.filter visible t.(news_rows))).

Definition news_new (cache_time now : Z) (t : Tables) : NewsCache :=
  {| cache_time := cache_time; cached := load_available_news t; last_cache_time := now |}.

Definition should_refresh (now : Z) (c : NewsCache) : bool := c.(cache_time) <? now - c.(last_cache_time).

Definition get_news (now : Z) (t : Tables) (c : NewsCache) : list News * NewsCache :=
  let c := if should_refresh now c
           then {| cache_time := c.(cache_time); cached := load_available_news t;
                   last_cache_time := c.(last_cache_time) |}
           else c in
  (c.(cached), c).

(** ** agentserver.rs *)

Inductive ServerRegion := US | EU | KR.
Inductive ServerStatus := Online | Offline.

Definition region_from (s : list Z) : outcome unit ServerRegion :=
  if bool_decide (s = chars "EU") then Ok EU
  else if bool_decide (s = chars "US") then Ok US
  else if bool_decide (s = chars "KR") then Ok KR
  else Panic.
Definition char_of_region (r : ServerRegion) : Z := match r with US => 0x32 | EU => 0x31 | KR => 0x30 end.
Definition is_online (s : ServerStatus) : bool := match s with Online => true | Offline => false end.

(** [IpAddr]: the four numbers, or the text of the longer kind. *)
Inductive IpAddr := V4 (a b c d : Z) | V6 (text : list Z).

Definition dot : Z := 46.

(** At most three digits, without zeros in front. *)
Definition read_octet (s : list Z) : option Z :=
  if (3 <? Z.of_nat (length s)) || ((1 <? Z.of_nat (length s)) && bool_decide (head s = Some 48)) then None
  else if forallb (fun c => (48 <=? c) && (c <=? 57)) s then
    match parse_int (U 8) s with Ok n => Some n | _ => None end
  else None.

Definition parse_v4 (s : list Z) : option IpAddr :=
  match map read_octet (split dot s) with
  | [Some a; Some b; Some c; Some d] => Some (V4 a b c d)
  | _ => None
  end.

Record AgentServer := {
  id : Z;
  name : list Z;
  address : IpAddr * Z;
  rpc_address : list Z;
  region : ServerRegion;
  status : ServerStatus;
  token : list Z;
  population : ServerPopulation;
}.

Definition agent_server_new (i : Z) (n : list Z) (a : IpAddr * Z) (rpc : list Z) (r : ServerRegion) (t : list Z)
    : AgentServer :=
  {| id := i; name := n; address := a; rpc_address := rpc; region := r; status := Offline; token := t;
     population := Easy |}.

Definition update (s : AgentServer) (report : ServerStatusReport) : AgentServer :=
  {| id := s.(id); name := s.(name); address := s.(address); rpc_address := s.(rpc_address); region := s.(region);
     status := if report.(healthy) then Online else Offline; token := s.(token);
     population := report.(Accounts.population) |}.

(** [Shard::from]: the region is put in front of the name. *)
Definition shard_of (s : AgentServer) : val :=
  Shard_new (VNum s.(id)) (VStr (char_of_region s.(region) :: s.(name))) (VNum (u8_of_population s.(population)))
    (VBool (is_online s.(status))).

Record Farm := { farm_id : Z; farm_name : list Z }.
Record AgentServerManager := { farms : list Farm; the_servers : list AgentServer }.

(** main.rs: the farms of the configuration. *)
Definition farms_of (names : list (list Z)) : list Farm :=
  imap (fun i n => {| farm_id := u8 (Z.of_nat i + 1); farm_name := n |}) names.

Section Gateway.

(** The longer kind of addresses. *)
Context (parse_v6 : list Z -> option (list Z)) (show_v6 : list Z -> list Z).

Definition parse_ip (s : list Z) : option IpAddr :=
  match parse_v4 s with Some ip => Some ip | None => V6 <$> parse_v6 s end.
Definition show_ip (ip : IpAddr) : list Z :=
  match ip with
  | V4 a b c d => decimal a ++ dot :: decimal b ++ dot :: decimal c ++ dot :: decimal d
  | V6 s => show_v6 s
  end.

(** The server of a row; rows with an invalid address are skipped. *)
Definition server_of (row : ServerRow) : outcome unit (option AgentServer) :=
  match parse_ip row.(srv_address) with
  | None => Ok None
  | Some ip =>
      r ← region_from row.(srv_region);
      Ok (Some (agent_server_new (u16 row.(srv_id)) row.(srv_name) (ip, u16 row.(srv_port))
                  (row.(srv_rpc_address) ++ 58 :: decimal row.(srv_rpc_port)) r row.(srv_token)))
  end.

(** [None]: the query failed. *)
Fixpoint servers_of (rows : list ServerRow) : outcome unit (list AgentServer) :=
  match rows with
  | [] => Ok []
  | row :: rows =>
      s ← server_of row;
      rest ← servers_of rows;
      Ok (match s with Some s => s :: rest | None => rest end)
  end.
Definition fetch_servers (rows : option (list ServerRow)) : outcome unit (list AgentServer) :=
  servers_of (default [] rows).

Context {A : Type} `{!AgentRpc A}.

(** What polling makes of a server. *)
Definition polled (t : Transport) (agents : A) (s : AgentServer) : AgentServer :=
  match get_status t s.(rpc_address) agents with
  | Report r => update s r
  | NotAccessible => update s {| healthy := false; Accounts.population := Easy |}
  | OtherError => s
  end.

(** One round of the polling task; a panic ends the task. *)
Definition poll (rows : option (list ServerRow)) (transports : AgentServer -> Transport) (agents : A)
    (m : AgentServerManager) : outcome unit AgentServerManager :=
  servers ← fetch_servers rows;
  Ok {| farms := m.(farms); the_servers := map (fun s => polled (transports s) agents s) servers |}.

Definition find_server (server_id : Z) (m : AgentServerManager) : option AgentServer :=
  List.find (fun s => s.(id) =? server_id) m.(the_servers).

Definition server_details (server_id : Z) (m : AgentServerManager) : option (IpAddr * Z) :=
  address <$> find_server server_id m.

(** [None]: the request failed. *)
Definition reserve (call : Call) (user_id : Z) (username : list Z) (server_id : Z) (m : AgentServerManager)
    (w : Tables * A) : option ReserveResponse * (Tables * A) :=
  match find_server server_id m with
  | None => (Some NotFound, w)
  | Some s => post_request call s.(rpc_address) s.(token)
                {| request_user := user_id; request_username := username |} w
  end.

(** ** client.rs *)

Record LastCredentials := { c_username : list Z; c_password : list Z; shard : Z }.

(** What the connections share. *)
Record Shared := {
  tables : Tables;
  agents : A;
  manager : AgentServerManager;
  news : NewsCache;
  patcher : Patcher;
}.

Definition with_rpc (w : Tables * A) (g : Shared) : Shared :=
  {| tables := w.1; agents := w.2; manager := g.(manager); news := g.(news); patcher := g.(patcher) |}.
Definition with_news (n : NewsCache) (g : Shared) : Shared :=
  {| tables := g.(tables); agents := g.(agents); manager := g.(manager); news := n; patcher := g.(patcher) |}.

Definition login_error (e : val) : packet := ("LoginResponse"%string, LoginResponse_error e).
Definition login_success (t : Z) (ip : list Z) (port : Z) : packet :=
  ("LoginResponse"%string, LoginResponse_new (LoginResult_success (VNum t) (VStr ip) (VNum port))).

Definition try_reserve_spot (call : Call) (user_id : Z) (last : LastCredentials) (g : Shared) : packet * Shared :=
  match server_details last.(shard) g.(manager) with
  | None => (login_error (VEnum "Inspection" []), g)
  | Some server =>
      let '(result, w) := reserve call user_id last.(c_username) last.(shard) g.(manager) (g.(tables), g.(agents)) in
      (match result with
       | None => login_error (VEnum "Inspection" [])
       | Some (Reserved t _) => login_success t (show_ip server.1) server.2
       | Some NotFound => login_error (VEnum "Inspection" [])
       | Some NoSpot => login_error (VEnum "ServerFull" [])
       | Some Duplicate => login_error (VEnum "AlreadyConnected" [])
       | Some (RequestError _) => login_error (VEnum "ServerFull" [])
       end, with_rpc w g)
  end.

(** The requests of a client that the gateway answers. *)
Inductive Request :=
| KeepAlive
| PatchRequest (version : Z)
| Identity
| NoticeRequest
| LoginRequest (username password : list Z) (shard_id : Z)
| SecurityCodeInput (inner_size : Z) (data : list Z)
| ShardListRequest
| PingServerRequest
| Ignored.

Definition request_of (p : packet) : Request :=
  match p with
  | ("KeepAlive"%string, _) => KeepAlive
  | ("PatchRequest"%string, VStruct [_; _; VNum version]) => PatchRequest version
  | ("IdentityInformation"%string, _) => Identity
  | ("GatewayNoticeRequest"%string, _) => NoticeRequest
  | ("LoginRequest"%string, VStruct [_; VStr username; VStr password; VNum shard_id; _]) =>
      LoginRequest username password shard_id
  | ("SecurityCodeInput"%string, VStruct [_; VNum inner_size; VBytes data]) => SecurityCodeInput inner_size data
  | ("ShardListRequest"%string, _) => ShardListRequest
  | ("PingServerRequest"%string, _) => PingServerRequest
  | _ => Ignored
  end.

(** The answer to a check of the version. *)
Definition patch_answer (info : PatchInformation) : packet :=
  ("PatchResponse"%string,
   match info with
   | UpToDate => PatchResponse_up_to_date
   | RequiresUpdate files target host =>
       PatchResponse_error (PatchError_update (VStr (chars "localhost")) (VNum 80) (VNum target) files (VStr host))
   | Outdated => PatchResponse_error (VEnum "InvalidVersion" [])
   end).

(** The calendar of a timestamp, and the end of every block. *)
Context (datetime_of : Z -> datetime) (blocked_until : datetime).

Definition notice (n : News) : val :=
  GatewayNotice_new (VStr n.(news_title)) (VStr n.(news_body)) (VTime (datetime_of n.(news_date))).
Definition farm_val (f : Farm) : val := Farm_new (VNum f.(farm_id)) (VStr f.(farm_name)).

Definition invalid_credentials : packet :=
  login_error (SecurityError_invalidcredentials (VNum 5) (VNum 1)).
Definition blocked_login : packet :=
  login_error (SecurityError_blocked (BlockReason_punishment (VStr (chars "You have been blocked."))
                                        (VTime blocked_until))).

Definition passcode_answer (v : val) : packet := ("PasscodeRequiredResponse"%string, v).

Section Login.
Context `{!Bcrypt}.

(** A request to log in; the credentials are kept in every case. *)
Definition handle_login (call : Call) (last : LastCredentials) (g : Shared) : list packet * Shared :=
  match try_login last.(c_username) last.(c_password) g.(tables) with
  | Success user =>
      let '(answer, g) := try_reserve_spot call (u32 user) last g in ([answer], g)
  | MissingPasscode => ([passcode_answer PasscodeRequiredResponse_passcode_required], g)
  | InvalidCredentials => ([invalid_credentials], g)
  | Blocked => ([blocked_login], g)
  end.

Definition handle_passcode (call : Call) (last : LastCredentials) (code : list Z) (g : Shared) : list packet * Shared :=
  match try_login_passcode last.(c_username) last.(c_password) code g.(tables) with
  | Success user =>
      let '(answer, g) := try_reserve_spot call (u32 user) last g in
      ([("SecurityCodeResponse"%string, SecurityCodeResponse_success); answer], g)
  | MissingPasscode => ([], g)
  | InvalidCredentials => ([passcode_answer PasscodeRequiredResponse_passcode_invalid], g)
  | Blocked => ([passcode_answer PasscodeRequiredResponse_passcode_blocked], g)
  end.

Context {cipher : Type} `{!BlockCipher cipher}.

(** What the reader yields within ten seconds. *)
Inductive Input := Read (p : packet) | ReadError (e : stream_error) | TimedOut.

(** How the body of the loop ends. *)
Inductive Fate := Continue (last : option LastCredentials) | Closed (r : outcome stream_error unit).

(** The body of [handle_socket]. *)
Definition handle_request (call : Call) (now : Z) (r : Request) (last : option LastCredentials) (g : Shared)
    : list packet * Fate * Shared :=
  match r with
  | KeepAlive | Ignored => ([], Continue last, g)
  | PatchRequest version =>
      match get_patch_information g.(patcher) version with
      | Ok info => ([patch_answer info], Continue last, g)
      | _ => ([], Closed Panic, g)
      end
  | Identity =>
      ([("IdentityInformation"%string, IdentityInformation_new (VStr (chars "GatewayServer")) (VNum 0))],
       Continue last, g)
  | NoticeRequest =>
      let '(n, cache) := get_news now g.(tables) g.(news) in
      ([("GatewayNoticeResponse"%string, GatewayNoticeResponse_new (VSeq (map notice n)))], Continue last,
       with_news cache g)
  | LoginRequest username password shard_id =>
      let creds := {| c_username := username; c_password := password; shard := shard_id |} in
      let '(answers, g) := handle_login call creds g in (answers, Continue (Some creds), g)
  | SecurityCodeInput inner_size data =>
      match last with
      | None => ([], Continue None, g)
      | Some previous =>
          match decode_passcode inner_size data with
          | Ok code => let '(answers, g) := handle_passcode call previous code g in (answers, Continue last, g)
          | Err _ => ([("PasscodeResponse"%string, PasscodeResponse_new (VNum 2) (VNum 1))], Continue last, g)
          | Panic => ([], Closed Panic, g)
          end
      end
  | ShardListRequest =>
      ([("ShardListResponse"%string,
         ShardListResponse_new (VSeq (map farm_val g.(manager).(farms)))
           (VSeq (map shard_of g.(manager).(the_servers))))], Continue last, g)
  | PingServerRequest =>
      ([("PingServerResponse"%string,
         PingServerResponse_new (VSeq [PingServer_new (VNum 1) (VStr (chars "localhost"))]))], Continue last, g)
  end.

Definition handle_input (call : Call) (now : Z) (i : Input) (last : option LastCredentials) (g : Shared)
    : list packet * Fate * Shared :=
  match i with
  | Read p => handle_request call now (request_of p) last g
  | ReadError e => ([], Closed (Err e), g)
  | TimedOut => ([], Closed (Ok tt), g)
  end.

(** The whole connection; [meanwhile] is what others do to the gateway before
    an input arrives. *)
Fixpoint handle_socket (inputs : list (Call * Z * (Shared -> Shared) * Input)) (last : option LastCredentials) (g : Shared)
    : list packet * Fate * Shared :=
  match inputs with
  | [] => ([], Continue last, g)
  | (call, now, meanwhile, i) :: inputs =>
      let '(answers, fate, g) := handle_input call now i last (meanwhile g) in
      match fate with
      | Closed r => (answers, Closed r, g)
      | Continue last => let '(more, fate, g) := handle_socket inputs last g in (answers ++ more, fate, g)
      end
  end.
(** ** cli.rs and main.rs *)

Definition DEFAULT_FARM : list Z := chars "Skrillax_TestBed".
Definition DEFAULT_HEALTHCHECK_INTERVAL : Z := 60.
Definition DEFAULT_LISTEN_PORT : Z := 15779.

(** The configuration but for the database. *)
Record GatewayServerConfig := {
  listen_port : option Z;
  listen_address : option (list Z);
  patch : option PatchConfig;
  news_cache_duration : option Z;
  agent_healthcheck_interval : option Z;
  farm_names : option (list (list Z));
}.

Definition configured_farms (c : GatewayServerConfig) : list Farm := farms_of (default [DEFAULT_FARM] c.(farm_names)).

(** The address to listen on: with its port it has to be the text of a socket
    address; [parse_v6_host] reads the longer kind, in brackets. *)
Definition listen_addr (parse_v6_host : list Z -> option (list Z)) (c : GatewayServerConfig) : outcome unit (IpAddr * Z) :=
  let port := default DEFAULT_LISTEN_PORT c.(listen_port) in
  match c.(listen_address) with
  | Some addr =>
      match parse_v4 addr with
      | Some ip => Ok (ip, port)
      | None => match parse_v6_host addr with Some ip => Ok (V6 ip, port) | None => Panic end
      end
  | None => Ok (V4 0 0 0 0, port)
  end.

(** What the connections share when the gateway starts; the clock counts seconds. *)
Definition gateway_start (c : GatewayServerConfig) (now : Z) (t : Tables) (a : A) : Shared :=
  {| tables := t; agents := a;
     manager := {| farms := configured_farms c; the_servers := [] |};
     news := news_new (default 120 c.(news_cache_duration)) now t;
     patcher := match c.(patch) with Some p => patcher_new p | None => allow_all end |}.

(** Seconds between two polls of the agents. *)
Definition poll_interval (c : GatewayServerConfig) : Z := default DEFAULT_HEALTHCHECK_INTERVAL c.(agent_healthcheck_interval).

Inductive Commands :=
| RegisterUser (user given : list Z) (code : option (list Z))
| SetGm (character_name : list Z) (g : option bool).

(** A command, with the text of its error. *)
Definition run_command (command : Commands) (salt : Z) (meanwhile : Tables -> Tables) (t : Tables)
    : outcome (list Z) unit * Tables :=
  match command with
  | RegisterUser user given code =>
      let '(result, t) := register user given code salt meanwhile t in
      (match result with
       | Ok Registered => Ok ()
       | Ok UsernameTaken => Err (chars "Could not create account, because an account with that username already exists.")
       | Ok DatabaseError => Err (chars "Could not create account.")
       | _ => Panic
       end, t)
  | SetGm character_name g =>
      let '(result, t) := set_gm character_name (default true g) t in
      (match result with
       | GmSet => Ok ()
       | UserNotFound => Err (chars "Could not set gm, because no user with that name was found.")
       | GmDatabaseError => Err (chars "Could not create account.")
       end, t)
  end.

End Login.
End Gateway.
