(* ===== verification/Admission.v ===== *)
(** Admission to an agent: the web interface of agent/src/login/web.rs, which
    reserves spots, the authentication of a session (handle_auth of
    charselect.rs), the agents as the gateway reaches them, and how an agent
    starts (main.rs). *)
From stdpp Require Import base list option strings gmap.
From Stdlib Require Import ZArith Lia.
From S2P Require Import Prelude Utf Text F32 Serde Schema ProtoLogin Packets Gateway Entities Population Accounts.

(** ** web.rs *)

(** [Settings]: the id of the server and its token. *)
Definition Settings : Type := Z * list Z.

Definition handle_capacity (c : Capacity) : ServerStatusReport :=
  {| healthy := true; Accounts.population := population_of_f32 (usage c) |}.

(** A header of a request: missing, not text, or text. *)
Inductive Header := NoHeader | NotText | Text (s : list Z).

Definition handle_spot_request (settings : Settings) (header : Header) (reservation : ReserveRequest)
    (now current_time : Z) (rng : nat -> Z) (t : Tables) (q : LoginQueue) : ReserveResponse * Tables * LoginQueue :=
  match header with
  | NoHeader => (RequestError (chars "Missing auth token."), t, q)
  | NotText => (RequestError (chars "Invalid auth token."), t, q)
  | Text passed =>
      if negb (bool_decide (passed = settings.2)) then (RequestError (chars "Invalid auth token."), t, q)
      else
        match fetch reservation.(request_user) settings.1 t with
        | (Ok (Some user), t) =>
            let '(result, q) := reserve_spot user now current_time rng q in
            (match result with
             | Ok (id, alive) => Reserved id alive
             | Err (AllTokensTaken | NoSpotsAvailable) => NoSpot
             | Err NoSuchToken => NotFound
             | Err AlreadyHasReservation => Duplicate
             | Panic => NotFound
             end, t, q)
        | (_, t) => (NotFound, t, q)
        end
  end.

(** ** charselect.rs: a session hands in its token *)

Definition send_login_result (result : val) : packet := ("AuthResponse"%string, AuthResponse_new result).

Definition auth_error (e : ReservationError) : packet :=
  send_login_result (AuthResult_error (VEnum (match e with
    | NoSuchToken | AlreadyHasReservation => "InvalidData"
    | NoSpotsAvailable | AllTokensTaken => "ServerFull"
    end) [])).

(** The sessions without [Playing], in the order of the query, each with the
    token of its request and the time it is handled at; the loop ends with the
    first success. *)
Fixpoint handle_auth (clients : list (Entity * option Z * Z)) (q : LoginQueue)
    : outcome unit (list (Entity * packet) * option (Entity * ServerUser) * LoginQueue) :=
  match clients with
  | [] => Ok ([], None, q)
  | (_, None, _) :: clients => handle_auth clients q
  | (e, Some t, now) :: clients =>
      match hand_in_reservation t now q with
      | (Ok user, q) => Ok ([(e, send_login_result AuthResult_success)], Some (e, user), q)
      | (Err err, q) =>
          rest ← handle_auth clients q;
          Ok ((e, auth_error err) :: rest.1.1, rest.1.2, rest.2)
      | (Panic, _) => Panic
      end
  end.

(** ** The agents of a cluster *)

(** An agent: its settings, its queue, and its sessions: waiting for
    authentication, or of a user. *)
Record Agent := {
  settings : Settings;
  login_queue : LoginQueue;
  authenticated : gmap Entity (option ServerUser);
}.

Definition with_queue (q : LoginQueue) (a : Agent) : Agent :=
  {| settings := a.(settings); login_queue := q; authenticated := a.(authenticated) |}.

Definition Agents : Type := gmap (list Z) Agent.

(** The system for an agent: the user of a success plays from now on. *)
Definition auth_system (clients : list (Entity * option Z * Z)) (a : Agent)
    : outcome unit (list (Entity * packet) * Agent) :=
  r ← handle_auth clients a.(login_queue);
  Ok (r.1.1,
      {| settings := a.(settings); login_queue := r.2;
         authenticated := match r.1.2 with
                          | Some (e, user) => <[e := Some user]> a.(authenticated)
                          | None => a.(authenticated)
                          end |}).

#[export] Instance agents_rpc : AgentRpc Agents := {|
  get_status transport address agents :=
    match transport, agents !! address with
    | Delivered, Some a => Report (handle_capacity a.(login_queue).(capacity))
    | Delivered, None => NotAccessible
    | LostRequest, _ => NotAccessible
    | LostResponse, _ => OtherError
    end;
  post_request call address token request w :=
    match call.(transport), w.2 !! address with
    | LostRequest, _ | _, None => (None, w)
    | lost, Some a =>
        let '(response, t, q) :=
          handle_spot_request a.(settings) (Text token) request call.(handled_at) call.(reserved_at) call.(draws)
            w.1 a.(login_queue) in
        (match lost with Delivered => Some response | _ => None end, (t, <[address := with_queue q a]> w.2))
    end
|}.

(** ** main.rs and config.rs *)

(** The configuration of an agent but for its database and its game. *)
Record GameServerConfig := {
  cfg_listen_port : Z;
  cfg_listen_address : list Z;
  external_address : option (list Z);
  cfg_server_id : Z;
  cfg_rpc_address : list Z;
  cfg_rpc_port : Z;
  max_player_count : Z;
  cfg_region : list Z;
  cfg_name : list Z;
}.

Definition colon : Z := 58.

(** A port as the text of a socket address has it: digits only. *)
Definition parse_port (s : list Z) : option Z :=
  if forallb (fun c => (48 <=? c) && (c <=? 57)) s then
    match parse_int (U 16) s with Ok n => Some n | _ => None end
  else None.

Section Start.

(** The longer kind of socket addresses and of addresses; whether the ports can
    be listened on. *)
Context (parse_v6_socket : list Z -> option (IpAddr * Z)) (show_v6 : list Z -> list Z) (bound : bool).

(** [SocketAddr::from_str] *)
Definition parse_socket (s : list Z) : option (IpAddr * Z) :=
  match split colon s with
  | [host; port] =>
      match parse_v4 host, parse_port port with
      | Some ip, Some p => Some (ip, p)
      | _, _ => parse_v6_socket s
      end
  | _ => parse_v6_socket s
  end.

(** The address that clients are told. *)
Definition external_addr (c : GameServerConfig) : option (IpAddr * Z) :=
  parse_socket (match c.(external_address) with
                | Some addr => addr
                | None => chars "127.0.0.1:" ++ decimal c.(cfg_listen_port)
                end).

(** The agent with a new token of thirty letters and digits: its row is written
    before the address of its clients is looked at. *)
Definition agent_start (c : GameServerConfig) (draw : nat -> Z) (t : Tables) : outcome unit (Agent * (IpAddr * Z)) * Tables :=
  match external_addr c with
  | None => (Panic, t)
  | Some (ip, port) =>
      let token := map draw (seq 0 30) in
      match setup c.(cfg_server_id) c.(cfg_name) c.(cfg_region) (show_ip show_v6 ip) port c.(cfg_rpc_address)
              c.(cfg_rpc_port) token t with
      | (Ok _, t) =>
          (match parse_socket (c.(cfg_listen_address) ++ colon :: decimal c.(cfg_listen_port)) with
           | Some listen =>
               if bound
               then Ok ({| settings := (c.(cfg_server_id), token);
                           login_queue := login_queue_new (capacity_new c.(max_player_count)) 30;
                           authenticated := ∅ |}, listen)
               else Panic
           | None => Panic
           end, t)
      | (_, t) => (Panic, t)
      end
  end.

End Start.
