(* ===== verification/AdmissionSpec.v ===== *)
(** From the credentials of a client to a session of its user: a login with the
    right credentials leads to a session, and only such a login does; the agent
    it takes is found by the gateway once it has started. *)
From stdpp Require Import base list option strings gmap relations.
From Stdlib Require Import ZArith Lia.
From S2P Require Import Prelude Utf Text F32 Serde Schema ProtoLogin Packets Security SecuritySpec Stream Entities.
From S2P Require Import Population PopulationSpec Characters Accounts Gateway Admission.

(** ** Reserving *)

(** A user who is told a token holds a reservation with it. *)
Lemma reserve_spot_reserved user now current rng q t alive q' :
  reserve_spot user now current rng q = (Ok (t, alive), q') ->
  In {| Population.token := t; content := user; timeout := current + q.(reservation_valid_time) |} q'.(reservations).
Proof.
  unfold reserve_spot. destruct (existsb _ _); [discriminate|]. destruct (add_queue _) as [c|]; [|discriminate].
  destruct (draw_token _ _ _ _) as [d|]; [|discriminate]. intros [= -> _ <-]. cbn. apply in_app_iff. right. left. reflexivity.
Qed.

(** Reserving adds a reservation of the user at most. *)
Lemma reserve_spot_adds user now current rng q r :
  In r (reserve_spot user now current rng q).2.(reservations) -> In r q.(reservations) \/ r.(content) = user.
Proof.
  assert (Hclean : forall x, In x (cleanup_registrations now q).(reservations) -> In x q.(reservations))
    by (intros x Hx; apply filter_In in Hx; tauto).
  unfold reserve_spot. destruct (existsb _ _); [cbn; auto|]. destruct (add_queue _) as [c|]; [|cbn; auto].
  destruct (draw_token _ _ _ _) as [d|]; cbn; [|auto].
  intros [H|[<-|[]]]%in_app_iff; [left; apply Hclean, H|right; reflexivity].
Qed.

(** The spot is given: nobody holds a reservation of the user, there is room,
    and a draw is not taken. *)
Lemma reserve_spot_given user now current rng q c t :
  let q0 := cleanup_registrations now q in
  existsb (fun r => same_user r.(content) user) q0.(reservations) = false ->
  add_queue q0.(capacity) = Some c ->
  draw_token (token_taken q0.(reservations)) rng 0 (Z.to_nat MAX_TOKEN_TRIES) = Some t ->
  exists alive q', reserve_spot user now current rng q = (Ok (t, alive), q').
Proof. intros q0 Hu Hc Ht. unfold reserve_spot. fold q0. rewrite Hu, Hc, Ht. eauto. Qed.

(** ** Handing in *)

Lemma hand_in_found t now q r :
  NoDup (tokens q.(reservations)) -> In r q.(reservations) -> r.(Population.token) = t -> now < r.(timeout) ->
  exists q', hand_in_reservation t now q = (Ok r.(content), q').
Proof.
  intros Hnd Hin <- Hnow. unfold hand_in_reservation.
  assert (Hin' : In r (cleanup_registrations now q).(reservations)).
  { apply filter_In. split; [exact Hin|]. unfold expired. rewrite (proj2 (Z.leb_gt _ _)); [reflexivity|exact Hnow]. }
  assert (Hnd' : NoDup (tokens (cleanup_registrations now q).(reservations))) by (apply NoDup_map_filter, Hnd).
  destruct (find_by_token _ r Hnd' Hin') as (i & -> & -> & _). eauto.
Qed.

(** What is handed in was reserved, and what stays was there. *)
Lemma hand_in_held t now q user q' :
  hand_in_reservation t now q = (Ok user, q') ->
  (exists r, In r q.(reservations) /\ r.(content) = user).
Proof.
  unfold hand_in_reservation. destruct (position _ _) as [i|]; [|discriminate].
  destruct (_ !! i) as [r|] eqn:E; [|discriminate]. intros [= <- _]. exists r. split; [|reflexivity].
  apply list_elem_of_lookup_2, list_elem_of_In, filter_In in E. tauto.
Qed.

Lemma hand_in_keeps t now q x :
  In x (hand_in_reservation t now q).2.(reservations) -> In x q.(reservations).
Proof.
  assert (Hclean : In x (cleanup_registrations now q).(reservations) -> In x q.(reservations))
    by (intros Hx; apply filter_In in Hx; tauto).
  unfold hand_in_reservation. destruct (position _ _) as [i|]; cbn; [|auto].
  destruct (_ !! i) as [r|] eqn:E; cbn; [|auto]. intros Hx. apply Hclean.
  apply list_elem_of_In. apply list_elem_of_In in Hx. eapply elem_of_sublist; [exact Hx|apply sublist_delete].
Qed.

(** The loop over the sessions. *)
Lemma handle_auth_facts clients q out ok q' :
  handle_auth clients q = Ok (out, ok, q') ->
  (forall x, In x q'.(reservations) -> In x q.(reservations))
  /\ (forall e user, ok = Some (e, user) -> exists r, In r q.(reservations) /\ r.(content) = user).
Proof.
  revert q out ok q'. induction clients as [|[[e [t|]] now] clients IH]; intros q out ok q'; cbn [handle_auth].
  - intros [= <- <- <-]. split; [auto|discriminate].
  - pose proof (hand_in_keeps t now q) as Hk. destruct (hand_in_reservation t now q) as [[user|err|] q1] eqn:E; cbn in Hk.
    + intros [= <- <- <-]. split; [exact Hk|]. intros ? ? [= _ <-]. exact (hand_in_held _ _ _ _ _ E).
    + destruct (handle_auth clients q1) as [[[out1 ok1] q2]| |] eqn:E1; try discriminate. intros [= <- <- <-].
      destruct (IH _ _ _ _ E1) as [H1 H2]. split; [auto|]. intros e' user Hok.
      destruct (H2 e' user Hok) as (r & Hr & Hu). eauto.
    + discriminate.
  - apply IH.
Qed.

(** Sessions whose tokens are not reserved are refused, and the loop goes on. *)
Lemma handle_auth_refuses clients rest q :
  NoDup (tokens q.(reservations)) ->
  Forall (fun c => match c.1.2 with Some t => ~ In t (tokens q.(reservations)) | None => True end) clients ->
  exists out q', (forall x now, In x q.(reservations) -> (forall c, In c clients -> c.2 <= now) -> now < x.(timeout) ->
                    In x q'.(reservations))
    /\ NoDup (tokens q'.(reservations))
    /\ handle_auth (clients ++ rest) q
       = (r ← handle_auth rest q'; Ok (out ++ r.1.1, r.1.2, r.2)).
Proof.
  revert q. induction clients as [|[[e [t|]] now] clients IH]; intros q Hnd Hcs.
  - exists [], q. split; [auto|]. split; [exact Hnd|]. cbn. destruct (handle_auth rest q) as [[[? ?] ?]| |]; reflexivity.
  - apply Forall_cons in Hcs as [Ht Hcs]. cbn in Ht. cbn [app handle_auth].
    pose proof (unknown_token t now q Ht) as Hu. unfold hand_in_reservation in Hu |- *.
    set (q0 := cleanup_registrations now q) in *.
    assert (Hsub : forall x, In x q0.(reservations) -> In x q.(reservations)) by (intros x Hx; apply filter_In in Hx; tauto).
    destruct (position _ _) as [i|] eqn:Ei.
    { apply position_some in Ei as (r & Er & Hr). rewrite Er in Hu. discriminate. }
    destruct (IH q0) as (out & q' & Hkeep & Hnd' & ->).
    { apply NoDup_map_filter, Hnd. }
    { eapply Forall_impl; [exact Hcs|]. intros [[? [t'|]] ?]; cbn; [|auto]. intros Hn Hin. apply Hn.
      unfold tokens in *. apply in_map_iff in Hin as (x & <- & Hx). apply in_map, Hsub, Hx. }
    exists ((e, auth_error NoSuchToken) :: out), q'. split; [|split; [exact Hnd'|]].
    + intros x n Hx Hle Hn. apply (Hkeep x n); [|intros c Hc; apply Hle; right; exact Hc|exact Hn].
      apply filter_In. split; [exact Hx|]. specialize (Hle _ (or_introl eq_refl)). cbn in Hle.
      unfold expired. rewrite (proj2 (Z.leb_gt _ _)); [reflexivity|lia].
    + destruct (handle_auth rest q') as [[[? ?] ?]| |]; reflexivity.
  - apply Forall_cons in Hcs as [_ Hcs]. destruct (IH q Hnd Hcs) as (out & q' & Hkeep & Hnd' & Heq).
    exists out, q'. split; [|split; [exact Hnd'|exact Heq]].
    intros x n Hx Hle Hn. apply (Hkeep x n Hx); [|exact Hn]. intros c Hc. apply Hle. right. exact Hc.
Qed.

(** ** What the gateway does to the agents *)

Section Cluster.
Context (parse_v6 : list Z -> option (list Z)) (show_v6 : list Z -> list Z) (datetime_of : Z -> datetime) (blocked_until : datetime).
Context `{!Bcrypt} {cipher : Type} `{!BlockCipher cipher}.

#[local] Abbreviation handle := (handle_request show_v6 datetime_of blocked_until).

(** The user a client proves to be: the password is verified, and the passcode
    is the one of the user. *)
Definition identified (name given : list Z) (code : option (list Z)) (t : Tables) : option Z :=
  match List.find (fun r => user_named name r && bool_decide (r.(passcode) = code)) t.(users) with
  | Some r => if verified given r.(password) then Some r.(user_id) else None
  | None => None
  end.

(** Names are unique. *)
Definition names_unique (t : Tables) : Prop := NoDup (map username t.(users)).

Lemma find_by_name name code us r :
  NoDup (map username us) -> List.find (user_named name) us = Some r ->
  List.find (fun r => user_named name r && bool_decide (r.(passcode) = code)) us
  = if bool_decide (r.(passcode) = code) then Some r else None.
Proof.
  induction us as [|x us IH]; [discriminate|]. cbn [List.find map]. intros Hnd. apply NoDup_cons in Hnd as [Hx Hnd].
  destruct (user_named name x) eqn:E; cbn [andb].
  - intros [= ->]. case_bool_decide as Hc; [reflexivity|]. clear IH. unfold user_named in E. apply bool_decide_eq_true in E as <-.
    assert (Hnone : forall l, username r ∉ map username l ->
      List.find (fun y => user_named (username r) y && bool_decide (passcode y = code)) l = None).
    { induction l as [|y l IH]; [reflexivity|]. cbn. rewrite not_elem_of_cons. intros [Hy Hl].
      unfold user_named at 1. rewrite bool_decide_false by congruence. exact (IH Hl). }
    apply Hnone, Hx.
  - intros Hf. apply IH; [exact Hnd|exact Hf].
Qed.

Lemma try_login_identified name given t user :
  names_unique t -> try_login name given t = Success user -> identified name given None t = Some user.
Proof.
  intros Hnd. unfold try_login, identified. destruct (List.find _ _) as [r|] eqn:E; [|discriminate].
  rewrite (find_by_name _ None _ _ Hnd E). destruct (verified _ _) eqn:V; [|discriminate]. cbn [negb].
  destruct (passcode r); [discriminate|]. intros [= <-]. rewrite bool_decide_true, V by reflexivity. reflexivity.
Qed.

Lemma try_passcode_identified name given code t user :
  try_login_passcode name given code t = Success user -> identified name given (Some code) t = Some user.
Proof.
  unfold try_login_passcode, identified. destruct (List.find _ _) as [r|]; [|discriminate].
  destruct (verified _ _); [|discriminate]. intros [= <-]. reflexivity.
Qed.

(** Who a request proves to be. *)
Definition proves (r : Request) (last : option LastCredentials) (t : Tables) : option Z :=
  match r with
  | LoginRequest name given _ => identified name given None t
  | SecurityCodeInput inner_size data =>
      match last, decode_passcode inner_size data with
      | Some c, Ok code => identified c.(c_username) c.(c_password) (Some code) t
      | _, _ => None
      end
  | _ => None
  end.

(** The reservations and the sessions of the agents. *)
Definition reserved (a : Agents) (user : ServerUser) : Prop :=
  exists address agent r, a !! address = Some agent /\ In r agent.(login_queue).(reservations) /\ r.(content) = user.
Definition plays (a : Agents) (user : ServerUser) : Prop :=
  exists address agent e, a !! address = Some agent /\ agent.(authenticated) !! e = Some (Some user).

Lemma fetch_user id server t user t' :
  fetch id server t = (Ok (Some user), t') -> user.(Population.id) = i32 id.
Proof.
  unfold fetch. destruct (List.find _ _) as [u|]; [|discriminate].
  destruct (List.find _ _) as [d|]; [intros [= <- _]; reflexivity|].
  destruct (existsb _ _); [intros [= <- _]; reflexivity|discriminate].
Qed.

Lemma fetch_users id server t : (fetch id server t).2.(users) = t.(users).
Proof.
  unfold fetch. destruct (List.find _ _); [|reflexivity]. destruct (List.find _ _); [reflexivity|].
  destruct (existsb _ _); reflexivity.
Qed.

(** A request of the web interface adds a reservation of its user at most, and
    none without the token of the server. *)
Lemma spot_request_adds s header request now current rng t q r :
  In r (handle_spot_request s header request now current rng t q).2.(reservations) ->
  In r q.(reservations) \/ (header = Text s.2 /\ r.(content).(Population.id) = i32 request.(request_user)).
Proof.
  unfold handle_spot_request. destruct header as [| |passed]; [left; assumption..|].
  destruct (bool_decide_reflect (passed = s.2)) as [->|]; cbn [negb]; [|left; assumption].
  destruct (fetch _ _ _) as [[[user|]| |] t'] eqn:Ef; try (left; assumption).
  pose proof (reserve_spot_adds user now current rng q r) as Hadd.
  destruct (reserve_spot _ _ _ _ _) as [result q']. cbn in Hadd |- *. intros Hr.
  destruct (Hadd Hr) as [?| ->]; [auto|]. right. split; [reflexivity|]. exact (fetch_user _ _ _ _ _ Ef).
Qed.

Lemma spot_request_users s header request now current rng t q :
  (handle_spot_request s header request now current rng t q).1.2.(users) = t.(users).
Proof.
  unfold handle_spot_request. destruct header as [| |passed]; try reflexivity.
  destruct (bool_decide _); cbn [negb]; [|reflexivity].
  pose proof (fetch_users request.(request_user) s.1 t) as Hf.
  destruct (fetch _ _ _) as [[[user|]| |] t']; cbn in Hf |- *; try exact Hf.
  destruct (reserve_spot _ _ _ _ _) as [result q']. exact Hf.
Qed.

Lemma post_request_facts call address token request t a :
  let '(_, (t', a')) := post_request call address token request (t, a) in
  t'.(users) = t.(users)
  /\ (forall user, reserved a' user -> reserved a user \/ user.(Population.id) = i32 request.(request_user))
  /\ (forall user, plays a' user -> plays a user).
Proof.
  unfold post_request, agents_rpc. cbn [snd fst].
  assert (Hsame : t.(users) = t.(users)
    /\ (forall user, reserved a user -> reserved a user \/ user.(Population.id) = i32 request.(request_user))
    /\ (forall user, plays a user -> plays a user)) by auto.
  assert (Hgo : forall agent (Ha : a !! address = Some agent),
    let '(response, t', q) := handle_spot_request agent.(settings) (Text token) request call.(handled_at)
      call.(reserved_at) call.(draws) t agent.(login_queue) in
    t'.(users) = t.(users)
    /\ (forall user, reserved (<[address := with_queue q agent]> a) user -> reserved a user \/ user.(Population.id) = i32 request.(request_user))
    /\ (forall user, plays (<[address := with_queue q agent]> a) user -> plays a user)).
  { intros agent Ha.
    pose proof (spot_request_users agent.(settings) (Text token) request call.(handled_at) call.(reserved_at) call.(draws) t agent.(login_queue)) as Hu.
    pose proof (fun r => spot_request_adds agent.(settings) (Text token) request call.(handled_at) call.(reserved_at) call.(draws) t agent.(login_queue) r) as Hadd.
    destruct (handle_spot_request _ _ _ _ _ _ _ _) as [[response t'] q]. cbn in Hu, Hadd. split; [exact Hu|]. split.
    - intros user (address' & agent' & r & Hl & Hr & <-). apply lookup_insert_Some in Hl as [[<- <-]|[Hne Hl]].
      + destruct (Hadd r Hr) as [Hin|[_ Hid]]; [left; exists address, agent, r; auto|right; exact Hid].
      + left. exists address', agent', r. auto.
    - intros user (address' & agent' & e & Hl & He). apply lookup_insert_Some in Hl as [[<- <-]|[Hne Hl]].
      + exists address, agent, e. auto.
      + exists address', agent', e. auto. }
  destruct (a !! address) as [agent|] eqn:Ha; [|destruct (transport call); exact Hsame].
  specialize (Hgo agent eq_refl).
  destruct (transport call); [|exact Hsame|];
    destruct (handle_spot_request _ _ _ _ _ _ _ _) as [[response t'] q]; exact Hgo.
Qed.

(** What a step of the gateway may do to the agents, for a request that proves
    to be a user, or nobody. *)
Definition admits (proof : option Z) (t t' : Tables) (a a' : Agents) : Prop :=
  t'.(users) = t.(users)
  /\ (forall user, reserved a' user -> reserved a user \/ exists id, proof = Some id /\ user.(Population.id) = i32 (u32 id))
  /\ (forall user, plays a' user -> plays a user).

Lemma admits_nothing proof t a : admits proof t t a a.
Proof. repeat split; auto. Qed.

Lemma try_reserve_spot_admits call id last g :
  let '(_, g') := try_reserve_spot show_v6 call (u32 id) last g in
  admits (Some id) g.(tables) g'.(tables) g.(agents) g'.(agents).
Proof.
  unfold try_reserve_spot. destruct (server_details _ _); [|apply admits_nothing]. unfold reserve.
  destruct (find_server _ _) as [s|]; [|apply admits_nothing].
  pose proof (post_request_facts call s.(rpc_address) s.(token) {| request_user := u32 id; request_username := last.(c_username) |}
                g.(tables) g.(agents)) as Hp.
  destruct (post_request _ _ _ _ _) as [response [t' a']]. destruct Hp as (Hu & Hr & Hpl). cbn [request_user] in Hr.
  split; [exact Hu|]. split; [|exact Hpl]. intros user Hres. destruct (Hr user Hres); eauto.
Qed.

Lemma handle_request_admits call now r last g :
  names_unique g.(tables) ->
  let '(_, _, g') := handle call now r last g in
  admits (proves r last g.(tables)) g.(tables) g'.(tables) g.(agents) g'.(agents).
Proof.
  intros Hnd. destruct r as [|version| | |name given shard_id|inner_size data| | |]; try apply admits_nothing.
  - cbn. destruct (get_patch_information _ _); apply admits_nothing.
  - cbn [handle_request proves]. unfold handle_login. cbn [c_username c_password].
    destruct (try_login _ _ _) as [id| | |] eqn:E; try apply admits_nothing.
    rewrite (try_login_identified _ _ _ _ Hnd E).
    pose proof (try_reserve_spot_admits call id {| c_username := name; c_password := given; shard := shard_id |} g) as Ht.
    destruct (try_reserve_spot _ _ _ _ _). exact Ht.
  - cbn [handle_request proves]. destruct last as [c|]; [|apply admits_nothing].
    destruct (decode_passcode _ _) as [code| |]; try apply admits_nothing. unfold handle_passcode.
    destruct (try_login_passcode _ _ _ _) as [id| | |] eqn:E; try apply admits_nothing.
    rewrite (try_passcode_identified _ _ _ _ _ E). pose proof (try_reserve_spot_admits call id c g) as Ht.
    destruct (try_reserve_spot _ _ _ _ _). exact Ht.
Qed.

(** ** The whole system *)

(** The gateway with its connections, and the agents. *)
Record Cluster := { gateway : @Shared Agents; connections : gmap Z (option LastCredentials) }.

Definition with_gateway (g : Shared) (c : Cluster) : Cluster :=
  {| gateway := g; connections := c.(connections) |}.
Definition with_tables (t : Tables) (g : @Shared Agents) : @Shared Agents := with_rpc (t, g.(agents)) g.
Definition with_agent (address : list Z) (a : Agent) (g : @Shared Agents) : @Shared Agents :=
  with_rpc (g.(tables), <[address := a]> g.(agents)) g.

(** A session of an agent ends: a player gives its spot back. *)
Definition session_ends (e : Entity) (a : Agent) : Agent :=
  {| settings := a.(settings);
     login_queue := match a.(authenticated) !! e with
                    | Some (Some _) => with_table a.(login_queue) (drop_playing_token a.(login_queue).(capacity))
                                         a.(login_queue).(reservations)
                    | _ => a.(login_queue)
                    end;
     authenticated := delete e a.(authenticated) |}.

(** Whoever may connect to the gateway and to the agents; the label is the user
    a request to the gateway proves to be. *)
Inductive cluster_step : Cluster -> option Z -> Cluster -> Prop :=
| step_connect c k :
    c.(connections) !! k = None ->
    cluster_step c None {| gateway := c.(gateway); connections := <[k := None]> c.(connections) |}
| step_input c k last call now i answers fate g :
    c.(connections) !! k = Some last ->
    handle_input show_v6 datetime_of blocked_until call now i last c.(gateway) = (answers, fate, g) ->
    cluster_step c (match i with Read p => proves (request_of p) last c.(gateway).(tables) | _ => None end)
      {| gateway := g;
         connections := match fate with
                        | Continue last => <[k := last]> c.(connections)
                        | Closed _ => delete k c.(connections)
                        end |}
| step_poll c rows transports m :
    poll parse_v6 rows transports c.(gateway).(agents) c.(gateway).(manager) = Ok m ->
    cluster_step c None
      (with_gateway {| tables := c.(gateway).(tables); agents := c.(gateway).(agents); manager := m;
                       news := c.(gateway).(news); patcher := c.(gateway).(patcher) |} c)
| step_register c name given code salt r t :
    register name given code salt (fun t => t) c.(gateway).(tables) = (Ok r, t) ->
    cluster_step c None (with_gateway (with_tables t c.(gateway)) c)
| step_other_tables c t :
    t.(users) = c.(gateway).(tables).(users) ->
    cluster_step c None (with_gateway (with_tables t c.(gateway)) c)
| step_stray c address agent header request now current rng response t q :
    c.(gateway).(agents) !! address = Some agent -> header <> Text agent.(settings).2 ->
    handle_spot_request agent.(settings) header request now current rng c.(gateway).(tables) agent.(login_queue)
      = (response, t, q) ->
    cluster_step c None (with_gateway (with_agent address (with_queue q agent) (with_tables t c.(gateway))) c)
| step_session c address agent e :
    c.(gateway).(agents) !! address = Some agent -> agent.(authenticated) !! e = None ->
    cluster_step c None
      (with_gateway (with_agent address {| settings := agent.(settings); login_queue := agent.(login_queue);
                                           authenticated := <[e := None]> agent.(authenticated) |} c.(gateway)) c)
| step_auth c address agent clients out agent' :
    c.(gateway).(agents) !! address = Some agent ->
    Forall (fun s => agent.(authenticated) !! s.1.1 = Some None) clients ->
    auth_system clients agent = Ok (out, agent') ->
    cluster_step c None (with_gateway (with_agent address agent' c.(gateway)) c)
| step_session_ends c address agent e :
    c.(gateway).(agents) !! address = Some agent ->
    cluster_step c None (with_gateway (with_agent address (session_ends e agent) c.(gateway)) c).

(** A run, with the users proven in it. *)
Inductive run (c : Cluster) : list Z -> Cluster -> Prop :=
| run_start : run c [] c
| run_step ids c1 id c2 : run c ids c1 -> cluster_step c1 id c2 -> run c (ids ++ option_list id) c2.

(** Everybody with a reservation or a session was proven. *)
Definition all_proven (ids : list Z) (c : Cluster) : Prop :=
  forall user, reserved c.(gateway).(agents) user \/ plays c.(gateway).(agents) user ->
    exists id, In id ids /\ user.(Population.id) = i32 (u32 id).

Lemma all_proven_weaken ids more (a : Agents) c c' :
  all_proven ids c ->
  (forall user, reserved c'.(gateway).(agents) user \/ plays c'.(gateway).(agents) user ->
     (reserved c.(gateway).(agents) user \/ plays c.(gateway).(agents) user)
     \/ exists id, In id more /\ user.(Population.id) = i32 (u32 id)) ->
  all_proven (ids ++ more) c'.
Proof.
  intros Hc Hstep user Hu. destruct (Hstep user Hu) as [Hold|(id & Hin & Hid)].
  - destruct (Hc user Hold) as (id & Hin & Hid). exists id. split; [apply in_app_iff; auto|exact Hid].
  - exists id. split; [apply in_app_iff; auto|exact Hid].
Qed.

(** Only one agent changes, and what it holds was held. *)
Lemma with_agent_holds (a : Agents) address agent agent' user :
  a !! address = Some agent ->
  (forall r, In r agent'.(login_queue).(reservations) -> In r agent.(login_queue).(reservations)) ->
  (forall e u, agent'.(authenticated) !! e = Some (Some u) ->
     agent.(authenticated) !! e = Some (Some u) \/ exists r, In r agent.(login_queue).(reservations) /\ r.(content) = u) ->
  reserved (<[address := agent']> a) user \/ plays (<[address := agent']> a) user ->
  reserved a user \/ plays a user.
Proof.
  intros Ha Hr He [(address' & x & r & Hl & Hin & <-)|(address' & x & e & Hl & Hx)];
    apply lookup_insert_Some in Hl as [[<- <-]|[Hne Hl]].
  - left. exists address, agent, r. auto.
  - left. exists address', x, r. auto.
  - destruct (He e user Hx) as [Ho|(r & Hin & <-)]; [right; exists address, agent, e; auto|left; exists address, agent, r; auto].
  - right. exists address', x, e. auto.
Qed.

Lemma find_app {T} (f : T -> bool) l m : List.find f l = None -> List.find f (l ++ m) = List.find f m.
Proof. induction l as [|x l IH]; [reflexivity|]. cbn. destruct (f x); [discriminate|exact IH]. Qed.

(** A user that the command has registered logs in. *)
Lemma registered_logs_in user given salt t t' :
  (forall h, hash salt given = Some h -> verify given h = Some true) ->
  run_command (RegisterUser user given None) salt (fun t => t) t = (Ok (), t') ->
  try_login user given t' = Success t.(next_user).
Proof.
  intros Hv. unfold run_command, register. destruct (List.find (user_named user) (users t)) eqn:Ef; [discriminate|].
  destruct (hash salt given) as [h|] eqn:Eh; [|discriminate]. unfold insert_user.
  destruct (existsb _ _); [discriminate|]. intros [= <-]. unfold try_login. cbn [with_users users].
  rewrite find_app by exact Ef. cbn [List.find]. unfold user_named at 1. cbn [username]. rewrite bool_decide_true by reflexivity.
  cbn [password passcode user_id]. unfold verified. rewrite (Hv h eq_refl). reflexivity.
Qed.

Lemma register_unique name given code salt t r t' :
  names_unique t -> register name given code salt (fun t => t) t = (Ok r, t') -> names_unique t'.
Proof.
  intros Hnd. unfold register. destruct (List.find _ _); [intros [= _ <-]; exact Hnd|].
  destruct (hash _ _); [|discriminate]. unfold insert_user. destruct (existsb _ _) eqn:E; [intros [= _ <-]; exact Hnd|].
  intros [= _ <-]. unfold names_unique. cbn. rewrite map_app. apply NoDup_snoc; [exact Hnd|].
  intros Hin. apply in_map_iff in Hin as (u & Hn & Hu). rewrite <- not_true_iff_false, existsb_exists in E.
  apply E. exists u. split; [exact Hu|]. apply bool_decide_eq_true, Hn.
Qed.

Lemma auth_system_facts clients agent out agent' :
  auth_system clients agent = Ok (out, agent') ->
  (forall r, In r agent'.(login_queue).(reservations) -> In r agent.(login_queue).(reservations))
  /\ (forall e u, agent'.(authenticated) !! e = Some (Some u) ->
       agent.(authenticated) !! e = Some (Some u) \/ exists r, In r agent.(login_queue).(reservations) /\ r.(content) = u).
Proof.
  unfold auth_system. destruct (handle_auth _ _) as [[[o ok] q]| |] eqn:E; try discriminate. intros [= _ <-].
  destruct (handle_auth_facts _ _ _ _ _ E) as [H1 H2]. split; [exact H1|]. cbn [snd fst authenticated].
  destruct ok as [[e' user']|]; [|auto]. intros e u He. apply lookup_insert_Some in He as [[<- [= <-]]|[_ He]]; [|auto].
  right. exact (H2 _ _ eq_refl).
Qed.

Lemma run_proven c ids c' :
  names_unique c.(gateway).(tables) -> all_proven [] c -> run c ids c' ->
  names_unique c'.(gateway).(tables) /\ all_proven ids c'.
Proof.
  intros Hnd Hstart Hrun. induction Hrun as [|ids c1 id c2 Hrun [IHn IH] Hstep]; [auto|].
  destruct Hstep as [c1 k Hk|c1 k last call now i answers fate g Hk Hi|c1 rows transports m Hm
    |c1 name given code salt r t Ht|c1 t Ht|c1 address agent header request now current rng response t q Ha Hh Hq
    |c1 address agent e Ha He|c1 address agent clients out agent' Ha Hcl Hs|c1 address agent e Ha];
    try (split; [exact IHn|]; apply (all_proven_weaken ids _ c1.(gateway).(agents) c1); [exact IH|intros user Hu; left]);
    try exact Hu.
  - destruct i as [p|e|].
    + cbn [handle_input] in Hi. pose proof (handle_request_admits call now (request_of p) last c1.(gateway) IHn) as Hadm.
      rewrite Hi in Hadm. destruct Hadm as (Hus & Hr & Hp). split; [unfold names_unique; cbn; rewrite Hus; exact IHn|].
      apply (all_proven_weaken ids _ c1.(gateway).(agents) c1); [exact IH|]. cbn [gateway]. intros user [Hres|Hpl].
      * destruct (Hr user Hres) as [?|(id & -> & Hid)]; [auto|]. right. exists id. split; [left; reflexivity|exact Hid].
      * left. right. apply Hp, Hpl.
    + injection Hi as _ _ <-. split; [exact IHn|].
      apply (all_proven_weaken ids _ c1.(gateway).(agents) c1); [exact IH|auto].
    + injection Hi as _ _ <-. split; [exact IHn|].
      apply (all_proven_weaken ids _ c1.(gateway).(agents) c1); [exact IH|auto].
  - split; [exact (register_unique _ _ _ _ _ _ _ IHn Ht)|].
    apply (all_proven_weaken ids _ c1.(gateway).(agents) c1); [exact IH|auto].
  - split; [unfold names_unique; cbn; rewrite Ht; exact IHn|].
    apply (all_proven_weaken ids _ c1.(gateway).(agents) c1); [exact IH|auto].
  - pose proof (spot_request_users agent.(settings) header request now current rng c1.(gateway).(tables) agent.(login_queue)) as Hus.
    pose proof (fun r => spot_request_adds agent.(settings) header request now current rng c1.(gateway).(tables) agent.(login_queue) r) as Hadd.
    rewrite Hq in Hus, Hadd. cbn in Hus, Hadd. split; [unfold names_unique; cbn; rewrite Hus; exact IHn|].
    apply (all_proven_weaken ids _ c1.(gateway).(agents) c1); [exact IH|]. intros user Hu. left.
    refine (with_agent_holds _ address agent (with_queue q agent) user Ha _ _ Hu); [|auto].
    intros r Hr. destruct (Hadd r Hr) as [?|[? _]]; [assumption|contradiction].
  - refine (with_agent_holds _ address agent _ user Ha _ _ Hu); cbn [login_queue authenticated]; [auto|].
    intros e' u He'. apply lookup_insert_Some in He' as [[_ ?]|[_ ?]]; [discriminate|auto].
  - destruct (auth_system_facts _ _ _ _ Hs) as [Hf1 Hf2]. exact (with_agent_holds _ address agent _ user Ha Hf1 Hf2 Hu).
  - refine (with_agent_holds _ address agent _ user Ha _ _ Hu); cbn [session_ends login_queue authenticated].
    + intros r. destruct (authenticated agent !! e) as [[u|]|]; auto.
    + intros e' u He'. apply lookup_delete_Some in He' as [_ ?]. auto.
Qed.

(** C3: Only who proved to be a user gets a reservation or a session: in every run
    of the gateway and its agents, with any connections and any requests, to the
    gateway as well as to the agents without their tokens, every user that holds
    a reservation or plays somewhere was identified by a request to the gateway
    whose password and passcode were those of the user at that time. *)
Theorem players_are_identified c ids c' user
    (Hnd : names_unique c.(gateway).(tables))
    (Hstart : forall user, ~ reserved c.(gateway).(agents) user /\ ~ plays c.(gateway).(agents) user)
    (Hrun : run c ids c')
    (Huser : reserved c'.(gateway).(agents) user \/ plays c'.(gateway).(agents) user) :
  exists id, In id ids /\ user.(Population.id) = i32 (u32 id).
Proof.
  assert (H0 : all_proven [] c) by (intros u [Hr|Hp]; destruct (Hstart u); contradiction).
  exact (proj2 (run_proven c ids c' Hnd H0 Hrun) user Huser).
Qed.

(** ** A login that succeeds *)

(** The packets of a client that logs in, with its passcode if there is one. *)
Definition login_packet (u1 u2 : Z) (name given : list Z) (shard_id : Z) : packet :=
  ("LoginRequest"%string, VStruct [VNum u1; VStr name; VStr given; VNum shard_id; VNum u2]).
Definition passcode_packet (action : string) (inner_size : Z) (data : list Z) : packet :=
  ("SecurityCodeInput"%string, VStruct [VEnum action []; VNum inner_size; VBytes data]).

Inductive logs_in (name given : list Z) (shard_id : Z) : option (list Z) -> list packet -> Prop :=
| logs_in_directly u1 u2 : logs_in name given shard_id None [login_packet u1 u2 name given shard_id]
| logs_in_with_passcode u1 u2 action inner_size data code :
    decode_passcode inner_size data = Ok code ->
    logs_in name given shard_id (Some code)
      [login_packet u1 u2 name given shard_id; passcode_packet action inner_size data].

(** What it is answered before the spot. *)
Definition before_spot (code : option (list Z)) : list packet :=
  match code with
  | None => []
  | Some _ => [passcode_answer PasscodeRequiredResponse_passcode_required;
               ("SecurityCodeResponse"%string, SecurityCodeResponse_success)]
  end.

Definition connection (call : Call) (now : Z) (ps : list packet)
    : list (Call * Z * (@Shared Agents -> @Shared Agents) * Input) :=
  map (fun p => (call, now, fun g => g, Read p)) ps.

(** A spot is free for a user, under a token that is drawn. *)
Definition spot_free (user : ServerUser) (call : Call) (q : LoginQueue) (tok : Z) : Prop :=
  let q0 := cleanup_registrations call.(handled_at) q in
  existsb (fun r => same_user r.(content) user) q0.(reservations) = false
  /\ can_queue q0.(capacity) = true
  /\ draw_token (token_taken q0.(reservations)) call.(draws) 0 (Z.to_nat MAX_TOKEN_TRIES) = Some tok.

Lemma try_reserve_spot_given call last id g s agent user tok :
  find_server last.(shard) g.(manager) = Some s -> g.(agents) !! s.(rpc_address) = Some agent ->
  agent.(settings).2 = s.(token) -> call.(transport) = Delivered ->
  (fetch id agent.(settings).1 g.(tables)).1 = Ok (Some user) -> spot_free user call agent.(login_queue) tok ->
  exists g' agent', try_reserve_spot show_v6 call id last g = (login_success tok (show_ip show_v6 s.(address).1) s.(address).2, g')
    /\ g'.(agents) !! s.(rpc_address) = Some agent'
    /\ In {| Population.token := tok; content := user;
             timeout := call.(reserved_at) + agent.(login_queue).(reservation_valid_time) |} agent'.(login_queue).(reservations).
Proof.
  intros Hs Ha Htok Hcall Hfetch (Hu & Hc & Ht).
  unfold try_reserve_spot, server_details, reserve. rewrite Hs. cbn [fmap option_fmap option_map].
  unfold post_request, agents_rpc. rewrite Hcall. cbn [snd fst]. rewrite Ha. unfold handle_spot_request.
  rewrite bool_decide_true by congruence. cbn [negb request_user].
  destruct (fetch _ _ _) as [res t']. cbn in Hfetch. subst res.
  destruct (add_queue (cleanup_registrations call.(handled_at) agent.(login_queue)).(capacity)) as [cap|] eqn:Ecap;
    [|unfold add_queue in Ecap; rewrite Hc in Ecap; discriminate].
  destruct (reserve_spot_given user call.(handled_at) call.(reserved_at) call.(draws) agent.(login_queue) cap tok Hu Ecap Ht)
    as (alive & q' & Eq).
  rewrite Eq. eexists _, _. split; [reflexivity|]. split; [apply lookup_insert_eq|].
  exact (reserve_spot_reserved _ _ _ _ _ _ _ _ Eq).
Qed.

Lemma handle_auth_succeeds clients e tok now rest agent user deadline :
  NoDup (tokens agent.(login_queue).(reservations)) ->
  In {| Population.token := tok; content := user; timeout := deadline |} agent.(login_queue).(reservations) -> now < deadline ->
  Forall (fun c => c.2 <= now /\ forall t, c.1.2 = Some t -> ~ In t (tokens agent.(login_queue).(reservations))) clients ->
  exists out agent', auth_system (clients ++ (e, Some tok, now) :: rest) agent = Ok (out, agent')
    /\ In (e, send_login_result AuthResult_success) out
    /\ agent'.(authenticated) !! e = Some (Some user).
Proof.
  intros Hnd Hin Hnow Hcl. unfold auth_system.
  destruct (handle_auth_refuses clients ((e, Some tok, now) :: rest) agent.(login_queue) Hnd) as (out & q & Hkeep & Hnd' & Heq).
  { eapply Forall_impl; [exact Hcl|]. intros [[? [t|]] ?] [_ Ht]; cbn; [|exact Logic.I]. apply Ht. reflexivity. }
  rewrite Heq. cbn [handle_auth].
  assert (Hin' : In {| Population.token := tok; content := user; timeout := deadline |} q.(reservations)).
  { apply (Hkeep _ now Hin); [|exact Hnow]. intros c Hc. rewrite Forall_forall in Hcl.
    apply (Hcl c), list_elem_of_In, Hc. }
  destruct (hand_in_found tok now q _ Hnd' Hin' eq_refl Hnow) as [q2 ->]. cbn.
  eexists _, _. split; [reflexivity|]. split; [apply in_app_iff; right; left; reflexivity|]. apply lookup_insert_eq.
Qed.

(** C4: A user who logs in plays: with the right password, and passcode if there is
    one, a client is answered with the address of the agent it chose and a
    token, when the agent has a spot; and whatever happens to the agent
    afterwards, as long as the reservation is there, the session that hands the
    token in before its end is the one of the user, if no session before it in
    the loop holds a reservation. *)
Theorem login_leads_to_play g row given shard_id s agent user tok call now ps
    (Hnames : names_unique g.(tables)) (Hrow : In row g.(tables).(users))
    (Hpassword : verified given row.(password) = true)
    (Hs : find_server shard_id g.(manager) = Some s) (Ha : g.(agents) !! s.(rpc_address) = Some agent)
    (Htoken : agent.(settings).2 = s.(token)) (Hcall : call.(transport) = Delivered)
    (Hfetch : (fetch (u32 row.(user_id)) agent.(settings).1 g.(tables)).1 = Ok (Some user))
    (Hfree : spot_free user call agent.(login_queue) tok)
    (Hps : logs_in row.(username) given shard_id row.(passcode) ps) :
  let '(answers, _, g') := handle_socket show_v6 datetime_of blocked_until (connection call now ps) None g in
  let deadline := call.(reserved_at) + agent.(login_queue).(reservation_valid_time) in
  let r := {| Population.token := tok; content := user; timeout := deadline |} in
  answers = before_spot row.(passcode) ++ [login_success tok (show_ip show_v6 s.(address).1) s.(address).2]
  /\ (exists agent', g'.(agents) !! s.(rpc_address) = Some agent' /\ In r agent'.(login_queue).(reservations))
  /\ forall later clients e at_time rest,
       NoDup (tokens later.(login_queue).(reservations)) -> In r later.(login_queue).(reservations) -> at_time < deadline ->
       Forall (fun c => c.2 <= at_time /\ forall t, c.1.2 = Some t -> ~ In t (tokens later.(login_queue).(reservations))) clients ->
       exists out later', auth_system (clients ++ (e, Some tok, at_time) :: rest) later = Ok (out, later')
         /\ In (e, send_login_result AuthResult_success) out
         /\ later'.(authenticated) !! e = Some (Some user).
Proof.
  assert (Hfind : List.find (user_named row.(username)) g.(tables).(users) = Some row).
  { unfold names_unique in Hnames. revert Hnames Hrow. generalize g.(tables).(users). intros us. induction us as [|x us IH]; [intros _ []|].
    intros Hnd. cbn [map] in Hnd. apply NoDup_cons in Hnd as [Hx Hnd]. cbn [List.find]. unfold user_named at 1.
    intros [->|Hin]; [rewrite bool_decide_true by reflexivity; reflexivity|].
    case_bool_decide as E; [|exact (IH Hnd Hin)]. exfalso. apply Hx. rewrite E. apply list_elem_of_In, in_map, Hin. }
  destruct (try_reserve_spot_given call {| c_username := row.(username); c_password := given; shard := shard_id |}
              (u32 row.(user_id)) g s agent user tok Hs Ha Htoken Hcall Hfetch Hfree) as (g' & agent' & Espot & Hl & Hin).
  assert (Hlater : forall later clients e at_time rest,
    NoDup (tokens later.(login_queue).(reservations)) ->
    In {| Population.token := tok; content := user;
          timeout := call.(reserved_at) + agent.(login_queue).(reservation_valid_time) |} later.(login_queue).(reservations) ->
    at_time < call.(reserved_at) + agent.(login_queue).(reservation_valid_time) ->
    Forall (fun c => c.2 <= at_time /\ forall t, c.1.2 = Some t -> ~ In t (tokens later.(login_queue).(reservations))) clients ->
    exists out later', auth_system (clients ++ (e, Some tok, at_time) :: rest) later = Ok (out, later')
      /\ In (e, send_login_result AuthResult_success) out /\ later'.(authenticated) !! e = Some (Some user))
    by (intros later clients e at_time rest H1 H2 H3 H4; exact (handle_auth_succeeds _ _ _ _ _ _ _ _ H1 H2 H3 H4)).
  remember (passcode row) as code eqn:Ecode. destruct Hps as [u1 u2|u1 u2 action inner_size data code Hcode].
  - cbn [connection map handle_socket handle_input login_packet request_of handle_request]. unfold handle_login, try_login. cbn [c_username c_password].
    rewrite Hfind, Hpassword, <- Ecode. cbn [negb]. rewrite Espot. cbn [app before_spot]. eauto 6.
  - cbn [connection map handle_socket handle_input login_packet request_of handle_request]. unfold handle_login, try_login. cbn [c_username c_password].
    rewrite Hfind, Hpassword, <- Ecode. cbn [negb].
    cbn [passcode_packet request_of handle_request]. rewrite Hcode. unfold handle_passcode, try_login_passcode. cbn [c_username c_password].
    rewrite (find_by_name _ (Some code) _ _ Hnames Hfind), bool_decide_true by congruence. rewrite Hpassword, Espot.
    cbn [app before_spot]. eauto 6.
Qed.
End Cluster.

(** ** Agents that start *)

Lemma NoDup_map_eq {A B} (f : A -> B) l a b : NoDup (map f l) -> In a l -> In b l -> f a = f b -> a = b.
Proof.
  induction l as [|x l IH]; [intros _ []|]. cbn [map]. rewrite list.NoDup_cons. intros [Hx Hl] Ha Hb E.
  assert (Hnot : forall y, In y l -> f x <> f y) by (intros y Hy Ey; apply Hx; rewrite Ey; apply list_elem_of_In, in_map, Hy).
  destruct Ha as [->|Ha], Hb as [->|Hb]; [reflexivity| | |auto]; exfalso; eapply Hnot; eauto.
Qed.

Lemma read_octet_range s n : read_octet s = Some n -> 0 <= n < 256.
Proof.
  unfold read_octet. destruct (_ || _); [discriminate|]. destruct (forallb _ s); [|discriminate].
  destruct (parse_int (U 8) s) eqn:E; try discriminate. intros [= <-].
  apply parse_int_in in E; [|cbn; lia]. unfold in_type, U in E. cbn in E. lia.
Qed.

Definition octets (ip : IpAddr) : Prop :=
  match ip with V4 a b c d => 0 <= a < 256 /\ 0 <= b < 256 /\ 0 <= c < 256 /\ 0 <= d < 256 | V6 _ => False end.

Lemma parse_v4_octets s ip : parse_v4 s = Some ip -> octets ip.
Proof.
  unfold parse_v4. assert (H : Forall (fun o => forall n, o = Some n -> 0 <= n < 256) (map read_octet (split dot s)))
    by (apply Forall_map, Forall_forall; intros p _ n; apply read_octet_range).
  destruct (map read_octet (split dot s)) as [|[a|] [|[b|] [|[c|] [|[d|] [|]]]]]; try discriminate.
  intros [= <-]. rewrite !Forall_cons in H. destruct H as (Ha & Hb & Hc & Hd & _). cbn. auto 6.
Qed.

Lemma read_octet_decimal n : 0 <= n < 256 -> read_octet (decimal n) = Some n.
Proof.
  intros Hn. assert (H : forallb (fun n => bool_decide (read_octet (decimal (Z.of_nat n)) = Some (Z.of_nat n))) (seq 0 256) = true)
    by (vm_compute; reflexivity).
  rewrite forallb_forall in H. specialize (H (Z.to_nat n)). rewrite Z2Nat.id in H by lia.
  eapply bool_decide_eq_true_1, H, in_seq. lia.
Qed.

Lemma parse_v4_show show_v6 ip : octets ip -> parse_v4 (show_ip show_v6 ip) = Some ip.
Proof.
  destruct ip as [a b c d|]; [|intros []]. intros (Ha & Hb & Hc & Hd). cbn [show_ip]. unfold parse_v4.
  assert (Hdot : forall z, dot ∉ decimal z) by (intros z; apply decimal_no; unfold dot, minus_sign; lia).
  rewrite !split_app, split_one by apply Hdot. cbn [map]. rewrite !read_octet_decimal by assumption. reflexivity.
Qed.

Lemma parse_port_range s p : parse_port s = Some p -> 0 <= p < 2 ^ 16.
Proof.
  unfold parse_port. destruct (forallb _ s); [|discriminate]. destruct (parse_int (U 16) s) eqn:E; try discriminate. intros [= <-].
  apply parse_int_in in E; [|cbn; lia]. unfold in_type, U in E. cbn in E. lia.
Qed.

(** The regions that the gateway knows. *)
Definition region_known (r : ServerRow) : Prop := exists x, region_from r.(srv_region) = Ok x.

(** The constraints of the table of servers: unique ids, below the next one of
    the sequence, and unique identifiers. *)
Record servers_ok (t : Tables) : Prop := {
  keys_unique : NoDup (map srv_id t.(servers));
  identifiers_unique : NoDup (map identifier t.(servers));
  keys_below : Forall (fun r => 0 <= r.(srv_id) < t.(next_server)) t.(servers);
  keys_start : 0 <= t.(next_server);
}.

(** Registering leaves one row of the server, which keeps its id when there was one. *)
Lemma setup_registers server name region address port rpc rpc_port token t t' :
  setup server name region address port rpc rpc_port token t = (Ok (), t') -> servers_ok t ->
  exists i, let row := {| srv_id := i; identifier := i16 server; srv_name := name; srv_region := region; srv_address := address;
                          srv_port := i16 port; srv_token := token; srv_rpc_address := rpc; srv_rpc_port := i16 rpc_port |} in
    In row t'.(servers) /\ servers_ok t' /\ t'.(next_server) = t.(next_server) + 1
    /\ (forall r, In r t'.(servers) -> r.(srv_region) = region \/ In r t.(servers))
    /\ (forall r, In r t.(servers) -> r.(identifier) = i16 server -> r.(srv_id) = i).
Proof.
  unfold setup. destruct (negb _); [discriminate|]. intros [= <-] [Hk Hi Hb H0]. destruct (existsb _ t.(servers)) eqn:E.
  - apply existsb_exists in E as (r0 & Hr0 & E0%Z.eqb_eq). exists r0.(srv_id). cbn [servers next_server with_servers].
    split; [|split; [|split; [reflexivity|split]]].
    + apply in_map_iff. exists r0. rewrite E0, Z.eqb_refl. auto.
    + split; cbn [servers next_server with_servers]; 
        [rewrite map_map, (map_ext _ srv_id); [exact Hk|]|rewrite map_map, (map_ext _ identifier); [exact Hi|]| |lia];
        try (intros r; destruct (Z.eqb_spec r.(identifier) (i16 server)); cbn; congruence).
      apply Forall_map. eapply Forall_impl; [exact Hb|]. intros r Hr. cbn in Hr |- *. destruct (_ =? _); cbn; lia.
    + intros r Hr. apply in_map_iff in Hr as (r1 & <- & Hr1). destruct (_ =? _); [left; reflexivity|right; exact Hr1].
    + intros r Hr Er. f_equal. apply (NoDup_map_eq identifier t.(servers)); auto; congruence.
  - exists t.(next_server). cbn [servers next_server with_servers].
    assert (Hnone : forall r, In r t.(servers) -> r.(identifier) <> i16 server).
    { intros r Hr Er. rewrite <- not_true_iff_false in E. apply E, existsb_exists. exists r. rewrite Er, Z.eqb_refl. auto. }
    split; [|split; [|split; [reflexivity|split]]].
    + apply in_app_iff. right. left. reflexivity.
    + split; cbn [servers next_server with_servers]; [| | |lia].
      * rewrite map_app. apply NoDup_snoc; [exact Hk|]. intros Hin. apply in_map_iff in Hin as (r & Er & Hr).
        rewrite Forall_forall in Hb. apply list_elem_of_In, Hb in Hr. cbn in Er. lia.
      * rewrite map_app. apply NoDup_snoc; [exact Hi|]. intros Hin. apply in_map_iff in Hin as (r & Er & Hr). exact (Hnone r Hr Er).
      * apply Forall_app. split; [eapply Forall_impl; [exact Hb|intros r Hr; cbn in *; lia]|]. constructor; [cbn; lia|constructor].
    + intros r Hr. apply in_app_iff in Hr as [Hr|[<-|[]]]; [right; exact Hr|left; reflexivity].
    + intros r Hr Er. destruct (Hnone r Hr Er).
Qed.

(** The server of a row is found by its id, wherever the row is. *)
Lemma servers_of_find parse_v6 rows row s :
  Forall region_known rows -> NoDup (map srv_id rows) -> Forall (fun r => 0 <= r.(srv_id) < 2 ^ 16) rows ->
  In row rows -> server_of parse_v6 row = Ok (Some s) ->
  exists ss, servers_of parse_v6 rows = Ok ss /\ List.find (fun x => x.(id) =? s.(id)) ss = Some s.
Proof.
  assert (Hid : forall r x, server_of parse_v6 r = Ok (Some x) -> x.(id) = u16 r.(srv_id)).
  { intros r x. unfold server_of. destruct (parse_ip _ _); [|discriminate]. destruct (region_from _); [|discriminate..].
    intros [= <-]. reflexivity. }
  assert (Hok : forall r, region_known r -> exists x, server_of parse_v6 r = Ok x).
  { intros r [y Ey]. unfold server_of. destruct (parse_ip _ _); [|eauto]. rewrite Ey. cbn. eauto. }
  intros Hr Hn Hb Hin Es. induction rows as [|r rows IH]; [destruct Hin|]. cbn [servers_of].
  apply Forall_cons in Hr as [Hr1 Hr]. apply Forall_cons in Hb as [Hb1 Hb]. cbn [map] in Hn. apply list.NoDup_cons in Hn as [Hn1 Hn].
  destruct Hin as [->|Hin].
  - assert (Hrest : exists ss, servers_of parse_v6 rows = Ok ss).
    { clear - Hr Hok. induction Hr as [|r rows Hr _ [ss E]]; [eexists; reflexivity|]. cbn. destruct (Hok r Hr) as [x ->].
      cbn. rewrite E. cbn. eauto. }
    destruct Hrest as [ss E]. rewrite Es. cbn. rewrite E. cbn. eexists. split; [reflexivity|]. cbn. rewrite Z.eqb_refl. reflexivity.
  - destruct (IH Hr Hn Hb Hin) as (ss & E & Hf). destruct (Hok r Hr1) as [x Ex]. rewrite Ex. cbn. rewrite E. cbn.
    eexists. split; [reflexivity|]. destruct x as [x|]; [|exact Hf]. cbn [List.find].
    destruct (Z.eqb_spec x.(id) s.(id)) as [E1|]; [exfalso|exact Hf].
    rewrite (Hid _ _ Ex), (Hid _ _ Es) in E1. rewrite Forall_forall in Hb. pose proof (Hb row ltac:(apply list_elem_of_In, Hin)) as Hb2.
    rewrite !wrap_small in E1 by (apply fits_spec; assumption). apply Hn1. rewrite E1. apply list_elem_of_In, in_map, Hin.
Qed.

(** Polling keeps the order and the ids. *)
Lemma find_polled {A} `{!AgentRpc A} transports (agents : A) ss k s :
  List.find (fun x => x.(id) =? k) ss = Some s ->
  List.find (fun x => x.(id) =? k) (map (fun s => polled (transports s) agents s) ss) = Some (polled (transports s) agents s).
Proof.
  induction ss as [|x ss IH]; [discriminate|]. cbn [List.find map].
  assert (E : (polled (transports x) agents x).(id) = x.(id)) by (unfold polled; destruct (get_status _ _ _); reflexivity).
  rewrite E. destruct (x.(id) =? k); [congruence|exact IH].
Qed.

(** An address that is told is read back. *)
Lemma parse_socket_shown parse_v6 parse_v6_socket show_v6 :
  (forall s ip p, parse_v6_socket s = Some (ip, p) -> 0 <= p < 2 ^ 16 /\
     exists x, ip = V6 x /\ parse_v4 (show_v6 x) = None /\ parse_v6 (show_v6 x) = Some x) ->
  forall s ip p, parse_socket parse_v6_socket s = Some (ip, p) ->
  parse_ip parse_v6 (show_ip show_v6 ip) = Some ip /\ 0 <= p < 2 ^ 16.
Proof.
  intros Hv6 s ip p. assert (Hlong : parse_v6_socket s = Some (ip, p) -> parse_ip parse_v6 (show_ip show_v6 ip) = Some ip /\ 0 <= p < 2 ^ 16).
  { intros E. apply Hv6 in E as (Hp & x & -> & E4 & E6). split; [|exact Hp]. unfold parse_ip. cbn [show_ip]. rewrite E4, E6. reflexivity. }
  unfold parse_socket. destruct (split colon s) as [|host [|pt [|]]]; try exact Hlong.
  destruct (parse_v4 host) as [v4|] eqn:E4; [|exact Hlong]. destruct (parse_port pt) as [n|] eqn:Ep; [|exact Hlong].
  intros [= <- <-]. split; [|exact (parse_port_range _ _ Ep)]. unfold parse_ip.
  rewrite (parse_v4_show show_v6 v4) by exact (parse_v4_octets _ _ E4). reflexivity.
Qed.

(** C5: An agent that starts can be logged in to. When its region is known to
    the gateway, the port of its web interface fits the column and the rows of
    the table are well-formed, the gateway finds it at its next poll, whatever
    the order of the rows: with the address that clients are to be told, the
    address and the token of its web interface, online, under the id that its
    row had before it started again, if there was one. *)
Theorem started_agent_is_found parse_v6 parse_v6_socket show_v6 c draw t t' agent listen ip port region agents rows transports m
    (Hv6 : forall s ip p, parse_v6_socket s = Some (ip, p) -> 0 <= p < 2 ^ 16 /\
       exists x, ip = V6 x /\ parse_v4 (show_v6 x) = None /\ parse_v6 (show_v6 x) = Some x)
    (Hext : external_addr parse_v6_socket c = Some (ip, port)) (Hregion : region_from c.(cfg_region) = Ok region)
    (Hrpc : 0 <= c.(cfg_rpc_port) < 2 ^ 15) (Ht : servers_ok t) (Hnext : t.(next_server) < 2 ^ 16)
    (Hknown : Forall region_known t.(servers))
    (Hstart : agent_start parse_v6_socket show_v6 true c draw t = (Ok (agent, listen), t')) :
  let rpc := c.(cfg_rpc_address) ++ 58 :: decimal c.(cfg_rpc_port) in
  forall (Hagent : agents !! rpc = Some agent) (Hrows : rows ≡ₚ t'.(servers))
    (Hdelivered : forall s, s.(rpc_address) = rpc -> transports s = Delivered),
  exists m' s, poll parse_v6 (Some rows) transports agents m = Ok m' /\ find_server s.(id) m' = Some s
    /\ s.(name) = c.(cfg_name) /\ s.(address) = (ip, port) /\ s.(rpc_address) = rpc /\ s.(Gateway.region) = region
    /\ s.(status) = Online /\ s.(token) = agent.(settings).2 /\ agent.(settings).1 = c.(cfg_server_id)
    /\ forall r, In r t.(servers) -> r.(identifier) = i16 c.(cfg_server_id) -> s.(id) = r.(srv_id).
Proof.
  intros rpc. unfold agent_start in Hstart. rewrite Hext in Hstart.
  assert (Hip : parse_ip parse_v6 (show_ip show_v6 ip) = Some ip /\ 0 <= port < 2 ^ 16).
  { destruct (parse_socket_shown parse_v6 parse_v6_socket show_v6 Hv6 _ _ _ Hext) as [H1 H2]. auto. }
  destruct (setup _ _ _ _ _ _ _ _ t) as [[[]| |] t1] eqn:Es; try discriminate.
  destruct (parse_socket _ _) as [l|]; try discriminate. injection Hstart as <- _ <-.
  destruct (setup_registers _ _ _ _ _ _ _ _ _ _ Es Ht) as (i & Hin & [Hk _ Hb _] & En & Hrs & Hold).
  intros Hagent Hrows Hdelivered.
  match type of Hin with In ?r _ => set (row := r) in * end.
  set (s := agent_server_new (u16 i) c.(cfg_name) (ip, port) rpc region (map draw (seq 0 30))).
  assert (Hi : 0 <= i < 2 ^ 16).
  { rewrite Forall_forall in Hb. apply list_elem_of_In, Hb in Hin. cbn in Hin. lia. }
  assert (Hrow : server_of parse_v6 row = Ok (Some s)).
  { unfold server_of, row. cbn [srv_address srv_region srv_id srv_name srv_port srv_rpc_address srv_rpc_port srv_token].
    rewrite (proj1 Hip), Hregion. cbn [mbind outcome_bind].
    rewrite wrap_swrap, swrap_small by (try apply fits_spec; try apply sfits_spec; lia). reflexivity. }
  destruct (servers_of_find parse_v6 rows row s) as (ss & Ess & Hf).
  - rewrite Hrows. apply Forall_forall. intros r Hr. apply list_elem_of_In, Hrs in Hr as [Er|Hr].
    + exists region. rewrite Er. exact Hregion.
    + rewrite Forall_forall in Hknown. apply Hknown, list_elem_of_In, Hr.
  - rewrite Hrows. exact Hk.
  - rewrite Hrows. eapply Forall_impl; [exact Hb|]. intros r Hr. cbn in *. lia.
  - apply list_elem_of_In. rewrite Hrows. apply list_elem_of_In, Hin.
  - exact Hrow.
  - unfold poll. change (fetch_servers parse_v6 (Some rows)) with (servers_of parse_v6 rows). rewrite Ess. cbn [mbind outcome_bind].
    apply (find_polled transports agents) in Hf.
    assert (Ep : polled (transports s) agents s = update s (handle_capacity (capacity_new c.(max_player_count)))).
    { unfold polled. rewrite (Hdelivered s eq_refl). cbn [get_status agents_rpc]. change (rpc_address s) with rpc.
      rewrite Hagent. reflexivity. }
    rewrite Ep in Hf. eexists _, (update s (handle_capacity (capacity_new c.(max_player_count)))).
    split; [reflexivity|]. split; [exact Hf|]. cbn. repeat split.
    intros r Hr Er. rewrite (Hold r Hr Er). apply wrap_small, fits_spec, Hi.
Qed.

(** ** A concrete cluster *)

Section Examples.

(** Hashes carry their salt in front. *)
#[local] Instance salted : Bcrypt := {|
  verify given stored := Some (bool_decide (tail stored = given));
  hash salt given := Some (salt :: given)
|}.

Definition no_v6 (s : list Z) : option (list Z) := None.
Definition epoch : datetime := {| year := 1970; month := 1; day := 1; hour := 0; minute := 0; second := 0; timestamp_millis := 0 |}.

Definition ann : UserRow :=
  {| user_id := 1; username := chars "ann"; password := 7 :: chars "secret"; passcode := Some (chars "1234") |}.
Definition ben : UserRow := {| user_id := 2; username := chars "ben"; password := 7 :: chars "hidden"; passcode := None |}.
Definition host : ServerRow :=
  {| srv_id := 1; identifier := 5; srv_name := chars "Xian"; srv_region := chars "EU"; srv_address := chars "10.0.0.7";
     srv_port := 22230; srv_token := chars "token"; srv_rpc_address := chars "xian"; srv_rpc_port := 1337 |}.
Definition no_characters : Database :=
  {| characters := []; character_items := []; character_masteries := []; character_skills := []; next_id := 1 |}.
Definition tables_with (ss : list ServerRow) (us : list UserServer) : Tables :=
  {| users := [ann; ben]; next_user := 3; user_servers := us; servers := ss; next_server := 2; news_rows := [];
     database := no_characters |}.
Definition of_ann (server : Z) : UserServer :=
  {| us_user := 1; us_server := server; us_job := 0; us_premium_type := 0; us_premium_end := None |}.
Definition agent_of (server : Z) : Agent :=
  {| settings := (server, chars "token"); login_queue := login_queue_new (capacity_new 2) 60; authenticated := {[ 9 := None ]} |}.
Definition xian : list Z := chars "xian:1337".
Definition agents_of (server : Z) : Agents := {[ xian := agent_of server ]}.
Definition listed : AgentServer :=
  {| id := 1; name := chars "Xian"; address := (V4 10 0 0 7, 22230); rpc_address := xian; region := EU; status := Online;
     token := chars "token"; population := Easy |}.
Definition shared_of (server : Z) (t : Tables) : @Shared Agents :=
  {| tables := t; agents := agents_of server; manager := {| farms := []; the_servers := [listed] |};
     news := news_new 60 0 t; patcher := AcceptAll |}.
Definition at_once : Call := {| transport := Delivered; handled_at := 100; reserved_at := 100; draws := fun n => Z.of_nat n + 7 |}.

(** Polling finds the server of the table and the state of its agent. *)
Lemma poll_lists :
  poll no_v6 (Some [host]) (fun _ => Delivered) (agents_of 5) {| farms := []; the_servers := [] |}
  = Ok {| farms := []; the_servers := [listed] |}.
Proof. vm_compute. reflexivity. Qed.

(** The passcode 1234 as it is sent under the example cipher. *)
Definition sent_code : list Z := encrypt_block (le_num passcode_key) [49; 50; 51; 52; 0; 0; 0; 0].

Definition ann_as_user (job : Z) : ServerUser :=
  {| Population.id := 1; Population.username := chars "ann"; Population.job := job; premium_type := 0; premium_end := None |}.

Definition good_tables : Tables := tables_with [host] [of_ann 5].
Definition ann_packets : list packet :=
  [login_packet 18 0 (chars "ann") (chars "secret") 1; passcode_packet "Enter" 4 sent_code].

Lemma ann_logs_in : logs_in (chars "ann") (chars "secret") 1 (Some (chars "1234")) ann_packets.
Proof. apply logs_in_with_passcode. vm_compute. reflexivity. Qed.

Lemma good_names : names_unique good_tables.
Proof. unfold names_unique. vm_compute. repeat constructor; set_solver. Qed.

Lemma login_leads_to_play_witness :
  let '(answers, _, g') := handle_socket (fun s => s) (fun _ => epoch) epoch (connection at_once 100 ann_packets) None
    (shared_of 5 good_tables) in
  answers = [passcode_answer PasscodeRequiredResponse_passcode_required;
             ("SecurityCodeResponse"%string, SecurityCodeResponse_success);
             login_success 7 (chars "10.0.0.7") 22230]
  /\ exists agent', g'.(agents) !! xian = Some agent'
       /\ In {| Population.token := 7; content := ann_as_user 0; timeout := 160 |} agent'.(login_queue).(reservations).
Proof.
  pose proof (login_leads_to_play (fun s => s) (fun _ => epoch) epoch (shared_of 5 good_tables) ann (chars "secret") 1 listed
    (agent_of 5) (ann_as_user 0) 7 at_once 100 ann_packets good_names (or_introl eq_refl) eq_refl eq_refl eq_refl eq_refl eq_refl
    ltac:(vm_compute; reflexivity) ltac:(vm_compute; auto) ann_logs_in) as Hw.
  destruct (handle_socket _ _ _ _ _ _) as [[answers fate] g']. cbv zeta in Hw. destruct Hw as (-> & Hres & _).
  split; [reflexivity|exact Hres].
Defined.

(** A packet of a connection arrives. *)
Definition receive (c : Cluster) (k : Z) (p : packet) : Cluster :=
  let last := default None (c.(connections) !! k) in
  let '(_, fate, g) := handle_input (fun s => s) (fun _ => epoch) epoch at_once 100 (Read p) last c.(gateway) in
  {| gateway := g;
     connections := match fate with
                    | Continue last => <[k := last]> c.(connections)
                    | Closed _ => delete k c.(connections)
                    end |}.

Lemma receive_step c k p last label :
  c.(connections) !! k = Some last -> proves (request_of p) last c.(gateway).(tables) = label ->
  cluster_step no_v6 (fun s => s) (fun _ => epoch) epoch c label (receive c k p).
Proof.
  intros Hk <-. unfold receive. rewrite Hk. cbn [default].
  destruct (handle_input _ _ _ _ _ _ _ _) as [[answers fate] g] eqn:E.
  exact (step_input _ _ _ _ c k last at_once 100 (Read p) answers fate g Hk E).
Qed.

(** A run in which ann connects and logs in. *)
Definition start : Cluster := {| gateway := shared_of 5 good_tables; connections := ∅ |}.
Definition connected : Cluster := {| gateway := start.(gateway); connections := <[0 := None]> start.(connections) |}.
Definition asked : Cluster := receive connected 0 (login_packet 18 0 (chars "ann") (chars "secret") 1).
Definition logged_in : Cluster := receive asked 0 (passcode_packet "Enter" 4 sent_code).

Lemma ann_run : run no_v6 (fun s => s) (fun _ => epoch) epoch start [1] logged_in.
Proof.
  change [1] with ((([] ++ option_list None) ++ option_list None) ++ option_list (Some 1)).
  apply (run_step _ _ _ _ start _ asked (Some 1) logged_in); [apply (run_step _ _ _ _ start _ connected None asked);
    [apply (run_step _ _ _ _ start _ start None connected); [apply run_start|]|]|].
  - apply (step_connect _ _ _ _ start 0). reflexivity.
  - apply (receive_step connected 0 (login_packet 18 0 (chars "ann") (chars "secret") 1) None); vm_compute; reflexivity.
  - apply (receive_step asked 0 (passcode_packet "Enter" 4 sent_code)
             (Some {| c_username := chars "ann"; c_password := chars "secret"; shard := 1 |})); vm_compute; reflexivity.
Qed.

Lemma ann_reserved : reserved logged_in.(gateway).(agents) (ann_as_user 0).
Proof.
  destruct (logged_in.(gateway).(agents) !! xian) as [agent|] eqn:E; [|vm_compute in E; discriminate].
  exists xian, agent, {| Population.token := 7; content := ann_as_user 0; timeout := 160 |}.
  split; [exact E|]. split; [|reflexivity].
  assert (Hr : (fun a => reservations (login_queue a)) <$> (logged_in.(gateway).(agents) !! xian)
    = Some [{| Population.token := 7; content := ann_as_user 0; timeout := 160 |}]) by (vm_compute; reflexivity).
  rewrite E in Hr. cbn in Hr. injection Hr as ->. left. reflexivity.
Qed.

Lemma nobody_yet : forall user, ~ reserved (agents_of 5) user /\ ~ plays (agents_of 5) user.
Proof.
  intros user. split.
  - intros (address & agent & r & Hl & Hr & _). unfold agents_of in Hl; apply lookup_singleton_Some in Hl as [_ <-]. destruct Hr.
  - intros (address & agent & e & Hl & He). unfold agents_of in Hl; apply lookup_singleton_Some in Hl as [_ <-].
    cbn [agent_of authenticated] in He. apply lookup_singleton_Some in He as [_ ?]. discriminate.
Qed.

Lemma players_are_identified_witness :
  reserved logged_in.(gateway).(agents) (ann_as_user 0) /\ exists id, In id [1] /\ 1 = i32 (u32 id).
Proof.
  split; [exact ann_reserved|].
  exact (players_are_identified no_v6 (fun s => s) (fun _ => epoch) epoch start [1] logged_in (ann_as_user 0) good_names nobody_yet
           ann_run (or_introl ann_reserved)).
Defined.

(** ** What goes wrong *)

(** The row of a user on a server refers to the id of the server in the table,
    while the agent stores its own identifier: with another id, the first login
    of a user to a server is refused as if the user did not exist. *)
Lemma first_login_refused :
  (handle_socket (fun s => s) (fun _ => epoch) epoch (connection at_once 100 ann_packets) None
     (shared_of 5 (tables_with [host] []))).1.1
  = [passcode_answer PasscodeRequiredResponse_passcode_required;
     ("SecurityCodeResponse"%string, SecurityCodeResponse_success); login_error (VEnum "Inspection" [])].
Proof. vm_compute. reflexivity. Qed.

(** A user who plays logs in again: only reservations are compared. *)
Lemma second_login_while_playing :
  let q := (reserve_spot (ann_as_user 0) 0 0 (fun _ => 7) (login_queue_new (capacity_new 2) 60)).2 in
  let q := (hand_in_reservation 7 1 q).2 in
  q.(capacity).(playing) = 1
  /\ (reserve_spot (ann_as_user 0) 2 2 (fun _ => 8) q).1 = Ok (8, 59).
Proof. vm_compute. auto. Qed.

(** The loop over the sessions ends with the first success: the others who
    hand a token in during this tick are not answered. *)
Lemma auth_skipped_after_success :
  let q := (reserve_spot (ann_as_user 0) 0 0 (fun _ => 7) (login_queue_new (capacity_new 2) 60)).2 in
  let q := (reserve_spot {| Population.id := 2; Population.username := chars "ben"; Population.job := 0; premium_type := 0;
                            premium_end := None |} 0 0 (fun _ => 8) q).2 in
  exists q', handle_auth [(1, Some 7, 1); (2, Some 8, 1)] q
    = Ok ([(1, send_login_result AuthResult_success)], Some (1, ann_as_user 0), q').
Proof. eexists. vm_compute. reflexivity. Qed.

(** The time of the last refresh is never set: once the news are old, they are
    loaded for every request. *)
Lemma news_refreshed_every_time now t c :
  c.(cache_time) < now - c.(last_cache_time) ->
  let '(_, c') := get_news now t c in should_refresh now c' = true.
Proof.
  intros Hold. assert (E : should_refresh now c = true) by (apply Z.ltb_lt, Hold).
  unfold get_news. rewrite E. cbn. exact E.
Qed.

(** A client with a version that could be patched ends its connection by a
    panic, and so does a passcode of more than eight characters. *)
Lemma patchable_version_panics :
  handle_request (A := Agents) (fun s => s) (fun _ => epoch) epoch at_once 0 (PatchRequest 188) None
    {| tables := good_tables; agents := agents_of 5; manager := {| farms := []; the_servers := [] |};
       news := news_new 60 0 good_tables; patcher := AcceptMatching 180 190 [] [] |}
  = ([], Closed Panic, {| tables := good_tables; agents := agents_of 5; manager := {| farms := []; the_servers := [] |};
       news := news_new 60 0 good_tables; patcher := AcceptMatching 180 190 [] [] |}).
Proof. reflexivity. Qed.

(** A server with an unknown region stops the polling of all servers. *)
Lemma unknown_region_stops_polling :
  poll no_v6 (Some [host; {| srv_id := 2; identifier := 6; srv_name := chars "Petra"; srv_region := chars "TR";
      srv_address := chars "10.0.0.8"; srv_port := 22230; srv_token := []; srv_rpc_address := []; srv_rpc_port := 0 |}])
    (fun _ => Delivered) (agents_of 5) {| farms := []; the_servers := [] |} = Panic.
Proof. vm_compute. reflexivity. Qed.

(** Setting a game master does so for the characters of that name on every server. *)
Lemma set_gm_everywhere name g t :
  (set_gm name g t).1 = GmSet ->
  Forall (fun c => c.(charname) = name -> c.(db_gm) = g) (set_gm name g t).2.(database).(characters).
Proof.
  unfold set_gm. destruct (List.find _ _) as [c0|]; [|discriminate]. intros _. cbn [snd with_database database update_where with_characters characters].
  apply Forall_forall. intros c Hc Hn. apply list_elem_of_In, in_map_iff in Hc as (c1 & <- & _).
  destruct (bool_decide_reflect (c1.(charname) = name)) as [E|E]; [reflexivity|contradiction].
Qed.

(** The default configuration, with a server that had been registered before and another one. *)
Definition example_server : GameServerConfig :=
  {| cfg_listen_port := 15780; cfg_listen_address := chars "0.0.0.0"; external_address := Some (chars "84.12.3.7:15780");
     cfg_server_id := 5; cfg_rpc_address := chars "xian"; cfg_rpc_port := 1337; max_player_count := 10;
     cfg_region := chars "EU"; cfg_name := chars "Xian" |}.
Definition example_token (n : nat) : Z := 97 + Z.of_nat n mod 26.
Definition petra : ServerRow :=
  {| srv_id := 2; identifier := 6; srv_name := chars "Petra"; srv_region := chars "KR"; srv_address := chars "no address";
     srv_port := 22230; srv_token := []; srv_rpc_address := chars "petra"; srv_rpc_port := 1337 |}.
Definition both_servers : Tables :=
  {| users := []; next_user := 1; user_servers := []; servers := [petra; host]; next_server := 3; news_rows := [];
     database := no_characters |}.
Definition no_v6_socket (s : list Z) : option (IpAddr * Z) := None.
Definition started (c : GameServerConfig) (t : Tables) : outcome unit (Agent * (IpAddr * Z)) * Tables :=
  agent_start no_v6_socket (fun s => s) true c example_token t.
Definition example_started : Agent :=
  {| settings := (5, map example_token (seq 0 30)); login_queue := login_queue_new (capacity_new 10) 30; authenticated := ∅ |}.

Lemma both_servers_ok : servers_ok both_servers.
Proof. split; vm_compute; [repeat constructor; set_solver..| |discriminate]. repeat constructor; discriminate. Qed.

Lemma started_agent_is_found_witness :
  exists m' s, poll no_v6 (Some (rev (started example_server both_servers).2.(servers))) (fun _ => Delivered)
      {[ xian := example_started ]} {| farms := []; the_servers := [] |} = Ok m'
    /\ find_server s.(id) m' = Some s /\ s.(address) = (V4 84 12 3 7, 15780) /\ s.(rpc_address) = xian
    /\ s.(token) = example_started.(settings).2 /\ s.(id) = 1.
Proof.
  edestruct (started_agent_is_found no_v6 no_v6_socket (fun s => s) example_server example_token both_servers
    (started example_server both_servers).2 example_started (V4 0 0 0 0, 15780) (V4 84 12 3 7) 15780 EU
    {[ xian := example_started ]} (rev (started example_server both_servers).2.(servers)) (fun _ => Delivered)
    {| farms := []; the_servers := [] |}) as (m' & s & E & Hf & _ & Ha & Hr & _ & _ & Ht & _ & Hid);
    [discriminate|vm_compute; reflexivity|vm_compute; reflexivity|vm_compute; split; [discriminate|reflexivity]
    |exact both_servers_ok|vm_compute; reflexivity
    |repeat constructor; eexists; vm_compute; reflexivity|vm_compute; reflexivity|vm_compute; reflexivity| |reflexivity|].
  { apply Permutation_sym, Permutation_rev. }
  exists m', s. repeat (split; [assumption|]). apply (Hid host); [right; left; reflexivity|reflexivity].
Defined.

(** The port of the web interface is stored in 16 bits with a sign, and not
    converted back: for a port of 2^15 and more the gateway asks for a negative
    one, and no agent is there. *)
Lemma high_rpc_port_unreachable :
  let c := {| cfg_listen_port := 15780; cfg_listen_address := chars "0.0.0.0"; external_address := None; cfg_server_id := 5;
              cfg_rpc_address := chars "xian"; cfg_rpc_port := 40000; max_player_count := 10; cfg_region := chars "EU";
              cfg_name := chars "Xian" |} in
  exists m', poll no_v6 (Some (started c both_servers).2.(servers)) (fun _ => Delivered)
      {[ chars "xian:40000" := example_started ]} {| farms := []; the_servers := [] |} = Ok m'
    /\ (started c both_servers).1 = Ok (example_started, (V4 0 0 0 0, 15780))
    /\ map (fun s => (s.(rpc_address), s.(status))) m'.(the_servers) = [(chars "xian:-25536", Offline)].
Proof. eexists. split; [vm_compute; reflexivity|]. split; vm_compute; reflexivity. Qed.
End Examples.
