(* ===== verification/Sync.v ===== *)
(** agent/src/sync: the changes of the components of a tick are collected as
    updates, and distributed to the client of the entity and the clients that are in
    its radius.

    A collector is the function of one row of its query; [Changed], [Added] and
    the like are arguments. Collectors run in any order, and at the same time,
    so that the updates of a tick are distributed as some list of them. *)
From stdpp Require Import base list option strings gmap.
From Stdlib Require Import ZArith Lia.
From S2P Require Import Prelude Utf Text F32 Definitions TypeIdEnums TypeId GameData Serde Schema ProtoGeneral.
From S2P Require Import ProtoMovement ProtoCombat ProtoCharacter ProtoWorld Packets.
From S2P Require Import Characters Progress Position Entities Movement Visibility.

Record Update := { source : Entity; change_self : option packet; change_others : option packet }.

(** To the entity and to the others, or only to the entity. *)
Definition to_all (e : Entity) (p : packet) : Update :=
  {| source := e; change_self := Some p; change_others := Some p |}.
Definition to_self (e : Entity) (p : packet) : Update :=
  {| source := e; change_self := Some p; change_others := None |}.

(** ** Distribution *)

Section Distribution.
Context (set_order : gset EntityReference -> list EntityReference).

(** What has a client, and the visibility of what has one too. *)
Context (clients : Entity -> bool) (visibility : Entity -> option Visibility).

Definition packets_to (e : Entity) (p : option packet) : list (Entity * packet) :=
  match p with Some p => [(e, p)] | None => [] end.

Definition distribute (u : Update) : list (Entity * packet) :=
  match visibility u.(source) with
  | Some v =>
      if clients u.(source) then
        packets_to u.(source) u.(change_self)
        ++ flat_map (fun r => if clients r.(entity) then packets_to r.(entity) u.(change_others) else [])
             (set_order v.(entities_in_radius))
      else []
  | None => []
  end.

Definition synchronize_updates (updates : list Update) : list (Entity * packet) := flat_map distribute updates.

End Distribution.

(** ** Collection *)

(** Health and mana, with what changed in the tick. *)
Definition bar_source (change : Z) : val := if change <? 0 then VEnum "Damage" [] else VEnum "Regen" [].

Definition bars (e : EntityReference) (source updates : val) : Update :=
  to_all e.(entity) ("EntityBarsUpdate"%string, VStruct [VNum e.(game_entity).(unique_id); source; updates]).

Definition system_collect_bars_update (e : EntityReference) (health : Health) (mana : Mana) : list Update :=
  let hp := VNum health.(current_health) in
  let mp := VNum mana.(current_mana) in
  let single (c : option Z) (updates : val) : list Update :=
    match c with Some change => [bars e (bar_source change) updates] | None => [] end in
  let apart := single health.(change) (VEnum "HP" [hp]) ++ single mana.(mana_change) (VEnum "MP" [mp]) in
  match health.(change), mana.(mana_change) with
  | Some change_hp, Some change_mp =>
      if (0 <? change_hp) && (0 <? change_mp) then [bars e (VEnum "Regen" []) (VEnum "Both" [hp; mp])]
      else apart
  | _, _ => apart
  end.

Definition system_collect_sp_update (e : Entity) (added : bool) (s : SP) : list Update :=
  if added then []
  else [to_self e ("CharacterPointsUpdate"%string, CharacterPointsUpdate_sp (VNum s.(sp)))].

Definition system_collect_exp_update (e : Entity) (l : Leveled) (x : Experienced) : list Update :=
  map (fun event =>
    to_self e ("ReceiveExperience"%string,
      VStruct [VNum (default 0 event.(from)); VNum event.(gained_exp); VNum event.(gained_sp_exp); VNum 0;
               VOpt (if event.(trigged_level_up) then Some (VNum l.(level)) else None)]))
    x.(experience_received).

Section Stats.
Context (powi : f32 -> Z -> f32).

Definition stats_message (s : Stats) (level : Z) : packet :=
  ("CharacterStatsMessage"%string,
   CharacterStatsMessage_new (VNum 100) (VNum 100) (VNum 100) (VNum 100) (VNum 100) (VNum 100) (VNum 100) (VNum 100)
     (VNum (max_health_of powi s level)) (VNum (max_mana_of powi s level)) (VNum s.(str)) (VNum s.(int))).

Definition system_collect_level_up (e : EntityReference) (player : option Character) (l : Leveled) : list Update :=
  if did_level l then
    to_all e.(entity) ("LevelUpEffect"%string, VStruct [VNum e.(game_entity).(unique_id)])
    :: match player with
       | Some c => [to_self e.(entity) (stats_message c.(Characters.stats) l.(level))]
       | None => []
       end
  else [].

Definition collect_stat_changes (e : Entity) (l : Leveled) (p : StatPoints) : list Update :=
  (if p.(has_spent_points) then [to_self e (stats_message p.(stats) l.(level))] else [])
  ++ (if p.(has_gained_points) then
        [to_self e ("CharacterPointsUpdate"%string, VEnum "StatPoints" [VNum p.(remaining_points)])]
      else []).
End Stats.

(** *** Movement *)

Inductive MovementUpdate :=
| StartMove (current target : LocalPosition)
| StartMoveTowards (current : LocalPosition) (direction : Heading)
| StopMove (current : LocalPosition) (heading : Heading)
| Turn (heading : Heading).

Definition f10 : f32 := f32_of_Z 10.
Definition u16_of (f : f32) : val := VNum (f32_as (U 16) f).

(** Where a movement starts, in tenths. *)
Definition movement_source (current : LocalPosition) : val :=
  MovementSource_new (VNum current.(lp_region)) (u16_of (fmul current.(lp_vec).(x3) f10))
    (f32_val (fmul current.(lp_vec).(y3) f10)) (u16_of (fmul current.(lp_vec).(z3) f10)).

Definition destination (p : LocalPosition) : val :=
  MovementDestination_location (VNum p.(lp_region)) (u16_of p.(lp_vec).(x3)) (u16_of p.(lp_vec).(y3))
    (u16_of p.(lp_vec).(z3)).

Definition create_movement_packet (e : GameEntity) (u : MovementUpdate) : packet :=
  let id := VNum e.(unique_id) in
  ("PlayerMovementResponse"%string,
   match u with
   | StartMove current target =>
       PlayerMovementResponse_new id (destination target) (VOpt (Some (movement_source current)))
   | StartMoveTowards current direction =>
       PlayerMovementResponse_new id
         (MovementDestination_direction (VBool true) (VNum (heading_into_u16 direction)))
         (VOpt (Some (movement_source current)))
   | StopMove current _ => PlayerMovementResponse_new id (destination current) (VOpt None)
   | Turn heading =>
       PlayerMovementResponse_new id
         (MovementDestination_direction (VBool false) (VNum (heading_into_u16 heading))) (VOpt None)
   end).

(** [moving]: the goal, and whether the component was added or changed;
    [idle]: whether it was added. *)
Definition movement_update_of (pos : Position) (moving : option (MovementGoal * bool)) (idle : option bool)
    : option (MovementUpdate + val) :=
  let here := to_local pos.(location) in
  match moving, idle with
  | Some (goal, touched), None =>
      if negb touched then None
      else
        Some (inl (match goal with
                   | GoalLocation dest | GoalEntity _ dest _ => StartMove here (to_local dest)
                   | GoalDirection direction => StartMoveTowards here direction
                   end))
  | None, Some true => Some (inl (StopMove here pos.(rotation)))
  | _, _ =>
      if pos.(has_moved) then Some (inr (as_protocol pos))
      else if pos.(has_rotated) then Some (inl (Turn pos.(rotation)))
      else None
  end.

Definition collect_movement_update (e : EntityReference) (pos : Position) (moving : option (MovementGoal * bool))
    (idle : option bool) : list Update :=
  match movement_update_of pos moving idle with
  | Some (inl u) => [to_all e.(entity) (create_movement_packet e.(game_entity) u)]
  | Some (inr position) =>
      [to_all e.(entity) ("EntityMovementInterrupt"%string, VStruct [VNum e.(game_entity).(unique_id); position])]
  | None => []
  end.

Definition collect_movement_speed_change (e : EntityReference) (added : bool) (speed : MovementSpeed) : list Update :=
  if added then []
  else
    [to_all e.(entity) ("EntityUpdateState"%string,
       EntityUpdateState_movement (VNum e.(game_entity).(unique_id))
         (match speed with
          | Running | Berserk => VEnum "Running" []
          | Walking => VEnum "Walking" []
          end))].

(** [cooldown]: of the pickup, whether no time has elapsed. *)
Definition collect_pickup_animation (e : EntityReference) (pos : Position) (cooldown : option bool) : list Update :=
  match cooldown with
  | Some true =>
      [to_all e.(entity) ("PlayerPickupAnimation"%string,
         VStruct [VNum e.(game_entity).(unique_id); VNum (heading_into_u8 pos.(rotation))])]
  | _ => []
  end.

(** *** States and points *)

Definition life (e : EntityReference) (s : string) : packet :=
  ("EntityUpdateState"%string, EntityUpdateState_life (VNum e.(game_entity).(unique_id)) (VEnum s [])).
Definition body (e : EntityReference) (s : string) : packet :=
  ("EntityUpdateState"%string, EntityUpdateState_body (VNum e.(game_entity).(unique_id)) (VEnum s [])).

(** An entity whose [Dead] was added; one whose loading has finished. *)
Definition collect_deaths (e : EntityReference) : list Update := [to_all e.(entity) (life e "Dead")].
Definition collect_alives (e : option EntityReference) : list Update :=
  match e with Some e => [to_all e.(entity) (life e "Alive")] | None => [] end.

Definition collect_body_states (invisible invincible : list EntityReference) : list Update :=
  map (fun e => to_self e.(entity) (body e "GMInvisible")) invisible
  ++ map (fun e => to_all e.(entity) (body e "GMInvincible")) invincible.

Definition collect_gold_changes (e : Entity) (g : GoldPouch) : list Update :=
  [to_self e ("CharacterPointsUpdate"%string, VEnum "Gold" [VNum g.(gold); VBool true])].

Definition collect_mastery_changes (e : Entity) (k : MasteryKnowledge) : list Update :=
  map (fun mastery_ref =>
    to_self e ("LevelUpMasteryResponse"%string,
      VEnum "Success" [VNum mastery_ref; VNum (default 1 (level_of mastery_ref k))]))
    k.(leveled_masteries).
