(* ===== verification/SyncSpec.v ===== *)
(** Synchronization: what each client receives and in which order, and that
    every message is legal. *)
From stdpp Require Import base list option strings gmap.
From Stdlib Require Import ZArith Lia.
From S2P Require Import Prelude Utf Text F32 Definitions TypeIdEnums TypeId GameData Serde SerdeFacts Schema ProtoGeneral.
From S2P Require Import ProtoMovement ProtoCombat ProtoCharacter ProtoWorld Packets.
From S2P Require Import Characters Progress Position PositionSpec Entities Movement Visibility VisibilitySpec Sync.

(** ** Distribution *)

(** What one client is sent, in order. *)
Definition received (c : Entity) (log : list (Entity * packet)) : list packet :=
  map snd (List.filter (fun e => e.1 =? c) log).

Lemma received_app c a b : received c (a ++ b) = received c a ++ received c b.
Proof. unfold received. rewrite List.filter_app. apply map_app. Qed.

Lemma received_packets_to c e p :
  received c (packets_to e p) = if e =? c then option_list p else [].
Proof. destruct p as [p|]; [|destruct (e =? c); reflexivity]. unfold received. cbn. destruct (e =? c); reflexivity. Qed.

Section Distribution.
Context (set_order : gset EntityReference -> list EntityReference).
Hypothesis set_order_elements : forall s, set_order s ≡ₚ elements s.
Context (clients : Entity -> bool) (visibility : Entity -> option Visibility).

(** Entities have one reference, and are not in their own radius. *)
Definition radius_wf (e : Entity) (v : Visibility) : Prop :=
  (forall a b, a ∈ v.(entities_in_radius) -> b ∈ v.(entities_in_radius) -> a.(entity) = b.(entity) -> a = b)
  /\ (forall a, a ∈ v.(entities_in_radius) -> a.(entity) <> e).

Definition in_radius (c : Entity) (v : Visibility) : bool :=
  existsb (fun r => r.(entity) =? c) (elements v.(entities_in_radius)).

(** The part of an update that is for a client. *)
Definition share (c : Entity) (u : Update) : list packet :=
  match visibility u.(source) with
  | Some v =>
      if clients u.(source) then
        if u.(source) =? c then option_list u.(change_self)
        else if clients c && in_radius c v then option_list u.(change_others)
        else []
      else []
  | None => []
  end.

Lemma received_others c (rs : list EntityReference) p :
  NoDup (map entity rs) ->
  received c (flat_map (fun r => if clients r.(entity) then packets_to r.(entity) p else []) rs)
  = if clients c && existsb (fun r => r.(entity) =? c) rs then option_list p else [].
Proof.
  induction rs as [|r rs IH]; cbn [map flat_map existsb]; [rewrite andb_false_r; reflexivity|].
  intros [Hr Hn]%NoDup_cons. rewrite received_app, (IH Hn).
  assert (Hf : r.(entity) = c -> existsb (fun r => r.(entity) =? c) rs = false).
  { intros <-. apply not_true_iff_false. intros (x & Hx & Ex)%existsb_exists. apply Hr.
    apply Z.eqb_eq in Ex. rewrite <- Ex, list_elem_of_In. apply in_map, Hx. }
  destruct (Z.eqb_spec r.(entity) c) as [E|E]; cbn [orb].
  - rewrite (Hf E), E, andb_false_r, app_nil_r, andb_true_r.
    destruct (clients c); [|reflexivity]. rewrite received_packets_to, Z.eqb_refl. reflexivity.
  - destruct (clients r.(entity)); [|reflexivity].
    rewrite received_packets_to. destruct (Z.eqb_spec r.(entity) c); [contradiction|reflexivity].
Qed.

Lemma existsb_Permutation {A} (p : A -> bool) a b : a ≡ₚ b -> existsb p a = existsb p b.
Proof. induction 1; cbn; [reflexivity|congruence|destruct (p x), (p y); reflexivity|congruence]. Qed.

(** C20: Every client receives its own part of every update of an entity with a
    client, and the part for others of those with it in their radius, each
    once and in the order of the updates. *)
Theorem updates_distributed c us
    (Hwf : forall u v, u ∈ us -> visibility u.(source) = Some v -> radius_wf u.(source) v) :
  received c (synchronize_updates set_order clients visibility us) = flat_map (share c) us.
Proof.
  induction us as [|u us IH]; [reflexivity|].
  unfold synchronize_updates in *. cbn [flat_map]. rewrite received_app, IH by (intros; eapply Hwf; [right; eassumption|assumption]).
  f_equal. unfold distribute, share. destruct (visibility u.(source)) as [v|] eqn:Ev; [|reflexivity].
  destruct (clients u.(source)); [|reflexivity].
  destruct (Hwf u v (list_elem_of_here _ _) Ev) as [Hone Hself].
  assert (Hn : NoDup (map entity (set_order v.(entities_in_radius)))).
  { apply NoDup_fmap_2_strong; [|apply NoDup_set_order, set_order_elements].
    intros a b Ha Hb. apply (elem_of_set_order _ set_order_elements) in Ha, Hb. apply Hone; assumption. }
  rewrite received_app, received_packets_to, received_others by exact Hn.
  rewrite (existsb_Permutation _ _ _ (set_order_elements v.(entities_in_radius))). fold (in_radius c v).
  destruct (Z.eqb_spec u.(source) c) as [<-|Hc]; [|reflexivity].
  replace (in_radius u.(source) v) with false; [rewrite andb_false_r; apply app_nil_r|].
  symmetry. apply not_true_iff_false. intros (a & Ha & Ea)%existsb_exists. apply Z.eqb_eq in Ea.
  apply (Hself a); [|exact Ea]. apply elem_of_elements, list_elem_of_In, Ha.
Qed.

(** An entity without a client, such as a monster, is not found by the query of
    the sources: its updates reach nobody. *)
Lemma updates_of_monsters_dropped u :
  clients u.(source) = false -> distribute set_order clients visibility u = [].
Proof. intros Hc. unfold distribute. destruct (visibility u.(source)); [rewrite Hc|]; reflexivity. Qed.

End Distribution.

(** ** The messages are legal *)

Section Legal.
Context (powi : f32 -> Z -> f32).

Definition update_legal (u : Update) : Prop :=
  (forall p, u.(change_self) = Some p -> deliverable p) /\ (forall p, u.(change_others) = Some p -> deliverable p).

Lemma to_all_legal e p : deliverable p -> update_legal (to_all e p).
Proof. intros H. split; intros q [= <-]; exact H. Qed.
Lemma to_self_legal e p : deliverable p -> update_legal (to_self e p).
Proof. intros H. split; intros q Hq; [injection Hq as <-; exact H|discriminate]. Qed.

Definition stats_wf (s : Stats) : Prop := fits 16 s.(str) = true /\ fits 16 s.(int) = true.

Definition gain_wf (g : ExperienceGained) : Prop :=
  fits 64 g.(gained_exp) = true /\ fits 64 g.(gained_sp_exp) = true
  /\ match g.(from) with Some id => fits 32 id = true | None => True end.

(** The updates that the collectors make of components whose fields are in the
    ranges of their types. *)
Inductive collects : Update -> Prop :=
| collects_bars e h m u :
    reference_wf e -> fits 32 h.(current_health) = true -> fits 32 m.(current_mana) = true ->
    u ∈ system_collect_bars_update e h m -> collects u
| collects_sp e added s u : fits 32 s.(sp) = true -> u ∈ system_collect_sp_update e added s -> collects u
| collects_exp e l x u :
    fits 8 l.(level) = true -> Forall gain_wf x.(experience_received) ->
    u ∈ system_collect_exp_update e l x -> collects u
| collects_level_up e player l u :
    reference_wf e -> (forall c, player = Some c -> stats_wf c.(Characters.stats)) ->
    u ∈ system_collect_level_up powi e player l -> collects u
| collects_stats e l p u :
    stats_wf p.(stats) -> fits 16 p.(remaining_points) = true -> u ∈ collect_stat_changes powi e l p -> collects u
| collects_movement e pos moving idle u :
    reference_wf e -> u ∈ collect_movement_update e pos moving idle -> collects u
| collects_speed e added speed u :
    reference_wf e -> u ∈ collect_movement_speed_change e added speed -> collects u
| collects_pickup e pos cooldown u :
    reference_wf e -> u ∈ collect_pickup_animation e pos cooldown -> collects u
| collects_death e u : reference_wf e -> u ∈ collect_deaths e -> collects u
| collects_alive e u : (forall r, e = Some r -> reference_wf r) -> u ∈ collect_alives e -> collects u
| collects_body invisible invincible u :
    Forall reference_wf invisible -> Forall reference_wf invincible ->
    u ∈ collect_body_states invisible invincible -> collects u
| collects_gold e g u : fits 64 g.(gold) = true -> u ∈ collect_gold_changes e g -> collects u
| collects_mastery e k u :
    Forall (fun m => fits 32 m = true) k.(leveled_masteries) ->
    (forall m v, k.(masteries) !! m = Some v -> fits 8 v = true) ->
    u ∈ collect_mastery_changes e k -> collects u.

Lemma scaled_fits l v : fits 32 (scaled powi l v) = true.
Proof. apply f32_as_fits. lia. Qed.
Hint Resolve scaled_fits : skr.

Lemma stats_message_deliverable s l : stats_wf s -> deliverable (stats_message powi s l).
Proof.
  intros [Hs Hi]. eapply deliverable_intro; [reflexivity|].
  unfold CharacterStatsMessage_new, max_health_of, max_mana_of. legal_value.
Qed.

Lemma movement_source_legal l : fits 16 l.(lp_region) = true -> encodable no_args [] MovementSource (movement_source l) = true.
Proof. intros Hr. unfold movement_source, MovementSource_new, u16_of, f32_val. legal_value. Qed.
Lemma destination_legal l : fits 16 l.(lp_region) = true -> encodable no_args [] MovementDestination (destination l) = true.
Proof. intros Hr. unfold destination, MovementDestination_location, u16_of. legal_value. Qed.
Hint Resolve movement_source_legal destination_legal : legal.

Lemma to_local_region_fits p : fits 16 (to_local p).(lp_region) = true.
Proof. apply position_region_fits. Qed.
Hint Resolve to_local_region_fits : skr legal.

Definition movement_update_wf (u : MovementUpdate) : Prop :=
  match u with
  | StartMove c t => fits 16 c.(lp_region) = true /\ fits 16 t.(lp_region) = true
  | StartMoveTowards c _ | StopMove c _ => fits 16 c.(lp_region) = true
  | Turn _ => True
  end.

Lemma movement_packet_deliverable e u :
  fits 32 e.(unique_id) = true -> movement_update_wf u -> deliverable (create_movement_packet e u).
Proof.
  intros He Hu. eapply deliverable_intro; [reflexivity|].
  destruct u as [c t|c d|c h|h]; cbn in Hu; [destruct Hu as [Hc Ht]|..];
    unfold PlayerMovementResponse_new, MovementDestination_direction, heading_into_u16; legal_value.
Qed.

Ltac legal_update :=
  first [apply to_all_legal | apply to_self_legal];
  eapply deliverable_intro; [reflexivity|]; cbn [snd];
  try unfold CharacterPointsUpdate_sp; try unfold EntityUpdateState_life; try unfold EntityUpdateState_body;
  try unfold EntityUpdateState_movement; try unfold heading_into_u8; legal_value.

Lemma bars_legal e s v :
  reference_wf e -> encodable no_args [] EntityBarUpdateSource s = true -> encodable no_args [] EntityBarUpdates v = true ->
  update_legal (bars e s v).
Proof. intros [He _] Hs Hv. unfold bars. legal_update. Qed.

Lemma bar_source_legal c : encodable no_args [] EntityBarUpdateSource (bar_source c) = true.
Proof. unfold bar_source. destruct (c <? 0); reflexivity. Qed.

Lemma collected_bars_legal e h m u :
  reference_wf e -> fits 32 h.(current_health) = true -> fits 32 m.(current_mana) = true ->
  u ∈ system_collect_bars_update e h m -> update_legal u.
Proof.
  intros He Hh Hm. unfold system_collect_bars_update. cbv zeta.
  assert (Hhp : encodable no_args [] EntityBarUpdates (VEnum "HP" [VNum h.(current_health)]) = true) by legal_value.
  assert (Hmp : encodable no_args [] EntityBarUpdates (VEnum "MP" [VNum m.(current_mana)]) = true) by legal_value.
  assert (Hb : encodable no_args [] EntityBarUpdates (VEnum "Both" [VNum h.(current_health); VNum m.(current_mana)]) = true)
    by legal_value.
  destruct h.(change) as [ch|], m.(mana_change) as [cm|]; [destruct (_ && _)|..];
    cbn [app]; rewrite ?elem_of_cons, elem_of_nil; intros Hu; repeat destruct Hu as [Hu|Hu]; try contradiction;
    subst u; apply bars_legal; auto using bar_source_legal.
Qed.

Lemma collected_movement_legal e pos moving idle u :
  reference_wf e -> u ∈ collect_movement_update e pos moving idle -> update_legal u.
Proof.
  intros [He _] Hu. unfold collect_movement_update in Hu.
  destruct (movement_update_of pos moving idle) as [[v|v]|] eqn:E; [| |inversion Hu];
    apply list_elem_of_singleton in Hu as ->; apply to_all_legal.
  - apply movement_packet_deliverable; [exact He|].
    unfold movement_update_of in E.
    destruct moving as [[[] []]|], idle as [[]|]; cbn in E; repeat case_match_hyp E; simplify_eq; cbn;
      auto using position_region_fits.
  - assert (Hv : encodable no_args [] ProtoMovement.Position v = true).
    { unfold movement_update_of in E.
      destruct moving as [[[] []]|], idle as [[]|]; cbn in E; repeat case_match_hyp E; simplify_eq; apply as_protocol_legal. }
    eapply deliverable_intro; [reflexivity|]. legal_value.
Qed.

Lemma collects_legal u : collects u -> update_legal u.
Proof.
  destruct 1 as [e h m u He Hh Hm Hu|e added s u Hs Hu|e l x u Hl Hx Hu|e player l u He Hp Hu|e l p u Hs Hr Hu
                |e pos moving idle u He Hu|e added speed u He Hu|e pos cooldown u He Hu|e u He Hu|e u He Hu
                |invisible invincible u H1 H2 Hu|e g u Hg Hu|e k u Hk Hv Hu].
  - eapply collected_bars_legal; eassumption.
  - unfold system_collect_sp_update in Hu. destruct added; [inversion Hu|]. apply list_elem_of_singleton in Hu as ->. legal_update.
  - apply list_elem_of_In, in_map_iff in Hu as (g & <- & Hg). rewrite Forall_forall in Hx.
    apply list_elem_of_In, Hx in Hg as (Hg1 & Hg2 & Hg3).
    assert (Hl' : fits 16 l.(level) = true) by (apply fits_spec in Hl; apply fits_spec; lia).
    assert (Hf : fits 32 (default 0 g.(from)) = true) by (destruct g.(from); [exact Hg3|reflexivity]).
    destruct g.(trigged_level_up); legal_update.
  - unfold system_collect_level_up in Hu. destruct (did_level l); [|inversion Hu]. apply elem_of_cons in Hu as [->|Hu].
    + destruct He as [He _]. legal_update.
    + destruct player as [c|]; [|inversion Hu]. apply list_elem_of_singleton in Hu as ->.
      apply to_self_legal, stats_message_deliverable, Hp. reflexivity.
  - unfold collect_stat_changes in Hu. apply elem_of_app in Hu as [Hu|Hu].
    + destruct p.(has_spent_points); [|inversion Hu]. apply list_elem_of_singleton in Hu as ->.
      apply to_self_legal, stats_message_deliverable, Hs.
    + destruct p.(has_gained_points); [|inversion Hu]. apply list_elem_of_singleton in Hu as ->. legal_update.
  - eapply collected_movement_legal; eassumption.
  - destruct He as [He _]. unfold collect_movement_speed_change in Hu. destruct added; [inversion Hu|].
    apply list_elem_of_singleton in Hu as ->. destruct speed; legal_update.
  - destruct He as [He _]. destruct cooldown as [[]|]; try (inversion Hu; fail). apply list_elem_of_singleton in Hu as ->. legal_update.
  - destruct He as [He _]. apply list_elem_of_singleton in Hu as ->. unfold life. legal_update.
  - destruct e as [e|]; [|inversion Hu]. destruct (He e eq_refl) as [He' _]. apply list_elem_of_singleton in Hu as ->. unfold life. legal_update.
  - apply elem_of_app in Hu as [Hu|Hu]; apply list_elem_of_In, in_map_iff in Hu as (e & <- & He); apply list_elem_of_In in He;
      [rewrite Forall_forall in H1; destruct (H1 e He) as [He' _]|rewrite Forall_forall in H2; destruct (H2 e He) as [He' _]];
      unfold body; legal_update.
  - apply list_elem_of_singleton in Hu as ->. legal_update.
  - apply list_elem_of_In, in_map_iff in Hu as (m & <- & Hm). rewrite Forall_forall in Hk. apply list_elem_of_In, Hk in Hm.
    assert (Hl : fits 8 (default 1 (level_of m k)) = true).
    { unfold level_of. destruct (k.(masteries) !! m) eqn:E; [eapply Hv, E|reflexivity]. }
    legal_update.
Qed.

(** C38: Whatever the collectors find in components in the ranges of their
    types, and however their updates interleave, all that the distribution
    sends are legal packets. *)
Theorem sync_messages_legal set_order clients visibility us (Hus : Forall collects us) :
  Forall (fun e => deliverable e.2) (synchronize_updates set_order clients visibility us).
Proof.
  apply Forall_forall. intros [e p]. rewrite list_elem_of_In. unfold synchronize_updates. intros (u & Hu & Hp)%in_flat_map.
  rewrite Forall_forall in Hus. apply list_elem_of_In, Hus, collects_legal in Hu as [Hs Ho].
  unfold distribute in Hp. destruct (visibility u.(source)) as [v|]; [|easy]. destruct (clients u.(source)); [|easy].
  apply in_app_iff in Hp as [Hp|Hp].
  - destruct u.(change_self) as [q|]; [|easy]. destruct Hp as [[= <- <-]|[]]. apply Hs. reflexivity.
  - apply in_flat_map in Hp as (r & _ & Hp). destruct (clients r.(entity)); [|easy].
    destruct u.(change_others) as [q|]; [|easy]. destruct Hp as [[= <- <-]|[]]. apply Ho. reflexivity.
Qed.

End Legal.

(** ** Examples: two players and a monster in sight of each other *)

Definition player_a := a_reference 1 11.
Definition player_b := a_reference 2 12.
Definition monster_c := a_reference 3 13.
Definition some_clients (e : Entity) : bool := (e =? 1) || (e =? 2).
Definition sight (others : list EntityReference) : Visibility :=
  {| visibility_radius := f32_of_Z 500; entities_in_radius := list_to_set others; added_entities := [];
     removed_entities := [] |}.
Definition some_visibility (e : Entity) : option Visibility :=
  if e =? 1 then Some (sight [player_b; monster_c])
  else if e =? 2 then Some (sight [player_a; monster_c])
  else if e =? 3 then Some (sight [player_a; player_b]) else None.

Definition a_goal : MovementGoal * bool :=
  (GoalLocation {| x3 := f32_of_Z 259300; y3 := f32_of_Z 0; z3 := f32_of_Z 176640 |}, true).
Definition a_walk (r : EntityReference) : list Update :=
  collect_movement_update r (at_point 259200 176640) (Some a_goal) None.
Definition some_health : Health := {| current_health := 90; max_health := 100; change := Some (-100) |}.
Definition some_mana : Mana := {| current_mana := 50; max_mana := 50; mana_change := None |}.
Definition a_blow : list Update := system_collect_bars_update player_b some_health some_mana.
Definition a_tick_of_updates : list Update := a_walk player_a ++ a_blow ++ a_walk monster_c.

Lemma updates_distributed_witness :
  received 2 (synchronize_updates elements some_clients some_visibility a_tick_of_updates)
    = flat_map (share some_clients some_visibility 2) a_tick_of_updates
  /\ length (flat_map (share some_clients some_visibility 2) a_tick_of_updates) = 2%nat.
Proof.
  split; [|reflexivity].
  apply (updates_distributed elements (fun s => reflexivity _) some_clients some_visibility).
  intros u v Hu Hv.
  assert (E : u.(source) = 1 \/ u.(source) = 2 \/ u.(source) = 3).
  { cbn in Hu. rewrite !elem_of_cons, elem_of_nil in Hu. destruct Hu as [->|[->|[->|[]]]]; cbn; lia. }
  destruct E as [E|[E|E]]; rewrite E in Hv |- *; injection Hv as <-; split; intros a; cbn [sight entities_in_radius].
  all: try (intros b Ha Hb; rewrite elem_of_list_to_set, !elem_of_cons, elem_of_nil in Ha, Hb;
    destruct Ha as [->|[->|[]]], Hb as [->|[->|[]]]; cbn; congruence).
  all: intros Ha; rewrite elem_of_list_to_set, !elem_of_cons, elem_of_nil in Ha; destruct Ha as [->|[->|[]]]; cbn; lia.
Defined.

Lemma sync_messages_legal_witness :
  let powi := fun (_ : f32) (_ : Z) => f32_of_Z 1 in
  length (synchronize_updates elements some_clients some_visibility a_tick_of_updates) = 4%nat
  /\ Forall (fun e => deliverable e.2) (synchronize_updates elements some_clients some_visibility a_tick_of_updates).
Proof.
  intros powi. split; [reflexivity|]. apply (sync_messages_legal powi). repeat apply Forall_cons_2; [..|constructor].
  - apply (collects_movement powi player_a (at_point 259200 176640) (Some a_goal) None); [split; reflexivity|left].
  - apply (collects_bars powi player_b some_health some_mana); [split; reflexivity|reflexivity|reflexivity|left].
  - apply (collects_movement powi monster_c (at_point 259200 176640) (Some a_goal) None); [split; reflexivity|left].
Defined.

(** The walk of the monster reaches neither player, although both see it. *)
Lemma monster_walk_not_sent :
  a_walk monster_c <> []
  /\ synchronize_updates elements some_clients some_visibility (a_walk monster_c) = [].
Proof. split; [discriminate|]. reflexivity. Qed.
