(* ===== verification/CharSelect.v ===== *)
(** agent/src/login: the character selection of a session ([charselect.rs],
    [jobs.rs], [components.rs]), its tasks on the database, entering the game,
    and the distribution of jobs ([job_distribution.rs]).

    A request starts a task, which runs later, in any order with the ones of
    other sessions, and may panic; its result comes through a receiver, a
    component of the session. In a tick the system of the requests and those of
    the results run in any order; they insert and remove receivers by commands,
    which are applied after all of them, system by system in any order, so that
    in one tick the removal of an old receiver may follow the insertion of a new
    one. The database is that of [Characters]. *)
From stdpp Require Import base list option strings gmap.
From Stdlib Require Import ZArith Lia.
From S2P Require Import Prelude Utf Text F32 Definitions TypeIdEnums TypeId GameData SkillData Serde Schema ProtoGeneral.
From S2P Require Import ProtoLogin ProtoCombat ProtoInventory ProtoWorld ProtoCharacter ProtoSpawn Packets.
From S2P Require Import Visibility Inventory InventoryRows Progress Position Entities Characters.

(** ** Requests and tasks *)

Inductive CharacterListRequestAction :=
| Create (character_name : list Z) (ref_id scale chest pants boots weapon : Z)
| ListCharacters
| Delete (character_name : list Z)
| CheckName (character_name : list Z)
| RestoreCharacter (character_name : list Z)
| ShowJobSpread
| AssignJob (job : Z).

(** The futures handed to the runtime. *)
Inductive Task :=
| TaskCreate (character : DbCharacter)
| TaskLoad (user server : Z)
| TaskDelete (user : Z) (name : list Z) (server duration : Z)
| TaskCheck (name : list Z) (server : Z)
| TaskRestore (user : Z) (name : list Z) (server : Z).

Inductive TaskResult :=
| Created
| Loaded (cs : list DbCharacter)
| Deleted (success : bool)
| Checked (name : list Z) (available : bool)
| Restored (success : bool).

(** [CharacterSelect], and the components that hold a receiver; a receiver is
    the number of its task. *)
Record Session := {
  user : Z;
  known : option (list DbCharacter);
  checked_name : option (list Z);
  creating : option nat;
  loading : option nat;
  deleting : option nat;
  checking : option nat;
  restoring : option nat;
}.

Definition session_new (user : Z) : Session :=
  {| user := user; known := None; checked_name := None; creating := None; loading := None; deleting := None;
     checking := None; restoring := None |}.

Record ServerConfig := { the_server : Z; deletion_time : Z; job_spread : Z * Z }.

(** The kinds of tasks: their receivers are components of their own. *)
Inductive task_kind := ForCreate | ForLoad | ForDelete | ForCheck | ForRestore.
#[export] Instance task_kind_eqdec : EqDecision task_kind.
Proof. solve_decision. Defined.

Definition kind_of_task (t : Task) : task_kind :=
  match t with
  | TaskCreate _ => ForCreate | TaskLoad _ _ => ForLoad | TaskDelete _ _ _ _ => ForDelete
  | TaskCheck _ _ => ForCheck | TaskRestore _ _ _ => ForRestore
  end.

Definition receiver (k : task_kind) (s : Session) : option nat :=
  match k with
  | ForCreate => s.(creating) | ForLoad => s.(loading) | ForDelete => s.(deleting) | ForCheck => s.(checking)
  | ForRestore => s.(restoring)
  end.

Definition with_receiver (k : task_kind) (o : option nat) (s : Session) : Session :=
  let pick k' old := if bool_decide (k = k') then o else old in
  {| user := s.(user); known := s.(known); checked_name := s.(checked_name);
     creating := pick ForCreate s.(creating); loading := pick ForLoad s.(loading); deleting := pick ForDelete s.(deleting);
     checking := pick ForCheck s.(checking); restoring := pick ForRestore s.(restoring) |}.

(** What a system asks of the engine: the insertion of a component, which
    replaces the one of its kind, or its removal. *)
Inductive command :=
| Insert (k : task_kind) (id : nat)
| Remove (k : task_kind).

Definition apply_command (s : Session) (c : command) : Session :=
  match c with
  | Insert k id => with_receiver k (Some id) s
  | Remove k => with_receiver k None s
  end.

Definition with_known (s : Session) (k : option (list DbCharacter)) : Session :=
  {| user := s.(user); known := k; checked_name := s.(checked_name); creating := s.(creating);
     loading := s.(loading); deleting := s.(deleting); checking := s.(checking); restoring := s.(restoring) |}.
Definition with_checked_name (s : Session) (n : option (list Z)) : Session :=
  {| user := s.(user); known := s.(known); checked_name := n; creating := s.(creating);
     loading := s.(loading); deleting := s.(deleting); checking := s.(checking); restoring := s.(restoring) |}.

Definition has_user_character_with_name (s : Session) (n : list Z) : bool :=
  match s.(known) with
  | Some chars => existsb (fun c => bool_decide (c.(character_data).(charname) = n)) chars
  | None => false
  end.

Definition can_create_character_with_name (s : Session) (n : list Z) : bool :=
  match s.(checked_name) with Some checked => bool_decide (checked = n) | None => false end.

Definition response (action : string) (result : val) : packet :=
  ("CharacterListResponse"%string, CharacterListResponse_new (VEnum action []) result).
Definition list_error (e : string) : val := CharacterListResult_error (VEnum e []).
Definition list_ok : val := CharacterListResult_ok (VEnum "Empty" []).

Definition send_job_spread (hunters thieves : Z) : packet :=
  response "ShowJobSpread" (CharacterListResult_ok (CharacterListContent_jobspread (VNum hunters) (VNum thieves))).

(** One action of [handle_list_request]: the answers, the task started, and
    the session. *)
Definition handle_list_action (config : ServerConfig) (action : CharacterListRequestAction) (s : Session)
    : sent * option Task * Session :=
  match action with
  | Create character_name ref_id scale chest pants boots weapon =>
      (if negb (can_create_character_with_name s character_name)
       then [response "Create" (list_error "InvalidCharacterData")] else [],
       Some (TaskCreate (create_character_from s.(user) config.(the_server) character_name ref_id scale chest pants
                           boots weapon)), s)
  | ListCharacters => ([], Some (TaskLoad s.(user) config.(the_server)), s)
  | Delete character_name =>
      if negb (has_user_character_with_name s character_name)
      then ([response "Delete" (list_error "InvalidName")], None, s)
      else ([], Some (TaskDelete s.(user) character_name config.(the_server) config.(deletion_time)), s)
  | CheckName character_name =>
      ([], Some (TaskCheck character_name config.(the_server)), with_checked_name s None)
  | RestoreCharacter character_name =>
      if negb (has_user_character_with_name s character_name)
      then ([response "Delete" (list_error "InvalidName")], None, s)
      else ([], Some (TaskRestore s.(user) character_name config.(the_server)), s)
  | ShowJobSpread => ([send_job_spread config.(job_spread).1 config.(job_spread).2], None, s)
  | AssignJob _ => ([], None, s)
  end.

(** The loop over the actions; [next] is the number of the next task, whose
    receiver is inserted by a command. *)
Fixpoint handle_list_request (config : ServerConfig) (next : nat) (actions : list CharacterListRequestAction) (s : Session)
    : sent * list Task * Session * list command :=
  match actions with
  | [] => ([], [], s, [])
  | action :: actions =>
      let '(answers, task, s) := handle_list_action config action s in
      let '(next, tasks, commands) :=
        match task with
        | Some t => (S next, [t], [Insert (kind_of_task t) next])
        | None => (next, [], [])
        end in
      let '(answers', tasks', s, commands') := handle_list_request config next actions s in
      (answers ++ answers', tasks ++ tasks', s, commands ++ commands')
  end.

(** What a task does, at the time the database runs it. *)
Definition run_task (lower : list Z -> list Z) (now : Z) (t : Task) (db : Database) : TaskResult * Database :=
  match t with
  | TaskCreate c => (Created, create_character c db)
  | TaskLoad user server => (Loaded (load_characters_sparse user server now db), db)
  | TaskDelete user n server duration =>
      let '(success, db) := start_delete_character user n server duration now db in (Deleted success, db)
  | TaskCheck n server => let '(n, available) := check_name_available lower n server db in (Checked n available, db)
  | TaskRestore user n server => let '(success, db) := restore_character user n server now db in (Restored success, db)
  end.

(** What a task leaves that panics, because a statement fails: nothing, but for
    a creation, whose statements are no transaction, perhaps the character with
    some of its items. *)
Definition with_items (items : list ItemRow) (c : DbCharacter) : DbCharacter :=
  {| character_data := c.(character_data); db_items := items; db_masteries := c.(db_masteries); db_skills := c.(db_skills) |}.

Definition interrupted (t : Task) (before after : Database) : Prop :=
  after = before
  \/ match t with
     | TaskCreate c => exists n, after = create_character (with_items (take n c.(db_items)) c) before
     | _ => False
     end.

(** ** jobs.rs: the results *)

Section Jobs.

(** The calendar of a timestamp. *)
Context (datetime_of : Z -> datetime).

Definition from_item (r : ItemRow) : val :=
  CharacterListEquippedItem_new (VNum (u32 r.2.(item_obj_id))) (VNum (u8 r.2.(db_upgrade_level))).

(** [num_minutes], towards zero. *)
Definition num_minutes (microseconds : Z) : Z := Z.quot microseconds 60000000.

Definition from_character (now : Z) (c : DbCharacter) : val :=
  let data := c.(character_data) in
  let last_logout := VTime (datetime_of (default now data.(last_logout))) in
  VStruct
    [ VNum (u32 data.(character_type)); VStr data.(charname); VStr []; VNum (u8 data.(db_scale));
      VNum (u8 data.(db_level)); VNum (u64 data.(db_exp)); VNum (u16 data.(strength));
      VNum (u16 data.(intelligence)); VNum (u16 data.(db_stat_points)); VNum (u32 data.(db_sp));
      VNum (u32 data.(db_current_hp)); VNum (u32 data.(db_current_mp)); VNum (u16 data.(db_region));
      (match data.(deletion_end) with
       | Some t => TimeInformation_deleting last_logout (VNum (u32 (num_minutes (t - now))))
       | None => TimeInformation_playable last_logout
       end);
      VNum 0; VOpt None; VNum 0;
      VSeq (map from_item (List.filter (fun r => r.1 <? 13) c.(db_items))); VSeq [] ].

Definition send_character_list (now : Z) (cs : list DbCharacter) : packet :=
  response "List" (CharacterListResult_ok (CharacterListContent_characters (VSeq (map (from_character now) cs)) (VNum 0))).

(** The systems on a receiver: [try_recv] gives the result, nothing yet, or an
    error of a task that panicked. *)
Inductive Received (A : Type) := Value (a : A) | Empty | Closed.
Arguments Value {A} _.
Arguments Empty {A}.
Arguments Closed {A}.

(** The answers, the session, and whether the receiver is removed. *)
Definition handle_character_list_received (now : Z) (r : Received (list DbCharacter)) (s : Session)
    : sent * Session * bool :=
  match r with
  | Value cs => ([send_character_list now cs], with_known s (Some cs), true)
  | Empty => ([], s, false)
  | Closed => ([], s, true)
  end.

Definition handle_character_name_check (r : Received (list Z * bool)) (s : Session) : sent * Session * bool :=
  match r with
  | Value (n, available) =>
      ([response "CheckName" (if (available : bool) then list_ok else list_error "NameAlreadyUsed")],
       with_checked_name s (Some n), true)
  | Empty => ([], s, false)
  | Closed => ([], s, true)
  end.

Definition handle_character_create (r : Received unit) : sent * bool :=
  match r with Value _ => ([response "Create" list_ok], true) | Empty => ([], false) | Closed => ([], true) end.

Definition handle_character_delete (r : Received bool) : sent * bool :=
  match r with
  | Value success => (if success then [response "Delete" list_ok] else [], true)
  | Empty => ([], false)
  | Closed => ([], true)
  end.

Definition handle_character_restore (r : Received bool) : sent * bool :=
  match r with
  | Value result => ([response "Restore" (if result then list_ok else list_error "InvalidName")], true)
  | Empty => ([], false)
  | Closed => ([], true)
  end.

(** *** A tick of a session *)

(** The systems, [Requests] for [handle_list_request]. *)
Inductive login_system := Requests | Results (k : task_kind).
#[export] Instance login_system_eqdec : EqDecision login_system.
Proof. solve_decision. Defined.

Definition login_systems : list login_system :=
  [Results ForCreate; Results ForRestore; Results ForDelete; Results ForCheck; Results ForLoad; Requests].

(** The result of a receiver at its type; a task has the result of its kind. *)
Definition received_as {A} (f : TaskResult -> option A) (r : Received TaskResult) : Received A :=
  match r with
  | Value r => match f r with Some a => Value a | None => Closed end
  | Empty => Empty
  | Closed => Closed
  end.

(** The system of a kind for a session with such a receiver. *)
Definition handle_result (k : task_kind) (now : Z) (r : Received TaskResult) (s : Session) : sent * Session * bool :=
  match k with
  | ForLoad => handle_character_list_received now (received_as (fun r => match r with Loaded cs => Some cs | _ => None end) r) s
  | ForCheck => handle_character_name_check (received_as (fun r => match r with Checked n a => Some (n, a) | _ => None end) r) s
  | ForCreate =>
      let '(answers, done) := handle_character_create (received_as (fun r => match r with Created => Some tt | _ => None end) r) in
      (answers, s, done)
  | ForDelete =>
      let '(answers, done) := handle_character_delete (received_as (fun r => match r with Deleted b => Some b | _ => None end) r) in
      (answers, s, done)
  | ForRestore =>
      let '(answers, done) := handle_character_restore (received_as (fun r => match r with Restored b => Some b | _ => None end) r) in
      (answers, s, done)
  end.

Section Tick.

(** The configuration, the clock, what the receiver of a task gives, and the
    requests of the session in this tick. *)
Context (config : ServerConfig) (now : Z) (results : nat -> Received TaskResult) (actions : list CharacterListRequestAction).

(** A system on a session, of which it sees the receivers from before the tick. *)
Definition run_system (next : nat) (sys : login_system) (s : Session) : sent * list Task * Session * list command :=
  match sys with
  | Requests => handle_list_request config next actions s
  | Results k =>
      match receiver k s with
      | None => ([], [], s, [])
      | Some id =>
          let '(answers, s, done) := handle_result k now (results id) s in
          (answers, [], s, if (done : bool) then [Remove k] else [])
      end
  end.

(** The systems one after the other, with the commands of each. *)
Fixpoint run_systems (next : nat) (order : list login_system) (s : Session)
    : sent * list Task * Session * list (login_system * list command) :=
  match order with
  | [] => ([], [], s, [])
  | sys :: order =>
      let '(answers, tasks, s, commands) := run_system next sys s in
      let '(answers', tasks', s, queued) := run_systems (next + length tasks) order s in
      (answers ++ answers', tasks ++ tasks', s, (sys, commands) :: queued)
  end.

Definition commands_of (queued : list (login_system * list command)) (sys : login_system) : list command :=
  flat_map (fun q => if bool_decide (q.1 = sys) then q.2 else []) queued.

(** The tick of a session: the systems in one order, then their commands in another. *)
Definition session_tick (next : nat) (order buffers : list login_system) (s : Session) : sent * list Task * Session :=
  let '(answers, tasks, s, queued) := run_systems next order s in
  (answers, tasks, fold_left apply_command (flat_map (commands_of queued) buffers) s).

End Tick.

(** ** All sessions *)

Record World := {
  db : Database;
  sessions : gmap Entity Session;
  running : gmap nat (Entity * Task);
  finished : gmap nat (Entity * TaskResult);
  next_task : nat;
}.

(** [try_recv]: the task of a receiver that neither runs nor has a result has panicked. *)
Definition results_of (w : World) (id : nat) : Received TaskResult :=
  match w.(finished) !! id, w.(running) !! id with
  | Some (_, r), _ => Value r
  | None, Some _ => Empty
  | None, None => Closed
  end.

(** Tasks are numbered as they are started. *)
Fixpoint start_tasks (e : Entity) (next : nat) (tasks : list Task) (running : gmap nat (Entity * Task)) : gmap nat (Entity * Task) :=
  match tasks with
  | [] => running
  | t :: tasks => start_tasks e (S next) tasks (<[next := (e, t)]> running)
  end.

(** The results that the receivers of a session give away. *)
Definition taken_results (s : Session) (finished : gmap nat (Entity * TaskResult)) : gmap nat (Entity * TaskResult) :=
  foldr (fun k m => match receiver k s with Some id => delete id m | None => m end) finished
    [ForCreate; ForLoad; ForDelete; ForCheck; ForRestore].

(** A session begins or ends, a tick of the systems reaches it, the database
    runs a task, or a task panics; [sent] is what its client is sent. *)
Inductive world_step (lower : list Z -> list Z) (config : ServerConfig) : World -> Entity * sent -> World -> Prop :=
| step_session w e user :
    w.(sessions) !! e = None ->
    world_step lower config w (e, [])
      {| db := w.(db); sessions := <[e := session_new user]> w.(sessions); running := w.(running);
         finished := w.(finished); next_task := w.(next_task) |}
| step_session_end w e :
    world_step lower config w (e, [])
      {| db := w.(db); sessions := delete e w.(sessions); running := w.(running);
         finished := w.(finished); next_task := w.(next_task) |}
| step_tick w e s now actions order buffers answers tasks s' :
    w.(sessions) !! e = Some s -> order ≡ₚ login_systems -> buffers ≡ₚ login_systems ->
    session_tick config now (results_of w) actions w.(next_task) order buffers s = (answers, tasks, s') ->
    world_step lower config w (e, answers)
      {| db := w.(db); sessions := <[e := s']> w.(sessions); running := start_tasks e w.(next_task) tasks w.(running);
         finished := taken_results s w.(finished); next_task := w.(next_task) + length tasks |}
| step_run w id e t now result db' :
    w.(running) !! id = Some (e, t) ->
    run_task lower now t w.(db) = (result, db') ->
    world_step lower config w (e, [])
      {| db := db'; sessions := w.(sessions); running := delete id w.(running);
         finished := <[id := (e, result)]> w.(finished); next_task := w.(next_task) |}
| step_panic w id e t db' :
    w.(running) !! id = Some (e, t) -> interrupted t w.(db) db' ->
    world_step lower config w (e, [])
      {| db := db'; sessions := w.(sessions); running := delete id w.(running);
         finished := w.(finished); next_task := w.(next_task) |}.
End Jobs.

Arguments Value {A} _.
Arguments Empty {A}.
Arguments Closed {A}.
