(* ===== verification/CharSelectSpec.v ===== *)
(** Character selection: the rows of a user change by the requests of that user
    only, what a created character is loaded as, deletion and restoring, that
    the result of a task a session waits for is answered, and how a request that
    comes with such a result can be lost. *)
From stdpp Require Import base list option strings gmap.
From Stdlib Require Import ZArith Lia.
From S2P Require Import Prelude Utf Text F32 Definitions GameData Serde Packets.
From S2P Require Import Inventory InventoryRows Entities Characters CharSelect.

#[local] Arguments rows_for : simpl never.

(** ** The tables *)

(** Identifiers are below the next one and different. *)
Definition db_wf (db : Database) : Prop :=
  (forall c, c ∈ db.(characters) -> c.(data_id) < db.(next_id))
  /\ (forall r, r ∈ db.(character_items) -> r.1 < db.(next_id))
  /\ (forall r, r ∈ db.(character_masteries) -> r.1 < db.(next_id))
  /\ (forall r, r ∈ db.(character_skills) -> r.1 < db.(next_id)).

Definition load_row (db : Database) (c : CharacterData) : DbCharacter :=
  {| character_data := c; db_items := rows_for c.(data_id) db.(character_items);
     db_masteries := rows_for c.(data_id) db.(character_masteries);
     db_skills := rows_for c.(data_id) db.(character_skills) |}.

(** All of one user, deleted characters too. *)
Definition user_view (v : Z) (db : Database) : list DbCharacter :=
  map (load_row db) (List.filter (fun c => c.(user_id) =? v) db.(characters)).

Lemma rows_for_app {A} id (a b : list (Z * A)) : rows_for id (a ++ b) = rows_for id a ++ rows_for id b.
Proof. unfold rows_for. rewrite List.filter_app. apply map_app. Qed.

Lemma rows_for_other {A} id n (l : list A) : id <> n -> rows_for id (map (fun r => (n, r)) l) = [].
Proof.
  intros Hn. unfold rows_for. induction l as [|x l IH]; [reflexivity|]. cbn.
  destruct (Z.eqb_spec n id); [congruence|exact IH].
Qed.

Lemma rows_for_own {A} n (l : list A) : rows_for n (map (fun r => (n, r)) l) = l.
Proof. unfold rows_for. induction l as [|x l IH]; [reflexivity|]. cbn. rewrite Z.eqb_refl. cbn. congruence. Qed.

Lemma rows_for_fresh {A} n (rows : list (Z * A)) : (forall r, r ∈ rows -> r.1 < n) -> rows_for n rows = [].
Proof.
  intros H. unfold rows_for. induction rows as [|r rows IH]; [reflexivity|]. cbn.
  destruct (Z.eqb_spec r.1 n); [specialize (H r (list_elem_of_here _ _)); lia|].
  apply IH. intros x Hx. apply H. right. exact Hx.
Qed.

Lemma load_row_created c db r :
  r.(data_id) < db.(next_id) -> load_row (create_character c db) r = load_row db r.
Proof.
  intros Hr. unfold load_row, create_character. cbn. rewrite rows_for_app.
  rewrite <- (map_map inserted_item (fun x => (db.(next_id), x))), rows_for_other by lia. rewrite app_nil_r. reflexivity.
Qed.

(** The row a creation makes, as it is loaded. *)
Definition stored (id : Z) (c : DbCharacter) : DbCharacter :=
  {| character_data := inserted_row id c.(character_data); db_items := map inserted_item c.(db_items);
     db_masteries := []; db_skills := [] |}.

Lemma load_row_new c db : db_wf db ->
  load_row (create_character c db) (inserted_row db.(next_id) c.(character_data)) = stored db.(next_id) c.
Proof.
  intros (_ & Hi & Hm & Hs). unfold load_row, stored, create_character. cbn. rewrite rows_for_app.
  rewrite <- (map_map inserted_item (fun x => (db.(next_id), x))), rows_for_own.
  rewrite !rows_for_fresh by assumption. reflexivity.
Qed.

(** A view over some of the characters, after a creation. *)
Lemma created_view (p : CharacterData -> bool) c db : db_wf db ->
  map (load_row (create_character c db)) (List.filter p (create_character c db).(characters))
  = map (load_row db) (List.filter p db.(characters))
    ++ (if p (inserted_row db.(next_id) c.(character_data)) then [stored db.(next_id) c] else []).
Proof.
  intros Hw. cbn [create_character characters]. rewrite List.filter_app, map_app. f_equal.
  - apply map_ext_in. intros r Hr. apply filter_In in Hr as [Hr _]. apply load_row_created.
    apply Hw, list_elem_of_In, Hr.
  - cbn. destruct (p _); [|reflexivity]. cbn. rewrite load_row_new by exact Hw. reflexivity.
Qed.

(** An update of the rows of one user leaves the rows of the others. *)
Lemma filter_update_other (p q : CharacterData -> bool) f (cs : list CharacterData) :
  (forall c, p c = true -> q c = false) -> (forall c, q (f c) = q c) ->
  List.filter q (map (fun c => if p c then f c else c) cs) = List.filter q cs.
Proof.
  intros Hpq Hf. induction cs as [|c cs IH]; [reflexivity|]. cbn. destruct (p c) eqn:Ep.
  - rewrite Hf, (Hpq c Ep). exact IH.
  - rewrite IH. reflexivity.
Qed.

Lemma user_view_update v p t db :
  (forall c, p c = true -> c.(user_id) <> v) ->
  user_view v (update_where p (with_deletion_end t) db).2 = user_view v db.
Proof.
  intros Hp. unfold user_view, update_where. cbn. rewrite filter_update_other; [reflexivity| |reflexivity].
  intros c Hc. apply Hp in Hc. lia.
Qed.

Definition task_user (t : Task) : option Z :=
  match t with
  | TaskCreate c => Some c.(character_data).(user_id)
  | TaskDelete u _ _ _ | TaskRestore u _ _ => Some u
  | TaskLoad _ _ | TaskCheck _ _ => None
  end.

Lemma named_user user server n c : named user server n c = true -> c.(user_id) = user.
Proof. unfold named. intros H. split_andb. assumption. Qed.

Lemma run_task_view lower now t db v :
  db_wf db -> task_user t <> Some v -> user_view v (run_task lower now t db).2 = user_view v db.
Proof.
  intros Hw Hv. destruct t as [c|u s|u n s d|n s|u n s]; try reflexivity.
  - unfold user_view. cbn [run_task snd]. rewrite created_view by exact Hw. cbn [inserted_row user_id task_user] in *.
    destruct (Z.eqb_spec c.(character_data).(user_id) v); [congruence|]. apply app_nil_r.
  - cbn [run_task]. unfold start_delete_character. destruct (update_where _ _ db) as [k db'] eqn:E. cbn.
    change db' with (k, db').2. rewrite <- E. apply user_view_update. intros c Hc. apply named_user in Hc.
    cbn in Hv. congruence.
  - cbn [run_task]. unfold restore_character. destruct (update_where _ _ db) as [k db'] eqn:E. cbn.
    change db' with (k, db').2. rewrite <- E. apply user_view_update. intros c Hc. apply andb_true_iff in Hc as [Hc _].
    apply named_user in Hc. cbn in Hv. congruence.
Qed.

Lemma update_where_wf p t db : db_wf db -> db_wf (update_where p (with_deletion_end t) db).2.
Proof.
  intros (Hc & Hr). split; [|exact Hr]. intros c. cbn. rewrite list_elem_of_In, in_map_iff. intros (c' & <- & Hin).
  apply list_elem_of_In, Hc in Hin. destruct (p c'); exact Hin.
Qed.

Lemma run_task_wf lower now t db : db_wf db -> db_wf (run_task lower now t db).2.
Proof.
  intros Hw. destruct t as [c|u s|u n s d|n s|u n s]; try exact Hw.
  - destruct Hw as (Hc & Hi & Hm & Hs). unfold db_wf. cbn.
    repeat split; intros x Hx; try (specialize (Hm x Hx)); try (specialize (Hs x Hx)); try lia.
    + apply elem_of_app in Hx as [Hx|Hx]; [specialize (Hc x Hx); lia|]. apply list_elem_of_singleton in Hx as ->. cbn. lia.
    + apply elem_of_app in Hx as [Hx|Hx]; [specialize (Hi x Hx); lia|].
      apply list_elem_of_In, in_map_iff in Hx as (r & <- & _). cbn. lia.
  - cbn [run_task]. unfold start_delete_character. destruct (update_where _ _ db) as [k db'] eqn:E. cbn.
    change db' with (k, db').2. rewrite <- E. apply update_where_wf, Hw.
  - cbn [run_task]. unfold restore_character. destruct (update_where _ _ db) as [k db'] eqn:E. cbn.
    change db' with (k, db').2. rewrite <- E. apply update_where_wf, Hw.
Qed.

(** ** Runs of all sessions *)

Section Runs.
Context (datetime_of : Z -> datetime) (lower : list Z -> list Z) (config : ServerConfig).

Definition start (d : Database) : World :=
  {| db := d; sessions := ∅; running := ∅; finished := ∅; next_task := O |}.

(** The worlds reached from a database, with all that was sent. *)
Inductive run (d : Database) : list (Entity * sent) -> World -> Prop :=
| run_start : run d [] (start d)
| run_step log w l w' : run d log w -> world_step datetime_of lower config w l w' -> run d (log ++ [l]) w'.

Definition kind_of_result (r : TaskResult) : task_kind :=
  match r with
  | Created => ForCreate | Loaded _ => ForLoad | Deleted _ => ForDelete | Checked _ _ => ForCheck
  | Restored _ => ForRestore
  end.

Lemma run_task_kind now t d : kind_of_result (run_task lower now t d).1 = kind_of_task t.
Proof. destruct t; reflexivity. Qed.

(** *** Commands *)

Lemma receiver_with k k' o s : receiver k (with_receiver k' o s) = if bool_decide (k' = k) then o else receiver k s.
Proof. destruct k, k'; reflexivity. Qed.

(** The receiver of a kind after some commands is of one of them, or it is the
    old one and no command was about it. *)
Lemma receiver_commands k cs : forall s id, receiver k (fold_left apply_command cs s) = Some id ->
  Insert k id ∈ cs \/ (receiver k s = Some id /\ Remove k ∉ cs).
Proof.
  induction cs as [|c cs IH]; intros s id; cbn [fold_left]; [intros E; right; split; [exact E|apply not_elem_of_nil]|].
  intros [H|[H Hn]]%IH; [left; right; exact H|]. destruct c as [k' i|k']; cbn [apply_command] in H; rewrite receiver_with in H;
    case_bool_decide as E; subst.
  - injection H as ->. left. left.
  - right. split; [exact H|]. rewrite not_elem_of_cons. split; [discriminate|exact Hn].
  - discriminate.
  - right. split; [exact H|]. rewrite not_elem_of_cons. split; [congruence|exact Hn].
Qed.

(** Commands change nothing else. *)
Lemma commands_keep cs : forall s,
  (fold_left apply_command cs s).(known) = s.(known) /\ (fold_left apply_command cs s).(user) = s.(user)
  /\ (fold_left apply_command cs s).(checked_name) = s.(checked_name).
Proof.
  induction cs as [|c cs IH]; intros s; [auto|]. cbn [fold_left]. destruct (IH (apply_command s c)) as (-> & -> & ->).
  destruct c; auto.
Qed.

(** *** The systems of a tick *)

Definition same_receivers (s s' : Session) : Prop := s'.(user) = s.(user) /\ forall k, receiver k s' = receiver k s.

Lemma same_receivers_trans s1 s2 s3 : same_receivers s1 s2 -> same_receivers s2 s3 -> same_receivers s1 s3.
Proof. intros [E1 H1] [E2 H2]. split; [congruence|]. intros k. rewrite H2. apply H1. Qed.

Lemma handle_list_action_keeps a s answers task s' : handle_list_action config a s = (answers, task, s') ->
  same_receivers s s' /\ s'.(known) = s.(known) /\ match task with Some t => task_user t = None \/ task_user t = Some s.(user) | None => True end.
Proof.
  destruct a; cbn [handle_list_action]; try (destruct (negb _)); intros [= <- <- <-]; cbn; repeat split; auto; intros []; reflexivity.
Qed.

(** The loop over the requests: a task of the user, and a command for its receiver, each. *)
Lemma handle_list_request_keeps actions : forall next s answers tasks s' cs,
  handle_list_request config next actions s = (answers, tasks, s', cs) ->
  same_receivers s s' /\ s'.(known) = s.(known)
  /\ Forall (fun t => task_user t = None \/ task_user t = Some s.(user)) tasks
  /\ (forall k id, Insert k id ∈ cs -> exists i t, tasks !! i = Some t /\ kind_of_task t = k /\ id = (next + i)%nat)
  /\ (forall k, Remove k ∉ cs).
Proof.
  induction actions as [|a actions IH]; intros next s answers tasks s' cs; cbn [handle_list_request].
  - intros [= <- <- <- <-]. repeat split; auto; [intros k id H; inversion H|intros k H; inversion H].
  - destruct (handle_list_action config a s) as [[ans task] s1] eqn:Ea. apply handle_list_action_keeps in Ea as (H1 & K1 & T1).
    assert (Hu : s1.(user) = s.(user)) by apply H1.
    destruct task as [t|].
    + destruct (handle_list_request config (S next) actions s1) as [[[ans2 tasks2] s2] cs2] eqn:Er. intros [= <- <- <- <-].
      apply IH in Er as (H2 & K2 & T2 & I2 & R2). rewrite Hu in T2. cbn [app].
      split; [exact (same_receivers_trans _ _ _ H1 H2)|]. split; [congruence|]. split; [constructor; assumption|]. split.
      * intros k id [E|H]%elem_of_cons; [injection E as -> ->; exists O, t; rewrite Nat.add_0_r; auto|].
        apply I2 in H as (i & t' & Hi & Hk & ->). exists (S i), t'. split; [exact Hi|]. split; [exact Hk|lia].
      * intros k. rewrite not_elem_of_cons. split; [discriminate|apply R2].
    + destruct (handle_list_request config next actions s1) as [[[ans2 tasks2] s2] cs2] eqn:Er. intros [= <- <- <- <-].
      apply IH in Er as (H2 & K2 & T2 & I2 & R2). rewrite Hu in T2. cbn [app].
      split; [exact (same_receivers_trans _ _ _ H1 H2)|]. split; [congruence|]. auto.
Qed.

(** What a client is sent for a result. *)
Definition answer_to (now : Z) (r : TaskResult) : sent :=
  match r with
  | Created => [response "Create" list_ok]
  | Loaded cs => [send_character_list datetime_of now cs]
  | Deleted true => [response "Delete" list_ok]
  | Deleted false => []
  | Checked _ true => [response "CheckName" list_ok]
  | Checked _ false => [response "CheckName" (list_error "NameAlreadyUsed")]
  | Restored true => [response "Restore" list_ok]
  | Restored false => [response "Restore" (list_error "InvalidName")]
  end.

Lemma handle_result_value now r s : handle_result datetime_of (kind_of_result r) now (Value r) s
  = (answer_to now r, match r with Loaded cs => with_known s (Some cs) | Checked n _ => with_checked_name s (Some n) | _ => s end, true).
Proof. destruct r as [| |[]|? []|[]]; reflexivity. Qed.

Lemma handle_result_keeps k now r s answers s' done : handle_result datetime_of k now r s = (answers, s', done) ->
  same_receivers s s' /\ (k <> ForLoad -> s'.(known) = s.(known)) /\ done = match r with Empty => false | _ => true end.
Proof.
  assert (Hsame : same_receivers s s) by (split; auto).
  destruct k, r as [[]| |]; cbn; intros [= <- <- <-]; repeat split; auto; try congruence; intros []; reflexivity.
Qed.

Section Tick.
Context (now : Z) (results : nat -> Received TaskResult) (actions : list CharacterListRequestAction).

(** What a system does to the session and asks of the engine. *)
Lemma run_system_keeps next sys s answers tasks s' cs :
  run_system datetime_of config now results actions next sys s = (answers, tasks, s', cs) ->
  same_receivers s s' /\ (sys <> Results ForLoad -> s'.(known) = s.(known))
  /\ Forall (fun t => task_user t = None \/ task_user t = Some s.(user)) tasks
  /\ (forall k id, Insert k id ∈ cs -> exists i t, tasks !! i = Some t /\ kind_of_task t = k /\ id = (next + i)%nat)
  /\ (forall k id, sys = Results k -> receiver k s = Some id -> results id <> Empty -> Remove k ∈ cs).
Proof.
  destruct sys as [|k]; cbn [run_system].
  - intros H. apply handle_list_request_keeps in H as (H1 & H2 & H3 & H4 & _). repeat split; auto; try apply H1. intros k id [=].
  - destruct (receiver k s) as [id|] eqn:Er.
    + destruct (handle_result datetime_of k now (results id) s) as [[ans s1] done] eqn:Eh. intros [= <- <- <- <-].
      apply handle_result_keeps in Eh as (H1 & H2 & H3). split; [exact H1|]. split; [intros Hk; apply H2; congruence|].
      split; [constructor|]. split; [intros k' i Hin; destruct done; [|inversion Hin]; apply list_elem_of_singleton in Hin; discriminate|].
      intros k' i [= <-] Hi Hne. rewrite Er in Hi. injection Hi as <-. subst done. destruct (results id); [left|congruence|left].
    + intros [= <- <- <- <-]. repeat split; auto; [intros k' i Hin; inversion Hin|]. intros k' i [= <-] Hi. congruence.
Qed.

(** All systems, in some order. *)
Lemma run_systems_keeps order : forall next s answers tasks s' queued,
  run_systems datetime_of config now results actions next order s = (answers, tasks, s', queued) ->
  same_receivers s s' /\ (Results ForLoad ∉ order -> s'.(known) = s.(known))
  /\ Forall (fun t => task_user t = None \/ task_user t = Some s.(user)) tasks
  /\ (forall sys cs, (sys, cs) ∈ queued -> forall k id, Insert k id ∈ cs ->
      exists i t, tasks !! i = Some t /\ kind_of_task t = k /\ id = (next + i)%nat)
  /\ (forall k id, Results k ∈ order -> receiver k s = Some id -> results id <> Empty ->
      exists cs, (Results k, cs) ∈ queued /\ Remove k ∈ cs).
Proof.
  induction order as [|sys order IH]; intros next s answers tasks s' queued; cbn [run_systems].
  - intros [= <- <- <- <-]. repeat split; auto; [intros sys cs H; inversion H|intros k id H; inversion H].
  - destruct (run_system _ _ _ _ _ _ sys s) as [[[ans1 tasks1] s1] cs1] eqn:E1.
    destruct (run_systems _ _ _ _ _ _ order s1) as [[[ans2 tasks2] s2] queued2] eqn:E2. intros [= <- <- <- <-].
    apply run_system_keeps in E1 as (H1 & K1 & T1 & I1 & R1). apply IH in E2 as (H2 & K2 & T2 & I2 & R2).
    destruct H1 as [Hu Hrec]. rewrite Hu in T2. split; [exact (same_receivers_trans _ _ _ (conj Hu Hrec) H2)|]. split.
    { rewrite not_elem_of_cons. intros [Hn Ho]. rewrite K2, K1; congruence. }
    split; [apply Forall_app; auto|]. split.
    + intros sys' cs [E|Hin]%elem_of_cons k id Hi.
      * injection E as -> ->. destruct (I1 k id Hi) as (i & t & Ht & Hk & ->). exists i, t.
        split; [apply lookup_app_l_Some, Ht|auto].
      * destruct (I2 sys' cs Hin k id Hi) as (i & t & Ht & Hk & ->). exists (length tasks1 + i)%nat, t.
        rewrite lookup_app_r by lia. replace (length tasks1 + i - length tasks1)%nat with i by lia. split; [exact Ht|]. split; [exact Hk|lia].
    + intros k id [E|Ho]%elem_of_cons Hi Hne.
      * exists cs1. rewrite <- E. split; [left|]. exact (R1 k id (eq_sym E) Hi Hne).
      * rewrite <- Hrec in Hi. destruct (R2 k id Ho Hi Hne) as (cs & Hin & Hr). exists cs. split; [right; exact Hin|exact Hr].
Qed.

Lemma in_commands queued buffers c : (forall sys, sys ∈ buffers) ->
  (c ∈ flat_map (commands_of queued) buffers <-> exists sys cs, (sys, cs) ∈ queued /\ c ∈ cs).
Proof.
  intros Hall. rewrite list_elem_of_In, in_flat_map. unfold commands_of. split.
  - intros (sys & _ & Hc). apply in_flat_map in Hc as ([sys' cs] & Hq & Hc). cbn in Hc. case_bool_decide; [|destruct Hc].
    exists sys', cs. split; apply list_elem_of_In; assumption.
  - intros (sys & cs & Hq & Hc). exists sys. split; [apply list_elem_of_In, Hall|]. apply in_flat_map. exists (sys, cs). cbn.
    rewrite bool_decide_true by reflexivity. split; apply list_elem_of_In; assumption.
Qed.

Lemma all_systems order : order ≡ₚ login_systems -> forall sys, sys ∈ order.
Proof.
  intros Ho sys. rewrite Ho. unfold login_systems. destruct sys as [|[]]; repeat (first [left | right]).
Qed.

(** The receivers after a tick: new ones, or old ones whose task still runs. *)
Lemma session_tick_keeps next order buffers s answers tasks s' :
  order ≡ₚ login_systems -> buffers ≡ₚ login_systems ->
  session_tick datetime_of config now results actions next order buffers s = (answers, tasks, s') ->
  s'.(user) = s.(user) /\ Forall (fun t => task_user t = None \/ task_user t = Some s.(user)) tasks
  /\ forall k id, receiver k s' = Some id ->
      (exists i t, tasks !! i = Some t /\ kind_of_task t = k /\ id = (next + i)%nat)
      \/ (receiver k s = Some id /\ results id = Empty).
Proof.
  intros Ho Hb. unfold session_tick. destruct (run_systems _ _ _ _ _ _ order s) as [[[ans ts] s1] queued] eqn:E.
  intros [= <- <- <-]. apply run_systems_keeps in E as ([Hu Hrec] & _ & T & I & R).
  pose proof (commands_keep (flat_map (commands_of queued) buffers) s1) as (_ & -> & _). split; [exact Hu|]. split; [exact T|].
  intros k id [H|[H Hn]]%receiver_commands.
  - apply (in_commands _ _ _ (all_systems _ Hb)) in H as (sys & cs & Hq & Hc). left. exact (I sys cs Hq k id Hc).
  - right. rewrite Hrec in H. split; [exact H|]. destruct (results id) eqn:Er; [exfalso|reflexivity|exfalso];
      (destruct (R k id (all_systems _ Ho _) H) as (cs & Hq & Hc); [congruence|]);
      apply Hn, (in_commands _ _ _ (all_systems _ Hb)); eauto.
Qed.

Lemma run_systems_app order1 order2 : forall next s,
  run_systems datetime_of config now results actions next (order1 ++ order2) s
  = let '(a1, t1, s1, q1) := run_systems datetime_of config now results actions next order1 s in
    let '(a2, t2, s2, q2) := run_systems datetime_of config now results actions (next + length t1) order2 s1 in
    (a1 ++ a2, t1 ++ t2, s2, q1 ++ q2).
Proof.
  induction order1 as [|sys order1 IH]; intros next s; cbn [app run_systems].
  - cbn [length]. rewrite Nat.add_0_r. destruct (run_systems _ _ _ _ _ next order2 s) as [[[a t] s'] q]. reflexivity.
  - destruct (run_system _ _ _ _ _ next sys s) as [[[a t] s1] cs]. rewrite IH.
    destruct (run_systems _ _ _ _ _ (next + length t) order1 s1) as [[[a1 t1] s2] q1]. rewrite length_app, Nat.add_assoc.
    destruct (run_systems _ _ _ _ _ (next + length t + length t1) order2 s2) as [[[a2 t2] s3] q2]. rewrite !app_assoc. reflexivity.
Qed.

(** The name that was checked is kept, unless one is to be checked. *)
Lemma handle_list_request_checked acts : forall next s answers tasks s' cs,
  handle_list_request config next acts s = (answers, tasks, s', cs) ->
  Forall (fun t => kind_of_task t <> ForCheck) tasks -> s'.(checked_name) = s.(checked_name).
Proof.
  induction acts as [|a acts IH]; intros next s answers tasks s' cs; cbn [handle_list_request]; [intros [= <- <- <- <-]; reflexivity|].
  destruct (handle_list_action config a s) as [[ans task] s1] eqn:Ea.
  assert (H1 : match task with Some t => kind_of_task t <> ForCheck | None => True end -> s1.(checked_name) = s.(checked_name)).
  { destruct a; cbn [handle_list_action] in Ea; try (destruct (negb _)); injection Ea as <- <- <-; cbn; auto. intros H. destruct (H eq_refl). }
  destruct task as [t|].
  - destruct (handle_list_request config (S next) acts s1) as [[[ans2 tasks2] s2] cs2] eqn:Er. intros [= <- <- <- <-] H. cbn [app] in H.
    inversion H as [|? ? Ht Hts]; subst. rewrite (IH _ _ _ _ _ _ Er Hts). exact (H1 Ht).
  - destruct (handle_list_request config next acts s1) as [[[ans2 tasks2] s2] cs2] eqn:Er. intros [= <- <- <- <-] H. cbn [app] in H.
    rewrite (IH _ _ _ _ _ _ Er H). exact (H1 Logic.I).
Qed.

Lemma run_systems_checked order : forall next s answers tasks s' queued,
  run_systems datetime_of config now results actions next order s = (answers, tasks, s', queued) ->
  Results ForCheck ∉ order -> Forall (fun t => kind_of_task t <> ForCheck) tasks -> s'.(checked_name) = s.(checked_name).
Proof.
  induction order as [|sys order IH]; intros next s answers tasks s' queued; cbn [run_systems]; [intros [= <- <- <- <-]; reflexivity|].
  destruct (run_system _ _ _ _ _ _ sys s) as [[[ans1 tasks1] s1] cs1] eqn:E1.
  destruct (run_systems _ _ _ _ _ _ order s1) as [[[ans2 tasks2] s2] queued2] eqn:E2. intros [= <- <- <- <-].
  rewrite not_elem_of_cons. intros [Hn Ho] [Ht1 Ht2]%Forall_app. rewrite (IH _ _ _ _ _ _ E2 Ho Ht2).
  destruct sys as [|k]; cbn [run_system] in E1; [exact (handle_list_request_checked _ _ _ _ _ _ _ E1 Ht1)|].
  destruct (receiver k s); [|injection E1 as <- <- <- <-; reflexivity].
  destruct (handle_result _ k now _ s) as [[a s3] dn] eqn:Eh. injection E1 as <- <- <- <-.
  destruct k; cbn [handle_result] in Eh; try (destruct (_ (received_as _ _)); injection Eh as <- <- <-; reflexivity); [|congruence].
  destruct (received_as _ _); injection Eh as <- <- <-; reflexivity.
Qed.

Lemma order_at order k : order ≡ₚ login_systems -> exists o1 o2, order = o1 ++ Results k :: o2 /\ Results k ∉ o1 /\ Results k ∉ o2.
Proof.
  intros Ho. assert (Hn : NoDup order) by (rewrite Ho; unfold login_systems; repeat constructor; set_solver).
  destruct (list_elem_of_split order (Results k) (all_systems order Ho _)) as (o1 & o2 & ->). exists o1, o2. split; [reflexivity|].
  apply list.NoDup_app in Hn as (_ & Hd & H2). apply list.NoDup_cons in H2 as [H2 _]. split; [|exact H2].
  intros H. apply (Hd _ H). left.
Qed.

(** What a session remembers of a result. *)
Definition remembers (r : TaskResult) (tasks : list Task) (s' : Session) : Prop :=
  match r with
  | Loaded cs => s'.(known) = Some cs
  | Checked n _ => Forall (fun t => kind_of_task t <> ForCheck) tasks -> s'.(checked_name) = Some n
  | _ => True
  end.

(** A result that is there is answered in the tick, once, whatever else the tick does. *)
Lemma session_tick_answers next order buffers s answers tasks s' id r :
  order ≡ₚ login_systems ->
  session_tick datetime_of config now results actions next order buffers s = (answers, tasks, s') ->
  receiver (kind_of_result r) s = Some id -> results id = Value r ->
  (exists before after, answers = before ++ answer_to now r ++ after) /\ remembers r tasks s'.
Proof.
  intros Ho E Hr Hv. destruct (order_at order (kind_of_result r) Ho) as (o1 & o2 & Eo & Hn1 & Hn2).
  unfold session_tick in E. rewrite Eo, run_systems_app in E. cbn [run_systems] in E.
  destruct (run_systems _ _ _ _ _ next o1 s) as [[[a1 t1] s1] q1] eqn:E1. cbn [run_system] in E.
  pose proof (run_systems_keeps _ _ _ _ _ _ _ E1) as ([_ Hrec] & _). rewrite Hrec, Hr, Hv, handle_result_value in E.
  cbn [length app] in E.
  destruct (run_systems _ _ _ _ _ _ o2 _) as [[[a2 t2] s2] q2] eqn:E2 in E. injection E as <- <- <-.
  split; [exists a1, a2; reflexivity|]. unfold remembers.
  pose proof (commands_keep (flat_map (commands_of (q1 ++ (Results (kind_of_result r), [Remove (kind_of_result r)]) :: q2)) buffers) s2) as (Hk & _ & Hc).
  destruct r; try exact Logic.I.
  - rewrite Hk. apply run_systems_keeps in E2 as (_ & K2 & _). rewrite (K2 Hn2). reflexivity.
  - intros Ht. rewrite Hc. apply Forall_app in Ht as [_ Ht]. rewrite (run_systems_checked _ _ _ _ _ _ _ E2 Hn2 Ht). reflexivity.
Qed.

End Tick.

(** *** Reachable worlds *)

(** The task of a receiver is one of the session and of its kind, or has panicked. *)
Definition waits (w : World) (e : Entity) (k : task_kind) (id : nat) : Prop :=
  match results_of w id with
  | Value r => w.(finished) !! id = Some (e, r) /\ kind_of_result r = k
  | Empty => exists t, w.(running) !! id = Some (e, t) /\ kind_of_task t = k
  | Closed => (id < w.(next_task))%nat
  end.

(** Numbers are used once, and nobody else waits for the task of a receiver. *)
Record receivers_live (w : World) : Prop := {
  numbers_below : forall id, is_Some (w.(running) !! id) \/ is_Some (w.(finished) !! id) -> (id < w.(next_task))%nat;
  numbers_once : forall id, is_Some (w.(running) !! id) -> w.(finished) !! id = None;
  receivers_wait : forall e s k id, w.(sessions) !! e = Some s -> receiver k s = Some id -> waits w e k id;
}.

Lemma start_receivers d : receivers_live (start d).
Proof.
  split; cbn; [intros id [[? H]|[? H]]|intros id [? H]|intros e s k id H];
    rewrite lookup_empty in H; discriminate.
Qed.

Lemma receiver_new u k : receiver k (session_new u) = None.
Proof. destruct k; reflexivity. Qed.

Definition with_sessions (ss : gmap Entity Session) (w : World) : World :=
  {| db := w.(db); sessions := ss; running := w.(running); finished := w.(finished); next_task := w.(next_task) |}.

Lemma sessions_receivers w ss :
  receivers_live w ->
  (forall e s k id, ss !! e = Some s -> receiver k s = Some id -> waits w e k id) ->
  receivers_live (with_sessions ss w).
Proof. intros [Hid Hdisj _] Hs. split; [exact Hid|exact Hdisj|exact Hs]. Qed.

Lemma start_tasks_lookup e tasks : forall next rs id,
  start_tasks e next tasks rs !! id
  = match tasks !! (id - next)%nat with
    | Some t => if (next <=? id)%nat then Some (e, t) else rs !! id
    | None => rs !! id
    end.
Proof.
  induction tasks as [|t tasks IH]; intros next rs id; cbn [start_tasks]; [rewrite lookup_nil; reflexivity|].
  rewrite IH. destruct (decide (id = next)) as [->|Hn].
  - replace (next - S next)%nat with O by lia. rewrite Nat.sub_diag, lookup_insert_eq. cbn [lookup list_lookup].
    destruct (Nat.leb_spec (S next) next), (Nat.leb_spec next next); try lia. destruct tasks; reflexivity.
  - rewrite lookup_insert_ne by congruence. destruct (Nat.leb_spec (S next) id), (Nat.leb_spec next id); try lia.
    + replace (id - next)%nat with (S (id - S next)) by lia. reflexivity.
    + destruct (tasks !! _), ((t :: tasks) !! _); reflexivity.
Qed.

Lemma taken_results_lookup s fs id :
  taken_results s fs !! id = None \/ taken_results s fs !! id = fs !! id.
Proof.
  unfold taken_results. induction (_ :: _) as [|k ks IH]; cbn [foldr]; [auto|].
  destruct (receiver k s) as [i|]; [|exact IH]. destruct (decide (i = id)) as [->|Hn]; [left; apply lookup_delete_eq|].
  rewrite lookup_delete_ne by exact Hn. exact IH.
Qed.

Lemma taken_results_taken s fs k id : receiver k s = Some id -> taken_results s fs !! id = None.
Proof.
  intros Hr. unfold taken_results.
  assert (Hin : In k [ForCreate; ForLoad; ForDelete; ForCheck; ForRestore]) by (destruct k; cbn; auto 6).
  induction (_ :: _) as [|k' ks IH]; [destruct Hin|]. cbn [foldr]. destruct Hin as [->|Hin].
  - rewrite Hr. apply lookup_delete_eq.
  - destruct (receiver k' s) as [i|]; [|exact (IH Hin)]. apply lookup_delete_None. right. exact (IH Hin).
Qed.

(** Only the results of the session's own receivers are taken. *)
Lemma taken_results_others w e s id x : receivers_live w -> w.(sessions) !! e = Some s ->
  w.(finished) !! id = Some x -> x.1 <> e -> taken_results s w.(finished) !! id = Some x.
Proof.
  intros [_ _ Hr] He Hf Hx. unfold taken_results. induction (_ :: _) as [|k ks IH]; cbn [foldr]; [exact Hf|].
  destruct (receiver k s) as [i|] eqn:Ei; [|exact IH]. rewrite lookup_delete_ne; [exact IH|]. intros ->.
  specialize (Hr e s k id He Ei). unfold waits, results_of in Hr. rewrite Hf in Hr. destruct x as [e' r]. destruct Hr as [Hr _].
  injection Hr as ->. apply Hx. reflexivity.
Qed.

Lemma results_of_running w id e t : receivers_live w -> w.(running) !! id = Some (e, t) -> results_of w id = Empty.
Proof. intros [_ Hd _] H. unfold results_of. rewrite (Hd id) by eauto. rewrite H. reflexivity. Qed.

Lemma tick_receivers w e s now actions order buffers answers tasks s' :
  w.(sessions) !! e = Some s -> order ≡ₚ login_systems -> buffers ≡ₚ login_systems ->
  session_tick datetime_of config now (results_of w) actions w.(next_task) order buffers s = (answers, tasks, s') ->
  receivers_live w ->
  receivers_live {| db := w.(db); sessions := <[e := s']> w.(sessions); running := start_tasks e w.(next_task) tasks w.(running);
    finished := taken_results s w.(finished); next_task := w.(next_task) + length tasks |}.
Proof.
  intros He Ho Hb E Hw. pose proof Hw as [Hid Hd Hr].
  apply session_tick_keeps in E as (_ & _ & Hk); [|assumption..].
  assert (Hfresh : forall id, (w.(next_task) <= id)%nat -> w.(finished) !! id = None).
  { intros id Hle. apply eq_None_not_Some. intros H. specialize (Hid id (or_intror H)). lia. }
  assert (Hold : forall id, (id < w.(next_task))%nat -> start_tasks e w.(next_task) tasks w.(running) !! id = w.(running) !! id).
  { intros id Hlt. rewrite start_tasks_lookup. destruct (tasks !! _); [|reflexivity].
    destruct (Nat.leb_spec w.(next_task) id); [lia|reflexivity]. }
  assert (Hnone : forall id, w.(finished) !! id = None -> taken_results s w.(finished) !! id = None).
  { intros id Hf. destruct (taken_results_lookup s w.(finished) id) as [H|H]; congruence. }
  split; cbn [running finished next_task sessions].
  - intros id [[x Hx]|[x Hx]].
    + destruct (Nat.lt_ge_cases id w.(next_task)) as [Hlt|Hge]; [lia|]. rewrite start_tasks_lookup in Hx.
      destruct (tasks !! (id - w.(next_task))%nat) eqn:Et; [apply lookup_lt_Some in Et; lia|]. specialize (Hid id (or_introl (mk_is_Some _ _ Hx))). lia.
    + destruct (taken_results_lookup s w.(finished) id) as [H|H]; [congruence|]. rewrite H in Hx.
      specialize (Hid id (or_intror (mk_is_Some _ _ Hx))). lia.
  - intros id Hx. apply Hnone. destruct (Nat.lt_ge_cases id w.(next_task)) as [Hlt|Hge]; [|apply Hfresh, Hge].
    rewrite Hold in Hx by exact Hlt. apply Hd, Hx.
  - intros e' s0 k id H1 H2. unfold waits, results_of. cbn [running finished next_task].
    destruct (decide (e' = e)) as [->|Hne].
    + rewrite lookup_insert_eq in H1. injection H1 as <-. apply Hk in H2 as [(i & t & Ht & Hkt & ->)|[H2 Hem]].
      * rewrite Hnone by (apply Hfresh; lia). rewrite start_tasks_lookup. replace (w.(next_task) + i - w.(next_task))%nat with i by lia.
        rewrite Ht. destruct (Nat.leb_spec w.(next_task) (w.(next_task) + i)); [|lia]. eauto.
      * specialize (Hr e s k id He H2). unfold waits in Hr. rewrite Hem in Hr. destruct Hr as (t & Ht & Hkt).
        assert (Hs : is_Some (w.(running) !! id)) by eauto. rewrite Hnone by (apply Hd, Hs).
        rewrite Hold by (apply Hid; left; exact Hs). rewrite Ht. eauto.
    + rewrite lookup_insert_ne in H1 by congruence. specialize (Hr e' s0 k id H1 H2). unfold waits, results_of in Hr.
      destruct (w.(finished) !! id) as [[e1 r]|] eqn:Ef.
      * destruct Hr as [Hr Hkr]. injection Hr as ->. rewrite (taken_results_others w e s id _ Hw He Ef Hne). auto.
      * rewrite Hnone by exact Ef. destruct (w.(running) !! id) as [[e1 t]|] eqn:Ert.
        -- rewrite Hold by (apply Hid; left; eauto). rewrite Ert. exact Hr.
        -- rewrite Hold, Ert by exact Hr. lia.
Qed.

(** A task ends, with a result or without. *)
Lemma ended_receivers w id e t d' o :
  w.(running) !! id = Some (e, t) -> match o with Some r => kind_of_result r = kind_of_task t | None => True end ->
  receivers_live w ->
  receivers_live {| db := d'; sessions := w.(sessions); running := delete id w.(running);
    finished := match o with Some r => <[id := (e, r)]> w.(finished) | None => w.(finished) end; next_task := w.(next_task) |}.
Proof.
  intros Ht Hko Hw. pose proof Hw as [Hid Hd Hr]. assert (Hin : is_Some (w.(running) !! id)) by eauto.
  assert (Hne : forall i, i <> id -> match o with Some r => <[id := (e, r)]> w.(finished) | None => w.(finished) end !! i = w.(finished) !! i).
  { intros i Hn. destruct o; [apply lookup_insert_ne; congruence|reflexivity]. }
  split; cbn [running finished next_task sessions].
  - intros i Hl. destruct (decide (i = id)) as [->|Hn]; [auto|]. rewrite lookup_delete_ne, Hne in Hl by congruence. auto.
  - intros i Hl. destruct (decide (i = id)) as [->|Hn]; [rewrite lookup_delete_eq in Hl; destruct Hl; discriminate|].
    rewrite lookup_delete_ne in Hl by congruence. rewrite Hne by exact Hn. auto.
  - intros e' s k i H1 H2. specialize (Hr e' s k i H1 H2). unfold waits, results_of in *. cbn [running finished next_task].
    destruct (decide (i = id)) as [->|Hn]; [|rewrite lookup_delete_ne, Hne by congruence; exact Hr].
    rewrite (Hd id Hin), Ht in Hr. destruct Hr as (t' & [= <- <-] & Hk). rewrite lookup_delete_eq. destruct o as [r|].
    + rewrite lookup_insert_eq. split; [reflexivity|congruence].
    + rewrite (Hd id Hin). auto.
Qed.

Lemma step_receivers w l w' :
  world_step datetime_of lower config w l w' -> receivers_live w -> receivers_live w'.
Proof.
  destruct 1 as [w e u He|w e|w e s now actions order buffers answers tasks s' He Ho Hb E|w id e t now result db' Ht Hrun
                |w id e t db' Ht Hi]; intros Hw.
  - apply (sessions_receivers w); [exact Hw|]. intros e' s k id. destruct (decide (e' = e)) as [->|Hn].
    + rewrite lookup_insert_eq. intros [= <-]. rewrite receiver_new. discriminate.
    + rewrite lookup_insert_ne by congruence. exact (receivers_wait _ Hw e' s k id).
  - apply (sessions_receivers w); [exact Hw|]. intros e' s k id Hl. apply lookup_delete_Some in Hl as [_ Hl].
    exact (receivers_wait _ Hw e' s k id Hl).
  - exact (tick_receivers w e s now actions order buffers answers tasks s' He Ho Hb E Hw).
  - apply (ended_receivers w id e t db' (Some result) Ht); [|exact Hw].
    change result with (result, db').1. rewrite <- Hrun. apply run_task_kind.
  - exact (ended_receivers w id e t db' None Ht Logic.I Hw).
Qed.

Lemma run_receivers_live d log w : run d log w -> receivers_live w.
Proof. induction 1; [apply start_receivers|]. eapply step_receivers; eassumption. Qed.

(** C12: What becomes of a task that a session waits for, in every reachable
    world. While it runs, the database can run it, and then its result is there
    for the session; once the result is there, the next tick of the session,
    whatever it requests and in whatever order the systems run and their
    commands are applied, sends the answer of this result, takes the result, so
    that it is not answered again, and remembers it; and the session waits no
    more, but for tasks of the same kind that it starts in the same tick. A
    deletion that found no character has no answer. Only a task that panicked
    has neither a result nor an answer, and its receiver goes in the next tick. *)
Theorem waiting_is_answered d log w e s k id
    (Hrun : run d log w) (Hs : w.(sessions) !! e = Some s) (Hwait : receiver k s = Some id) :
  match results_of w id with
  | Empty => exists t, kind_of_task t = k /\ forall now, exists w',
      world_step datetime_of lower config w (e, []) w' /\ w'.(sessions) !! e = Some s
      /\ results_of w' id = Value (run_task lower now t w.(db)).1
  | Value _ | Closed => True
  end
  /\ forall now actions order buffers answers tasks s',
      order ≡ₚ login_systems -> buffers ≡ₚ login_systems ->
      session_tick datetime_of config now (results_of w) actions w.(next_task) order buffers s = (answers, tasks, s') ->
      match results_of w id with
      | Value r =>
          kind_of_result r = k /\ taken_results s w.(finished) !! id = None
          /\ (exists before after, answers = before ++ answer_to now r ++ after) /\ remembers r tasks s'
          /\ (Forall (fun t => kind_of_task t <> k) tasks -> receiver k s' = None)
      | Empty => Forall (fun t => kind_of_task t <> k) tasks -> receiver k s' = None \/ receiver k s' = Some id
      | Closed => Forall (fun t => kind_of_task t <> k) tasks -> receiver k s' = None
      end.
Proof.
  pose proof (run_receivers_live d log w Hrun) as Hlive. pose proof (receivers_wait _ Hlive e s k id Hs Hwait) as Hw. split.
  - unfold waits in Hw. destruct (results_of w id); try exact Logic.I. destruct Hw as (t & Ht & Hk). exists t. split; [exact Hk|].
    intros now. destruct (run_task lower now t w.(db)) as [r d'] eqn:E. eexists. split; [eapply step_run; [exact Ht|exact E]|].
    split; [exact Hs|]. unfold results_of. cbn [finished]. rewrite lookup_insert_eq. reflexivity.
  - intros now actions order buffers answers tasks s' Ho Hb E.
    pose proof (session_tick_keeps now (results_of w) actions _ _ _ _ _ _ _ Ho Hb E) as (_ & _ & Hk).
    assert (Hgone : Forall (fun t => kind_of_task t <> k) tasks -> receiver k s' = None \/ (receiver k s' = Some id /\ results_of w id = Empty)).
    { intros Ht. destruct (receiver k s') as [i|] eqn:Ei; [|auto]. right. apply Hk in Ei as [(j & t & Hj & Hkt & _)|[Hi Hem]].
      - exfalso. rewrite Forall_lookup in Ht. exact (Ht j t Hj Hkt).
      - rewrite Hwait in Hi. injection Hi as <-. auto. }
    unfold waits in Hw. destruct (results_of w id) as [r| |] eqn:Er.
    + destruct Hw as [_ <-]. split; [reflexivity|]. split; [exact (taken_results_taken s _ _ id Hwait)|].
      destruct (session_tick_answers now (results_of w) actions _ _ _ _ _ _ _ id r Ho E Hwait Er) as [Ha Hm].
      split; [exact Ha|]. split; [exact Hm|]. intros Ht. destruct (Hgone Ht) as [H|[_ H]]; [exact H|discriminate].
    + intros Ht. destruct (Hgone Ht) as [H|[H _]]; auto.
    + intros Ht. destruct (Hgone Ht) as [H|[_ H]]; [exact H|discriminate].
Qed.

(** ** Rows change by their user only *)

(** A run in which every session is of a user of [us]. *)
Inductive run_among (us : Z -> Prop) (d : Database) : World -> Prop :=
| among_start : run_among us d (start d)
| among_step w l w' : run_among us d w -> world_step datetime_of lower config w l w' ->
    (forall e s, w'.(sessions) !! e = Some s -> us s.(user)) -> run_among us d w'.

(** The tasks that run are of users of [us]. *)
Definition tasks_of (us : Z -> Prop) (w : World) : Prop :=
  forall id e t u, w.(running) !! id = Some (e, t) -> task_user t = Some u -> us u.

Lemma step_tasks_of us w l w' :
  world_step datetime_of lower config w l w' -> (forall e s, w.(sessions) !! e = Some s -> us s.(user)) ->
  tasks_of us w -> tasks_of us w'.
Proof.
  intros Hstep Hus Hw.
  destruct Hstep as [| |w e s now actions order buffers answers tasks s' He Ho Hb E| |]; try exact Hw; intros i e' t' u.
  - cbn [running]. rewrite start_tasks_lookup. apply session_tick_keeps in E as (_ & Ht & _); [|assumption..].
    destruct (tasks !! _) as [t|] eqn:Et; [|apply Hw]. destruct (_ <=? i)%nat; [|apply Hw]. intros [= <- <-] Hu.
    rewrite Forall_lookup in Ht. destruct (Ht _ _ Et) as [Hk|Hk]; rewrite Hk in Hu; [discriminate|].
    injection Hu as <-. eapply Hus, He.
  - cbn. intros Hl. apply lookup_delete_Some in Hl as [_ Hl]. exact (Hw _ _ _ u Hl).
  - cbn. intros Hl. apply lookup_delete_Some in Hl as [_ Hl]. exact (Hw _ _ _ u Hl).
Qed.

(** What a panic leaves is nothing, or what a task of the same user does. *)
Lemma interrupted_task t d d' : interrupted t d d' ->
  d' = d \/ exists t', task_user t' = task_user t /\ d' = (run_task lower 0 t' d).2.
Proof.
  intros [-> |H]; [auto|]. destruct t as [c| | | |]; try contradiction. destruct H as [n ->]. right.
  exists (TaskCreate (with_items (take n c.(db_items)) c)). split; reflexivity.
Qed.

Lemma among_invariant us d w : db_wf d -> run_among us d w ->
  db_wf w.(db) /\ tasks_of us w /\ (forall e s, w.(sessions) !! e = Some s -> us s.(user))
  /\ forall v, ~ us v -> user_view v w.(db) = user_view v d.
Proof.
  intros Hd. induction 1 as [|w l w' Hr (Hwf & Ht & Hu & Hv) Hstep Hus].
  - repeat split; try exact (proj1 Hd) || apply Hd; [intros id e t u|intros e s]; cbn; rewrite lookup_empty; discriminate.
  - split; [|split; [eapply step_tasks_of; eassumption|split; [exact Hus|]]].
    + destruct Hstep as [| | |w id e t now result db' Hl Hrun|w id e t db' Hl Hi]; try exact Hwf; cbn.
      * change db' with (result, db').2. rewrite <- Hrun. apply run_task_wf, Hwf.
      * apply interrupted_task in Hi as [-> |(t' & _ & ->)]; [exact Hwf|]. apply run_task_wf, Hwf.
    + intros v Hnv. rewrite <- (Hv v Hnv). destruct Hstep as [| | |w id e t now result db' Hl Hrun|w id e t db' Hl Hi]; try reflexivity; cbn.
      * change db' with (result, db').2. rewrite <- Hrun. apply run_task_view; [exact Hwf|].
        intros Hk. apply Hnv, (Ht id e t v Hl Hk).
      * apply interrupted_task in Hi as [-> |(t' & Hk & ->)]; [reflexivity|]. apply run_task_view; [exact Hwf|].
        intros Hk'. apply Hnv, (Ht id e t v Hl). congruence.
Qed.

(** C9: Whatever the clients of the sessions ask for, in any order of the tasks
    of the database, the characters of a user without a session stay as they
    are, with their items, masteries and skills: requests create, delete and
    restore characters of the user of their session only. *)
Theorem others_unchanged us d w v (Hd : db_wf d) (Hrun : run_among us d w) (Hv : ~ us v) :
  user_view v w.(db) = user_view v d.
Proof. apply (among_invariant us d w Hd Hrun), Hv. Qed.

End Runs.

(** ** Created characters *)

(** A new character, as it is loaded: what its client asked for, and what every
    character starts with. It has no gold and is Chinese, whatever it was
    created as. *)
Definition new_character (id user server : Z) (n : list Z) (ref_id scale chest pants boots weapon : Z) : DbCharacter :=
  let worn slot obj_id := (slot, {| item_obj_id := i32 obj_id; db_upgrade_level := 0; db_variance := None; db_amount := 1 |}) in
  {| character_data :=
       {| data_id := id; user_id := user; server_id := server; charname := n; character_type := i32 ref_id; db_scale := scale;
          db_level := 1; db_max_level := 1; db_exp := 0; db_sp := 0; db_sp_exp := 0; db_stat_points := 0;
          strength := 20; intelligence := 20; db_current_hp := 200; db_current_mp := 200; db_berserk_points := 0;
          db_region := 24998; pos_x := f32_of_Z 739; pos_y := f32_of_decimal false 374519 (-4); pos_z := f32_of_Z 1757; db_rotation := 0;
          db_beginner_mark := true; db_gm := false; deletion_end := None; last_logout := None;
          db_gold := 0; db_race := DbChinese |};
     db_items := [worn 1 chest; worn 4 pants; worn 5 boots; worn 6 weapon];
     db_masteries := []; db_skills := [] |}.

(** C36: What is created is what is loaded: the list of the user and server of
    the new character is the previous list and, last, the character with the
    name, the looks and the four items of the request, at its first level, with
    the points, the health and the place that every character starts with, but
    for its gold and race, which are lost; the list of every other user or server
    stays, and the name is taken from then on. *)
Theorem created_character_loads lower u sv now user server n ref_id scale chest pants boots weapon d (Hd : db_wf d) :
  let created := create_character (create_character_from user server n ref_id scale chest pants boots weapon) d in
  load_characters_sparse u sv now created
  = load_characters_sparse u sv now d
    ++ (if (user =? u) && (server =? sv)
        then [new_character d.(next_id) user server n ref_id scale chest pants boots weapon] else [])
  /\ (i16 server = server -> check_name_available lower n server created = (n, false)).
Proof.
  set (c := create_character_from user server n ref_id scale chest pants boots weapon). split.
  - unfold load_characters_sparse, fetch_characters.
    pose proof (created_view (fun r => (r.(user_id) =? u) && (r.(server_id) =? sv) && not_deleted now r) c d Hd) as H.
    cbn beta in H. cbn [inserted_row user_id server_id] in H. unfold not_deleted at 3 in H.
    cbn [inserted_row deletion_end] in H. rewrite andb_true_r in H. exact H.
  - intros Hs. unfold check_name_available, create_character. cbn [characters].
    rewrite List.filter_app, length_app. cbn [List.filter inserted_row charname server_id c create_character_from character_data].
    rewrite bool_decide_true, Hs, Z.eqb_refl by reflexivity. cbn. f_equal. apply Nat.eqb_neq. lia.
Qed.

(** The gold a new character is given is not written, nor is its race: the
    statement that inserts the row names neither column. *)
Lemma starting_gold_lost id u sv n ref_id sc c p b wp :
  let asked := create_character_from u sv n ref_id sc c p b wp in
  let loaded := new_character id u sv n ref_id sc c p b wp in
  asked.(character_data).(db_gold) = 5000000 /\ loaded.(character_data).(db_gold) = 0
  /\ (2000 < ref_id -> asked.(character_data).(db_race) = DbEuropean) /\ loaded.(character_data).(db_race) = DbChinese.
Proof. repeat split. cbn. intros H. apply Z.ltb_lt in H. rewrite H. reflexivity. Qed.

(** ** Deletion *)

Lemma update_where_counts p f d : (update_where p f d).1 = length (List.filter p d.(characters)).
Proof. reflexivity. Qed.

Lemma filter_length_map (p q : CharacterData -> bool) f cs :
  (forall c, c ∈ cs -> q (f c) = p c) ->
  length (List.filter q (map f cs)) = length (List.filter p cs).
Proof.
  induction cs as [|c cs IH]; intros H; [reflexivity|]. cbn. rewrite (H c (list_elem_of_here _ _)).
  destruct (p c); cbn; rewrite IH; auto; intros x Hx; apply H; right; exact Hx.
Qed.

Lemma with_deletion_end_back c : c.(deletion_end) = None -> with_deletion_end None c = c.
Proof. destruct c. cbn. intros ->. reflexivity. Qed.

Lemma named_deletion u sv n t c : named u sv n (with_deletion_end t c) = named u sv n c.
Proof. reflexivity. Qed.

(** Deletion can be undone until it ends and not after. For characters of
    this name none of which is being deleted: restored before the end, the
    database is what it was and the answer that of the deletion; afterwards no
    character of the name is listed, restoring changes nothing and fails, and
    the name is as taken as it was. *)
Theorem deletion_until_end lower u n sv duration now later d deleted success
    (Hnone : forall c, c ∈ d.(characters) -> named u (i16 sv) n c = true -> c.(deletion_end) = None)
    (Hdel : start_delete_character u n sv duration now d = (success, deleted)) :
  check_name_available lower n sv deleted = check_name_available lower n sv d
  /\ if later <? now + minutes (i32 duration)
     then restore_character u n sv later deleted = (success, d)
     else restore_character u n sv later deleted = (false, deleted)
          /\ forall c, c ∈ load_characters_sparse u (i16 sv) later deleted -> c.(character_data).(charname) <> n.
Proof.
  unfold start_delete_character in Hdel. cbn [update_where] in Hdel. set (e := now + minutes (i32 duration)) in *.
  injection Hdel as <- <-. set (mark := fun c : CharacterData => if named u (i16 sv) n c then _ else c).
  assert (Hmark : forall c, named u (i16 sv) n (mark c) = named u (i16 sv) n c)
    by (intros c; unfold mark; destruct (named u (i16 sv) n c) eqn:E; [rewrite named_deletion|]; exact E).
  assert (Hmarked : forall c, named u (i16 sv) n c = true -> (mark c).(deletion_end) = Some e)
    by (intros c E; unfold mark; rewrite E; reflexivity).
  split; [|destruct (Z.ltb_spec later e) as [Hl|Hl]].
  - unfold check_name_available. cbn [characters with_characters]. do 2 f_equal.
    apply filter_length_map. intros c _. unfold mark. destruct (named _ _ _ c); reflexivity.
  - unfold restore_character. cbn [update_where characters with_characters].
    rewrite (filter_length_map (named u (i16 sv) n)), map_map.
    + f_equal. destruct d as [cs ci cm ck nx]. unfold with_characters. cbn in *. f_equal.
      rewrite <- (map_id cs) at 2. apply map_ext_in. intros c Hc. apply list_elem_of_In in Hc. rewrite Hmark.
      destruct (named u (i16 sv) n c) eqn:E; cbn [andb]; [|unfold mark; rewrite E; reflexivity].
      rewrite Hmarked by exact E. apply Z.ltb_lt in Hl. rewrite Hl.
      unfold mark. rewrite E. rewrite <- (with_deletion_end_back c (Hnone c Hc E)) at 2. reflexivity.
    + intros c _. rewrite Hmark. destruct (named u (i16 sv) n c) eqn:E; [|reflexivity].
      rewrite Hmarked by exact E. apply Z.ltb_lt. exact Hl.
  - assert (Hno : forall c, named u (i16 sv) n (mark c) && match (mark c).(deletion_end) with
      Some t => later <? t | None => false end = false).
    { intros c. rewrite Hmark. destruct (named u (i16 sv) n c) eqn:E; [|reflexivity].
      rewrite Hmarked by exact E. apply Z.ltb_ge. exact Hl. }
    split.
    + unfold restore_character. cbn [update_where characters with_characters].
      rewrite (filter_length_map (fun _ => false)) by (intros c _; apply Hno).
      assert (Hz : forall cs : list CharacterData, List.filter (fun _ => false) cs = []) by (induction cs; auto).
      rewrite Hz. cbn. f_equal. unfold with_characters. cbn. f_equal. rewrite map_map. apply map_ext. intros c.
      rewrite Hno. reflexivity.
    + intros x Hx. apply list_elem_of_In, in_map_iff in Hx as (r & <- & Hr). cbn [character_data].
      apply filter_In in Hr as [Hr Hp]. cbn [characters with_characters] in Hr. apply in_map_iff in Hr as (c & <- & _).
      apply andb_true_iff in Hp as [Hp Hnd]. intros Hname.
      assert (E : named u (i16 sv) n (mark c) = true).
      { unfold named. rewrite Hp. cbn. apply bool_decide_true. exact Hname. }
      specialize (Hno c). rewrite E in Hno. rewrite Hmark in E. unfold not_deleted in Hnd. rewrite Hmarked in * by exact E.
      cbn in Hno. congruence.
Qed.

(** ** Sessions that create two characters of one name, or lose a request *)

Section Duplicates.

#[local] Definition no_rows : Database :=
  {| characters := []; character_items := []; character_masteries := []; character_skills := []; next_id := 1 |}.
#[local] Definition one_server : ServerConfig := {| the_server := 3; deletion_time := 10080; job_spread := (50, 50) |}.
#[local] Definition epoch (t : Z) : datetime :=
  {| year := 1970; month := 1; day := 1; hour := 0; minute := 0; second := 0; timestamp_millis := t |}.
#[local] Definition kept (n : list Z) : list Z := n.
#[local] Abbreviation reached := (run epoch kept one_server no_rows).

#[local] Definition removals_last : list login_system :=
  [Requests; Results ForCreate; Results ForRestore; Results ForDelete; Results ForCheck; Results ForLoad].

Lemma no_rows_wf : db_wf no_rows.
Proof. repeat split; intros x Hx; inversion Hx. Qed.

(** The steps of a run, in order. *)
Ltac run_steps :=
  repeat lazymatch goal with
  | |- run _ _ _ _ ?l _ =>
      first [ apply run_start | eapply (run_step _ _ _ _ (removelast l)); cbn [removelast] ]
  end.

Ltac starts e u := apply (step_session _ _ _ _ e u); apply lookup_empty.

(** A tick with some requests, the commands applied in an order. *)
Ltac ticks acts bufs :=
  eapply (step_tick _ _ _ _ _ _ 0 acts login_systems bufs); [apply lookup_insert_eq|reflexivity|unfold removals_last, login_systems; solve_Permutation|vm_compute; reflexivity].
Ltac asks a := ticks [a] login_systems.
Ltac database_runs i := eapply (step_run _ _ _ _ i _ _ 0); [apply lookup_insert_eq|reflexivity].

Lemma session_listed (e : Entity) (u : Z) :
  exists w s, reached [(e, []); (e, []); (e, [])] w /\ w.(sessions) !! e = Some s /\ receiver ForLoad s = Some O
    /\ results_of w O = Value (Loaded []) /\ w.(next_task) = 1%nat.
Proof.
  do 2 eexists. split; [|split; [|split; [|split]]].
  - run_steps; [starts e u|asks ListCharacters|database_runs O].
  - apply lookup_insert_eq.
  - reflexivity.
  - reflexivity.
  - reflexivity.
Qed.

Lemma waiting_is_answered_witness :
  exists w s, reached [(7, []); (7, []); (7, [])] w /\ w.(sessions) !! 7 = Some s /\
    forall order buffers answers tasks s', order ≡ₚ login_systems -> buffers ≡ₚ login_systems ->
      session_tick epoch one_server 5 (results_of w) [ListCharacters; CheckName [97]] w.(next_task) order buffers s = (answers, tasks, s') ->
      (exists before after, answers = before ++ [send_character_list epoch 5 []] ++ after) /\ s'.(known) = Some [].
Proof.
  destruct (session_listed 7 1) as (w & s & Hw & Hs & Hr & Hv & _). exists w, s. split; [exact Hw|]. split; [exact Hs|].
  intros order buffers answers tasks s' Ho Hb E.
  pose proof (proj2 (waiting_is_answered epoch kept one_server no_rows _ w 7 s ForLoad 0 Hw Hs Hr) 5 _ order buffers answers tasks s' Ho Hb E) as H.
  rewrite Hv in H. destruct H as (_ & _ & Ha & Hm & _). split; [exact Ha|exact Hm].
Defined.

(** A session of user 1 creates a character: user 2 keeps theirs. *)
Definition of_user_1 (u : Z) : Prop := u = 1.

Lemma some_creation :
  exists w, run_among epoch kept one_server of_user_1 no_rows w /\ length (w.(db).(characters)) = 1%nat.
Proof.
  eexists. split.
  - eapply among_step; [eapply among_step; [eapply among_step; [apply among_start|starts 7 1|]|..]|..].
    2: asks (Create [97] 1907 34 3631 3632 3633 3634).
    3: database_runs O.
    all: intros e s; cbn [sessions]; rewrite ?insert_insert_eq; intros H;
      apply lookup_insert_Some in H as [[_ <-]|[_ H]]; [reflexivity|first [discriminate H|cbn in H; rewrite lookup_empty in H; discriminate]].
  - reflexivity.
Qed.

Lemma others_unchanged_witness :
  exists w, run_among epoch kept one_server of_user_1 no_rows w /\ length (w.(db).(characters)) = 1%nat
    /\ user_view 2 w.(db) = user_view 2 no_rows.
Proof.
  destruct some_creation as (w & Hw & Hn). exists w. split; [exact Hw|]. split; [exact Hn|].
  apply (others_unchanged epoch kept one_server of_user_1 no_rows w 2 no_rows_wf Hw). intros H. discriminate H.
Defined.

#[local] Definition asked (n : list Z) : DbCharacter := create_character_from 1 3 n 1907 34 3631 3632 3633 3634.

Lemma created_character_loads_witness :
  load_characters_sparse 1 3 0 (create_character (asked [97]) no_rows) = [new_character 1 1 3 [97] 1907 34 3631 3632 3633 3634]
  /\ (i16 3 = 3 -> check_name_available kept [97] 3 (create_character (asked [97]) no_rows) = ([97], false)).
Proof.
  exact (created_character_loads kept 1 3 0 1 3 [97] 1907 34 3631 3632 3633 3634 no_rows no_rows_wf).
Defined.

Lemma deletion_until_end_witness :
  let d := create_character (asked [97]) no_rows in
  let deleted := (start_delete_character 1 [97] 3 10080 0 d).2 in
  restore_character 1 [97] 3 1000 deleted = (true, d) /\ restore_character 1 [97] 3 604800000000 deleted = (false, deleted).
Proof.
  intros d deleted.
  assert (Hnone : forall c, c ∈ d.(characters) -> named 1 (i16 3) [97] c = true -> c.(deletion_end) = None)
    by (intros c Hc _; apply list_elem_of_singleton in Hc as ->; reflexivity).
  assert (Hdel : start_delete_character 1 [97] 3 10080 0 d = (true, deleted)) by reflexivity.
  split.
  - exact (proj2 (deletion_until_end kept 1 [97] 3 10080 0 1000 d deleted true Hnone Hdel)).
  - exact (proj1 (proj2 (deletion_until_end kept 1 [97] 3 10080 0 604800000000 d deleted true Hnone Hdel))).
Defined.

(** A failed check of the name does not keep [Create] from creating it: one
    session ends up with two characters of one name, after both requests were
    answered with an error. *)
Lemma duplicate_names_reachable :
  exists log w, reached log w
    /\ map charname w.(db).(characters) = [[97]; [97]]
    /\ log = [(7, []); (7, [response "Create" (list_error "InvalidCharacterData")]); (7, []);
              (7, [response "Create" list_ok; response "Create" (list_error "InvalidCharacterData")]); (7, [])].
Proof.
  do 2 eexists. split; [|split; [|reflexivity]].
  - run_steps.
    + starts 7 1.
    + asks (Create [97] 1907 34 3631 3632 3633 3634).
    + database_runs O.
    + asks (Create [97] 1907 34 3631 3632 3633 3634).
    + database_runs 1%nat.
  - reflexivity.
Qed.

(** A request that arrives in the tick in which the answer of an earlier one of
    its kind is taken may be lost: when the removal of the old receiver is applied
    after the insertion of the new one, the session does not wait for its task,
    and the list it has asked for is never sent. *)
Lemma request_lost_reachable :
  exists log w s, reached log w
    /\ log = [(7, []); (7, []); (7, []); (7, [send_character_list epoch 0 []])]
    /\ w.(sessions) !! 7 = Some s /\ w.(running) !! 1%nat = Some (7, TaskLoad 1 3) /\ receiver ForLoad s = None.
Proof.
  do 3 eexists. split; [|split; [reflexivity|split; [|split]]].
  - run_steps; [starts 7 1|asks ListCharacters|database_runs O|ticks [ListCharacters] removals_last].
  - apply lookup_insert_eq.
  - reflexivity.
  - reflexivity.
Qed.

End Duplicates.
