(* ===== verification/Join.v ===== *)
(** From a connection to a player and back: agent/src/net/net.rs, the inputs of
    a tick (input/system.rs, component.rs), joining the game (handle_join and
    send_spawn of login/charselect.rs, comp/player.rs, game/join.rs), leaving it
    (game/logout.rs), the day (game/daylight.rs), and the refresh of the
    distribution of jobs (login/job_distribution.rs). *)
From stdpp Require Import base list option strings gmap.
From Stdlib Require Import ZArith Lia Floats.SpecFloat.
From S2P Require Import Skills.
From S2P Require Import Prelude Utf Text F32 Definitions TypeIdEnums TypeId GameData SkillData Serde Schema ProtoGeneral.
From S2P Require Import ProtoLogin ProtoCombat ProtoInventory ProtoWorld ProtoCharacter ProtoChat ProtoSpawn Packets.
From S2P Require Import Inventory InventoryRows Population Progress Position Entities Visibility Characters Movement AgentStates Combat CharSelect.

(** ** input/component.rs *)

(** The last request of a kind, or all of them. *)
Record PlayerInput := {
  logout : option val;
  target : option val;
  untarget : option val;
  chat : list val;
  action_input : option val;
  movement_input : option val;
  rotation_input : option val;
  inventory_input : option val;
  gm_input : option val;
  mastery : option val;
  skill_add : option val;
  increase_stats : list StatType;
}.

Definition player_input_default : PlayerInput :=
  {| logout := None; target := None; untarget := None; chat := []; action_input := None; movement_input := None;
     rotation_input := None; inventory_input := None; gm_input := None; mastery := None; skill_add := None;
     increase_stats := [] |}.

Record LoginInput := {
  list_requests : list CharacterListRequestAction;
  join : option (list Z);
  auth : option Z;
}.

Definition login_input_default : LoginInput := {| list_requests := []; join := None; auth := None |}.

(** [reset] at the end of a tick. *)
Definition reset (p : list PlayerInput) (l : list LoginInput) : list PlayerInput * list LoginInput :=
  (map (fun _ => player_input_default) p, map (fun _ => login_input_default) l).

(** ** input/system.rs *)

(** What a packet does to the inputs of a player. *)
Record GameEffect := {
  game_input : PlayerInput;
  game_answers : sent;
  loading_finished : nat;
  mall_requests : nat;
}.

Definition game_packet (p : packet) (e : GameEffect) : GameEffect :=
  let with_input i := {| game_input := i; game_answers := e.(game_answers); loading_finished := e.(loading_finished);
                         mall_requests := e.(mall_requests) |} in
  let answer a := {| game_input := e.(game_input); game_answers := e.(game_answers) ++ [a];
                     loading_finished := e.(loading_finished); mall_requests := e.(mall_requests) |} in
  let i := e.(game_input) in
  match p with
  | ("ChatMessage"%string, v) =>
      with_input {| logout := i.(logout); target := i.(target); untarget := i.(untarget); chat := i.(chat) ++ [v];
                    action_input := i.(action_input); movement_input := i.(movement_input);
                    rotation_input := i.(rotation_input); inventory_input := i.(inventory_input);
                    gm_input := i.(gm_input); mastery := i.(mastery); skill_add := i.(skill_add);
                    increase_stats := i.(increase_stats) |}
  | ("Rotation"%string, v) =>
      with_input {| logout := i.(logout); target := i.(target); untarget := i.(untarget); chat := i.(chat);
                    action_input := i.(action_input); movement_input := i.(movement_input);
                    rotation_input := Some v; inventory_input := i.(inventory_input);
                    gm_input := i.(gm_input); mastery := i.(mastery); skill_add := i.(skill_add);
                    increase_stats := i.(increase_stats) |}
  | ("PlayerMovementRequest"%string, VStruct [kind]) =>
      with_input {| logout := i.(logout); target := i.(target); untarget := i.(untarget); chat := i.(chat);
                    action_input := i.(action_input); movement_input := Some kind;
                    rotation_input := i.(rotation_input); inventory_input := i.(inventory_input);
                    gm_input := i.(gm_input); mastery := i.(mastery); skill_add := i.(skill_add);
                    increase_stats := i.(increase_stats) |}
  | ("LogoutRequest"%string, v) =>
      with_input {| logout := Some v; target := i.(target); untarget := i.(untarget); chat := i.(chat);
                    action_input := i.(action_input); movement_input := i.(movement_input);
                    rotation_input := i.(rotation_input); inventory_input := i.(inventory_input);
                    gm_input := i.(gm_input); mastery := i.(mastery); skill_add := i.(skill_add);
                    increase_stats := i.(increase_stats) |}
  | ("TargetEntity"%string, v) =>
      with_input {| logout := i.(logout); target := Some v; untarget := i.(untarget); chat := i.(chat);
                    action_input := i.(action_input); movement_input := i.(movement_input);
                    rotation_input := i.(rotation_input); inventory_input := i.(inventory_input);
                    gm_input := i.(gm_input); mastery := i.(mastery); skill_add := i.(skill_add);
                    increase_stats := i.(increase_stats) |}
  | ("UnTargetEntity"%string, v) =>
      with_input {| logout := i.(logout); target := i.(target); untarget := Some v; chat := i.(chat);
                    action_input := i.(action_input); movement_input := i.(movement_input);
                    rotation_input := i.(rotation_input); inventory_input := i.(inventory_input);
                    gm_input := i.(gm_input); mastery := i.(mastery); skill_add := i.(skill_add);
                    increase_stats := i.(increase_stats) |}
  | ("PerformAction"%string, v) =>
      with_input {| logout := i.(logout); target := i.(target); untarget := i.(untarget); chat := i.(chat);
                    action_input := Some v; movement_input := i.(movement_input);
                    rotation_input := i.(rotation_input); inventory_input := i.(inventory_input);
                    gm_input := i.(gm_input); mastery := i.(mastery); skill_add := i.(skill_add);
                    increase_stats := i.(increase_stats) |}
  | ("GmCommand"%string, v) =>
      with_input {| logout := i.(logout); target := i.(target); untarget := i.(untarget); chat := i.(chat);
                    action_input := i.(action_input); movement_input := i.(movement_input);
                    rotation_input := i.(rotation_input); inventory_input := i.(inventory_input);
                    gm_input := Some v; mastery := i.(mastery); skill_add := i.(skill_add);
                    increase_stats := i.(increase_stats) |}
  | ("OpenItemMall"%string, _) =>
      {| game_input := i; game_answers := e.(game_answers); loading_finished := e.(loading_finished);
         mall_requests := S e.(mall_requests) |}
  | ("InventoryOperation"%string, v) =>
      with_input {| logout := i.(logout); target := i.(target); untarget := i.(untarget); chat := i.(chat);
                    action_input := i.(action_input); movement_input := i.(movement_input);
                    rotation_input := i.(rotation_input); inventory_input := Some v;
                    gm_input := i.(gm_input); mastery := i.(mastery); skill_add := i.(skill_add);
                    increase_stats := i.(increase_stats) |}
  | ("ConsignmentList"%string, _) => answer ("ConsignmentResponse"%string, ConsignmentResponse_success_empty)
  | ("UpdateGameGuide"%string, VStruct [guide]) => answer ("GameGuideResponse"%string, VEnum "Success" [guide])
  | ("FinishLoading"%string, _) =>
      {| game_input := i; game_answers := e.(game_answers); loading_finished := S e.(loading_finished);
         mall_requests := e.(mall_requests) |}
  | ("LevelUpMastery"%string, v) =>
      with_input {| logout := i.(logout); target := i.(target); untarget := i.(untarget); chat := i.(chat);
                    action_input := i.(action_input); movement_input := i.(movement_input);
                    rotation_input := i.(rotation_input); inventory_input := i.(inventory_input);
                    gm_input := i.(gm_input); mastery := Some v; skill_add := i.(skill_add);
                    increase_stats := i.(increase_stats) |}
  | ("LearnSkill"%string, v) =>
      with_input {| logout := i.(logout); target := i.(target); untarget := i.(untarget); chat := i.(chat);
                    action_input := i.(action_input); movement_input := i.(movement_input);
                    rotation_input := i.(rotation_input); inventory_input := i.(inventory_input);
                    gm_input := i.(gm_input); mastery := i.(mastery); skill_add := Some v;
                    increase_stats := i.(increase_stats) |}
  | ("IncreaseStr"%string, _) =>
      with_input {| logout := i.(logout); target := i.(target); untarget := i.(untarget); chat := i.(chat);
                    action_input := i.(action_input); movement_input := i.(movement_input);
                    rotation_input := i.(rotation_input); inventory_input := i.(inventory_input);
                    gm_input := i.(gm_input); mastery := i.(mastery); skill_add := i.(skill_add);
                    increase_stats := i.(increase_stats) ++ [STR] |}
  | ("IncreaseInt"%string, _) =>
      with_input {| logout := i.(logout); target := i.(target); untarget := i.(untarget); chat := i.(chat);
                    action_input := i.(action_input); movement_input := i.(movement_input);
                    rotation_input := i.(rotation_input); inventory_input := i.(inventory_input);
                    gm_input := i.(gm_input); mastery := i.(mastery); skill_add := i.(skill_add);
                    increase_stats := i.(increase_stats) ++ [INT] |}
  | _ => e
  end.

(** [as_secs] of a duration in nanoseconds, which saturates at zero. *)
Definition as_secs (nanos : Z) : Z := Z.max 0 nanos / 1000000000.

(** The packets of a tick, in order, and whether the stream has ended after
    them: the effects, the time of the last action, and how often the client is
    announced to be disconnected. *)
Definition receive_game_inputs (client_timeout now : Z) (packets : list packet) (closed : bool) (last_action : Z)
    (i : PlayerInput) : GameEffect * Z * nat :=
  let e := fold_left (fun e p => game_packet p e) packets
             {| game_input := i; game_answers := []; loading_finished := 0; mall_requests := 0 |} in
  let last_action := match packets with [] => last_action | _ => now end in
  (e, last_action,
   ((if closed then 1 else 0) + (if (client_timeout <? as_secs (now - last_action))%Z then 1 else 0))%nat).

(** The request of a packet of a session that is not playing. *)
Definition list_action (v : val) : option CharacterListRequestAction :=
  match v with
  | VEnum "Create" [VStr n; VNum ref_id; VNum scale; VNum chest; VNum pants; VNum boots; VNum weapon] =>
      Some (Create n ref_id scale chest pants boots weapon)
  | VEnum "List" [] => Some ListCharacters
  | VEnum "Delete" [VStr n] => Some (Delete n)
  | VEnum "CheckName" [VStr n] => Some (CheckName n)
  | VEnum "Restore" [VStr n] => Some (RestoreCharacter n)
  | VEnum "ShowJobSpread" [] => Some ShowJobSpread
  | VEnum "AssignJob" [VNum job] => Some (AssignJob job)
  | _ => None
  end%string.

Definition send_identity_information : packet :=
  ("IdentityInformation"%string, IdentityInformation_new (VStr (chars "AgentServer")) (VNum 0)).

(** [writable]: the writer of the stream still runs; the answer to an identity
    is unwrapped. *)
Definition login_packet_input (writable : bool) (p : packet) (i : LoginInput) : outcome unit (sent * LoginInput) :=
  match p with
  | ("CharacterListRequest"%string, VStruct [action]) =>
      Ok ([], {| list_requests := i.(list_requests) ++ option_list (list_action action); join := i.(join); auth := i.(auth) |})
  | ("CharacterJoinRequest"%string, VStruct [VStr n]) =>
      Ok ([], {| list_requests := i.(list_requests); join := Some n; auth := i.(auth) |})
  | ("AuthRequest"%string, VStruct (VNum token :: _)) =>
      Ok ([], {| list_requests := i.(list_requests); join := i.(join); auth := Some token |})
  | ("IdentityInformation"%string, _) => if writable then Ok ([send_identity_information], i) else Panic
  | _ => Ok ([], i)
  end.

Fixpoint login_packets (writable : bool) (ps : list packet) (i : LoginInput) : outcome unit (sent * LoginInput) :=
  match ps with
  | [] => Ok ([], i)
  | p :: ps =>
      first ← login_packet_input writable p i;
      rest ← login_packets writable ps first.2;
      Ok (first.1 ++ rest.1, rest.2)
  end.

Definition receive_login_inputs (client_timeout now : Z) (writable : bool) (packets : list packet) (closed : bool)
    (last_action : Z) (i : LoginInput) : outcome unit (sent * LoginInput * Z * nat) :=
  r ← login_packets writable packets i;
  let last_action := match packets with [] => last_action | _ => now end in
  Ok (r.1, r.2, last_action,
      ((if closed then 1 else 0) + (if (client_timeout <? as_secs (now - last_action))%Z then 1 else 0))%nat).

(** ** net/net.rs *)

(** A client that was accepted, and the character whose time is recorded when a
    client leaves. *)
Definition accept (now : Z) : Z * LoginInput := (now, login_input_default).
Definition disconnected (player : option Character) : option Z := char_id <$> player.

(** [update_last_played_of] *)
Definition update_last_played_of (id now : Z) (d : Database) : Database :=
  (update_where (fun c => c.(data_id) =? i32 id) (fun c =>
    {| data_id := c.(data_id); user_id := c.(user_id); server_id := c.(server_id); charname := c.(charname);
       db_race := c.(db_race); character_type := c.(character_type); db_scale := c.(db_scale);
       db_level := c.(db_level); db_max_level := c.(db_max_level); db_exp := c.(db_exp); db_sp := c.(db_sp);
       db_sp_exp := c.(db_sp_exp); strength := c.(strength); intelligence := c.(intelligence);
       db_stat_points := c.(db_stat_points); db_current_hp := c.(db_current_hp);
       db_current_mp := c.(db_current_mp); deletion_end := c.(deletion_end); pos_x := c.(pos_x);
       pos_y := c.(pos_y); pos_z := c.(pos_z); db_rotation := c.(db_rotation); db_region := c.(db_region);
       db_berserk_points := c.(db_berserk_points); db_gold := c.(db_gold);
       db_beginner_mark := c.(db_beginner_mark); db_gm := c.(db_gm); last_logout := Some now |}) d).2.

(** ** comp/player.rs *)

Record Player := { player_user : ServerUser; player_character : Character }.

Definition from_db_data (u : ServerUser) (c : CharacterData) : Player :=
  {| player_user := u; player_character := from_db_character c |}.

(** The components of a player, [Buffed] and the markers apart. *)
Record PlayerBundle := {
  b_player : Player;
  b_inventory : Inventory;
  b_gold : GoldPouch;
  b_game_entity : GameEntity;
  b_agent : Agent;
  b_pos : Position;
  b_visibility : Visibility;
  b_input : PlayerInput;
  b_speed : MovementSpeed;
  b_damage_receiver : DamageReceiver;
  b_health : Health;
  b_mana : Mana;
  b_level : Leveled;
  b_sp : SP;
  b_exp : Experienced;
  b_mind : Mind;
  b_stat_points : StatPoints;
  b_masteries : MasteryKnowledge;
  b_skills : SkillBook;
  b_race : Race;
}.

Section Join.

(** The data of the game: items by identifier, characters, skills; [powi]. *)
Context (find_item : Z -> option GameData.RefItemData) (character_map : list RefCharacterData).
Context (skill_map : list RefSkillData) (powi : f32 -> Z -> f32).

Definition player_bundle_new (player : Player) (game_entity : GameEntity) (inventory : Inventory) (gold : GoldPouch)
    (agent : Agent) (pos : Position) (visibility : Visibility) : PlayerBundle :=
  let c := player.(player_character) in
  let stat_points := stat_points_new c.(Characters.stats) c.(Characters.stat_points) in
  {| b_player := player; b_inventory := inventory; b_gold := gold; b_game_entity := game_entity; b_agent := agent;
     b_pos := pos; b_visibility := visibility; b_input := player_input_default; b_speed := Running;
     b_damage_receiver := damage_receiver_default;
     b_health := health_new (max_health_of powi stat_points.(Progress.stats) c.(Characters.level));
     b_mana := mana_with_max (max_mana_of powi stat_points.(Progress.stats) c.(Characters.level));
     b_level := leveled_new c.(Characters.level) c.(Characters.max_level); b_sp := MkSP c.(Characters.sp);
     b_exp := experienced_new c.(Characters.exp) c.(Characters.sp_exp); b_mind := mind_default;
     b_stat_points := stat_points; b_masteries := mastery_knowledge_new c.(Characters.masteries);
     b_skills := skill_book_new c.(Characters.skills); b_race := c.(Characters.race) |}.

(** ** login/charselect.rs: joining the game *)

Definition with_knowledge (masteries skills : list (Z * Z)) (c : Character) : Character :=
  {| char_id := c.(char_id); name := c.(name); Characters.race := c.(Characters.race); scale := c.(scale);
     Characters.level := c.(Characters.level); Characters.max_level := c.(Characters.max_level);
     Characters.exp := c.(Characters.exp); Characters.sp := c.(Characters.sp); Characters.sp_exp := c.(Characters.sp_exp);
     Characters.stats := c.(Characters.stats); Characters.stat_points := c.(Characters.stat_points);
     current_hp := c.(current_hp); current_mp := c.(current_mp); berserk_points := c.(berserk_points);
     Characters.gold := c.(Characters.gold); beginner_mark := c.(beginner_mark); gm := c.(gm);
     state := c.(state); Characters.masteries := masteries; Characters.skills := skills |}.

(** The content of an item; others than these panic. *)
Definition item_content (i : Item) : outcome unit val :=
  match i.(type_data) with
  | Equipment upgrade_level => Ok (equipment_content upgrade_level (default 0 i.(variance)))
  | Consumable amount => Ok (InventoryItemContentData_expendable (VNum amount))
  | COS | Gold _ => Panic
  end.

Fixpoint inventory_items (l : list (Z * Item)) : outcome unit (list val) :=
  match l with
  | [] => Ok []
  | (slot, i) :: l =>
      content ← item_content i;
      rest ← inventory_items l;
      Ok (InventoryItemData_new (VNum slot) (VEnum "Empty" []) (VNum (GameData.ref_id i.(reference))) content :: rest)
  end.

(** The skills of the groups that are known, up to the known level. *)
Definition known_skills (skills : list (Z * Z)) : list Z :=
  flat_map (fun '(group, level) =>
    map skill_ref_id (List.filter (fun s => (SkillData.group s =? group) && (s.(skill_level) <=? level)) skill_map)) skills.

(** The current time, the end of the service, and the order of the items. *)
Context (current_time service_end : datetime) (item_order : gmap Z Item -> list (Z * Item)).

Definition spawning_state : val :=
  VStruct [VEnum "Spawning" []; VNum 0; VEnum "None" []; VEnum "None" []; VNum 0;
           f32_val (f32_of_Z 16); f32_val (f32_of_Z 50); f32_val (f32_of_Z 100); VSeq []].

Definition send_spawn (entity : GameEntity) (player : Player) (inventory : Inventory) (position : Position) (max_level : Z)
    : outcome unit sent :=
  let c := player.(player_character) in
  items ← inventory_items (item_order inventory.(items));
  Ok [ ("CharacterSpawnStart"%string, VStruct []);
       ("CharacterSpawn"%string,
        CharacterSpawn_new (VTime current_time) (VNum entity.(ref_id)) (VNum c.(scale)) (VNum c.(Characters.level))
          (VNum c.(Characters.max_level)) (VNum c.(Characters.exp)) (VNum c.(Characters.sp_exp))
          (VNum c.(Characters.gold)) (VNum c.(Characters.sp)) (VNum c.(Characters.stat_points))
          (VNum c.(berserk_points)) (VNum c.(current_hp)) (VNum c.(current_mp)) (VBool c.(beginner_mark))
          (VNum 0) (VNum 0) (VNum 0) (VNum 0) (VNum 0) (VNum 4) (VTime service_end) (VNum 0) (VNum max_level)
          (VNum (u8 inventory.(Inventory.size))) (VSeq items) (VNum 5) (VSeq [])
          (VSeq (map (fun '(id, level) => VStruct [VNum id; VNum level]) c.(Characters.masteries)))
          (VSeq (map (fun id => VStruct [VNum id; VBool true]) (known_skills c.(Characters.skills))))
          (VSeq []) (VSeq []) (VNum entity.(unique_id)) (as_protocol position) (VNum 0)
          (VNum (heading_into_u16 position.(rotation))) spawning_state (VStr c.(name)) (VStr []) (VEnum "None" [])
          (VNum 1) (VNum 0) (VNum 0) (VNum 0) (VNum 0) (VBool false) (VNum 0) (VNum 255)
          (VNum (u32 player.(player_user).(Population.id))) (VBool c.(gm)) (VSeq []) (VNum 0) (VNum 1) (VNum 1) (VNum 2)
          (VSeq []));
       ("CharacterSpawnEnd"%string, VStruct []) ].

Definition join_error (e : string) : packet := ("CharacterJoinResponse"%string, CharacterJoinResponse_error (VEnum e [])).
Definition join_success : packet := ("CharacterJoinResponse"%string, CharacterJoinResponse_success).
Definition macro_status : packet := ("MacroStatus"%string, VEnum "Possible" [VNum 7; VNum 0]).

(** Where a character is. *)
Definition stored_position (data : CharacterData) : Position :=
  position_new
    (to_global {| lp_region := u16 data.(db_region);
                  lp_vec := {| x3 := data.(pos_x); y3 := data.(pos_y); z3 := data.(pos_z) |} |})
    (heading_of_u16 (u16 data.(db_rotation))).

(** The player of a stored character. *)
Definition stored_player (user : ServerUser) (c : DbCharacter) : Player :=
  let p := from_db_data user c.(character_data) in
  {| player_user := user;
     player_character := with_knowledge (map (fun '(id, level) => (u32 id, u8 level)) c.(db_masteries))
                           (map (fun '(group, level) => (u32 group, u8 level)) c.(db_skills)) p.(player_character) |}.

(** The pool of identifiers. *)
Context {Pool : Type} (request_id : Pool -> option (Z * Pool)).

(** [handle_join] for one session: the answers, the components of the player if
    it joins, and the pool. The character is unwrapped. *)
Definition handle_join (max_level : Z) (requested : option (list Z)) (known : option (list DbCharacter)) (user : ServerUser)
    (pool : Pool) : outcome unit (sent * option PlayerBundle * Pool) :=
  match requested with
  | None => Ok ([], None, pool)
  | Some character_name =>
      match known with
      | None => Ok ([join_error "ReachedCapacity"], None, pool)
      | Some characters =>
          match List.find (fun c => bool_decide (c.(character_data).(charname) = character_name)) characters with
          | None => Panic
          | Some c =>
              let data := c.(character_data) in
              match find_id character_map (u32 data.(character_type)) with
              | None => Ok ([join_error "FailedToJoinWorld"], None, pool)
              | Some ref_character =>
                  match data.(deletion_end) with
                  | Some _ => Ok ([join_error "InvalidName"], None, pool)
                  | None =>
                      match from_db_inventory find_item c.(db_items) 45 with
                      | Ok inventory =>
                          match request_id pool with
                          | None => Panic
                          | Some (id, pool) =>
                              let player := stored_player user c in
                              let position := stored_position data in
                              let game_entity := {| unique_id := id; ref_id := u32 data.(character_type) |} in
                              spawn ← send_spawn game_entity player inventory position max_level;
                              Ok (join_success :: spawn ++ [macro_status],
                                  Some (player_bundle_new player game_entity inventory
                                          (MkGoldPouch (u64 data.(db_gold))) (from_character_data ref_character) position
                                          (with_radius (f32_of_Z 500))), pool)
                          end
                      | _ => Panic
                      end
                  end
              end
          end
      end
  end.

(** ** game/daylight.rs *)

Definition f64 : Type := spec_float.
Definition f64_of_Z (z : Z) : f64 := binary_normalize 53 1024 z 0 false.
Definition fdiv64 (a b : f64) : f64 := SFdiv 53 1024 a b.
Definition fmul64 (a b : f64) : f64 := SFmul 53 1024 a b.
Definition fadd64 (a b : f64) : f64 := SFadd 53 1024 a b.

(** [Duration::from_secs_f64] of a positive number: the nearest number of
    nanoseconds, the even one of two. *)
Definition from_secs_f64 (secs : f64) : Z :=
  match secs with
  | S754_finite false m e =>
      let n := Z.pos m * 10 ^ 9 in
      if 0 <=? e then n * 2 ^ e
      else
        let d := 2 ^ (- e) in
        let q := n / d in
        let twice := 2 * (n mod d) in
        if (twice <? d) || ((twice =? d) && Z.even q) then q else q + 1
  | _ => 0
  end.

(** [MINUTES_IN_A_DAY] and [get_official_per_day_duration] *)
Definition MINUTES_IN_A_DAY : f64 := fmul64 (f64_of_Z 24) (f64_of_Z 60).
Definition get_official_per_day_duration : Z :=
  let ingame_seconds_per_second := fdiv64 (f64_of_Z 99) (f64_of_Z 2) in
  let required_real_seconds := fdiv64 (fmul64 MINUTES_IN_A_DAY (f64_of_Z 60)) ingame_seconds_per_second in
  from_secs_f64 required_real_seconds.

(** [as_secs_f64] *)
Definition as_secs_f64 (nanos : Z) : f64 :=
  fadd64 (f64_of_Z (nanos / 1000000000)) (fdiv64 (f64_of_Z (nanos mod 1000000000)) (f64_of_Z 1000000000)).

Record DaylightCycle := { moon : Z; full_day : Z; day_time : Z }.

(** [random_moon] is drawn. *)
Definition daylight_new (random_moon one_day : Z) : DaylightCycle :=
  {| moon := random_moon; full_day := one_day; day_time := 0 |}.

(** [DaylightCycle::official] *)
Definition official (random_moon : Z) : DaylightCycle := daylight_new random_moon get_official_per_day_duration.

Definition advance (amount : Z) (d : DaylightCycle) : DaylightCycle :=
  let t := d.(day_time) + amount in
  if d.(full_day) <=? t then {| moon := u16 (d.(moon) + 1); full_day := d.(full_day); day_time := t - d.(full_day) |}
  else {| moon := d.(moon); full_day := d.(full_day); day_time := t |}.

(** The hour and the minute. *)
Definition time_of_day (d : DaylightCycle) : Z * Z :=
  let time_progressed := fdiv64 (as_secs_f64 d.(day_time)) (as_secs_f64 d.(full_day)) in
  let ingame_progress := f32_as (U 16) (fmul64 time_progressed MINUTES_IN_A_DAY) in
  (u8 (ingame_progress / 60), u8 (ingame_progress mod 60)).

(** ** game/join.rs *)

Definition send_character_stats (p : StatPoints) (level : Z) : packet :=
  let hundred := VNum 100 in
  ("CharacterStatsMessage"%string,
   CharacterStatsMessage_new hundred hundred hundred hundred hundred hundred hundred hundred
     (VNum (max_health_of powi p.(Progress.stats) level)) (VNum (max_mana_of powi p.(Progress.stats) level))
     (VNum p.(Progress.stats).(str)) (VNum p.(Progress.stats).(int))).

Definition text_characters : list Z :=
  map (fun i => Z.shiftl i 56) (List.filter (fun i => (i <? 0x85) || (0x89 <=? i)) (seqZ 0x1d (0x8c - 0x1d))).
Definition send_text_initialization : packet :=
  ("TextCharacterInitialization"%string, TextCharacterInitialization_new (VSeq (map VNum text_characters))).

Definition with_state (s : SpawningState) (c : Character) : Character :=
  {| char_id := c.(char_id); name := c.(name); Characters.race := c.(Characters.race); scale := c.(scale);
     Characters.level := c.(Characters.level); Characters.max_level := c.(Characters.max_level);
     Characters.exp := c.(Characters.exp); Characters.sp := c.(Characters.sp); Characters.sp_exp := c.(Characters.sp_exp);
     Characters.stats := c.(Characters.stats); Characters.stat_points := c.(Characters.stat_points);
     current_hp := c.(current_hp); current_mp := c.(current_mp); berserk_points := c.(berserk_points);
     Characters.gold := c.(Characters.gold); beginner_mark := c.(beginner_mark); gm := c.(gm);
     state := s; Characters.masteries := c.(Characters.masteries); Characters.skills := c.(Characters.skills) |}.

(** One event of [load_finished]. *)
Definition load_finished (join_notice : option (list Z)) (day : DaylightCycle) (entity : GameEntity) (player : Player)
    (level : Leveled) (stat_points : StatPoints) : sent * Player :=
  let '(hour, minute) := time_of_day day in
  ([ send_character_stats stat_points level.(Progress.level);
     send_text_initialization;
     ("CelestialUpdate"%string,
      CelestialUpdate_new (VNum entity.(unique_id)) (VNum day.(moon)) (VNum hour) (VNum minute));
     ("CharacterFinished"%string, VStruct [VSeq []; VSeq []]);
     ("FriendListInfo"%string, VStruct [VSeq [FriendListGroup_not_assigned]; VSeq []]) ]
   ++ match join_notice with
      | Some notice => [("ChatUpdate"%string, ChatUpdate_new (VEnum "Notice" []) (VStr notice))]
      | None => []
      end,
   {| player_user := player.(player_user); player_character := with_state Finished player.(player_character) |}).

(** ** game/logout.rs *)

Section Logout.
Context `{Timers}.

(** The request to leave: its answer, and the timer inserted. *)
Definition handle_logout (logout_duration : Z) (request : option val) (timer : option Timer) : sent * option Timer :=
  match request with
  | Some (VStruct [mode]) =>
      ([("LogoutResponse"%string, LogoutResponse_new (LogoutResult_success (VNum logout_duration) mode))],
       Some (timer_once (from_secs logout_duration)))
  | _ => ([], timer)
  end.

(** The timer, and whether the client is announced to be disconnected. *)
Definition tick_logout (delta : Z) (timer : Timer) : sent * Timer * bool :=
  let timer := timer_tick delta timer in
  if just_finished timer then ([("LogoutFinished"%string, VStruct [])], timer, true) else ([], timer, false).
End Logout.

(** ** login/job_distribution.rs *)

Section Jobs.
(** A timer that repeats. *)
Context {Repeating : Type} (repeat_tick : Z -> Repeating -> Repeating) (repeat_finished : Repeating -> bool).

Record JobDistribution := {
  hunters : Z;
  thieves : Z;
  refresh_timer : Repeating;
  refresh_result : option nat;
}.

Definition with_refresh (t : Repeating) (r : option nat) (j : JobDistribution) : JobDistribution :=
  {| hunters := j.(hunters); thieves := j.(thieves); refresh_timer := t; refresh_result := r |}.

(** [update_job_distribution]: the task started under the next number, and what
    [try_recv] finds for the number of a task. *)
Definition update_job_distribution (delta : Z) (next : nat) (try_recv : nat -> Received (Z * Z)) (j : JobDistribution)
    : bool * JobDistribution :=
  let '(started, j) :=
    match j.(refresh_result) with
    | Some _ => (false, j)
    | None =>
        let t := repeat_tick delta j.(refresh_timer) in
        if repeat_finished t then (true, with_refresh t (Some next) j) else (false, with_refresh t None j)
    end in
  (started,
   match j.(refresh_result) with
   | None => j
   | Some id =>
       match try_recv id with
       | Value (hunter, thief) =>
           {| hunters := hunter; thieves := thief; refresh_timer := j.(refresh_timer); refresh_result := None |}
       | Empty => j
       | Closed => with_refresh j.(refresh_timer) None j
       end
   end).
End Jobs.
End Join.
