(* ===== verification/Persist.v ===== *)
(** silkroad-agent/src/persistence: how what players change reaches the
    database (mod.rs, apply.rs), with the changes of comp/gold.rs, mastery.rs,
    skill.rs and inventory.rs, and when it does in a tick.

    A statement is a function on the tables; a task is the list of statements
    it executes one after the other, and tasks run at the same time. *)
From stdpp Require Import base list option strings gmap.
From Stdlib Require Import ZArith Lia Floats.SpecFloat.
From S2P Require Import Skills.
From S2P Require Import Prelude Utf Text F32 Definitions TypeIdEnums TypeId GameData SkillData Serde Schema Packets.
From S2P Require Import Changes Inventory InventoryRows Population Progress Position Entities Visibility Characters Movement.
From S2P Require Import AgentStates Combat CharSelect Join.

(** ** The statements *)

(** [ApplyToDatabase]: whether a change of a character is accepted, and the
    tables after it. *)
Class ApplyToDatabase (C : Type) := apply : C -> Z -> Database -> bool * Database.

(** The row of a character is found by its identifier, bound as an [i32]. *)
Definition update_row (character_id : Z) (f : CharacterData -> CharacterData) (db : Database) : bool * Database :=
  (true, (update_where (fun r => r.(data_id) =? i32 character_id) f db).2).

Definition set_position (x y z : f32) (region rotation : Z) (r : CharacterData) : CharacterData :=
  {| data_id := r.(data_id); user_id := r.(user_id); server_id := r.(server_id); charname := r.(charname);
     db_race := r.(db_race); character_type := r.(character_type); db_scale := r.(db_scale);
     db_level := r.(db_level); db_max_level := r.(db_max_level); db_exp := r.(db_exp); db_sp := r.(db_sp);
     db_sp_exp := r.(db_sp_exp); strength := r.(strength); intelligence := r.(intelligence);
     db_stat_points := r.(db_stat_points); db_current_hp := r.(db_current_hp);
     db_current_mp := r.(db_current_mp); deletion_end := r.(deletion_end); pos_x := x; pos_y := y; pos_z := z;
     db_rotation := rotation; db_region := region; db_berserk_points := r.(db_berserk_points);
     db_gold := r.(db_gold); db_beginner_mark := r.(db_beginner_mark); db_gm := r.(db_gm);
     last_logout := r.(last_logout) |}.

Definition set_current_hp (v : Z) (r : CharacterData) : CharacterData :=
  {| data_id := r.(data_id); user_id := r.(user_id); server_id := r.(server_id); charname := r.(charname);
     db_race := r.(db_race); character_type := r.(character_type); db_scale := r.(db_scale);
     db_level := r.(db_level); db_max_level := r.(db_max_level); db_exp := r.(db_exp); db_sp := r.(db_sp);
     db_sp_exp := r.(db_sp_exp); strength := r.(strength); intelligence := r.(intelligence);
     db_stat_points := r.(db_stat_points); db_current_hp := v; db_current_mp := r.(db_current_mp);
     deletion_end := r.(deletion_end); pos_x := r.(pos_x); pos_y := r.(pos_y); pos_z := r.(pos_z);
     db_rotation := r.(db_rotation); db_region := r.(db_region); db_berserk_points := r.(db_berserk_points);
     db_gold := r.(db_gold); db_beginner_mark := r.(db_beginner_mark); db_gm := r.(db_gm);
     last_logout := r.(last_logout) |}.

Definition set_current_mp (v : Z) (r : CharacterData) : CharacterData :=
  {| data_id := r.(data_id); user_id := r.(user_id); server_id := r.(server_id); charname := r.(charname);
     db_race := r.(db_race); character_type := r.(character_type); db_scale := r.(db_scale);
     db_level := r.(db_level); db_max_level := r.(db_max_level); db_exp := r.(db_exp); db_sp := r.(db_sp);
     db_sp_exp := r.(db_sp_exp); strength := r.(strength); intelligence := r.(intelligence);
     db_stat_points := r.(db_stat_points); db_current_hp := r.(db_current_hp); db_current_mp := v;
     deletion_end := r.(deletion_end); pos_x := r.(pos_x); pos_y := r.(pos_y); pos_z := r.(pos_z);
     db_rotation := r.(db_rotation); db_region := r.(db_region); db_berserk_points := r.(db_berserk_points);
     db_gold := r.(db_gold); db_beginner_mark := r.(db_beginner_mark); db_gm := r.(db_gm);
     last_logout := r.(last_logout) |}.

Definition set_levels (level max_level : Z) (r : CharacterData) : CharacterData :=
  {| data_id := r.(data_id); user_id := r.(user_id); server_id := r.(server_id); charname := r.(charname);
     db_race := r.(db_race); character_type := r.(character_type); db_scale := r.(db_scale); db_level := level;
     db_max_level := max_level; db_exp := r.(db_exp); db_sp := r.(db_sp); db_sp_exp := r.(db_sp_exp);
     strength := r.(strength); intelligence := r.(intelligence); db_stat_points := r.(db_stat_points);
     db_current_hp := r.(db_current_hp); db_current_mp := r.(db_current_mp); deletion_end := r.(deletion_end);
     pos_x := r.(pos_x); pos_y := r.(pos_y); pos_z := r.(pos_z); db_rotation := r.(db_rotation);
     db_region := r.(db_region); db_berserk_points := r.(db_berserk_points); db_gold := r.(db_gold);
     db_beginner_mark := r.(db_beginner_mark); db_gm := r.(db_gm); last_logout := r.(last_logout) |}.

Definition set_stats (str int points : Z) (r : CharacterData) : CharacterData :=
  {| data_id := r.(data_id); user_id := r.(user_id); server_id := r.(server_id); charname := r.(charname);
     db_race := r.(db_race); character_type := r.(character_type); db_scale := r.(db_scale);
     db_level := r.(db_level); db_max_level := r.(db_max_level); db_exp := r.(db_exp); db_sp := r.(db_sp);
     db_sp_exp := r.(db_sp_exp); strength := str; intelligence := int; db_stat_points := points;
     db_current_hp := r.(db_current_hp); db_current_mp := r.(db_current_mp); deletion_end := r.(deletion_end);
     pos_x := r.(pos_x); pos_y := r.(pos_y); pos_z := r.(pos_z); db_rotation := r.(db_rotation);
     db_region := r.(db_region); db_berserk_points := r.(db_berserk_points); db_gold := r.(db_gold);
     db_beginner_mark := r.(db_beginner_mark); db_gm := r.(db_gm); last_logout := r.(last_logout) |}.

Definition set_experience (exp sp_exp : Z) (r : CharacterData) : CharacterData :=
  {| data_id := r.(data_id); user_id := r.(user_id); server_id := r.(server_id); charname := r.(charname);
     db_race := r.(db_race); character_type := r.(character_type); db_scale := r.(db_scale);
     db_level := r.(db_level); db_max_level := r.(db_max_level); db_exp := exp; db_sp := r.(db_sp);
     db_sp_exp := sp_exp; strength := r.(strength); intelligence := r.(intelligence);
     db_stat_points := r.(db_stat_points); db_current_hp := r.(db_current_hp);
     db_current_mp := r.(db_current_mp); deletion_end := r.(deletion_end); pos_x := r.(pos_x);
     pos_y := r.(pos_y); pos_z := r.(pos_z); db_rotation := r.(db_rotation); db_region := r.(db_region);
     db_berserk_points := r.(db_berserk_points); db_gold := r.(db_gold);
     db_beginner_mark := r.(db_beginner_mark); db_gm := r.(db_gm); last_logout := r.(last_logout) |}.

Definition set_sp (v : Z) (r : CharacterData) : CharacterData :=
  {| data_id := r.(data_id); user_id := r.(user_id); server_id := r.(server_id); charname := r.(charname);
     db_race := r.(db_race); character_type := r.(character_type); db_scale := r.(db_scale);
     db_level := r.(db_level); db_max_level := r.(db_max_level); db_exp := r.(db_exp); db_sp := v;
     db_sp_exp := r.(db_sp_exp); strength := r.(strength); intelligence := r.(intelligence);
     db_stat_points := r.(db_stat_points); db_current_hp := r.(db_current_hp);
     db_current_mp := r.(db_current_mp); deletion_end := r.(deletion_end); pos_x := r.(pos_x);
     pos_y := r.(pos_y); pos_z := r.(pos_z); db_rotation := r.(db_rotation); db_region := r.(db_region);
     db_berserk_points := r.(db_berserk_points); db_gold := r.(db_gold);
     db_beginner_mark := r.(db_beginner_mark); db_gm := r.(db_gm); last_logout := r.(last_logout) |}.

Definition set_gold (v : Z) (r : CharacterData) : CharacterData :=
  {| data_id := r.(data_id); user_id := r.(user_id); server_id := r.(server_id); charname := r.(charname);
     db_race := r.(db_race); character_type := r.(character_type); db_scale := r.(db_scale);
     db_level := r.(db_level); db_max_level := r.(db_max_level); db_exp := r.(db_exp); db_sp := r.(db_sp);
     db_sp_exp := r.(db_sp_exp); strength := r.(strength); intelligence := r.(intelligence);
     db_stat_points := r.(db_stat_points); db_current_hp := r.(db_current_hp);
     db_current_mp := r.(db_current_mp); deletion_end := r.(deletion_end); pos_x := r.(pos_x);
     pos_y := r.(pos_y); pos_z := r.(pos_z); db_rotation := r.(db_rotation); db_region := r.(db_region);
     db_berserk_points := r.(db_berserk_points); db_gold := v; db_beginner_mark := r.(db_beginner_mark);
     db_gm := r.(db_gm); last_logout := r.(last_logout) |}.

(** ** The changes of the components *)

(** [PositionChange], [HealthChange], [ManaChange], [LevelChange],
    [StatsChange], [ExperienceChange], [SpChange], [GoldChange],
    [MasteryChange]. *)
Inductive ComponentChange :=
| PositionChange (position : GlobalPosition) (heading : Heading)
| HealthChange (current : Z)
| ManaChange (current : Z)
| LevelChange (level max_level : Z)
| StatsChange (stats : Stats) (points : Z)
| ExperienceChange (exp sp_exp : Z)
| SpChange (sp : Z)
| GoldChange (gold : Z)
| MasteryChange (masteries : list (Z * Z)).

(** A value bound for a column of type [integer]. *)
Definition int4 (v : Z) : bool := (- 2 ^ 31 <=? v) && (v <? 2 ^ 31).

(** [INSERT ... ON CONFLICT DO UPDATE SET level = EXCLUDED.level] into a table
    of levels by character and key. *)
Fixpoint upsert (character_id key level : Z) (rows : list (Z * (Z * Z))) : list (Z * (Z * Z)) :=
  match rows with
  | [] => [(character_id, (key, level))]
  | (i, (k, l)) :: rows =>
      if (i =? character_id) && (k =? key) then (i, (k, level)) :: rows
      else (i, (k, l)) :: upsert character_id key level rows
  end.

(** The foreign key of the tables of a character. *)
Definition has_character (id : Z) (db : Database) : bool := existsb (fun r => r.(data_id) =? id) db.(characters).

Definition with_masteries (rows : list (Z * (Z * Z))) (db : Database) : Database :=
  {| characters := db.(characters); character_items := db.(character_items); character_masteries := rows;
     character_skills := db.(character_skills); next_id := db.(next_id) |}.
Definition with_skills (rows : list (Z * (Z * Z))) (db : Database) : Database :=
  {| characters := db.(characters); character_items := db.(character_items);
     character_masteries := db.(character_masteries); character_skills := rows; next_id := db.(next_id) |}.
Definition with_items (rows : list (Z * ItemRow)) (db : Database) : Database :=
  {| characters := db.(characters); character_items := rows;
     character_masteries := db.(character_masteries); character_skills := db.(character_skills);
     next_id := db.(next_id) |}.

(** The effect on the row of a character. *)
Definition row_effect (c : ComponentChange) (r : CharacterData) : CharacterData :=
  match c with
  | PositionChange position heading =>
      let l := to_local position in
      set_position l.(lp_vec).(x3) l.(lp_vec).(y3) l.(lp_vec).(z3) (i16 l.(lp_region)) (i16 (heading_into_u16 heading)) r
  | HealthChange current => set_current_hp (i32 current) r
  | ManaChange current => set_current_mp (i32 current) r
  | LevelChange level max_level => set_levels (i16 level) (i16 max_level) r
  | StatsChange s points => set_stats (i16 s.(str)) (i16 s.(int)) (i16 points) r
  | ExperienceChange exp sp_exp => set_experience (i64 exp) (i64 sp_exp) r
  | SpChange sp => set_sp (i32 sp) r
  | GoldChange gold => set_gold (i32 gold) r
  | MasteryChange _ => r
  end.

(** [sp_exp] is bound as an [i64] and the column is an [integer]: the database
    refuses a value out of its range. *)
Definition accepted (c : ComponentChange) : bool :=
  match c with ExperienceChange _ sp_exp => int4 (i64 sp_exp) | _ => true end.

#[export] Instance apply_component : ApplyToDatabase ComponentChange := fun c character_id db =>
  match c with
  | MasteryChange [] => (true, db)
  | MasteryChange masteries =>
      if has_character (i32 character_id) db then
        (true, with_masteries
                 (fold_left (fun rows '(key, level) => upsert (i32 character_id) (i32 key) (i16 level) rows) masteries
                    db.(character_masteries)) db)
      else (false, db)
  | _ => if accepted c then update_row character_id (row_effect c) db else (false, db)
  end.

(** ** The changes of the items and skills *)

#[export] Instance apply_skill : ApplyToDatabase Skills.LearnedSkill := fun c character_id db =>
  let '(MkLearnedSkill group level) := c in
  if has_character (i32 character_id) db then
    (true, with_skills (upsert (i32 character_id) (i32 group) (i16 level) db.(character_skills)) db)
  else (false, db).

(** The rows of a character by slot, and rows in their place. *)
Definition items_of (id : Z) (db : Database) : gmap Z CharacterItem := list_to_map (rows_for id db.(character_items)).
Definition put_items (id : Z) (t : gmap Z CharacterItem) (db : Database) : Database :=
  with_items (List.filter (fun r => negb (r.1 =? id)) db.(character_items) ++ map (fun r => (id, r)) (map_to_list t)) db.

#[export] Instance apply_item : ApplyToDatabase InventoryChange := fun c character_id db =>
  let id := i32 character_id in
  if match c with AddItem _ _ => negb (has_character id db) | _ => false end then (false, db)
  else
    let '(ok, t) := apply_to_rows c (items_of id db) in
    (ok, put_items id t db).

(** Any change. *)
Inductive AnyChange :=
| Component (c : ComponentChange)
| ItemChange (c : InventoryChange)
| SkillChange (c : Skills.LearnedSkill).

#[export] Instance apply_any : ApplyToDatabase AnyChange := fun c =>
  match c with Component c => apply c | ItemChange c => apply c | SkillChange c => apply c end.

(** The statements of one character, in the order they are executed; an error
    is logged. *)
Definition execute_all (character_id : Z) (cs : list AnyChange) (db : Database) : Database :=
  fold_left (fun db c => (apply c character_id db).2) cs db.

(** ** [ChangeProvided] *)

Section Provided.
(** The order in which a map of masteries is iterated. *)
Context (mastery_order : gmap Z Z -> list (Z * Z)).

Definition position_change (p : Position) : ComponentChange := PositionChange p.(location) p.(rotation).
Definition stats_change (p : StatPoints) : ComponentChange := StatsChange p.(Progress.stats) p.(remaining_points).
Definition health_change (h : Health) : ComponentChange := HealthChange h.(current_health).
Definition mana_change_of (m : Mana) : ComponentChange := ManaChange m.(current_mana).
Definition level_change (l : Leveled) : ComponentChange := LevelChange l.(Progress.level) l.(Progress.max_level).
Definition experience_change (x : Experienced) : ComponentChange := ExperienceChange x.(experience) x.(Progress.sp_exp).
Definition sp_change (s : SP) : ComponentChange := SpChange s.(Progress.sp).
Definition gold_change (g : GoldPouch) : ComponentChange := GoldChange g.(Progress.gold).
Definition mastery_change (k : MasteryKnowledge) : ComponentChange := MasteryChange (mastery_order k.(Progress.masteries)).

(** The components tracked by their value, in the order of game/mod.rs. *)
Definition component_changes (b : PlayerBundle) : list ComponentChange :=
  [ position_change b.(b_pos); stats_change b.(b_stat_points); health_change b.(b_health); mana_change_of b.(b_mana);
    level_change b.(b_level); experience_change b.(b_exp); sp_change b.(b_sp); gold_change b.(b_gold);
    mastery_change b.(b_masteries) ].

(** ** The systems *)

(** A player with what was collected of its items and skills. *)
Record Persisted := {
  bundle : PlayerBundle;
  collected_items : option (list InventoryChange);
  collected_skills : option (list Skills.LearnedSkill);
}.

(** [add_change_tracker], where the component was added. *)
Definition add_change_tracker {C} (added : bool) (collected : option (list C)) : option (list C) :=
  if added then Some [] else collected.

Definition inventory_changes (i : Inventory) : list InventoryChange * Inventory :=
  (i.(changes), {| Inventory.size := i.(Inventory.size); items := i.(items); changes := [] |}).

(** [collect_changes] of a component with its collection. *)
Definition collect_changes {T C} (changes_of : T -> list C * T) (source : T) (collected : option (list C))
    : T * option (list C) :=
  match collected with
  | None => (source, None)
  | Some l => let '(cs, source) := changes_of source in (source, Some (l ++ cs))
  end.

Definition with_collected (inventory : Inventory) (skills : SkillBook) (b : PlayerBundle) : PlayerBundle :=
  {| b_player := b.(b_player); b_inventory := inventory; b_gold := b.(b_gold); b_game_entity := b.(b_game_entity);
     b_agent := b.(b_agent); b_pos := b.(b_pos); b_visibility := b.(b_visibility); b_input := b.(b_input);
     b_speed := b.(b_speed); b_damage_receiver := b.(b_damage_receiver); b_health := b.(b_health);
     b_mana := b.(b_mana); b_level := b.(b_level); b_sp := b.(b_sp); b_exp := b.(b_exp); b_mind := b.(b_mind);
     b_stat_points := b.(b_stat_points); b_masteries := b.(b_masteries); b_skills := skills; b_race := b.(b_race) |}.

Definition collect (p : Persisted) : Persisted :=
  let '(inventory, its) := collect_changes inventory_changes p.(bundle).(b_inventory) p.(collected_items) in
  let '(book, sks) := collect_changes skill_changes p.(bundle).(b_skills) p.(collected_skills) in
  {| bundle := with_collected inventory book p.(bundle); collected_items := its; collected_skills := sks |}.

(** [apply_changes], [apply_changes_exit]: the optimized changes, taken from
    the collection. *)
Definition taken {C} `{Changes.Change C} (collected : option (list C)) : list C * option (list C) :=
  match collected with None => ([], None) | Some l => (optimize l, Some []) end.

(** A task with the statements it executes in order; the statements of
    [apply_changes] are joined, each is a task here. *)
Definition Task : Type := list AnyChange.

(** [apply_changes_exit] after the client of the player is announced to be
    disconnected [events] times. *)
Fixpoint apply_changes_exit (events : nat) (p : Persisted) : list Task * Persisted :=
  match events with
  | O => ([], p)
  | S events =>
      let '(its, left_items) := taken p.(collected_items) in
      let '(sks, left_skills) := taken p.(collected_skills) in
      let '(tasks, p) :=
        apply_changes_exit events
          {| bundle := p.(bundle); collected_items := left_items; collected_skills := left_skills |} in
      (map ItemChange its :: map SkillChange sks :: tasks, p)
  end.

Definition apply_changes (p : Persisted) : list Task * Persisted :=
  let '(its, left_items) := taken p.(collected_items) in
  let '(sks, left_skills) := taken p.(collected_skills) in
  (map (fun c => [ItemChange c]) its ++ map (fun c => [SkillChange c]) sks,
   {| bundle := p.(bundle); collected_items := left_items; collected_skills := left_skills |}).

(** The tasks of [apply_changes_combined] for an event, which are the ones of
    [apply_changes_periodically]. *)
Definition component_tasks (p : Persisted) : list Task := map (fun c => [Component c]) (component_changes p.(bundle)).

Definition apply_changes_combined (events : nat) (p : Persisted) : list Task := concat (repeat (component_tasks p) events).
Definition apply_changes_periodically (p : Persisted) : list Task := component_tasks p.

(** What is done for one player after the updates of a tick: [due], the timers
    of the two periodic systems; the exit is handled first here. *)
Definition persist (events : nat) (changes_due components_due : bool) (p : Persisted) : list Task * Persisted :=
  let p := collect p in
  let combined := apply_changes_combined events p in
  let periodic := if components_due then apply_changes_periodically p else [] in
  let '(exit, p) := apply_changes_exit events p in
  let '(changed, p) := if changes_due then apply_changes p else ([], p) in
  (exit ++ combined ++ changed ++ periodic, p).

(** ** A tick of one session *)

(** The player, and how often its client was announced to be disconnected
    since [disconnected] last ran. *)
Record Session := { played : option Persisted; announced : nat }.

(** First: the inputs, with [gone] announcements (the stream has ended, nothing
    was heard for the timeout). PreUpdate: [disconnected]. Update: [update],
    and whether the logout ends. PostUpdate: the persistence. The result is the
    tasks that are spawned, the character whose time is recorded, and the
    session. *)
Definition session_tick (gone : nat) (update : PlayerBundle -> PlayerBundle) (logout_ends changes_due components_due : bool)
    (s : Session) : list Task * option Z * Session :=
  match s.(played) with
  | None => ([], None, {| played := None; announced := 0 |})
  | Some p =>
      if (0 <? s.(announced) + gone)%nat then
        ([], disconnected (Some p.(bundle).(b_player).(player_character)), {| played := None; announced := 0 |})
      else
        let p := {| bundle := update p.(bundle); collected_items := p.(collected_items);
                    collected_skills := p.(collected_skills) |} in
        let events := if logout_ends then 1%nat else 0%nat in
        let '(tasks, p) := persist events changes_due components_due p in
        (tasks, None, {| played := Some p; announced := events |})
  end.

End Provided.
