(* ===== verification/PersistSpec.v ===== *)
(** Persistence: the tasks of a player do not depend on the order in which the
    database serves them, a player who logs out and joins again is the one that
    was saved, and what a broken connection loses. *)
From stdpp Require Import base list option strings gmap.
From Stdlib Require Import ZArith Lia Floats.SpecFloat.
From S2P Require Import Skills.
From S2P Require Import Prelude Utf Text F32 Definitions TypeIdEnums TypeId GameData SkillData Serde Schema Packets.
From S2P Require Import Changes Inventory InventoryFacts InventorySpec InventoryRows Population Progress Position Entities Visibility Characters Movement.
From S2P Require Import PositionSpec AgentStates Combat CharSelect CharSelectSpec Join Persist.

#[local] Arguments rows_for : simpl never.
#[local] Arguments swrap : simpl never.
#[local] Arguments wrap : simpl never.

(** ** Interleavings *)

Section Interleaving.
Context {S A : Type} (step : A -> S -> S).

(** The tasks run at the same time: the next statement is the first one of any
    of them. *)
Inductive interleaved : list (list A) -> list A -> Prop :=
| interleaved_done ts : Forall (fun t => t = []) ts -> interleaved ts []
| interleaved_step ts us a t l :
    interleaved (ts ++ t :: us) l -> interleaved (ts ++ (a :: t) :: us) (a :: l).

Definition run (l : list A) (s : S) : S := fold_left (fun s a => step a s) l s.

Lemma run_app a b s : run (a ++ b) s = run b (run a s).
Proof. apply fold_left_app. Qed.

Definition commute (a b : A) : Prop := forall s, step a (step b s) = step b (step a s).

(** Statements of different tasks commute. *)
Definition independent (ts : list (list A)) : Prop :=
  forall i j t u a b, i <> j -> ts !! i = Some t -> ts !! j = Some u -> a ∈ t -> b ∈ u -> commute a b.

Lemma run_past a l s : (forall b, b ∈ l -> commute a b) -> run (a :: l) s = run (l ++ [a]) s.
Proof.
  revert s; induction l as [|b l IH]; intros s H; [reflexivity|]. cbn [run fold_left app].
  rewrite <- (H b) by left. apply (IH (step b s)). intros c Hc. apply H. right. exact Hc.
Qed.

Lemma independent_rest ts us a t : independent (ts ++ (a :: t) :: us) -> independent (ts ++ t :: us).
Proof.
  intros H i j v w x y Hij Hi Hj Hx Hy.
  assert (Hin : forall k q z, (ts ++ t :: us) !! k = Some q -> z ∈ q ->
    exists q', (ts ++ (a :: t) :: us) !! k = Some q' /\ z ∈ q').
  { intros k q z Hk Hz. rewrite lookup_app in *. destruct (ts !! k); [eauto|].
    destruct (k - length ts)%nat; cbn in *; [|eauto]. injection Hk as <-. eexists; split; [reflexivity|]. right. exact Hz. }
  destruct (Hin _ _ _ Hi Hx) as (v' & Hi' & Hx'). destruct (Hin _ _ _ Hj Hy) as (w' & Hj' & Hy').
  exact (H i j v' w' x y Hij Hi' Hj' Hx' Hy').
Qed.

Lemma interleaving_irrelevant ts l s : interleaved ts l -> independent ts -> run l s = run (concat ts) s.
Proof.
  intros Hl. revert s. induction Hl as [ts Hts|ts us a t l Hl IH]; intros s Hi.
  - replace (concat ts) with (@nil A); [reflexivity|].
    induction Hts as [|t ts -> _ IH]; [reflexivity|]. apply IH. intros i j. intros t u a b Hij. exact (Hi (Datatypes.S i) (Datatypes.S j) t u a b ltac:(lia)).
  - rewrite concat_app. cbn [concat]. change ((a :: t) ++ concat us) with ([a] ++ t ++ concat us). rewrite app_assoc, run_app.
    rewrite <- (run_past a (concat ts) s).
    + change (run (a :: concat ts) s) with (run (concat ts) (step a s)). rewrite <- run_app.
      change (run (a :: l) s) with (run l (step a s)). rewrite IH by (eapply independent_rest; exact Hi).
      rewrite concat_app. reflexivity.
    + intros b Hb. apply list_elem_of_In, in_concat in Hb as (u & Hu & Hb). apply list_elem_of_In in Hu, Hb.
      apply list_elem_of_lookup in Hu as [j Hj]. pose proof (lookup_lt_Some _ _ _ Hj).
      eapply (Hi (length ts) j); [lia| | |left|exact Hb].
      * rewrite lookup_app_r, Nat.sub_diag by lia. reflexivity.
      * rewrite lookup_app_l by lia. exact Hj.
Qed.
End Interleaving.

(** ** Statements of different kinds commute *)

(** What a statement changes: the row of the character by its columns, its
    masteries, its items or its skills. *)
Inductive kind := KPosition | KHealth | KMana | KLevel | KStats | KExperience | KSp | KGold | KMastery | KItems | KSkills.
#[export] Instance kind_eqdec : EqDecision kind.
Proof. solve_decision. Defined.

Definition kind_of (c : AnyChange) : kind :=
  match c with
  | Component c =>
      match c with
      | PositionChange _ _ => KPosition | HealthChange _ => KHealth | ManaChange _ => KMana
      | LevelChange _ _ => KLevel | StatsChange _ _ => KStats | ExperienceChange _ _ => KExperience
      | SpChange _ => KSp | GoldChange _ => KGold | MasteryChange _ => KMastery
      end
  | ItemChange _ => KItems
  | SkillChange _ => KSkills
  end.

Definition statement (id : Z) (c : AnyChange) (db : Database) : Database := (apply c id db).2.

Lemma execute_all_run id cs db : execute_all id cs db = run (statement id) cs db.
Proof. reflexivity. Qed.

Definition map_characters (f : CharacterData -> CharacterData) (db : Database) : Database :=
  with_characters (map f db.(characters)) db.

(** On the row of the character. *)
Definition on_row (id : Z) (f : CharacterData -> CharacterData) (r : CharacterData) : CharacterData :=
  if r.(data_id) =? i32 id then f r else r.

Definition effect_of (c : ComponentChange) (r : CharacterData) : CharacterData :=
  if accepted c then row_effect c r else r.

Lemma effect_data_id c r : data_id (effect_of c r) = data_id r.
Proof. unfold effect_of. destruct (accepted c); [|reflexivity]. destruct c; reflexivity. Qed.

Lemma on_row_data_id id c r : data_id (on_row id (effect_of c) r) = data_id r.
Proof. unfold on_row. destruct (_ =? _); [apply effect_data_id|reflexivity]. Qed.

Lemma map_characters_id f db : (forall r, f r = r) -> map_characters f db = db.
Proof.
  intros H. destruct db as [cs ? ? ? ?]. unfold map_characters, with_characters. cbn. f_equal.
  induction cs as [|c cs IH]; [reflexivity|]. cbn. rewrite H, IH. reflexivity.
Qed.

Lemma statement_row id c db : kind_of (Component c) <> KMastery ->
  statement id (Component c) db = map_characters (on_row id (effect_of c)) db.
Proof.
  intros Hk. unfold statement, apply, apply_any, apply, apply_component, effect_of.
  destruct c; try (exfalso; apply Hk; reflexivity); try reflexivity. cbn [accepted].
  unfold update_row, update_where, map_characters. cbn [snd].
  destruct (int4 _); [reflexivity|]. symmetry. apply map_characters_id. intros r. unfold on_row. destruct (_ =? _); reflexivity.
Qed.

Lemma has_character_map id f db : (forall r, data_id (f r) = data_id r) ->
  has_character id (map_characters f db) = has_character id db.
Proof.
  intros H. unfold has_character, map_characters. cbn. induction db.(characters) as [|r l IH]; [reflexivity|].
  cbn. rewrite H, IH. reflexivity.
Qed.

Lemma map_characters_map f g db : map_characters f (map_characters g db) = map_characters (fun r => f (g r)) db.
Proof. unfold map_characters, with_characters. cbn. rewrite map_map. reflexivity. Qed.

Lemma effects_commute c d r : kind_of (Component c) <> kind_of (Component d) ->
  effect_of c (effect_of d r) = effect_of d (effect_of c r).
Proof.
  intros H. unfold effect_of.
  destruct c, d; try (contradiction H; reflexivity); cbn [accepted]; repeat destruct (int4 _); reflexivity.
Qed.

(** The other tables: the rows that take the place of theirs, given whether the
    character exists. *)
Definition mastery_rows (id : Z) (exists_ : bool) (ms : list (Z * Z)) (rows : list (Z * (Z * Z))) : list (Z * (Z * Z)) :=
  if exists_ then fold_left (fun rows '(key, level) => upsert (i32 id) (i32 key) (i16 level) rows) ms rows else rows.

Lemma statement_mastery id ms db :
  statement id (Component (MasteryChange ms)) db
  = with_masteries (mastery_rows id (has_character (i32 id) db) ms db.(character_masteries)) db.
Proof.
  unfold statement, apply, apply_any, apply, apply_component, mastery_rows. destruct ms as [|m ms].
  - destruct (has_character _ _), db; reflexivity.
  - destruct (has_character _ _); [reflexivity|]. destruct db; reflexivity.
Qed.

Definition skill_rows (id : Z) (exists_ : bool) (c : Skills.LearnedSkill) (rows : list (Z * (Z * Z))) : list (Z * (Z * Z)) :=
  let '(MkLearnedSkill group level) := c in
  if exists_ then upsert (i32 id) (i32 group) (i16 level) rows else rows.

Lemma statement_skill id c db :
  statement id (SkillChange c) db
  = with_skills (skill_rows id (has_character (i32 id) db) c db.(character_skills)) db.
Proof.
  unfold statement, apply, apply_any, apply, apply_skill, skill_rows. destruct c as [g l].
  destruct (has_character _ _); [reflexivity|]. destruct db; reflexivity.
Qed.

Definition item_rows (id : Z) (exists_ : bool) (c : InventoryChange) (rows : list (Z * ItemRow)) : list (Z * ItemRow) :=
  if match c with AddItem _ _ => negb exists_ | _ => false end then rows
  else List.filter (fun r => negb (r.1 =? i32 id)) rows
       ++ map (fun r => (i32 id, r)) (map_to_list (apply_to_rows c (list_to_map (rows_for (i32 id) rows))).2).

Lemma statement_item id c db :
  statement id (ItemChange c) db
  = with_items (item_rows id (has_character (i32 id) db) c db.(character_items)) db.
Proof.
  unfold statement, apply, apply_any, apply, apply_item, item_rows.
  destruct (match c with AddItem _ _ => _ | _ => _ end); [destruct db; reflexivity|].
  unfold put_items, items_of. destruct (apply_to_rows _ _). reflexivity.
Qed.

Lemma has_character_with id rows a b db :
  has_character id (with_masteries rows db) = has_character id db
  /\ has_character id (with_skills a db) = has_character id db
  /\ has_character id (with_items b db) = has_character id db.
Proof. repeat split. Qed.

Lemma component_kinds c : kind_of (Component c) = KMastery \/ kind_of (Component c) <> KMastery.
Proof. destruct c; cbn; auto; right; discriminate. Qed.

Lemma statements_commute id c d : kind_of c <> kind_of d -> commute (statement id) c d.
Proof.
  intros H db.
  assert (Hrow : forall c, kind_of (Component c) <> KMastery -> forall db, statement id (Component c) db
    = map_characters (on_row id (effect_of c)) db) by (intros; apply statement_row; assumption).
  assert (Hhas : forall c db, has_character (i32 id) (map_characters (on_row id (effect_of c)) db) = has_character (i32 id) db)
    by (intros; apply has_character_map; intros; apply on_row_data_id).
  destruct c as [c|c|c], d as [d|d|d]; try (contradiction H; reflexivity);
    repeat match goal with
    | c : ComponentChange |- _ =>
        lazymatch goal with
        | H : kind_of (Component c) = KMastery |- _ => fail
        | H : kind_of (Component c) <> KMastery |- _ => fail
        | _ => destruct (component_kinds c) as [?Hk|?Hk]; [destruct c; try discriminate|]
        end
    end; try (contradiction H; reflexivity);
    rewrite ?statement_mastery, ?statement_skill, ?statement_item, ?Hrow, ?statement_mastery, ?statement_skill,
      ?statement_item, ?Hrow, ?Hhas by assumption; try reflexivity.
  rewrite !map_characters_map. unfold map_characters. f_equal. apply map_ext. intros r. unfold on_row.
  destruct (data_id r =? i32 id) eqn:E; rewrite ?effect_data_id, ?E; [|reflexivity]. apply effects_commute, H.
Qed.

(** The tasks of a logout are independent: each has a kind of its own. *)
Lemma kinds_independent id ts ks :
  Forall2 (fun t k => Forall (fun c => kind_of c = k) t) ts ks -> NoDup ks -> independent (statement id) ts.
Proof.
  intros H Hk i j t u a b Hij Hi Hj Ha Hb. apply statements_commute.
  destruct (Forall2_lookup_l _ _ _ _ _ H Hi) as (ka & Ei & Fa). destruct (Forall2_lookup_l _ _ _ _ _ H Hj) as (kb & Ej & Fb).
  rewrite Forall_forall in Fa, Fb. rewrite (Fa a), (Fb b) by assumption. intros ->.
  apply Hij. exact (NoDup_lookup ks i j kb Hk Ei Ej).
Qed.

(** ** The tables after the tasks, one after the other *)

Section Tables.
Context (id : Z).

Lemma rows_for_filter_ne {A} k (rows : list (Z * A)) :
  rows_for k (List.filter (fun r => negb (r.1 =? id)) rows) = if k =? id then [] else rows_for k rows.
Proof.
  unfold rows_for. induction rows as [|r rows IH]; [destruct (k =? id); reflexivity|].
  cbn [List.filter]. destruct (Z.eqb_spec r.1 id) as [E|E]; cbn [negb List.filter].
  - rewrite IH. destruct (Z.eqb_spec k id) as [|Hk]; [reflexivity|].
    destruct (Z.eqb_spec r.1 k) as [<-|]; [contradiction|reflexivity].
  - destruct (Z.eqb_spec r.1 k) as [Ek|Ek]; cbn [map]; rewrite IH; destruct (Z.eqb_spec k id); congruence.
Qed.

(** The items of a character, executed one after the other. *)
Definition put_rows (t : gmap Z CharacterItem) (rows : list (Z * ItemRow)) : list (Z * ItemRow) :=
  List.filter (fun r => negb (r.1 =? id)) rows ++ map (fun r => (id, r)) (map_to_list t).

Lemma rows_for_put t k rows : rows_for k (put_rows t rows) = if k =? id then map_to_list t else rows_for k rows.
Proof.
  unfold put_rows. rewrite rows_for_app, rows_for_filter_ne. destruct (Z.eqb_spec k id) as [->|Hk].
  - apply rows_for_own.
  - rewrite rows_for_other by exact Hk. apply app_nil_r.
Qed.
End Tables.

Lemma slots_permuted (rows : list ItemRow) : NoDup rows.*1 -> Permutation rows (map_to_list (list_to_map rows : gmap Z CharacterItem)).
Proof. intros H. symmetry. apply map_to_list_to_map, H. Qed.

Lemma execute_items id cs : forall db,
  has_character (i32 id) db = true -> NoDup (rows_for (i32 id) db.(character_items)).*1 ->
  exists rows, execute_all id (map ItemChange cs) db = with_items rows db
    /\ Permutation (rows_for (i32 id) rows) (map_to_list (apply_each cs (items_of (i32 id) db)).2)
    /\ (forall k, k <> i32 id -> rows_for k rows = rows_for k db.(character_items)).
Proof.
  induction cs as [|c cs IH]; intros db Hh Hn.
  - exists db.(character_items). split; [destruct db; reflexivity|]. split; [apply slots_permuted, Hn|reflexivity].
  - cbn [map apply_each]. change (execute_all id (ItemChange c :: map ItemChange cs) db)
      with (execute_all id (map ItemChange cs) (statement id (ItemChange c) db)).
    rewrite statement_item, Hh.
    assert (Hi : item_rows id true c db.(character_items)
      = put_rows (i32 id) (apply_to_rows c (items_of (i32 id) db)).2 db.(character_items)) by (destruct c; reflexivity).
    rewrite Hi. clear Hi. destruct (apply_to_rows c (items_of (i32 id) db)) as [ok t] eqn:E. cbn [snd].
    set (db1 := with_items (put_rows (i32 id) t (character_items db)) db).
    assert (Hr : rows_for (i32 id) (character_items db1) = map_to_list t)
      by (subst db1; cbn; rewrite rows_for_put, Z.eqb_refl; reflexivity).
    destruct (IH db1 Hh) as (rows & H1 & H2 & H3); [rewrite Hr; apply NoDup_fst_map_to_list|].
    exists rows. split; [rewrite H1; reflexivity|]. split.
    + rewrite H2. unfold items_of. rewrite Hr, list_to_map_to_list. destruct (apply_each cs t). reflexivity.
    + intros k Hk. rewrite H3 by exact Hk. subst db1. cbn. rewrite rows_for_put.
      destruct (Z.eqb_spec k (i32 id)); [contradiction|reflexivity].
Qed.

(** Levels by key, as a character is loaded. *)
Definition levels (l : list (Z * Z)) : gmap Z Z := fold_left (fun m '(k, v) => <[k := v]> m) l ∅.
Definition loaded (id : Z) (rows : list (Z * (Z * Z))) : list (Z * Z) :=
  map (fun '(k, l) => (u32 k, u8 l)) (rows_for id rows).

(** One row per key, each in the range of its column. *)
Definition levels_wf (id : Z) (rows : list (Z * (Z * Z))) : Prop :=
  NoDup (rows_for id rows).*1 /\ Forall (fun r => sfits 32 r.1 = true) (rows_for id rows).

Lemma levels_app a b : levels (a ++ b) = fold_left (fun m '(k, v) => <[k := v]> m) b (levels a).
Proof. apply fold_left_app. Qed.

Lemma insert_all_lookup (l : list (Z * Z)) : forall (m : gmap Z Z) k, NoDup l.*1 ->
  fold_left (fun m '(k, v) => <[k := v]> m) l m !! k = match (list_to_map l : gmap Z Z) !! k with Some v => Some v | None => m !! k end.
Proof.
  induction l as [|[k' v] l IH]; intros m k Hn; [reflexivity|]. cbn in Hn. apply NoDup_cons in Hn as [Hnin Hn].
  cbn [fold_left list_to_map]. rewrite IH by exact Hn. destruct (decide (k = k')) as [->|Hk].
  - rewrite (not_elem_of_list_to_map_1 l k' Hnin). cbn. rewrite !lookup_insert_eq. reflexivity.
  - cbn. rewrite !lookup_insert_ne by congruence. reflexivity.
Qed.

Lemma levels_lookup l k : NoDup l.*1 -> levels l !! k = (list_to_map l : gmap Z Z) !! k.
Proof. intros Hn. unfold levels. rewrite insert_all_lookup by exact Hn. destruct (list_to_map l !! k); reflexivity. Qed.

Lemma rows_for_cons {A} id i (x : A) rows :
  rows_for id ((i, x) :: rows) = if i =? id then x :: rows_for id rows else rows_for id rows.
Proof. unfold rows_for. cbn. destruct (i =? id); reflexivity. Qed.

Lemma upsert_other id k l rows other : other <> id -> rows_for other (upsert id k l rows) = rows_for other rows.
Proof.
  intros Ho. induction rows as [|[i [k' l']] rows IH]; cbn [upsert].
  - rewrite rows_for_cons. destruct (Z.eqb_spec id other); [congruence|reflexivity].
  - destruct (Z.eqb_spec i id) as [->|Hi]; cbn [andb]; [destruct (k' =? k)|]; rewrite !rows_for_cons, ?IH; try reflexivity.
    destruct (Z.eqb_spec id other); [congruence|reflexivity].
Qed.

Fixpoint upsert_level (k l : Z) (rows : list (Z * Z)) : list (Z * Z) :=
  match rows with
  | [] => [(k, l)]
  | (k', l') :: rows => if k' =? k then (k', l) :: rows else (k', l') :: upsert_level k l rows
  end.

Lemma upsert_own id k l rows : rows_for id (upsert id k l rows) = upsert_level k l (rows_for id rows).
Proof.
  induction rows as [|[i [k' l']] rows IH]; cbn [upsert].
  - rewrite rows_for_cons, Z.eqb_refl. reflexivity.
  - destruct (Z.eqb_spec i id) as [->|Hi]; cbn [andb].
    + destruct (Z.eqb_spec k' k) as [->|Hk]; rewrite !rows_for_cons, Z.eqb_refl; cbn [upsert_level].
      * rewrite Z.eqb_refl. reflexivity.
      * rewrite IH. destruct (Z.eqb_spec k' k); [contradiction|reflexivity].
    + rewrite !rows_for_cons. destruct (Z.eqb_spec i id); [contradiction|exact IH].
Qed.

Lemma upsert_level_keys k l rows x : x ∈ (upsert_level k l rows).*1 <-> x = k \/ x ∈ rows.*1.
Proof.
  induction rows as [|[k' l'] rows IH]; cbn [upsert_level fmap list_fmap fst].
  - rewrite list_elem_of_singleton. split; [auto|]. intros [H|H]; [exact H|inversion H].
  - destruct (Z.eqb_spec k' k) as [->|Hk]; cbn [fmap list_fmap fst]; rewrite !elem_of_cons; [|unfold fmap in IH; rewrite IH]; tauto.
Qed.

Lemma upsert_levels_wf id k l rows : levels_wf id rows -> sfits 32 k = true -> levels_wf id (upsert id k l rows).
Proof.
  intros [Hn Hf] Hk. unfold levels_wf. rewrite upsert_own. induction (rows_for id rows) as [|[k' l'] rs IH]; cbn [upsert_level].
  - split; [apply NoDup_singleton|auto].
  - cbn in Hn. apply NoDup_cons in Hn as [Hnin Hn]. apply Forall_cons in Hf as [Hk' Hf]. destruct (IH Hn Hf) as [IH1 IH2].
    destruct (Z.eqb_spec k' k) as [->|Hne].
    + split; [cbn; apply NoDup_cons; auto|auto].
    + split; [|auto]. cbn. apply NoDup_cons. split; [|exact IH1]. intros [E|E]%upsert_level_keys; congruence.
Qed.

Lemma i32_fits k : sfits 32 (i32 k) = true.
Proof. apply sfits_spec. unfold swrap. pose proof (Z.mod_pos_bound (k + 2 ^ (32 - 1)) (2 ^ 32)). lia. Qed.
Lemma i32_u32 k : sfits 32 k = true -> i32 (u32 k) = k.
Proof. intros H. rewrite swrap_wrap by lia. apply swrap_small; [lia|exact H]. Qed.

(** What is loaded after a level was stored. *)
Lemma loaded_upsert id k l rows :
  levels_wf id rows -> fits 32 k = true -> fits 8 l = true ->
  levels (loaded id (upsert id (i32 k) (i16 l) rows)) = <[k := l]> (levels (loaded id rows)).
Proof.
  intros [Hn Hf] Hk Hl. unfold loaded. rewrite upsert_own. unfold levels. generalize (∅ : gmap Z Z).
  induction (rows_for id rows) as [|[k' l'] rs IH]; intros m; cbn [upsert_level map fold_left].
  - rewrite u32_i32, u8_i16 by assumption. reflexivity.
  - cbn in Hn. apply NoDup_cons in Hn as [Hnin Hn]. apply Forall_cons in Hf as [Hk' Hf]. cbn in Hk'.
    destruct (Z.eqb_spec k' (i32 k)) as [->|Hne]; cbn [map fold_left].
    + rewrite u32_i32, u8_i16 by assumption.
      assert (Hfresh : forall m : gmap Z Z, <[k := l]> (fold_left (fun m '(k, v) => <[k := v]> m) (map (fun '(k, l) => (u32 k, u8 l)) rs) m)
        = fold_left (fun m '(k, v) => <[k := v]> m) (map (fun '(k, l) => (u32 k, u8 l)) rs) (<[k := l]> m)).
      { clear IH m. induction rs as [|[k2 l2] rs IH2]; intros m; [reflexivity|]. cbn [map fold_left].
        cbn in Hnin. apply not_elem_of_cons in Hnin as [Hk2 Hnin]. cbn in Hn. apply NoDup_cons in Hn as [_ Hn].
        apply Forall_cons in Hf as [Hf2 Hf]. cbn in Hf2. rewrite (IH2 Hnin Hn Hf). f_equal. apply insert_insert_ne.
        intros ->. apply Hk2. apply i32_u32, Hf2. }
      rewrite Hfresh, insert_insert_eq. reflexivity.
    + apply IH; assumption.
Qed.

Lemma upserts_loaded id cs : forall rows,
  levels_wf id rows -> Forall (fun '(k, l) => fits 32 k = true /\ fits 8 l = true) cs ->
  let rows' := fold_left (fun rows '(k, l) => upsert id (i32 k) (i16 l) rows) cs rows in
  levels_wf id rows'
  /\ levels (loaded id rows') = fold_left (fun m '(k, l) => <[k := l]> m) cs (levels (loaded id rows))
  /\ (forall other, other <> id -> rows_for other rows' = rows_for other rows).
Proof.
  induction cs as [|[k l] cs IH]; intros rows Hw Hc; cbn [fold_left]; [auto|].
  apply Forall_cons in Hc as [[Hk Hl] Hc].
  destruct (IH (upsert id (i32 k) (i16 l) rows)) as (H1 & H2 & H3); [apply upsert_levels_wf; auto using i32_fits|exact Hc|].
  split; [exact H1|]. split; [rewrite H2, loaded_upsert by assumption; reflexivity|].
  intros other Ho. rewrite H3, upsert_other by exact Ho. reflexivity.
Qed.

Definition skill_pair (c : Skills.LearnedSkill) : Z * Z := let '(MkLearnedSkill g l) := c in (g, l).

Lemma execute_skills id cs : forall db, has_character (i32 id) db = true ->
  execute_all id (map SkillChange cs) db
  = with_skills (fold_left (fun rows '(k, l) => upsert (i32 id) (i32 k) (i16 l) rows) (map skill_pair cs) db.(character_skills)) db.
Proof.
  induction cs as [|[g l] cs IH]; intros db Hh; [destruct db; reflexivity|].
  change (execute_all id (map SkillChange (MkLearnedSkill g l :: cs)) db)
    with (execute_all id (map SkillChange cs) (statement id (SkillChange (MkLearnedSkill g l)) db)).
  rewrite statement_skill, Hh, IH by exact Hh. reflexivity.
Qed.

(** ** The saved row *)

Section Saving.
Context (mastery_order : gmap Z Z -> list (Z * Z)).
Hypothesis mastery_order_perm : forall m, Permutation (mastery_order m) (map_to_list m).

(** The row after the changes of the columns, one after the other. *)
Definition saved_row (b : PlayerBundle) (r : CharacterData) : CharacterData :=
  fold_left (fun r c => effect_of c r) (component_changes mastery_order b) r.

Lemma on_row_fold id cs r :
  fold_left (fun r c => on_row id (effect_of c) r) cs r = on_row id (fun r => fold_left (fun r c => effect_of c r) cs r) r.
Proof.
  revert r. induction cs as [|c cs IH]; intros r; cbn [fold_left].
  - unfold on_row. destruct (_ =? _); reflexivity.
  - rewrite IH. unfold on_row at 1. rewrite on_row_data_id. unfold on_row. destruct (data_id r =? i32 id); reflexivity.
Qed.

Lemma execute_rows id cs : forall db, Forall (fun c => kind_of (Component c) <> KMastery) cs ->
  execute_all id (map Component cs) db = map_characters (on_row id (fun r => fold_left (fun r c => effect_of c r) cs r)) db.
Proof.
  intros db Hcs. transitivity (map_characters (fold_left (fun r c => on_row id (effect_of c) r) cs) db).
  2: { unfold map_characters. f_equal. apply map_ext. intros r. apply on_row_fold. }
  revert db. induction Hcs as [|c cs Hc Hcs IH]; intros db; cbn [map fold_left].
  - symmetry. apply map_characters_id. reflexivity.
  - change (execute_all id (Component c :: map Component cs) db)
      with (execute_all id (map Component cs) (statement id (Component c) db)).
    rewrite statement_row by exact Hc. rewrite IH, map_characters_map. reflexivity.
Qed.

Lemma execute_components id b db : has_character (i32 id) db = true ->
  execute_all id (map Component (component_changes mastery_order b)) db
  = with_masteries
      (fold_left (fun rows '(k, l) => upsert (i32 id) (i32 k) (i16 l) rows) (mastery_order b.(b_masteries).(Progress.masteries))
         db.(character_masteries))
      (map_characters (on_row id (saved_row b)) db).
Proof.
  intros Hh. unfold saved_row, component_changes.
  set (ms := mastery_change mastery_order b.(b_masteries)).
  set (cs := [position_change b.(b_pos); stats_change b.(b_stat_points); health_change b.(b_health); mana_change_of b.(b_mana);
    level_change b.(b_level); experience_change b.(b_exp); sp_change b.(b_sp); gold_change b.(b_gold)]).
  change [_; _; _; _; _; _; _; _; ms] with (cs ++ [ms]). rewrite map_app. cbn [map].
  rewrite execute_all_run, run_app. change (run (statement id) (map Component cs) db) with (execute_all id (map Component cs) db).
  rewrite execute_rows by (subst cs; repeat constructor; discriminate).
  cbn [run fold_left]. subst ms. unfold mastery_change. rewrite statement_mastery.
  rewrite has_character_map, Hh by (intros; rewrite <- on_row_fold; induction cs using rev_ind; [reflexivity|];
    rewrite fold_left_app; cbn [fold_left]; rewrite on_row_data_id; assumption).
  reflexivity.
Qed.

(** What the numbers of a player are within; gold and skill experience are the
    ones whose columns are narrower. *)
Record savable (b : PlayerBundle) : Prop := {
  saved_level : fits 8 b.(b_level).(Progress.level) = true;
  saved_max_level : fits 8 b.(b_level).(Progress.max_level) = true;
  saved_exp : fits 64 b.(b_exp).(experience) = true;
  saved_sp_exp : fits 31 b.(b_exp).(Progress.sp_exp) = true;
  saved_sp : fits 32 b.(b_sp).(Progress.sp) = true;
  saved_gold : fits 31 b.(b_gold).(Progress.gold) = true;
  saved_str : fits 16 b.(b_stat_points).(Progress.stats).(str) = true;
  saved_int : fits 16 b.(b_stat_points).(Progress.stats).(int) = true;
  saved_points : fits 16 b.(b_stat_points).(remaining_points) = true;
  saved_masteries : forall k l, b.(b_masteries).(Progress.masteries) !! k = Some l -> fits 32 k = true /\ fits 8 l = true;
}.

(** The character that is read from the saved row. *)
Definition saved_character (b : PlayerBundle) (c : Character) : Character :=
  {| char_id := c.(char_id); name := c.(name); Characters.race := c.(Characters.race); scale := c.(scale);
     Characters.level := b.(b_level).(Progress.level); Characters.max_level := b.(b_level).(Progress.max_level);
     Characters.exp := b.(b_exp).(experience); Characters.sp := b.(b_sp).(Progress.sp);
     Characters.sp_exp := b.(b_exp).(Progress.sp_exp);
     Characters.stats := b.(b_stat_points).(Progress.stats); Characters.stat_points := b.(b_stat_points).(remaining_points);
     current_hp := u32 b.(b_health).(current_health); current_mp := u32 b.(b_mana).(current_mana);
     berserk_points := c.(berserk_points); Characters.gold := b.(b_gold).(Progress.gold); beginner_mark := c.(beginner_mark);
     gm := c.(gm); state := c.(state); Characters.masteries := c.(Characters.masteries); Characters.skills := c.(Characters.skills) |}.

Lemma i64_small z : fits 31 z = true -> i64 z = z.
Proof. intros H. apply swrap_small; [lia|]. apply fits_spec in H. apply sfits_spec. lia. Qed.
Lemma fits_more w v z : 0 <= w <= v -> fits w z = true -> fits v z = true.
Proof. intros Hw. rewrite !fits_spec. pose proof (Z.pow_le_mono_r 2 w v). lia. Qed.

Lemma wrap_of_swrap w v z : 0 < w <= v -> wrap w (swrap v z) = wrap w z.
Proof.
  intros Hw. unfold wrap, swrap.
  assert (E : 2 ^ v = 2 ^ (v - w) * 2 ^ w) by (rewrite <- Z.pow_add_r by lia; f_equal; lia).
  pose proof (Z.pow_pos_nonneg 2 (v - w)). pose proof (Z.pow_pos_nonneg 2 w).
  rewrite (Z.mod_eq (z + _)) by (rewrite E; nia). rewrite E.
  replace (z + 2 ^ (v - 1) - 2 ^ (v - w) * 2 ^ w * ((z + 2 ^ (v - 1)) / (2 ^ (v - w) * 2 ^ w)) - 2 ^ (v - 1))
    with (z + (- (2 ^ (v - w) * ((z + 2 ^ (v - 1)) / (2 ^ (v - w) * 2 ^ w)))) * 2 ^ w) by ring.
  apply Z_mod_plus_full.
Qed.

Lemma u_swrap w v z : 0 < w <= v -> fits w z = true -> wrap w (swrap v z) = z.
Proof. intros Hw Hz. rewrite wrap_of_swrap by exact Hw. apply wrap_small, Hz. Qed.

Lemma wider w v z : 0 < w -> w < v -> fits w z = true -> swrap v z = z.
Proof.
  intros Hw Hv Hz. apply swrap_small; [lia|]. apply fits_spec in Hz. apply sfits_spec.
  pose proof (Z.pow_le_mono_r 2 w (v - 1)). lia.
Qed.

Lemma saved_row_reads b r : savable b ->
  from_db_character (saved_row b r) = saved_character b (from_db_character r).
Proof.
  intros []. unfold saved_row, component_changes, position_change, stats_change, health_change, mana_change_of, level_change,
    experience_change, sp_change, gold_change, mastery_change.
  unfold effect_of. cbn [fold_left accepted].
  assert (E : int4 (i64 b.(b_exp).(Progress.sp_exp)) = true).
  { rewrite i64_small by assumption. unfold int4. apply fits_spec in saved_sp_exp0. lia. }
  rewrite E. unfold from_db_character, saved_character. cbn. rewrite (wider 8 16), (wider 8 16) by (lia || assumption).
  f_equal; try (apply wrap_small; assumption); try (apply u_swrap; [lia|assumption]); try (apply wrap_of_swrap; lia).
  - apply u_swrap; [lia|]. eapply fits_more; [|exact saved_sp_exp0]. lia.
  - destruct (Progress.stats (b_stat_points b)). cbn in *. f_equal; (apply u_swrap; [lia|assumption]).
  - rewrite (wider 31 32) by (lia || assumption). apply wrap_small. eapply fits_more; [|exact saved_gold0]. lia.
Qed.

#[local] Arguments to_local : simpl never.
#[local] Arguments to_global : simpl never.
#[local] Arguments position_new : simpl never.
#[local] Arguments heading_of_u16 : simpl never.
#[local] Arguments heading_into_u16 : simpl never.

(** The rest of the saved row. *)
Lemma saved_row_rest b r :
  let r' := saved_row b r in
  r'.(data_id) = r.(data_id) /\ r'.(user_id) = r.(user_id) /\ r'.(server_id) = r.(server_id) /\ r'.(charname) = r.(charname)
  /\ r'.(deletion_end) = r.(deletion_end) /\ r'.(character_type) = r.(character_type)
  /\ stored_position r'
     = position_new (to_global (to_local b.(b_pos).(location))) (heading_of_u16 (heading_into_u16 b.(b_pos).(rotation)))
  /\ (fits 31 b.(b_gold).(Progress.gold) = true -> u64 r'.(db_gold) = b.(b_gold).(Progress.gold)).
Proof.
  cbv zeta. unfold saved_row, component_changes, position_change, stats_change, health_change, mana_change_of, level_change,
    experience_change, sp_change, gold_change, mastery_change. unfold effect_of. cbn [fold_left accepted].
  unfold stored_position. destruct (int4 _); cbn.
  all: split_and!; try reflexivity.
  all: try (intros Hg; rewrite (wider 31 32) by (lia || exact Hg); apply wrap_small; eapply fits_more; [|exact Hg]; lia).
  all: rewrite !u_swrap by (lia || (apply heading_into_fits; lia) || apply position_region_fits).
  all: destruct (to_local _) as [? []]; reflexivity.
Qed.
End Saving.

(** ** Leaving and joining again *)

Lemma find_map {A B} (p : B -> bool) (q : A -> bool) (g : A -> B) l :
  (forall x, p (g x) = q x) -> List.find p (map g l) = g <$> List.find q l.
Proof. intros H. induction l as [|x l IH]; [reflexivity|]. cbn. rewrite H. destruct (q x); [reflexivity|exact IH]. Qed.

Lemma filter_mapped {A} (q : A -> bool) (g : A -> A) l :
  (forall x, q (g x) = q x) -> List.filter q (map g l) = map g (List.filter q l).
Proof. intros H. induction l as [|x l IH]; [reflexivity|]. cbn. rewrite H. destruct (q x); cbn; rewrite IH; reflexivity. Qed.

Lemma concat_singletons {A B} (f : A -> B) l : concat (map (fun c => [f c]) l) = map f l.
Proof. induction l as [|x l IH]; [reflexivity|]. cbn. rewrite IH. reflexivity. Qed.

#[local] Arguments saved_row : simpl never.

Section Leaving.
Context (find_item : Z -> option GameData.RefItemData) (character_map : list RefCharacterData).
Context (skill_map : list RefSkillData) (powi : f32 -> Z -> f32) (current_time service_end : datetime).
Context (item_order : gmap Z Item -> list (Z * Item)) {Pool : Type} (request_id : Pool -> option (Z * Pool)).
Hypothesis item_order_perm : forall m, Permutation (item_order m) (map_to_list m).
Context (mastery_order : gmap Z Z -> list (Z * Z)).
Hypothesis mastery_order_perm : forall m, Permutation (mastery_order m) (map_to_list m).

#[local] Abbreviation joins := (handle_join find_item character_map skill_map powi current_time service_end item_order request_id).
#[local] Abbreviation tick := (session_tick mastery_order).

(** What a bundle of the game keeps of another one. *)
Record restored (b b' : PlayerBundle) : Prop := {
  restored_inventory : b'.(b_inventory) = {| Inventory.size := 45; items := b.(b_inventory).(items); changes := [] |};
  restored_gold : b'.(b_gold) = b.(b_gold);
  restored_level : b'.(b_level) = leveled_reset b.(b_level);
  restored_exp : b'.(b_exp) = experienced_new b.(b_exp).(experience) b.(b_exp).(Progress.sp_exp);
  restored_sp : b'.(b_sp) = b.(b_sp);
  restored_stats : b'.(b_stat_points) = stat_points_new b.(b_stat_points).(Progress.stats) b.(b_stat_points).(remaining_points);
  restored_masteries : b'.(b_masteries) = mastery_reset b.(b_masteries);
  restored_skills : b'.(b_skills) = {| Skills.skills := b.(b_skills).(Skills.skills); new_skills := [] |};
  restored_position : b'.(b_pos)
    = position_new (to_global (to_local b.(b_pos).(location))) (heading_of_u16 (heading_into_u16 b.(b_pos).(rotation)));
  restored_health : b'.(b_health) = health_new (max_health_of powi b.(b_stat_points).(Progress.stats) b.(b_level).(Progress.level));
  restored_mana : b'.(b_mana) = mana_with_max (max_mana_of powi b.(b_stat_points).(Progress.stats) b.(b_level).(Progress.level));
}.

(** The statements of pending changes, as they are executed, make the rows those
    of the items and skills, and no mastery is stored that is not known. *)
Record tracked (id : Z) (b : PlayerBundle) (pending_items : list InventoryChange) (pending_skills : list Skills.LearnedSkill)
    (db : Database) : Prop := {
  tracked_slots : NoDup (rows_for (i32 id) db.(character_items)).*1;
  tracked_items : (apply_each (optimize pending_items) (items_of (i32 id) db)).2 = rows_of b.(b_inventory).(items);
  tracked_keys : levels_wf (i32 id) db.(character_masteries) /\ levels_wf (i32 id) db.(character_skills);
  tracked_skills : fold_left (fun m '(k, l) => <[k := l]> m) (map skill_pair (optimize pending_skills))
      (levels (loaded (i32 id) db.(character_skills))) = b.(b_skills).(Skills.skills);
  tracked_skill_range : Forall (fun '(k, l) => fits 32 k = true /\ fits 8 l = true) (map skill_pair (optimize pending_skills));
  tracked_masteries : forall k, is_Some (levels (loaded (i32 id) db.(character_masteries)) !! k) ->
      is_Some (b.(b_masteries).(Progress.masteries) !! k);
}.

(** The rows of a character are what it has. *)
Record saved (id : Z) (b : PlayerBundle) (db : Database) : Prop := {
  saved_slots : NoDup (rows_for (i32 id) db.(character_items)).*1;
  saved_slot_range : slots_ok b.(b_inventory).(items);
  saved_items : items_of (i32 id) db = rows_of b.(b_inventory).(items);
  saved_keys : levels_wf (i32 id) db.(character_masteries) /\ levels_wf (i32 id) db.(character_skills);
  saved_skills : levels (loaded (i32 id) db.(character_skills)) = b.(b_skills).(Skills.skills);
  saved_known : forall k, is_Some (levels (loaded (i32 id) db.(character_masteries)) !! k) ->
      is_Some (b.(b_masteries).(Progress.masteries) !! k);
}.

(** What the updates of a tick do to what is saved by its changes: moves that
    succeed and additions to the inventory, skills that are learned; no mastery
    is forgotten. The rest of the bundle may change in any way. *)
Record acts (b b' : PlayerBundle) : Prop := {
  acts_player : b'.(b_player) = b.(b_player);
  acts_items : exists os, Forall operation_ok os
    /\ perform_all item_order os b.(b_inventory) = Some b'.(b_inventory);
  acts_skills : exists ss : list Skills.RefSkillData,
    Forall (fun s => fits 32 s.(Skills.group) = true /\ fits 8 s.(Skills.level) = true) ss
    /\ b'.(b_skills) = fold_left (fun k s => learn_skill s k) ss b.(b_skills);
  acts_masteries : forall k, is_Some (b.(b_masteries).(Progress.masteries) !! k) ->
      is_Some (b'.(b_masteries).(Progress.masteries) !! k);
}.

(** Ticks in which no persistence is due. *)
Inductive plays (s : Session) : Session -> Prop :=
| plays_no_more : plays s s
| plays_tick s1 p update :
    plays s s1 -> s1.(played) = Some p -> acts p.(bundle) (update p.(bundle)) ->
    plays s (tick 0 update false false false s1).2.

(** A player with nothing that waits to be saved. *)
Definition nothing_pending (p : Persisted) : Prop :=
  p.(collected_items) = Some [] /\ p.(collected_skills) = Some []
  /\ p.(bundle).(b_inventory).(changes) = [] /\ p.(bundle).(b_skills).(new_skills) = [].

(** An inventory that is stored, loaded and shown. *)
Definition inventory_kept (m : gmap Z Item) : Prop :=
  forall s i, m !! s = Some i -> storable find_item i /\ i.(type_data) <> COS.

Definition exit_tasks (b : PlayerBundle) (pending_items : list InventoryChange) (pending_skills : list Skills.LearnedSkill) : list Task :=
  [map ItemChange (optimize pending_items); map SkillChange (optimize pending_skills)]
  ++ map (fun c => [Component c]) (component_changes mastery_order b).

Definition pending_of (ci : list InventoryChange) (b : PlayerBundle) : list InventoryChange := ci ++ b.(b_inventory).(changes).
Definition pending_skills_of (cs : list Skills.LearnedSkill) (b : PlayerBundle) : list Skills.LearnedSkill :=
  cs ++ (skill_changes b.(b_skills)).1.

Lemma logout_tick p update ci cs :
  p.(collected_items) = Some ci -> p.(collected_skills) = Some cs ->
  let b := update p.(bundle) in
  exists s', tick 0 update true false false {| played := Some p; announced := 0 |}
             = (exit_tasks b (pending_of ci b) (pending_skills_of cs b), None, s')
    /\ s'.(announced) = 1%nat
    /\ (b_player ∘ bundle <$> s'.(played)) = Some b.(b_player).
Proof.
  intros Hi Hs b. unfold session_tick. cbn [played announced Nat.add Nat.ltb Nat.leb]. unfold persist, collect, collect_changes.
  cbn [bundle collected_items collected_skills]. rewrite Hi, Hs. unfold inventory_changes, skill_changes.
  cbn [apply_changes_exit collected_items collected_skills taken]. eexists. split; [|split].
  - unfold exit_tasks, apply_changes_combined, component_tasks. cbn [repeat concat bundle]. rewrite !app_nil_r. reflexivity.
  - reflexivity.
  - reflexivity.
Qed.

Lemma gone_after s p gone update logout_ends changes_due components_due :
  s.(played) = Some p -> (0 < s.(announced))%nat ->
  tick gone update logout_ends changes_due components_due s
  = ([], Some p.(bundle).(b_player).(player_character).(char_id), {| played := None; announced := 0 |}).
Proof.
  intros Hp Ha. unfold session_tick. rewrite Hp. rewrite (proj2 (Nat.ltb_lt _ _)) by lia. reflexivity.
Qed.

(** *** What is pending after some ticks *)

(** Changes that lead from one bundle to another one. *)
Record pending (b b' : PlayerBundle) (ci : list InventoryChange) (cs : list Skills.LearnedSkill) : Prop := {
  pending_player : b'.(b_player) = b.(b_player);
  pending_slots : Forall change_slots_ok ci;
  pending_slot_range : slots_ok b'.(b_inventory).(items);
  pending_items : apply_inventory_changes ci b.(b_inventory).(items) = Some b'.(b_inventory).(items);
  pending_skills : forall k, b'.(b_skills).(Skills.skills) !! k = effects (on k cs) (b.(b_skills).(Skills.skills) !! k);
  pending_range : Forall (fun c => let '(MkLearnedSkill g l) := c in fits 32 g = true /\ fits 8 l = true) cs;
  pending_known : forall k, is_Some (b.(b_masteries).(Progress.masteries) !! k) ->
      is_Some (b'.(b_masteries).(Progress.masteries) !! k);
}.

Lemma acts_pending b b1 b2 ci cs : pending b b1 ci cs -> acts b1 b2 ->
  exists ds es, b2.(b_inventory).(changes) = b1.(b_inventory).(changes) ++ ds
    /\ (skill_changes b2.(b_skills)).1 = (skill_changes b1.(b_skills)).1 ++ es
    /\ pending b b2 (ci ++ ds) (cs ++ es).
Proof.
  intros [Pp Ps Pr Pi Pk Pf Pm] [Ap (os & Ho & Hi) (ss & Hr & Hk) Am].
  destruct (perform_all_logged item_order os _ _ Pr Ho Hi) as (Hok & ds & Ed & Hds & Hd).
  destruct (learn_all_skills ss (b_skills b1)) as [En Es]. rewrite <- Hk in En, Es.
  exists ds, (map (fun s => MkLearnedSkill s.(Skills.group) s.(Skills.level)) ss). split; [exact Ed|]. split.
  { unfold skill_changes. cbn [fst]. rewrite En, map_app, map_map. reflexivity. }
  split; try congruence; auto.
  - apply Forall_app; auto.
  - rewrite (apply_changes_app _ _ _ _ Pi). exact Hd.
  - intros k. rewrite Es, Pk, on_app, effects_app. reflexivity.
  - apply Forall_app. split; [exact Pf|]. apply Forall_map. exact Hr.
Qed.

Lemma pending_nothing b : slots_ok b.(b_inventory).(items) -> pending b b [] [].
Proof. intros H. split; auto. Qed.

(** In ticks without persistence what is recorded is collected. *)
Lemma plays_pending p0 s : nothing_pending p0 -> slots_ok p0.(bundle).(b_inventory).(items) ->
  plays {| played := Some p0; announced := 0 |} s ->
  exists p ci cs, s = {| played := Some p; announced := 0 |}
    /\ p.(collected_items) = Some ci /\ p.(collected_skills) = Some cs
    /\ p.(bundle).(b_inventory).(changes) = [] /\ p.(bundle).(b_skills).(new_skills) = []
    /\ pending p0.(bundle) p.(bundle) ci cs.
Proof.
  intros (N1 & N2 & N3 & N4) Hok. induction 1 as [|s1 q update Hs IH Hq Ha].
  - exists p0, [], []. auto 10 using pending_nothing.
  - destruct IH as (p & ci & cs & -> & Hi & Hk & Hc & Hn & Hp). injection Hq as <-.
    destruct (acts_pending _ _ _ _ _ Hp Ha) as (ds & es & Ed & Ee & Hp').
    rewrite Hc in Ed. unfold skill_changes in Ee. rewrite Hn in Ee. cbn in Ed, Ee.
    unfold session_tick. cbn [played announced Nat.add Nat.ltb Nat.leb]. unfold persist, collect, collect_changes.
    cbn [bundle collected_items collected_skills]. rewrite Hi, Hk. unfold inventory_changes, skill_changes.
    cbn [apply_changes_exit]. eexists _, (ci ++ ds), (cs ++ es). split; [reflexivity|].
    cbn [collected_items collected_skills bundle]. rewrite Ed, Ee. split_and!; try reflexivity.
    destruct Hp'. split; assumption.
Qed.

Lemma levels_effects (cs : list Skills.LearnedSkill) : forall (m : gmap Z Z) k,
  fold_left (fun m '(k, v) => <[k := v]> m) (map skill_pair cs) m !! k = effects (on k cs) (m !! k).
Proof.
  induction cs as [|[g l] cs IH]; intros m k; [reflexivity|]. cbn [map skill_pair fold_left]. rewrite IH, on_cons.
  cbn [key LearnedSkill_keyed]. destruct (bool_decide_reflect (k = g)) as [->|Hk].
  - rewrite lookup_insert_eq. reflexivity.
  - rewrite lookup_insert_ne by congruence. reflexivity.
Qed.

Lemma optimize_effects (cs : list Skills.LearnedSkill) k (v : option Z) :
  effects (on k (optimize cs)) v = effects (on k cs) v.
Proof.
  unfold optimize. destruct (_ <=? 1)%nat; [reflexivity|].
  exact (proj2 (fold_merge_keyed (V := option Z) cs [] ltac:(constructor)) k v).
Qed.

(** Once the changes that wait are executed the rows are those of the bundle. *)
Lemma pending_tracked id b b' ci cs db : saved id b db -> pending b b' ci cs -> unmerged ci -> tracked id b' ci cs db.
Proof.
  intros [Sn Sr Si [Km Ks] Ss Sk] [_ Ps _ Pi Pk Pf Pm] Hu. split; auto.
  - rewrite (optimize_unmerged _ Hu), Si. destruct (apply_each_refines ci _ _ Sr Ps Pi) as [-> _]. reflexivity.
  - apply map_eq. intros k. rewrite levels_effects, optimize_effects, Ss. symmetry. apply Pk.
  - apply Forall_map. apply (optimize_keeps (fun c => let '(MkLearnedSkill g l) := c in fits 32 g = true /\ fits 8 l = true)) in Pf.
    + eapply Forall_impl; [exact Pf|]. intros [g l] H. exact H.
    + intros [g l] [g' l'] Ha Hb. unfold merge, LearnedSkill_change. destruct (_ =? _); auto.
Qed.

Lemma exit_independent id b pi ps : independent (statement id) (exit_tasks b pi ps).
Proof.
  apply (kinds_independent id _ [KItems; KSkills; KPosition; KStats; KHealth; KMana; KLevel; KExperience; KSp; KGold; KMastery]).
  - unfold exit_tasks, component_changes. cbn [map app].
    repeat constructor; apply Forall_map, Forall_true; reflexivity.
  - apply (bool_decide_unpack _). reflexivity.
Qed.

Lemma masteries_saved (b : PlayerBundle) (m : gmap Z Z) : savable b ->
  (forall k, is_Some (m !! k) -> is_Some (b.(b_masteries).(Progress.masteries) !! k)) ->
  fold_left (fun m '(k, l) => <[k := l]> m) (mastery_order b.(b_masteries).(Progress.masteries)) m
  = b.(b_masteries).(Progress.masteries).
Proof.
  intros _ Hm. set (ms := Progress.masteries _) in *. pose proof (mastery_order_perm ms) as Hp.
  assert (Hn : NoDup (mastery_order ms).*1) by (rewrite Hp; apply NoDup_fst_map_to_list).
  apply map_eq. intros k. rewrite insert_all_lookup by exact Hn.
  rewrite (list_to_map_proper _ (map_to_list ms) Hn Hp), list_to_map_to_list.
  destruct (ms !! k) eqn:E; [reflexivity|]. destruct (m !! k) eqn:Em; [|reflexivity].
  destruct (Hm k) as [? ?]; [eauto|congruence].
Qed.

Lemma masteries_in_range b : savable b ->
  Forall (fun '(k, l) => fits 32 k = true /\ fits 8 l = true) (mastery_order b.(b_masteries).(Progress.masteries)).
Proof.
  intros H. rewrite mastery_order_perm. apply Forall_forall. intros [k l] Hin. apply elem_of_map_to_list in Hin.
  exact (saved_masteries _ H k l Hin).
Qed.

Lemma exit_tables id b pi ps db l :
  has_character (i32 id) db = true -> savable b -> tracked id b pi ps db -> interleaved (exit_tasks b pi ps) l ->
  let db' := execute_all id l db in
  db'.(characters) = map (on_row id (saved_row mastery_order b)) db.(characters)
  /\ Permutation (rows_for (i32 id) db'.(character_items)) (map_to_list (rows_of b.(b_inventory).(items)))
  /\ levels (loaded (i32 id) db'.(character_masteries)) = b.(b_masteries).(Progress.masteries)
  /\ levels (loaded (i32 id) db'.(character_skills)) = b.(b_skills).(Skills.skills)
  /\ (forall k, k <> i32 id -> rows_for k db'.(character_items) = rows_for k db.(character_items)
        /\ rows_for k db'.(character_masteries) = rows_for k db.(character_masteries)
        /\ rows_for k db'.(character_skills) = rows_for k db.(character_skills)).
Proof.
  intros Hh Hb [Hslots Hitems [Hkm Hks] Hskills Hrange Hmasteries] Hl db'. subst db'.
  rewrite execute_all_run, (interleaving_irrelevant _ _ _ _ Hl (exit_independent id b pi ps)). unfold exit_tasks.
  rewrite concat_app. cbn [concat]. rewrite app_nil_r, concat_singletons, <- app_assoc, !run_app, <- !execute_all_run.
  destruct (execute_items id (optimize pi) db Hh Hslots) as (rows & -> & Hrows & Hothers). rewrite Hitems in Hrows.
  rewrite execute_skills by exact Hh. rewrite execute_components by exact Hh. cbn.
  destruct (upserts_loaded (i32 id) (map skill_pair (optimize ps)) db.(character_skills) Hks Hrange) as (_ & S2 & S3).
  destruct (upserts_loaded (i32 id) _ db.(character_masteries) Hkm (masteries_in_range b Hb)) as (_ & M2 & M3).
  cbv zeta in *. repeat split; auto; [|rewrite S2; exact Hskills].
  rewrite M2. apply masteries_saved; assumption.
Qed.


(** The rows that are found again, with the columns that were saved. *)
Lemma load_after u sv now id b db db' :
  db'.(characters) = map (on_row id (saved_row mastery_order b)) db.(characters) ->
  load_characters_sparse u sv now db'
  = map (fun c => load_row db' (on_row id (saved_row mastery_order b) c)) (fetch_characters u sv now db).
Proof.
  intros Hc. unfold load_characters_sparse, fetch_characters. rewrite Hc, filter_mapped, map_map; [reflexivity|].
  intros c. unfold on_row. destruct (data_id c =? i32 id); [|reflexivity].
  destruct (saved_row_rest mastery_order b c) as (_ & E1 & E2 & _ & E3 & _). unfold not_deleted. rewrite E1, E2, E3. reflexivity.
Qed.

Lemma found_again u sv now id b n db db' r :
  db'.(characters) = map (on_row id (saved_row mastery_order b)) db.(characters) -> r.(data_id) = i32 id ->
  List.find (fun c => bool_decide (c.(character_data).(charname) = n)) (load_characters_sparse u sv now db) = Some (load_row db r) ->
  List.find (fun c => bool_decide (c.(character_data).(charname) = n)) (load_characters_sparse u sv now db')
  = Some (load_row db' (saved_row mastery_order b r)).
Proof.
  intros Hc Hr Hf. rewrite (load_after u sv now id b db db' Hc).
  unfold load_characters_sparse in Hf. rewrite (find_map _ (fun c => bool_decide (c.(charname) = n))) in Hf by reflexivity.
  rewrite (find_map _ (fun c => bool_decide (c.(charname) = n))).
  - destruct (List.find _ _) as [c|] eqn:E; [|discriminate]. injection Hf as ->. cbn. f_equal. f_equal.
    unfold on_row. rewrite Hr, Z.eqb_refl. reflexivity.
  - intros c. cbn [load_row character_data]. unfold on_row. destruct (data_id c =? i32 id); [|reflexivity].
    destruct (saved_row_rest mastery_order b c) as (_ & _ & _ & E & _). rewrite E. reflexivity.
Qed.

Lemma items_shown l : Forall (fun '(_, i) => storable find_item i /\ i.(type_data) <> COS) l ->
  exists v, inventory_items l = Ok v.
Proof.
  induction 1 as [|[s i] l [Hs Hc] _ [v IH]]; [exists []; reflexivity|]. cbn [inventory_items].
  destruct Hs as (_ & _ & _ & Hd). unfold item_content.
  destruct (type_data i) as [| |a|g]; try congruence; cbn [mbind outcome_bind]; rewrite ?IH; cbn; eauto.
  destruct (from_type_id _) as [[|[]|]|]; contradiction.
Qed.


Lemma has_row id r db : r ∈ db.(characters) -> r.(data_id) = i32 id -> has_character (i32 id) db = true.
Proof.
  intros Hr Hi. apply existsb_exists. exists r. split; [apply list_elem_of_In, Hr|]. rewrite Hi. apply Z.eqb_refl.
Qed.

Lemma find_row u sv now n db r :
  List.find (fun c => bool_decide (c.(character_data).(charname) = n)) (load_characters_sparse u sv now db) = Some (load_row db r) ->
  r ∈ db.(characters) /\ r.(charname) = n.
Proof.
  intros H. apply find_some in H as [Hin Hn]. apply bool_decide_eq_true in Hn. split; [|exact Hn].
  unfold load_characters_sparse in Hin. apply in_map_iff in Hin as (c & Hc & Hin).
  assert (c = r) as -> by (exact (f_equal character_data Hc)).
  unfold fetch_characters in Hin. apply filter_In in Hin as [Hin _]. apply list_elem_of_In, Hin.
Qed.

(** What the exit leaves is joined again. *)
Lemma tracked_is_restored (p : Persisted) (update : PlayerBundle -> PlayerBundle) (ci : list InventoryChange)
    (cs : list Skills.LearnedSkill) (db : Database) (r : CharacterData) (u sv now : Z) (user : ServerUser)
    (most : Z) (pool pool' : Pool) (new_id : Z) (ref : RefCharacterData) (tasks : list Task) (s' : Session) (l : list AnyChange)
    (Hitems : p.(collected_items) = Some ci) (Hskills : p.(collected_skills) = Some cs)
    (Hid : r.(data_id) = i32 (update p.(bundle)).(b_player).(player_character).(char_id))
    (Hsave : savable (update p.(bundle))) (Hslots : slots_ok (update p.(bundle)).(b_inventory).(items))
    (Hkept : inventory_kept (update p.(bundle)).(b_inventory).(items))
    (Htracked : tracked (update p.(bundle)).(b_player).(player_character).(char_id) (update p.(bundle))
       (pending_of ci (update p.(bundle))) (pending_skills_of cs (update p.(bundle))) db)
    (Hfound : List.find (fun c => bool_decide (c.(character_data).(charname) = r.(charname)))
       (load_characters_sparse u sv now db) = Some (load_row db r))
    (Halive : r.(deletion_end) = None) (Href : find_id character_map (u32 r.(character_type)) = Some ref)
    (Hpool : request_id pool = Some (new_id, pool'))
    (Htick : tick 0 update true false false {| played := Some p; announced := 0 |} = (tasks, None, s'))
    (Hl : interleaved tasks l) :
  let b := update p.(bundle) in
  let id := b.(b_player).(player_character).(char_id) in
  let db' := execute_all id l db in
  (exists answers b',
      joins most (Some r.(charname)) (Some (load_characters_sparse u sv now db')) user pool = Ok (answers, Some b', pool')
      /\ restored b b')
  /\ (forall k, k <> i32 id -> rows_for k db'.(character_items) = rows_for k db.(character_items)
        /\ rows_for k db'.(character_masteries) = rows_for k db.(character_masteries)
        /\ rows_for k db'.(character_skills) = rows_for k db.(character_skills))
  /\ (forall c, c ∈ db.(characters) -> c.(data_id) <> i32 id -> c ∈ db'.(characters))
  /\ (forall gone update logout_ends changes_due components_due,
        tick gone update logout_ends changes_due components_due s' = ([], Some id, {| played := None; announced := 0 |})).
Proof.
  intros b id db'. destruct (logout_tick p update ci cs Hitems Hskills) as (s1 & Ht & Ha & Hp).
  rewrite Htick in Ht. injection Ht as -> ->. fold b in Hp, Hl.
  destruct (find_row u sv now _ db r Hfound) as [Hr _].
  destruct (exit_tables id b _ _ db l (has_row id r db Hr Hid) Hsave Htracked Hl) as (Hc & Hrows & Hm & Hk & Hothers).
  fold db' in Hc, Hrows, Hm, Hk, Hothers. split; [|split; [exact Hothers|split]].
  - unfold handle_join. rewrite (found_again u sv now id b _ db db' r Hc Hid Hfound).
    destruct (saved_row_rest mastery_order b r) as (E1 & _ & _ & _ & E5 & E6 & E7 & E8).
    cbn [load_row character_data db_items]. rewrite E5, E6, Href, Halive, E1, Hid.
    unfold from_db_inventory, inventory_new. cbn [Z.ltb Z.compare Pos.compare Pos.compare_cont mbind outcome_bind].
    rewrite (load_permuted find_item b.(b_inventory).(items)); [|exact Hslots|intros s i Hs; apply (Hkept s i Hs)|exact Hrows].
    rewrite Hpool. unfold send_spawn. cbn [set_items items].
    rewrite (right_id_L ∅ (∪)).
    destruct (items_shown (item_order b.(b_inventory).(items))) as [v ->].
    { rewrite item_order_perm. apply Forall_forall. intros [s i] Hin. apply elem_of_map_to_list in Hin. exact (Hkept s i Hin). }
    cbn [mbind outcome_bind]. eexists _, _. split; [reflexivity|].
    unfold player_bundle_new, stored_player, from_db_data. cbn [player_character load_row character_data].
    rewrite (saved_row_reads mastery_order b r Hsave), E7, E8 by (apply Hsave).
    split; try reflexivity; cbn.
    all: try (destruct (b_gold b); reflexivity); try (destruct (b_sp b); reflexivity).
    + unfold mastery_knowledge_new, mastery_reset. f_equal. rewrite <- Hm. unfold loaded. rewrite E1, Hid. reflexivity.
    + unfold skill_book_new. f_equal. rewrite <- Hk. unfold loaded. rewrite E1, Hid. reflexivity.
  - intros c Hin Hne. rewrite Hc. apply list_elem_of_In, in_map_iff. exists c. split; [|apply list_elem_of_In, Hin].
    unfold on_row. destruct (Z.eqb_spec (data_id c) (i32 id)); [contradiction|reflexivity].
  - intros. destruct (s1.(played)) as [q|] eqn:Eq; [|discriminate]. cbn in Hp. injection Hp as Hp.
    rewrite (gone_after s1 q) by (assumption || lia). rewrite Hp. reflexivity.
Qed.


End Leaving.

(** ** What is lost *)

(** A client that is gone is despawned before the persistence of the tick runs:
    nothing is saved. *)
Lemma disconnect_loses mastery_order p gone update logout_ends changes_due components_due : (0 < gone)%nat ->
  (session_tick mastery_order gone update logout_ends changes_due components_due {| played := Some p; announced := 0 |}).1.1 = [].
Proof. intros H. unfold session_tick. cbn [played announced]. rewrite (proj2 (Nat.ltb_lt _ _)) by lia. reflexivity. Qed.

(** The column of the gold takes 64 bits, the statement binds 32 of them. *)
Lemma gold_truncated r :
  u64 (row_effect (GoldChange 3000000000) r).(db_gold) = 18446744072414584320.
Proof. reflexivity. Qed.

(** A task of an earlier persistence may be served after a later one. *)
Lemma periodic_may_overwrite id (r : CharacterData) :
  r.(data_id) = i32 id ->
  let db := {| characters := [r]; character_items := []; character_masteries := []; character_skills := []; next_id := 2 |} in
  let ts := [[Component (GoldChange 5)]; [Component (GoldChange 7)]] in
  exists l, interleaved ts l /\ map db_gold (execute_all id l db).(characters) = [5].
Proof.
  intros Hr db ts. exists [Component (GoldChange 7); Component (GoldChange 5)]. split.
  - apply (interleaved_step [[Component (GoldChange 5)]] [] (Component (GoldChange 7)) []).
    apply (interleaved_step [] [[]] (Component (GoldChange 5)) []). constructor. repeat constructor.
  - cbn. rewrite Hr, Z.eqb_refl. cbn. rewrite Hr, Z.eqb_refl. reflexivity.
Qed.

(** ** A player who leaves *)

Lemma interleaved_nil {A} (ts : list (list A)) l : interleaved ts l -> interleaved ([] :: ts) l.
Proof.
  induction 1 as [ts H|ts us a t l _ IH].
  - constructor. constructor; [reflexivity|exact H].
  - exact (interleaved_step ([] :: ts) us a t l IH).
Qed.

(** One task after the other. *)
Lemma interleaved_concat {A} (ts : list (list A)) : interleaved ts (concat ts).
Proof.
  induction ts as [|t ts IH]; [repeat constructor|]. induction t as [|a t IHt]; [apply interleaved_nil, IH|].
  exact (interleaved_step [] ts a t _ IHt).
Qed.

#[local] Definition some_row : CharacterData :=
  {| data_id := 1; user_id := 1; server_id := 3; charname := chars "ann"; db_race := DbChinese; character_type := 1907;
     db_scale := 34; db_level := 5; db_max_level := 5; db_exp := 40; db_sp := 10; db_sp_exp := 20; strength := 24;
     intelligence := 24; db_stat_points := 12; db_current_hp := 200; db_current_mp := 200; deletion_end := None;
     pos_x := f32_of_Z 100; pos_y := f32_of_Z 0; pos_z := f32_of_Z 100; db_rotation := 0; db_region := 24998;
     db_berserk_points := 0; db_gold := 900; db_beginner_mark := true; db_gm := false; last_logout := None |}.

#[local] Definition some_tables : Database :=
  {| characters := [some_row]; character_items := [(1, (20, row_of (potions 5)))]; character_masteries := [(1, (257, 3))];
     character_skills := [(1, (7, 1))]; next_id := 2 |}.

#[local] Definition ann : ServerUser :=
  {| Population.id := 1; Population.username := chars "ann"; Population.job := 0; premium_type := 0; premium_end := None |}.

#[local] Definition powi0 : f32 -> Z -> f32 := fun a _ => a.

(** The bundle of the stored character, and one that learned and earned. *)
#[local] Definition some_bundle : PlayerBundle :=
  player_bundle_new powi0 (stored_player ann (load_row some_tables some_row)) {| unique_id := 5; Entities.ref_id := 1907 |}
    (inventory_of [(20, potions 5)]) (MkGoldPouch 900) agent_default (stored_position some_row) (with_radius (f32_of_Z 500)).

#[local] Definition earned (b : PlayerBundle) : PlayerBundle :=
  {| b_player := b.(b_player);
     b_inventory := (move_item b.(b_inventory) 20 21 5).2;
     b_gold := gold_gain 100 b.(b_gold);
     b_game_entity := b.(b_game_entity); b_agent := b.(b_agent); b_pos := b.(b_pos); b_visibility := b.(b_visibility);
     b_input := b.(b_input); b_speed := b.(b_speed); b_damage_receiver := b.(b_damage_receiver);
     b_health := reduce 50 b.(b_health); b_mana := b.(b_mana); b_level := level_up b.(b_level);
     b_sp := sp_spend 3 b.(b_sp); b_exp := b.(b_exp); b_mind := b.(b_mind); b_stat_points := spend_str b.(b_stat_points);
     b_masteries := level_mastery_by 257 1 b.(b_masteries);
     b_skills := learn_skill {| Skills.group := 7; Skills.level := 2; Skills.required_skills := [] |} b.(b_skills);
     b_race := b.(b_race) |}.

#[local] Definition found_item (n : Z) : option GameData.RefItemData := if n =? 1 then Some potion else None.
#[local] Definition the_character : RefCharacterData :=
  {| character_common := {| common_ref_id := 1907; common_id := []; type_id := MkTypeId 1 1 0 0;
                            GameData.country := GameData.Chinese; despawn_time := 0 |};
     rarity := {| party := false; Definitions.kind := Rarity_Normal |}; GameData.level := 1; GameData.exp := 0; hp := 0; walk_speed := 16;
     run_speed := 50; GameData.berserk_speed := 100; base_range := 0; pickup_range := None; aggressive := false; GameData.skills := [] |}.

#[local] Definition service_time : datetime :=
  {| year := 2000; month := 1; day := 1; hour := 0; minute := 0; second := 0; timestamp_millis := 0 |}.

#[local] Definition ann_playing : Persisted :=
  {| bundle := some_bundle; collected_items := Some []; collected_skills := Some [] |}.

#[local] Definition ann_earned : PlayerBundle := earned some_bundle.

(** The potions are moved and more are picked up in the tick of the logout. *)
#[local] Definition picked (b : PlayerBundle) : PlayerBundle :=
  with_collected (add_item slots_of b.(b_inventory) (potions 3)).2 b.(b_skills) b.

#[local] Definition after_earning : Session :=
  (session_tick map_to_list 0 earned false false false {| played := Some ann_playing; announced := 0 |}).2.
#[local] Definition ann_later : Persisted := default ann_playing after_earning.(played).
#[local] Definition ann_leaving : PlayerBundle := picked ann_later.(bundle).

Lemma ann_nothing_pending : nothing_pending ann_playing.
Proof. repeat split. Qed.

Lemma ann_saved : saved 1 some_bundle some_tables.
Proof.
  assert (Hall : forall s i, (b_inventory some_bundle).(items) !! s = Some i -> (s, i) = (20, potions 5)).
  { intros s i Hs. apply elem_of_list_to_map_2, list_elem_of_In in Hs. destruct Hs as [Hs|[]]. congruence. }
  split.
  - apply NoDup_singleton.
  - intros s i Hs. apply Hall in Hs as [= -> ->]. lia.
  - vm_compute. reflexivity.
  - split; (split; [apply NoDup_singleton|repeat constructor]).
  - vm_compute. reflexivity.
  - intros k Hk. exact Hk.
Qed.

(** One mastery, before and after. *)
Lemma singleton_known {m m' : gmap Z Z} {i x y} : m = {[i := x]} -> m' = {[i := y]} ->
  forall k, is_Some (m !! k) -> is_Some (m' !! k).
Proof. intros -> -> k [v Hv]. apply lookup_singleton_Some in Hv as [<- _]. rewrite lookup_singleton_eq. eauto. Qed.

Lemma ann_earns : acts slots_of some_bundle (earned some_bundle).
Proof.
  split.
  - reflexivity.
  - exists [InventoryRows.Moving 20 21 5]. split; [repeat constructor; cbn; lia|reflexivity].
  - eexists [_]. split; [|reflexivity]. repeat constructor.
  - apply (@singleton_known _ _ 257 3 4); vm_compute; reflexivity.
Qed.

Lemma ann_picks : acts slots_of ann_later.(bundle) ann_leaving.
Proof.
  split.
  - reflexivity.
  - exists [InventoryRows.Adding_item (potions 3)]. split; [repeat constructor|reflexivity].
  - exists []. split; [constructor|reflexivity].
  - intros k Hk. exact Hk.
Qed.

#[local] Definition at_start : Session := {| played := Some ann_playing; announced := 0 |}.
Lemma ann_plays : plays slots_of map_to_list at_start after_earning.
Proof. exact (plays_tick _ _ _ at_start ann_playing earned (plays_no_more _ _ _) eq_refl ann_earns). Qed.

Lemma after_earning_is : after_earning = {| played := Some ann_later; announced := 0 |}.
Proof. reflexivity. Qed.

Lemma ann_unmerged : unmerged (pending_of (default [] ann_later.(collected_items)) ann_leaving).
Proof.
  intros i j a b Hij Ha Hb.
  assert (E : pending_of (default [] ann_later.(collected_items)) ann_leaving
    = [MoveItem 20 21; ChangeTypeData 21 (Consumable 5) (Consumable 8)]) by (vm_compute; reflexivity).
  rewrite E in Ha, Hb. destruct i as [|[|i]], j as [|[|j]]; try lia; try discriminate.
  cbn in Ha, Hb. injection Ha as <-. injection Hb as <-. reflexivity.
Qed.

Lemma ann_savable : savable ann_leaving.
Proof.
  split; try reflexivity. intros k l Hk.
  assert (E : b_masteries ann_leaving = {| Progress.masteries := {[257 := 4]}; leveled_masteries := [257] |}) by (vm_compute; reflexivity).
  rewrite E in Hk. cbn [Progress.masteries] in Hk. apply lookup_singleton_Some in Hk as [<- <-]. split; reflexivity.
Qed.

Lemma ann_kept : inventory_kept found_item (b_inventory ann_leaving).(items).
Proof.
  intros s i Hs. assert (E : (b_inventory ann_leaving).(items) = {[21 := potions 8]}) by (vm_compute; reflexivity).
  rewrite E in Hs. apply lookup_singleton_Some in Hs as [<- <-]. split; [vm_compute; auto|discriminate].
Qed.

