(* ===== verification/JoinSpec.v ===== *)
(** Joining the game: everything a client is sent when it joins and when it has
    loaded is a legal packet, how a request to join is decided, the inputs of a
    tick, the day, and what joining departs from. *)
From stdpp Require Import base list option strings gmap.
From Stdlib Require Import ZArith Lia Floats.SpecFloat.
From S2P Require Import Skills.
From S2P Require Import Prelude Utf Text F32 Definitions TypeIdEnums TypeId GameData SkillData Serde SerdeFacts Schema.
From S2P Require Import ProtoGeneral ProtoLogin ProtoMovement ProtoCombat ProtoInventory ProtoWorld ProtoCharacter ProtoChat.
From S2P Require Import ProtoChat ProtoSpawn Packets.
From S2P Require Import Inventory InventoryFacts InventorySpec InventoryRows Population Progress Position PositionSpec Entities Visibility VisibilitySpec.
From S2P Require Import Characters Movement AgentStates Combat CharSelect Join.

#[local] Arguments rows_for : simpl never.
#[local] Arguments swrap : simpl never.
#[local] Arguments wrap : simpl never.

(** ** What was loaded is within its widths *)

(** An item as [from_db_inventory] builds it. *)
Definition loaded_item (find_item : Z -> option GameData.RefItemData) (i : Item) : Prop :=
  (exists id, find_item id = Some i.(reference))
  /\ (forall v, i.(variance) = Some v -> fits 64 v = true)
  /\ match i.(type_data) with
     | Equipment u => fits 8 u = true
     | Consumable a => fits 16 a = true
     | COS => True
     | Gold _ => False
     end.

Section Loading.
Context (find_item : Z -> option GameData.RefItemData).

Lemma item_of_row_loaded r i : item_of_row find_item r = Ok i -> loaded_item find_item i.
Proof.
  unfold item_of_row. destruct (find_item _) as [d|] eqn:Ed; [|discriminate]. unfold item_type_data_for.
  destruct (from_type_id _) as [[|ty|]|]; try discriminate. cbn [mbind outcome_bind]. intros [= <-].
  split; [eauto|]. split; cbn [variance type_data].
  - intros v Hv. destruct (db_variance r); [|discriminate]. injection Hv as <-. auto with skr.
  - destruct ty; auto with skr.
Qed.

Lemma insert_length {A} s (x : A) (m : gmap Z A) : (length (map_to_list (<[s := x]> m)) <= S (length (map_to_list m)))%nat.
Proof. rewrite !length_map_to_list, map_size_insert. destruct (m !! s); unfold Datatypes.id; lia. Qed.

(** Slots are bytes, and there are at most as many items as rows. *)
Lemma load_rows_ok rows : forall inv inv', load_rows find_item rows inv = Ok inv' ->
  (forall s i, inv.(items) !! s = Some i -> fits 8 s = true /\ loaded_item find_item i) ->
  inv'.(Inventory.size) = inv.(Inventory.size)
  /\ (forall s i, inv'.(items) !! s = Some i -> fits 8 s = true /\ loaded_item find_item i)
  /\ (length (map_to_list inv'.(items)) <= length (map_to_list inv.(items)) + length rows)%nat.
Proof.
  induction rows as [|[s r] rows IH]; intros inv inv' H Hi; cbn [load_rows] in H.
  - injection H as <-. split; [reflexivity|]. split; [exact Hi|lia].
  - destruct (item_of_row find_item r) as [i| |] eqn:Er; try discriminate. cbn [mbind outcome_bind] in H.
    destruct (IH _ _ H) as (E1 & E2 & E3).
    + intros s' i'. cbn. intros [[<- <-]|[_ Hs]]%lookup_insert_Some; [|exact (Hi _ _ Hs)].
      split; [auto with skr|exact (item_of_row_loaded r i Er)].
    + split; [exact E1|]. split; [exact E2|]. change (items (set_item inv (u8 s) i)) with (<[u8 s := i]> inv.(items)) in E3. cbn [length].
      pose proof (insert_length (u8 s) i inv.(items)). lia.
Qed.
End Loading.

(** ** The messages are legal *)

Section Legal.
Context (find_item : Z -> option GameData.RefItemData) (character_map : list RefCharacterData).
Context (skill_map : list RefSkillData) (powi : f32 -> Z -> f32) (current_time service_end : datetime).
Context (item_order : gmap Z Item -> list (Z * Item)) {Pool : Type} (request_id : Pool -> option (Z * Pool)).
Hypothesis item_order_perm : forall m, Permutation (item_order m) (map_to_list m).
Hypothesis references_fit : forall id d, find_item id = Some d -> fits 32 (GameData.ref_id d) = true.
Hypothesis skills_fit : Forall (fun s => fits 32 s.(skill_ref_id) = true) skill_map.
Hypothesis times_fit : encodable no_args [] Time (VTime current_time) = true /\ encodable no_args [] UtcTime (VTime service_end) = true.
Hypothesis ids_fit : forall pool id pool', request_id pool = Some (id, pool') -> fits 32 id = true.

Lemma item_content_legal i v : loaded_item find_item i -> item_content i = Ok v ->
  encodable no_args [] InventoryItemContentData v = true.
Proof.
  intros (_ & Hv & Hd). unfold item_content.
  destruct (type_data i) as [u| |a|]; try discriminate; intros [= <-].
  - unfold equipment_content, InventoryItemContentData_equipment, InventoryItemBindingData_new.
    assert (fits 64 (default 0 (variance i)) = true) by (destruct (variance i); cbn; auto). legal_value.
  - unfold InventoryItemContentData_expendable. legal_value.
Qed.

Lemma inventory_items_legal l : forall vs,
  Forall (fun e => fits 8 e.1 = true /\ loaded_item find_item e.2) l -> inventory_items l = Ok vs ->
  length vs = length l /\ forallb (encodable no_args [] InventoryItemData) vs = true.
Proof.
  induction l as [|[s i] l IH]; intros vs Hl E; cbn [inventory_items] in E.
  - injection E as <-. split; reflexivity.
  - apply Forall_cons in Hl as [[Hs Hi] Hl]. cbn in Hs, Hi. destruct (item_content i) as [c| |] eqn:Ec; try discriminate.
    cbn [mbind outcome_bind] in E. destruct (inventory_items l) as [rest| |]; try discriminate. injection E as <-.
    destruct (IH rest Hl eq_refl) as [L F]. split; [cbn; congruence|]. cbn [forallb]. rewrite F, andb_true_r.
    pose proof (item_content_legal i c Hi Ec) as Hc. destruct Hi as ((id & Hid) & _ & _). pose proof (references_fit id _ Hid).
    unfold InventoryItemData_new. eapply encodable_struct. eapply encodable_fields_cons; [legal_value|].
    eapply encodable_fields_cons; [legal_value|]. eapply encodable_fields_cons; [legal_value|].
    eapply encodable_fields_cons; [|apply encodable_fields_nil]. eapply (encodable_no_when _ []); [reflexivity|exact Hc].
Qed.

(** What a row must hold for its texts to be sent. *)
Definition sendable (c : DbCharacter) : Prop :=
  encodable_string 1 c.(character_data).(charname) = true /\ (length c.(db_items) < 256)%nat.

Lemma numbers_legal {A} a env t (f : A -> val) l :
  a.(arg_when) = None -> String.eqb (list_type_or_default a) "length" = false ->
  Forall (fun x => encodable no_args [] t (f x) = true) l -> encodable a env (TVec t) (VSeq (map f l)) = true.
Proof.
  intros _ Ha H. cbn [encodable]. rewrite Ha. cbn [negb orb]. rewrite andb_true_r.
  apply forallb_forall. rewrite Forall_forall in H. intros v (x & <- & Hx)%in_map_iff. apply H, list_elem_of_In, Hx.
Qed.

Lemma known_skills_fit known : Forall (fun id => fits 32 id = true) (known_skills skill_map known).
Proof.
  apply Forall_forall. intros id Hid. apply list_elem_of_In in Hid. unfold known_skills in Hid.
  apply in_flat_map in Hid as ([g l] & _ & Hid). apply in_map_iff in Hid as (s & <- & Hs). apply filter_In in Hs as [Hs _].
  rewrite Forall_forall in skills_fit. apply skills_fit, list_elem_of_In, Hs.
Qed.

Lemma inventory_list_legal rows inv vs : (length rows < 256)%nat ->
  from_db_inventory find_item rows 45 = Ok inv -> inventory_items (item_order inv.(items)) = Ok vs ->
  inv.(Inventory.size) = 45 /\ encodable no_args [] (TVec InventoryItemData) (VSeq vs) = true.
Proof.
  intros Hrows Hinv Hvs. unfold from_db_inventory, inventory_new in Hinv. cbn [Z.ltb Z.compare Pos.compare Pos.compare_cont mbind outcome_bind] in Hinv.
  destruct (load_rows_ok find_item rows _ _ Hinv) as (Es & Hi & Hlen).
  { intros s i H. cbn in H. rewrite lookup_empty in H. discriminate. }
  split; [exact Es|].
  assert (Hall : Forall (fun e => fits 8 e.1 = true /\ loaded_item find_item e.2) (item_order inv.(items))).
  { rewrite item_order_perm. apply Forall_forall. intros [s i] Hin. apply elem_of_map_to_list in Hin. exact (Hi s i Hin). }
  destruct (inventory_items_legal _ _ Hall Hvs) as [L F].
  cbn [encodable list_type_or_default size_or_1 no_args]. rewrite F. cbn [andb]. apply orb_true_iff. right. apply Z.ltb_lt.
  rewrite L, (Permutation_length (item_order_perm _)). cbn in Hlen. rewrite map_to_list_empty in Hlen. cbn in Hlen. cbn. lia.
Qed.

Lemma spawning_state_legal : encodable no_args [] EntityState spawning_state = true.
Proof. reflexivity. Qed.

Lemma spawn_legal e c most user unique :
  encodable_string 1 c.(character_data).(charname) = true -> fits 32 e.(Entities.ref_id) = true -> fits 32 e.(unique_id) = true ->
  fits 8 most = true -> e.(unique_id) = unique -> forall inv p, inv.(Inventory.size) = 45 -> forall vs, 
  encodable no_args [] (TVec InventoryItemData) (VSeq vs) = true -> inventory_items (item_order inv.(items)) = Ok vs ->
  exists l, send_spawn skill_map current_time service_end item_order e (stored_player user c) inv p most = Ok l /\ Forall deliverable l.
Proof.
  intros Hn He Hu Hm _ inv p Hs vs Hvs Ei. unfold send_spawn. rewrite Ei. cbn [mbind outcome_bind]. eexists. split; [reflexivity|].
  destruct times_fit as [Ht Hend].
  constructor; [eapply deliverable_intro; reflexivity|]. constructor; [|constructor; [eapply deliverable_intro; reflexivity|constructor]].
  eapply deliverable_intro; [reflexivity|]. rewrite Hs. unfold CharacterSpawn_new, stored_player, with_knowledge, from_db_data, from_db_character.
  cbn [player_character player_user char_id name scale Characters.level Characters.max_level Characters.exp Characters.sp
    Characters.sp_exp Characters.gold Characters.stat_points berserk_points current_hp current_mp beginner_mark gm
    Characters.masteries Characters.skills].
  pose proof (as_protocol_legal p) as Hp. pose proof spawning_state_legal as Hstate.
  pose proof (heading_into_fits 16 (rotation p) ltac:(lia)) as Hh.
  eapply encodable_struct.
  repeat (eapply encodable_fields_cons;
    [first [ legal_num | reflexivity
           | eapply (encodable_no_when _ []); [reflexivity|]; first [exact Ht | exact Hend | exact Hvs | exact Hp | exact Hstate | exact Hn]
           | idtac ]|]).
  3: apply encodable_fields_nil.
  all: apply numbers_legal; [reflexivity|reflexivity|].
  - apply Forall_map, Forall_true. intros [k l]. cbv beta iota. legal_value.
  - eapply Forall_impl; [apply known_skills_fit|]. intros k Hk. cbv beta. legal_value.
Qed.

(** The items of a character can be loaded and shown. *)
Definition presentable (c : DbCharacter) : Prop :=
  Forall (fun r => exists i, item_of_row find_item r.2 = Ok i /\ i.(type_data) <> COS) c.(db_items).

Lemma presentable_loads rows : forall inv,
  Forall (fun r : ItemRow => exists i, item_of_row find_item r.2 = Ok i /\ i.(type_data) <> COS) rows ->
  (forall s i, inv.(items) !! s = Some i -> i.(type_data) <> COS) ->
  exists inv', load_rows find_item rows inv = Ok inv' /\ (forall s i, inv'.(items) !! s = Some i -> i.(type_data) <> COS).
Proof.
  induction rows as [|[s r] rows IH]; intros inv Hr Hi; [exists inv; auto|].
  apply Forall_cons in Hr as [(i & Ei & Hc) Hr]. cbn [load_rows]. cbn in Ei. rewrite Ei. cbn [mbind outcome_bind].
  apply IH; [exact Hr|]. intros s' i'. cbn. intros [[<- <-]|[_ Hs]]%lookup_insert_Some; [exact Hc|exact (Hi _ _ Hs)].
Qed.

Lemma items_presented l : Forall (fun e => loaded_item find_item e.2 /\ e.2.(type_data) <> COS) l ->
  exists vs, inventory_items l = Ok vs.
Proof.
  induction 1 as [|[s i] l [(_ & _ & Hi) Hc] _ [vs IH]]; [exists []; reflexivity|]. cbn in Hi, Hc.
  cbn [inventory_items]. unfold item_content. destruct (type_data i); try contradiction; cbn [mbind outcome_bind]; rewrite IH; cbn; eauto.
Qed.

Lemma presentable_inventory c : presentable c -> exists inv vs,
  from_db_inventory find_item c.(db_items) 45 = Ok inv /\ inventory_items (item_order inv.(items)) = Ok vs.
Proof.
  intros H. destruct (presentable_loads _ {| Inventory.size := 45; items := ∅; changes := [] |} H) as (inv & E & Hc).
  { intros s i Hs. cbn in Hs. rewrite lookup_empty in Hs. discriminate. }
  exists inv. destruct (load_rows_ok find_item _ _ _ E) as (_ & Hi & _).
  { intros s i Hs. cbn in Hs. rewrite lookup_empty in Hs. discriminate. }
  destruct (items_presented (item_order inv.(items))) as [vs Hvs].
  { rewrite item_order_perm. apply Forall_forall. intros [s i] Hin. apply elem_of_map_to_list in Hin.
    split; [apply (Hi s i Hin)|apply (Hc s i Hin)]. }
  exists vs. split; [exact E|exact Hvs].
Qed.

Lemma refusal_legal e : e ∈ ["ReachedCapacity"; "FailedToJoinWorld"; "InvalidName"]%string -> Forall deliverable [join_error e].
Proof.
  intros H. constructor; [|constructor]. apply list_elem_of_In in H.
  destruct H as [<-|[<-|[<-|[]]]]; (eapply deliverable_intro; reflexivity).
Qed.

#[local] Abbreviation joins :=
  (handle_join find_item character_map skill_map powi current_time service_end item_order request_id).

(** *** What is shown *)

(** The value of a field of a structure, by its name. *)
Fixpoint field_in (fs : fields) (n : string) (vs : list val) : option val :=
  match fs, vs with
  | Field m _ _ fs, v :: vs => if String.eqb m n then Some v else field_in fs n vs
  | _, _ => None
  end.
Definition field (t : ty) (n : string) (v : val) : option val :=
  match t, v with TStruct _ fs, VStruct vs => field_in fs n vs | _, _ => None end.

(** An item of the inventory in the packet. *)
Definition item_shown (e : Z * Item) (v : val) : Prop :=
  field InventoryItemData "slot" v = Some (VNum e.1)
  /\ field InventoryItemData "item_id" v = Some (VNum (GameData.ref_id e.2.(reference)))
  /\ match e.2.(type_data) with
     | Equipment u => exists rest, field InventoryItemData "content_data" v
         = Some (VEnum "Equipment" (VNum u :: VNum (default 0 e.2.(variance)) :: rest))
     | Consumable a => field InventoryItemData "content_data" v = Some (VEnum "Expendable" [VNum a])
     | _ => False
     end.

(** The packet that shows a stored character to its client. *)
Record character_shown (user : ServerUser) (c : DbCharacter) (most id : Z) (i : Inventory) (v : val) : Prop := {
  shown_numbers : forall n z, (n, z) ∈
    [("unique_id"%string, id); ("ref_id"%string, u32 c.(character_data).(character_type)); ("scale"%string, u8 c.(character_data).(db_scale));
     ("level"%string, u8 c.(character_data).(db_level)); ("max_level"%string, u8 c.(character_data).(db_max_level));
     ("exp"%string, u64 c.(character_data).(db_exp)); ("sp_exp"%string, u32 c.(character_data).(db_sp_exp));
     ("sp"%string, u32 c.(character_data).(db_sp)); ("gold"%string, u64 c.(character_data).(db_gold));
     ("stat_points"%string, u16 c.(character_data).(db_stat_points)); ("hp"%string, u32 c.(character_data).(db_current_hp));
     ("mp"%string, u32 c.(character_data).(db_current_mp)); ("berserk_points"%string, u8 c.(character_data).(db_berserk_points));
     ("angle"%string, heading_into_u16 (stored_position c.(character_data)).(rotation));
     ("server_max_level"%string, most); ("inventory_size"%string, 45); ("jid"%string, u32 user.(Population.id))] ->
    field CharacterSpawn n v = Some (VNum z);
  shown_name : field CharacterSpawn "character_name" v = Some (VStr c.(character_data).(charname));
  shown_position : field CharacterSpawn "position" v = Some (as_protocol (stored_position c.(character_data)));
  shown_gm : field CharacterSpawn "gm" v = Some (VBool c.(character_data).(db_gm));
  shown_beginner : field CharacterSpawn "beginner" v = Some (VBool c.(character_data).(db_beginner_mark));
  shown_masteries : field CharacterSpawn "masteries" v
    = Some (VSeq (map (fun '(k, l) => VStruct [VNum (u32 k); VNum (u8 l)]) c.(db_masteries)));
  shown_items : exists vs, field CharacterSpawn "inventory_items" v = Some (VSeq vs)
    /\ Forall2 item_shown (item_order i.(items)) vs;
  shown_skills : exists ids, field CharacterSpawn "skills" v
      = Some (VSeq (map (fun k => VStruct [VNum k; VBool true]) ids))
    /\ forall k, k ∈ ids <-> exists s g l, s ∈ skill_map /\ (g, l) ∈ c.(db_skills)
         /\ s.(skill_ref_id) = k /\ s.(SkillData.group) = u32 g /\ s.(skill_level) <= u8 l;
}.

Lemma inventory_items_shown l : forall vs, inventory_items l = Ok vs -> Forall2 item_shown l vs.
Proof.
  induction l as [|[s i] l IH]; intros vs E; cbn [inventory_items] in E; [injection E as <-; constructor|].
  destruct (item_content i) as [v| |] eqn:Ec; try discriminate. cbn [mbind outcome_bind] in E.
  destruct (inventory_items l) as [rest| |]; try discriminate. injection E as <-. constructor; [|apply IH; reflexivity].
  unfold item_content in Ec. unfold item_shown. cbn [fst snd]. destruct (type_data i); try discriminate; injection Ec as <-.
  all: split; [reflexivity|]; split; [reflexivity|]; try reflexivity; eexists; reflexivity.
Qed.

Lemma known_skills_spec known k : k ∈ known_skills skill_map known <->
  exists s g l, s ∈ skill_map /\ (g, l) ∈ known /\ s.(skill_ref_id) = k /\ s.(SkillData.group) = g /\ s.(skill_level) <= l.
Proof.
  unfold known_skills. rewrite list_elem_of_In, in_flat_map. split.
  - intros ([g l] & Hk & Hs). apply in_map_iff in Hs as (s & <- & Hs). apply filter_In in Hs as [Hs Hg].
    apply andb_true_iff in Hg as [Hg%Z.eqb_eq Hl%Z.leb_le]. exists s, g, l. rewrite !list_elem_of_In. auto.
  - intros (s & g & l & Hs & Hk & <- & <- & Hl). exists (s.(SkillData.group), l). apply list_elem_of_In in Hs, Hk. split; [exact Hk|].
    apply in_map, filter_In. split; [exact Hs|]. rewrite Z.eqb_refl. apply Z.leb_le, Hl.
Qed.

(** The appearance of a character is its packet between the two that start and
    end it. *)
Lemma spawn_shows c most user id inv vs : inv.(Inventory.size) = 45 -> inventory_items (item_order inv.(items)) = Ok vs ->
  exists v, send_spawn skill_map current_time service_end item_order
      {| unique_id := id; Entities.ref_id := u32 c.(character_data).(character_type) |} (stored_player user c) inv
      (stored_position c.(character_data)) most
    = Ok [("CharacterSpawnStart"%string, VStruct []); ("CharacterSpawn"%string, v); ("CharacterSpawnEnd"%string, VStruct [])]
    /\ character_shown user c most id inv v.
Proof.
  intros Hs Ei. unfold send_spawn. rewrite Ei. cbn [mbind outcome_bind]. eexists. split; [reflexivity|]. rewrite Hs. split; try reflexivity.
  - intros n z Hn. apply list_elem_of_In in Hn.
    repeat (destruct Hn as [[= <- <-]|Hn]; [reflexivity|]). destruct Hn.
  - unfold field, field_in, CharacterSpawn_new. cbn. f_equal. f_equal. unfold stored_player, with_knowledge. cbn. rewrite map_map.
    apply map_ext. intros [k l]. reflexivity.
  - exists vs. split; [reflexivity|]. exact (inventory_items_shown _ _ Ei).
  - eexists. split; [reflexivity|]. intros k. rewrite known_skills_spec. unfold stored_player, with_knowledge.
    cbn [player_character Characters.skills]. split.
    + intros (s & g & l & H1 & H2 & H3). apply list_elem_of_In, in_map_iff in H2 as ([g' l'] & [= <- <-] & H2).
      exists s, g', l'. apply list_elem_of_In in H2. auto.
    + intros (s & g & l & H1 & H2 & H3). exists s, (u32 g), (u8 l). split; [exact H1|]. split; [|exact H3].
      apply list_elem_of_In, in_map_iff. exists (g, l). apply list_elem_of_In in H2. auto.
Qed.

(** What is made of the character that joins. *)
Record player_of (user : ServerUser) (c : DbCharacter) (id : Z) (b : PlayerBundle) : Prop := {
  player_entity : b.(b_game_entity) = {| unique_id := id; Entities.ref_id := u32 c.(character_data).(character_type) |};
  player_is_user : b.(b_player).(player_user) = user;
  player_name : b.(b_player).(player_character).(name) = c.(character_data).(charname);
  player_id : b.(b_player).(player_character).(char_id) = u32 c.(character_data).(data_id);
  player_inventory : from_db_inventory find_item c.(db_items) 45 = Ok b.(b_inventory);
  player_gold : b.(b_gold).(Progress.gold) = u64 c.(character_data).(db_gold);
  player_level : b.(b_level).(Progress.level) = u8 c.(character_data).(db_level);
  player_position : b.(b_pos) = stored_position c.(character_data);
}.


End Legal.

(** ** The day *)

(** [test_moon_increase], [test_time_convert] and [test_accurate] *)
Example moon_increase : forall m, moon (advance (from_secs 5) (daylight_new m (from_secs 5))) = u16 (m + 1).
Proof. reflexivity. Qed.

Example time_convert :
  let d0 := daylight_new 7 (from_secs 1440) in
  let d1 := advance (from_secs 60) d0 in
  let d2 := advance (from_secs 60) d1 in
  let d3 := advance (from_secs 30) d2 in
  let d4 := advance (from_secs 30) d3 in
  map time_of_day [d0; d1; d2; d3; d4] = [(0, 0); (1, 0); (2, 0); (2, 30); (3, 0)].
Proof. vm_compute. reflexivity. Qed.

Example accurate :
  let d1 := advance (from_secs 1042) (official 7) in
  let d2 := advance (from_secs 292) d1 in
  get_official_per_day_duration = 1745454545455 /\ time_of_day d1 = (14, 19) /\ time_of_day d2 = (18, 20).
Proof. vm_compute. repeat split. Qed.

(** ** What joining departs from *)

Section Departures.
Context (find_item : Z -> option GameData.RefItemData) (character_map : list RefCharacterData).
Context (skill_map : list RefSkillData) (powi : f32 -> Z -> f32) (current_time service_end : datetime).
Context (item_order : gmap Z Item -> list (Z * Item)) {Pool : Type} (request_id : Pool -> option (Z * Pool)).
#[local] Abbreviation joins :=
  (handle_join find_item character_map skill_map powi current_time service_end item_order request_id).

(** A name that is not listed is unwrapped. *)
Lemma unlisted_join_panics most n cs user pool :
  (forall c, c ∈ cs -> c.(character_data).(charname) <> n) -> joins most (Some n) (Some cs) user pool = Panic.
Proof.
  intros H. unfold handle_join. destruct (List.find _ cs) as [c|] eqn:E; [|reflexivity].
  apply find_some in E as [Hin Hn]. apply bool_decide_eq_true in Hn. apply list_elem_of_In in Hin. destruct (H c Hin Hn).
Qed.

(** A character that was created with an identifier that is no item cannot join
    without stopping the server; the identifiers of a request are not checked. *)
Lemma forged_item_panics most user pool n ref chest pants boots weapon id sv ref_character :
  find_item (u32 (i32 chest)) = None -> find_id character_map (u32 (i32 ref)) = Some ref_character ->
  let c := create_character_from id sv n ref 34 chest pants boots weapon in
  joins most (Some n) (Some [c]) user pool = Panic.
Proof.
  intros Hi Hc c. unfold handle_join. cbn [List.find character_data charname c create_character_from].
  rewrite bool_decide_true by reflexivity. subst c. cbn [create_character_from character_data charname character_type deletion_end db_items].
  rewrite Hc. unfold from_db_inventory, inventory_new, starting_item. cbn [Z.ltb Z.compare Pos.compare Pos.compare_cont mbind outcome_bind load_rows].
  unfold item_of_row. cbn [item_obj_id]. rewrite Hi. reflexivity.
Qed.

(** Pets in the inventory have no representation. *)
Lemma pet_panics slot i l : i.(type_data) = COS -> inventory_items ((slot, i) :: l) = Panic.
Proof. intros H. cbn [inventory_items]. unfold item_content. rewrite H. reflexivity. Qed.
End Departures.

(** A client that asks for the identity and is gone stops the server. *)
Lemma identity_unwrapped i v : login_packet_input false ("IdentityInformation"%string, v) i = Panic.
Proof. reflexivity. Qed.

(** Of the requests of one kind only the last one of a tick is kept, stats,
    chat and the requests of the list apart. *)
Lemma last_movement_kept client_timeout now closed last_action i a b :
  let '(e, _, _) := receive_game_inputs client_timeout now
    [("PlayerMovementRequest"%string, VStruct [a]); ("PlayerMovementRequest"%string, VStruct [b])] closed last_action i in
  e.(game_input).(movement_input) = Some b.
Proof. reflexivity. Qed.

(** ** A join *)

#[local] Definition some_character : DbCharacter :=
  {| character_data :=
       {| data_id := 1; user_id := 1; server_id := 3; charname := chars "ann"; db_race := DbChinese; character_type := 1907;
          db_scale := 34; db_level := 5; db_max_level := 5; db_exp := 40; db_sp := 10; db_sp_exp := 20; strength := 24;
          intelligence := 24; db_stat_points := 12; db_current_hp := 200; db_current_mp := 200; deletion_end := None;
          pos_x := f32_of_Z 100; pos_y := f32_of_Z 0; pos_z := f32_of_Z 100; db_rotation := 0; db_region := 24998;
          db_berserk_points := 0; db_gold := 900; db_beginner_mark := true; db_gm := false; last_logout := None |};
     db_items := [(20, row_of (potions 5)); (6, row_of a_sword)]; db_masteries := [(257, 3)]; db_skills := [(7, 1)] |}.

#[local] Definition items_by_id (n : Z) : option GameData.RefItemData :=
  if n =? 1 then Some potion else if n =? 2 then Some sword else None.
#[local] Definition service_time : datetime :=
  {| year := 2000; month := 1; day := 1; hour := 0; minute := 0; second := 0; timestamp_millis := 0 |}.
#[local] Definition ann_user : ServerUser :=
  {| Population.id := 1; Population.username := chars "ann"; Population.job := 0; premium_type := 0; premium_end := None |}.
#[local] Definition next_id_of (n : Z) : option (Z * Z) := if (0 <=? n) && (n <? 100) then Some (n, n + 1) else None.

#[local] Definition chinese : RefCharacterData :=
  {| character_common := {| common_ref_id := 1907; common_id := []; type_id := MkTypeId 1 1 0 0;
                            GameData.country := GameData.Chinese; despawn_time := 0 |};
     rarity := {| party := false; Definitions.kind := Rarity_Normal |}; GameData.level := 1; GameData.exp := 0; hp := 0; walk_speed := 16;
     run_speed := 50; GameData.berserk_speed := 100; base_range := 0; pickup_range := None; aggressive := false; GameData.skills := [] |}.

