(* ===== verification/Spawning.v ===== *)
(** What appears in the world: agent/src/world/spawning.rs with comp/spawner.rs,
    monster.rs and npc.rs, the uniques (game/unique.rs), monsters on request
    (game/spawn.rs), drops (game/drop.rs) and the gold of monsters
    (game/gold.rs).

    Random numbers are arguments; a range that is empty panics where the code
    draws from it. The commands that spawn and despawn are applied after the
    system that gives them. *)
From stdpp Require Import base list option strings gmap.
From Stdlib Require Import ZArith Lia Floats.SpecFloat.
From S2P Require Import Prelude Utf Text F32 Definitions TypeIdEnums TypeId GameData Serde Schema ProtoWorld Packets.
From S2P Require Import Inventory Progress Position Entities Visibility Movement AgentStates Combat Join.

(** Timers that repeat, next to the ones that run once. *)
Class Repeats := {
  Repeating : Type;
  repeating : Z -> Repeating;
  repeat_tick : Z -> Repeating -> Repeating;
  repeat_finished : Repeating -> bool
}.

(** [gen_range] of an inclusive range of which the number was drawn. *)
Definition gen_range_inclusive (low high drawn : Z) : outcome unit Z := if low <=? high then Ok drawn else Panic.

(** ** comp/monster.rs *)

Inductive SpawnedBy :=
| BySpawner (e : Entity)
| ByPlayer (e : Entity)
| ByMonster (e : Entity)
| ByNone.

(** The components of a monster, the ones that are empty at first apart; its AI
    is the center and radius of its strolls and their interval. *)
Record MonsterBundle := {
  mb_rarity : EntityRarity;
  mb_health : Health;
  mb_position : Position;
  mb_entity : GameEntity;
  mb_visibility : Visibility;
  mb_spawner : SpawnedBy;
  mb_agent : Agent;
  mb_speed : MovementSpeed;
  mb_damage_receiver : DamageReceiver;
  mb_ai : option (RandomStroll * Z);
}.

#[export] Instance EntityRarityType_eqdec : EqDecision EntityRarityType.
Proof. solve_decision. Defined.

(** [impl From<EntityRarityType> for EntityRarity], [impl PartialEq<EntityRarityType>]. *)
Definition rarity_of (k : EntityRarityType) : EntityRarity := {| party := false; Definitions.kind := k |}.

Definition of_rarity (r : EntityRarity) (k : EntityRarityType) : bool := bool_decide (r.(Definitions.kind) = k).

(** [spawn_monster] *)
Definition spawn_monster (spawner : Entity) (reference : RefCharacterData) (unique : Z) (target_location : Position) : MonsterBundle :=
  {| mb_rarity := rarity_of Rarity_Normal; mb_health := health_new reference.(hp); mb_position := target_location;
     mb_entity := {| unique_id := unique; Entities.ref_id := GameData.ref_id reference |};
     mb_visibility := with_radius (f32_of_Z 100); mb_spawner := BySpawner spawner; mb_agent := agent_default;
     mb_speed := Walking; mb_damage_receiver := damage_receiver_default;
     mb_ai := Some ({| origin := to_location target_location.(location); radius := f32_of_Z 100 |}, from_secs 2) |}.

Section Spawning.
Context `{!Repeats}.

(** ** comp/spawner.rs *)

Record Spawner := {
  active : bool;
  spawn_radius : f32;
  reference : RefCharacterData;
  target_amount : Z;
  current_amount : Z;
  spawn_check_timer : Repeating;
}.

Record SpawnOptions := { option_radius : f32; option_amount : Z }.

Definition spawner_new (settings : SpawnOptions) (spawned : RefCharacterData) : Spawner :=
  {| active := false; spawn_radius := settings.(option_radius); reference := spawned;
     target_amount := settings.(option_amount); current_amount := 0; spawn_check_timer := repeating (from_secs 1) |}.

Definition with_amount (active : bool) (amount : Z) (s : Spawner) : Spawner :=
  {| active := active; spawn_radius := s.(spawn_radius); reference := s.(reference); target_amount := s.(target_amount);
     current_amount := amount; spawn_check_timer := s.(spawn_check_timer) |}.
Definition with_timer (t : Repeating) (s : Spawner) : Spawner :=
  {| active := s.(active); spawn_radius := s.(spawn_radius); reference := s.(reference); target_amount := s.(target_amount);
     current_amount := s.(current_amount); spawn_check_timer := t |}.

Definition deactivate (s : Spawner) : Spawner := with_amount false 0 s.
Definition has_spots_available (s : Spawner) : bool := s.(current_amount) <? s.(target_amount).
Definition available_spots (s : Spawner) : Z := u64 (s.(target_amount) - s.(current_amount)).

(** The timer ticks where spots are available; [draw] is the random number. *)
Definition should_spawn (delta : Z) (draw : f32) (s : Spawner) : bool * Spawner :=
  if has_spots_available s then
    let t := repeat_tick delta s.(spawn_check_timer) in
    ((if repeat_finished t then fltb (f32_of_decimal false 5 (-1)) draw else false), with_timer t s)
  else (false, s).

Definition increase_alive_by (amount : Z) (s : Spawner) : Spawner :=
  with_amount s.(active) (sat_add 64 s.(current_amount) amount) s.
Definition decrease_alive_by (amount : Z) (s : Spawner) : Spawner :=
  with_amount s.(active) (sat_sub s.(current_amount) amount) s.
Definition decrease_alive : Spawner -> Spawner := decrease_alive_by 1.

(** ** world/spawning.rs *)

Context (mesh_for : Region -> option Heightmap) (sqrt sin cos : f32 -> f32) (pi : f32).
Context {Pool : Type} (request_id : Pool -> option (Z * Pool)).

Definition generate_position (source : Position) (radius r1 r2 : f32) : GlobalLocation :=
  random_in_radius sqrt sin cos pi (to_location source.(location)) radius r1 r2.

(** [to_position]: a location without a mesh is none; one without a height is
    not expected. *)
Definition to_position (l : GlobalLocation) (heading : Z) : outcome unit (option Position) :=
  let local := to_local_location l in
  match mesh_for local.(ll_region) with
  | None => Ok None
  | Some mesh =>
      h ← height_at_position mesh local.(ll_vec).(x2) local.(ll_vec).(y2);
      match h with
      | None => Panic
      | Some height => Ok (Some (position_new (with_y l height) (f32_of_Z heading)))
      end
  end.

(** The random numbers of one monster: for its position, and its heading. *)
Record PositionDraw := { draw_r : f32; draw_theta : f32; draw_heading : Z }.

(** [spawn_n_monsters]: the monsters, one for each location with a mesh; the
    number that is returned is the number asked for. *)
Fixpoint spawn_n_monsters (entity : Entity) (s : Spawner) (position : Position) (draws : list PositionDraw) (pool : Pool)
    : outcome unit (list MonsterBundle * Pool) :=
  match draws with
  | [] => Ok ([], pool)
  | d :: draws =>
      found ← to_position (generate_position position s.(spawn_radius) d.(draw_r) d.(draw_theta)) d.(draw_heading);
      match found with
      | None => spawn_n_monsters entity s position draws pool
      | Some pos =>
          match request_id pool with
          | None => Panic
          | Some (id, pool) =>
              rest ← spawn_n_monsters entity s position draws pool;
              Ok (spawn_monster entity s.(reference) id pos :: rest.1, rest.2)
          end
      end
  end.

Definition activate_spawner (entity : Entity) (s : Spawner) (position : Position) (draws : list PositionDraw) (pool : Pool)
    : outcome unit (Spawner * list MonsterBundle * Pool) :=
  spawned ← spawn_n_monsters entity s position draws pool;
  Ok (with_amount true (increase_alive_by s.(target_amount) s).(current_amount) s, spawned.1, spawned.2).

(** The monsters of a spawner. *)
Definition spawned_by (entity : Entity) (monsters : list (Entity * SpawnedBy)) : list Entity :=
  map fst (List.filter (fun m => match m.2 with BySpawner e => e =? entity | _ => false end) monsters).

(** The random numbers of a spawner in a tick: whether it spawns, how many, and
    the positions. *)
Record SpawnDraws := { draw_spawn : f32; draw_amount : Z; draw_positions : nat -> PositionDraw }.

Definition take_draws (n : Z) (d : SpawnDraws) : list PositionDraw := map d.(draw_positions) (seq 0 (Z.to_nat n)).

(** One spawner: it after the system, the monsters that are spawned and the
    entities that are despawned. *)
Definition spawner_tick (delta : Z) (should_be_active : bool) (monsters : list (Entity * SpawnedBy)) (d : SpawnDraws)
    (entity : Entity) (s : Spawner) (position : Position) (pool : Pool)
    : outcome unit (Spawner * list MonsterBundle * list Entity * Pool) :=
  if negb s.(active) && should_be_active then
    r ← activate_spawner entity s position (take_draws s.(target_amount) d) pool;
    let '(s, spawned, pool) := r in
    Ok (s, spawned, [], pool)
  else if s.(active) then
    if negb should_be_active then Ok (deactivate s, [], spawned_by entity monsters, pool)
    else
      let '(spawns, s) := should_spawn delta d.(draw_spawn) s in
      if spawns then
        let max_spawn := Z.min (available_spots s) 3 in
        to_spawn ← gen_range_inclusive 1 max_spawn d.(draw_amount);
        spawned ← spawn_n_monsters entity s position (take_draws to_spawn d) pool;
        Ok (increase_alive_by to_spawn s, spawned.1, [], spawned.2)
      else Ok (s, [], [], pool)
  else Ok (s, [], [], pool).

(** [spawn_monsters]: the spawners in the order of the query. *)
Fixpoint spawn_monsters (delta : Z) (active_regions : list Region) (monsters : list (Entity * SpawnedBy))
    (draws : Entity -> SpawnDraws) (spawners : list (Entity * (Spawner * Position))) (pool : Pool)
    : outcome unit (list (Entity * (Spawner * Position)) * list MonsterBundle * list Entity * Pool) :=
  match spawners with
  | [] => Ok ([], [], [], pool)
  | (entity, (s, position)) :: spawners =>
      let should_be_active := bool_decide (position_region position.(location) ∈ flat_map with_grid_neighbours active_regions) in
      first ← spawner_tick delta should_be_active monsters (draws entity) entity s position pool;
      let '(s, spawned, despawned, pool) := first in
      rest ← spawn_monsters delta active_regions monsters draws spawners pool;
      let '(spawners, more, less, pool) := rest in
      Ok ((entity, (s, position)) :: spawners, spawned ++ more, despawned ++ less, pool)
  end.

(** [collect_monster_deaths]: by whom the monsters that died were spawned. *)
Definition collect_monster_deaths (died : list SpawnedBy) (spawners : list (Entity * (Spawner * Position)))
    : list (Entity * (Spawner * Position)) :=
  fold_left (fun spawners by_ =>
    match by_ with
    | BySpawner e => map (fun '(entity, (s, p)) => (entity, ((if entity =? e then decrease_alive s else s), p))) spawners
    | _ => spawners
    end) died spawners.

(** *** [spawn_npcs] *)

(** comp/npc.rs *)
Record NpcBundle := { npc_entity : GameEntity; npc_agent : Agent; npc_position : Position }.

Definition npc_new (unique : Z) (ref : Z) (position : LocalPosition) (agent : Agent) : NpcBundle :=
  {| npc_entity := {| unique_id := unique; Entities.ref_id := ref |}; npc_agent := agent;
     npc_position := position_new (to_global position) (f32_of_Z 0) |}.

Fixpoint spawn_npcs (character_map : list RefCharacterData) (settings : SpawnOptions) (spawns : list NpcPosition) (pool : Pool)
    : outcome unit (list NpcBundle * list (Spawner * Position) * Pool) :=
  match spawns with
  | [] => Ok ([], [], pool)
  | p :: spawns =>
      match find_id character_map p.(npc_id) with
      | None => Panic
      | Some data =>
          match from_type_id data.(character_common).(type_id) with
          | None => Panic
          | Some (Type_Entity (Entity_NonPlayer (NonPlayer_NPC _))) =>
              match request_id pool with
              | None => Panic
              | Some (id, pool) =>
                  rest ← spawn_npcs character_map settings spawns pool;
                  let '(npcs, spawners, pool) := rest in
                  Ok (npc_new id p.(npc_id) (npc_location p) (from_character_data data) :: npcs, spawners, pool)
              end
          | Some (Type_Entity (Entity_NonPlayer (NonPlayer_Monster ObjectMonster_General))) =>
              rest ← spawn_npcs character_map settings spawns pool;
              let '(npcs, spawners, pool) := rest in
              Ok (npcs,
                  (if of_rarity data.(rarity) Rarity_Normal
                   then [(spawner_new settings data, position_new (to_global (npc_location p)) (f32_of_Z 0))] else [])
                  ++ spawners, pool)
          | Some _ => spawn_npcs character_map settings spawns pool
          end
      end
  end.
End Spawning.

(** ** game/spawn.rs *)

Record SpawnMonster := {
  spawn_ref_id : Z;
  spawn_location : GlobalLocation;
  spawn_spawner : option SpawnedBy;
  spawn_with_ai : bool;
}.

Section Requested.
Context (mesh_for : Region -> option Heightmap) (character_map : list RefCharacterData).
Context {Pool : Type} (request_id : Pool -> option (Z * Pool)).

(** One event of [do_spawn_mobs], with the random heading. *)
Definition do_spawn_mob (e : SpawnMonster) (heading : f32) (pool : Pool) : outcome unit (MonsterBundle * Pool) :=
  match find_id character_map e.(spawn_ref_id) with
  | None => Panic
  | Some character_def =>
      match request_id pool with
      | None => Panic
      | Some (id, pool) =>
          h ← height_for mesh_for e.(spawn_location);
          let position := with_y e.(spawn_location) (default (f32_of_Z 0) h) in
          Ok ({| mb_rarity := character_def.(rarity); mb_health := health_new character_def.(hp);
                 mb_position := position_new position heading;
                 mb_entity := {| unique_id := id; Entities.ref_id := e.(spawn_ref_id) |};
                 mb_visibility := with_radius (f32_of_Z 100); mb_spawner := default ByNone e.(spawn_spawner);
                 mb_agent := from_character_data character_def; mb_speed := Walking;
                 mb_damage_receiver := damage_receiver_default;
                 mb_ai := if e.(spawn_with_ai)
                          then Some ({| origin := to_location position; radius := f32_of_Z 100 |}, from_secs 1) else None |}, pool)
      end
  end.

Fixpoint do_spawn_mobs (es : list (SpawnMonster * f32)) (pool : Pool) : outcome unit (list MonsterBundle * Pool) :=
  match es with
  | [] => Ok ([], pool)
  | (e, heading) :: es =>
      first ← do_spawn_mob e heading pool;
      rest ← do_spawn_mobs es first.2;
      Ok (first.1 :: rest.1, rest.2)
  end.

(** ** game/drop.rs *)

Record SpawnDrop := { dropped : Item; relative_position : GlobalLocation; drop_owner : option EntityReference }.

(** comp/drop.rs; the timer after which it despawns is given by its length in
    nanoseconds. *)
Record DropBundle := { db_drop : Drop; db_position : Position; db_game_entity : GameEntity; db_despawn : Z }.

Context (sqrt sin cos : f32 -> f32) (pi : f32).

Definition random_position_around (origin : GlobalLocation) (radius r1 r2 : f32) : outcome unit GlobalPosition :=
  let drop_position := random_in_radius sqrt sin cos pi origin radius r1 r2 in
  h ← height_for_location mesh_for (to_local_location drop_position);
  Ok (with_height drop_position (default (f32_of_Z 0) h)).

(** One event of [create_drops]. *)
Definition create_drop (e : SpawnDrop) (d : PositionDraw) (pool : Pool) : outcome unit (DropBundle * Pool) :=
  pos ← random_position_around e.(relative_position) (f32_of_Z 2) d.(draw_r) d.(draw_theta);
  match request_id pool with
  | None => Panic
  | Some (id, pool) =>
      Ok ({| db_drop := {| owner := e.(drop_owner); drop_item := e.(dropped) |};
             db_position := position_new pos (f32_of_Z d.(draw_heading));
             db_game_entity := {| unique_id := id; Entities.ref_id := GameData.ref_id e.(dropped).(Inventory.reference) |};
             db_despawn := from_millis e.(dropped).(Inventory.reference).(item_common).(despawn_time) |}, pool)
  end.

Fixpoint create_drops (es : list (SpawnDrop * PositionDraw)) (pool : Pool) : outcome unit (list DropBundle * Pool) :=
  match es with
  | [] => Ok ([], pool)
  | (e, d) :: es =>
      first ← create_drop e d pool;
      rest ← create_drops es first.2;
      Ok (first.1 :: rest.1, rest.2)
  end.

(** ** game/gold.rs *)

Context (find_item : Z -> option GameData.RefItemData) (gold_map : GoldMap).

(** [SMALL_GOLD_SIZE_MAX], [MEDIUM_GOLD_SIZE_MAX] *)
Definition gold_item (amount : Z) : outcome unit GameData.RefItemData :=
  match (if amount <? 1000 then find_item 1 else if amount <? 5000 then find_item 2 else find_item 3) with
  | Some d => Ok d
  | None => Panic
  end.

(** One event of [drop_gold]: [monster] is what is found of the one that died,
    [drawn] the random amount. *)
Definition drop_gold (monster : option (GameEntity * Position)) (killer : option EntityReference) (drawn : Z)
    : outcome unit (option SpawnDrop) :=
  match monster with
  | None => Ok None
  | Some (e, pos) =>
      match find_id character_map e.(Entities.ref_id) with
      | None => Ok None
      | Some data =>
          let '(low, high) := get_for_level gold_map data.(GameData.level) in
          amount ← gen_range_inclusive low high drawn;
          item ← gold_item amount;
          Ok (Some {| dropped := {| Inventory.reference := item; variance := None; type_data := Gold amount |};
                      relative_position := to_location pos.(location); drop_owner := killer |})
      end
  end.
End Requested.

(** ** game/unique.rs *)

Section Uniques.
Context `{!Timers}.

Record UniqueTimer := { unique_timer : Timer; unique_range : Z * Z; unique_ref : Z }.

(** [Timer::from_seconds(minutes as f32 * 60.0, TimerMode::Once)] *)
Definition minutes_timer (minutes : Z) : Timer := timer_once (from_secs_f64 (fmul (f32_of_Z minutes) (f32_of_Z 60))).

Definition create_timer_for (range : Z * Z) (ref_id drawn : Z) : outcome unit UniqueTimer :=
  time ← gen_range_inclusive range.1 range.2 drawn;
  Ok {| unique_timer := minutes_timer time; unique_range := range; unique_ref := ref_id |}.

(** The ranges of tiger woman, uruchi, isyutaru and bonelord. *)
Definition setup_unique_timers (tiger_woman uruchi isyutaru bonelord : Z * Z) (drawn : nat -> Z) : outcome unit (list UniqueTimer) :=
  a ← create_timer_for tiger_woman 1954 (drawn 0%nat);
  b ← create_timer_for uruchi 1982 (drawn 1%nat);
  c ← create_timer_for isyutaru 2002 (drawn 2%nat);
  d ← create_timer_for bonelord 3810 (drawn 3%nat);
  Ok [a; b; c; d].

(** [UniqueTimers::update]: the uniques to spawn, and the timers. *)
Fixpoint update_uniques (delta : Z) (drawn : list Z) (ts : list UniqueTimer) : outcome unit (list Z * list UniqueTimer) :=
  match ts with
  | [] => Ok ([], [])
  | t :: ts =>
      let timer := timer_tick delta t.(unique_timer) in
      if just_finished timer then
        time ← gen_range_inclusive t.(unique_range).1 t.(unique_range).2 (hd 0 drawn);
        rest ← update_uniques delta (tl drawn) ts;
        Ok (t.(unique_ref) :: rest.1,
            {| unique_timer := minutes_timer time; unique_range := t.(unique_range); unique_ref := t.(unique_ref) |} :: rest.2)
      else
        rest ← update_uniques delta drawn ts;
        Ok (rest.1, {| unique_timer := timer; unique_range := t.(unique_range); unique_ref := t.(unique_ref) |} :: rest.2)
  end.

(** ext.rs: [positions_of] *)
Definition positions_of (positions : list NpcPosition) (ref_id : Z) : list NpcPosition :=
  List.filter (fun p => p.(npc_id) =? ref_id) positions.

(** The requests of [update_timers]; [choose] picks one of the positions. *)
Definition unique_spawns (positions : list NpcPosition) (choose : list NpcPosition -> option NpcPosition) (refs : list Z)
    : list SpawnMonster :=
  flat_map (fun ref_id =>
    match choose (positions_of positions ref_id) with
    | None => []
    | Some p => [{| spawn_ref_id := ref_id; spawn_location := to_location (to_global (npc_location p));
                    spawn_spawner := None; spawn_with_ai := true |}]
    end) refs.

Definition update_timers (delta : Z) (drawn : list Z) (positions : list NpcPosition)
    (choose : list NpcPosition -> option NpcPosition) (ts : list UniqueTimer) : outcome unit (list SpawnMonster * list UniqueTimer) :=
  r ← update_uniques delta drawn ts;
  Ok (unique_spawns positions choose r.1, r.2).

(** What every client is told of the monsters that were added, and of kills. *)
Definition unique_spawned (added : list (GameEntity * EntityRarity)) (clients : list Entity) : list (Entity * packet) :=
  flat_map (fun '(e, r) =>
    if of_rarity r Rarity_Unique then
      map (fun c => (c, ("GameNotification"%string, GameNotification_uniquespawned (VNum e.(Entities.ref_id))))) clients
    else []) added.

Definition unique_killed (kills : list (list Z * GameEntity)) (clients : list Entity) : list (Entity * packet) :=
  flat_map (fun '(player, unique) =>
    map (fun c => (c, ("GameNotification"%string,
                       GameNotification_uniquekilled (VNum unique.(Entities.ref_id)) (VStr player)))) clients) kills.
End Uniques.
