(* ===== verification/SpawningSpec.v ===== *)
(** Spawners: how many monsters of a spawner live, whatever happens in the
    world; where the count is wrong; the timers of the uniques. *)
From stdpp Require Import base list option strings gmap.
From Stdlib Require Import ZArith Lia Floats.SpecFloat.
From S2P Require Import Prelude Utf Text F32 Definitions TypeIdEnums TypeId GameData Serde Schema Packets.
From S2P Require Import Inventory Progress Position Entities Visibility Movement AgentStates Combat Join Spawning.

(** ** The world of the spawners *)

(** A monster lives, has died and was not counted yet, or was counted. *)
Inductive life := Living | Dying | Counted.

Record Spawned := { sp_entity : Entity; sp_by : SpawnedBy; sp_life : life }.

Definition of_spawner (e : Entity) (m : Spawned) : bool := match m.(sp_by) with BySpawner x => x =? e | _ => false end.
Definition uncounted (m : Spawned) : bool := match m.(sp_life) with Counted => false | _ => true end.

(** The monsters of a spawner that count. *)
Definition alive_of (e : Entity) (ms : list Spawned) : nat := length (List.filter (fun m => of_spawner e m && uncounted m) ms).

Section World.
Context {Rep : Repeats} (mesh_for : Region -> option Heightmap) (sqrt sin cos : f32 -> f32) (pi : f32).
Context {Pool : Type} (request_id : Pool -> option (Z * Pool)).

Record World := { spawners : list (Entity * (Spawner * Position)); monsters : list Spawned; pool : Pool }.

(** What [gen_range] gives for a spawner that spawns. *)
Definition in_range (s : Spawner) (d : SpawnDraws) : Prop :=
  has_spots_available s = true -> 1 <= d.(draw_amount) <= Z.min (available_spots s) 3.

Definition references (ms : list Spawned) : list (Entity * SpawnedBy) := map (fun m => (m.(sp_entity), m.(sp_by))) ms.

(** New monsters get entities that no other one has. *)
Definition spawn_all (entities : list Entity) (bs : list MonsterBundle) : list Spawned :=
  zip_with (fun e b => {| sp_entity := e; sp_by := b.(mb_spawner); sp_life := Living |}) entities bs.

Definition despawn_all (gone : list Entity) (ms : list Spawned) : list Spawned :=
  List.filter (fun m => negb (bool_decide (m.(sp_entity) ∈ gone))) ms.

Definition set_life (which : Spawned -> bool) (l : life) (ms : list Spawned) : list Spawned :=
  map (fun m => if which m then {| sp_entity := m.(sp_entity); sp_by := m.(sp_by); sp_life := l |} else m) ms.

Definition dying (m : Spawned) : bool := match m.(sp_life) with Dying => true | _ => false end.
Definition living (m : Spawned) : bool := match m.(sp_life) with Living => true | _ => false end.

(** The systems, in any order and number: spawning, deaths, counting them, and
    the despawning of the dead. *)
Inductive step : World -> World -> Prop :=
| step_spawn w delta regions draws spawners' bs gone pool' entities :
    Forall (fun '(e, (s, _)) => in_range s (draws e)) w.(spawners) ->
    spawn_monsters mesh_for sqrt sin cos pi request_id delta regions (references w.(monsters)) draws w.(spawners) w.(pool)
      = Ok (spawners', bs, gone, pool') ->
    length entities = length bs -> NoDup (map sp_entity w.(monsters) ++ entities) ->
    step w {| spawners := spawners'; monsters := despawn_all gone w.(monsters) ++ spawn_all entities bs; pool := pool' |}
| step_die w which :
    step w {| spawners := w.(spawners); monsters := set_life (fun m => living m && which m) Dying w.(monsters); pool := w.(pool) |}
| step_count w :
    step w {| spawners := collect_monster_deaths (map sp_by (List.filter dying w.(monsters))) w.(spawners);
              monsters := set_life dying Counted w.(monsters); pool := w.(pool) |}
| step_despawn w which :
    step w {| spawners := w.(spawners);
              monsters := List.filter (fun m => uncounted m || which m) w.(monsters); pool := w.(pool) |}.

Inductive reachable : World -> Prop :=
| reachable_start w :
    NoDup (map fst w.(spawners)) -> w.(monsters) = [] ->
    Forall (fun '(_, (s, _)) => s.(active) = false /\ s.(current_amount) = 0 /\ fits 64 s.(target_amount) = true) w.(spawners) ->
    reachable w
| reachable_step w w' : reachable w -> step w w' -> reachable w'.

(** ** One spawner *)

(** A spawner that counts [n] monsters. *)
Definition counts (s : Spawner) (n : nat) : Prop :=
  Z.of_nat n <= s.(current_amount) <= s.(target_amount) /\ fits 64 s.(target_amount) = true
  /\ (s.(active) = false -> s.(current_amount) = 0)
  /\ ((forall r, is_Some (mesh_for r)) -> Z.of_nat n = s.(current_amount)).

Lemma spawn_n_ok e s p draws : forall q bs q',
  spawn_n_monsters mesh_for sqrt sin cos pi request_id e s p draws q = Ok (bs, q') ->
  Forall (fun b => b.(mb_spawner) = BySpawner e) bs /\ (length bs <= length draws)%nat
  /\ ((forall r, is_Some (mesh_for r)) -> length bs = length draws).
Proof.
  induction draws as [|d draws IH]; intros q bs q' H; cbn [spawn_n_monsters] in H.
  - injection H as <- <-. repeat split; [constructor|reflexivity].
  - destruct (to_position mesh_for _ _) as [[pos|]| |] eqn:Ep; try discriminate; cbn [mbind outcome_bind] in H.
    + destruct (request_id q) as [[id q1]|]; [|discriminate].
      destruct (spawn_n_monsters _ _ _ _ _ _ _ _ _ draws q1) as [[bs1 q2]| |] eqn:E; try discriminate.
      cbn in H. injection H as <- <-. destruct (IH q1 bs1 q2 E) as (H1 & H2 & H3).
      split; [constructor; [reflexivity|exact H1]|]. split; [cbn; lia|]. intros Hm. cbn. rewrite H3 by exact Hm. reflexivity.
    + destruct (IH q bs q' H) as (H1 & H2 & H3). split; [exact H1|]. split; [cbn; lia|].
      intros Hm. exfalso. unfold to_position in Ep. cbv zeta in Ep. destruct (mesh_for _) eqn:Em.
      * destruct (height_at_position _ _ _) as [[]| |]; discriminate.
      * destruct (Hm (ll_region (to_local_location (generate_position sqrt sin cos pi p (spawn_radius s) (draw_r d) (draw_theta d)))))
          as [m Hm']. congruence.
Qed.

Lemma take_draws_length n d : 0 <= n -> length (take_draws n d) = Z.to_nat n.
Proof. intros. unfold take_draws. rewrite length_map, length_seq. reflexivity. Qed.

(** A tick deactivates a spawner and despawns all of its monsters, or spawns
    monsters that it counts. *)
Lemma spawner_tick_ok delta should ms d e s p q s' bs gone q' n :
  counts s n -> in_range s d ->
  spawner_tick mesh_for sqrt sin cos pi request_id delta should ms d e s p q = Ok (s', bs, gone, q') ->
  Forall (fun b => b.(mb_spawner) = BySpawner e) bs
  /\ ((gone = spawned_by e ms /\ bs = [] /\ counts s' 0) \/ (gone = [] /\ counts s' (n + length bs) /\ (s'.(active) = false -> s.(active) = false /\ bs = []))).
Proof.
  intros (Hn & Ht & Hi & Hc) Hr. unfold spawner_tick. pose proof Ht as Ht'. apply fits_spec in Ht'.
  destruct (active s) eqn:Ea; cbn [negb andb].
  - destruct should; cbn [negb].
    + unfold should_spawn. destruct (has_spots_available s) eqn:Eh; [|intros [= <- <- <- <-]; split; [constructor|]; right].
      2: { rewrite Nat.add_0_r. split; [reflexivity|]. split; [|congruence].
           split; [exact Hn|]. split; [exact Ht|]. split; [intros; congruence|exact Hc]. }
      specialize (Hr Eh). unfold has_spots_available in Eh. apply Z.ltb_lt in Eh.
      assert (Hav : available_spots s = target_amount s - current_amount s).
      { unfold available_spots. apply wrap_small, fits_spec. lia. }
      destruct (if repeat_finished _ then _ else _).
      * change (available_spots (with_timer _ s)) with (available_spots s). unfold gen_range_inclusive.
        rewrite (proj2 (Z.leb_le _ _)) by lia. cbn [mbind outcome_bind].
        destruct (spawn_n_monsters _ _ _ _ _ _ _ _ _ _ _) as [[bs1 q1]| |] eqn:E; try discriminate.
        cbn [mbind outcome_bind fst snd]. intros [= <- <- <- <-].
        destruct (spawn_n_ok _ _ _ _ _ _ _ E) as (H1 & H2 & H3). rewrite take_draws_length in H2, H3 by lia.
        split; [exact H1|]. right. split; [reflexivity|]. unfold counts, increase_alive_by, with_amount, with_timer, sat_add. cbn.
        split; [|congruence]. split; [lia|]. split; [exact Ht|]. split; [congruence|]. intros Hm. rewrite (H3 Hm). specialize (Hc Hm). lia.
      * intros [= <- <- <- <-]. split; [constructor|]. right. rewrite Nat.add_0_r. split; [reflexivity|].
        split; [|cbn; congruence]. split; [exact Hn|]. split; [exact Ht|]. split; [cbn; congruence|exact Hc].
    + intros [= <- <- <- <-]. split; [constructor|]. left. split; [reflexivity|]. split; [reflexivity|].
      unfold counts, deactivate, with_amount. cbn. repeat split; try lia. exact Ht.
  - specialize (Hi eq_refl). destruct should.
    + unfold activate_spawner. destruct (spawn_n_monsters _ _ _ _ _ _ _ _ _ _ _) as [[bs1 q1]| |] eqn:E; try discriminate.
      cbn [mbind outcome_bind fst snd]. intros [= <- <- <- <-].
      destruct (spawn_n_ok _ _ _ _ _ _ _ E) as (H1 & H2 & H3). rewrite take_draws_length in H2, H3 by lia.
      split; [exact H1|]. right. split; [reflexivity|]. unfold counts, increase_alive_by, with_amount, sat_add. cbn.
      rewrite Hi. split; [|discriminate]. split; [lia|]. split; [exact Ht|]. split; [discriminate|]. intros Hm. rewrite (H3 Hm). lia.
    + intros [= <- <- <- <-]. split; [constructor|]. right. rewrite Nat.add_0_r. split; [reflexivity|].
      split; [|auto]. split; [exact Hn|]. split; [exact Ht|]. split; [auto|exact Hc].
Qed.

(** ** All spawners *)

Definition spawned_of (e : Entity) (bs : list MonsterBundle) : list MonsterBundle :=
  List.filter (fun b => match b.(mb_spawner) with BySpawner x => x =? e | _ => false end) bs.

Lemma spawned_of_cons e b bs : spawned_of e (b :: bs)
  = if match b.(mb_spawner) with BySpawner x => x =? e | _ => false end then b :: spawned_of e bs else spawned_of e bs.
Proof. reflexivity. Qed.

Lemma spawned_of_own e bs : Forall (fun b => b.(mb_spawner) = BySpawner e) bs -> spawned_of e bs = bs.
Proof. induction 1 as [|b bs H _ IH]; [reflexivity|]. rewrite spawned_of_cons, H, Z.eqb_refl, IH. reflexivity. Qed.

Lemma spawned_of_other e x bs : x <> e -> Forall (fun b => b.(mb_spawner) = BySpawner x) bs -> spawned_of e bs = [].
Proof. intros Hx. induction 1 as [|b bs H _ IH]; [reflexivity|]. rewrite spawned_of_cons, H. destruct (Z.eqb_spec x e); [contradiction|exact IH]. Qed.

Lemma spawned_of_none e bs (keys : list Entity) : e ∉ keys -> Forall (fun b => exists x, x ∈ keys /\ b.(mb_spawner) = BySpawner x) bs -> spawned_of e bs = [].
Proof.
  intros He. induction 1 as [|b bs (x & Hx & H) _ IH]; [reflexivity|]. rewrite spawned_of_cons, H.
  destruct (Z.eqb_spec x e) as [->|]; [contradiction|exact IH].
Qed.

(** What a tick does to one of the spawners. *)
Definition ticked (ms : list (Entity * SpawnedBy)) (n : Entity -> nat) (deactivated : list Entity) (bs : list MonsterBundle)
    (e : Entity) (s s' : Spawner) : Prop :=
  ((e ∈ deactivated) /\ spawned_of e bs = [] /\ counts s' 0)
  \/ ((e ∉ deactivated) /\ counts s' (n e + length (spawned_of e bs))
      /\ (s'.(active) = false -> s.(active) = false /\ spawned_of e bs = [])).

Lemma spawn_monsters_ok delta regions ms draws n ss : forall q ss' bs gone q',
  NoDup (map fst ss) ->
  Forall (fun '(e, (s, _)) => counts s (n e) /\ in_range s (draws e)) ss ->
  spawn_monsters mesh_for sqrt sin cos pi request_id delta regions ms draws ss q = Ok (ss', bs, gone, q') ->
  exists deactivated,
    gone = flat_map (fun e => spawned_by e ms) deactivated /\ deactivated ⊆ map fst ss
    /\ Forall (fun b => exists x, x ∈ map fst ss /\ b.(mb_spawner) = BySpawner x) bs
    /\ Forall2 (fun a b => b.1 = a.1 /\ ticked ms n deactivated bs a.1 a.2.1 b.2.1) ss ss'.
Proof.
  induction ss as [|[e [s p]] ss IH]; intros q ss' bs gone q' Hnd Hss H; cbn [spawn_monsters] in H.
  - injection H as <- <- <- <-. exists []. split_and!; auto.
  - cbn in Hnd. apply NoDup_cons in Hnd as [Hnin Hnd]. apply Forall_cons in Hss as [[Hc Hr] Hss].
    destruct (spawner_tick _ _ _ _ _ _ _ _ _ _ _ _ _ _) as [[[[s1 bs1] gone1] q1]| |] eqn:E1; try discriminate.
    cbn [mbind outcome_bind] in H.
    destruct (spawn_monsters _ _ _ _ _ _ _ _ _ _ ss q1) as [[[[ss2 bs2] gone2] q2]| |] eqn:E2; try discriminate.
    cbn [mbind outcome_bind] in H. injection H as <- <- <- <-.
    destruct (IH q1 ss2 bs2 gone2 q2 Hnd Hss E2) as (de & Hg & Hde & Hbs & Hall).
    destruct (spawner_tick_ok _ _ _ _ _ _ _ _ _ _ _ _ _ Hc Hr E1) as (Hb1 & Hcase).
    assert (Hne : e ∉ de) by (intros Hin; apply Hnin, Hde, Hin).
    assert (Hof : spawned_of e (bs1 ++ bs2) = bs1).
    { unfold spawned_of. rewrite List.filter_app. fold (spawned_of e bs1) (spawned_of e bs2).
      rewrite (spawned_of_own e bs1 Hb1), (spawned_of_none e bs2 _ Hnin Hbs). apply app_nil_r. }
    assert (Hothers : forall x, x ∈ map fst ss -> spawned_of x (bs1 ++ bs2) = spawned_of x bs2).
    { intros x Hx. unfold spawned_of. rewrite List.filter_app. fold (spawned_of x bs1) (spawned_of x bs2).
      rewrite (spawned_of_other x e bs1); [reflexivity| |exact Hb1]. intros ->. contradiction. }
    assert (Hrest : forall de', (forall x, x ∈ map fst ss -> x ∈ de' <-> x ∈ de) ->
      Forall2 (fun a b => b.1 = a.1 /\ ticked ms n de' (bs1 ++ bs2) a.1 a.2.1 b.2.1) ss ss2).
    { intros de' Hde'. eapply Forall2_impl; [|intros a b Hab; exact Hab].
      apply Forall2_same_length_lookup_2; [eapply Forall2_length, Hall|]. intros i a b Ha Hb.
      destruct (Forall2_lookup_lr _ _ _ _ _ _ Hall Ha Hb) as [Eab Ht]. split; [exact Eab|].
      assert (Hin : a.1 ∈ map fst ss) by (apply list_elem_of_lookup; exists i; apply list_lookup_fmap_Some; eauto).
      unfold ticked in *. rewrite (Hothers _ Hin), (Hde' _ Hin). exact Ht. }
    destruct Hcase as [(-> & -> & Hs)|(-> & Hs & Ha)].
    + exists (e :: de). split; [cbn; rewrite Hg; reflexivity|]. split; [|split].
      * intros x [->|Hx]%elem_of_cons; [left|right; apply Hde, Hx].
      * cbn [app]. eapply Forall_impl; [exact Hbs|]. intros b (x & Hx & Eb). exists x. split; [right; exact Hx|exact Eb].
      * constructor; [split; [reflexivity|]; left; split; [left|]; split; [exact Hof|exact Hs]|].
        apply Hrest. intros x Hx. rewrite elem_of_cons. split; [intros [->|]; [contradiction|assumption]|auto].
    + exists de. split; [exact Hg|]. split; [intros x Hx; right; apply Hde, Hx|]. split.
      * apply Forall_app. split.
        -- eapply Forall_impl; [exact Hb1|]. intros b Eb. exists e. split; [left|exact Eb].
        -- eapply Forall_impl; [exact Hbs|]. intros b (x & Hx & Eb). exists x. split; [right; exact Hx|exact Eb].
      * constructor; [split; [reflexivity|]; right; split; [exact Hne|]; cbn [fst snd]; rewrite Hof; split; assumption|].
        apply Hrest. intros x _. reflexivity.
Qed.

(** ** The invariant *)

Definition spawner_ok (ms : list Spawned) (e : Entity) (s : Spawner) : Prop :=
  counts s (alive_of e ms) /\ (s.(active) = false -> List.filter (of_spawner e) ms = []).

Definition world_ok (w : World) : Prop :=
  NoDup (map fst w.(spawners)) /\ NoDup (map sp_entity w.(monsters))
  /\ Forall (fun '(e, (s, _)) => spawner_ok w.(monsters) e s) w.(spawners).

Lemma spawned_by_spec e m ms : m ∈ ms -> of_spawner e m = true -> m.(sp_entity) ∈ spawned_by e (references ms).
Proof.
  intros Hm He. apply list_elem_of_In, in_map_iff. exists (m.(sp_entity), m.(sp_by)). split; [reflexivity|].
  apply filter_In. split; [|exact He]. apply in_map_iff. exists m. split; [reflexivity|apply list_elem_of_In, Hm].
Qed.

Lemma spawned_by_inv e x ms : x ∈ spawned_by e (references ms) -> exists m, m ∈ ms /\ of_spawner e m = true /\ m.(sp_entity) = x.
Proof.
  intros Hx. apply list_elem_of_In, in_map_iff in Hx as ([y by_] & <- & Hin). apply filter_In in Hin as [Hin Hb].
  apply in_map_iff in Hin as (m & [= <- <-] & Hm). exists m. split; [apply list_elem_of_In, Hm|]. split; [exact Hb|reflexivity].
Qed.

Lemma same_entity ms a b : NoDup (map sp_entity ms) -> a ∈ ms -> b ∈ ms -> a.(sp_entity) = b.(sp_entity) -> a = b.
Proof.
  induction ms as [|m ms IH]; intros Hn Ha Hb E; [inversion Ha|]. cbn in Hn. apply NoDup_cons in Hn as [Hnin Hn].
  assert (Hout : forall c, c ∈ ms -> c.(sp_entity) <> m.(sp_entity)).
  { intros c Hc Ec. apply Hnin. rewrite <- Ec. apply list_elem_of_In, in_map, list_elem_of_In, Hc. }
  apply elem_of_cons in Ha as [->|Ha], Hb as [->|Hb]; auto.
  - destruct (Hout b Hb). symmetry. exact E.
  - destruct (Hout a Ha). exact E.
Qed.

Lemma of_one_spawner e x m : of_spawner e m = true -> of_spawner x m = true -> e = x.
Proof. unfold of_spawner. destruct (sp_by m); try discriminate. rewrite !Z.eqb_eq. congruence. Qed.

(** The monsters of a spawner after despawning those of others, or its own. *)
Lemma despawn_of e deactivated ms : NoDup (map sp_entity ms) ->
  let left := despawn_all (flat_map (fun x => spawned_by x (references ms)) deactivated) ms in
  (e ∈ deactivated -> List.filter (of_spawner e) left = [])
  /\ (e ∉ deactivated -> List.filter (of_spawner e) left = List.filter (of_spawner e) ms).
Proof.
  intros Hn. cbv zeta. unfold despawn_all. rewrite filter_filter. split; intros He.
  - transitivity (List.filter (fun _ : Spawned => false) ms); [|clear; induction ms; auto]. apply filter_same. intros m Hm.
    destruct (of_spawner e m) eqn:Eo; [|reflexivity]. cbn. apply negb_false_iff, bool_decide_eq_true.
    apply list_elem_of_In, in_flat_map. exists e. split; [apply list_elem_of_In, He|apply list_elem_of_In, spawned_by_spec; assumption].
  - apply filter_same. intros m Hm. destruct (of_spawner e m) eqn:Eo; [|reflexivity]. cbn.
    apply negb_true_iff, bool_decide_eq_false. intros Hx. apply list_elem_of_In, in_flat_map in Hx as (x & Hxd & Hx).
    apply list_elem_of_In, spawned_by_inv in Hx as (m' & Hm' & Ho & Ee).
    rewrite (same_entity ms m' m Hn Hm' Hm Ee) in Ho. rewrite (of_one_spawner e x m Eo Ho) in He.
    apply He, list_elem_of_In, Hxd.
Qed.

Lemma alive_of_filter e ms : alive_of e ms = length (List.filter uncounted (List.filter (of_spawner e) ms)).
Proof.
  unfold alive_of. rewrite filter_filter. f_equal. apply filter_same. intros m _. apply andb_comm.
Qed.

Lemma spawn_all_of e entities bs : length entities = length bs ->
  List.filter (of_spawner e) (spawn_all entities bs) = [] <-> spawned_of e bs = [].
Proof.
  revert bs. induction entities as [|x entities IH]; intros [|b bs]; try discriminate; [split; reflexivity|]. intros [= L].
  cbn [spawn_all zip_with]. rewrite spawned_of_cons. cbn [List.filter]. unfold of_spawner at 1. cbn [sp_by].
  destruct (match mb_spawner b with BySpawner _ => _ | _ => _ end); [split; discriminate|]. apply IH, L.
Qed.

Lemma spawn_all_alive e entities bs : length entities = length bs -> alive_of e (spawn_all entities bs) = length (spawned_of e bs).
Proof.
  unfold alive_of. revert bs. induction entities as [|x entities IH]; intros [|b bs]; try discriminate; [reflexivity|]. intros [= L].
  cbn [spawn_all zip_with]. rewrite spawned_of_cons. cbn [List.filter]. unfold of_spawner at 1, uncounted at 1. cbn [sp_by sp_life].
  rewrite andb_true_r. destruct (match mb_spawner b with BySpawner _ => _ | _ => _ end); cbn [length]; rewrite <- (IH _ L); reflexivity.
Qed.

Lemma alive_of_app e a b : alive_of e (a ++ b) = (alive_of e a + alive_of e b)%nat.
Proof. unfold alive_of. rewrite List.filter_app, length_app. reflexivity. Qed.

Lemma entities_spawned entities bs : length entities = length bs -> map sp_entity (spawn_all entities bs) = entities.
Proof.
  revert bs. induction entities as [|x entities IH]; intros [|b bs]; try discriminate; [reflexivity|]. intros [= L].
  cbn [spawn_all zip_with map sp_entity]. f_equal. apply (IH bs L).
Qed.

Lemma sublist_nodup (f : Spawned -> bool) ms l : NoDup (map sp_entity ms ++ l) -> NoDup (map sp_entity (List.filter f ms) ++ l).
Proof.
  induction ms as [|m ms IH]; [auto|]. cbn [map app List.filter]. intros H. apply NoDup_cons in H as [Hn H]. destruct (f m); [|auto].
  cbn [map app]. apply NoDup_cons. split; [|auto]. intros Hin. apply Hn. apply elem_of_app in Hin as [Hin|Hin]; apply elem_of_app; [left|right; exact Hin].
  apply list_elem_of_In in Hin. apply in_map_iff in Hin as (y & <- & Hy). apply filter_In in Hy as [Hy _].
  apply list_elem_of_In, in_map, Hy.
Qed.

Lemma set_life_entities f l ms : map sp_entity (set_life f l ms) = map sp_entity ms.
Proof. unfold set_life. rewrite map_map. apply map_ext. intros m. destruct (f m); reflexivity. Qed.

Lemma set_life_of e f l ms : List.filter (of_spawner e) ms = [] -> List.filter (of_spawner e) (set_life f l ms) = [].
Proof.
  induction ms as [|m ms IH]; [reflexivity|]. cbn [List.filter set_life map]. intros H.
  replace (of_spawner e (if f m then _ else m)) with (of_spawner e m) by (destruct (f m); reflexivity).
  destruct (of_spawner e m); [discriminate|]. apply IH, H.
Qed.

Lemma dying_alive e which ms : alive_of e (set_life (fun m => living m && which m) Dying ms) = alive_of e ms.
Proof.
  unfold alive_of. induction ms as [|m ms IH]; [reflexivity|]. cbn [set_life map List.filter].
  replace (of_spawner e _ && uncounted _) with (of_spawner e m && uncounted m)
    by (destruct m as [? ? []]; cbn; repeat match goal with |- context [which ?x] => destruct (which x) end; reflexivity).
  destruct (_ && _); cbn [length]; rewrite <- IH; reflexivity.
Qed.

(** How many that died are of a spawner. *)
Definition died_of (e : Entity) (died : list SpawnedBy) : nat :=
  length (List.filter (fun b => match b with BySpawner x => e =? x | _ => false end) died).

Lemma collected died : forall ss, Forall (fun '(_, (s, _)) => 0 <= s.(current_amount)) ss ->
  collect_monster_deaths died ss
  = map (fun '(e, (s, p)) => (e, (with_amount s.(active) (Z.max 0 (s.(current_amount) - Z.of_nat (died_of e died))) s, p))) ss.
Proof.
  induction died as [|b died IH]; intros ss H.
  - cbn. rewrite <- (map_id ss) at 1. apply map_ext_in. intros [e [s p]] Hin. rewrite Forall_forall in H.
    apply list_elem_of_In, H in Hin. unfold with_amount. destruct s. cbn in *. rewrite Z.sub_0_r, Z.max_r by lia. reflexivity.
  - change (collect_monster_deaths (b :: died) ss) with (collect_monster_deaths died (collect_monster_deaths [b] ss)).
    destruct b as [x|x|x|]; try exact (IH ss H). cbn [collect_monster_deaths fold_left]. rewrite IH.
    + rewrite map_map. apply map_ext. intros [e [s p]]. unfold died_of at 2. cbn [List.filter].
      destruct (e =? x); [|reflexivity]. unfold decrease_alive, decrease_alive_by, with_amount, sat_sub. cbn [length active current_amount].
      do 2 f_equal. unfold died_of. f_equal. lia.
    + apply Forall_map. eapply Forall_impl; [exact H|]. intros [e [s p]] Hs. cbn in *. destruct (e =? x); [|exact Hs].
      unfold decrease_alive, decrease_alive_by, with_amount, sat_sub. cbn. lia.
Qed.

Lemma alive_of_cons e m ms : alive_of e (m :: ms) = ((if of_spawner e m && uncounted m then 1 else 0) + alive_of e ms)%nat.
Proof. unfold alive_of. cbn [List.filter]. destruct (_ && _); reflexivity. Qed.

Definition dying_of (e : Entity) (ms : list Spawned) : nat := died_of e (map sp_by (List.filter dying ms)).

Lemma dying_of_cons e m ms : dying_of e (m :: ms) = ((if of_spawner e m && dying m then 1 else 0) + dying_of e ms)%nat.
Proof.
  unfold dying_of, died_of, of_spawner. cbn [List.filter]. destruct (dying m); cbn [map List.filter].
  - rewrite andb_true_r. destruct (sp_by m) as [y|y|y|]; try reflexivity. rewrite (Z.eqb_sym e y). destruct (y =? e); reflexivity.
  - rewrite andb_false_r. reflexivity.
Qed.

Lemma counted_alive e ms :
  (alive_of e (set_life dying Counted ms) + dying_of e ms = alive_of e ms)%nat.
Proof.
  induction ms as [|m ms IH]; [reflexivity|]. cbn [set_life map]. fold (set_life dying Counted ms).
  rewrite !alive_of_cons, dying_of_cons.
  assert (E : of_spawner e (if dying m then {| sp_entity := sp_entity m; sp_by := sp_by m; sp_life := Counted |} else m) = of_spawner e m)
    by (destruct (dying m); reflexivity).
  rewrite E. clear E. generalize (of_spawner e m). intros b.
  replace (uncounted (if dying m then _ else m)) with (living m) by (destruct m as [x by_ []]; reflexivity).
  replace (uncounted m) with (living m || dying m) by (destruct m as [x by_ []]; reflexivity).
  assert (living m && dying m = false) by (destruct m as [x by_ []]; reflexivity).
  destruct b, (living m), (dying m); cbn in *; try discriminate; lia.
Qed.

Lemma spawn_step_ok w delta regions draws spawners' bs gone pool' entities :
  world_ok w -> Forall (fun '(e, (s, _)) => in_range s (draws e)) w.(spawners) ->
  spawn_monsters mesh_for sqrt sin cos pi request_id delta regions (references w.(monsters)) draws w.(spawners) w.(pool)
    = Ok (spawners', bs, gone, pool') ->
  length entities = length bs -> NoDup (map sp_entity w.(monsters) ++ entities) ->
  world_ok {| spawners := spawners'; monsters := despawn_all gone w.(monsters) ++ spawn_all entities bs; pool := pool' |}.
Proof.
  intros (Hks & Hms & Hw) Hr Hspawn Hlen Hnew.
  destruct (spawn_monsters_ok _ _ _ draws (fun e => alive_of e w.(monsters)) _ _ _ _ _ _ Hks
    ltac:(apply Forall_forall; intros [e [s p]] Hin; rewrite Forall_forall in Hw, Hr;
          split; [apply (Hw _ Hin)|apply (Hr _ Hin)]) Hspawn) as (de & -> & _ & _ & Hall).
  split; [|split]; cbn [spawners monsters].
  - replace (map fst spawners') with (map fst w.(spawners)); [exact Hks|]. clear - Hall.
    induction Hall as [|a b l k [E _] _ IH]; [reflexivity|]. cbn. rewrite E, IH. reflexivity.
  - rewrite map_app, entities_spawned by exact Hlen. apply sublist_nodup, Hnew.
  - apply Forall_forall. intros [e [s' p']] Hin. apply list_elem_of_lookup in Hin as [i Hi].
    destruct (Forall2_lookup_r _ _ _ _ _ Hall Hi) as ([e0 [s p]] & H0 & E & Ht). cbn [fst snd] in E, Ht. subst e0.
    assert (Hs : spawner_ok w.(monsters) e s) by (rewrite Forall_forall in Hw; apply (Hw (e, (s, p))), list_elem_of_lookup; eauto).
    destruct (despawn_of e de w.(monsters) Hms) as [Hgone Hkept]. unfold spawner_ok. rewrite alive_of_app, spawn_all_alive, alive_of_filter, List.filter_app by exact Hlen.
    destruct Ht as [(Hd & Hb & Hc)|(Hd & Hc & Ha)].
    + rewrite (Hgone Hd), Hb. split; [exact Hc|]. intros _. apply (spawn_all_of e _ _ Hlen), Hb.
    + rewrite (Hkept Hd), <- alive_of_filter. split; [exact Hc|]. intros Hi'. destruct (Ha Hi') as [Ha' Hb].
      rewrite (proj2 Hs Ha'). apply (spawn_all_of e _ _ Hlen), Hb.
Qed.

Lemma count_step_ok w : world_ok w ->
  world_ok {| spawners := collect_monster_deaths (map sp_by (List.filter dying w.(monsters))) w.(spawners);
              monsters := set_life dying Counted w.(monsters); pool := w.(pool) |}.
Proof.
  intros (Hks & Hms & Hw). unfold world_ok. cbn [spawners monsters]. rewrite collected.
  2: { eapply Forall_impl; [exact Hw|]. intros [e [s p]] [[Hc _] _]. lia. }
  split; [|split].
  - rewrite map_map. erewrite map_ext; [exact Hks|]. intros [e [s p]]. reflexivity.
  - rewrite set_life_entities. exact Hms.
  - apply Forall_map. eapply Forall_impl; [exact Hw|]. intros [e [s p]] [(Hn & Ht & Hi & Hc) Hf].
    pose proof (counted_alive e w.(monsters)) as Hd. unfold dying_of in Hd. split.
    + unfold counts, with_amount. cbn [active current_amount target_amount].
      split; [lia|]. split; [exact Ht|]. split; [intros Ha; specialize (Hi Ha); lia|]. intros Hm. specialize (Hc Hm). lia.
    + cbn [with_amount active]. intros Ha. apply set_life_of, Hf, Ha.
Qed.

Lemma filter_nil_sub {A} (f g : A -> bool) l : List.filter f l = [] -> List.filter f (List.filter g l) = [].
Proof.
  rewrite filter_filter. induction l as [|x l IH]; [reflexivity|]. cbn. destruct (f x); [discriminate|]. exact IH.
Qed.

(** C14: However the world goes on, a spawner counts its monsters: there are
    never more of them alive than it counts and never more counted than it
    wants, exactly as many as it counts when every location has a mesh, and
    none where it is not active. *)
Theorem spawners_count (w : World) (H : reachable w) (e : Entity) (s : Spawner) (p : Position)
    (Hin : (e, (s, p)) ∈ w.(spawners)) :
  Z.of_nat (alive_of e w.(monsters)) <= s.(current_amount) <= s.(target_amount)
  /\ ((forall r, is_Some (mesh_for r)) -> Z.of_nat (alive_of e w.(monsters)) = s.(current_amount))
  /\ (s.(active) = false -> s.(current_amount) = 0 /\ forall m, m ∈ w.(monsters) -> of_spawner e m = false).
Proof.
  assert (Hok : world_ok w).
  { clear e s p Hin. induction H as [w Hk Hm Hs|w w' _ IH Hstep].
    - split; [exact Hk|]. rewrite Hm. split; [constructor|]. eapply Forall_impl; [exact Hs|].
      intros [e [s p]] (Ha & Hc & Ht). apply fits_spec in Ht as Ht'. split; [|reflexivity]. unfold counts. cbn.
      split; [lia|]. split; [exact Ht|]. split; [auto|]. intros _. lia.
    - destruct Hstep as [w delta regions draws ss bs gone q es Hr Hs He Hn|w which|w|w which].
      + exact (spawn_step_ok w delta regions draws ss bs gone q es IH Hr Hs He Hn).
      + destruct IH as (Hk & Hm & Hw). split; [exact Hk|]. cbn [spawners monsters]. rewrite set_life_entities. split; [exact Hm|].
        eapply Forall_impl; [exact Hw|]. intros [e [s p]] [Hc Hf]. unfold spawner_ok. rewrite dying_alive.
        split; [exact Hc|]. intros Ha. apply set_life_of, Hf, Ha.
      + apply count_step_ok, IH.
      + destruct IH as (Hk & Hm & Hw). split; [exact Hk|]. cbn [spawners monsters]. split.
        * rewrite <- (app_nil_r (map _ _)). apply sublist_nodup. rewrite app_nil_r. exact Hm.
        * eapply Forall_impl; [exact Hw|]. intros [e [s p]] [Hc Hf]. unfold spawner_ok. split.
          -- rewrite alive_of_filter, !filter_filter, <- filter_filter. 
             replace (length _) with (alive_of e (monsters w)); [exact Hc|].
             unfold alive_of. f_equal. rewrite !filter_filter. apply filter_same. intros m _.
             destruct (uncounted m), (of_spawner e m); reflexivity.
          -- intros Ha. apply filter_nil_sub, Hf, Ha. }
  destruct Hok as (_ & _ & Hw). rewrite Forall_forall in Hw. destruct (Hw _ Hin) as [(Hn & _ & Hi & Hc) Hf].
  split; [exact Hn|]. split; [exact Hc|]. intros Ha. split; [exact (Hi Ha)|]. intros m Hm.
  destruct (of_spawner e m) eqn:E; [|reflexivity].
  assert (Hin' : m ∈ List.filter (of_spawner e) w.(monsters)) by (apply list_elem_of_In, filter_In; split; [apply list_elem_of_In, Hm|exact E]).
  rewrite (Hf Ha) in Hin'. inversion Hin'.
Qed.
End World.

(** ** Where the count is wrong *)

Section Ghosts.
Context {Rep : Repeats} (sqrt sin cos : f32 -> f32) (pi : f32) {Pool : Type} (request_id : Pool -> option (Z * Pool)).

Lemma no_mesh_no_monsters e s p draws q :
  spawn_n_monsters (fun _ => None) sqrt sin cos pi request_id e s p draws q = Ok ([], q).
Proof. induction draws as [|d draws IH]; [reflexivity|exact IH]. Qed.

(** Locations without a mesh are counted as monsters: the spawner is full with
    none alive, and stays so while it is active. *)
Lemma off_mesh_fills_spawner delta ms d e s p q :
  s.(active) = false -> s.(current_amount) = 0 -> 0 <= s.(target_amount) < 2 ^ 64 ->
  exists s', spawner_tick (fun _ => None) sqrt sin cos pi request_id delta true ms d e s p q = Ok (s', [], [], q)
    /\ s'.(current_amount) = s'.(target_amount)
    /\ forall delta' ms' d' q', spawner_tick (fun _ => None) sqrt sin cos pi request_id delta' true ms' d' e s' p q' = Ok (s', [], [], q').
Proof.
  intros Ha Hc Ht. unfold spawner_tick at 1. rewrite Ha. cbn [negb andb]. unfold activate_spawner. rewrite no_mesh_no_monsters.
  cbn [mbind outcome_bind fst snd]. eexists. split; [reflexivity|]. split.
  - unfold increase_alive_by, with_amount, sat_add. cbn. rewrite Hc. lia.
  - intros. unfold spawner_tick, should_spawn, has_spots_available, increase_alive_by, with_amount, sat_add. cbn. rewrite Hc.
    rewrite (proj2 (Z.ltb_ge _ _)) by lia. reflexivity.
Qed.
End Ghosts.

(** ** The timers of the uniques *)

Section Uniques.
Context {T : Timers}.

(** A unique is requested exactly by the timers that finish in the tick, each of
    which starts anew with a time of its range; the others go on. *)
Lemma uniques_respawn delta ts : forall drawn,
  Forall (fun t => t.(unique_range).1 <= t.(unique_range).2) ts ->
  exists refs ts', update_uniques delta drawn ts = Ok (refs, ts')
    /\ refs = map unique_ref (List.filter (fun t => just_finished (timer_tick delta t.(unique_timer))) ts)
    /\ map unique_ref ts' = map unique_ref ts /\ map unique_range ts' = map unique_range ts
    /\ Forall2 (fun t t' => just_finished (timer_tick delta t.(unique_timer)) = false ->
                            t'.(unique_timer) = timer_tick delta t.(unique_timer)) ts ts'.
Proof.
  induction ts as [|t ts IH]; intros drawn Hr; [exists [], []; repeat split; constructor|].
  apply Forall_cons in Hr as [Ht Hr]. cbn [update_uniques List.filter]. destruct (just_finished _) eqn:Ej.
  - unfold gen_range_inclusive. rewrite (proj2 (Z.leb_le _ _) Ht). cbn [mbind outcome_bind].
    destruct (IH (tl drawn) Hr) as (refs & ts' & -> & -> & E1 & E2 & E3). cbn [mbind outcome_bind fst snd].
    eexists _, _. split; [reflexivity|]. cbn [map]. rewrite E1, E2. repeat split. constructor; [congruence|exact E3].
  - destruct (IH drawn Hr) as (refs & ts' & -> & -> & E1 & E2 & E3). cbn [mbind outcome_bind fst snd].
    eexists _, _. split; [reflexivity|]. cbn [map]. rewrite E1, E2. repeat split. constructor; [reflexivity|exact E3].
Qed.

(** A range without numbers panics. *)
Lemma empty_range_panics low high ref_id drawn : high < low -> create_timer_for (low, high) ref_id drawn = Panic.
Proof. intros H. unfold create_timer_for, gen_range_inclusive. cbn. rewrite (proj2 (Z.leb_gt _ _) H). reflexivity. Qed.
End Uniques.

(** ** A world *)

#[local] Instance counting : Repeats := {
  Repeating := Z * Z * bool;
  repeating d := (d, 0, false);
  repeat_tick delta t := let '(d, e, _) := t in if d <=? e + delta then (d, (e + delta) mod d, true) else (d, e + delta, false);
  repeat_finished t := t.2
}.

#[local] Definition flat (r : Region) : option Heightmap :=
  Some {| heights := repeat (f32_of_Z 0) 4; Position.size := 2; tile_size := 1920 |}.
#[local] Definition still (f : f32) : f32 := f32_of_Z 0.
#[local] Definition take_id (n : Z) : option (Z * Z) := Some (n, n + 1).
#[local] Definition draws0 (e : Entity) : SpawnDraws :=
  {| draw_spawn := f32_of_Z 1; draw_amount := 1;
     draw_positions := fun _ => {| draw_r := f32_of_Z 0; draw_theta := f32_of_Z 0; draw_heading := 0 |} |}.
#[local] Definition mangyang : RefCharacterData :=
  {| character_common := {| common_ref_id := 1933; common_id := []; type_id := MkTypeId 1 2 1 1;
                            GameData.country := GameData.Chinese; despawn_time := 0 |};
     rarity := rarity_of Rarity_Normal; GameData.level := 1; GameData.exp := 0; hp := 54; walk_speed := 16;
     run_speed := 50; GameData.berserk_speed := 100; base_range := 0; pickup_range := None; aggressive := false; GameData.skills := [] |}.
#[local] Definition spot : Position :=
  position_new {| x3 := f32_of_Z 192100; y3 := f32_of_Z 0; z3 := f32_of_Z 192100 |} (f32_of_Z 0).
#[local] Definition sleeping : Spawner := spawner_new {| option_radius := f32_of_Z 10; option_amount := 2 |} mangyang.
#[local] Definition start : World := {| spawners := [(7, (sleeping, spot))]; monsters := []; pool := 40 |}.
#[local] Definition awake : Spawner := with_amount true 2 sleeping.
#[local] Definition two (l1 l2 : life) : list Spawned :=
  [{| sp_entity := 100; sp_by := BySpawner 7; sp_life := l1 |}; {| sp_entity := 101; sp_by := BySpawner 7; sp_life := l2 |}].

#[local] Abbreviation steps := (step flat still still still (f32_of_Z 3) take_id).
#[local] Abbreviation reaches := (reachable flat still still still (f32_of_Z 3) take_id).

(** A spawner that woke up and lost one of its two monsters. *)
Lemma some_world : exists w : World (Pool := Z), reaches w
  /\ w.(spawners) = [(7, (with_amount true 1 awake, spot))] /\ w.(monsters) = two Counted Living.
Proof.
  exists {| spawners := [(7, (with_amount true 1 awake, spot))]; monsters := two Counted Living; pool := 42 |}.
  split; [|split; reflexivity].
  apply (reachable_step _ _ _ _ _ _ {| spawners := [(7, (awake, spot))]; monsters := two Dying Living; pool := 42 |}).
  2: { exact (step_count _ _ _ _ _ _ {| spawners := [(7, (awake, spot))]; monsters := two Dying Living; pool := 42 |}). }
  apply (reachable_step _ _ _ _ _ _ {| spawners := [(7, (awake, spot))]; monsters := two Living Living; pool := 42 |}).
  2: { exact (step_die _ _ _ _ _ _ {| spawners := [(7, (awake, spot))]; monsters := two Living Living; pool := 42 |}
               (fun m => m.(sp_entity) =? 100)). }
  apply (reachable_step _ _ _ _ _ _ start).
  - apply reachable_start; [apply NoDup_singleton|reflexivity|repeat constructor].
  - destruct (spawn_monsters flat still still still (f32_of_Z 3) take_id 0 [position_region spot.(location)] [] draws0
      start.(spawners) start.(pool)) as [[[[ss bs] gone] q]| |] eqn:E; [|vm_compute in E; discriminate..].
    pose proof (step_spawn flat still still still (f32_of_Z 3) take_id start 0 [position_region spot.(location)] draws0 ss bs gone q [100; 101]) as H.
    vm_compute in E. injection E as <- <- <- <-. apply H.
    + constructor; [|constructor]. intros _. vm_compute. split; discriminate.
    + vm_compute. reflexivity.
    + reflexivity.
    + apply (bool_decide_unpack _). reflexivity.
Qed.

Lemma spawners_count_witness :
  exists w : World (Pool := Z), reaches w /\ Z.of_nat (alive_of 7 w.(monsters)) <= 1 <= 2
    /\ Z.of_nat (alive_of 7 w.(monsters)) = 1.
Proof.
  destruct some_world as (w & Hw & Hs & Hm). exists w. split; [exact Hw|].
  destruct (spawners_count flat still still still (f32_of_Z 3) take_id w Hw 7 (with_amount true 1 awake) spot
    ltac:(rewrite Hs; left)) as (H1 & H2 & _).
  split; [exact H1|]. apply H2. intros r. eexists. reflexivity.
Defined.
