(* ===== verification/Show.v ===== *)
(** How numbers are printed: [Display] of [f32] and of a region, as the standard
    library of Rust prints them.

    A float is printed with the fewest digits that read back as it, without an
    exponent. *)
From stdpp Require Import base list option strings.
From Stdlib Require Import ZArith Lia Floats.SpecFloat.
From S2P Require Import Prelude Utf Text F32.

(** ** [f32] *)

(** The quotient and the remainder of [m * 2^e] by [10^j], and the divisor, as
    integers over a common denominator. *)
Definition divide_power (m e j : Z) : Z * Z * Z :=
  let num := m * 2 ^ Z.max 0 e * 10 ^ Z.max 0 (- j) in
  let den := 2 ^ Z.max 0 (- e) * 10 ^ Z.max 0 j in
  (num / den, num mod den, den).

(** [format_shortest]: from the coarsest power of ten on, the first multiple next
    to the float that reads back as it; the nearer one if both do, and the larger
    one of two that are as near. [f] is positive. *)
Fixpoint shortest (fuel : nat) (m e j : Z) (f : f32) : option (Z * Z) :=
  match fuel with
  | O => None
  | S fuel =>
      let '(q, r, d) := divide_power m e j in
      let down := feqb (f32_of_decimal false q j) f in
      let up := feqb (f32_of_decimal false (q + 1) j) f in
      if up && (negb down || (d <=? 2 * r)) then Some (q + 1, j)
      else if down then Some (q, j)
      else shortest fuel m e (j - 1) f
  end.

(** [q * 10^j] without an exponent: with zeros behind it, a point in it, or zeros
    in front of it. *)
Definition positional (q j : Z) : list Z :=
  let digits := decimal_digits q in
  let behind := Z.to_nat (- j) in
  if 0 <=? j then digits ++ repeat 48 (Z.to_nat j)
  else if (behind <? length digits)%nat then
    let before := (length digits - behind)%nat in take before digits ++ 46 :: drop before digits
  else chars "0." ++ repeat 48 (behind - length digits) ++ digits.

(** The largest power of ten below the largest float, and the digits of the
    smallest one. *)
Definition show_f32 (f : f32) : list Z :=
  let signed (negative : bool) (digits : list Z) := if negative then minus_sign :: digits else digits in
  match f with
  | S754_nan => chars "NaN"
  | S754_infinity s => signed s (chars "inf")
  | S754_zero s => signed s (chars "0")
  | S754_finite s m e =>
      match shortest 90 (Zpos m) e 39 (S754_finite false m e) with
      | Some (q, j) => signed s (positional q j)
      | None => []
      end
  end.

(** ** [impl Display for Region]: [{:#04x}] *)

Definition hex_digit (d : Z) : Z := if d <? 10 then 48 + d else 87 + d.

(** The digits in base 16, at most one per bit, and at least two. *)
Fixpoint hex_of (fuel : nat) (z : Z) (acc : list Z) : list Z :=
  match fuel with
  | O => acc
  | S fuel =>
      let acc := hex_digit (z mod 16) :: acc in
      if z <? 16 then acc else hex_of fuel (z / 16) acc
  end.

Definition show_region (r : Z) : list Z :=
  let digits := hex_of (S (Z.to_nat (Z.log2 r))) r [] in
  chars "0x" ++ repeat 48 (2 - length digits) ++ digits.

(** ** Examples *)

Example show_integers : show_f32 (f32_of_Z 120) = chars "120" /\ show_f32 (f32_of_Z (-6432)) = chars "-6432".
Proof. vm_compute. split; reflexivity. Qed.

Example show_fractions :
  show_f32 (f32_of_decimal false 15 (-1)) = chars "1.5" /\ show_f32 (f32_of_decimal false 1 (-1)) = chars "0.1"
  /\ show_f32 (f32_of_decimal true 3 (-4)) = chars "-0.0003".
Proof. vm_compute. repeat split. Qed.

Example show_thirds : show_f32 (fdiv (f32_of_Z 1) (f32_of_Z 3)) = chars "0.33333334".
Proof. vm_compute. reflexivity. Qed.

Example show_extremes :
  show_f32 (S754_finite false 16777215 104) = chars "340282350000000000000000000000000000000"
  /\ show_f32 (S754_finite false 1 (-149)) = chars "0.000000000000000000000000000000000000000000001"
  /\ show_f32 (S754_zero true) = chars "-0" /\ show_f32 S754_nan = chars "NaN".
Proof. vm_compute. repeat split. Qed.

Example show_regions : show_region 0x6287 = chars "0x6287" /\ show_region 7 = chars "0x07".
Proof. split; reflexivity. Qed.
