(* ===== verification/Chat.v ===== *)
(** Chat, commands and the item mall: agent/src/chat (chat/system.rs,
    chat/command/mod.rs, chat/command/system.rs) and agent/src/mall.

    What is sent is tagged with the entity whose client it is sent to. *)
From stdpp Require Import base list option strings gmap.
From Stdlib Require Import ZArith Lia Floats.SpecFloat.
From S2P Require Import Prelude Utf Text F32 Show Definitions TypeIdEnums TypeId GameData Serde Schema ProtoGeneral.
From S2P Require Import ProtoChat ProtoMovement ProtoInventory Packets.
From S2P Require Import Inventory Population Progress Position Entities Visibility Characters Movement Combat Join Spawning.

(** ** chat/command/mod.rs *)

Record Command := { command_name : list Z; command_args : list (list Z) }.

Definition space : Z := 32.

(** [split_once] at a character. *)
Fixpoint split_once (sep : Z) (s : list Z) : option (list Z * list Z) :=
  match s with
  | [] => None
  | c :: s =>
      if c =? sep then Some ([], s)
      else match split_once sep s with
           | Some (before, after) => Some (c :: before, after)
           | None => None
           end
  end.

(** [impl From<&str> for Command] *)
Definition command_of (line : list Z) : Command :=
  match split_once space line with
  | Some (cmd, args) => {| command_name := cmd; command_args := split space args |}
  | None => {| command_name := line; command_args := [] |}
  end.

(** [trim_start_matches] of a character. *)
Fixpoint trim_start (c : Z) (s : list Z) : list Z :=
  match s with
  | d :: r => if d =? c then trim_start c r else s
  | [] => []
  end.

Definition dot : Z := 46.
Definition starts_with (c : Z) (s : list Z) : bool := match s with d :: _ => d =? c | [] => false end.

(** ** chat/system.rs: messages *)

(** A [ChatMessage] as the handler reads it. *)
Record Message := { target : string; index : Z; recipient : option (list Z); message : list Z }.

Definition message_of (v : val) : option Message :=
  match v with
  | VStruct [VEnum t []; VNum i; _; _; VOpt r; VStr m] =>
      Some {| target := t; index := i; recipient := (match r with Some (VStr n) => Some n | _ => None end); message := m |}
  | _ => None
  end.

(** What the query of the handler finds for a player. *)
Record Chatter := {
  chat_entity : Entity;
  chat_game_entity : GameEntity;
  chat_input : list val;
  chat_visibility : Visibility;
  chat_player : Player;
}.

Definition is_gm (p : Player) : bool := p.(player_character).(gm).
Definition same_user (p q : Player) : bool := p.(player_user).(Population.id) =? q.(player_user).(Population.id).

Definition can_send_message (m : Message) (player : Player) : bool :=
  if bool_decide (m.(target) = "AllGm"%string) then is_gm player
  else negb (bool_decide (m.(target) ∈ ["NPC"; "Notice"; "Global"]%string)).

Definition chat_response (result : val) (m : Message) : packet :=
  ("ChatMessageResponse"%string, ChatMessageResponse_new result (VEnum m.(target) []) (VNum m.(index))).
Definition chat_success : val := VEnum "Success" [].
Definition invalid_target : val := ChatMessageResult_error (VEnum "InvalidTarget" []).
Definition chat_update (source : val) (m : Message) : packet :=
  ("ChatUpdate"%string, ChatUpdate_new source (VStr m.(message))).

Section Chat.
Context (set_order : gset EntityReference -> list EntityReference).

(** The clients with a player, and the lookup of names. *)
Context (others : list (Entity * Player)) (lookup : EntityLookup).

Definition other (e : Entity) : option Player := snd <$> List.find (fun o => o.1 =? e) others.

(** One message: what is sent, and the command of a game master. *)
Definition handle_message (c : Chatter) (m : Message) : list (Entity * packet) * list (Entity * Command) :=
  let answer result := [(c.(chat_entity), chat_response result m)] in
  if negb (can_send_message m c.(chat_player)) then (answer invalid_target, [])
  else if bool_decide (m.(target) = "All"%string) then
    (flat_map (fun r => match other r.(entity) with
                        | Some _ => [(r.(entity), chat_update (ChatSource_all (VNum c.(chat_game_entity).(unique_id))) m)]
                        | None => []
                        end) (set_order c.(chat_visibility).(entities_in_radius))
     ++ answer chat_success, [])
  else if bool_decide (m.(target) = "AllGm"%string) then
    if starts_with dot m.(message) then
      (answer chat_success, [(c.(chat_entity), command_of (trim_start dot m.(message)))])
    else
      (map (fun o => (o.1, chat_update (ChatSource_allgm (VNum c.(chat_game_entity).(unique_id))) m))
         (List.filter (fun o => negb (same_user o.2 c.(chat_player)))
            (List.filter (fun o => is_gm o.2) others))
       ++ answer chat_success, [])
  else if bool_decide (m.(target) = "PrivateMessage"%string) then
    match e ← m.(recipient) ≫= get_entity_for_name lookup; (fun _ => e) <$> other e with
    | Some e =>
        ((e, chat_update (ChatSource_privatemessage (VStr c.(chat_player).(player_character).(name))) m)
         :: answer chat_success, [])
    | None => (answer invalid_target, [])
    end
  else ([], []).

Definition handle_chatter (c : Chatter) : list (Entity * packet) * list (Entity * Command) :=
  let handled := map (handle_message c) (omap message_of c.(chat_input)) in
  (flat_map fst handled, flat_map snd handled).

Definition handle_chat (query : list Chatter) : list (Entity * packet) * list (Entity * Command) :=
  (flat_map (fun c => (handle_chatter c).1) query, flat_map (fun c => (handle_chatter c).2) query).

End Chat.

(** ** chat/system.rs: the commands of the game master window *)

(** [Invincible::from_command], [Invisible::from_command] *)
Inductive GmMark := MarkInvincible | MarkInvisible (i : Invisible).

Record GmEffect := {
  gm_answers : list (Entity * packet);
  gm_monsters : list SpawnMonster;
  gm_drops : list SpawnDrop;
  gm_marks : list (Entity * GmMark);
}.

Definition gm_nothing : GmEffect := {| gm_answers := []; gm_monsters := []; gm_drops := []; gm_marks := [] |}.
Definition gm_app (a b : GmEffect) : GmEffect :=
  {| gm_answers := a.(gm_answers) ++ b.(gm_answers); gm_monsters := a.(gm_monsters) ++ b.(gm_monsters);
     gm_drops := a.(gm_drops) ++ b.(gm_drops); gm_marks := a.(gm_marks) ++ b.(gm_marks) |}.

Definition gm_response (text : list Z) : packet := ("GmResponse"%string, GmResponse_success_message (VStr text)).

(** The data of an item that is made: one piece of it. *)
Definition made_item (t : ObjectType) (upgrade : Z) : ItemTypeData :=
  match t with
  | Type_Item (Item_Equippable _) => Equipment upgrade
  | Type_Item (Item_Consumable (Consumable_Currency ObjectConsumableCurrency_Gold)) => Gold 1
  | _ => Consumable 1
  end.

Section Gm.
Context (find_item : Z -> option GameData.RefItemData).

Definition handle_gm_command (e : Entity) (position : Position) (command : val) : outcome unit GmEffect :=
  let answer text := [(e, gm_response text)] in
  match command with
  | VEnum "SpawnMonster"%string [VNum ref_id; VNum amount; _] =>
      Ok {| gm_answers := answer (chars "Spawned " ++ decimal amount ++ chars " of " ++ decimal ref_id);
            gm_monsters := repeat {| spawn_ref_id := ref_id; spawn_location := to_location position.(location);
                                     spawn_spawner := Some (ByPlayer e); spawn_with_ai := true |} (Z.to_nat amount);
            gm_drops := []; gm_marks := [] |}
  | VEnum "MakeItem"%string [VNum ref_id; VNum upgrade] =>
      match find_item ref_id with
      | None => Panic
      | Some item =>
          match from_type_id item.(item_common).(GameData.type_id) with
          | None => Panic
          | Some object_type =>
              Ok {| gm_answers := answer (chars "Dropped 1 of " ++ item.(item_common).(common_id)); gm_monsters := [];
                    gm_drops := [{| dropped := {| Inventory.reference := item; Inventory.variance := None;
                                                  type_data := made_item object_type upgrade |};
                                    relative_position := to_location position.(location); drop_owner := None |}];
                    gm_marks := [] |}
          end
      end
  | VEnum "Invincible"%string [] =>
      Ok {| gm_answers := answer (chars "Enabled invincibility"); gm_monsters := []; gm_drops := [];
            gm_marks := [(e, MarkInvincible)] |}
  | VEnum "Invisible"%string [] =>
      Ok {| gm_answers := answer (chars "Enabled invisibility"); gm_monsters := []; gm_drops := [];
            gm_marks := [(e, MarkInvisible from_command)] |}
  | _ => Ok gm_nothing
  end.

(** [handle_gm_commands]: the players with a client, their positions and the
    command of their input. *)
Fixpoint handle_gm_commands (query : list (Entity * Position * option val)) : outcome unit GmEffect :=
  match query with
  | [] => Ok gm_nothing
  | (e, position, gm) :: query =>
      first ← match gm with Some command => handle_gm_command e position command | None => Ok gm_nothing end;
      rest ← handle_gm_commands query;
      Ok (gm_app first rest)
  end.

End Gm.

(** ** chat/command/system.rs *)

Definition format_location (pos : LocalPosition) : list Z :=
  chars "X: " ++ show_f32 pos.(lp_vec).(x3) ++ chars " | Y: " ++ show_f32 pos.(lp_vec).(y3)
  ++ chars " | Z: " ++ show_f32 pos.(lp_vec).(z3) ++ chars " | Region: " ++ show_region pos.(lp_region).

Definition command_response (text : list Z) : packet :=
  ("ChatUpdate"%string, VStruct [VEnum "Global" [VStr (chars "System")]; VStr text]).

(** What the query finds for a player, its [Agent] apart. *)
Record Commander := {
  cm_reference : EntityReference;
  cm_position : Position;
  cm_target : option Entity;
  cm_player : Player;
}.

(** What a command does; [returns]: the system ends with it. *)
Record CommandEffect := {
  replies : sent;
  agent_after : Agent;
  teleports : list (Entity * GlobalPosition);
  gains : list ReceiveExperienceEvent;
  returns : bool;
}.

Definition replied (a : Agent) (p : packet) : CommandEffect :=
  {| replies := [p]; agent_after := a; teleports := []; gains := []; returns := false |}.
Definition replied_last (a : Agent) (p : packet) : CommandEffect :=
  {| replies := [p]; agent_after := a; teleports := []; gains := []; returns := true |}.
Definition gained (a : Agent) (r : EntityReference) (exp sp : Z) : CommandEffect :=
  {| replies := []; agent_after := a; teleports := [];
     gains := [{| exp_source := None; exp_target := r; exp_amount := exp; sp_amount := sp |}]; returns := false |}.
Definition teleported (a : Agent) (e : Entity) (p : GlobalPosition) : CommandEffect :=
  {| replies := []; agent_after := a; teleports := [(e, p)]; gains := []; returns := false |}.
Definition ignored (a : Agent) : CommandEffect :=
  {| replies := []; agent_after := a; teleports := []; gains := []; returns := false |}.

(** [s.parse().ok()]; and [expect] of it. *)
Definition parse_opt {E A} (m : outcome E A) : option A := match m with Ok a => Some a | _ => None end.
Definition expect {E A} (m : outcome E A) : outcome unit A := match m with Ok a => Ok a | _ => Panic end.

(** [iter().sum()] of [u64] *)
Definition sum_u64 (l : list Z) : Z := fold_left (fun acc e => u64 (acc + e)) l 0.

(** The levels in the order of the map. *)
Definition total_required_exp (levels : LevelMap) (player_level target_level : Z) : Z :=
  sum_u64 (map (fun l => l.2.(Progress.exp))
    (List.filter (fun l => (player_level <=? l.1) && (l.1 <? target_level)) (map_to_list levels))).

Section Commands.
Context (mesh_for : Region -> option Heightmap) (levels : LevelMap).

(** The positions of all entities that have one. *)
Context (position_of : Entity -> option Position).

Definition run_command (c : Command) (p : Commander) (agent : Agent) : outcome unit CommandEffect :=
  let say text := replied agent (command_response (chars text)) in
  let named (n : string) := bool_decide (c.(command_name) = chars n) in
  if named "pos"%string then
    Ok (replied agent (command_response (format_location (to_local p.(cm_position).(location)))))
  else if named "gpos"%string then
    Ok (replied agent (command_response
          (chars "X: " ++ show_f32 p.(cm_position).(location).(x3) ++ chars " | Z: " ++ show_f32 p.(cm_position).(location).(z3))))
  else if named "target"%string then
    match p.(cm_target) with
    | None => Ok (say "No target selected."%string)
    | Some t =>
        match position_of t with
        | None => Ok (say "Target does not exist."%string)
        | Some other_pos => Ok (replied agent (command_response (format_location (to_local other_pos.(location)))))
        end
    end
  else if named "movespeed"%string then
    let speed := default (f32_of_Z 50) (head c.(command_args) ≫= fun s => parse_opt (parse_f32 s)) in
    let agent := set_speed Running speed agent in
    Ok (replied agent ("ChangeSpeed"%string,
          VStruct [VNum p.(cm_reference).(game_entity).(unique_id); f32_val (get_speed_value agent Walking);
                   f32_val (get_speed_value agent Running)]))
  else if named "level"%string then
    match head c.(command_args) ≫= fun s => parse_opt (parse_int (U 8) s) with
    | None => Ok (say "Invalid arguments"%string)
    | Some target_level =>
        let player_level := p.(cm_player).(player_character).(Characters.level) in
        if target_level <=? player_level then
          Ok (replied_last agent (command_response (chars "Level needs to be higher than the current one.")))
        else
          let total := total_required_exp levels player_level target_level in
          if total =? 0 then Ok (replied_last agent (command_response (chars "Level is not possible")))
          else Ok (gained agent p.(cm_reference) (u64 (total - p.(cm_player).(player_character).(Characters.exp))) 0)
    end
  else if named "sp"%string then
    match head c.(command_args) ≫= fun s => parse_opt (parse_int (U 32) s) with
    | None => Ok (say "Invalid arguments"%string)
    | Some sp => Ok (gained agent p.(cm_reference) 0 (u64 (sp * 400)))
    end
  else if named "tp"%string then
    match c.(command_args) with
    | [x; z] =>
        x ← expect (parse_f32 x);
        z ← expect (parse_f32 z);
        let there := from_ingame_location x z in
        height ← height_for mesh_for there;
        Ok (teleported agent p.(cm_reference).(entity) (with_y there (default (f32_of_Z 0) height)))
    | [x; y; z] =>
        x ← expect (parse_f32 x);
        y ← expect (parse_f32 y);
        z ← expect (parse_f32 z);
        Ok (teleported agent p.(cm_reference).(entity) (from_ingame_position x y z))
    | _ => Ok (say "Invalid arguments"%string)
    end
  else Ok (ignored agent).

(** What [handle_command] did: what it sent, the agents, the events it wrote and
    the events it has left unread for its next run. *)
Record Commanded := {
  cd_sent : list (Entity * packet);
  cd_agents : gmap Entity Agent;
  cd_teleports : list (Entity * GlobalPosition);
  cd_gains : list ReceiveExperienceEvent;
  cd_unread : list (Entity * Command);
}.

Fixpoint handle_command (query : Entity -> option Commander) (events : list (Entity * Command)) (agents : gmap Entity Agent)
    : outcome unit Commanded :=
  match events with
  | [] => Ok {| cd_sent := []; cd_agents := agents; cd_teleports := []; cd_gains := []; cd_unread := [] |}
  | (e, c) :: events =>
      match query e, agents !! e with
      | Some p, Some agent =>
          effect ← run_command c p agent;
          let agents := <[e := effect.(agent_after)]> agents in
          rest ← (if effect.(returns)
                  then Ok {| cd_sent := []; cd_agents := agents; cd_teleports := []; cd_gains := []; cd_unread := events |}
                  else handle_command query events agents);
          Ok {| cd_sent := map (fun r => (e, r)) effect.(replies) ++ rest.(cd_sent); cd_agents := rest.(cd_agents);
                cd_teleports := effect.(teleports) ++ rest.(cd_teleports);
                cd_gains := effect.(gains) ++ rest.(cd_gains); cd_unread := rest.(cd_unread) |}
      | _, _ => handle_command query events agents
      end
  end.

End Commands.

Definition handle_teleport (events : list (Entity * GlobalPosition)) (positions : gmap Entity Position) : gmap Entity Position :=
  fold_left (fun positions '(e, p) => alter (move_to p) e positions) events positions.

(** ** mall/db.rs and mall/system.rs *)

(** A row of [user_item_mall]; times are in seconds. *)
Record MallRow := { mall_user : Z; mall_character : Z; mall_server : Z; mall_key : list Z; mall_expiry : Z }.

Definition MALL_TOKEN_SIZE : nat := 30.

(** The two statements of the task, at the time it runs: whether each succeeds
    is not looked at. *)
Definition delete_user_mall_key (user server : Z) (rows : list MallRow) : list MallRow :=
  List.filter (fun r => negb ((r.(mall_user) =? i32 user) && (r.(mall_server) =? i16 server))) rows.

Definition insert_user_mall_key (deleted inserted : bool) (now user server : Z) (key : list Z) (character : Z)
    (rows : list MallRow) : list MallRow :=
  let expiry := now + 15 * 60 in
  let rows := if deleted then delete_user_mall_key user server rows else rows in
  if inserted then
    rows ++ [{| mall_user := i32 user; mall_character := i32 character; mall_server := i16 server; mall_key := key;
                mall_expiry := expiry |}]
  else rows.

Definition delete_expired_mall_keys (now : Z) (rows : list MallRow) : list MallRow :=
  List.filter (fun r => negb (r.(mall_expiry) <=? now)) rows.

(** A token is as many random letters and digits; [draw] gives each. *)
Definition mall_token (draw : nat -> Z) : list Z := map draw (seq 0 MALL_TOKEN_SIZE).

(** A task to store a key, for one request. *)
Record MallTask := { task_user : Z; task_server : Z; task_key : list Z; task_character : Z }.

(** [open_mall]: the requests, with the random numbers of each. *)
Definition open_mall (server_id : Z) (query : Entity -> option Player) (events : list (Entity * (nat -> Z)))
    : list (Entity * packet) * list MallTask :=
  let opened := omap (fun '(e, draw) => (fun player =>
    let token := mall_token draw in
    let user_id := u32 player.(player_user).(Population.id) in
    ((e, ("OpenItemMallResponse"%string, VStruct [VEnum "Success" [VNum user_id; VStr token]])),
     {| task_user := user_id; task_server := server_id; task_key := token;
        task_character := player.(player_character).(char_id) |})) <$> query e) events in
  (map fst opened, map snd opened).
