(* ===== verification/ChatSpec.v ===== *)
(** Chat: who receives a message and what its sender is told, that commands come
    from game masters, and what the command for a level leads to; where the code
    does something else than it says. *)
From stdpp Require Import base list option strings gmap.
From Stdlib Require Import ZArith Lia Floats.SpecFloat.
From S2P Require Import Prelude Utf Text F32 Show Definitions TypeIdEnums TypeId GameData Serde SerdeFacts Schema ProtoGeneral.
From S2P Require Import ProtoChat ProtoMovement ProtoInventory Packets.
From S2P Require Import Inventory Population Progress ProgressSpec Position Entities Visibility VisibilitySpec Characters Movement Combat Sync SyncSpec.
From S2P Require Import Join Spawning Chat.

(** ** Who receives a message *)

Section Delivery.
Context (set_order : gset EntityReference -> list EntityReference).
Hypothesis set_order_elements : forall s, set_order s ≡ₚ elements s.
Context (others : list (Entity * Player)) (lookup : EntityLookup).
Hypothesis others_distinct : NoDup (map fst others).

Definition is_client (e : Entity) : bool := bool_decide (is_Some (other others e)).

Lemma is_client_other e : is_client e = match other others e with Some _ => true | None => false end.
Proof. unfold is_client. destruct (other others e); reflexivity. Qed.

(** The client a private message is for. *)
Definition addressee (m : Message) : option Entity :=
  match m.(recipient) ≫= get_entity_for_name lookup with
  | Some e => if is_client e then Some e else None
  | None => None
  end.

(** Whether a message is shown to a client. *)
Definition addressed (r : Entity) (c : Chatter) (m : Message) : bool :=
  can_send_message m c.(chat_player)
  && (if bool_decide (m.(target) = "All"%string) then is_client r && in_radius r c.(chat_visibility)
      else if bool_decide (m.(target) = "AllGm"%string) then
        negb (starts_with dot m.(message))
        && match other others r with Some p => is_gm p && negb (same_user p c.(chat_player)) | None => false end
      else if bool_decide (m.(target) = "PrivateMessage"%string) then bool_decide (addressee m = Some r)
      else false).

(** How it is shown. *)
Definition shown (c : Chatter) (m : Message) : packet :=
  let from := VNum c.(chat_game_entity).(unique_id) in
  chat_update (if bool_decide (m.(target) = "All"%string) then ChatSource_all from
               else if bool_decide (m.(target) = "AllGm"%string) then ChatSource_allgm from
               else ChatSource_privatemessage (VStr c.(chat_player).(player_character).(name))) m.

(** What its sender is told: nothing for the other targets. *)
Definition told (c : Chatter) (m : Message) : option packet :=
  if negb (can_send_message m c.(chat_player)) then Some (chat_response invalid_target m)
  else if bool_decide (m.(target) ∈ ["All"; "AllGm"]%string) then Some (chat_response chat_success m)
  else if bool_decide (m.(target) = "PrivateMessage"%string) then
    Some (chat_response (if addressee m is Some _ then chat_success else invalid_target) m)
  else None.

(** The part of a message that is for a client. *)
Definition part (r : Entity) (c : Chatter) (m : Message) : list packet :=
  (if addressed r c m then [shown c m] else []) ++ (if c.(chat_entity) =? r then option_list (told c m) else []).

Definition messages (c : Chatter) : list Message := omap message_of c.(chat_input).

Lemma received_flat_map {A} r (f : A -> list (Entity * packet)) l :
  received r (flat_map f l) = flat_map (fun a => received r (f a)) l.
Proof. induction l as [|a l IH]; [reflexivity|]. cbn [flat_map]. rewrite received_app, IH. reflexivity. Qed.

Lemma received_one r e p : received r [(e, p)] = if e =? r then [p] else [].
Proof. unfold received. cbn. destruct (e =? r); reflexivity. Qed.

Lemma received_filtered r p (f : Entity * Player -> bool) l :
  NoDup (map fst l) ->
  received r (map (fun o => (o.1, p)) (List.filter f l))
  = match List.find (fun o => o.1 =? r) l with Some o => if f o then [p] else [] | None => [] end.
Proof.
  induction l as [|o l IH]; [reflexivity|]. intros [Ho Hn]%NoDup_cons. cbn [List.filter List.find].
  change (@fst Z Player o) with (@fst Entity Player o). destruct (Z.eqb_spec (@fst Entity Player o) r) as [E|E].
  - assert (Hr : received r (map (fun o => (o.1, p)) (List.filter f l)) = []).
    { rewrite (IH Hn). destruct (List.find (fun o => o.1 =? r) l) as [x|] eqn:Ef; [|reflexivity].
      apply List.find_some in Ef as [Hin Hx%Z.eqb_eq]. exfalso. apply Ho. replace o.1 with x.1 by congruence.
      apply list_elem_of_In, (in_map fst), Hin. }
    destruct (f o); [|exact Hr]. cbn [map]. change (received r ([(o.1, p)] ++ map (fun o => (o.1, p)) (List.filter f l)) = [p]).
    rewrite received_app, received_one, Hr, (proj2 (Z.eqb_eq _ _) E). reflexivity.
  - destruct (f o); [|apply IH, Hn]. cbn [map].
    change (received r ([(o.1, p)] ++ map (fun o => (o.1, p)) (List.filter f l))
            = match List.find (fun o => o.1 =? r) l with Some o => if f o then [p] else [] | None => [] end).
    rewrite received_app, received_one, (proj2 (Z.eqb_neq _ _) E). apply IH, Hn.
Qed.

Lemma filter_twice {A} (f g : A -> bool) l : List.filter f (List.filter g l) = List.filter (fun a => g a && f a) l.
Proof. rewrite filter_filter. apply List.filter_ext. intros a. apply andb_comm. Qed.

(** To all: to the clients in the radius. *)
Lemma received_around r c p :
  radius_wf c.(chat_entity) c.(chat_visibility) ->
  received r (flat_map (fun x => match other others x.(entity) with Some _ => [(x.(entity), p)] | None => [] end)
                (set_order c.(chat_visibility).(entities_in_radius)))
  = if is_client r && in_radius r c.(chat_visibility) then [p] else [].
Proof.
  intros [Hone _].
  assert (Hn : NoDup (map entity (set_order c.(chat_visibility).(entities_in_radius)))).
  { apply NoDup_fmap_2_strong; [|apply NoDup_set_order, set_order_elements].
    intros a b Ha Hb. apply (elem_of_set_order _ set_order_elements) in Ha, Hb. apply Hone; assumption. }
  rewrite (flat_map_ext _ (fun x => if is_client x.(entity) then packets_to x.(entity) (Some p) else [])).
  - rewrite received_others by exact Hn. rewrite (existsb_Permutation _ _ _ (set_order_elements _)). reflexivity.
  - intros x. rewrite is_client_other. destruct (other others x.(entity)); reflexivity.
Qed.

(** One message. *)
Lemma handle_message_parts r c m :
  radius_wf c.(chat_entity) c.(chat_visibility) ->
  received r (handle_message set_order others lookup c m).1 = part r c m.
Proof.
  intros Hwf. unfold handle_message, part, addressed, told, shown.
  destruct (can_send_message m (chat_player c)); cbn [negb andb fst]; [|apply received_one].
  destruct (bool_decide_reflect (m.(target) = "All"%string)) as [E|E].
  { rewrite E, bool_decide_true by set_solver. cbn [fst]. rewrite received_app, received_around, received_one by exact Hwf. reflexivity. }
  destruct (bool_decide_reflect (m.(target) = "AllGm"%string)) as [E'|E'].
  { rewrite E', bool_decide_true by set_solver. destruct (starts_with dot (message m)); cbn [fst negb andb]; [apply received_one|].
    rewrite received_app, received_one, filter_twice, received_filtered by exact others_distinct.
    unfold other. destruct (List.find (fun o => o.1 =? r) others) as [o|]; reflexivity. }
  rewrite (bool_decide_false (m.(target) ∈ _)) by set_solver.
  destruct (bool_decide_reflect (m.(target) = "PrivateMessage"%string)) as [E''|E'']; [|destruct (chat_entity c =? r); reflexivity].
  unfold addressee. destruct (m.(recipient) ≫= get_entity_for_name lookup) as [e|].
  - rewrite is_client_other. cbn. destruct (other others e) as [p|]; cbn; [|rewrite bool_decide_false by discriminate; apply received_one].
    change (received r ([(e, chat_update (ChatSource_privatemessage (VStr c.(chat_player).(player_character).(name))) m)]
                        ++ [(chat_entity c, chat_response chat_success m)])
            = (if bool_decide (Some e = Some r)
               then [chat_update (ChatSource_privatemessage (VStr c.(chat_player).(player_character).(name))) m] else [])
              ++ (if chat_entity c =? r then [chat_response chat_success m] else [])).
    rewrite received_app, !received_one. f_equal.
    destruct (Z.eqb_spec e r) as [->|H]; [rewrite bool_decide_true by reflexivity; reflexivity|].
    rewrite bool_decide_false by congruence. reflexivity.
  - cbn. rewrite bool_decide_false by discriminate. apply received_one.
Qed.

(** ** Commands, and legality *)

Definition Chatter_wf (c : Chatter) : Prop :=
  radius_wf c.(chat_entity) c.(chat_visibility)
  /\ fits 32 c.(chat_game_entity).(unique_id) = true
  /\ encodable no_args [] TString (VStr c.(chat_player).(player_character).(name)) = true
  /\ Forall (fun v => legal ChatMessage v = true) c.(chat_input).

Definition Message_legal (m : Message) : Prop :=
  encodable no_args [] ChatTarget (VEnum m.(target) []) = true /\ fits 8 m.(index) = true
  /\ encodable (sized 2) [] TString (VStr m.(message)) = true.

Lemma struct_fields a env name fs vs :
  encodable a env (struct name fs) (VStruct vs) = true -> encodable_fields [] (fields_of fs) vs = true.
Proof. intros H. exact H. Qed.

Lemma fields_cons env n a t fs v vs :
  encodable_fields env (fields_of ((n, a, t) :: fs)) (v :: vs) = true ->
  encodable a env t v = true /\ encodable_fields ((n, v) :: env) (fields_of fs) vs = true.
Proof. intros H. apply andb_true_iff, H. Qed.

Lemma message_legal v m : legal ChatMessage v = true -> message_of v = Some m -> Message_legal m.
Proof.
  intros Hv Hm. unfold message_of in Hm. repeat case_match; simplify_eq; unfold legal, ChatMessage in Hv;
    apply struct_fields, fields_cons in Hv as [Ht Hv]; apply fields_cons in Hv as [Hi Hv];
    do 3 (apply fields_cons in Hv as [_ Hv]); apply fields_cons in Hv as [Hs _];
    (split; [exact Ht|split; [exact Hi|exact Hs]]).
Qed.

(** Every message that was decoded is read. *)
Lemma message_read v : legal ChatMessage v = true -> is_Some (message_of v).
Proof.
  intros Hv. unfold legal in Hv. destruct v as [| | | | | | | |vs|]; try discriminate. unfold ChatMessage in Hv. apply struct_fields in Hv.
  destruct vs as [|t vs]; [discriminate|]. apply fields_cons in Hv as [Ht Hv].
  destruct vs as [|i vs]; [discriminate|]. apply fields_cons in Hv as [Hi Hv].
  destruct vs as [|b vs]; [discriminate|]. apply fields_cons in Hv as [_ Hv].
  destruct vs as [|u vs]; [discriminate|]. apply fields_cons in Hv as [_ Hv].
  destruct vs as [|r vs]; [discriminate|]. apply fields_cons in Hv as [Hr Hv].
  destruct vs as [|s vs]; [discriminate|]. apply fields_cons in Hv as [Hs Hv]. destruct vs; [|discriminate].
  destruct t as [| | | | | | | | |n l]; try discriminate. destruct i; try discriminate. destruct r; try discriminate.
  destruct s; try discriminate. destruct l as [|x l]; [eexists; reflexivity|]. exfalso.
  clear -Ht. cbn in Ht. repeat (case_match; [discriminate|]). discriminate.
Qed.

Lemma messages_legal c m : Chatter_wf c -> m ∈ messages c -> Message_legal m.
Proof.
  intros (_ & _ & _ & Hl) Hm. apply list_elem_of_omap in Hm as (v & Hv & Em).
  rewrite Forall_forall in Hl. exact (message_legal v m (Hl v Hv) Em).
Qed.

Lemma response_deliverable result m :
  Message_legal m -> encodable no_args [] ChatMessageResult result = true -> deliverable (chat_response result m).
Proof.
  intros (Ht & Hi & _) Hr. eapply deliverable_intro; [reflexivity|]. unfold chat_response, ChatMessageResponse_new. cbn [snd].
  apply encodable_struct. do 2 (apply encodable_fields_cons; [eapply encodable_no_when; [reflexivity|eassumption]|]). legal_fields.
Qed.

Lemma update_deliverable source m :
  Message_legal m -> encodable no_args [] ChatSource source = true -> deliverable (chat_update source m).
Proof.
  intros (_ & _ & Hm) Hs. eapply deliverable_intro; [reflexivity|]. unfold chat_update, ChatUpdate_new. cbn [snd].
  apply encodable_struct. do 2 (apply encodable_fields_cons; [eapply encodable_no_when; [reflexivity|eassumption]|]). reflexivity.
Qed.

Lemma handle_message_legal c m :
  Chatter_wf c -> Message_legal m ->
  Forall (fun e => deliverable e.2) (handle_message set_order others lookup c m).1.
Proof.
  intros (_ & Hu & Hn & _) Hm. unfold handle_message.
  assert (Hanswer : forall result, encodable no_args [] ChatMessageResult result = true ->
    Forall (fun e => deliverable e.2) [(chat_entity c, chat_response result m)]).
  { intros result Hr. constructor; [apply response_deliverable; assumption|constructor]. }
  assert (Hsuccess := Hanswer chat_success eq_refl). assert (Hinvalid := Hanswer invalid_target eq_refl).
  repeat case_match; cbn [fst]; try assumption; try (constructor; fail).
  - apply Forall_app. split; [|assumption]. apply Forall_flat_map, Forall_true. intros x.
    case_match; [|constructor]. constructor; [|constructor]. apply update_deliverable; [assumption|].
    unfold ChatSource_all. legal_value.
  - apply Forall_app. split; [|assumption]. apply Forall_map, Forall_true. intros x. apply update_deliverable; [assumption|].
    unfold ChatSource_allgm. legal_value.
  - constructor; [|assumption]. apply update_deliverable; [assumption|]. unfold ChatSource_privatemessage. legal_value.
Qed.

(** A command is a message to the game masters, of one of them. *)
Lemma handle_message_commands c m e cmd :
  (e, cmd) ∈ (handle_message set_order others lookup c m).2 ->
  e = c.(chat_entity) /\ is_gm c.(chat_player) = true /\ m.(target) = "AllGm"%string
  /\ starts_with dot m.(message) = true /\ cmd = command_of (trim_start dot m.(message)).
Proof.
  unfold handle_message, can_send_message. intros H.
  destruct (bool_decide_reflect (m.(target) = "AllGm"%string)) as [E|E].
  - rewrite E in H. cbn in H. destruct (is_gm (chat_player c)) eqn:Eg; cbn in H; [|apply not_elem_of_nil in H; contradiction].
    destruct (starts_with dot (message m)); cbn in H; [|apply not_elem_of_nil in H; contradiction].
    apply list_elem_of_singleton in H as [= -> ->]. auto.
  - repeat case_match; cbn [snd] in H; apply not_elem_of_nil in H; contradiction.
Qed.

(** C16: Of the messages of a tick every client receives, once and in order, those
    that are for it: a message to all when it is near the sender, one to the
    game masters when it is one, and a private one when it bears the name; the
    sender is told once whether each was accepted, unless it was for another
    group; only game masters give commands. All that is sent is legal. *)
Theorem chat_delivers (query : list Chatter) (Hwf : Forall Chatter_wf query) :
  (forall r, received r (handle_chat set_order others lookup query).1
             = flat_map (fun c => flat_map (part r c) (messages c)) query)
  /\ Forall (fun e => deliverable e.2) (handle_chat set_order others lookup query).1
  /\ (forall e cmd, (e, cmd) ∈ (handle_chat set_order others lookup query).2 ->
      exists c m, c ∈ query /\ m ∈ messages c /\ c.(chat_entity) = e /\ is_gm c.(chat_player) = true
        /\ m.(target) = "AllGm"%string /\ cmd = command_of (trim_start dot m.(message))).
Proof.
  unfold handle_chat, handle_chatter. cbn [fst snd]. split; [|split].
  - intros r. rewrite received_flat_map. induction Hwf as [|c cs Hc _ IH]; [reflexivity|]. cbn [flat_map].
    rewrite IH. f_equal. rewrite received_flat_map, flat_map_concat_map, map_map, <- flat_map_concat_map.
    apply flat_map_ext. intros m. apply handle_message_parts, Hc.
  - apply Forall_flat_map, (Forall_impl _ _ _ Hwf). intros c Hc. apply Forall_flat_map, Forall_map, Forall_forall.
    intros m Hm. apply handle_message_legal; [exact Hc|]. eapply messages_legal; eassumption.
  - intros e cmd (c & Hc & H)%list_elem_of_In%in_flat_map. apply in_flat_map in H as (x & Hx & H).
    apply in_map_iff in Hx as (m & <- & Hm). apply list_elem_of_In in Hc, Hm, H. apply handle_message_commands in H as (-> & Hg & Ht & _ & ->).
    exists c, m. auto 8.
Qed.

End Delivery.

(** ** The command for a level *)

(** Every level from the one of the player up to the one before the target is in
    the table. *)
Definition covered (levels : LevelMap) (from target : Z) : Prop := forall l, from <= l < target -> is_Some (levels !! l).

Lemma sum_u64_acc l acc : fold_left (fun acc e => u64 (acc + e)) l (u64 acc) = u64 (acc + foldr Z.add 0 l).
Proof.
  revert acc; induction l as [|e l IH]; intros acc; cbn [fold_left foldr]; [f_equal; lia|].
  replace (u64 (u64 acc + e)) with (u64 (acc + e)) by (unfold wrap; rewrite Zplus_mod_idemp_l; reflexivity).
  rewrite IH. f_equal. lia.
Qed.

(** The order of the levels does not matter. *)
Lemma sum_u64_foldr l : sum_u64 l = u64 (foldr Z.add 0 l).
Proof. exact (sum_u64_acc l 0). Qed.

Lemma sum_Permutation a b : a ≡ₚ b -> foldr Z.add 0 a = foldr Z.add 0 b.
Proof. induction 1; cbn; lia. Qed.

(** The sum of the experience of the levels that are chosen. *)
Definition sum_where (chosen : Z -> bool) (levels : LevelMap) : Z :=
  foldr Z.add 0 (map (fun l => l.2.(Progress.exp)) (List.filter (fun l => chosen l.1) (map_to_list levels))).

Lemma filter_Permutation {A} (f : A -> bool) a b : a ≡ₚ b -> List.filter f a ≡ₚ List.filter f b.
Proof.
  induction 1; cbn; [reflexivity|destruct (f x); auto|destruct (f x), (f y); auto using perm_swap|etransitivity; eassumption].
Qed.

Lemma sum_where_insert chosen k r levels :
  levels !! k = None ->
  sum_where chosen (<[k := r]> levels) = (if chosen k then r.(Progress.exp) else 0) + sum_where chosen levels.
Proof.
  intros Hk. unfold sum_where.
  rewrite (sum_Permutation _ _ (Permutation_map _ (filter_Permutation _ _ _ (map_to_list_insert _ _ _ Hk)))).
  cbn [List.filter fst]. destruct (chosen k); reflexivity.
Qed.

Lemma sum_where_empty chosen : sum_where chosen ∅ = 0.
Proof. reflexivity. Qed.

Lemma sum_where_split a b c levels :
  (forall k, a k = b k || c k) -> (forall k, b k && c k = false) ->
  sum_where a levels = sum_where b levels + sum_where c levels.
Proof.
  intros Ha Hbc. induction levels as [|k r levels Hk IH] using map_ind; [rewrite !sum_where_empty; reflexivity|].
  rewrite !sum_where_insert, IH by exact Hk. rewrite Ha. specialize (Hbc k). destruct (b k), (c k); cbn in *; lia.
Qed.

Lemma sum_where_none a levels : (forall k, a k = false) -> sum_where a levels = 0.
Proof.
  intros Ha. induction levels as [|k r levels Hk IH] using map_ind; [apply sum_where_empty|].
  rewrite sum_where_insert, IH, Ha by exact Hk. reflexivity.
Qed.

Lemma sum_where_one k levels : sum_where (fun x => x =? k) levels = default 0 (get_exp_for_level levels k).
Proof.
  induction levels as [|i x m Hi IH] using map_ind; [reflexivity|]. rewrite sum_where_insert, IH by exact Hi.
  unfold get_exp_for_level, LevelMap. destruct (Z.eqb_spec i k) as [->|Hik].
  - rewrite Hi, lookup_insert_eq. cbn. unfold Datatypes.id. lia.
  - rewrite lookup_insert_ne by exact Hik. reflexivity.
Qed.

(** What the levels from one on cost is their sum. *)
Lemma sum_where_cost levels n : forall from,
  0 <= from -> from + Z.of_nat n <= 255 ->
  sum_where (fun l => (from <=? l) && (l <? from + Z.of_nat n)) levels = level_cost levels from n.
Proof.
  induction n as [|n IH]; intros from Hf Hn; cbn [level_cost].
  - apply sum_where_none. intros k. apply andb_false_iff. rewrite Z.leb_gt, Z.ltb_ge. lia.
  - rewrite (sum_where_split _ (fun l => l =? from) (fun l => (sat_add 8 from 1 <=? l) && (l <? sat_add 8 from 1 + Z.of_nat n)))
      by (unfold sat_add; intros k; repeat case_match; repeat match goal with |- context [?a <=? ?b] => destruct (Z.leb_spec a b) | |- context [?a <? ?b] => destruct (Z.ltb_spec a b) | |- context [?a =? ?b] => destruct (Z.eqb_spec a b) end; cbn; lia).
    rewrite sum_where_one, IH by (unfold sat_add; lia). reflexivity.
Qed.

Lemma total_required_cost levels from n :
  0 <= from -> from + Z.of_nat n <= 255 -> total_required_exp levels from (from + Z.of_nat n) = u64 (level_cost levels from n).
Proof. intros Hf Hn. unfold total_required_exp. rewrite sum_u64_foldr, <- sum_where_cost by assumption. reflexivity. Qed.

Lemma level_cost_nonneg levels (Hpos : forall l r, levels !! l = Some r -> 0 <= r.(Progress.exp)) n : forall from, 0 <= level_cost levels from n.
Proof.
  induction n as [|n IH]; intros from; cbn; [lia|]. specialize (IH (sat_add 8 from 1)).
  unfold get_exp_for_level. destruct (levels !! from) as [r|] eqn:E; cbn; [|lia]. specialize (Hpos _ _ E). lia.
Qed.

(** Exactly what the levels cost is spent on them. *)
Lemma level_loop_reaches levels (Hpos : forall l r, levels !! l = Some r -> 0 <= r.(Progress.exp)) n : forall fuel l x,
  0 <= l.(Progress.level) -> l.(Progress.level) + Z.of_nat n <= 255 ->
  covered levels l.(Progress.level) (l.(Progress.level) + Z.of_nat n) ->
  (forall r, levels !! (l.(Progress.level) + Z.of_nat n) = Some r -> 0 < r.(Progress.exp)) ->
  x.(experience) = level_cost levels l.(Progress.level) n -> (n < fuel)%nat ->
  exists l' x', level_loop fuel levels l x = Some (l', x') /\ l'.(Progress.level) = l.(Progress.level) + Z.of_nat n
    /\ x'.(experience) = 0 /\ x'.(Progress.sp_exp) = x.(Progress.sp_exp).
Proof.
  induction n as [|n IH]; intros fuel l x Hl Hn Hc Ht Hx Hf; (destruct fuel as [|fuel]; [lia|]); cbn [level_loop]; unfold get_exp_for_level.
  - exists l, x. rewrite Z.add_0_r in *. cbn [level_cost] in Hx.
    destruct (levels !! Progress.level l) as [r|] eqn:E; cbn [fmap option_fmap option_map]; [|auto].
    unfold try_level_up. specialize (Ht _ eq_refl). destruct (Z.leb_spec r.(Progress.exp) x.(experience)); [lia|auto].
  - cbn [level_cost] in Hx. destruct (Hc l.(Progress.level)) as [r E]; [lia|].
    unfold get_exp_for_level in Hx at 1. rewrite E in *. cbn [fmap option_fmap option_map default from_option] in *. unfold Datatypes.id in Hx.
    pose proof (level_cost_nonneg levels Hpos n (sat_add 8 l.(Progress.level) 1)).
    unfold try_level_up. destruct (Z.leb_spec r.(Progress.exp) x.(experience)); [|lia].
    assert (Es : sat_add 8 l.(Progress.level) 1 = l.(Progress.level) + 1) by (unfold sat_add; lia).
    assert (El : (level_up l).(Progress.level) = l.(Progress.level) + 1) by (cbn; exact Es).
    replace (l.(Progress.level) + Z.of_nat (S n)) with ((level_up l).(Progress.level) + Z.of_nat n) in * by lia.
    match goal with |- context [level_loop fuel levels _ ?x1] => destruct (IH fuel (level_up l) x1) as (l' & x' & R) end;
      cbn [experience]; [lia|lia|intros k Hk; apply Hc; lia|exact Ht|rewrite El, <- Es; lia|lia|].
    exists l', x'. exact R.
Qed.

Lemma decimal_no_space z : space ∉ decimal z.
Proof. apply decimal_no; unfold space, minus_sign; lia. Qed.

(** A command with one number. *)
Lemma command_number name z :
  space ∉ name -> command_of (name ++ space :: decimal z) = {| command_name := name; command_args := [decimal z] |}.
Proof.
  intros Hn. unfold command_of.
  assert (E : split_once space (name ++ space :: decimal z) = Some (name, decimal z)).
  { induction name as [|c name IH]; cbn [app split_once]; [rewrite Z.eqb_refl; reflexivity|].
    apply not_elem_of_cons in Hn as [Hc Hn]. rewrite (proj2 (Z.eqb_neq c space)), IH by congruence || exact Hn. reflexivity. }
  rewrite E, split_one by apply decimal_no_space. reflexivity.
Qed.

Section Level.
Context (set_order : gset EntityReference -> list EntityReference) (others : list (Entity * Player)) (lookup : EntityLookup).
Context (mesh_for : Region -> option Heightmap) (levels : LevelMap) (position_of : Entity -> option Position).
Hypothesis levels_nonneg : forall l r, levels !! l = Some r -> 0 <= r.(Progress.exp).

Lemma gm_command c m text :
  m.(Chat.target) = "AllGm"%string -> m.(message) = dot :: text -> starts_with dot text = false -> is_gm c.(chat_player) = true ->
  (handle_message set_order others lookup c m).2 = [(c.(chat_entity), command_of text)].
Proof.
  intros Ht Hm Hs Hgm. unfold handle_message, can_send_message. rewrite Ht, Hm. cbn. rewrite Hgm. cbn.
  destruct text as [|d text]; [reflexivity|]. cbn in Hs |- *. rewrite Hs. reflexivity.
Qed.

(** The command for a level, on every branch. *)
Lemma level_decides p agent target :
  0 <= target <= 255 ->
  let before := p.(cm_player).(player_character).(Characters.level) in
  let total := total_required_exp levels before target in
  run_command mesh_for levels position_of {| command_name := chars "level"; command_args := [decimal target] |} p agent
  = Ok (if target <=? before then replied_last agent (command_response (chars "Level needs to be higher than the current one."))
        else if total =? 0 then replied_last agent (command_response (chars "Level is not possible"))
        else gained agent p.(cm_reference) (u64 (total - p.(cm_player).(player_character).(Characters.exp))) 0).
Proof.
  intros Ht before total. unfold run_command. cbn [command_name command_args hd_error mbind option_bind].
  repeat (rewrite bool_decide_false by discriminate). rewrite bool_decide_true by reflexivity.
  rewrite parse_decimal by (cbn; try lia; unfold in_type; cbn; lia). cbn [parse_opt]. fold before total.
  destruct (target <=? before); [reflexivity|]. destruct (total =? 0); reflexivity.
Qed.

Lemma receives_level g before n amount fuel :
  g.(leveled).(Progress.level) = before -> 0 <= before -> before + Z.of_nat n <= 255 ->
  covered levels before (before + Z.of_nat n) ->
  (forall r, levels !! (before + Z.of_nat n) = Some r -> 0 < r.(Progress.exp)) ->
  0 <= g.(experienced).(experience) -> g.(experienced).(experience) + amount = level_cost levels before n ->
  0 < amount -> level_cost levels before n < 2 ^ 64 -> 0 <= g.(experienced).(Progress.sp_exp) < EXP_PER_SP -> (n < fuel)%nat ->
  exists g', receive_experience fuel levels amount 0 None g = Some g'
    /\ g'.(leveled).(Progress.level) = before + Z.of_nat n /\ g'.(experienced).(experience) = 0
    /\ g'.(skill_points) = g.(skill_points) /\ g'.(experienced).(Progress.sp_exp) = g.(experienced).(Progress.sp_exp).
Proof.
  intros Hl Hb Hn Hc Ht Hx Hsum Ha Hfit Hsp Hf. unfold receive_experience. rewrite (proj2 (Z.eqb_neq amount 0)) by lia. cbn [andb].
  unfold receive, convert_sp. cbn [experience Progress.sp_exp experience_received]. unfold EXP_PER_SP in *.
  rewrite Z.add_0_r, (wrap_small 64 (Progress.sp_exp _)), (wrap_small 64 (_ + amount)) by (apply fits_spec; lia).
  rewrite Z.div_small, Z.mod_small by exact Hsp.
  match goal with |- context [level_loop fuel levels _ ?x] =>
    destruct (level_loop_reaches levels levels_nonneg n fuel (leveled g) x) as (l' & x' & E & El & Ex & Es) end;
    rewrite ?Hl; try assumption.
  rewrite E. eexists. split; [reflexivity|]. cbn. rewrite El, Es, Hl. auto.
Qed.

(** C17: A game master who has not progressed since it joined and asks for a
    level to which the table knows the way, in a message ".level n", is given
    exactly the experience that leads there: after its event is handled the
    player has that level, no experience, and its skill points as before. *)
Theorem level_command_reaches (c : Chatter) (m : Message) (p : Commander) (agent : Agent) (g : Progression) (target fuel : Z) :
  let before := p.(cm_player).(player_character).(Characters.level) in
  m.(Chat.target) = "AllGm"%string -> m.(message) = chars ".level " ++ decimal target ->
  is_gm c.(chat_player) = true ->
  g.(leveled).(Progress.level) = before ->
  g.(experienced).(experience) = p.(cm_player).(player_character).(Characters.exp) ->
  ProgressSpec.settled levels g.(leveled) g.(experienced) ->
  0 <= before < target -> target <= 255 -> covered levels before target ->
  (forall r, levels !! target = Some r -> 0 < r.(Progress.exp)) ->
  level_cost levels before (Z.to_nat (target - before)) < 2 ^ 64 ->
  0 <= g.(experienced).(experience) -> 0 <= g.(experienced).(Progress.sp_exp) < EXP_PER_SP ->
  target - before < fuel ->
  exists cmd event g',
    (handle_message set_order others lookup c m).2 = [(c.(chat_entity), cmd)]
    /\ run_command mesh_for levels position_of cmd p agent
       = Ok {| replies := []; agent_after := agent; teleports := []; gains := [event]; returns := false |}
    /\ event.(exp_target) = p.(cm_reference)
    /\ receive_experience (Z.to_nat fuel) levels event.(exp_amount) event.(sp_amount)
         (unique_id ∘ game_entity <$> event.(exp_source)) g = Some g'
    /\ g'.(leveled).(Progress.level) = target /\ g'.(experienced).(experience) = 0
    /\ g'.(skill_points) = g.(skill_points) /\ g'.(experienced).(Progress.sp_exp) = g.(experienced).(Progress.sp_exp).
Proof.
  intros before Ht Hm Hgm Hl Hx Hsettled Hb Htop Hc Hpos Hsum Hx0 Hsp Hf.
  set (n := Z.to_nat (target - before)) in *. assert (En : target = before + Z.of_nat n) by lia.
  assert (Hcost : g.(experienced).(experience) < level_cost levels before n).
  { destruct n as [|n'] eqn:E; [lia|]. cbn [level_cost]. unfold ProgressSpec.settled in Hsettled. rewrite Hl in Hsettled.
    destruct (Hc before) as [r Hr]; [lia|]. unfold get_exp_for_level in *. rewrite Hr in *. cbn in *. unfold Datatypes.id.
    pose proof (level_cost_nonneg levels levels_nonneg n' (sat_add 8 before 1)). lia. }
  assert (Etotal : total_required_exp levels before target = level_cost levels before n).
  { rewrite En, total_required_cost by lia. apply wrap_small, fits_spec. lia. }
  assert (Eamount : u64 (total_required_exp levels before target - p.(cm_player).(player_character).(Characters.exp))
                    = level_cost levels before n - g.(experienced).(experience)).
  { rewrite Etotal, <- Hx. apply wrap_small, fits_spec. lia. }
  set (amount := level_cost levels before n - g.(experienced).(experience)) in *.
  destruct (receives_level g before n amount (Z.to_nat fuel)) as (g' & Eg & R);
    [exact Hl|lia|lia|rewrite <- En; exact Hc|rewrite <- En; exact Hpos|exact Hx0|subst amount; lia|subst amount; lia|exact Hsum|exact Hsp|lia|].
  exists {| command_name := chars "level"; command_args := [decimal target] |},
    {| exp_source := None; exp_target := p.(cm_reference); exp_amount := amount; sp_amount := 0 |}, g'.
  split; [|split; [|split; [reflexivity|split; [exact Eg|rewrite En; exact R]]]].
  - rewrite <- (command_number (chars "level") target) by (apply (bool_decide_unpack _); reflexivity).
    apply gm_command; [exact Ht|exact Hm|reflexivity|exact Hgm].
  - rewrite level_decides by lia. fold before. rewrite Eamount, Etotal, (proj2 (Z.leb_gt _ _)), (proj2 (Z.eqb_neq _ _)) by lia.
    reflexivity.
Qed.
End Level.

(** ** Where the code does something else *)

Section Findings.
Context (set_order : gset EntityReference -> list EntityReference) (others : list (Entity * Player)) (lookup : EntityLookup).
Context (mesh_for : Region -> option Heightmap) (levels : LevelMap) (position_of : Entity -> option Position).
Context (find_item : Z -> option GameData.RefItemData).

(** A message to a party, a guild, a stall, a union or an academy is neither
    delivered nor answered, though it may be sent. *)
Lemma other_groups_unanswered c m :
  m.(Chat.target) ∈ ["Party"; "Guild"; "Stall"; "Union"; "Academy"]%string ->
  can_send_message m c.(chat_player) = true /\ handle_message set_order others lookup c m = ([], []).
Proof.
  intros Ht. apply list_elem_of_In in Ht. unfold handle_message, can_send_message.
  cbn [In] in Ht. destruct Ht as [<-|[<-|[<-|[<-|[<-|[]]]]]]; split; reflexivity.
Qed.

(** The commands of the window of game masters are carried out for everyone:
    what the handler does depends on no player. An item that does not exist
    stops the server. *)
Lemma anyone_makes_monsters e position id amount rarity :
  exists effect, handle_gm_command find_item e position (VEnum "SpawnMonster" [VNum id; VNum amount; rarity]) = Ok effect
    /\ length effect.(gm_monsters) = Z.to_nat amount.
Proof. eexists. split; [reflexivity|]. apply repeat_length. Qed.

Lemma unknown_item_panics e position id upgrade :
  find_item id = None -> handle_gm_command find_item e position (VEnum "MakeItem" [VNum id; VNum upgrade]) = Panic.
Proof. intros H. cbn. rewrite H. reflexivity. Qed.

(** A coordinate that is no number stops the server. *)
Lemma bad_coordinate_panics p agent :
  run_command mesh_for levels position_of (command_of (chars "tp 1 here")) p agent = Panic.
Proof. reflexivity. Qed.

(** The level and the experience of the command are those with which the
    character joined; from a table that ends too early the subtraction wraps. *)
Lemma level_command_wraps p agent :
  p.(cm_player).(player_character).(Characters.level) = 1 -> p.(cm_player).(player_character).(Characters.exp) = 150 ->
  exists amount, run_command mesh_for small_levels position_of (command_of (chars "level 2")) p agent
    = Ok (gained agent p.(cm_reference) amount 0) /\ amount = 2 ^ 64 - 50.
Proof.
  intros Hl Hx. unfold run_command. cbn -[total_required_exp]. rewrite Hl, Hx. cbn -[total_required_exp].
  replace (total_required_exp small_levels 1 2) with 100 by (vm_compute; reflexivity). cbn. eexists. split; reflexivity.
Qed.

(** A level that is refused ends the system: commands of others wait for its
    next run. *)
Lemma refused_level_ends query agents e p agent rest :
  query e = Some p -> agents !! e = Some agent -> 5 <= p.(cm_player).(player_character).(Characters.level) ->
  exists done, handle_command mesh_for levels position_of query ((e, {| command_name := chars "level"; command_args := [decimal 5] |}) :: rest) agents = Ok done
    /\ done.(cd_unread) = rest /\ length done.(cd_sent) = 1%nat.
Proof.
  intros Hq Ha Hl. cbn [handle_command]. rewrite Hq, Ha, level_decides, (proj2 (Z.leb_le _ _)) by lia.
  eexists. split; [reflexivity|]. split; reflexivity.
Qed.

End Findings.

(** ** The item mall *)

(** The keys that are stored for a user on a server. *)
Definition keys_for (user server : Z) (rows : list MallRow) : list (list Z) :=
  map mall_key (List.filter (fun r => (r.(mall_user) =? i32 user) && (r.(mall_server) =? i16 server)) rows).

Lemma stored_key user server r : (r.(mall_user) =? i32 user) && (r.(mall_server) =? i16 server) = true ->
  List.filter (fun r => (r.(mall_user) =? i32 user) && (r.(mall_server) =? i16 server)) [r] = [r].
Proof. cbn. intros ->. reflexivity. Qed.

(** Opening the mall stores the token that is sent, in place of older ones, until
    it is a quarter of an hour old; keys of others stay. *)
Lemma mall_key_stored now later user server key character rows :
  keys_for user server (delete_expired_mall_keys later (insert_user_mall_key true true now user server key character rows))
  = (if later <? now + 900 then [key] else [])
  /\ forall u s, (i32 u, i16 s) <> (i32 user, i16 server) ->
       keys_for u s (insert_user_mall_key true true now user server key character rows) = keys_for u s rows.
Proof.
  unfold insert_user_mall_key, keys_for, delete_expired_mall_keys, delete_user_mall_key. split.
  - rewrite !filter_twice, !List.filter_app, map_app.
    enough (H : forall f, List.filter (fun a : MallRow => (negb (a.(mall_expiry) <=? later)) && f a && f a)
      (List.filter (fun r => negb (f r)) rows) = []).
    { specialize (H (fun r => (r.(mall_user) =? i32 user) && (r.(mall_server) =? i16 server))). cbn beta in H.
      replace (List.filter _ (List.filter _ rows)) with (@nil MallRow); [cbn|].
      - rewrite !Z.eqb_refl. cbn. replace (now + 15 * 60) with (now + 900) by lia.
        destruct (Z.leb_spec (now + 900) later), (Z.ltb_spec later (now + 900)); try lia; reflexivity.
      - symmetry. rewrite <- H. apply List.filter_ext. intros a. destruct (negb _), (_ && _); reflexivity. }
    intros f. rewrite filter_twice. induction rows as [|r rs IH]; [reflexivity|]. cbn.
    destruct (f r); cbn; rewrite ?andb_false_r; exact IH.
  - intros u s Hne. rewrite List.filter_app, filter_twice. cbn [List.filter mall_user mall_server].
    replace ((i32 user =? i32 u) && (i16 server =? i16 s)) with false.
    + rewrite app_nil_r. f_equal. apply List.filter_ext. intros r.
      destruct (Z.eqb_spec r.(mall_user) (i32 u)) as [->|]; [|apply andb_false_r].
      destruct (Z.eqb_spec r.(mall_server) (i16 s)) as [->|]; [|apply andb_false_r]. cbn.
      destruct (Z.eqb_spec (i32 u) (i32 user)), (Z.eqb_spec (i16 s) (i16 server)); try reflexivity. congruence.
    + symmetry. destruct (Z.eqb_spec (i32 user) (i32 u)), (Z.eqb_spec (i16 server) (i16 s)); try reflexivity. congruence.
Qed.

(** ** Examples: a game master, someone near it and someone who is not *)

#[local] Definition a_character (n : string) (level exp : Z) (gm : bool) : Character :=
  {| char_id := 1; name := chars n; Characters.race := European; scale := 0; Characters.level := level; Characters.max_level := level;
     Characters.exp := exp; Characters.sp := 0; Characters.sp_exp := 0; Characters.stats := {| str := 20; int := 20 |};
     Characters.stat_points := 0; current_hp := 100; current_mp := 100; berserk_points := 0; Characters.gold := 0;
     beginner_mark := false; gm := gm; state := Finished; Characters.masteries := []; Characters.skills := [] |}.
#[local] Definition a_user (id : Z) (n : string) : ServerUser :=
  {| Population.id := id; Population.username := chars n; job := 0; premium_type := 0; premium_end := None |}.
#[local] Definition gale : Player := {| player_user := a_user 1 "gale"; player_character := a_character "Gale" 1 50 true |}.
#[local] Definition hugh : Player := {| player_user := a_user 2 "hugh"; player_character := a_character "Hugh" 1 0 false |}.
#[local] Definition ivy : Player := {| player_user := a_user 3 "ivy"; player_character := a_character "Ivy" 1 0 true |}.

#[local] Definition said (target : string) (to : option (list Z)) (text : string) : val :=
  VStruct [VEnum target []; VNum 1; VBool false; VNum 0; VOpt (VStr <$> to); VStr (chars text)].
#[local] Definition gale_chats : Chatter :=
  {| chat_entity := 1; chat_game_entity := player_a.(game_entity);
     chat_input := [said "All" None "hello"; said "AllGm" None "anyone?"; said "AllGm" None ".level 3";
                    said "PrivateMessage" (Some (chars "Ivy")) "hi"; said "PrivateMessage" (Some (chars "Joe")) "hi"];
     chat_visibility := sight [player_b; monster_c]; chat_player := gale |}.
#[local] Definition hugh_chats : Chatter :=
  {| chat_entity := 2; chat_game_entity := player_b.(game_entity);
     chat_input := [said "AllGm" None ".level 3"; said "Party" None "hello"]; chat_visibility := sight []; chat_player := hugh |}.
#[local] Definition online : list (Entity * Player) := [(1, gale); (2, hugh); (4, ivy)].
#[local] Definition by_name : EntityLookup :=
  {| player_map := {[chars "Gale" := 1; chars "Hugh" := 2; chars "Ivy" := 4]}; id_map := ∅ |}.

Lemma chat_delivers_witness :
  (forall r, received r (handle_chat elements online by_name [gale_chats; hugh_chats]).1
             = flat_map (fun c => flat_map (part online by_name r c) (messages c)) [gale_chats; hugh_chats])
  /\ Forall (fun e => deliverable e.2) (handle_chat elements online by_name [gale_chats; hugh_chats]).1
  /\ map (fun r => length (received r (handle_chat elements online by_name [gale_chats; hugh_chats]).1)) [1; 2; 4]
     = [5; 2; 2]%nat
  /\ map fst (handle_chat elements online by_name [gale_chats; hugh_chats]).2 = [1].
Proof.
  destruct (chat_delivers elements (fun s => reflexivity _) online by_name) with (query := [gale_chats; hugh_chats]) as (H1 & H2 & _).
  - apply (bool_decide_unpack _). reflexivity.
  - constructor; [|constructor; [|constructor]]; (split; [split|split; [reflexivity|split; [reflexivity|repeat constructor]]]);
      cbn [sight chat_visibility entities_in_radius gale_chats hugh_chats chat_entity]; intros a.
    all: try (intros b Ha Hb; rewrite elem_of_list_to_set, ?elem_of_cons, elem_of_nil in Ha, Hb;
      repeat destruct Ha as [->|Ha]; repeat destruct Hb as [->|Hb]; try contradiction; cbn; congruence).
    all: intros Ha; rewrite elem_of_list_to_set, ?elem_of_cons, elem_of_nil in Ha; repeat destruct Ha as [->|Ha]; try contradiction; cbn; lia.
  - split; [exact H1|]. split; [exact H2|]. split; vm_compute; reflexivity.
Defined.

#[local] Definition gale_commands : Commander :=
  {| cm_reference := player_a; cm_position := at_point 259200 176640; cm_target := None; cm_player := gale |}.
#[local] Definition gale_progress : Progression :=
  {| leveled := leveled_new 1 1; experienced := experienced_new 50 300; skill_points := MkSP 2 |}.

Lemma level_command_reaches_witness :
  exists cmd event g',
    (handle_message elements online by_name gale_chats
       {| Chat.target := "AllGm"; Chat.index := 1; recipient := None; message := chars ".level 3" |}).2 = [(1, cmd)]
    /\ run_command (fun _ => None) small_levels (fun _ => None) cmd gale_commands agent_default
       = Ok {| replies := []; agent_after := agent_default; teleports := []; gains := [event]; returns := false |}
    /\ receive_experience 700 small_levels event.(exp_amount) event.(sp_amount)
         (unique_id ∘ game_entity <$> event.(exp_source)) gale_progress = Some g'
    /\ g'.(leveled).(Progress.level) = 3 /\ g'.(experienced).(experience) = 0.
Proof.
  destruct (level_command_reaches elements online by_name (fun _ => None) small_levels (fun _ => None) (proj1 small_levels_ok)
    gale_chats {| Chat.target := "AllGm"; Chat.index := 1; recipient := None; message := chars ".level 3" |}
    gale_commands agent_default gale_progress 3 700) as (cmd & event & g' & H1 & H2 & _ & H3 & H4 & H5 & _);
    [reflexivity|reflexivity|reflexivity|reflexivity|reflexivity|reflexivity|cbn; lia|lia| | |reflexivity|cbn; lia|unfold EXP_PER_SP; cbn; lia|cbn; lia|].
  - intros l Hl. cbn in Hl. assert (l = 1 \/ l = 2) as [->| ->] by lia; eexists; reflexivity.
  - intros r [= <-]. reflexivity.
  - exists cmd, event, g'. auto.
Defined.
