(* ===== verification/Decryptor.v ===== *)
(** silkroad-packet-decryptor/src/main.rs: the tool that takes the keys of a
    session from the capture of its handshake, and decrypts its packets.

    Reading and writing capture files and the headers of the lower layers are
    parameters. Threads of the search only return what they find; they are
    joined in order. *)
From stdpp Require Import base list option.
From Stdlib Require Import ZArith Lia.
From S2P Require Import Prelude Utf Security.

(** ** The search for the exponent *)

Definition u32_max : Z := 2 ^ 32 - 1.

(** [(u32::MAX / 2) / thread_count] *)
Definition steps (thread_count : Z) : Z := u32_max / 2 / thread_count.

(** [(start..start + n).rev().find(..)] *)
Fixpoint find_down {E} (n : nat) (start : Z) (test : Z -> outcome E bool) : outcome E (option Z) :=
  match n with
  | O => Ok None
  | S n =>
      let i := start + Z.of_nat n in
      found ← test i;
      if (found : bool) then Ok (Some i) else find_down n start test
  end.

(** What one thread finds. *)
Definition search (p g a : Z) (thread_count thread : Z) : outcome Empty_set (option Z) :=
  let start := thread * steps thread_count in
  find_down (Z.to_nat (steps thread_count)) start (fun i => (fun r => r =? a) <$> g_pow_x_mod_p p i g).

Fixpoint join_all (threads : list (outcome Empty_set (option Z))) : outcome Empty_set (list Z) :=
  match threads with
  | [] => Ok []
  | t :: threads =>
      found ← t;
      rest ← join_all threads;
      Ok (option_list found ++ rest)
  end.

(** [find_x]: a division by no threads panics. *)
Definition find_x (thread_count : Z) (p g a : Z) : outcome Empty_set (list Z) :=
  if thread_count =? 0 then Panic
  else join_all (map (fun t => search p g a thread_count (Z.of_nat t)) (seq 0 (Z.to_nat thread_count))).

Record SecurityData := { handshake_bytes : Z; init_g : Z; init_p : Z; init_a : Z }.

(** ** The headers of the lower layers *)

Inductive EtherType := EtherIPv4 | EtherIPv6 | EtherOther.
Inductive IPProtocol := TCP | OtherProtocol.
Record TcpHeader := { source_port : Z; dest_port : Z; flag_psh : bool }.

(** The parsers of the library: a header, of which only what is used is kept,
    and what follows it. *)
Class Pktparse := {
  parse_ethernet_frame : list Z -> option (list Z * EtherType);
  parse_ipv4_header : list Z -> option (list Z * IPProtocol);
  parse_ipv6_header : list Z -> option (list Z * IPProtocol);
  parse_tcp_header : list Z -> option (list Z * TcpHeader)
}.

(** [PcapPacket] *)
Record PcapPacket := { timestamp : Z; orig_len : Z; packet_data : list Z }.

(** [&data\[from..to\]] *)
Definition slice (from to : nat) (data : list Z) : outcome unit (list Z) :=
  if (to <=? length data)%nat then Ok (take (to - from) (drop from data)) else Panic.
Definition at_index (i : nat) (data : list Z) : outcome unit Z :=
  match data !! i with Some b => Ok b | None => Panic end.

(** [read_u16] and the like of a slice. *)
Definition read_le (from to : nat) (data : list Z) : outcome unit Z := le_num <$> slice from to data.

Section Decryptor.
Context {cipher : Type} `{!BlockCipher cipher} `{!Pktparse}.

(** The candidates in turn, until one is accepted by the challenge of the client. *)
Fixpoint try_options (input : SecurityData) (client_b client_key : Z) (options : list Z)
    : outcome unit (option (security_state cipher)) :=
  match options with
  | [] => Ok None
  | option :: options =>
      let security := initialize_with 0 0 input.(handshake_bytes) option input.(init_p) input.(init_a) Uninitialized in
      match start_challenge client_b client_key security with
      | Ok (_, security) =>
          match accept_challenge security with
          | Ok security => Ok (Some security)
          | _ => Panic
          end
      | Err _ => try_options input client_b client_key options
      | Panic => Panic
      end
  end.

Definition break_security (thread_count : Z) (input : SecurityData) (client_b client_key : Z)
    : outcome unit (option (security_state cipher)) :=
  match find_x thread_count input.(init_p) input.(init_g) input.(init_a) with
  | Ok options => try_options input client_b client_key options
  | _ => Panic
  end.

(** ** The rewriter *)

Record Settings := { server_ports : list Z; filter_other : bool; threads : Z }.

Record Rewriter := {
  current_security : option (security_state cipher);
  security_initialization : option SecurityData;
}.

Definition rewriter_new : Rewriter := {| current_security := None; security_initialization := None |}.

Definition get_tcp_data (data : list Z) : option (TcpHeader * list Z) :=
  match parse_ethernet_frame data with
  | None => None
  | Some (remaining, ethertype) =>
      match (match ethertype with
             | EtherIPv4 => parse_ipv4_header remaining
             | EtherIPv6 => parse_ipv6_header remaining
             | EtherOther => None
             end) with
      | Some (remaining, TCP) =>
          match parse_tcp_header remaining with
          | Some (remaining, tcp_header) => Some (tcp_header, remaining)
          | None => None
          end
      | _ => None
      end
  end.

Definition is_packet_encrypted (data : list Z) : outcome unit bool :=
  b ← at_index 1 data; Ok (negb (Z.land b 0x80 =? 0)).

Definition handle_unencrypted (settings : Settings) (tcp : TcpHeader) (data : list Z) (r : Rewriter) : outcome unit Rewriter :=
  opcode ← read_le 2 4 data;
  if bool_decide (tcp.(source_port) ∈ settings.(server_ports)) then
    if opcode =? 0x5000 then
      size ← at_index 0 data;
      if size =? 0x25 then
        handshake ← read_le 23 31 data;
        g ← read_le 31 35 data;
        p ← read_le 35 39 data;
        a ← read_le 39 43 data;
        Ok {| current_security := r.(current_security);
              security_initialization := Some {| handshake_bytes := handshake; init_g := g; init_p := p; init_a := a |} |}
      else Ok r
    else Ok r
  else if opcode =? 0x5000 then
    b ← read_le 6 10 data;
    key ← read_le 10 18 data;
    match r.(security_initialization) with
    | None => Panic
    | Some init =>
        result ← break_security settings.(threads) init b key;
        Ok {| current_security := result; security_initialization := None |}
    end
  else Ok r.

(** The second byte loses its highest bit. *)
Definition decrypted_data (data plain : list Z) : list Z :=
  match data with
  | first :: second :: _ => first :: Z.land second 0x7F :: plain
  | _ => data
  end.

Definition handle_packet (settings : Settings) (packet : PcapPacket) (tcp : TcpHeader) (data : list Z) (r : Rewriter)
    : outcome unit (PcapPacket * Rewriter) :=
  let header_len := (length packet.(packet_data) - length data)%nat in
  let header_data := take header_len packet.(packet_data) in
  encrypted ← is_packet_encrypted data;
  handled ← (if (encrypted : bool) then
               match r.(current_security) with
               | Some security =>
                   match decrypt_mut (drop 2 data) security with
                   | Ok plain => Ok (decrypted_data data plain, r)
                   | _ => Panic
                   end
               | None => Ok (data, r)
               end
             else r ← handle_unencrypted settings tcp data r; Ok (data, r));
  Ok ({| timestamp := packet.(timestamp); orig_len := packet.(orig_len); packet_data := header_data ++ handled.1 |}, handled.2).

Definition should_handle_packet (settings : Settings) (tcp : TcpHeader) : bool :=
  bool_decide (tcp.(source_port) ∈ settings.(server_ports)) || bool_decide (tcp.(dest_port) ∈ settings.(server_ports)).

(** One packet: what is written for it. *)
Definition rewrite (settings : Settings) (packet : PcapPacket) (r : Rewriter) : outcome unit (option PcapPacket * Rewriter) :=
  let other := Ok ((if settings.(filter_other) then None else Some packet), r) in
  match get_tcp_data packet.(packet_data) with
  | Some (tcp, data) =>
      if should_handle_packet settings tcp then
        if tcp.(flag_psh) && negb (bool_decide (data = [])) then
          handled ← handle_packet settings packet tcp data r;
          Ok (Some handled.1, handled.2)
        else Ok (Some packet, r)
      else other
  | None => other
  end.

(** [run]: packets that cannot be read are skipped; [writes] tells whether a
    packet can be written, and the first one that cannot ends the run. What was
    written, and how it ended. *)
Context (writes : PcapPacket -> bool).

Fixpoint run (settings : Settings) (packets : list (option PcapPacket)) (r : Rewriter)
    : list PcapPacket * outcome unit Rewriter :=
  match packets with
  | [] => ([], Ok r)
  | None :: packets => run settings packets r
  | Some packet :: packets =>
      match rewrite settings packet r with
      | Ok (None, r) => run settings packets r
      | Ok (Some result, r) =>
          if writes result then
            let '(written, end_) := run settings packets r in (result :: written, end_)
          else ([], Err tt)
      | Err e => ([], Err e)
      | Panic => ([], Panic)
      end
  end.

End Decryptor.
Arguments Rewriter cipher : clear implicits.
