(* ===== verification/DecryptorSpec.v ===== *)
(** Decrypting captures: the search finds an exponent of every server whose
    modulus it covers, with it the keys of the session, and the capture is
    rewritten to the plain frames; where the tool stops. *)
From stdpp Require Import base list option strings.
From Stdlib Require Import ZArith Lia Zpow_facts.
From S2P Require Import Prelude Utf Serde SerdeFacts Schema ProtoGeneral Packets Security SecurityFacts SecuritySpec Frame FrameFacts.
From S2P Require Import Stream StreamSpec Decryptor.

(** ** Powers repeat below the modulus *)

Lemma dup_or_NoDup (f : nat -> Z) n :
  (exists i j, (i < j < n)%nat /\ f i = f j) \/ NoDup (map f (seq 0 n)).
Proof.
  induction n as [|n [(i & j & Hij & E)|IH]]; [right; constructor|left; exists i, j; split; [lia|exact E]|].
  destruct (decide (f n ∈ map f (seq 0 n))) as [Hin|Hin].
  - left. apply list_elem_of_In, in_map_iff in Hin as (i & E & Hi). apply in_seq in Hi. exists i, n. split; [lia|exact E].
  - right. rewrite seq_S, map_app. apply NoDup_app. split; [exact IH|]. split.
    + intros x Hx Hy. apply list_elem_of_singleton in Hy as ->. exact (Hin Hx).
    + apply NoDup_singleton.
Qed.

(** Of more powers than there are remainders two are the same. *)
Lemma powers_collide p g : 0 < p -> exists i j, (i < j <= Z.to_nat p)%nat /\ g ^ Z.of_nat i mod p = g ^ Z.of_nat j mod p.
Proof.
  intros Hp. destruct (dup_or_NoDup (fun n => g ^ Z.of_nat n mod p) (S (Z.to_nat p))) as [(i & j & Hij & E)|Hn].
  { exists i, j. split; [lia|exact E]. }
  exfalso. apply NoDup_ListNoDup in Hn.
  apply (NoDup_incl_length (l' := map Z.of_nat (seq 0 (Z.to_nat p)))) in Hn.
  - rewrite !length_map, !length_seq in Hn. lia.
  - intros x Hx. apply in_map_iff in Hx as (n & <- & _). apply in_map_iff.
    pose proof (Z.mod_pos_bound (g ^ Z.of_nat n) p Hp). exists (Z.to_nat (g ^ Z.of_nat n mod p)).
    split; [lia|]. apply in_seq. lia.
Qed.

Lemma attained_below p g x : 0 < p -> 0 <= x -> exists x', 0 <= x' < p /\ g ^ x' mod p = g ^ x mod p.
Proof.
  intros Hp Hx. destruct (powers_collide p g Hp) as (i & j & Hij & E).
  revert Hx. pattern x. apply (well_founded_induction (Z.lt_wf 0)). clear x. intros x IH Hx.
  destruct (Z.lt_ge_cases x p); [exists x; split; [lia|reflexivity]|].
  destruct (IH (x - (Z.of_nat j - Z.of_nat i))) as (x' & Hx' & E'); [lia|lia|].
  exists x'. split; [exact Hx'|]. rewrite E'.
  replace (x - (Z.of_nat j - Z.of_nat i)) with ((x - Z.of_nat j) + Z.of_nat i) by lia.
  replace x with ((x - Z.of_nat j) + Z.of_nat j) at 2 by lia. rewrite !Z.pow_add_r by lia.
  rewrite Z.mul_mod, E, <- Z.mul_mod by lia. reflexivity.
Qed.

(** ** The search *)

Lemma find_down_ok {E} n start (test : Z -> outcome E bool) (P : Z -> bool) :
  (forall i, start <= i < start + Z.of_nat n -> test i = Ok (P i)) ->
  exists o, find_down n start test = Ok o
    /\ (forall i, o = Some i -> start <= i < start + Z.of_nat n /\ P i = true)
    /\ (o = None -> forall i, start <= i < start + Z.of_nat n -> P i = false).
Proof.
  induction n as [|n IH]; intros Ht; cbn [find_down].
  - exists None. split; [reflexivity|]. split; [discriminate|]. intros _ i Hi. lia.
  - rewrite Ht by lia. cbn [mbind outcome_bind]. destruct (P (start + Z.of_nat n)) eqn:EP.
    + exists (Some (start + Z.of_nat n)). split; [reflexivity|]. split; [|discriminate]. intros i [= <-]. split; [lia|exact EP].
    + destruct IH as (o & Eo & H1 & H2); [intros i Hi; apply Ht; lia|]. exists o. split; [exact Eo|]. split.
      * intros i Hi. destruct (H1 i Hi). split; [lia|assumption].
      * intros Hn i Hi. destruct (Z.eq_dec i (start + Z.of_nat n)) as [->|]; [exact EP|]. apply H2; [exact Hn|lia].
Qed.

Lemma join_all_ok (ts : list (outcome Empty_set (option Z))) (P : Z -> bool) :
  Forall (fun t => exists o, t = Ok o /\ forall i, o = Some i -> P i = true) ts ->
  exists xs, join_all ts = Ok xs /\ Forall (fun i => P i = true) xs
    /\ (Exists (fun t => exists i, t = Ok (Some i)) ts -> xs <> []).
Proof.
  induction 1 as [|t ts (o & -> & Ho) _ (xs & E & Hx & Hne)]; cbn [join_all].
  - exists []. split; [reflexivity|]. split; [constructor|]. intros H. apply Exists_nil in H. contradiction.
  - cbn [mbind outcome_bind]. rewrite E. exists (option_list o ++ xs). split; [reflexivity|]. split.
    + apply Forall_app. split; [|exact Hx]. destruct o; constructor; [apply Ho; reflexivity|constructor].
    + intros [(i & [= ->])|H]%Exists_cons; [discriminate|]. destruct o; [discriminate|]. exact (Hne H).
Qed.

Section Spec.
Context {cipher : Type} `{BlockCipherLaws cipher} {Pkt : Pktparse}.

Lemma steps_bound t : 0 < t <= 255 -> 0 <= steps t /\ t * steps t < 2 ^ 31.
Proof.
  intros Ht. unfold steps, u32_max. change ((2 ^ 32 - 1) / 2) with 2147483647.
  pose proof (Z.mul_div_le 2147483647 t ltac:(lia)). split; [apply Z.div_pos; lia|lia].
Qed.

(** Every candidate has the public value of the server, and there is one if the
    modulus is covered. *)
Lemma find_x_sound t p g x :
  1 < p < 2 ^ 31 -> 0 <= g <= max_base -> 0 < t <= 255 -> 0 <= x -> p <= t * steps t ->
  exists xs, find_x t p g (g ^ x mod p) = Ok xs /\ xs <> []
    /\ Forall (fun i => fits 32 i = true /\ g ^ i mod p = g ^ x mod p) xs.
Proof.
  intros Hp Hg Ht Hx Hcover. destruct (steps_bound t Ht) as [Hs Hts].
  set (P i := fits 32 i && (g ^ i mod p =? g ^ x mod p)).
  assert (Htest : forall k, (k < Z.to_nat t)%nat -> exists o,
    search p g (g ^ x mod p) t (Z.of_nat k) = Ok o
    /\ (forall i, o = Some i -> P i = true)
    /\ (o = None -> forall i, Z.of_nat k * steps t <= i < Z.of_nat k * steps t + steps t -> P i = false)).
  { intros k Hk. unfold search.
    destruct (find_down_ok (Z.to_nat (steps t)) (Z.of_nat k * steps t)
      (fun i => (fun r => r =? g ^ x mod p) <$> g_pow_x_mod_p p i g) P) as (o & E & Hsome & Hnone).
    - intros i Hi. rewrite Z2Nat.id in Hi by exact Hs.
      assert (Hf : fits 32 i = true) by (apply fits_spec; nia).
      rewrite g_pow_x_mod_p_correct by assumption. unfold P. rewrite Hf. reflexivity.
    - exists o. split; [exact E|]. rewrite Z2Nat.id in * by exact Hs. split; [intros i Hi; apply Hsome, Hi|exact Hnone]. }
  unfold find_x. rewrite (proj2 (Z.eqb_neq t 0)) by lia.
  destruct (join_all_ok (map (fun k => search p g (g ^ x mod p) t (Z.of_nat k)) (seq 0 (Z.to_nat t))) P) as (xs & E & Hxs & Hne).
  - apply Forall_map, Forall_forall. intros k Hk. apply list_elem_of_In, in_seq in Hk.
    destruct (Htest k) as (o & Eo & Ho & _); [lia|]. exists o. auto.
  - exists xs. split; [exact E|]. split.
    + apply Hne. destruct (attained_below p g x) as (x' & Hx' & Ex'); [lia|exact Hx|].
      assert (Hk : 0 <= x' / steps t < t).
      { split; [apply Z.div_pos; nia|apply Z.div_lt_upper_bound; nia]. }
      assert (Hin : x' / steps t * steps t <= x' < x' / steps t * steps t + steps t).
      { pose proof (Z.div_mod x' (steps t) ltac:(nia)). pose proof (Z.mod_pos_bound x' (steps t) ltac:(nia)). nia. }
      apply Exists_exists. exists (search p g (g ^ x mod p) t (Z.of_nat (Z.to_nat (x' / steps t)))). split.
      * apply list_elem_of_In, (in_map (fun k => search p g (g ^ x mod p) t (Z.of_nat k))), in_seq. lia.
      * destruct (Htest (Z.to_nat (x' / steps t))) as (o & Eo & _ & Hnone); [lia|]. rewrite Eo.
        destruct o as [i|]; [eauto|]. exfalso. rewrite Z2Nat.id in Hnone by lia. specialize (Hnone eq_refl x' Hin).
        unfold P in Hnone. rewrite Ex', Z.eqb_refl, andb_true_r in Hnone.
        assert (fits 32 x' = true) by (apply fits_spec; lia). congruence.
    + apply (Forall_impl _ _ _ Hxs). intros i Hi. unfold P in Hi. apply andb_true_iff in Hi as [Hf Hpw%Z.eqb_eq]. auto.
Qed.

(** ** The keys of the session *)

(** The challenge looks at the exponent only through the shared secret. *)
Lemma start_challenge_exponent cs crs cs' crs' hs x x' p a b key ch (bf : cipher) :
  @power security_error p x' b = power p x b ->
  start_challenge b key (HandshakeStarted cs crs hs x p a) = Ok (ch, Challenged bf cs crs) ->
  start_challenge b key (HandshakeStarted cs' crs' hs x' p a) = Ok (ch, Challenged bf cs' crs').
Proof.
  intros E. cbn [start_challenge]. rewrite E. destruct (power p x b) as [k|e|]; [|discriminate|discriminate]. cbn [mbind outcome_bind].
  destruct (blowfish_from_int (exchange_key a b k)) as [c|e|]; [|discriminate|discriminate]. cbn [mbind outcome_bind]. cbv zeta.
  destruct (negb _); [discriminate|].
  destruct (blowfish_from_int (transform_key hs k 3)) as [c'|e|]; [|discriminate|discriminate]. cbn [mbind outcome_bind].
  intros [= <- <-]. reflexivity.
Qed.

Lemma challenge_seeds b key cs crs hs x p a ch (bf : cipher) cs' crs' :
  start_challenge b key (HandshakeStarted cs crs hs x p a) = Ok (ch, Challenged bf cs' crs') -> cs' = cs /\ crs' = crs.
Proof.
  cbn [start_challenge]. intros E. apply bind_ok in E as (k & _ & E). apply bind_ok in E as (c & _ & E). cbv zeta in E.
  destruct (negb _); [discriminate|]. apply bind_ok in E as (c2 & _ & E). apply bind_ok in E as (c3 & _ & E).
  injection E as _ _ <- <-. auto.
Qed.

Lemma shared_secret p g x y i :
  1 < p -> 0 <= x -> 0 <= y -> 0 <= i -> g ^ i mod p = g ^ x mod p ->
  (client_public g p y) ^ i mod p = (client_public g p y) ^ x mod p.
Proof.
  intros Hp Hx Hy Hi E. unfold client_public. rewrite <- !Zpower_mod, <- !Z.pow_mul_r, !(Z.mul_comm y), !Z.pow_mul_r by lia.
  rewrite (Zpower_mod (g ^ i)), (Zpower_mod (g ^ x)), E by lia. reflexivity.
Qed.

(** Whatever the exponents were, the candidates of the search give the cipher of
    the session. *)
Lemma break_security_finds t hs cs crs g p x y key ch (bf : cipher) :
  1 < p < 2 ^ 31 -> 0 <= g <= max_base -> 0 < t <= 255 -> fits 32 x = true -> 0 <= y -> p <= t * steps t ->
  start_challenge (client_public g p y) key (HandshakeStarted cs crs hs x p (g ^ x mod p)) = Ok (ch, Challenged bf cs crs) ->
  break_security t {| handshake_bytes := hs; init_g := g; init_p := p; init_a := g ^ x mod p |} (client_public g p y) key
  = Ok (Some (Established bf (generate_count_seed 0) 0)).
Proof.
  intros Hp Hg Ht Hx Hy Hcover Hs. apply fits_spec in Hx as Hx'.
  destruct (find_x_sound t p g x) as (xs & E & Hne & Hxs); try assumption; [lia|].
  unfold break_security. cbn [init_p init_g init_a]. rewrite E. destruct xs as [|i xs]; [congruence|].
  apply Forall_cons in Hxs as [[Hi Ei] _]. cbn [try_options handshake_bytes init_p init_a]. unfold initialize_with.
  apply fits_spec in Hi as Hi'. assert (Hb : 0 <= client_public g p y < p) by (apply Z.mod_pos_bound; lia).
  rewrite (start_challenge_exponent cs crs 0 0 hs x i p (g ^ x mod p) (client_public g p y) key ch bf); [reflexivity| |exact Hs].
  rewrite !power_correct by (unfold max_base in *; assumption || lia). f_equal. apply shared_secret; lia || assumption.
Qed.

(** ** Slices *)

Lemma slice_middle a b c : slice (length a) (length a + length b) (a ++ b ++ c) = Ok b.
Proof.
  unfold slice. rewrite !length_app. rewrite (proj2 (Nat.leb_le _ _)) by lia.
  rewrite drop_app_length. replace (length a + length b - length a)%nat with (length b) by lia.
  rewrite take_app_length. reflexivity.
Qed.

(** A number in the middle of bytes. *)
Lemma read_le_middle n from a c z :
  length a = from -> fits (8 * Z.of_nat n) z = true -> read_le from (from + n) (a ++ le_bytes n z ++ c) = Ok z.
Proof.
  intros <- Hz. unfold read_le. rewrite <- (le_bytes_length n z) at 1. rewrite slice_middle. cbn [fmap outcome_fmap].
  rewrite le_num_bytes_fits by exact Hz. reflexivity.
Qed.

(** *** The two frames of the handshake *)

Definition setup_content (i : initialization_data) : list Z :=
  let '(g, p, a) := i.(additional_seeds) in
  [0x0E] ++ le_bytes 8 i.(seed) ++ le_bytes 4 i.(count_seed) ++ le_bytes 4 i.(crc_seed) ++ le_bytes 8 i.(handshake_seed)
  ++ le_bytes 4 g ++ le_bytes 4 p ++ le_bytes 4 a.

Lemma setup_bytes i :
  plain_bytes (setup_initialize i) = le_bytes 2 37 ++ le_bytes 2 0x5000 ++ [0; 0] ++ setup_content i.
Proof.
  unfold plain_bytes, setup_initialize, setup_content. destruct i as [se cs crs hs [[g p] a]]. cbn [additional_seeds].
  unfold into_serialize. cbn [fst snd].
  replace (by_name "SecuritySetup" server_packets) with (Some (0x5000, SecuritySetup)) by (vm_compute; reflexivity).
  reflexivity.
Qed.

(** What the rewriter reads of them. *)
Lemma setup_read i g p a :
  i.(additional_seeds) = (g, p, a) -> fits 64 i.(handshake_seed) = true ->
  fits 32 g = true -> fits 32 p = true -> fits 32 a = true ->
  let data := plain_bytes (setup_initialize i) in
  read_le 2 4 data = Ok 0x5000 /\ at_index 0 data = Ok 37 /\ read_le 23 31 data = Ok i.(handshake_seed)
  /\ read_le 31 35 data = Ok g /\ read_le 35 39 data = Ok p /\ read_le 39 43 data = Ok a.
Proof.
  intros Ei Hs Hg Hp Ha data. unfold data. rewrite setup_bytes. unfold setup_content. rewrite Ei.
  set (h := le_bytes 2 37 ++ le_bytes 2 20480 ++ [0; 0] ++ [14] ++ le_bytes 8 i.(seed) ++ le_bytes 4 i.(count_seed) ++ le_bytes 4 i.(crc_seed)).
  assert (Lh : length h = 23%nat) by (unfold h; rewrite !length_app, !le_bytes_length; reflexivity).
  replace (le_bytes 2 37 ++ le_bytes 2 20480 ++ [0; 0] ++ [14] ++ le_bytes 8 i.(seed) ++ le_bytes 4 i.(count_seed) ++ le_bytes 4 i.(crc_seed)
           ++ le_bytes 8 i.(handshake_seed) ++ le_bytes 4 g ++ le_bytes 4 p ++ le_bytes 4 a)
    with (h ++ le_bytes 8 i.(handshake_seed) ++ le_bytes 4 g ++ le_bytes 4 p ++ le_bytes 4 a)
    by (unfold h; rewrite <- !app_assoc; reflexivity).
  split; [reflexivity|]. split; [reflexivity|]. split; [apply (read_le_middle 8 23); [exact Lh|exact Hs]|]. split; [|split].
  - rewrite app_assoc. apply (read_le_middle 4 31); [rewrite length_app, Lh, le_bytes_length; reflexivity|exact Hg].
  - rewrite !app_assoc, <- (app_assoc _ (le_bytes 4 p)).
    apply (read_le_middle 4 35); [rewrite !length_app, Lh, !le_bytes_length; reflexivity|exact Hp].
  - rewrite !app_assoc. rewrite <- (app_nil_r (le_bytes 4 a)).
    apply (read_le_middle 4 39); [rewrite !length_app, Lh, !le_bytes_length; reflexivity|exact Ha].
Qed.

(** The answer of the client: its public value and its key. *)
Definition challenge_bytes (b key : Z) : list Z := le_bytes 2 12 ++ le_bytes 2 0x5000 ++ [0; 0] ++ le_bytes 4 b ++ le_bytes 8 key.

Lemma challenge_serialized b key :
  @serialize cipher _ (Packet 0 0 0x5000 false (le_bytes 4 b ++ le_bytes 8 key)) None = Ok (challenge_bytes b key).
Proof. reflexivity. Qed.

Lemma challenge_read b key :
  fits 32 b = true -> fits 64 key = true ->
  read_le 2 4 (challenge_bytes b key) = Ok 0x5000 /\ read_le 6 10 (challenge_bytes b key) = Ok b
  /\ read_le 10 18 (challenge_bytes b key) = Ok key.
Proof.
  intros Hb Hk. split; [reflexivity|]. split.
  - apply (read_le_middle 4 6 (le_bytes 2 12 ++ le_bytes 2 20480 ++ [0; 0])); [reflexivity|exact Hb].
  - unfold challenge_bytes. rewrite <- (app_nil_r (le_bytes 8 key)).
    apply (read_le_middle 8 10 (le_bytes 2 12 ++ le_bytes 2 20480 ++ [0; 0] ++ le_bytes 4 b)); [reflexivity|exact Hk].
Qed.

(** The end of the handshake. *)
Lemma finalize_bytes ch :
  plain_bytes (setup_finalize ch) = le_bytes 2 9 ++ le_bytes 2 0x5000 ++ [0; 0; 0x10] ++ le_bytes 8 ch.
Proof.
  unfold plain_bytes, setup_finalize, into_serialize. cbn [fst snd].
  replace (by_name "SecuritySetup" server_packets) with (Some (0x5000, SecuritySetup)) by (vm_compute; reflexivity).
  reflexivity.
Qed.

(** ** The frames of the session *)

(** A frame as it is in the capture, and as it is shown: an encrypted one has
    the form of a plain one, with its padding. *)
Definition wire (s : security_state cipher) (f : frame) : list Z :=
  match serialize f (Some s) with Ok bytes => bytes | _ => [] end.

Definition shown (f : frame) : list Z :=
  match f with
  | Packet count crc opcode true data =>
      let content := frame_head opcode count crc ++ data in le_bytes 2 (zlen data) ++ content ++ padding content
  | _ => match @serialize cipher _ f None with Ok bytes => bytes | _ => [] end
  end.

(** A frame, by the port it was sent from, that does not start another
    handshake: a client gives no second challenge, and what the server sends of
    its handshake has not the size of an initialization, of which the tool
    compares the lower byte. *)
Definition quiet (settings : Settings) (tcp : TcpHeader) (f : frame) : Prop :=
  match f with
  | Packet _ _ opcode false data =>
      opcode = 0x5000 -> tcp.(source_port) ∈ settings.(server_ports) /\ zlen data mod 256 <> 0x25
  | _ => True
  end.

Lemma second_byte n : 0 <= n < 2 ^ 16 ->
  (Z.land (n / 256 mod 256) 0x80 =? 0) = (n <? 2 ^ 15) /\ Z.land (n / 256 mod 256) 0x7F = n mod 2 ^ 15 / 256.
Proof.
  intros Hn. rewrite (Z.mod_small (n / 256)) by zlia. split.
  - change 0x80 with (2 ^ 7). rewrite land_pow2 by lia. pose proof (Z.testbit_spec' (n / 256) 7 ltac:(lia)) as T.
    destruct (Z.testbit (n / 256) 7); cbn [Z.b2z] in T; [|change (0 * 2 ^ 7) with 0];
      destruct (Z.ltb_spec n (2 ^ 15)); try reflexivity; zlia.
  - change 0x7F with (Z.ones 7). rewrite Z.land_ones by lia. zlia.
Qed.

Lemma encrypted_frame settings tcp packet (bf : cipher) ct crs init count crc opcode data :
  frame_ok (Packet count crc opcode true data) = true ->
  forall ct' crs',
  let f := Packet count crc opcode true data in
  let r := {| current_security := Some (Established bf ct' crs'); security_initialization := init |} in
  handle_packet settings packet tcp (wire (Established bf ct crs) f) r
  = Ok ({| timestamp := packet.(timestamp); orig_len := packet.(orig_len);
           packet_data := take (length packet.(packet_data) - length (wire (Established bf ct crs) f)) packet.(packet_data) ++ shown f |}, r).
Proof.
  intros Hf ct' crs' f r. destruct (split_frame_ok_packet _ _ _ _ _ Hf) as (Hc & Hr & Ho & _ & Hb & Hl).
  set (content := frame_head opcode count crc ++ data).
  assert (Hcontent : bytes_ok content = true).
  { unfold content, frame_head. rewrite !bytes_ok_app, !le_bytes_ok, Hb. reflexivity. }
  destruct (encrypt_decrypt bf ct crs content Hcontent) as (out & Eout & _ & _ & Edec).
  assert (Ew : wire (Established bf ct crs) f = le_bytes 2 (zlen data + 2 ^ 15) ++ out).
  { unfold wire, f. cbn [serialize content_size ok_or mbind outcome_bind].
    replace (le_bytes 2 opcode ++ le_bytes 1 count ++ le_bytes 1 crc ++ data) with content
      by (unfold content, frame_head; rewrite <- !app_assoc; reflexivity).
    rewrite Eout. cbn [map_err mbind outcome_bind]. destruct (encrypted_length (zlen data) Hl) as [-> _]. reflexivity. }
  unfold handle_packet. rewrite Ew. cbn [le_bytes app is_packet_encrypted at_index lookup list_lookup mbind outcome_bind].
  destruct (second_byte (zlen data + 2 ^ 15)) as [E1 E2]; [lia|].
  rewrite E1, (proj2 (Z.ltb_ge _ _)) by lia. cbn [negb current_security r].
  change (decrypt_mut (drop 2 (?[x] :: ?[y] :: out)) (Established bf ct' crs')) with (decrypt out (Established bf ct crs)).
  rewrite Edec. cbn [mbind outcome_bind fst snd decrypted_data]. rewrite E2. unfold shown, f. fold content.
  replace ((zlen data + 2 ^ 15) mod 2 ^ 15 / 256) with (zlen data / 256 mod 256) by zlia.
  replace ((zlen data + 2 ^ 15) mod 256) with (zlen data mod 256) by zlia. reflexivity.
Qed.

(** Frames that are not encrypted are left as they are. *)
Lemma plain_serialized settings tcp f s :
  frame_ok f = true -> quiet settings tcp f -> (forall count crc opcode data, f <> Packet count crc opcode true data) ->
  exists n opcode rest, 0 <= n < 2 ^ 15 /\ fits 16 opcode = true
    /\ (opcode = 0x5000 -> tcp.(source_port) ∈ settings.(server_ports) /\ n mod 256 <> 0x25)
    /\ wire s f = le_bytes 2 n ++ le_bytes 2 opcode ++ rest /\ shown f = wire s f.
Proof.
  intros Hf Hq He. destruct f as [count crc opcode [] data|count crc op n|count crc inner].
  - exfalso. eapply He. reflexivity.
  - destruct (split_frame_ok_packet _ _ _ _ _ Hf) as (_ & _ & Ho & _ & _ & Hl).
    exists (zlen data), opcode, (le_bytes 1 count ++ le_bytes 1 crc ++ data). split_and!; [lia|lia|exact Ho|exact Hq|reflexivity|reflexivity].
  - exists 6, 0x600D. eexists. split; [lia|]. split; [reflexivity|]. split; [discriminate|]. split; reflexivity.
  - cbn [frame_ok] in Hf. split_andb. exists (1 + zlen inner), 0x600D. eexists. split; [unfold zlen in *; lia|].
    split; [reflexivity|]. split; [discriminate|]. split; reflexivity.
Qed.

Lemma plain_frame settings tcp packet n opcode rest (r : Rewriter cipher) :
  0 <= n < 2 ^ 15 -> fits 16 opcode = true ->
  (opcode = 0x5000 -> tcp.(source_port) ∈ settings.(server_ports) /\ n mod 256 <> 0x25) ->
  let data := le_bytes 2 n ++ le_bytes 2 opcode ++ rest in
  handle_packet settings packet tcp data r
  = Ok ({| timestamp := packet.(timestamp); orig_len := packet.(orig_len);
           packet_data := take (length packet.(packet_data) - length data) packet.(packet_data) ++ data |}, r).
Proof.
  intros Hn Ho Hne data.
  assert (Eo : read_le 2 4 data = Ok opcode) by (apply (read_le_middle 2 2); [apply le_bytes_length|exact Ho]).
  assert (Ee : is_packet_encrypted data = Ok false).
  { unfold data, is_packet_encrypted. cbn [le_bytes app at_index lookup list_lookup mbind outcome_bind].
    destruct (second_byte n) as [E _]; [lia|]. rewrite E, (proj2 (Z.ltb_lt _ _)) by lia. reflexivity. }
  unfold handle_packet. rewrite Ee. cbn [mbind outcome_bind]. unfold handle_unencrypted. rewrite Eo. cbn [mbind outcome_bind].
  destruct (Z.eqb_spec opcode 0x5000) as [E|_]; [|destruct (bool_decide _); reflexivity].
  destruct (Hne E) as [Hport Hsize]. rewrite bool_decide_true by exact Hport.
  assert (Ez : at_index 0 data = Ok (n mod 256)) by reflexivity.
  rewrite Ez. cbn [mbind outcome_bind]. rewrite (proj2 (Z.eqb_neq _ _)) by exact Hsize. reflexivity.
Qed.

(** ** The whole capture *)

(** A segment of the capture: its time, the headers of the lower layers, and the
    header of TCP they end with. *)
Record Captured := { cap_time : Z; cap_len : Z; cap_header : list Z; cap_tcp : TcpHeader }.

Definition packet_of (c : Captured) (bytes : list Z) : PcapPacket :=
  {| timestamp := c.(cap_time); orig_len := c.(cap_len); packet_data := c.(cap_header) ++ bytes |}.

Definition carries (settings : Settings) (c : Captured) (bytes : list Z) : Prop :=
  get_tcp_data (c.(cap_header) ++ bytes) = Some (c.(cap_tcp), bytes)
  /\ should_handle_packet settings c.(cap_tcp) = true /\ c.(cap_tcp).(flag_psh) = true /\ bytes <> [].

Lemma rewrite_carried settings c bytes (r : Rewriter cipher) :
  carries settings c bytes ->
  rewrite settings (packet_of c bytes) r
  = handled ← handle_packet settings (packet_of c bytes) c.(cap_tcp) bytes r; Ok (Some handled.1, handled.2).
Proof.
  intros (Et & Eh & Ep & En). unfold rewrite, packet_of. cbn [packet_data]. rewrite Et, Eh, Ep, bool_decide_false by exact En. reflexivity.
Qed.

Lemma header_of c bytes : take (length (c.(cap_header) ++ bytes) - length bytes) (c.(cap_header) ++ bytes) = c.(cap_header).
Proof. rewrite length_app. replace (length (cap_header c) + length bytes - length bytes)%nat with (length (cap_header c)) by lia. apply take_app_length. Qed.

Lemma rewrite_frame settings c f (bf : cipher) ct crs ct' crs' :
  let s := Established bf ct crs in
  let r := {| current_security := Some (Established bf ct' crs'); security_initialization := None |} in
  frame_ok f = true -> quiet settings c.(cap_tcp) f -> carries settings c (wire s f) ->
  rewrite settings (packet_of c (wire s f)) r = Ok (Some (packet_of c (shown f)), r).
Proof.
  intros s r Hf Hq Hc. rewrite rewrite_carried by exact Hc. unfold packet_of at 1.
  assert (He : (exists count crc opcode data, f = Packet count crc opcode true data)
               \/ forall count crc opcode data, f <> Packet count crc opcode true data).
  { destruct f as [count crc opcode [] data| |]; [left; eauto 10|right; discriminate..]. }
  destruct He as [(count & crc & opcode & data & ->)|He].
  - unfold s, r. rewrite encrypted_frame by exact Hf. cbn [mbind outcome_bind fst snd packet_data timestamp orig_len packet_of].
    rewrite header_of. reflexivity.
  - destruct (plain_serialized settings c.(cap_tcp) f s Hf Hq He) as (n & opcode & rest & Hn & Ho & Hne & Ew & Es). rewrite Ew.
    rewrite plain_frame by assumption. rewrite <- Ew. cbn [mbind outcome_bind fst snd packet_data timestamp orig_len packet_of].
    rewrite header_of, Es. reflexivity.
Qed.

Lemma rewrite_finalize settings c ch (bf : cipher) ct crs :
  let r := {| current_security := Some (Established bf ct crs); security_initialization := None |} in
  carries settings c (plain_bytes (setup_finalize ch)) -> c.(cap_tcp).(source_port) ∈ settings.(server_ports) ->
  rewrite settings (packet_of c (plain_bytes (setup_finalize ch))) r = Ok (Some (packet_of c (plain_bytes (setup_finalize ch))), r).
Proof.
  intros r Hc Hport. rewrite rewrite_carried by exact Hc. rewrite finalize_bytes in *. unfold packet_of at 1.
  rewrite plain_frame by (reflexivity || lia || (intros _; split; [exact Hport|discriminate])).
  cbn [mbind outcome_bind fst snd packet_data timestamp orig_len packet_of]. rewrite header_of. reflexivity.
Qed.

Lemma run_traffic settings (traffic : list (Captured * frame)) (bf : cipher) ct crs ct' crs' :
  let s := Established bf ct crs in
  let r := {| current_security := Some (Established bf ct' crs'); security_initialization := None |} in
  Forall (fun '(c, f) => frame_ok f = true /\ quiet settings c.(cap_tcp) f /\ carries settings c (wire s f)) traffic ->
  run (fun _ => true) settings (map (fun '(c, f) => Some (packet_of c (wire s f))) traffic) r
  = (map (fun '(c, f) => packet_of c (shown f)) traffic, Ok r).
Proof.
  intros s r. induction 1 as [|[c f] rest (Hf & Hq & Hc) _ IH]; [reflexivity|]. cbn [map run].
  unfold s, r in *. rewrite rewrite_frame by assumption. rewrite IH. reflexivity.
Qed.

Lemma land31 z : 0 <= Z.land z 0x7FFFFFFF < 2 ^ 31.
Proof. change 0x7FFFFFFF with (Z.ones 31). rewrite Z.land_ones by lia. apply Z.mod_pos_bound. lia. Qed.

Definition started (d : draws) (x p a : Z) : security_state cipher :=
  HandshakeStarted d.(draw_count_seed) d.(draw_crc_seed) d.(draw_handshake_seed) x p a.

Lemma initialize_draws d x g p :
  Z.land d.(draw_x) 0x7FFFFFFF = x -> Z.land d.(draw_g) 0x7FFFFFFF = g -> Z.land d.(draw_p) 0x7FFFFFFF = p ->
  initialize d Uninitialized
  = v ← power p x g;
    Ok ({| seed := d.(draw_seed); count_seed := d.(draw_count_seed); crc_seed := d.(draw_crc_seed);
           handshake_seed := d.(draw_handshake_seed); additional_seeds := (g, p, v) |}, started d x p v).
Proof. intros <- <- <-. reflexivity. Qed.

Lemma initialize_facts d init (s1 : security_state cipher) g p a :
  draws_ok d -> initialize d Uninitialized = Ok (init, s1) -> init.(additional_seeds) = (g, p, a) -> 1 < p -> g <= max_base ->
  exists x, 0 <= g /\ p < 2 ^ 31 /\ fits 32 x = true /\ a = g ^ x mod p /\ fits 64 init.(handshake_seed) = true
    /\ s1 = HandshakeStarted init.(count_seed) init.(crc_seed) init.(handshake_seed) x p a.
Proof.
  intros [[_ Hh] _] Hi Ei Hp Hg.
  remember (Z.land d.(draw_g) 0x7FFFFFFF) as g' eqn:Eg. remember (Z.land d.(draw_p) 0x7FFFFFFF) as p' eqn:Ep.
  remember (Z.land d.(draw_x) 0x7FFFFFFF) as x eqn:Ex.
  rewrite (initialize_draws d x g' p') in Hi by congruence.
  apply bind_ok in Hi as (v & Ev & Hi).
  assert (Hx : 0 <= x < 2 ^ 31) by (rewrite Ex; apply land31).
  assert (Hp' : 0 <= p' < 2 ^ 31) by (rewrite Ep; apply land31).
  assert (Hg' : 0 <= g' < 2 ^ 31) by (rewrite Eg; apply land31).
  clear Ex Ep Eg.
  injection Hi as <- <-. cbn [additional_seeds handshake_seed count_seed crc_seed] in *. injection Ei as -> -> ->.
  assert (Hx' : fits 32 x = true) by (apply fits_spec; lia).
  rewrite power_correct in Ev by (assumption || lia). injection Ev as <-.
  exists x. split; [lia|]. split; [lia|]. split; [exact Hx'|]. split; [reflexivity|]. split; [exact Hh|reflexivity].
Qed.

(** C29: The capture of a session is decrypted, one frame in a segment: from the
    initialization of the server and the answer of its client, whatever their
    exponents, the search finds the cipher of the session if its threads cover
    the modulus; the rest of the handshake is written as it is; and every frame
    of the session, in any order and from either side, is written as the plain
    frame it was sent as, with the padding of its encryption, unless a plain one
    starts another handshake; the other bytes of the capture are unchanged. *)
Theorem capture_decrypted (settings : Settings) (d : draws) (init : initialization_data) (s1 : security_state cipher)
    (g p a y key ch cs crs : Z) (bf : cipher) (ct : Z * Z * Z) (c1 c2 c3 : Captured) (traffic : list (Captured * frame)) :
  let b := client_public g p y in
  let s := Established bf ct crs in
  draws_ok d -> initialize d Uninitialized = Ok (init, s1) -> init.(additional_seeds) = (g, p, a) ->
  start_challenge b key s1 = Ok (ch, Challenged bf cs crs) -> fits 64 key = true ->
  1 < p -> g <= max_base -> 0 <= y ->
  0 < settings.(threads) <= 255 -> p <= settings.(threads) * steps settings.(threads) ->
  carries settings c1 (plain_bytes (setup_initialize init)) -> c1.(cap_tcp).(source_port) ∈ settings.(server_ports) ->
  carries settings c2 (challenge_bytes b key) -> c2.(cap_tcp).(source_port) ∉ settings.(server_ports) ->
  carries settings c3 (plain_bytes (setup_finalize ch)) -> c3.(cap_tcp).(source_port) ∈ settings.(server_ports) ->
  Forall (fun '(c, f) => frame_ok f = true /\ quiet settings c.(cap_tcp) f /\ carries settings c (wire s f)) traffic ->
  run (fun _ => true) settings
    (Some (packet_of c1 (plain_bytes (setup_initialize init))) :: Some (packet_of c2 (challenge_bytes b key))
     :: Some (packet_of c3 (plain_bytes (setup_finalize ch)))
     :: map (fun '(c, f) => Some (packet_of c (wire s f))) traffic) rewriter_new
  = (packet_of c1 (plain_bytes (setup_initialize init)) :: packet_of c2 (challenge_bytes b key)
     :: packet_of c3 (plain_bytes (setup_finalize ch)) :: map (fun '(c, f) => packet_of c (shown f)) traffic,
     Ok {| current_security := Some (Established bf (generate_count_seed 0) 0); security_initialization := None |}).
Proof.
  intros b s Hd Hi Ei Hs Hk Hp Hg Hy Ht Hcover Hc1 Hport1 Hc2 Hport2 Hc3 Hport3 Htraffic.
  destruct (initialize_facts d init s1 g p a Hd Hi Ei Hp Hg) as (x & Hg0 & Hp31 & Hx & Ea & Hh & ->).
  apply fits_spec in Hx as Hx'.
  assert (Ha : 0 <= a < p) by (rewrite Ea; apply Z.mod_pos_bound; lia).
  assert (Hb : 0 <= b < p) by (apply Z.mod_pos_bound; lia).
  destruct (setup_read init g p a Ei Hh) as (E0 & E1 & E2 & E3 & E4 & E5); [apply fits_spec; unfold max_base in *; lia..|].
  destruct (challenge_read b key) as (F0 & F1 & F2); [apply fits_spec; lia|exact Hk|].
  destruct (start_challenge_state _ _ _ _ _ Hs) as (bf' & cs' & crs' & [= <- <- <-] & _).
  assert (Ecs : cs = init.(count_seed) /\ crs = init.(crc_seed)) by exact (challenge_seeds _ _ _ _ _ _ _ _ _ _ _ _ Hs).
  destruct Ecs as [-> ->]. rewrite Ea in Hs.
  pose proof (break_security_finds settings.(threads) init.(handshake_seed) _ _ g p x y key ch bf ltac:(lia) ltac:(lia) Ht Hx Hy Hcover Hs) as Hbreak.
  rewrite <- Ea in Hbreak. fold b in Hbreak.
  assert (R1 : rewrite settings (packet_of c1 (plain_bytes (setup_initialize init))) (@rewriter_new cipher)
    = Ok (Some (packet_of c1 (plain_bytes (setup_initialize init))),
          {| current_security := None;
             security_initialization := Some {| handshake_bytes := init.(handshake_seed); init_g := g; init_p := p; init_a := a |} |})).
  { rewrite rewrite_carried by exact Hc1. unfold handle_packet.
    replace (is_packet_encrypted (plain_bytes (setup_initialize init))) with (@Ok unit bool false) by (rewrite setup_bytes; reflexivity).
    cbn [mbind outcome_bind]. unfold handle_unencrypted. rewrite E0. cbn [mbind outcome_bind].
    rewrite bool_decide_true by exact Hport1. cbn [Z.eqb Pos.eqb]. rewrite E1, E2, E3, E4, E5. cbn [mbind outcome_bind fst snd Z.eqb Pos.eqb].
    unfold packet_of. cbn [packet_data timestamp orig_len]. rewrite header_of. reflexivity. }
  assert (R2 : rewrite settings (packet_of c2 (challenge_bytes b key))
      {| current_security := None;
         security_initialization := Some {| handshake_bytes := init.(handshake_seed); init_g := g; init_p := p; init_a := a |} |}
    = Ok (Some (packet_of c2 (challenge_bytes b key)),
          {| current_security := Some (Established bf (generate_count_seed 0) 0); security_initialization := None |})).
  { rewrite rewrite_carried by exact Hc2. unfold handle_packet.
    replace (is_packet_encrypted (challenge_bytes b key)) with (@Ok unit bool false) by reflexivity.
    cbn [mbind outcome_bind]. unfold handle_unencrypted. rewrite F0. cbn [mbind outcome_bind].
    rewrite bool_decide_false by exact Hport2. cbn [Z.eqb Pos.eqb]. rewrite F1, F2. cbn [mbind outcome_bind security_initialization].
    rewrite Hbreak. cbn [mbind outcome_bind fst snd].
    unfold packet_of. cbn [packet_data timestamp orig_len]. rewrite header_of. reflexivity. }
  pose proof (rewrite_finalize settings c3 ch bf (generate_count_seed 0) 0 Hc3 Hport3) as R4.
  pose proof (run_traffic settings traffic bf ct _ (generate_count_seed 0) 0 Htraffic) as R3. cbv zeta in R3. subst s.
  cbn [run]. rewrite R1, R2, R4, R3. reflexivity.
Qed.

(** ** Where the tool stops *)

(** A segment of one byte. *)
Lemma one_byte_panics settings packet tcp byte (r : Rewriter cipher) : handle_packet settings packet tcp [byte] r = Panic.
Proof. reflexivity. Qed.

(** Encrypted data in a segment that is not a whole number of blocks, such as a
    frame that is cut, or two frames in one segment. *)
Lemma cut_frame_panics settings packet tcp data (bf : cipher) ct crs init :
  is_packet_encrypted data = Ok true -> Z.of_nat (length (drop 2 data)) mod 8 <> 0 ->
  handle_packet settings packet tcp data {| current_security := Some (Established bf ct crs); security_initialization := init |} = Panic.
Proof.
  intros He Hl. unfold handle_packet. rewrite He. cbn [mbind outcome_bind current_security]. unfold decrypt_mut, crypt.
  rewrite (proj2 (Z.eqb_neq _ _)) by exact Hl. reflexivity.
Qed.

Lemma two_encrypted_frames_cut n m (bs cs : list Z) :
  length bs = (8 * n)%nat -> length cs = (8 * m)%nat ->
  Z.of_nat (length (drop 2 ((le_bytes 2 0 ++ bs) ++ le_bytes 2 0 ++ cs))) mod 8 <> 0.
Proof. intros Hb Hc. change (drop 2 ((le_bytes 2 0 ++ bs) ++ le_bytes 2 0 ++ cs)) with (bs ++ le_bytes 2 0 ++ cs).
  rewrite !length_app, Hb, Hc, le_bytes_length. zlia. Qed.

(** The answer of a client whose server was not captured. *)
Lemma challenge_without_setup_panics settings packet tcp b key :
  fits 32 b = true -> fits 64 key = true -> tcp.(source_port) ∉ settings.(server_ports) ->
  handle_packet settings packet tcp (challenge_bytes b key) (@rewriter_new cipher) = Panic.
Proof.
  intros Hb Hk Hp. destruct (challenge_read b key Hb Hk) as (F0 & F1 & F2). unfold handle_packet.
  replace (is_packet_encrypted (challenge_bytes b key)) with (@Ok unit bool false) by reflexivity. cbn [mbind outcome_bind].
  unfold handle_unencrypted. rewrite F0. cbn [mbind outcome_bind]. rewrite bool_decide_false by exact Hp. cbn [Z.eqb Pos.eqb].
  rewrite F1, F2. reflexivity.
Qed.

End Spec.

(** ** Example: a capture with headers of one byte per layer *)

#[local] Instance tiny_headers : Pktparse := {
  parse_ethernet_frame data := match data with _ :: r => Some (r, EtherIPv4) | [] => None end;
  parse_ipv4_header data := match data with _ :: r => Some (r, Decryptor.TCP) | [] => None end;
  parse_ipv6_header _ := None;
  parse_tcp_header data :=
    match data with
    | b :: r => Some (r, {| source_port := if b =? 1 then 15779 else 4000; dest_port := if b =? 1 then 4000 else 15779; flag_psh := true |})
    | [] => None
    end
}.
#[local] Definition captured_at (time side : Z) : Captured :=
  {| cap_time := time; cap_len := 60; cap_header := [0; 0; side];
     cap_tcp := {| source_port := if side =? 1 then 15779 else 4000; dest_port := if side =? 1 then 4000 else 15779; flag_psh := true |} |}.
#[local] Definition capture_settings : Settings := {| server_ports := [15779; 15779]; filter_other := false; threads := 2 |}.
#[local] Definition captured_frames : list (Captured * frame) :=
  [(captured_at 3 2, Packet 0 0 0x9000 false []); (captured_at 4 2, Packet 1 2 0x6102 true [1; 2; 3]); (captured_at 5 1, Packet 0 0 0x3025 false [9])].

Lemma capture_decrypted_witness :
  exists init s1 ch (bf : Z) cs crs r,
    initialize example_draws Uninitialized = Ok (init, s1)
    /\ start_challenge 19 client_key s1 = Ok (ch, Challenged bf cs crs)
    /\ run (fun _ => true) capture_settings
         (Some (packet_of (captured_at 1 1) (plain_bytes (setup_initialize init)))
          :: Some (packet_of (captured_at 2 2) (challenge_bytes 19 client_key))
          :: Some (packet_of (captured_at 2 1) (plain_bytes (setup_finalize ch)))
          :: map (fun '(c, f) => Some (packet_of c (wire (Established bf (generate_count_seed cs) crs) f))) captured_frames) rewriter_new
       = (packet_of (captured_at 1 1) (plain_bytes (setup_initialize init)) :: packet_of (captured_at 2 2) (challenge_bytes 19 client_key)
          :: packet_of (captured_at 2 1) (plain_bytes (setup_finalize ch)) :: map (fun '(c, f) => packet_of c (shown (cipher := Z) f)) captured_frames, Ok r)
    /\ shown (cipher := Z) (Packet 1 2 0x6102 true [1; 2; 3]) = [3; 0; 0x02; 0x61; 1; 2; 1; 2; 3; 0].
Proof.
  destruct (initialize (cipher := Z) example_draws Uninitialized) as [[init s1]|e|] eqn:Ei; [|discriminate|discriminate].
  destruct (start_challenge 19 client_key s1) as [[ch s2]|e|] eqn:Es; [|exfalso; vm_compute in Ei; injection Ei as <- <-; vm_compute in Es; discriminate..].
  destruct (start_challenge_state _ _ _ _ _ Es) as (bf & cs & crs & -> & _).
  assert (Ea : init.(additional_seeds) = (5, 23, 8)) by (vm_compute in Ei; injection Ei as <- _; reflexivity).
  exists init, s1, ch, bf, cs, crs. eexists. split; [reflexivity|]. split; [exact Es|]. split; [|reflexivity].
  apply (capture_decrypted capture_settings example_draws init s1 5 23 8 15 client_key ch cs crs bf (generate_count_seed cs)
    (captured_at 1 1) (captured_at 2 2) (captured_at 2 1) captured_frames); try exact Ei; try exact Ea; try exact Es; try reflexivity; try lia.
  - repeat split.
  - unfold max_base. lia.
  - cbn. lia.
  - vm_compute. congruence.
  - repeat split. rewrite setup_bytes. discriminate.
  - left.
  - repeat split. discriminate.
  - apply (bool_decide_unpack _). reflexivity.
  - repeat split. rewrite finalize_bytes. discriminate.
  - left.
  - repeat constructor; discriminate.
Defined.
