(* ===== verification/Navmesh.v ===== *)
(** silkroad-navmesh but for the heights: which regions are enabled
    (map_info_ext.rs), the files that list objects (object_info.rs), loading
    objects (object.rs) and the meshes of all regions (builder.rs, lib.rs,
    navmesh.rs).

    Reading files, decoding Windows-1252 and the formats of the sr_formats
    library are parameters. *)
From stdpp Require Import base list option strings gmap.
From Stdlib Require Import ZArith Lia Floats.SpecFloat.
From S2P Require Import Prelude Utf Text F32 Show Definitions TypeIdEnums TypeId GameData Position.

(** ** map_info_ext.rs *)

Record EnabledRegions := { region_data : list Z; current_region : Z; ended : bool }.

Definition enabled_new (data : list Z) : EnabledRegions :=
  {| region_data := data; current_region := 0; ended := bool_decide (data = []) |}.

(** A bit for each region, the highest of a byte first. *)
Definition is_enabled (region : Region) (r : EnabledRegions) : bool :=
  match r.(region_data) !! Z.to_nat (Z.shiftr region 3) with
  | None => false
  | Some byte => negb (Z.land byte (Z.shiftr 128 (region mod 8)) =? 0)
  end.

Definition step (r : EnabledRegions) : Z * EnabledRegions :=
  let index := r.(current_region) in
  (index,
   if index + 1 <? 2 ^ 16 then {| region_data := r.(region_data); current_region := index + 1; ended := r.(ended) |}
   else {| region_data := r.(region_data); current_region := index; ended := true |}).

(** [next]; [None]: still looking after [fuel] steps. *)
Fixpoint next (fuel : nat) (r : EnabledRegions) : option (option Region * EnabledRegions) :=
  if r.(ended) then Some (None, r)
  else match fuel with
  | O => None
  | S fuel =>
      let '(region, r) := step r in
      if is_enabled region r then Some (Some region, r) else next fuel r
  end.

(** All that the iterator gives: at most a region and an end for each number. *)
Definition next_fuel : nat := Z.to_nat (2 ^ 16).

Fixpoint collect_regions (fuel : nat) (r : EnabledRegions) : option (list Region) :=
  match fuel with
  | O => None
  | S fuel =>
      '(region, r) ← next next_fuel r;
      match region with
      | None => Some []
      | Some region => cons region <$> collect_regions fuel r
      end
  end.

Definition enabled_regions (data : list Z) : option (list Region) := collect_regions (S next_fuel) (enabled_new data).

(** ** object_info.rs *)

Definition OBJ_MAGIC : list Z := chars "JMXVOBJI1000".

Inductive ObjectInfoError := InvalidMagic | NumberError (e : IntErrorKind) | MissingCount | NotEnoughLines.

(** [splitn]: at most [n] pieces, the last one with the rest. *)
Fixpoint splitn (n : nat) (sep : Z) (s : list Z) : list (list Z) :=
  match n with
  | O => []
  | S O => [s]
  | S n => (fix scan (piece s : list Z) : list (list Z) :=
      match s with
      | [] => [rev piece]
      | c :: s => if c =? sep then rev piece :: splitn n sep s else scan (c :: piece) s
      end) [] s
  end.

(** [trim_start_matches("0x")] *)
Fixpoint trim_0x (s : list Z) : list Z :=
  match s with
  | 48 :: 120 :: r => trim_0x r
  | _ => s
  end.

Definition blank : Z := 32.
Definition quote : Z := 34.
Fixpoint trim_quotes_start (s : list Z) : list Z :=
  match s with c :: r => if c =? quote then trim_quotes_start r else s | [] => [] end.
Definition trim_quotes (s : list Z) : list Z := rev (trim_quotes_start (rev (trim_quotes_start s))).

(** [u32::from_str_radix] in base 16. *)
Definition hex_digit_of (c : Z) : option Z :=
  if (48 <=? c) && (c <=? 57) then Some (c - 48)
  else if (97 <=? c) && (c <=? 102) then Some (c - 87)
  else if (65 <=? c) && (c <=? 70) then Some (c - 55)
  else None.

Fixpoint hex_loop (acc : Z) (s : list Z) : outcome IntErrorKind Z :=
  match s with
  | [] => Ok acc
  | c :: s =>
      match hex_digit_of c with
      | None => Err InvalidDigit
      | Some d => if acc * 16 + d <? 2 ^ 32 then hex_loop (acc * 16 + d) s else Err PosOverflow
      end
  end.

Definition parse_hex (s : list Z) : outcome IntErrorKind Z :=
  match s with
  | [] => Err EmptyInt
  | [c] => if (c =? plus_sign) || (c =? minus_sign) then Err InvalidDigit else hex_loop 0 s
  | c :: digits => if c =? plus_sign then hex_loop 0 digits else hex_loop 0 s
  end.

(** [f32::from_bits] *)
Definition f32_of_bits (bits : Z) : f32 :=
  let s := 2 ^ 31 <=? bits in
  let exponent := bits / 2 ^ 23 mod 2 ^ 8 in
  let mantissa := bits mod 2 ^ 23 in
  if exponent =? 255 then (if mantissa =? 0 then S754_infinity s else S754_nan)
  else match (if exponent =? 0 then mantissa else mantissa + 2 ^ 23) with
       | Zpos m => S754_finite s m (Z.max 1 exponent - 150)
       | _ => S754_zero s
       end.

Record ObjectInfoEntry := { entry_id : Z; entry_flag : Z; entry_file : list Z }.

(** [split\[i\]] of the pieces. *)
Definition piece (pieces : list (list Z)) (i : nat) : outcome IntErrorKind (list Z) :=
  match pieces !! i with Some p => Ok p | None => Panic end.
Definition hex_piece (pieces : list (list Z)) (i : nat) : outcome IntErrorKind Z :=
  s ← piece pieces i; parse_hex (trim_0x s).

Definition entry_from_str (line : list Z) : outcome IntErrorKind ObjectInfoEntry :=
  let split := splitn 3 blank line in
  id ← (s ← piece split 0; parse_int (U 32) s);
  flag ← hex_piece split 1;
  file ← piece split 2;
  Ok {| entry_id := id; entry_flag := flag; entry_file := map (fun c => if c =? 92 then 47 else c) (trim_quotes file) |}.

Record ObjectStringInfo := {
  os_unique_id : Z; os_flag : Z; os_region_x : Z; os_region_y : Z;
  x_offset : f32; y_offset : f32; z_offset : f32; os_rotation : f32; os_name : list Z;
}.

Definition local_id (unique_id : Z) : Z :=
  if negb (Z.land unique_id 0xFFFF0000 =? 0) then Z.land unique_id 0xFFFF else unique_id.

Definition string_from_str (line : list Z) : outcome IntErrorKind ObjectStringInfo :=
  let split := splitn 9 blank line in
  unique_id ← hex_piece split 0;
  flag ← hex_piece split 1;
  region_x ← (s ← piece split 2; parse_int (U 8) s);
  region_y ← (s ← piece split 3; parse_int (U 8) s);
  x ← hex_piece split 4;
  y ← hex_piece split 5;
  z ← hex_piece split 6;
  rotation ← hex_piece split 7;
  name ← piece split 8;
  Ok {| os_unique_id := local_id unique_id; os_flag := flag; os_region_x := region_x; os_region_y := region_y;
        x_offset := f32_of_bits x; y_offset := f32_of_bits y; z_offset := f32_of_bits z; os_rotation := f32_of_bits rotation;
        os_name := name |}.

(** The lines of a file after its magic and its count. *)
Fixpoint parse_lines {T} (from_str : list Z -> outcome IntErrorKind T) (count : nat) (lines : list (list Z))
    : outcome ObjectInfoError (list T) :=
  match count, lines with
  | O, _ => Ok []
  | S _, [] => Err NotEnoughLines
  | S count, line :: lines =>
      entry ← map_err NumberError (from_str line);
      rest ← parse_lines from_str count lines;
      Ok (entry :: rest)
  end.

Section Files.

(** The decoding of Windows-1252, and whether as many entries can be allocated. *)
Context (decode : list Z -> list Z) (allocates : Z -> bool).

Definition parse_object_file {T} (from_str : list Z -> outcome IntErrorKind T) (data : list Z)
    : outcome ObjectInfoError (list T) :=
  match split newline (decode data) with
  | [] => Panic
  | magic :: lines =>
      if negb (bool_decide (magic = OBJ_MAGIC)) then Err InvalidMagic
      else match lines with
      | [] => Err MissingCount
      | count_str :: lines =>
          count ← map_err NumberError (parse_int (U 64) count_str);
          if negb (allocates count) then Panic else parse_lines from_str (Z.to_nat count) lines
      end
  end.

(** [ObjectInfo::from], [ObjectStringsInfo::from]: later entries of an
    identifier replace earlier ones. *)
Definition object_info_from (data : list Z) : outcome ObjectInfoError (gmap Z ObjectInfoEntry) :=
  entries ← parse_object_file entry_from_str data; Ok (collect entry_id entries).

Definition object_strings_from (data : list Z) : outcome ObjectInfoError (gmap Z ObjectStringInfo) :=
  objects ← parse_object_file string_from_str data; Ok (collect os_unique_id objects).

Definition by_id (objects : gmap Z ObjectStringInfo) (global_id : Z) : option ObjectStringInfo := objects !! global_id.
Definition by_local_id (objects : gmap Z ObjectStringInfo) (region local : Z) : option ObjectStringInfo :=
  by_id objects (Z.lor (u32 (Z.shiftl region 16)) local).

(** ** object.rs *)

Inductive ObjectFile := CompoundFile (name : list Z) | ResourceFile (name : list Z) | MeshFile (name : list Z).

Definition ends_with (suffix s : list Z) : bool :=
  bool_decide (drop (length s - length suffix) s = suffix) && (length suffix <=? length s)%nat.

Definition object_file_from (file_name : list Z) : outcome unit ObjectFile :=
  if ends_with (chars ".cpd") file_name then Ok (CompoundFile file_name)
  else if ends_with (chars ".bsr") file_name then Ok (ResourceFile file_name)
  else if ends_with (chars ".bms") file_name then Ok (MeshFile file_name)
  else Panic.

(** The formats: what a compound says are its resources, by the paths that are text. *)
Context {JmxCompoundHeader JmxRes JmxBMesh JmxMapInfo : Type} (load_file : list Z -> option (list Z)).

Record JmxCompound := {
  compound_header : JmxCompoundHeader;
  collision_resource_path : option (list Z);
  resource_paths : list (option (list Z));
}.

Context (parse_compound : list Z -> option JmxCompound) (parse_res : list Z -> option JmxRes) (parse_bmesh : list Z -> option JmxBMesh).

Inductive Object :=
| Compound (header : JmxCompoundHeader) (collision_resource : option JmxRes) (resources : list JmxRes)
| Resource (r : JmxRes)
| Mesh (m : JmxBMesh).

(** A resource of a compound: one that is not text, empty, missing or malformed is left out. *)
Definition load_resource (path : option (list Z)) : option JmxRes :=
  match path with
  | None | Some [] => None
  | Some path => load_file path ≫= parse_res
  end.

Definition object_from (file : ObjectFile) : outcome unit Object :=
  let load path := ok_or (load_file path) tt in
  match file with
  | CompoundFile path =>
      data ← load path;
      match parse_compound data with
      | None => Panic
      | Some compound =>
          Ok (Compound compound.(compound_header) (load_resource compound.(collision_resource_path))
                (omap load_resource compound.(resource_paths)))
      end
  | ResourceFile path =>
      data ← load path;
      match parse_res data with None => Panic | Some resource => Ok (Resource resource) end
  | MeshFile path =>
      data ← load path;
      match parse_bmesh data with None => Panic | Some mesh => Ok (Mesh mesh) end
  end.

Definition OBJECT_INFO_FILE : list Z := chars "navmesh/object.ifo".

(** The entries, in the order of their map; one whose file is missing is left out. *)
Fixpoint load_each_object (entries : list (Z * ObjectInfoEntry)) : outcome unit (gmap Z Object) :=
  match entries with
  | [] => Ok ∅
  | (id, entry) :: entries =>
      file ← object_file_from entry.(entry_file);
      match object_from file with
      | Ok object => rest ← load_each_object entries; Ok (<[id := object]> rest)
      | Err _ => load_each_object entries
      | Panic => Panic
      end
  end.

Context (entry_order : gmap Z ObjectInfoEntry -> list (Z * ObjectInfoEntry)).

Definition load_objects : outcome unit (gmap Z Object) :=
  data ← ok_or (load_file OBJECT_INFO_FILE) tt;
  object_info ← map_err (fun _ => tt) (object_info_from data);
  load_each_object (entry_order object_info).

(** ** builder.rs, lib.rs and navmesh.rs *)

(** The heights that a mesh of the library has. *)
Context (parse_map_info : list Z -> option (list Z)) (parse_nvm : list Z -> option (list f32)).

(** [{:04x}] *)
Definition get_path_for_region (region : Region) : list Z :=
  let digits := hex_of (S (Z.to_nat (Z.log2 region))) region [] in
  chars "navmesh/nv_" ++ repeat 48 (4 - length digits) ++ digits ++ chars ".nvm".

Definition MAP_INFO_FILE : list Z := chars "navmesh/mapinfo.mfo".
Definition MESH_SIZE : Z := 96.
Definition MESH_TILE_SIZE : Z := 20.

Record NavmeshContainer := { mesh_region : Region; height_map : list f32 }.

Definition heightmap (c : NavmeshContainer) : Heightmap :=
  {| heights := c.(height_map); size := MESH_SIZE; tile_size := MESH_TILE_SIZE |}.

Definition load_mesh_for_region (region : Region) : option (list f32) :=
  data ← load_file (get_path_for_region region); parse_nvm data.

Record GlobalNavmesh := { loaded_meshes : gmap Region NavmeshContainer; loaded_objects : gmap Z Object }.

(** Regions whose mesh cannot be loaded are left out. *)
Definition load_meshes (regions : list Region) : gmap Region NavmeshContainer :=
  list_to_map (omap (fun region =>
    (fun heights => (region, {| mesh_region := region; height_map := heights |})) <$> load_mesh_for_region region) regions).

Definition build_from : outcome unit GlobalNavmesh :=
  objects ← load_objects;
  data ← ok_or (load_file MAP_INFO_FILE) tt;
  region_info ← ok_or (parse_map_info data) tt;
  match enabled_regions region_info with
  | Some regions => Ok {| loaded_meshes := load_meshes regions; loaded_objects := objects |}
  | None => Panic
  end.

Definition mesh_for (g : GlobalNavmesh) (region : Region) : option NavmeshContainer := g.(loaded_meshes) !! region.

(** The meshes as the agent asks them for heights (ext.rs). *)
Definition heights_of (g : GlobalNavmesh) (region : Region) : option Heightmap := heightmap <$> mesh_for g region.

End Files.
