(* ===== verification/NavmeshSpec.v ===== *)
(** The navigation mesh: the iterator gives the enabled regions, each once and
    in order; heights are found inside of the grid at every location, whatever
    its coordinates are; identifiers of objects survive their text; and what
    the lookup by region and number misses. *)
From stdpp Require Import base list option strings gmap.
From Stdlib Require Import ZArith Lia Floats.SpecFloat.
From S2P Require Import Prelude Utf Text F32 Show Definitions GameData Position PositionSpec Movement Navmesh.

(** ** The enabled regions *)

(** The bit of a region. *)
Definition enabled (data : list Z) (region : Region) : bool :=
  match data !! Z.to_nat (region / 8) with
  | None => false
  | Some byte => Z.testbit byte (7 - region mod 8)
  end.

Definition all_regions : list Region := map Z.of_nat (seq 0 (Z.to_nat (2 ^ 16))).

Lemma land_bit b n : 0 <= n -> negb (Z.land b (2 ^ n) =? 0) = Z.testbit b n.
Proof.
  intros Hn. destruct (Z.testbit b n) eqn:E.
  - apply negb_true_iff, Z.eqb_neq. intros H0. apply (f_equal (fun x => Z.testbit x n)) in H0.
    rewrite Z.land_spec, E, Z.pow2_bits_true, Z.bits_0 in H0 by lia. discriminate.
  - apply negb_false_iff, Z.eqb_eq, Z.bits_inj'. intros k Hk. rewrite Z.land_spec, Z.pow2_bits_eqb, Z.bits_0 by lia.
    destruct (Z.eqb_spec n k); [subst; rewrite E; reflexivity|apply andb_false_r].
Qed.

Lemma is_enabled_bit region r : is_enabled region r = enabled r.(region_data) region.
Proof.
  unfold is_enabled, enabled. rewrite Z.shiftr_div_pow2 by lia. change (2 ^ 3) with 8.
  destruct (region_data r !! _); [|reflexivity].
  pose proof (Z.mod_pos_bound region 8 ltac:(lia)). rewrite Z.shiftr_div_pow2 by lia.
  rewrite <- (land_bit z (7 - region mod 8)) by lia. rewrite Z.pow_sub_r by lia. reflexivity.
Qed.

(** The regions an iterator still looks at. *)
Definition remaining (r : EnabledRegions) : list Region :=
  if r.(ended) then [] else map Z.of_nat (seq (Z.to_nat r.(current_region)) (Z.to_nat (2 ^ 16 - r.(current_region)))).

Lemma remaining_step r : r.(ended) = false -> 0 <= r.(current_region) < 2 ^ 16 ->
  let '(region, r') := step r in
  remaining r = region :: remaining r' /\ r'.(region_data) = r.(region_data) /\ 0 <= r'.(current_region) < 2 ^ 16.
Proof.
  intros He Hc. unfold step. cbn zeta iota. unfold remaining at 1. rewrite He.
  replace (Z.to_nat (2 ^ 16 - current_region r)) with (S (Z.to_nat (2 ^ 16 - (current_region r + 1)))) by lia.
  cbn [seq map]. rewrite Z2Nat.id by lia.
  destruct (Z.ltb_spec (current_region r + 1) (2 ^ 16)); unfold remaining; cbn [region_data current_region ended].
  - split; [|split; [reflexivity|lia]]. repeat f_equal. lia.
  - split; [|split; [reflexivity|lia]]. replace (2 ^ 16 - (current_region r + 1)) with 0 by lia. reflexivity.
Qed.

Lemma next_remaining fuel : forall r, 0 <= r.(current_region) < 2 ^ 16 -> (length (remaining r) <= fuel)%nat ->
  exists r', next fuel r = Some (head (List.filter (enabled r.(region_data)) (remaining r)), r')
    /\ List.filter (enabled r.(region_data)) (remaining r') = tail (List.filter (enabled r.(region_data)) (remaining r))
    /\ r'.(region_data) = r.(region_data) /\ 0 <= r'.(current_region) < 2 ^ 16
    /\ (length (remaining r') <= length (remaining r))%nat.
Proof.
  induction fuel as [|fuel IH]; intros r Hc Hl; destruct (ended r) eqn:He.
  1,3: cbn [next]; rewrite He; exists r; unfold remaining; rewrite He; auto.
  all: pose proof (remaining_step r He Hc) as Hs; destruct (step r) as [region r'] eqn:Es; destruct Hs as (Hr & Hd & Hc').
  { exfalso. rewrite Hr in Hl. cbn in Hl. lia. }
  cbn [next]. rewrite He, Es, is_enabled_bit, Hd, Hr. rewrite Hr in Hl. cbn [length List.filter] in *.
  destruct (enabled (region_data r) region); cbn [head tail].
  - exists r'. repeat (split; [first [reflexivity | assumption | lia]|]). lia.
  - destruct (IH r' Hc' ltac:(lia)) as (r2 & -> & Ht & Hd2 & Hc2 & Hl2). rewrite Hd in *. exists r2.
    repeat (split; [first [reflexivity | assumption | congruence | lia]|]). lia.
Qed.

Lemma collect_remaining fuel : forall r, 0 <= r.(current_region) < 2 ^ 16 -> (length (remaining r) <= next_fuel)%nat ->
  (length (List.filter (enabled r.(region_data)) (remaining r)) < fuel)%nat ->
  collect_regions fuel r = Some (List.filter (enabled r.(region_data)) (remaining r)).
Proof.
  induction fuel as [|fuel IH]; intros r Hc Hl Hf; [lia|].
  destruct (next_remaining next_fuel r Hc Hl) as (r' & E & Ht & Hd & Hc' & Hl').
  cbn [collect_regions]. rewrite E. cbn [mbind option_bind].
  destruct (List.filter (enabled (region_data r)) (remaining r)) as [|region l] eqn:El; [reflexivity|].
  cbn [head hd_error tail] in *. rewrite <- Hd in Ht. rewrite IH; [rewrite Ht; reflexivity|assumption|lia|]. rewrite Ht. cbn in Hf. lia.
Qed.

Lemma collect_ended fuel r : r.(ended) = true -> collect_regions (S fuel) r = Some [].
Proof.
  intros He. cbn [collect_regions]. assert (E : forall n, next n r = Some (None, r)) by (intros [|n]; cbn [next]; rewrite He; reflexivity).
  rewrite E. reflexivity.
Qed.

Lemma collect_first_byte b data : enabled_regions (b :: data) = Some (List.filter (enabled (b :: data)) all_regions).
Proof.
  assert (Hr : remaining (enabled_new (b :: data)) = all_regions).
  { unfold remaining, enabled_new, all_regions. cbn [ended current_region]. rewrite bool_decide_false by discriminate.
    rewrite Z.sub_0_r, Z2Nat.inj_0. reflexivity. }
  assert (Hn : length all_regions = next_fuel) by (unfold all_regions; rewrite length_map, length_seq; reflexivity).
  unfold enabled_regions. rewrite collect_remaining; rewrite ?Hr; [reflexivity|cbn; lia|lia|].
  pose proof (List.filter_length_le (enabled (b :: data)) all_regions). cbn [enabled_new region_data]. lia.
Qed.

(** C31: The iterator over the enabled regions ends, after at most 65536 steps,
    and gives exactly the regions whose bit is set, the highest bit of a byte
    first, each once and in increasing order; the last region is among them,
    although the counter does not go beyond it, and data that is shorter has no
    regions behind its end. *)
Theorem enabled_regions_exact data :
  enabled_regions data = Some (List.filter (enabled data) all_regions).
Proof.
  destruct data as [|b data]; [|apply collect_first_byte].
  unfold enabled_regions. rewrite collect_ended by reflexivity. apply (f_equal Some). generalize all_regions.
  intros l. induction l as [|x l IH]; [reflexivity|exact IH].
Qed.

(** [test_empty_list] and [test_single_entry] *)
Example enabled_regions_tests :
  fst <$> next 0 (enabled_new []) = Some None
  /\ ('(a, r) ← next 16 (enabled_new [128; 129]); '(b, r) ← next 16 r; '(c, r) ← next 16 r; Some [a; b; c])
     = Some [Some 0; Some 8; Some 15].
Proof. vm_compute. split; reflexivity. Qed.

(** ** Heights *)

(** A grid that holds what its size says. *)
Definition grid_ok (map : Heightmap) : Prop :=
  map.(size) = MESH_SIZE /\ map.(tile_size) = MESH_TILE_SIZE /\ (Z.to_nat (MESH_SIZE * MESH_SIZE) <= length map.(heights))%nat.

Lemma vertex_inside {E} map x y : grid_ok map -> 0 <= x <= 95 -> 0 <= y <= 95 -> exists h, @height_of_vertex E map x y = Ok h.
Proof.
  intros (Hs & _ & Hl) Hx Hy. unfold height_of_vertex. rewrite Hs. change (Z.to_nat (MESH_SIZE * MESH_SIZE)) with (Z.to_nat 9216) in Hl.
  unfold MESH_SIZE. destruct (lookup_lt_is_Some_2 (heights map) (Z.to_nat (x + y * 96))) as [h ->]; [lia|]. exists h. reflexivity.
Qed.

Lemma height_inside {E} map x y : grid_ok map -> f32_valid x -> f32_valid y ->
  exists h, @height_at_position E map (frem x f1920) (frem y f1920) = Ok h.
Proof.
  intros Hg Hx Hy. pose proof (tile_bound x Hx) as Tx. pose proof (tile_bound y Hy) as Ty.
  change (f32_of_Z 1920) with f1920 in Tx, Ty. revert Tx Ty. generalize (frem x f1920), (frem y f1920). intros a b Ta Tb.
  unfold height_at_position. destruct Hg as (Hs & Ht & Hl) eqn:Eg. rewrite Hs, Ht. unfold MESH_SIZE, MESH_TILE_SIZE.
  destruct (fltb a (f32_of_Z 0)); [exists None; reflexivity|]. destruct (fltb _ a); [exists None; reflexivity|].
  destruct (fltb b (f32_of_Z 0)); [exists None; reflexivity|]. destruct (fltb _ b); [exists None; reflexivity|].
  specialize (Ta eq_refl). specialize (Tb eq_refl). cbn [orb].
  set (tx := f32_as (U 64) (fdiv a (f32_of_Z 20))) in *. set (ty := f32_as (U 64) (fdiv b (f32_of_Z 20))) in *.
  destruct (@vertex_inside E map tx ty Hg) as [h1 ->]; [lia..|].
  destruct (@vertex_inside E map (Z.min (tx + 1) (96 - 1)) ty Hg) as [h2 ->]; [lia..|].
  destruct (@vertex_inside E map tx (Z.min (ty + 1) (96 - 1)) Hg) as [h3 ->]; [lia..|].
  destruct (@vertex_inside E map (Z.min (tx + 1) (96 - 1)) (Z.min (ty + 1) (96 - 1)) Hg) as [h4 ->]; [lia..|].
  eexists. reflexivity.
Qed.

Section Built.
Context (decode : list Z -> list Z) (allocates : Z -> bool) {JmxCompoundHeader JmxRes JmxBMesh : Type}.
Context (load_file : list Z -> option (list Z)) (parse_compound : list Z -> option (@JmxCompound JmxCompoundHeader)).
Context (parse_res : list Z -> option JmxRes) (parse_bmesh : list Z -> option JmxBMesh).
Context (entry_order : gmap Z ObjectInfoEntry -> list (Z * ObjectInfoEntry)).
Context (parse_map_info : list Z -> option (list Z)) (parse_nvm : list Z -> option (list f32)).

Abbreviation build := (build_from decode allocates load_file parse_compound parse_res parse_bmesh entry_order parse_map_info parse_nvm).
Abbreviation meshes_of := (load_meshes load_file parse_nvm).

(** What a table of meshes holds was parsed from a file. *)
Lemma meshes_loaded regions region c : meshes_of regions !! region = Some c ->
  exists data, load_file (get_path_for_region region) = Some data /\ parse_nvm data = Some c.(height_map) /\ c.(mesh_region) = region.
Proof.
  intros Hc. apply elem_of_list_to_map_2, list_elem_of_omap in Hc as (r & _ & Hc).
  unfold load_mesh_for_region in Hc. destruct (load_file (get_path_for_region r)) as [data|] eqn:Ed; [|discriminate].
  cbn in Hc. destruct (parse_nvm data) as [hs|] eqn:Ep; [|discriminate]. simplify_eq/=.
  exists data. auto.
Qed.

Lemma built_meshes g : build = Ok g -> exists regions, g.(loaded_meshes) = meshes_of regions.
Proof.
  unfold build_from. intros H. apply bind_ok in H as (objects & _ & H). apply bind_ok in H as (data & _ & H).
  apply bind_ok in H as (info & _ & H). cbv beta in H. destruct (enabled_regions info) as [regions|]; [|discriminate].
  injection H as <-. exists regions. reflexivity.
Qed.

(** C15: The height at a location is looked up inside of the grid of its region,
    so that it never panics, wherever the location is: negative and enormous
    coordinates, infinite ones and those that are no number included. What the
    grid of a mesh holds is said by the library; that it is at least what the
    constants of the program say is the hypothesis. *)
Theorem heights_never_panic g l :
  build = Ok g ->
  (forall data hs, parse_nvm data = Some hs -> (Z.to_nat (MESH_SIZE * MESH_SIZE) <= length hs)%nat) ->
  valid_binary f32_prec f32_emax l.(x2) = true -> valid_binary f32_prec f32_emax l.(y2) = true ->
  exists h, height_for (heights_of g) l = @Ok unit _ h.
Proof.
  intros Hg Hn Hx Hy. destruct (built_meshes g Hg) as [regions Hm].
  unfold height_for, height_for_location, heights_of, mesh_for. rewrite Hm. cbn [to_local_location ll_region ll_vec x2 y2].
  destruct (meshes_of regions !! location_region l) as [c|] eqn:Ec; [|exists None; reflexivity].
  destruct (meshes_loaded regions (location_region l) c Ec) as (data & _ & Hp & _). cbn [fmap option_fmap option_map].
  apply height_inside; [|apply valid_binary_valid; assumption..].
  split; [reflexivity|]. split; [reflexivity|]. exact (Hn data _ Hp).
Qed.

End Built.

(** A mesh of zeros for the first region. *)
Definition flat_files (path : list Z) : option (list Z) :=
  if bool_decide (path = OBJECT_INFO_FILE) then Some (OBJ_MAGIC ++ [10; 48])
  else if bool_decide (path = MAP_INFO_FILE) then Some [128]
  else if bool_decide (path = get_path_for_region 0) then Some []
  else None.
Definition flat_grid : list f32 := replicate (Z.to_nat (MESH_SIZE * MESH_SIZE)) (f32_of_Z 0).
Definition flat_heights (data : list Z) : option (list f32) := Some flat_grid.
Definition build_flat : outcome unit (@GlobalNavmesh unit unit unit) :=
  build_from id (fun _ => true) flat_files (fun _ => None) (fun _ => None) (fun _ => None) map_to_list Some flat_heights.

Lemma flat_built : exists g, build_flat = Ok g /\ mesh_for g 0 <> None.
Proof.
  assert (Eo : load_objects id (fun _ => true) flat_files (fun _ => None) (fun _ => None) (fun _ => None) map_to_list
               = Ok (∅ : gmap Z (@Object unit unit unit))) by (vm_compute; reflexivity).
  assert (Em : flat_files MAP_INFO_FILE = Some [128]) by (vm_compute; reflexivity).
  unfold build_flat, build_from. rewrite Eo, Em. cbn [mbind outcome_bind ok_or]. rewrite collect_first_byte.
  eexists. split; [reflexivity|]. unfold mesh_for. cbn [loaded_meshes].
  unfold load_meshes. intros H0. apply not_elem_of_list_to_map_2 in H0. apply H0.
  apply list_elem_of_fmap. exists (0, {| mesh_region := 0; height_map := flat_grid |}).
  split; [reflexivity|]. apply list_elem_of_omap. exists 0. split; [|reflexivity].
  apply list_elem_of_In, filter_In. split; [|reflexivity]. apply in_map_iff. exists 0%nat. split; [reflexivity|]. apply in_seq. lia.
Qed.

Lemma heights_never_panic_witness :
  exists g, build_flat = Ok g /\ mesh_for g 0 <> None
    /\ exists h, height_for (heights_of g) {| x2 := f32_of_Z 1919; y2 := S754_nan |} = @Ok unit _ h.
Proof.
  destruct flat_built as (g & Hg & Hm). exists g. split; [exact Hg|]. split; [exact Hm|].
  apply (heights_never_panic id (fun _ => true) flat_files (fun _ => None) (fun _ => None) (fun _ => None) map_to_list
    Some flat_heights g {| x2 := f32_of_Z 1919; y2 := S754_nan |} Hg); [|reflexivity..].
  intros data hs E. assert (hs = flat_grid) as -> by (unfold flat_heights in E; congruence). unfold flat_grid. rewrite length_replicate. reflexivity.
Defined.

(** ** Objects by their numbers *)

Lemma hex_loop_bound s : forall acc n, 0 <= acc < 2 ^ 32 -> hex_loop acc s = Ok n -> 0 <= n < 2 ^ 32.
Proof.
  induction s as [|c s IH]; intros acc n Ha H; cbn [hex_loop] in H; [congruence|].
  destruct (hex_digit_of c) as [d|] eqn:Ed; [|discriminate].
  destruct (Z.ltb_spec (acc * 16 + d) (2 ^ 32)); [|discriminate]. apply IH in H; [exact H|].
  unfold hex_digit_of in Ed. repeat (case_match_hyp Ed; split_andb; try discriminate); injection Ed as <-; lia.
Qed.

Lemma parse_hex_bound s n : parse_hex s = Ok n -> 0 <= n < 2 ^ 32.
Proof.
  unfold parse_hex. intros H. repeat (case_match_hyp H; try discriminate);
    (apply hex_loop_bound in H; [exact H|lia]).
Qed.

Lemma local_id_bound u : 0 <= u < 2 ^ 32 -> 0 <= local_id u < 2 ^ 16.
Proof.
  intros Hu. unfold local_id. change 0xFFFF with (Z.ones 16). rewrite Z.land_ones by lia.
  destruct (Z.eqb_spec (Z.land u 0xFFFF0000) 0) as [E|E]; cbn [negb]; [|apply Z.mod_pos_bound; lia].
  split; [lia|]. destruct (Z.eq_dec u 0) as [->|]; [lia|]. apply Z.log2_lt_pow2; [lia|].
  destruct (Z.lt_ge_cases (Z.log2 u) 16) as [|Hl]; [assumption|exfalso].
  assert (Z.log2 u < 32) by (apply Z.log2_lt_pow2; lia).
  apply (f_equal (fun x => Z.testbit x (Z.log2 u))) in E. rewrite Z.land_spec, Z.bit_log2, Z.bits_0 in E by lia.
  replace 0xFFFF0000 with (Z.shiftl (Z.ones 16) 16) in E by reflexivity.
  rewrite Z.shiftl_spec, Z.ones_spec_low in E by lia. discriminate.
Qed.

Lemma parsed_keys_bound line o : string_from_str line = Ok o -> 0 <= o.(os_unique_id) < 2 ^ 16.
Proof.
  unfold string_from_str. intros H. apply bind_ok in H as (u & Hu & H). cbv beta in H.
  repeat (apply bind_ok in H as (? & _ & H); cbv beta in H).
  injection H as <-. cbn [os_unique_id]. apply local_id_bound. unfold hex_piece in Hu. apply bind_ok in Hu as (s & _ & Hu).
  exact (parse_hex_bound _ _ Hu).
Qed.

Lemma parse_lines_all {T} (from_str : list Z -> outcome IntErrorKind T) (P : T -> Prop) :
  (forall line t, from_str line = Ok t -> P t) ->
  forall count lines ts, parse_lines from_str count lines = Ok ts -> Forall P ts /\ length ts = count.
Proof.
  intros HP. induction count as [|count IH]; intros lines ts H; destruct lines as [|line lines]; cbn [parse_lines] in H; try discriminate.
  1,2: injection H as <-; auto.
  apply bind_ok in H as (t & Ht & H). apply bind_ok in H as (rest & Hr & H). injection H as <-.
  destruct (from_str line) as [t'| |] eqn:El; try discriminate. injection Ht as <-.
  apply IH in Hr as [Hr <-]. split; [constructor; eauto|reflexivity].
Qed.

Lemma collect_keys {A} (key : A -> Z) (P : Z -> Prop) rows k a : Forall (fun a => P (key a)) rows ->
  GameData.collect key rows !! k = Some a -> P k.
Proof.
  intros HP. unfold GameData.collect. enough (Hg : forall m : gmap Z A, (forall k a, m !! k = Some a -> P k) ->
    fold_left (fun m a => <[key a := a]> m) rows m !! k = Some a -> P k) by (apply Hg; intros ? ? E; discriminate E).
  induction HP as [|row rows Hrow _ IH]; intros m Hm; cbn [fold_left]; [apply Hm|].
  apply IH. intros k' a' E. destruct (decide (k' = key row)) as [->|Hne]; [exact Hrow|].
  rewrite lookup_insert_ne in E by congruence. exact (Hm _ _ E).
Qed.

(** The regions in the identifiers of a file are masked away when it is read,
    so that no object is found by the number it has in a region. *)
Lemma by_local_id_misses decode allocates data objects region local :
  object_strings_from decode allocates data = Ok objects -> 0 < region < 2 ^ 16 -> 0 <= local < 2 ^ 16 ->
  by_local_id objects region local = None.
Proof.
  intros H Hr Hl. unfold object_strings_from in H. apply bind_ok in H as (rows & Hrows & H). injection H as <-.
  unfold by_local_id, by_id. rewrite wrap_small by (apply fits_spec; rewrite Z.shiftl_mul_pow2; lia).
  rewrite Z.shiftl_mul_pow2, lor_disjoint by lia.
  destruct (GameData.collect os_unique_id rows !! _) as [o|] eqn:Eo; [exfalso|reflexivity].
  apply (collect_keys os_unique_id (fun k => 0 <= k < 2 ^ 16)) in Eo; [lia|].
  unfold parse_object_file in Hrows. repeat (case_match_hyp Hrows; try discriminate).
  apply bind_ok in Hrows as (count & _ & Hrows). destruct (allocates count); [|discriminate].
  exact (proj1 (parse_lines_all string_from_str _ parsed_keys_bound _ _ _ Hrows)).
Qed.
