(* ===== verification/Schedule.v ===== *)
(** How the agent is put together: main.rs, the plugins of its modules
    (server_plugin.rs, net/mod.rs, input/mod.rs, sync/mod.rs, sync/reset.rs,
    agent/mod.rs, persistence/mod.rs, world/mod.rs, login/mod.rs, game/mod.rs,
    game/mind.rs, chat/mod.rs, mall/mod.rs) and the loaded data (world/data.rs).

    The engine is a third-party library. A plugin adds systems, named like the
    functions of the source, to its schedules, with the sets they are in, the
    systems and sets they run after or before and their timers; which systems a
    tick runs, and in which order, is a parameter, and what the engine documents
    of it are the laws of the class [Engine]. *)
From stdpp Require Import base list option strings gmap.
From Stdlib Require Import ZArith Lia Permutation.
From S2P Require Import Prelude Utf Text F32 Definitions GameData SkillData.

#[local] Open Scope string_scope.

(** ** The engine's builder *)

Inductive label := Startup | First | PreUpdate | Update | PostUpdate | Last.
#[export] Instance label_eq_dec : EqDecision label.
Proof. solve_decision. Defined.

(** A system as it is added, and the period of its timer, in milliseconds. *)
Record config := { system : string; sets : list string; afters : list string; befores : list string; on_timer : option Z }.
#[export] Instance config_eq_dec : EqDecision config.
Proof. solve_decision. Defined.

Definition sys (name : string) : config := {| system := name; sets := []; afters := []; befores := []; on_timer := None |}.
Definition after (target : string) (c : config) : config :=
  {| system := c.(system); sets := c.(sets); afters := c.(afters) ++ [target]; befores := c.(befores); on_timer := c.(on_timer) |}.
Definition before (target : string) (c : config) : config :=
  {| system := c.(system); sets := c.(sets); afters := c.(afters); befores := c.(befores) ++ [target]; on_timer := c.(on_timer) |}.
Definition in_set (s : string) (cs : list config) : list config :=
  map (fun c => {| system := c.(system); sets := c.(sets) ++ [s]; afters := c.(afters); befores := c.(befores); on_timer := c.(on_timer) |}) cs.
Definition run_every (ms : Z) (c : config) : config :=
  {| system := c.(system); sets := c.(sets); afters := c.(afters); befores := c.(befores); on_timer := Some ms |}.

(** The settings of the game that the plugins read. *)
Record GameConfig := { desired_ticks : Z; persist_interval : Z }.

(** The names of resources and events; systems; orders between sets; the
    components of [PersistedComponents]; and the length of a tick in
    nanoseconds, where the engine runs in a loop. *)
Record App := {
  game_config : option GameConfig;
  resources : list string;
  events : list string;
  systems : list (label * config);
  set_orders : list (label * (string * string));
  persisted_components : option (list string);
  tick_length : option Z;
}.

Definition app_new : App :=
  {| game_config := None; resources := []; events := []; systems := []; set_orders := []; persisted_components := None; tick_length := None |}.

Definition insert_resource (r : string) (a : App) : App :=
  {| game_config := a.(game_config); resources := a.(resources) ++ [r]; events := a.(events); systems := a.(systems);
     set_orders := a.(set_orders); persisted_components := a.(persisted_components); tick_length := a.(tick_length) |}.
Definition add_event (e : string) (a : App) : App :=
  {| game_config := a.(game_config); resources := a.(resources); events := a.(events) ++ [e]; systems := a.(systems);
     set_orders := a.(set_orders); persisted_components := a.(persisted_components); tick_length := a.(tick_length) |}.
Definition add_systems (l : label) (cs : list config) (a : App) : App :=
  {| game_config := a.(game_config); resources := a.(resources); events := a.(events);
     systems := a.(systems) ++ map (pair l) cs; set_orders := a.(set_orders);
     persisted_components := a.(persisted_components); tick_length := a.(tick_length) |}.
Definition order_sets (l : label) (first second : string) (a : App) : App :=
  {| game_config := a.(game_config); resources := a.(resources); events := a.(events); systems := a.(systems);
     set_orders := a.(set_orders) ++ [(l, (first, second))]; persisted_components := a.(persisted_components);
     tick_length := a.(tick_length) |}.
Definition with_persisted (p : list string) (a : App) : App :=
  {| game_config := a.(game_config); resources := a.(resources); events := a.(events); systems := a.(systems);
     set_orders := a.(set_orders); persisted_components := Some p; tick_length := a.(tick_length) |}.
Definition with_config (c : GameConfig) (tick : option Z) (a : App) : App :=
  {| game_config := Some c; resources := a.(resources); events := a.(events); systems := a.(systems);
     set_orders := a.(set_orders); persisted_components := a.(persisted_components); tick_length := tick |}.

Definition plugin : Type := App -> outcome unit App.

(** ** The plugins *)

(** server_plugin.rs: the loop is only run when ticks are desired. *)
Definition ServerPlugin (configuration : GameConfig) : plugin := fun a =>
  let tick := if (0 <? configuration.(desired_ticks))%Z then Some (1000000000 / configuration.(desired_ticks))%Z else a.(tick_length) in
  Ok (insert_resource "ServerId" (with_config configuration tick a)).

(** net/mod.rs *)
Definition NetworkPlugin : plugin := fun a =>
  Ok (add_event "ClientConnectedEvent" (add_event "ClientDisconnectedEvent"
     (add_systems PreUpdate [sys "accept"; sys "disconnected"; sys "connected"] (insert_resource "ServerResource" a)))).

(** input/mod.rs *)
Definition ReceivePlugin : plugin := fun a =>
  Ok (add_systems Last [sys "reset"] (add_systems First [sys "receive_game_inputs"; sys "receive_login_inputs"] a)).

(** sync/reset.rs *)
Definition reset (component : string) : App -> App := add_systems Last [sys ("reset_component::" +:+ component)].

(** sync/mod.rs *)
Definition Collection : string := "SynchronizationStage::Collection".
Definition Distribution : string := "SynchronizationStage::Distribution".

Definition SynchronizationPlugin : plugin := fun a =>
  let a := order_sets PostUpdate Collection Distribution (insert_resource "SynchronizationCollector" a) in
  let a := add_systems PostUpdate (in_set Collection
    [sys "system_collect_bars_update"; sys "system_collect_sp_update"; sys "system_collect_exp_update";
     sys "system_collect_level_up"; sys "collect_movement_update"; sys "collect_movement_speed_change";
     sys "collect_pickup_animation"; sys "debug_queries"; sys "collect_deaths"; sys "collect_alives";
     sys "collect_body_states"; sys "collect_stat_changes"; sys "collect_gold_changes"; sys "collect_mastery_changes"]) a in
  let a := add_systems PostUpdate (in_set Distribution [sys "synchronize_updates"]) a in
  Ok (fold_left (fun a c => reset c a)
        ["Position"; "Health"; "Mana"; "Experienced"; "StatPoints"; "Leveled"; "MasteryKnowledge"] a).

(** agent/mod.rs; a set that is only configured has no order. *)
Definition AgentInput : string := "AgentSet::Input".
Definition AgentTransition : string := "AgentSet::Transition".
Definition AgentExecute : string := "AgentSet::Execute".

Definition AgentPlugin : plugin := fun a =>
  let a := add_event "ActionFinished" (add_event "MovementFinished" a) in
  let a := order_sets Update AgentTransition AgentExecute a in
  let a := add_systems PreUpdate (in_set AgentInput [sys "movement_input"]) a in
  let a := add_systems Update (in_set AgentTransition
    [sys "transition_to_idle"; sys "transition_from_idle"; sys "transition_from_moving";
     sys "transition_from_sitting"; sys "transition_from_attacking"]) a in
  Ok (add_systems Update (in_set AgentExecute
    [sys "update_target_location"; after "update_target_location" (sys "movement"); sys "pickup"; sys "action";
     sys "turning"; sys "dead"]) a).

(** persistence/mod.rs: the resource of the settings is expected. *)
Definition config_of (a : App) : outcome unit GameConfig :=
  match a.(game_config) with Some c => Ok c | None => Panic end.

Definition PersistencePlugin : plugin := fun a =>
  c ← config_of a;
  Ok (add_systems PostUpdate [run_every (1000 * c.(persist_interval))%Z (sys "apply_changes_periodically")]
     (add_systems PostUpdate [sys "apply_changes_combined"]
        (with_persisted (default [] a.(persisted_components)) a))).

Definition track_component (component : string) : plugin := fun a =>
  c ← config_of a;
  let collect := "collect_changes::" +:+ component in
  Ok (add_systems PostUpdate
        [after collect (run_every (1000 * c.(persist_interval))%Z (sys ("apply_changes::" +:+ component)))]
     (add_systems PostUpdate
        [sys ("add_change_tracker::" +:+ component); sys collect; after collect (sys ("apply_changes_exit::" +:+ component))] a)).

(** The collection of the persisted components is expected. *)
Definition track_change_component (component : string) : plugin := fun a =>
  match a.(persisted_components) with
  | Some p => Ok (with_persisted (p ++ [component]) a)
  | None => Panic
  end.

(** Plugins one after the other. *)
Definition also (p q : plugin) : plugin := fun a => a ← p a; q a.
Definition all_plugins : list plugin -> plugin := fold_right also Ok.

(** login/mod.rs *)
Definition LoginPlugin : plugin := fun a =>
  let a := insert_resource "JobDistribution" (insert_resource "LoginQueue" a) in
  let a := add_systems PostUpdate [sys "update_job_distribution"] a in
  Ok (add_systems Update
    [sys "handle_character_create"; sys "handle_character_restore"; sys "handle_character_delete";
     sys "handle_character_name_check"; sys "handle_character_list_received"; sys "handle_join"; sys "handle_auth";
     sys "handle_list_request"] a).

(** chat/mod.rs *)
Definition ChatPlugin : plugin := fun a =>
  Ok (add_event "PlayerTeleportEvent" (add_event "PlayerCommandEvent" (add_systems Update
    [sys "handle_chat"; sys "handle_gm_commands"; after "handle_chat" (sys "handle_command");
     after "handle_command" (sys "handle_teleport")] a))).

(** game/mind.rs *)
Definition MindPlugin : plugin := fun a =>
  Ok (add_systems PreUpdate [run_every 100 (sys "update_action")] (add_systems PostUpdate [sys "enqueue_action"] a)).

(** mall/mod.rs *)
Definition MallPlugin : plugin := fun a =>
  Ok (add_systems PostUpdate [run_every 60000 (sys "clean_tokens")]
     (add_systems Update [sys "open_mall"] (add_event "MallOpenRequestEvent" a))).

(** game/mod.rs *)
Definition game_systems (a : App) : App :=
  let a := fold_left (fun a r => insert_resource r a) ["PlayerActivity"; "DaylightCycle"; "ActionIdCounter"] a in
  let a := fold_left (fun a e => add_event e a)
    ["PlayerLevelUp"; "LoadingFinishedEvent"; "UniqueKilledEvent"; "SpawnDrop"; "DamageReceiveEvent"; "EntityDeath";
     "ReceiveExperienceEvent"; "SpawnMonster"] a in
  let a := add_systems Startup [sys "setup_unique_timers"] a in
  let a := add_systems PreUpdate [sys "update_player_activity"; sys "update_timers"] a in
  let a := add_systems Update
    [sys "handle_inventory_input"; sys "increase_stats"; sys "visibility_update"; sys "movement_monster"; sys "tick_drop";
     sys "handle_logout"; sys "handle_action"; sys "tick_logout"; sys "player_update_target"; sys "deselect_despawned";
     sys "handle_damage"; sys "attack_player"; after "handle_damage" (sys "distribute_experience");
     after "handle_damage" (sys "drop_gold"); after "distribute_experience" (sys "receive_experience");
     after "receive_experience" (sys "reset_health_mana_on_level");
     after "increase_stats" (sys "update_max_hp_mp_on_stat_change"); sys "handle_mastery_levelup"; sys "learn_skill";
     sys "do_spawn_mobs"] a in
  add_systems PostUpdate
    [before Distribution (sys "player_visibility_update"); sys "load_finished"; sys "unique_spawned"; sys "unique_killed";
     sys "advance_daylight"; sys "create_drops"] a.

Definition persisted_by_game : list string :=
  ["Position"; "StatPoints"; "Health"; "Mana"; "Leveled"; "Experienced"; "SP"; "GoldPouch"; "MasteryKnowledge"].

Definition GamePlugin : plugin :=
  all_plugins ([ChatPlugin; MindPlugin; fun a => Ok (game_systems a)] ++ map track_change_component persisted_by_game
    ++ map track_component ["PlayerInventory"; "SkillBook"] ++ [fun a => Ok (add_systems Last [sys "clear_visibility"] a)]).

(** world/mod.rs *)
Definition world_systems (a : App) : App :=
  let a := fold_left (fun a r => insert_resource r a) ["EntityIdPool"; "EntityLookup"; "NpcPositionList"] a in
  let a := add_systems Startup [sys "spawn_npcs"] a in
  let a := add_systems First [sys "maintain_entities"] a in
  let a := add_systems Last [sys "collect_entities"] a in
  let a := add_systems Update [sys "spawn_monsters"] a in
  let a := add_systems Last [sys "collect_monster_deaths"] a in
  insert_resource "Navmesh" a.

(** ** world/data.rs *)

(** What is set once, and read by everyone from then on. *)
Record WorldData := {
  ITEMS : option (list RefItemData);
  CHARACTERS : option (list RefCharacterData);
  SKILLS : option (list RefSkillData);
  LEVELS : option (gmap Z RefLevel);
  GOLD : option GoldMap;
  MASTERIES : option (list RefMasteryData);
}.

Definition no_data : WorldData :=
  {| ITEMS := None; CHARACTERS := None; SKILLS := None; LEVELS := None; GOLD := None; MASTERIES := None |}.

(** [OnceCell::set], whose failure is ignored. *)
Definition set_once {T} (value : T) (cell : option T) : option T := Some (default value cell).

(** [get().expect(..)] *)
Definition get_expected {T} (cell : option T) : outcome unit T := match cell with Some t => Ok t | None => Panic end.

Section World.

(** The archive [Media.pk2] and the decoding of its texts; whether the archives
    and the navigation mesh load. *)
Context (open_file : list Z -> option (list Z)) (decode : list Z -> list Z) (archives_open navmesh_loads : bool).

Definition load_data_from (w : WorldData) : outcome FileError WorldData :=
  levels ← load_level_map open_file decode;
  gold ← load_gold_map open_file decode;
  characters ← load_character_map open_file decode;
  items ← load_item_map open_file decode;
  skills ← load_skill_map open_file decode;
  masteries ← load_mastery_map open_file decode;
  Ok {| LEVELS := set_once levels w.(LEVELS); GOLD := set_once gold w.(GOLD);
        CHARACTERS := set_once characters w.(CHARACTERS); ITEMS := set_once items w.(ITEMS);
        SKILLS := set_once skills w.(SKILLS); MASTERIES := set_once masteries w.(MASTERIES) |}.

(** world/mod.rs: everything has to load. *)
Definition WorldPlugin : plugin := fun a =>
  _ ← config_of a;
  if negb archives_open then Panic
  else match load_data_from no_data, load_npc_positions open_file decode with
  | Ok _, Ok _ =>
      if negb navmesh_loads then Panic else Ok (world_systems a)
  | _, _ => Panic
  end.

(** ** main.rs *)

Definition agent_main (configuration : GameConfig) : outcome unit App :=
  all_plugins
    [ServerPlugin configuration; NetworkPlugin; ReceivePlugin; SynchronizationPlugin; AgentPlugin; PersistencePlugin;
     WorldPlugin; LoginPlugin; GamePlugin; MallPlugin]
    (insert_resource "DbPool" (insert_resource "TaskCreator" app_new)).

End World.

(** ** What a schedule runs *)

Definition in_schedule (a : App) (l : label) : list config :=
  map snd (List.filter (fun s => bool_decide (s.1 = l)) a.(systems)).

(** A name stands for the system of that name or for the members of a set. *)
Definition named (c : config) (name : string) : bool := (c.(system) =? name) || existsb (String.eqb name) c.(sets).

(** The constraints between two systems of a schedule. *)
Definition constrained (a : App) (l : label) (x y : config) : bool :=
  existsb (named x) y.(afters) || existsb (named y) x.(befores)
  || existsb (fun o => bool_decide (o.1 = l) && named x o.2.1 && named y o.2.2) a.(set_orders).

(** No later system of the order must come before an earlier one. *)
Definition respects {A} (R : A -> A -> bool) (order : list A) : Prop := ForallOrdPairs (fun x y => R y x = false) order.

(** An order of all systems of a schedule that keeps its constraints. *)
Definition admissible (a : App) (l : label) (order : list config) : Prop :=
  order ≡ₚ in_schedule a l /\ respects (constrained a l) order.

(** The schedules of a tick, each gone through in an admissible order. *)
Inductive pass (a : App) : list config -> Prop :=
| pass_intro first pre update post last :
    admissible a First first -> admissible a PreUpdate pre -> admissible a Update update ->
    admissible a PostUpdate post -> admissible a Last last ->
    pass a (first ++ pre ++ update ++ post ++ last).

(** Of the systems that are gone through the ones run that have no timer, or
    whose timer has ended. *)
Definition ran (due : config -> bool) (order : list config) : list config :=
  List.filter (fun c => match c.(on_timer) with None => true | Some _ => due c end) order.

(** The engine: the systems that a tick of an app may run, in their order. The
    main schedule goes through its schedules one after the other, through each
    system once and in an order that keeps the constraints; and no order but the
    constraints can be relied on. Which timers end in a tick is left open. *)
Class Engine := {
  ticks : App -> list config -> Prop;
  ticks_pass : forall a o, ticks a o -> exists order due, pass a order /\ o = ran due order;
  pass_ticks : forall a order, pass a order -> exists due, ticks a (ran due order);
}.
