(* ===== verification/ScheduleSpec.v ===== *)
(** A tick of the agent: which systems always run before which. Two systems are
    ordered exactly if a chain of constraints leads from one to the other, which
    is decided by a walk through any order of the schedule; with it, the
    pipelines of a tick are ordered, and others are not. *)
From stdpp Require Import base list option strings gmap.
From Stdlib Require Import ZArith Lia Permutation.
From S2P Require Import Prelude Utf Text F32 Definitions GameData SkillData Schedule.

(** ** Orders of a list under constraints *)

(** [x] stands before [y]. *)
Definition precedes {A} (l : list A) (x y : A) : Prop := exists i j, l !! i = Some x /\ l !! j = Some y /\ (i < j)%nat.

Lemma precedes_app {A} (l1 l2 : list A) x y : x ∈ l1 -> y ∈ l2 -> precedes (l1 ++ l2) x y.
Proof.
  intros Hx Hy. apply list_elem_of_lookup in Hx as [i Hi]. apply list_elem_of_lookup in Hy as [j Hj].
  exists i, (length l1 + j)%nat. pose proof (lookup_lt_Some _ _ _ Hi).
  rewrite lookup_app_l, lookup_app_r by lia. replace (length l1 + j - length l1)%nat with j by lia. repeat split; [exact Hi|exact Hj|lia].
Qed.

Lemma precedes_inside {A} (l1 l2 l3 : list A) x y : precedes l2 x y -> precedes (l1 ++ l2 ++ l3) x y.
Proof.
  intros (i & j & Hi & Hj & Hij). exists (length l1 + i)%nat, (length l1 + j)%nat.
  pose proof (lookup_lt_Some _ _ _ Hi). pose proof (lookup_lt_Some _ _ _ Hj).
  assert (E : forall n, (n < length l2)%nat -> (l1 ++ l2 ++ l3) !! (length l1 + n)%nat = l2 !! n).
  { intros n Hn. rewrite lookup_app_r, lookup_app_l by lia. f_equal. lia. }
  rewrite !E by assumption. repeat split; [exact Hi|exact Hj|lia].
Qed.

Lemma precedes_trans {A} (l : list A) x y z : NoDup l -> precedes l x y -> precedes l y z -> precedes l x z.
Proof.
  intros Hn (i & j & Hi & Hj & Hij) (j' & k & Hj' & Hk & Hjk). assert (j = j') as <- by (eapply NoDup_lookup; eassumption).
  exists i, k. repeat split; [assumption..|lia].
Qed.

Lemma precedes_asym {A} (l : list A) x y : NoDup l -> precedes l x y -> ~ precedes l y x.
Proof.
  intros Hn (i & j & Hi & Hj & Hij) (j' & i' & Hj' & Hi' & Hji).
  assert (i = i') as <- by (eapply NoDup_lookup; eassumption). assert (j = j') as <- by (eapply NoDup_lookup; eassumption). lia.
Qed.

Lemma precedes_total {A} (l : list A) x y : x ∈ l -> y ∈ l -> x <> y -> precedes l x y \/ precedes l y x.
Proof.
  intros Hx Hy Hne. apply list_elem_of_lookup in Hx as [i Hi]. apply list_elem_of_lookup in Hy as [j Hj].
  destruct (Nat.lt_trichotomy i j) as [Hl|[->|Hl]]; [left; exists i, j; auto|congruence|right; exists j, i; auto].
Qed.

Lemma precedes_map {A B} (f : A -> B) l x y : precedes l x y -> precedes (map f l) (f x) (f y).
Proof.
  intros (i & j & Hi & Hj & Hij). exists i, j. rewrite !list_lookup_fmap, Hi, Hj. auto.
Qed.

Section Orders.
Context {A : Type} (key : A -> string) (R : A -> A -> bool).

Lemma respects_precedes order x y : respects R order -> precedes order x y -> R y x = false.
Proof.
  intros Hr. induction Hr as [|z order Hz Hr IH]; intros (i & j & Hi & Hj & Hij); [destruct i; discriminate|].
  destruct j as [|j]; [lia|]. cbn in Hj. destruct i as [|i].
  - injection Hi as ->. rewrite Forall_forall in Hz. apply Hz. apply list_elem_of_lookup. eauto.
  - cbn in Hi. apply IH. exists i, j. repeat split; [assumption..|lia].
Qed.

Fixpoint respectsb (order : list A) : bool :=
  match order with
  | [] => true
  | x :: order => forallb (fun y => negb (R y x)) order && respectsb order
  end.

Lemma respectsb_true order : respectsb order = true -> respects R order.
Proof.
  induction order as [|x order IH]; [constructor|]. cbn [respectsb]. intros [H1 H2]%andb_true_iff. constructor; [|exact (IH H2)].
  apply Forall_forall. intros y Hy. rewrite forallb_forall in H1. apply negb_true_iff, H1, list_elem_of_In, Hy.
Qed.

(** Chains of constraints between members of a list. *)
Inductive chain (l : list A) : A -> A -> Prop :=
| chain_one x y : x ∈ l -> y ∈ l -> R x y = true -> chain l x y
| chain_step x y z : x ∈ l -> R x y = true -> chain l y z -> chain l x z.

Lemma chain_ends l x y : chain l x y -> x ∈ l /\ y ∈ l.
Proof. induction 1; tauto. Qed.

Lemma chain_precedes l order x y : order ≡ₚ l -> NoDup l -> (forall z, z ∈ l -> R z z = false) -> respects R order ->
  chain l x y -> precedes order x y.
Proof.
  intros Hp Hn Hi Hr Hc.
  assert (Hone : forall x y, x ∈ l -> y ∈ l -> R x y = true -> precedes order x y).
  { intros u v Hu Hv E. rewrite <- Hp in Hu, Hv. destruct (precedes_total order u v Hu Hv) as [|Hvu]; [|assumption|].
    - intros ->. rewrite Hp in Hu. rewrite Hi in E by assumption. discriminate.
    - rewrite (respects_precedes order v u Hr Hvu) in E. discriminate. }
  induction Hc as [u v Hu Hv E|u v w Hu E Hc IH]; [auto|].
  apply (precedes_trans order u v w); [rewrite Hp; exact Hn|apply Hone; [exact Hu|apply (chain_ends l v w Hc)|exact E]|exact IH].
Qed.

(** All from which a chain leads to the element named [k], with it, in the order
    they have: a walk from the end of the order. *)
Fixpoint leading (k : string) (order : list A) : list A :=
  match order with
  | [] => []
  | x :: order => let up := leading k order in if String.eqb (key x) k || existsb (R x) up then x :: up else up
  end.

Fixpoint others (k : string) (order : list A) : list A :=
  match order with
  | [] => []
  | x :: order => if String.eqb (key x) k || existsb (R x) (leading k order) then others k order else x :: others k order
  end.

Lemma leading_others k order : leading k order ++ others k order ≡ₚ order.
Proof.
  induction order as [|x order IH]; [reflexivity|]. cbn [leading others]. destruct (String.eqb (key x) k || _).
  - cbn [app]. rewrite IH. reflexivity.
  - rewrite <- Permutation_middle, IH. reflexivity.
Qed.

Lemma leading_sound k order x : x ∈ leading k order -> key x = k \/ exists y, key y = k /\ chain order x y.
Proof.
  assert (Hw : forall z l u v, chain l u v -> chain (z :: l) u v).
  { intros z l u v. induction 1 as [u v Hu Hv E|u v w Hu E _ IH]; [apply chain_one|eapply chain_step]; eauto; right; assumption. }
  revert x. induction order as [|z order IH]; intros x; cbn [leading]; [intros Hx; inversion Hx|].
  assert (Htail : x ∈ leading k order -> key x = k \/ exists y, key y = k /\ chain (z :: order) x y).
  { intros Hx. destruct (IH x Hx) as [E|(y & E & Hc)]; [auto|right; exists y; auto]. }
  destruct (String.eqb_spec (key z) k) as [E|E]; cbn [orb].
  { rewrite elem_of_cons. intros [->|Hx]; auto. }
  destruct (existsb (R z) (leading k order)) eqn:Ex; [|exact Htail].
  rewrite elem_of_cons. intros [->|Hx]; [|auto]. apply existsb_exists in Ex as (w & Hw' & Ew). apply list_elem_of_In in Hw'.
  assert (Hin : w ∈ order) by (rewrite <- (leading_others k order), elem_of_app; auto).
  right. destruct (IH w Hw') as [Ek|(y & Ek & Hc)].
  - exists w. split; [exact Ek|]. apply chain_one; [left|right; exact Hin|exact Ew].
  - exists y. split; [exact Ek|]. eapply chain_step; [left|exact Ew|apply Hw, Hc].
Qed.

(** Nothing outside of the walk must come before something inside. *)
Lemma others_free k order x y : respects R order -> (forall z, z ∈ order -> R z z = false) ->
  x ∈ leading k order -> y ∈ others k order -> R y x = false.
Proof.
  intros Hr Hi. induction Hr as [|z order Hz Hr IH]; cbn [leading others]; [intros Hx; inversion Hx|].
  assert (Htail : x ∈ leading k order -> y ∈ others k order -> R y x = false).
  { apply IH. intros w Hw. apply Hi. right. exact Hw. }
  assert (Hin : forall w, w ∈ others k order -> w ∈ order).
  { intros w Hw. rewrite <- (leading_others k order), elem_of_app. auto. }
  destruct (String.eqb (key z) k || existsb (R z) (leading k order)) eqn:E.
  - rewrite elem_of_cons. intros [->|Hx] Hy; [|auto]. rewrite Forall_forall in Hz. apply Hz, Hin, Hy.
  - intros Hx. rewrite elem_of_cons. intros [->|Hy]; [|auto]. apply orb_false_iff in E as [_ E].
    destruct (R z x) eqn:Ez; [|reflexivity]. rewrite <- E. symmetry. apply existsb_exists. exists x.
    split; [apply list_elem_of_In, Hx|exact Ez].
Qed.

Lemma respects_sub k order : respects R order -> respects R (leading k order) /\ respects R (others k order).
Proof.
  intros Hr. induction Hr as [|z order Hz Hr [IH1 IH2]]; cbn [leading others]; [split; constructor|].
  rewrite Forall_forall in Hz.
  destruct (String.eqb (key z) k || _); (split; [|]); try assumption; constructor; try assumption;
    apply Forall_forall; intros w Hw; apply Hz; rewrite <- (leading_others k order), elem_of_app; auto.
Qed.

Lemma respects_app l1 l2 : respects R l1 -> respects R l2 -> (forall x y, x ∈ l1 -> y ∈ l2 -> R y x = false) ->
  respects R (l1 ++ l2).
Proof.
  intros H1 H2 H. induction H1 as [|z l1 Hz H1 IH]; [exact H2|]. cbn [app]. constructor.
  - apply Forall_app. split; [exact Hz|]. apply Forall_forall. intros y Hy. apply H; [left|exact Hy].
  - apply IH. intros x y Hx. apply H. right. exact Hx.
Qed.

(** The order in which what leads to [k] comes first. *)
Definition earliest (k : string) (order : list A) : list A := leading k order ++ others k order.

Lemma earliest_respects k order : respects R order -> (forall z, z ∈ order -> R z z = false) -> respects R (earliest k order).
Proof.
  intros Hr Hi. destruct (respects_sub k order Hr) as [H1 H2]. apply respects_app; [exact H1|exact H2|].
  intros x y Hx Hy. exact (others_free k order x y Hr Hi Hx Hy).
Qed.

Lemma leading_self k order x : x ∈ order -> key x = k -> x ∈ leading k order.
Proof.
  intros Hx Ek. induction order as [|z order IH]; [inversion Hx|]. cbn [leading]. apply elem_of_cons in Hx as [->|Hx].
  - rewrite Ek, String.eqb_refl. left.
  - destruct (String.eqb (key z) k || _); [right|]; auto.
Qed.

(** Whether [x] is before [y] in every order, from one of them. *)
Definition ordered (order : list A) (x y : string) : bool :=
  negb (String.eqb x y) && existsb (fun z => String.eqb (key z) x) (leading y order).

Lemma ordered_sound l order x y o : order ≡ₚ l -> (forall z, z ∈ l -> R z z = false) -> NoDup l ->
  ordered order x y = true -> o ≡ₚ l -> respects R o -> precedes (map key o) x y.
Proof.
  intros Hp Hi Hnl E Ho Hro. unfold ordered in E. apply andb_true_iff in E as [Hne E].
  apply negb_true_iff, String.eqb_neq in Hne. apply existsb_exists in E as (z & Hz & Ez).
  apply list_elem_of_In in Hz. apply String.eqb_eq in Ez as <-.
  apply leading_sound in Hz as [E|(w & <- & Hc)]; [contradiction|].
  apply precedes_map. apply (chain_precedes l o z w Ho Hnl Hi Hro).
  clear - Hc Hp. induction Hc; [apply chain_one|eapply chain_step]; eauto; rewrite <- Hp; assumption.
Qed.

(** Without a chain, the order in which [y] comes earliest reverses them. *)
Lemma unordered_reversed l order x y : order ≡ₚ l -> respects R order -> (forall z, z ∈ l -> R z z = false) ->
  x ∈ map key l -> y ∈ map key l -> x <> y -> ordered order x y = false ->
  exists o, o ≡ₚ l /\ respects R o /\ precedes (map key o) y x.
Proof.
  intros Hp Hr Hi Hx Hy Hne E. exists (earliest y order).
  split; [exact (transitivity (leading_others y order) Hp)|].
  split; [apply earliest_respects; [exact Hr|intros z Hz; apply Hi; rewrite <- Hp; exact Hz]|].
  apply list_elem_of_fmap in Hx as (u & -> & Hu). apply list_elem_of_fmap in Hy as (v & -> & Hv). rewrite <- Hp in Hu, Hv.
  unfold earliest. apply precedes_map, precedes_app; [apply leading_self; [exact Hv|reflexivity]|].
  rewrite <- (leading_others (key v) order), elem_of_app in Hu. destruct Hu as [Hu|Hu]; [|exact Hu]. exfalso.
  unfold ordered in E. apply String.eqb_neq in Hne. rewrite Hne in E. cbn [negb andb] in E.
  enough (true = false) by discriminate. rewrite <- E. symmetry. apply existsb_exists. exists u.
  split; [apply list_elem_of_In, Hu|apply String.eqb_refl].
Qed.

End Orders.
(** ** An order of a schedule *)

Section Kahn.
Context {A : Type} (R : A -> A -> bool).

(** The first element that nothing of [all] must come before, and what is left. *)
Fixpoint pick (all l : list A) : option (A * list A) :=
  match l with
  | [] => None
  | x :: l =>
      if forallb (fun y => negb (R y x)) all then Some (x, l)
      else '(y, rest) ← pick all l; Some (y, x :: rest)
  end.

Fixpoint kahn (fuel : nat) (l : list A) : list A :=
  match fuel with
  | O => []
  | S fuel => match pick l l with Some (x, rest) => x :: kahn fuel rest | None => [] end
  end.

Lemma pick_perm all l x rest : pick all l = Some (x, rest) -> x :: rest ≡ₚ l.
Proof.
  revert x rest. induction l as [|y l IH]; intros x rest; cbn [pick]; [discriminate|].
  destruct (forallb _ all); [intros E; injection E as <- <-; reflexivity|].
  destruct (pick all l) as [[z r]|] eqn:Ep; [|discriminate]. cbn. intros E. injection E as <- <-.
  rewrite Permutation_swap, (IH z r eq_refl). reflexivity.
Qed.

Lemma kahn_part fuel : forall l, exists rest, kahn fuel l ++ rest ≡ₚ l.
Proof.
  induction fuel as [|fuel IH]; intros l; [exists l; reflexivity|]. cbn [kahn].
  destruct (pick l l) as [[x rest]|] eqn:Ep; [|exists l; reflexivity].
  destruct (IH rest) as [r Hr]. exists r. cbn [app]. rewrite Hr. apply (pick_perm l), Ep.
Qed.

Lemma kahn_perm fuel l : length (kahn fuel l) = length l -> kahn fuel l ≡ₚ l.
Proof.
  intros E. destruct (kahn_part fuel l) as [rest H]. pose proof (Permutation_length H) as Hl.
  rewrite length_app in Hl. destruct rest; [rewrite app_nil_r in H; exact H|cbn in Hl; lia].
Qed.

End Kahn.

Fixpoint distinct (l : list string) : bool :=
  match l with [] => true | x :: l => negb (existsb (String.eqb x) l) && distinct l end.

Lemma distinct_NoDup l : distinct l = true -> NoDup l.
Proof.
  induction l as [|x l IH]; cbn [distinct]; [constructor|]. intros [H1 H2]%andb_true_iff. constructor; [|exact (IH H2)].
  intros Hx. apply negb_true_iff in H1. enough (existsb (String.eqb x) l = true) by congruence.
  apply existsb_exists. exists x. split; [apply list_elem_of_In, Hx|apply String.eqb_refl].
Qed.

Definition names (order : list config) : list string := map system order.

Definition order_of (a : App) (l : label) : list config :=
  kahn (constrained a l) (length (in_schedule a l)) (in_schedule a l).

(** A schedule that the engine accepts: an order exists, no system is in it
    twice, and none must come before itself. *)
Definition sound (a : App) (l : label) : bool :=
  (length (order_of a l) =? length (in_schedule a l))%nat && respectsb (constrained a l) (order_of a l)
  && distinct (names (in_schedule a l)) && forallb (fun c => negb (constrained a l c c)) (in_schedule a l).

Lemma sound_admissible a l : sound a l = true ->
  admissible a l (order_of a l) /\ NoDup (names (in_schedule a l)) /\ forall c, c ∈ in_schedule a l -> constrained a l c c = false.
Proof.
  unfold sound. rewrite !andb_true_iff, Nat.eqb_eq, forallb_forall. intros [[[H1 H2] H3] H4].
  split; [split; [apply kahn_perm, H1|apply respectsb_true, H2]|]. split; [apply distinct_NoDup, H3|].
  intros c Hc. apply negb_true_iff, H4, list_elem_of_In, Hc.
Qed.

(** Whether a system always runs before another one of its schedule. *)
Definition first_in (a : App) (l : label) (x y : string) : bool := ordered system (constrained a l) (order_of a l) x y.

Lemma first_in_always a l x y o : sound a l = true -> first_in a l x y = true -> admissible a l o -> precedes (names o) x y.
Proof.
  intros Hs E [Ho Hro]. destruct (sound_admissible a l Hs) as ([Hp _] & Hn & Hi).
  apply (ordered_sound system (constrained a l) (in_schedule a l) (order_of a l) x y o Hp Hi); try assumption.
  apply (NoDup_fmap_1 system), Hn.
Qed.

Lemma not_first_in a l x y : sound a l = true -> x ∈ names (in_schedule a l) -> y ∈ names (in_schedule a l) -> x <> y ->
  first_in a l x y = false -> exists o, admissible a l o /\ precedes (names o) y x.
Proof.
  intros Hs Hx Hy Hne E. destruct (sound_admissible a l Hs) as ([Hp Hr] & _ & Hi).
  destruct (unordered_reversed system (constrained a l) (in_schedule a l) (order_of a l) x y Hp Hr Hi Hx Hy Hne E)
    as (o & H1 & H2 & H3). exists o. split; [split|]; assumption.
Qed.

(** ** The schedules of a tick *)

Definition tick_labels : list label := [First; PreUpdate; Update; PostUpdate; Last].
Definition stage (l : label) : nat :=
  match l with Startup => 0 | First => 1 | PreUpdate => 2 | Update => 3 | PostUpdate => 4 | Last => 5 end.

Definition label_of (a : App) (x : string) : option label :=
  List.find (fun l => existsb (String.eqb x) (names (in_schedule a l))) tick_labels.

(** Whether a system of a tick always runs before another one. *)
Definition always_before (a : App) (x y : string) : bool :=
  match label_of a x, label_of a y with
  | Some l, Some m => (stage l <? stage m)%nat || (bool_decide (l = m) && first_in a l x y)
  | _, _ => false
  end.

Lemma label_of_in a x l : label_of a x = Some l -> l ∈ tick_labels /\ x ∈ names (in_schedule a l).
Proof.
  intros E. apply find_some in E as [H1 H2]. apply existsb_exists in H2 as (z & Hz & E). apply String.eqb_eq in E as <-.
  split; apply list_elem_of_In; assumption.
Qed.

Lemma admissible_names a l o x : admissible a l o -> x ∈ names (in_schedule a l) -> x ∈ names o.
Proof. intros [Hp _]. unfold names. rewrite Hp. auto. Qed.

Definition sound_app (a : App) : Prop := forall l, l ∈ tick_labels -> sound a l = true.

Lemma startup_apart : Startup ∉ tick_labels.
Proof. unfold tick_labels. rewrite !not_elem_of_cons. repeat split; try discriminate. apply not_elem_of_nil. Qed.

(** A pass with one of its schedules in an order of choice. *)
Lemma pass_with a l o : sound_app a -> l ∈ tick_labels -> admissible a l o -> exists before after, pass a (before ++ o ++ after).
Proof.
  intros Hs Hl Ho.
  assert (H : forall m, m ∈ tick_labels -> admissible a m (order_of a m)) by (intros m Hm; apply sound_admissible, Hs, Hm).
  assert (Hm : First ∈ tick_labels /\ PreUpdate ∈ tick_labels /\ Update ∈ tick_labels /\ PostUpdate ∈ tick_labels /\ Last ∈ tick_labels)
    by (repeat split; unfold tick_labels; rewrite !elem_of_cons; tauto).
  destruct Hm as (H1 & H2 & H3 & H4 & H5). destruct l.
  - exfalso. exact (startup_apart Hl).
  - exists [], (order_of a PreUpdate ++ order_of a Update ++ order_of a PostUpdate ++ order_of a Last). cbn [app]. constructor; auto.
  - exists (order_of a First), (order_of a Update ++ order_of a PostUpdate ++ order_of a Last). constructor; auto.
  - exists (order_of a First ++ order_of a PreUpdate), (order_of a PostUpdate ++ order_of a Last).
    rewrite <- app_assoc. constructor; auto.
  - exists (order_of a First ++ order_of a PreUpdate ++ order_of a Update), (order_of a Last).
    rewrite <- !app_assoc. constructor; auto.
  - exists (order_of a First ++ order_of a PreUpdate ++ order_of a Update ++ order_of a PostUpdate), [].
    rewrite <- !app_assoc, app_nil_r. constructor; auto.
Qed.

(** Where the systems of a schedule are in a pass. *)
Lemma pass_cut a o l : pass a o -> l ∈ tick_labels -> exists o1 o2 o3, o = o1 ++ o2 ++ o3 /\ admissible a l o2
  /\ (forall m x, m ∈ tick_labels -> (stage l < stage m)%nat -> x ∈ names (in_schedule a m) -> x ∈ names o3).
Proof.
  intros [first pre update post last H1 H2 H3 H4 H5] Hl.
  assert (Hin : forall m x o o', admissible a m o -> x ∈ names (in_schedule a m) -> (forall c, c ∈ o -> c ∈ o') -> x ∈ names o').
  { intros m x p p' Hr Hx Hsub. apply (admissible_names a m p x Hr) in Hx. apply list_elem_of_fmap in Hx as (c & -> & Hc).
    apply list_elem_of_fmap. eauto. }
  destruct l; [exfalso; exact (startup_apart Hl)|..].
  1: exists [], first, (pre ++ update ++ post ++ last).
  2: exists first, pre, (update ++ post ++ last).
  3: exists (first ++ pre), update, (post ++ last).
  4: exists (first ++ pre ++ update), post, last.
  5: exists (first ++ pre ++ update ++ post), last, [].
  all: (split; [rewrite <- ?app_assoc, ?app_nil_r; reflexivity|]); (split; [assumption|]).
  all: intros m x Hm Hlt Hx; destruct m; cbn in Hlt; try lia.
  all: match goal with Hr : admissible _ ?k _, Hx : _ ∈ names (in_schedule _ ?k) |- _ => apply (Hin k x _ _ Hr Hx) end;
    intros c Hc; rewrite ?elem_of_app; auto.
Qed.

Lemma pass_stages a o l m x y : pass a o -> label_of a x = Some l -> label_of a y = Some m -> (stage l < stage m)%nat ->
  precedes (names o) x y.
Proof.
  intros Ht Hx Hy Hlt. apply label_of_in in Hx as [Hl Hx]. apply label_of_in in Hy as [Hm Hy].
  destruct (pass_cut a o l Ht Hl) as (o1 & o2 & o3 & -> & Hr & Hlater). unfold names. rewrite map_app, map_app.
  rewrite app_assoc. apply precedes_app; [|exact (Hlater m y Hm Hlt Hy)].
  rewrite elem_of_app. right. exact (admissible_names a l o2 x Hr Hx).
Qed.

Lemma always_before_sound a x y o : sound_app a -> always_before a x y = true -> pass a o -> precedes (names o) x y.
Proof.
  intros Hs E Ht. unfold always_before in E. destruct (label_of a x) as [l|] eqn:Ex; [|discriminate].
  destruct (label_of a y) as [m|] eqn:Ey; [|discriminate]. apply orb_true_iff in E as [E|E].
  - apply Nat.ltb_lt in E. exact (pass_stages a o l m x y Ht Ex Ey E).
  - apply andb_true_iff in E as [El E]. apply bool_decide_eq_true in El as <-.
    pose proof (label_of_in a x l Ex) as [Hl _]. destruct (pass_cut a o l Ht Hl) as (o1 & o2 & o3 & -> & Hr & _).
    unfold names. rewrite !map_app. apply precedes_inside. exact (first_in_always a l x y o2 (Hs l Hl) E Hr).
Qed.

Lemma always_before_complete a x y l m : sound_app a -> label_of a x = Some l -> label_of a y = Some m -> x <> y ->
  always_before a x y = false -> exists o, pass a o /\ precedes (names o) y x.
Proof.
  intros Hs Ex Ey Hne E. unfold always_before in E. rewrite Ex, Ey in E. apply orb_false_iff in E as [E1 E2].
  pose proof (label_of_in a x l Ex) as [Hl Hx]. pose proof (label_of_in a y m Ey) as [Hm Hy].
  destruct (decide (l = m)) as [<-|Hlm].
  - rewrite bool_decide_true in E2 by reflexivity. cbn [andb] in E2.
    destruct (not_first_in a l x y (Hs l Hl) Hx Hy Hne E2) as (o & Ho & Hp).
    destruct (pass_with a l o Hs Hl Ho) as (o1 & o2 & Ht). exists (o1 ++ o ++ o2). split; [exact Ht|].
    unfold names. rewrite !map_app. apply precedes_inside, Hp.
  - apply Nat.ltb_ge in E1. assert (stage m < stage l)%nat by (destruct l, m; cbn in *; (congruence || lia)).
    destruct (pass_with a l (order_of a l) Hs Hl) as (o1 & o2 & Ht); [apply sound_admissible, Hs, Hl|].
    exists (o1 ++ order_of a l ++ o2). split; [exact Ht|]. exact (pass_stages a _ m l y x Ht Ey Ex H).
Qed.

(** ** The agent *)

Definition agent_plugins (world : plugin) (configuration : GameConfig) : plugin :=
  all_plugins
    [ServerPlugin configuration; NetworkPlugin; ReceivePlugin; SynchronizationPlugin; AgentPlugin; PersistencePlugin;
     world; LoginPlugin; GamePlugin; MallPlugin].

(** The agent when everything has loaded. *)
Definition agent_app (configuration : GameConfig) : outcome unit App :=
  agent_plugins (fun a => Ok (world_systems a)) configuration (insert_resource "DbPool"%string (insert_resource "TaskCreator"%string app_new)).

Lemma all_plugins_refine ps qs : Forall2 (fun p q : plugin => forall a b, p a = Ok b -> q a = Ok b) ps qs ->
  forall a b, all_plugins ps a = Ok b -> all_plugins qs a = Ok b.
Proof.
  induction 1 as [|p q ps qs Hpq _ IH]; intros a b H; [exact H|]. cbn [all_plugins fold_right] in *. unfold also in *.
  apply bind_ok in H as (d & Hd & H). rewrite (Hpq a d Hd). cbn [mbind outcome_bind]. apply IH, H.
Qed.

Lemma agent_main_app open_file decode archives_open navmesh_loads c a :
  agent_main open_file decode archives_open navmesh_loads c = Ok a -> agent_app c = Ok a.
Proof.
  unfold agent_main, agent_app, agent_plugins. apply all_plugins_refine. repeat constructor; auto.
  intros b d H. unfold WorldPlugin in H. apply bind_ok in H as (? & _ & H).
  repeat (case_match_hyp H; try discriminate). exact H.
Qed.

Lemma agent_sound c a : agent_app c = Ok a -> sound_app a.
Proof.
  intros H l Hl. vm_compute in H. injection H as <-. unfold tick_labels in Hl. rewrite !elem_of_cons in Hl.
  destruct l; [exfalso; exact (startup_apart ltac:(unfold tick_labels; rewrite !elem_of_cons; exact Hl))|..]; vm_compute; reflexivity.
Qed.

(** No system is in two schedules of a tick. *)
Lemma agent_distinct c a o : agent_app c = Ok a -> pass a o -> NoDup (names o).
Proof.
  intros H Ht. assert (Hd : distinct (names (concat (map (in_schedule a) tick_labels))) = true).
  { vm_compute in H. injection H as <-. vm_compute. reflexivity. }
  apply distinct_NoDup in Hd. destruct Ht as [first pre update post last [H1 _] [H2 _] [H3 _] [H4 _] [H5 _]].
  cbn [tick_labels map concat] in Hd. rewrite app_nil_r in Hd. unfold names in *. rewrite H1, H2, H3, H4, H5. exact Hd.
Qed.

(** ** What a tick runs *)

Lemma precedes_filter {A} (f : A -> bool) (l : list A) x y :
  precedes l x y -> f x = true -> f y = true -> precedes (List.filter f l) x y.
Proof.
  intros (i & j & Hi & Hj & Hij) Hx Hy. apply list_elem_of_split_length in Hi as (l1 & l2 & -> & ->).
  rewrite lookup_app_r in Hj by lia. destruct (j - length l1)%nat eqn:E; [lia|]. cbn in Hj.
  rewrite List.filter_app. cbn [List.filter]. rewrite Hx. change (x :: List.filter f l2) with ([x] ++ List.filter f l2). rewrite app_assoc.
  apply precedes_app; [rewrite elem_of_app; right; left|]. apply list_elem_of_In, filter_In. split; [|exact Hy].
  apply list_elem_of_In, list_elem_of_lookup. eauto.
Qed.

(** The systems of a pass are those of the schedules. *)
Definition scheduled (a : App) : list config := concat (map (in_schedule a) tick_labels).

Lemma pass_perm a o : pass a o -> o ≡ₚ scheduled a.
Proof.
  intros [first pre update post last [H1 _] [H2 _] [H3 _] [H4 _] [H5 _]]. unfold scheduled. cbn [tick_labels map concat].
  rewrite app_nil_r, H1, H2, H3, H4, H5. reflexivity.
Qed.

(** A system without a timer, by its name. *)
Definition untimed (a : App) (x : string) : bool :=
  forallb (fun c => negb (String.eqb c.(system) x) || bool_decide (c.(on_timer) = None)) (scheduled a).

Lemma untimed_runs a o due c : pass a o -> untimed a c.(system) = true -> c ∈ o ->
  match c.(on_timer) with None => true | Some _ => due c end = true.
Proof.
  intros Hp Hu Hc. rewrite (pass_perm a o Hp) in Hc. unfold untimed in Hu. rewrite forallb_forall in Hu.
  specialize (Hu c (proj1 (list_elem_of_In _ _) Hc)). rewrite String.eqb_refl in Hu. apply bool_decide_eq_true in Hu.
  rewrite Hu. reflexivity.
Qed.

(** Two systems are in a name's order if they are in the order of the pass. *)
Lemma ran_precedes a o due x y : pass a o -> NoDup (names o) -> precedes (names o) x y ->
  untimed a x = true -> untimed a y = true \/ y ∈ names (ran due o) -> precedes (names (ran due o)) x y.
Proof.
  intros Hp Hn (i & j & Hi & Hj & Hij) Hx Hy. unfold names in *. rewrite !list_lookup_fmap in Hi, Hj.
  destruct (o !! i) as [c|] eqn:Ei; [|discriminate]. destruct (o !! j) as [d|] eqn:Ej; [|discriminate].
  injection Hi as <-. injection Hj as <-. apply precedes_map, precedes_filter; [exists i, j; auto| |].
  - apply (untimed_runs a o due c Hp Hx). apply list_elem_of_lookup. eauto.
  - destruct Hy as [Hy|Hy]; [apply (untimed_runs a o due d Hp Hy), list_elem_of_lookup; eauto|].
    apply list_elem_of_fmap in Hy as (d' & E & Hd). apply list_elem_of_In, filter_In in Hd as [Hd Hdue].
    apply list_elem_of_In, list_elem_of_lookup in Hd as [k Hk].
    assert (j = k) as <-.
    { apply (NoDup_lookup (map system o) j k d.(system) Hn); rewrite list_lookup_fmap; [rewrite Ej|rewrite Hk, E]; reflexivity. }
    assert (d' = d) as -> by congruence. exact Hdue.
Qed.

Lemma ran_names a o due x : pass a o -> untimed a x = true -> x ∈ names o -> x ∈ names (ran due o).
Proof.
  intros Hp Hu Hx. apply list_elem_of_fmap in Hx as (c & -> & Hc). apply list_elem_of_fmap. exists c. split; [reflexivity|].
  apply list_elem_of_In, filter_In. split; [apply list_elem_of_In, Hc|exact (untimed_runs a o due c Hp Hu Hc)].
Qed.

Lemma ran_NoDup due o : NoDup (names o) -> NoDup (names (ran due o)).
Proof.
  induction o as [|c o IH]; [auto|]. cbn. intros [Hc Hn]%NoDup_cons. destruct (match c.(on_timer) with None => _ | _ => _ end); [|auto].
  cbn. apply NoDup_cons. split; [|auto]. intros (d & E & Hd)%list_elem_of_fmap. apply Hc, list_elem_of_fmap. exists d.
  split; [exact E|]. apply list_elem_of_In, filter_In in Hd as [Hd _]. apply list_elem_of_In, Hd.
Qed.

Section Loaded.
Context (open_file : list Z -> option (list Z)) (decode : list Z -> list Z) (archives_open navmesh_loads : bool).
Context {engine : Engine}.

Open Scope string_scope.

(** What the theorems on a tick rely on: inputs are there before they are used
    and gone after it; a movement is told in its tick; damage leads to
    experience and levels in its tick; commands follow their messages; what
    appears is told before updates about it; a change of the inventory is
    collected before it is stored. *)
Definition pipelines : list (string * string) :=
  [("receive_game_inputs", "movement_input"); ("movement_input", "transition_from_idle");
   ("transition_from_idle", "movement"); ("update_target_location", "movement");
   ("movement", "collect_movement_update"); ("collect_movement_update", "synchronize_updates");
   ("synchronize_updates", "reset_component::Position");
   ("handle_damage", "distribute_experience"); ("distribute_experience", "receive_experience");
   ("handle_damage", "receive_experience"); ("handle_damage", "reset_health_mana_on_level");
   ("receive_experience", "reset_health_mana_on_level"); ("reset_health_mana_on_level", "system_collect_bars_update");
   ("receive_experience", "system_collect_level_up"); ("system_collect_level_up", "reset_component::Leveled");
   ("handle_chat", "handle_command"); ("handle_command", "handle_teleport"); ("handle_chat", "handle_teleport");
   ("visibility_update", "player_visibility_update"); ("player_visibility_update", "synchronize_updates");
   ("handle_inventory_input", "collect_changes::PlayerInventory");
   ("collect_changes::PlayerInventory", "apply_changes_exit::PlayerInventory");
   ("receive_login_inputs", "handle_join"); ("handle_join", "load_finished"); ("handle_auth", "reset");
   ("disconnected", "apply_changes_combined")].

(** What is stored periodically is collected before, and of a client that is
    gone nothing is stored; these systems run when their timers have ended. *)
Definition timed_pipelines : list (string * string) :=
  [("collect_changes::SkillBook", "apply_changes::SkillBook");
   ("collect_changes::PlayerInventory", "apply_changes::PlayerInventory");
   ("disconnected", "apply_changes_periodically"); ("disconnected", "apply_changes::PlayerInventory")].

(** Systems whose order differs between ticks: an attack may be handled in its
    tick or in the next one, and so on. *)
Definition unordered : list (string * string) :=
  [("action", "handle_damage"); ("movement", "visibility_update"); ("movement", "handle_teleport");
   ("handle_chat", "handle_gm_commands"); ("transition_from_idle", "handle_action"); ("accept", "disconnected");
   ("handle_damage", "attack_player"); ("load_finished", "player_visibility_update"); ("dead", "handle_damage");
   ("receive_game_inputs", "maintain_entities"); ("collect_entities", "collect_monster_deaths");
   ("apply_changes_combined", "apply_changes_exit::PlayerInventory"); ("pickup", "handle_inventory_input")].

Lemma untimed_all a o due l s : pass a o -> l ∈ tick_labels -> s ∈ in_schedule a l ->
  s.(on_timer) = None -> s.(system) ∈ names (ran due o).
Proof.
  intros Hp Hl Hs Hn. apply list_elem_of_fmap. exists s. split; [reflexivity|]. apply list_elem_of_In, filter_In.
  rewrite Hn. split; [|reflexivity]. apply list_elem_of_In. rewrite (pass_perm a o Hp). unfold scheduled.
  apply list_elem_of_In, in_concat. exists (in_schedule a l). apply list_elem_of_In in Hl, Hs. split; [apply in_map, Hl|exact Hs].
Qed.

(** The walks that decide the pairs, computed. *)
Lemma agent_pipelines c a : agent_app c = Ok a -> forall p, p ∈ pipelines ->
  always_before a p.1 p.2 = true /\ untimed a p.1 = true /\ untimed a p.2 = true.
Proof.
  intros Ha p Hp. assert (Hb : forallb (fun p => always_before a p.1 p.2 && untimed a p.1 && untimed a p.2) pipelines = true)
    by (vm_compute in Ha; injection Ha as <-; vm_compute; reflexivity).
  rewrite forallb_forall in Hb. apply list_elem_of_In, Hb in Hp. rewrite !andb_true_iff in Hp. tauto.
Qed.

Lemma agent_timed_pipelines c a : agent_app c = Ok a -> forall p, p ∈ timed_pipelines ->
  always_before a p.1 p.2 = true /\ untimed a p.1 = true.
Proof.
  intros Ha p Hp. assert (Hb : forallb (fun p => always_before a p.1 p.2 && untimed a p.1) timed_pipelines = true)
    by (vm_compute in Ha; injection Ha as <-; vm_compute; reflexivity).
  rewrite forallb_forall in Hb. apply list_elem_of_In, Hb in Hp. rewrite !andb_true_iff in Hp. tauto.
Qed.

Lemma agent_unordered c a : agent_app c = Ok a -> forall p, p ∈ unordered ->
  always_before a p.1 p.2 = false /\ always_before a p.2 p.1 = false /\ p.1 <> p.2
  /\ is_Some (label_of a p.1) /\ is_Some (label_of a p.2) /\ untimed a p.1 = true /\ untimed a p.2 = true.
Proof.
  intros Ha p Hp.
  assert (Hb : forallb (fun p => negb (always_before a p.1 p.2) && negb (always_before a p.2 p.1) && negb (String.eqb p.1 p.2)
                 && bool_decide (is_Some (label_of a p.1)) && bool_decide (is_Some (label_of a p.2))
                 && untimed a p.1 && untimed a p.2) unordered = true)
    by (vm_compute in Ha; injection Ha as <-; vm_compute; reflexivity).
  rewrite forallb_forall in Hb. apply list_elem_of_In, Hb in Hp.
  rewrite !andb_true_iff, !negb_true_iff, String.eqb_neq, !bool_decide_eq_true in Hp. tauto.
Qed.

(** C33: When the agent starts, its schedules have an order, so that it runs. A
    tick runs every system at most once, and the ones without a timer once; in
    every tick, whatever order the engine chooses and whichever timers end, the
    systems of the pipelines run in their order, the ones that end in a system
    with a timer when this runs, while for each of the unordered pairs there are
    ticks with either order. One of the orders is not wanted: clients are
    despawned before the persistence of the tick looks for them, which is how
    changes are lost. *)
Theorem tick_is_ordered c a :
  agent_main open_file decode archives_open navmesh_loads c = Ok a ->
  (exists o, ticks a o)
  /\ (forall o, ticks a o -> NoDup (names o)
        /\ (forall l s, l ∈ tick_labels -> s ∈ in_schedule a l -> s.(on_timer) = None -> s.(system) ∈ names o)
        /\ Forall (fun p => precedes (names o) p.1 p.2) pipelines
        /\ Forall (fun p => p.2 ∈ names o -> precedes (names o) p.1 p.2) timed_pipelines)
  /\ Forall (fun p => (exists o, ticks a o /\ precedes (names o) p.1 p.2) /\ (exists o, ticks a o /\ precedes (names o) p.2 p.1)) unordered.
Proof.
  intros Ha. apply agent_main_app in Ha. pose proof (agent_sound c a Ha) as Hs. split; [|split].
  - destruct (pass_with a First (order_of a First) Hs) as (o1 & o2 & Ht); [left|apply sound_admissible, Hs; left|].
    destruct (pass_ticks a _ Ht) as [due Hd]. eauto.
  - intros o Ht. apply ticks_pass in Ht as (order & due & Hp & ->). pose proof (agent_distinct c a order Ha Hp) as Hn.
    split; [apply ran_NoDup, Hn|]. split; [exact (fun l s => untimed_all a order due l s Hp)|].
    split; apply Forall_forall; intros p Hin; [|intros Hy]; apply (ran_precedes a order due); auto.
    all: try (apply (always_before_sound a); [exact Hs| |exact Hp]).
    + apply (agent_pipelines c a Ha p Hin).
    + apply (agent_pipelines c a Ha p Hin).
    + left. apply (agent_pipelines c a Ha p Hin).
    + apply (agent_timed_pipelines c a Ha p Hin).
    + apply (agent_timed_pipelines c a Ha p Hin).
  - apply Forall_forall. intros p Hin. destruct (agent_unordered c a Ha p Hin) as (E1 & E2 & Hne & (l & El) & (m & Em) & U1 & U2).
    split; [destruct (always_before_complete a p.2 p.1 m l) as (o & Hp & Ho)|destruct (always_before_complete a p.1 p.2 l m) as (o & Hp & Ho)];
      auto; destruct (pass_ticks a o Hp) as [due Hd]; exists (ran due o); (split; [exact Hd|]);
      apply (ran_precedes a o due); auto; exact (agent_distinct c a o Ha Hp).
Qed.

End Loaded.

(** An agent with empty tables. *)
Definition example_config : GameConfig := {| desired_ticks := 128; persist_interval := 60 |}.
Definition example_agent : App :=
  match agent_main (fun _ => Some []) (fun s => s) true true example_config with Ok a => a | _ => app_new end.

Lemma example_started : agent_main (fun _ => Some []) (fun s => s) true true example_config = Ok example_agent.
Proof. vm_compute. reflexivity. Qed.

(** An engine all of whose timers have ended. *)
#[local] Instance hasty_engine : Engine.
Proof.
  refine {| ticks := fun a o => exists order, pass a order /\ o = ran (fun _ => true) order |}.
  - intros a o (order & Hp & ->). eauto.
  - intros a order Hp. eauto.
Defined.

Lemma tick_is_ordered_witness :
  (exists o, ticks example_agent o)
  /\ (forall o, ticks example_agent o -> Forall (fun p => precedes (names o) p.1 p.2) pipelines)
  /\ example_agent.(tick_length) = Some 7812500.
Proof.
  destruct (tick_is_ordered (fun _ => Some []) (fun s => s) true true example_config example_agent example_started) as (H1 & H2 & _).
  split; [exact H1|]. split; [intros o Ho; apply (H2 o Ho)|vm_compute; reflexivity].
Defined.

(** Once the data has loaded, it is there for everyone: no access panics. *)
Lemma data_loaded open_file decode w : load_data_from open_file decode no_data = Ok w ->
  (exists v, get_expected w.(ITEMS) = Ok v) /\ (exists v, get_expected w.(CHARACTERS) = Ok v)
  /\ (exists v, get_expected w.(SKILLS) = Ok v) /\ (exists v, get_expected w.(LEVELS) = Ok v)
  /\ (exists v, get_expected w.(GOLD) = Ok v) /\ (exists v, get_expected w.(MASTERIES) = Ok v).
Proof.
  unfold load_data_from. intros H. do 6 (apply bind_ok in H as (? & _ & H)). injection H as <-.
  repeat split; eexists; reflexivity.
Qed.
